(* ===== verification/_CoqProject ===== *)
-Q . S2P
Prelude.v
Ring.v
Crc32c.v
Cobs.v
Defs.v
Frame.v
Tlv.v
DeviceModel.v
Faults.v
ServerState.v
ServerCore.v
CtlQueue.v
MediaQueue.v
ServerVoice.v
ServerLink.v
ServerDispatch.v
Server.v
ServerInv.v
ServerSafe.v
ServerProps.v
ServerFlow.v
ServerQueues.v
ServerSpecs.v
VoiceProps.v
Ima.v
Input.v
Hogp.v
Atvv.v
Board.v
CacheStore.v
Usb.v
UsbProps.v
Gatt.v
GattProps.v
Trace.v
Ico.v
AdapterState.v
Unicom.v
Adapter.v
AdapterCache.v
AdapterProps.v
AdapterRun.v
AdapterSpecs.v
UnicomProps.v
ServerWorld.v
CentralState.v
Central.v
CandidateName.v
CentralProps.v
CentralWalk.v
CentralSpecs.v
Main.v
MainProps.v
MainSpecs.v
SimTone.v
SimRemote.v
SimMain.v
SimProps.v
SimSpecs.v
IcoMain.v
Wrap.v
