(* ===== verification/Prelude.v ===== *)
(** * Verification of the Mi Remote USB Bridge firmware

    The bridge is a USB dongle (CH582F) that pairs with a Bluetooth remote
    control and offers its keys and its microphone to a host.  Host and dongle
    speak RBP, a framed request/response protocol with events, over USB CDC.

    ** The parts of the program and where they are modelled

    - Wire format, protocol/src/rbp_frame.c and protocol/include/rbp:
      [Crc32c] (the table-driven checksum), [Cobs] (byte stuffing, also in
      place), [Defs] (the constants), [Frame] (header, streaming encoder,
      receive parser, drain pump).
    - Payloads, protocol/src/rbp_tlv.c: [Tlv] (reader, typed getters, writer,
      UTF-8 check).
    - Catalogs and diagnostics, firmware/product/device_model.c and faults.c:
      [DeviceModel], [Faults].
    - The server, firmware/product/rbp_server.c, which owns sessions, queues,
      pairing and voice delivery: [ServerState] (the structure [rbp_server]
      field by field, the environment, the monad), [ServerCore] (sessions,
      output ring, control, key and media queues, scheduler), [ServerVoice]
      (stream delivery), [ServerLink] (radio inputs), [ServerDispatch] (one
      definition per opcode), [Server] (HELLO, admission of frames, USB input,
      tick, and [api], the entry points as one type).
    - Key reports, firmware/adapters/hogp/report_map.c: [Hogp] (the Report Map
      parser, the report decoders, the usage table).
    - The host library, client/c: [Ima] (ima_decoder.c and rbp_decoder.c),
      [Input] (rbp_input.c), [Ico] (the frame layer and the WAV writer of
      ico/ico_decoder.c), [IcoMain] (its command line, from the text of a
      capture log to the list of files).
    - The voice engine, firmware/adapters/rc003/rc003_atvv.c: [Atvv] (control
      messages, audio, the tick, against the class [Sink]).
    - Storage, firmware/wch/board.c and cache_store.inc: [Board] (the bond
      journal and the unique id), [CacheStore] (the attribute cache), both against the class
      [Eeprom].
    - The serial port, firmware/wch/usb_cdc.c: [Usb] (the interrupt handler,
      the control requests, the task side), [UsbProps] (its theorems).
    - The attribute client, firmware/wch/wch_gatt.c: [Gatt] (the operations of
      gatt_client.h and the message handler, against the classes [Sdk] and
      [Adapter]), [GattProps] (its theorems).
    - The remote, firmware/adapters/rc003/rc003_adapter.c: [AdapterState] (the
      structure [adapter_t], calls of the server, failures, keys), [Unicom]
      (unicom_runtime.inc, unicom_profile.inc), [Adapter] (discovery,
      subscriptions, notifications, ticks), [AdapterCache] (cache.inc); the
      GATT client and the server behind them are the class [Host], what they
      were asked is a log ([act]).  [AdapterProps] and [AdapterRun] hold its
      invariant, [AdapterSpecs] and [UnicomProps] its theorems.
    - The radio, firmware/wch/wch_central.c: [CentralState] (its variables as
      [central_t], the vendor's BLE library and the rest of the firmware as the
      classes [Library], [Platform] and [Firmware], the log of calls and events), [Central] (scanning,
      pairing, connecting, cancelling, recovery, the poll and the event
      handlers), [CandidateName] (the check of advertised names),
      [CentralProps] (a monitor of the radio's contract and the invariant),
      [CentralWalk] (carrying a property through every operation),
      [CentralSpecs] (runs and the theorems).
    - The program, firmware/wch/main.c: [Main] (start, clock, the task of the
      server, and the wiring: server, central and serial port on one state,
      calling each other; the rest is the class [Parts]), [ServerWorld] (the
      server touches the rest only through its environment), [MainProps] (the
      invariant of the whole), [MainSpecs] (its theorems).
    - The simulator, sim: [SimTone] (the IMA encoder and the tone of
      sim_remote.c), [SimRemote] (the rest of sim_remote.c: [rig] is [sim_t], the
      fake remote is the GATT client of [Adapter] and the radio of [Server], which
      here run against each other), [SimMain] (sim_main.c: files, transport, control
      port and main loop, against the class [Machine]), [SimProps] (its invariant),
      [SimSpecs] (its theorems).
    - Functions the linker puts around the vendor's, wch_smp_identity.c and
      sdk_rx_probe.c: [Wrap].
    - Diagnostics, firmware/debug/trace.c: [Trace].
    - [Ring], [CtlQueue] and [MediaQueue] hold no code of their own beyond
      [ring_write]: they give the abstract reading (a list) of the circular
      buffers, of the control slots and of the media queue, and prove that the
      code's updates are list operations.

    ** How the code is translated

    A C integer is a [Z]; wrap-around and casts are written out with [u8],
    [u16], [u32], [u64].  A struct is a [Record], an assignment the update
    [r <| f := v |>], an array a list of its length.  Buffers of which only a
    prefix is read are the list of that prefix; each such choice is
    documented at its type.  Loops are structural recursion or have a fuel
    argument (below).  A function of the server is a value of the state monad
    [M W]: it acts on the server and on [W], the outside.  The outside
    (radio backend, store, transport, random numbers) is the class [Env]; a
    backend operation acts on the server too, because it may call back before
    it returns.  Theorems about the server hold for every environment that
    satisfies the class [EnvOk] of [ServerInv]: what comes back from a backend
    call is a server the entry points could have produced.  [ServerSafe] has two
    instances, one that ignores everything and one that calls back.

    ** What the theorems show

    - Wire: the checksum is CRC32C and detects every burst of up to four bytes
      ([Crc32c]); stuffing is invertible, also in place ([Cobs]); frames cut
      into arbitrary chunks arrive intact and in order, the receiver
      resynchronises after garbage, the pump ends and loses nothing ([Frame]).
    - Payloads: written fields are read back, the reader accepts exactly the
      well-formed messages, the UTF-8 check is characterised exactly ([Tlv]).
    - The fault ring refines a log of the four newest faults ([Faults]).
    - Server invariant ([ServerInv], [ServerSafe]): every reachable state is well
      formed, session ids are never reused, and only USB input opens sessions,
      whatever the order of calls and with re-entrant backends.
    - Server admission ([ServerProps]): a replayed frame closes the session, a
      request id is executed at most once, a silent session is closed.
    - Server flow ([ServerFlow], [ServerQueues]): the output ring loses and
      reorders nothing; control, key and media queues are first-in first-out,
      with the documented overflow rules; the scheduler picks the oldest
      message within its burst limit and its loop ends.
    - Server contracts ([ServerSpecs], [VoiceProps]): what a teardown leaves, the
      history of operations, complete paging of the catalog, the envelope check,
      the fragments of an encoded unit, codec negotiation.
    - Reports ([Hogp]): parsing ends for every descriptor; an accepted map has
      disjoint fields inside of its reports; decoding never reads outside of
      the report and gives exactly the keys it encodes.
    - Voice engine ([Atvv]): what the server is told of a capture follows a
      protocol, a SYNC is accepted exactly when no audio was lost, and every
      format and unit can be played by the decoder of [Ima], for every sequence
      of messages, ticks and requests, refused writes and re-entrant callbacks.
    - Storage ([Board], [CacheStore]): an update is atomic when any command of
      the device fails half way, what was saved is what a restarted board finds,
      a torn first pairing is recovered, the cache returns what was saved for the
      bonded peer.
    - Serial port ([UsbProps]): both pipes are byte streams without gap or
      duplicate whatever the interrupts, queued output drains, descriptor
      requests are answered exactly.
    - Attribute client ([GattProps]): submissions and events follow the contract
      of the interface, one procedure at a time, whatever the library delivers.
    - Adapter ([AdapterSpecs], [UnicomProps]): in every run, whatever the remote
      sends, with every stored cache and every request of the server, all
      indices stay inside of their buffers, the voice engine keeps its protocol,
      the server knows the keys that are held; discovery ends with its deadline;
      an exported cache restores the database; audio of the Unicom profile is
      first-in first-out.
    - Radio ([CentralSpecs], [CandidateName]): in every run, with requests of
      the server in the middle of any call, the central starts and cancels
      procedures of the radio only when its contract allows it and its state
      agrees with what the radio does; the calls it makes are calls the server's
      invariant allows, so the server it drives stays well formed; a wait for
      the radio ends with its deadline; an interrupted bond transaction is
      undone; advertised names are accepted exactly if they are UTF-8 without
      control characters, and are cut at a character boundary to 47 bytes.
    - The whole ([MainSpecs]): the assumptions that server, central and port
      make of each other are discharged, with the calls nested as in the code;
      in every run of the firmware the radio's contract holds, server and port
      are well formed, only the server's task opens sessions and their numbers
      are never reused; the clock does not drift.
    - The simulator ([SimSpecs]): server, adapter and voice engine keep their
      invariants when they run together with a remote, with no assumption on any of
      them, whatever the host sends and whatever is typed; a session from HELLO to the
      keys and the audio of the remote gives the host exactly what was pressed and
      spoken; commands do not depend on how the network cuts them; the stored remote
      and the counter of ids survive a restart.  What the encoder of [SimTone] writes,
      the decoder of [Ima] follows within a quarter of a step.
    - The trace refines a bounded queue with counters ([Trace]); the frame layer
      of the ICO voice frames is invertible ([Ico]), and each recording of a log
      becomes one WAV file with the decoding of its frames ([IcoMain]).
    - The wrapper of the identity message writes the type of the message before the
      vendor's handler runs, and the probe changes nothing it observes ([Wrap]).
    - Host: the decoder's output over a session is the decoding of the
      accepted units ([Ima]); the events of the key reducer are truthful and an
      application that follows them holds the reducer's keys ([Input]).

    ** Fuel

    [rx_drain] has one round per byte and one for the timeout; [out_drain_loop]
    is bounded by the queued bytes; [flush_loop] by [flush_fuel] = 31, one more
    than the 6 control, 8 key and 16 media items that can be queued;
    [encoded_loop] by the length of the fragment, each round takes a byte;
    [parse_items] by the length of the descriptor; [verify_pieces] by 16, the
    pieces of 32 bytes in 508; [dt_blob_loop] by 5462, the pieces of 12 bytes in
    65532; [begin_loop] by [begin_fuel] = 16: a round either ends or moves on to
    the next of eight reports or to a later stage; [name_loop] and [ad_loop] by
    the length of the name and of the advertisement, each round takes a byte.
    In the central a request of the server may lead to another call of the
    server: [fw_call_at] and [fw_at] bound that nesting by [depth], and the
    theorems hold for every depth.  In the simulator a call of the server may lead to
    one more call of the server; a third is not followed and raises [r_beyond], which
    [simulator_safe] shows never happens.  [voice_loop] has [voice_fuel] = 66: each
    round queues an event, and the 65th ends the program ([voice_loop_total]);
    [drain_loop] has the budget of 128 that the code has; [ctrl_lines] is bounded by
    the length of the buffer ([ctrl_lines_of]), [log_lines] by the length of the
    text, each round takes a byte.  That the fuel is enough is proved in each case
    ([rbp_rx_drain_complete], [out_drain_conserves], [flush_terminates],
    [encoded_unit_queued], [hogp_parse_sound], [cache_save_atomic],
    [trace_queue], [begin_next_terminates], [candidate_name_exact]).

    ** What is assumed of the outside

    [EepromOk]: a command touches its range only, programming clears no bit
    that stays set, and a half erased page is not mistaken for a record (its
    checksum is for that); [Board] has an instance.  [irq_ok] of [UsbProps]: the
    controller takes an OUT packet only when the endpoint says it is ready.
    [msg_ok] of [GattProps]: the buffer of a message, if there is one, is as long
    as its counts and lengths say.
    [AdapterOk]: from its callback the adapter uses the operations of the
    interface.  [Wired]: the server sets the callbacks of the voice engine;
    [AdapterProps] has the adapter as an instance.  [HostOk]: the server drops
    the link, while it is called, only when the adapter reports a failure.  What
    the server asks of the adapter during a call is carried out when the call
    returns.  [FirmwareOk]: the server makes no request of the radio in the
    calls in which its code makes none ([silent]; [silent_server] shows for the
    model of the server that these calls reach no backend operation).  [legal]:
    the library delivers no link while it scans, and gives a link a real handle.
    [PartsOk] of [MainProps]: the adapter reports no candidates and no host
    input, and in the calls of [silent] tells the server nothing that makes it
    call the radio (detaching only sets the codecs).  [MachineOk] of [SimSpecs]: what
    was written completely is what is read.  [G7221Ok] of [IcoMain]: the reference
    decoder gives 320 samples.  Both have instances.

    ** What is not modelled

    The debug extension [RBP_DEBUG] of the server and the trace macros, which
    only observe; syscalls.c (stubs with constant results) and the pin, clock and
    LED set-up, which drive the hardware and return nothing; the adapter, the
    attribute client and the board inside of the world of [Main], where they are
    parameters (each is proved on its own against the same interface; server and
    adapter run together in the simulator); sockets, arguments, printing and the
    wall clock of the two host programs, which are inputs of their models; the
    Python and .NET clients and the tests. *)

From stdpp Require Export base list sets numbers tactics.
From Stdlib Require Export Zify ZifyBool.
From Stdlib Require String Ascii.
#[global] Open Scope Z_scope.
#[export] Set Warnings "-clear-no-such-hyp".

(** ** Machine integers

    A C unsigned integer of width [w] is a [Z] in [[0, 2^w)]; the casts and
    the wrap-around of the source are written out with these functions. *)
Definition u8 (z : Z) : Z := z mod 256.
Definition u16 (z : Z) : Z := z mod 65536.
Definition u32 (z : Z) : Z := z mod 4294967296.
Definition u64 (z : Z) : Z := z mod 18446744073709551616.
(** [(int32_t)z]: the two's complement reading of the low 32 bits. *)
Definition s32 (z : Z) : Z :=
  let r := u32 z in if r <? 2147483648 then r else r - 4294967296.
Definition UINT32_MAX : Z := 4294967295.
Definition UINT64_MAX : Z := 18446744073709551615.

Definition Byte (b : Z) : Prop := 0 <= b < 256.
Abbreviation Bytes := (Forall Byte).
Definition U16 (z : Z) : Prop := 0 <= z < 65536.
Definition U32 (z : Z) : Prop := 0 <= z < 4294967296.
Definition U64 (z : Z) : Prop := 0 <= z < 18446744073709551616.

#[export] Instance Byte_dec b : Decision (Byte b).
Proof. unfold Byte. apply _. Defined.
#[export] Instance U16_dec z : Decision (U16 z).
Proof. unfold U16. apply _. Defined.
#[export] Instance U32_dec z : Decision (U32 z).
Proof. unfold U32. apply _. Defined.
#[export] Instance U64_dec z : Decision (U64 z).
Proof. unfold U64. apply _. Defined.

(** ** Arrays

    [zlen], [znth], [slice] and [splice] are [sizeof], [p[i]], the source of a
    [memcpy] and its effect on the destination, with [Z] indices as in C. *)
Definition zlen {A} (l : list A) : Z := Z.of_nat (length l).
Definition znth (l : list Z) (i : Z) : Z := nth (Z.to_nat i) l 0.
Definition slice {A} (l : list A) (pos n : Z) : list A :=
  take (Z.to_nat n) (drop (Z.to_nat pos) l).
Definition splice {A} (l : list A) (pos : Z) (d : list A) : list A :=
  take (Z.to_nat pos) l ++ d ++ drop (Z.to_nat pos + length d) l.

(** A C string literal: its bytes, without the terminator. *)
Definition cstr (s : String.string) : list Z :=
  map (fun a => Z.of_N (Ascii.N_of_ascii a)) (String.list_ascii_of_string s).

(** [isspace], and the white space [sscanf] and [atoi] skip. *)
Definition isspace (c : Z) : bool := (c =? 32) || ((9 <=? c) && (c <=? 13)).
Fixpoint skip_spaces (l : list Z) : list Z :=
  match l with c :: l' => if isspace c then skip_spaces l' else l | [] => [] end.

(** ** Little-endian words *)
Fixpoint le (n : nat) (v : Z) : list Z :=
  match n with O => [] | S n => u8 v :: le n (Z.shiftr v 8) end.
Fixpoint unle (l : list Z) : Z :=
  match l with [] => 0 | b :: l => Z.lor b (Z.shiftl (unle l) 8) end.

(** ** Record update

    [r <| f := v |>] is the C assignment [r.f = v]; [r <| f ::= g |>]
    applies [g] to the field.  The setter of a field is computed from the
    [Eta] instance of its record. *)
Class Upd {R T : Type} (f : R -> T) := upd : (T -> T) -> R -> R.
Arguments upd {R T} f {_} _ _.
Class Eta (R : Type) := eta : R -> R.

Ltac solve_upd f :=
  lazymatch type of f with
  | ?R -> ?T =>
    let i := constr:(_ : Eta R) in
    let t := constr:(fun (g : T -> T) (r : R) =>
      ltac:(let e := eval hnf in (i r) in
            let h := eval pattern (f r) in e in
            lazymatch h with
            | ?k _ => let u := eval cbv beta in (k (g (f r))) in exact u
            end)) in
    exact t
  end.
#[global] Hint Extern 1 (Upd ?f) => solve_upd f : typeclass_instances.

Declare Scope rbp_scope.
#[warnings="-postfix-notation-not-level-1"]
Notation "r <| f ::= g |>" := (upd f g r)
  (at level 12, left associativity, f at next level) : rbp_scope.
#[warnings="-postfix-notation-not-level-1"]
Notation "r <| f := v |>" := (upd f (fun _ => v) r)
  (at level 12, left associativity, f at next level) : rbp_scope.
#[global] Open Scope rbp_scope.

(** ** Automation *)
Create HintDb rbp.

(** Splits the outermost boolean test of the goal. *)
Ltac split_if :=
  match goal with
  | |- context [if ?b then _ else _] => let E := fresh "E" in destruct b eqn:E
  end.
Ltac split_if_in H :=
  match type of H with
  | context [if ?b then _ else _] => let E := fresh "E" in destruct b eqn:E
  end.
(** Arithmetic over the machine integers: unfolds ranges and casts. *)
Ltac words :=
  unfold Byte, U16, U32, U64, u8, u16, u32, u64, s32, zlen, UINT32_MAX,
    UINT64_MAX in *; Z.div_mod_to_equations; lia.

(** ** Ranges *)
Lemma u8_byte z : Byte (u8 z).
Proof. unfold Byte, u8. apply Z.mod_pos_bound. done. Qed.
Lemma u16_range z : U16 (u16 z).
Proof. unfold U16, u16. apply Z.mod_pos_bound. done. Qed.
Lemma u32_range z : U32 (u32 z).
Proof. unfold U32, u32. apply Z.mod_pos_bound. done. Qed.
Lemma u64_range z : U64 (u64 z).
Proof. unfold U64, u64. apply Z.mod_pos_bound. done. Qed.
Lemma u8_small z : Byte z -> u8 z = z.
Proof. unfold Byte, u8. intros. apply Z.mod_small. lia. Qed.
Lemma u16_small z : U16 z -> u16 z = z.
Proof. unfold U16, u16. intros. apply Z.mod_small. lia. Qed.
Lemma u32_small z : U32 z -> u32 z = z.
Proof. unfold U32, u32. intros. apply Z.mod_small. lia. Qed.
Lemma u64_small z : U64 z -> u64 z = z.
Proof. unfold U64, u64. intros. apply Z.mod_small. lia. Qed.
#[export] Hint Resolve u8_byte u16_range u32_range u64_range : rbp.

(** ** Bitwise facts *)
Lemma land_shiftl_disjoint a b n :
  0 <= n -> 0 <= a < 2 ^ n -> Z.land a (Z.shiftl b n) = 0.
Proof.
  intros Hn Ha. apply Z.bits_inj'. intros i Hi. rewrite Z.land_spec, Z.bits_0.
  destruct (Z.lt_ge_cases i n).
  - rewrite Z.shiftl_spec_low by lia. apply andb_false_r.
  - rewrite <- (Z.mod_small a (2 ^ n)), Z.mod_pow2_bits_high by lia. done.
Qed.

Lemma lor_shiftl_add a b n :
  0 <= n -> 0 <= a < 2 ^ n -> Z.lor a (Z.shiftl b n) = a + b * 2 ^ n.
Proof.
  intros Hn Ha. pose proof (land_shiftl_disjoint a b n Hn Ha) as Hd.
  rewrite <- Z.shiftl_mul_pow2 by done.
  rewrite Z.add_nocarry_lxor by done.
  symmetry. by apply Z.lxor_lor.
Qed.

Lemma shiftr8_div v : Z.shiftr v 8 = v / 256.
Proof. by rewrite Z.shiftr_div_pow2. Qed.

Lemma shiftr8_range k v : 0 <= v < 2 ^ (8 * Z.of_nat (S k)) ->
  0 <= Z.shiftr v 8 < 2 ^ (8 * Z.of_nat k).
Proof.
  rewrite shiftr8_div. intros H.
  replace (8 * Z.of_nat (S k)) with (8 + 8 * Z.of_nat k) in H by lia.
  rewrite Z.pow_add_r in H by lia. change (2 ^ 8) with 256 in H.
  split; [apply Z.div_pos; lia|]. apply Z.div_lt_upper_bound; lia.
Qed.

(** ** Little-endian words: round trips *)
Lemma length_le n v : length (le n v) = n.
Proof. revert v. induction n; intros; simpl; auto. Qed.
Lemma le_bytes n v : Bytes (le n v).
Proof. revert v. induction n; intros; simpl; constructor; auto with rbp. Qed.
#[export] Hint Resolve le_bytes : rbp.

Lemma unle_cons b l : Byte b -> unle (b :: l) = b + unle l * 256.
Proof. intros. simpl. rewrite lor_shiftl_add; [done|lia|apply H]. Qed.

Lemma unle_le n v : 0 <= v < 2 ^ (8 * Z.of_nat n) -> unle (le n v) = v.
Proof.
  revert v. induction n as [|n IH]; intros v Hv.
  - simpl in *. lia.
  - cbn [le]. rewrite unle_cons by auto with rbp.
    rewrite IH by by apply shiftr8_range.
    rewrite shiftr8_div. unfold u8. pose proof (Z.div_mod v 256). lia.
Qed.

Lemma unle_range l : Bytes l -> 0 <= unle l < 2 ^ (8 * zlen l).
Proof.
  induction 1 as [|b l Hb Hl IH]; [done|].
  rewrite unle_cons by done. unfold zlen in *. cbn [length].
  replace (8 * Z.of_nat (S (length l))) with (8 + 8 * Z.of_nat (length l)) by lia.
  rewrite Z.pow_add_r by lia. change (2 ^ 8) with 256. unfold Byte in Hb. nia.
Qed.

Lemma le_unle l : Bytes l -> le (length l) (unle l) = l.
Proof.
  induction 1 as [|b l Hb Hl IH]; [done|].
  cbn [length le]. rewrite unle_cons by done. unfold Byte in Hb. f_equal.
  - unfold u8. rewrite Z_mod_plus_full. by apply Z.mod_small.
  - rewrite shiftr8_div, Z_div_plus_full by done.
    rewrite Z.div_small by done. done.
Qed.

(** The two-byte and four-byte reads of the source. *)
Lemma join16 v : U16 v -> u16 (Z.lor (u8 v) (Z.shiftl (u8 (Z.shiftr v 8)) 8)) = v.
Proof.
  intros H. rewrite lor_shiftl_add by (lia || apply u8_byte).
  rewrite shiftr8_div. words.
Qed.

Lemma join32 v : U32 v ->
  Z.lor (Z.lor (Z.lor (u8 v) (Z.shiftl (u8 (Z.shiftr v 8)) 8))
          (Z.shiftl (u8 (Z.shiftr v 16)) 16)) (Z.shiftl (u8 (Z.shiftr v 24)) 24) = v.
Proof.
  intros H. rewrite (lor_shiftl_add (u8 v)) by (lia || apply u8_byte).
  rewrite !Z.shiftr_div_pow2 by lia.
  rewrite (lor_shiftl_add _ _ 16), (lor_shiftl_add _ _ 24); try lia; words.
Qed.

(** ** Arrays: lengths and lookups *)
Lemma zlen_nonneg {A} (l : list A) : 0 <= zlen l.
Proof. unfold zlen. lia. Qed.
Lemma zlen_app {A} (l k : list A) : zlen (l ++ k) = zlen l + zlen k.
Proof. unfold zlen. rewrite length_app. lia. Qed.
Lemma zlen_nil {A} : zlen (@nil A) = 0.
Proof. done. Qed.
Lemma zlen_cons {A} (x : A) l : zlen (x :: l) = 1 + zlen l.
Proof. unfold zlen. cbn [length]. lia. Qed.
Lemma zlen_le n v : zlen (le n v) = Z.of_nat n.
Proof. unfold zlen. by rewrite length_le. Qed.
Lemma zlen_replicate {A} n (x : A) : zlen (replicate n x) = Z.of_nat n.
Proof. unfold zlen. by rewrite length_replicate. Qed.

Lemma zlen_slice {A} (l : list A) pos n :
  0 <= pos -> 0 <= n -> pos + n <= zlen l -> zlen (slice l pos n) = n.
Proof. unfold slice, zlen. intros. rewrite length_take, length_drop. lia. Qed.

Lemma zlen_splice {A} (l d : list A) pos :
  0 <= pos -> pos + zlen d <= zlen l -> zlen (splice l pos d) = zlen l.
Proof.
  unfold splice, zlen. intros. rewrite !length_app, length_take, length_drop. lia.
Qed.

Lemma slice_0_all {A} (l : list A) n : zlen l <= n -> slice l 0 n = l.
Proof. unfold slice, zlen. intros. rewrite drop_0. apply take_ge. lia. Qed.
Lemma slice_all {A} (l : list A) : slice l 0 (zlen l) = l.
Proof. by apply slice_0_all. Qed.
Lemma slice_nil_n {A} (l : list A) pos : slice l pos 0 = [].
Proof. done. Qed.

Lemma slice_split {A} (l : list A) n :
  0 <= n <= zlen l -> slice l 0 n ++ slice l n (zlen l - n) = l.
Proof.
  unfold slice, zlen. intros. rewrite drop_0.
  rewrite (take_ge (drop _ l)); [apply take_drop|rewrite length_drop; lia].
Qed.

Lemma lookup_slice {A} (l : list A) pos n (i : nat) :
  0 <= pos -> Z.of_nat i < n -> slice l pos n !! i = l !! (Z.to_nat pos + i)%nat.
Proof.
  unfold slice. intros. rewrite lookup_take_lt by lia. by rewrite lookup_drop.
Qed.

Lemma lookup_slice_ge {A} (l : list A) pos n (i : nat) :
  n <= Z.of_nat i -> slice l pos n !! i = None.
Proof. unfold slice. intros. apply lookup_take_ge. lia. Qed.

Lemma lookup_splice {A} (l d : list A) pos (i : nat) :
  0 <= pos -> pos + zlen d <= zlen l ->
  splice l pos d !! i =
    if bool_decide (pos <= Z.of_nat i < pos + zlen d)
    then d !! (i - Z.to_nat pos)%nat else l !! i.
Proof.
  intros Hp Hl. unfold splice, zlen in *. case_bool_decide.
  - rewrite lookup_app_r by (rewrite length_take; lia).
    rewrite length_take, lookup_app_l by lia. f_equal. lia.
  - destruct (decide (Z.of_nat i < pos)).
    + rewrite lookup_app_l by (rewrite length_take; lia).
      by rewrite lookup_take_lt by lia.
    + rewrite lookup_app_r by (rewrite length_take; lia).
      rewrite length_take, lookup_app_r by lia. rewrite lookup_drop.
      f_equal. lia.
Qed.

Lemma znth_lookup (l : list Z) i b :
  l !! Z.to_nat i = Some b -> znth l i = b.
Proof. unfold znth. intros H. rewrite nth_lookup, H. done. Qed.

Lemma znth_byte l i : Bytes l -> Byte (znth l i).
Proof.
  intros H. unfold znth. destruct (nth_in_or_default (Z.to_nat i) l 0) as [Hin | ->].
  - rewrite List.Forall_forall in H. by apply H.
  - unfold Byte. lia.
Qed.
#[export] Hint Resolve znth_byte : rbp.

Lemma slice_Forall {A} (P : A -> Prop) (l : list A) pos n :
  Forall P l -> Forall P (slice l pos n).
Proof. intros. unfold slice. by apply Forall_take, Forall_drop. Qed.
Lemma splice_Forall {A} (P : A -> Prop) (l d : list A) pos :
  Forall P l -> Forall P d -> Forall P (splice l pos d).
Proof.
  intros. unfold splice. apply Forall_app. split; [by apply Forall_take|].
  apply Forall_app. split; [done|by apply Forall_drop].
Qed.
#[export] Hint Resolve slice_Forall splice_Forall zlen_nonneg : rbp.

(** Reading a buffer after a write into it. *)
Lemma slice_splice_after {A} (mem d : list A) w r n :
  0 <= w -> w + zlen d <= r -> 0 <= n -> r + n <= zlen mem ->
  slice (splice mem w d) r n = slice mem r n.
Proof.
  intros. apply list_eq. intros i. pose proof (zlen_nonneg d).
  destruct (decide (Z.of_nat i < n)).
  - rewrite !lookup_slice by lia. rewrite lookup_splice by lia.
    rewrite bool_decide_false by lia. done.
  - by rewrite !lookup_slice_ge by lia.
Qed.
Lemma slice_splice_before {A} (l d : list A) pos r n :
  0 <= r -> 0 <= n -> r + n <= pos -> pos + zlen d <= zlen l ->
  slice (splice l pos d) r n = slice l r n.
Proof.
  intros. pose proof (zlen_nonneg d). apply list_eq. intros i. destruct (decide (Z.of_nat i < n)).
  - rewrite !lookup_slice by lia. rewrite lookup_splice by lia.
    rewrite bool_decide_false by lia. done.
  - by rewrite !lookup_slice_ge by lia.
Qed.
Lemma slice_splice_inside {A} (l d : list A) pos k n :
  0 <= pos -> 0 <= k -> 0 <= n -> k + n <= zlen d -> pos + zlen d <= zlen l ->
  slice (splice l pos d) (pos + k) n = slice d k n.
Proof.
  intros. apply list_eq. intros i. destruct (decide (Z.of_nat i < n)).
  - rewrite !lookup_slice by lia. rewrite lookup_splice by lia.
    rewrite bool_decide_true by lia. f_equal. lia.
  - by rewrite !lookup_slice_ge by lia.
Qed.
Lemma slice_splice_front {A} (l d : list A) n : n = zlen d -> slice (splice l 0 d) 0 n = d.
Proof.
  intros ->. unfold slice, splice, zlen. change (Z.to_nat 0) with 0%nat. rewrite Nat2Z.id, drop_0, take_0.
  cbn [app]. apply take_app_length.
Qed.
Lemma slice_splice_grow {A} (mem d : list A) w :
  0 <= w -> w + zlen d <= zlen mem ->
  slice (splice mem w d) 0 (w + zlen d) = slice mem 0 w ++ d.
Proof.
  intros. pose proof (zlen_nonneg d). unfold slice, splice, zlen in *. rewrite !drop_0.
  rewrite app_assoc, take_app_le, take_ge; [done|..];
    rewrite length_app, length_take; lia.
Qed.

Lemma Forall_both {A} (P Q R : A -> Prop) l :
  Forall P l -> Forall Q l -> (forall x, P x -> Q x -> R x) -> Forall R l.
Proof. intros HP. induction HP; intros HQ HR; inv HQ; constructor; auto. Qed.
