(* ===== verification/Ring.v ===== *)
(** * Circular buffers

    [rbp_server.c] keeps four circular buffers: the output byte ring, the
    audio byte pool, the key queue and the media queue.  All of them are an
    array with a head index and a length.  This file defines their common
    reading, the list of the [len] elements that follow [head], and proves that
    the writes of the source append to it. *)
From S2P Require Import Prelude.

(** The elements of the buffer, oldest first. *)
Definition rview {A} (ring : list A) (head len : Z) : list A :=
  slice (ring ++ ring) head len.

(** A buffer of capacity [cap] is well formed. *)
Definition ring_wf {A} (cap : Z) (ring : list A) (head len : Z) : Prop :=
  zlen ring = cap /\ 0 <= head < cap /\ 0 <= len <= cap.

(** [ring_write] of rbp_server.c: [None] when it returns [false]. *)
Definition ring_write {A} (ring : list A) (cap head len : Z) (data : list A)
  : option (list A * Z) :=
  let n := zlen data in
  if cap - len <? n then None
  else
    let tail := head + len in
    let tail := if cap <=? tail then tail - cap else tail in
    let first := cap - tail in
    let first := if n <? first then n else first in
    let ring := splice ring tail (slice data 0 first) in
    let ring := if first <? n then splice ring 0 (slice data first (n - first))
                else ring in
    Some (ring, len + n).

Section views.
Context {A : Type}.
Implicit Types ring data : list A.

Lemma zlen_rview cap ring head len :
  ring_wf cap ring head len -> zlen (rview ring head len) = len.
Proof.
  intros (Hl & Hh & Hn). unfold rview. apply zlen_slice; rewrite ?zlen_app; lia.
Qed.

Lemma lookup_rview cap ring head len (i : nat) :
  ring_wf cap ring head len -> Z.of_nat i < len ->
  rview ring head len !! i = ring !! Z.to_nat ((head + Z.of_nat i) mod cap).
Proof.
  intros (Hl & Hh & Hn) Hi. unfold rview. rewrite lookup_slice by lia.
  unfold zlen in Hl. destruct (Z.lt_ge_cases (head + Z.of_nat i) cap).
  - rewrite lookup_app_l by lia. rewrite Z.mod_small by lia. f_equal; lia.
  - rewrite lookup_app_r by lia.
    replace ((head + Z.of_nat i) mod cap) with (head + Z.of_nat i - cap).
    + f_equal; lia.
    + symmetry. rewrite <- (Z.mod_small (head + Z.of_nat i - cap) cap) by lia.
      rewrite <- (Z_mod_plus_full _ (-1) cap). f_equal; lia.
Qed.

Lemma rview_ext cap ring head len l :
  ring_wf cap ring head len -> zlen l = len ->
  (forall i : nat, Z.of_nat i < len ->
     ring !! Z.to_nat ((head + Z.of_nat i) mod cap) = l !! i) ->
  rview ring head len = l.
Proof.
  intros Hw Hl H. apply list_eq. intros i.
  destruct (Z.lt_ge_cases (Z.of_nat i) len) as [Hi|Hi].
  - erewrite lookup_rview by done. by apply H.
  - unfold rview. rewrite lookup_slice_ge by done. symmetry.
    apply lookup_ge_None. unfold zlen in Hl. lia.
Qed.

Lemma mod_wrap cap x : 0 <= x < 2 * cap ->
  x mod cap = if cap <=? x then x - cap else x.
Proof.
  intros. split_if.
  - symmetry. rewrite <- (Z.mod_small (x - cap) cap) by lia.
    rewrite <- (Z_mod_plus_full _ 1 cap). f_equal; lia.
  - apply Z.mod_small. lia.
Qed.

(** What the two copies of [ring_write] leave at a physical position [p]. *)
Lemma splice2_lookup ring data cap tail first p :
  zlen ring = cap -> 0 <= tail < cap -> 0 <= first <= zlen data -> tail + first <= cap ->
  zlen data - first <= tail -> 0 <= p < cap ->
  let r1 := splice ring tail (slice data 0 first) in
  (if first <? zlen data then splice r1 0 (slice data first (zlen data - first)) else r1)
    !! Z.to_nat p =
  if bool_decide (p < zlen data - first) then data !! (Z.to_nat first + Z.to_nat p)%nat
  else if bool_decide (tail <= p < tail + first) then data !! (Z.to_nat p - Z.to_nat tail)%nat
  else ring !! Z.to_nat p.
Proof.
  intros Hr Ht Hf Hfit Hd Hp r1.
  assert (zlen (slice data 0 first) = first) as Hs1 by (apply zlen_slice; lia).
  assert (zlen r1 = cap) as Hr1 by (subst r1; rewrite zlen_splice; lia).
  assert (r1 !! Z.to_nat p = if bool_decide (tail <= p < tail + first)
           then data !! (Z.to_nat p - Z.to_nat tail)%nat else ring !! Z.to_nat p) as H1.
  { subst r1. rewrite lookup_splice by (rewrite ?Hs1; lia). rewrite Hs1.
    rewrite Z2Nat.id by lia. case_bool_decide; [|done].
    rewrite lookup_slice by lia. f_equal. }
  rewrite <- H1. clear H1. destruct (first <? zlen data) eqn:Ef.
  - rewrite lookup_splice by (rewrite ?zlen_slice; lia).
    rewrite zlen_slice, Z2Nat.id by lia.
    case_bool_decide; case_bool_decide; try lia; [|done].
    rewrite lookup_slice by lia. f_equal; lia.
  - rewrite bool_decide_false by lia. done.
Qed.

(** Writing changes the elements that follow the [len] queued ones, across the
    wrap of the array, and no other. *)
Lemma ring_write_lookup cap ring head len data ring' len' :
  ring_wf cap ring head len ->
  ring_write ring cap head len data = Some (ring', len') ->
  zlen ring' = cap /\ len' = len + zlen data /\ len' <= cap /\
  forall i : nat, Z.of_nat i < cap ->
    ring' !! Z.to_nat ((head + Z.of_nat i) mod cap) =
    if bool_decide (len <= Z.of_nat i < len + zlen data)
    then data !! Z.to_nat (Z.of_nat i - len)
    else ring !! Z.to_nat ((head + Z.of_nat i) mod cap).
Proof.
  intros Hw. pose proof Hw as (Hl & Hh & Hn). unfold ring_write.
  destruct (cap - len <? zlen data) eqn:Hfit; [done|].
  pose proof (zlen_nonneg data) as Hd0.
  rewrite <- (mod_wrap cap (head + len)) by lia.
  set (tail := (head + len) mod cap).
  assert (0 <= tail < cap) as Ht by (apply Z.mod_pos_bound; lia).
  assert (tail = if cap <=? head + len then head + len - cap else head + len) as Htail
    by (apply mod_wrap; lia).
  set (first := if zlen data <? cap - tail then zlen data else cap - tail).
  intros [= <- <-].
  assert (0 <= first <= zlen data /\ tail + first <= cap /\ (first = zlen data \/ tail + first = cap))
    as (Hf & Hf1 & Hf') by (subst first; split_if; lia).
  split; [|split; [done|split; [lia|]]].
  { assert (zlen (splice ring tail (slice data 0 first)) = cap)
      by (rewrite zlen_splice; rewrite ?zlen_slice; lia).
    destruct (first <? zlen data); [|done]. rewrite zlen_splice; rewrite ?zlen_slice; lia. }
  intros i Hi. rewrite (mod_wrap cap (head + Z.of_nat i)) by lia.
  set (p := if cap <=? head + Z.of_nat i then head + Z.of_nat i - cap else head + Z.of_nat i).
  assert (0 <= p < cap) as Hp by (subst p; split_if; lia).
  rewrite (splice2_lookup ring data cap tail first p); try lia.
  subst p. destruct (cap <=? head + Z.of_nat i) eqn:Ec; split_if_in Htail;
    repeat case_bool_decide; try done; try (exfalso; lia); f_equal; lia.
Qed.

(** Writing appends: the elements already queued keep their places and the new
    ones follow them. *)
Lemma ring_write_view cap ring head len data ring' len' :
  ring_wf cap ring head len ->
  ring_write ring cap head len data = Some (ring', len') ->
  ring_wf cap ring' head len' /\ len' = len + zlen data /\
  rview ring' head len' = rview ring head len ++ data.
Proof.
  intros Hw H. pose proof Hw as (Hl & Hh & Hn).
  destruct (ring_write_lookup _ _ _ _ _ _ _ Hw H) as (Hl' & -> & Hc & Hget).
  pose proof (zlen_nonneg data). pose proof (zlen_rview _ _ _ _ Hw) as Hv.
  assert (ring_wf cap ring' head (len + zlen data)) as Hw' by (repeat split; lia).
  split; [done|]. split; [done|]. apply (rview_ext cap); [done|rewrite zlen_app; lia|].
  intros i Hi. rewrite Hget by lia. unfold zlen in Hv. case_bool_decide.
  - rewrite lookup_app_r by lia. f_equal; lia.
  - rewrite lookup_app_l by lia. symmetry. apply (lookup_rview cap); [done|lia].
Qed.

(** Seen as the whole rotated array, a write is a [splice]. *)
Lemma ring_write_full cap ring head len data ring' len' :
  ring_wf cap ring head len ->
  ring_write ring cap head len data = Some (ring', len') ->
  zlen ring' = cap /\ len' = len + zlen data /\
  rview ring' head cap = splice (rview ring head cap) len data.
Proof.
  intros Hw H. pose proof Hw as (Hl & Hh & Hn).
  destruct (ring_write_lookup _ _ _ _ _ _ _ Hw H) as (Hl' & -> & Hc & Hget).
  pose proof (zlen_nonneg data).
  assert (ring_wf cap ring head cap) as Hwc by (repeat split; lia).
  pose proof (zlen_rview _ _ _ _ Hwc) as Hv.
  split; [done|]. split; [done|]. apply (rview_ext cap); [repeat split; lia| |].
  { rewrite zlen_splice; lia. }
  intros i Hi. rewrite Hget, lookup_splice by lia. case_bool_decide; [f_equal; lia|].
  symmetry. by apply (lookup_rview cap).
Qed.

(** Storing at logical index [k] of the rotated array. *)
Lemma ring_set_full cap ring head k x :
  zlen ring = cap -> 0 <= head < cap -> 0 <= k < cap ->
  rview (<[Z.to_nat ((head + k) mod cap) := x]> ring) head cap =
    <[Z.to_nat k := x]> (rview ring head cap).
Proof.
  intros Hl Hh Hk. assert (zlen (<[Z.to_nat ((head + k) mod cap) := x]> ring) = cap) as Hl'
    by (unfold zlen in *; by rewrite length_insert).
  assert (ring_wf cap ring head cap) as Hw by (repeat split; lia).
  pose proof (zlen_rview _ _ _ _ Hw) as Hv.
  apply (rview_ext cap); [repeat split; lia|unfold zlen in *; by rewrite length_insert|].
  intros i Hi. rewrite (mod_wrap cap (head + k)), (mod_wrap cap (head + Z.of_nat i)) by lia.
  destruct (decide (i = Z.to_nat k)) as [->|Hne].
  - rewrite list_lookup_insert_eq by (unfold zlen in Hv; lia). rewrite Z2Nat.id by lia.
    apply list_lookup_insert_eq. unfold zlen in Hl. split_if; lia.
  - rewrite (list_lookup_insert_ne (rview _ _ _)) by done.
    rewrite list_lookup_insert_ne by (repeat split_if; lia).
    rewrite (lookup_rview cap) by (done || lia). by rewrite (mod_wrap cap (head + Z.of_nat i)) by lia.
Qed.

Lemma ring_write_None cap ring head len data :
  ring_write ring cap head len data = None <-> cap - len < zlen data.
Proof. unfold ring_write. split_if; split; intros; try done; lia. Qed.

Lemma ring_write_Forall (P : A -> Prop) cap ring head len data ring' len' :
  Forall P ring -> Forall P data ->
  ring_write ring cap head len data = Some (ring', len') -> Forall P ring'.
Proof.
  intros Hr Hd. unfold ring_write. destruct (cap - len <? zlen data); [done|].
  intros [= <- _]. repeat split_if; auto 6 with rbp.
Qed.

(** Consuming [n] elements moves the head and drops them from the view. *)
Lemma rview_advance cap ring head len n :
  ring_wf cap ring head len -> 0 <= n <= len ->
  ring_wf cap ring ((head + n) mod cap) (len - n) /\
  rview ring ((head + n) mod cap) (len - n) = drop (Z.to_nat n) (rview ring head len).
Proof.
  intros Hw Hn. pose proof Hw as (Hl & Hh & Hlen).
  assert (ring_wf cap ring ((head + n) mod cap) (len - n)) as Hw'.
  { split; [done|]. split; [apply Z.mod_pos_bound|]; lia. }
  split; [done|]. apply (rview_ext cap); [done| |].
  - pose proof (zlen_rview _ _ _ _ Hw). unfold zlen in *. rewrite length_drop. lia.
  - intros i Hi. rewrite lookup_drop.
    erewrite lookup_rview by (done || lia). f_equal. f_equal.
    rewrite Zplus_mod_idemp_l. f_equal. lia.
Qed.

(** The first elements of the view, as the source copies them out. *)
Lemma rview_take cap ring head len n :
  ring_wf cap ring head len -> 0 <= n <= len ->
  rview ring head n = take (Z.to_nat n) (rview ring head len).
Proof.
  intros Hw Hn. unfold rview, slice. rewrite take_take. f_equal. lia.
Qed.

(** Appending one element of a queue of structures. *)
Lemma ring_push cap ring head len x :
  ring_wf cap ring head len -> len < cap ->
  let ring' := <[Z.to_nat ((head + len) mod cap) := x]> ring in
  ring_wf cap ring' head (len + 1) /\ rview ring' head (len + 1) = rview ring head len ++ [x].
Proof.
  intros Hw Hlt ring'. pose proof Hw as (Hl & Hh & Hn).
  assert (zlen ring' = cap) as Hl' by (unfold ring', zlen in *; by rewrite length_insert).
  assert (ring_wf cap ring' head cap) as Hwc by (repeat split; lia).
  split; [repeat split; lia|]. rewrite (rview_take cap ring' head cap) by (done || lia).
  unfold ring'. rewrite ring_set_full by lia.
  assert (ring_wf cap ring head cap) as Hwr by (repeat split; lia).
  pose proof (zlen_rview _ _ _ _ Hwr) as Hv.
  rewrite (rview_take cap ring head cap len) by (done || lia).
  replace (Z.to_nat (len + 1)) with (S (Z.to_nat len)) by lia.
  erewrite take_S_r by (apply list_lookup_insert_eq; unfold zlen in Hv; lia).
  by rewrite take_insert_ge by lia.
Qed.

(** The freed slot of the head is outside what is left. *)
Lemma rview_insert_head cap ring head len x :
  ring_wf cap ring head len -> 0 < len ->
  rview (<[Z.to_nat head := x]> ring) ((head + 1) mod cap) (len - 1) = rview ring ((head + 1) mod cap) (len - 1).
Proof.
  intros Hw Hp. destruct (rview_advance _ _ _ _ 1 Hw ltac:(lia)) as [Hw' _]. destruct Hw as (Hl & Hh & Hn).
  pose proof Hw' as (_ & Hh' & Hn').
  apply (rview_ext cap); [|by eapply zlen_rview|].
  - split; [unfold zlen in *; by rewrite length_insert|done].
  - intros i Hi. rewrite (lookup_rview cap) by (done || lia). apply list_lookup_insert_ne.
    rewrite Zplus_mod_idemp_l, (mod_wrap cap (head + 1 + Z.of_nat i)) by lia. split_if; lia.
Qed.

(** Writing over the oldest element of a full buffer. *)
Lemma ring_overwrite cap ring head x :
  ring_wf cap ring head cap ->
  let ring' := <[Z.to_nat head := x]> ring in
  ring_wf cap ring' ((head + 1) mod cap) cap /\
  rview ring' ((head + 1) mod cap) cap = drop 1 (rview ring head cap) ++ [x].
Proof.
  intros Hw ring'. pose proof Hw as (Hl & Hh & Hn). pose proof (Z.mod_pos_bound (head + 1) cap ltac:(lia)).
  assert (ring_wf cap ring' ((head + 1) mod cap) cap) as Hw'.
  { split; [unfold ring', zlen in *; by rewrite length_insert|]. split; [done|lia]. }
  split; [done|]. pose proof (zlen_rview _ _ _ _ Hw) as Hz. unfold zlen in Hz, Hl. apply (rview_ext cap); [done| |].
  - rewrite zlen_app. change (zlen [x]) with 1. unfold zlen. rewrite length_drop. lia.
  - intros i Hi. rewrite Zplus_mod_idemp_l. destruct (decide (Z.of_nat i = cap - 1)) as [He|He].
    + replace (head + 1 + Z.of_nat i) with (head + 1 * cap) by lia. rewrite Z_mod_plus_full, Z.mod_small by lia.
      rewrite lookup_app_r by (rewrite length_drop; lia). rewrite length_drop.
      replace (i - _)%nat with 0%nat by lia. apply list_lookup_insert_eq. lia.
    + rewrite lookup_app_l by (rewrite length_drop; lia). rewrite lookup_drop.
      rewrite (lookup_rview cap) by (done || lia). unfold ring'.
      rewrite list_lookup_insert_ne by (rewrite (mod_wrap cap) by lia; split_if; lia).
      replace (Z.of_nat (1 + i)) with (1 + Z.of_nat i) by lia. by rewrite Z.add_assoc.
Qed.
(** Reading the elements one by one. *)
Lemma rview_map cap ring head len d :
  ring_wf cap ring head len ->
  map (fun i => nth (Z.to_nat ((head + Z.of_nat i) mod cap)) ring d) (List.seq 0 (Z.to_nat len)) = rview ring head len.
Proof.
  intros Hw. pose proof (zlen_rview _ _ _ _ Hw) as Hz. apply list_eq. intros i. rewrite list_lookup_fmap.
  destruct (decide (Z.of_nat i < len)).
  - rewrite lookup_seq_lt by lia. cbn. rewrite (lookup_rview cap) by done. rewrite nth_lookup.
    destruct Hw as (Hl & Hh & _). pose proof (Z.mod_pos_bound (head + Z.of_nat i) cap ltac:(lia)).
    destruct (lookup_lt_is_Some_2 ring (Z.to_nat ((head + Z.of_nat i) mod cap))) as [y ->]; [unfold zlen in Hl; lia|done].
  - rewrite lookup_seq_ge by lia. cbn. symmetry. apply lookup_ge_None. unfold zlen in Hz. lia.
Qed.

Lemma rview_nil ring head : rview ring head 0 = [].
Proof. done. Qed.
End views.
