(* ===== verification/Crc32c.v ===== *)
(** * CRC32C

    The checksum of rbp_frame.c: a 256-entry table drives one step per byte.
    The table is the one of the source.  The bitwise definition of the
    Castagnoli CRC (reflected polynomial [0x82F63B78]) is the reference; the
    table-driven code is proved equal to it, and the code is proved to detect
    every error confined to four consecutive bytes. *)
From S2P Require Import Prelude.

Definition crc32c_table : list Z :=
  [0x00000000; 0xf26b8303; 0xe13b70f7; 0x1350f3f4; 0xc79a971f; 0x35f1141c; 0x26a1e7e8; 0xd4ca64eb;
   0x8ad958cf; 0x78b2dbcc; 0x6be22838; 0x9989ab3b; 0x4d43cfd0; 0xbf284cd3; 0xac78bf27; 0x5e133c24;
   0x105ec76f; 0xe235446c; 0xf165b798; 0x030e349b; 0xd7c45070; 0x25afd373; 0x36ff2087; 0xc494a384;
   0x9a879fa0; 0x68ec1ca3; 0x7bbcef57; 0x89d76c54; 0x5d1d08bf; 0xaf768bbc; 0xbc267848; 0x4e4dfb4b;
   0x20bd8ede; 0xd2d60ddd; 0xc186fe29; 0x33ed7d2a; 0xe72719c1; 0x154c9ac2; 0x061c6936; 0xf477ea35;
   0xaa64d611; 0x580f5512; 0x4b5fa6e6; 0xb93425e5; 0x6dfe410e; 0x9f95c20d; 0x8cc531f9; 0x7eaeb2fa;
   0x30e349b1; 0xc288cab2; 0xd1d83946; 0x23b3ba45; 0xf779deae; 0x05125dad; 0x1642ae59; 0xe4292d5a;
   0xba3a117e; 0x4851927d; 0x5b016189; 0xa96ae28a; 0x7da08661; 0x8fcb0562; 0x9c9bf696; 0x6ef07595;
   0x417b1dbc; 0xb3109ebf; 0xa0406d4b; 0x522bee48; 0x86e18aa3; 0x748a09a0; 0x67dafa54; 0x95b17957;
   0xcba24573; 0x39c9c670; 0x2a993584; 0xd8f2b687; 0x0c38d26c; 0xfe53516f; 0xed03a29b; 0x1f682198;
   0x5125dad3; 0xa34e59d0; 0xb01eaa24; 0x42752927; 0x96bf4dcc; 0x64d4cecf; 0x77843d3b; 0x85efbe38;
   0xdbfc821c; 0x2997011f; 0x3ac7f2eb; 0xc8ac71e8; 0x1c661503; 0xee0d9600; 0xfd5d65f4; 0x0f36e6f7;
   0x61c69362; 0x93ad1061; 0x80fde395; 0x72966096; 0xa65c047d; 0x5437877e; 0x4767748a; 0xb50cf789;
   0xeb1fcbad; 0x197448ae; 0x0a24bb5a; 0xf84f3859; 0x2c855cb2; 0xdeeedfb1; 0xcdbe2c45; 0x3fd5af46;
   0x7198540d; 0x83f3d70e; 0x90a324fa; 0x62c8a7f9; 0xb602c312; 0x44694011; 0x5739b3e5; 0xa55230e6;
   0xfb410cc2; 0x092a8fc1; 0x1a7a7c35; 0xe811ff36; 0x3cdb9bdd; 0xceb018de; 0xdde0eb2a; 0x2f8b6829;
   0x82f63b78; 0x709db87b; 0x63cd4b8f; 0x91a6c88c; 0x456cac67; 0xb7072f64; 0xa457dc90; 0x563c5f93;
   0x082f63b7; 0xfa44e0b4; 0xe9141340; 0x1b7f9043; 0xcfb5f4a8; 0x3dde77ab; 0x2e8e845f; 0xdce5075c;
   0x92a8fc17; 0x60c37f14; 0x73938ce0; 0x81f80fe3; 0x55326b08; 0xa759e80b; 0xb4091bff; 0x466298fc;
   0x1871a4d8; 0xea1a27db; 0xf94ad42f; 0x0b21572c; 0xdfeb33c7; 0x2d80b0c4; 0x3ed04330; 0xccbbc033;
   0xa24bb5a6; 0x502036a5; 0x4370c551; 0xb11b4652; 0x65d122b9; 0x97baa1ba; 0x84ea524e; 0x7681d14d;
   0x2892ed69; 0xdaf96e6a; 0xc9a99d9e; 0x3bc21e9d; 0xef087a76; 0x1d63f975; 0x0e330a81; 0xfc588982;
   0xb21572c9; 0x407ef1ca; 0x532e023e; 0xa145813d; 0x758fe5d6; 0x87e466d5; 0x94b49521; 0x66df1622;
   0x38cc2a06; 0xcaa7a905; 0xd9f75af1; 0x2b9cd9f2; 0xff56bd19; 0x0d3d3e1a; 0x1e6dcdee; 0xec064eed;
   0xc38d26c4; 0x31e6a5c7; 0x22b65633; 0xd0ddd530; 0x0417b1db; 0xf67c32d8; 0xe52cc12c; 0x1747422f;
   0x49547e0b; 0xbb3ffd08; 0xa86f0efc; 0x5a048dff; 0x8ecee914; 0x7ca56a17; 0x6ff599e3; 0x9d9e1ae0;
   0xd3d3e1ab; 0x21b862a8; 0x32e8915c; 0xc083125f; 0x144976b4; 0xe622f5b7; 0xf5720643; 0x07198540;
   0x590ab964; 0xab613a67; 0xb831c993; 0x4a5a4a90; 0x9e902e7b; 0x6cfbad78; 0x7fab5e8c; 0x8dc0dd8f;
   0xe330a81a; 0x115b2b19; 0x020bd8ed; 0xf0605bee; 0x24aa3f05; 0xd6c1bc06; 0xc5914ff2; 0x37faccf1;
   0x69e9f0d5; 0x9b8273d6; 0x88d28022; 0x7ab90321; 0xae7367ca; 0x5c18e4c9; 0x4f48173d; 0xbd23943e;
   0xf36e6f75; 0x0105ec76; 0x12551f82; 0xe03e9c81; 0x34f4f86a; 0xc69f7b69; 0xd5cf889d; 0x27a40b9e;
   0x79b737ba; 0x8bdcb4b9; 0x988c474d; 0x6ae7c44e; 0xbe2da0a5; 0x4c4623a6; 0x5f16d052; 0xad7d5351].

(** One iteration of the loop of [rbp_crc32c]. *)
Definition crc32c_step (c b : Z) : Z :=
  Z.lxor (znth crc32c_table (Z.land (Z.lxor c b) 0xFF)) (Z.shiftr c 8).

Definition rbp_crc32c (data : list Z) : Z :=
  Z.lxor (foldl crc32c_step 0xFFFFFFFF data) 0xFFFFFFFF.

(** ** Reference: one bit at a time *)
Definition crc_bit (c : Z) : Z :=
  if Z.testbit c 0 then Z.lxor (Z.shiftr c 1) 0x82F63B78 else Z.shiftr c 1.
Definition crc_bits (n : nat) (c : Z) : Z := Nat.iter n crc_bit c.
Definition crc_ref (data : list Z) : Z :=
  Z.lxor (foldl (fun c b => crc_bits 8 (Z.lxor c b)) 0xFFFFFFFF data) 0xFFFFFFFF.

(** ** Linearity of the reference *)
Lemma crc_bit_lxor a b : crc_bit (Z.lxor a b) = Z.lxor (crc_bit a) (crc_bit b).
Proof.
  unfold crc_bit. rewrite Z.lxor_spec, Z.shiftr_lxor.
  destruct (Z.testbit a 0), (Z.testbit b 0); cbn [xorb];
    apply Z.bits_inj'; intros i Hi; rewrite !Z.lxor_spec;
    destruct (Z.testbit (Z.shiftr a 1) i), (Z.testbit (Z.shiftr b 1) i),
      (Z.testbit 0x82F63B78 i); done.
Qed.

Lemma crc_bits_lxor n a b :
  crc_bits n (Z.lxor a b) = Z.lxor (crc_bits n a) (crc_bits n b).
Proof.
  unfold crc_bits. induction n as [|n IH]; [done|].
  rewrite !Nat.iter_succ, IH. apply crc_bit_lxor.
Qed.

Lemma crc_bits_add m n c : crc_bits (m + n) c = crc_bits m (crc_bits n c).
Proof. unfold crc_bits. apply Nat.iter_add. Qed.

(** Low zero bits shift out unchanged. *)
Lemma crc_bits_shiftl n c : crc_bits n (Z.shiftl c (Z.of_nat n)) = c.
Proof.
  revert c. induction n as [|n IH]; intros c.
  - apply Z.shiftl_0_r.
  - replace (S n) with (n + 1)%nat by lia. rewrite crc_bits_add.
    replace (crc_bits 1 (Z.shiftl c (Z.of_nat (n + 1)))) with (Z.shiftl c (Z.of_nat n)).
    + apply IH.
    + unfold crc_bits. cbn [Nat.iter nat_rect]. unfold crc_bit.
      rewrite Z.shiftl_spec_low by lia. rewrite Z.shiftr_shiftl_l by lia.
      f_equal. lia.
Qed.

Lemma crc_table_correct i :
  0 <= i < 256 -> znth crc32c_table i = crc_bits 8 i.
Proof.
  intros Hi.
  assert (forallb (fun i => znth crc32c_table i =? crc_bits 8 i)
            (map Z.of_nat (List.seq 0 256)) = true) as H by (vm_compute; reflexivity).
  rewrite forallb_forall in H. apply Z.eqb_eq, H, in_map_iff.
  exists (Z.to_nat i). split; [lia|]. apply in_seq. lia.
Qed.

Lemma land_255 x : Z.land x 0xFF = x mod 256.
Proof. change 0xFF with (Z.ones 8). by rewrite Z.land_ones. Qed.

Lemma split_byte x : x = Z.lxor (Z.land x 0xFF) (Z.shiftl (Z.shiftr x 8) 8).
Proof.
  rewrite land_255. rewrite Z.lxor_lor.
  - rewrite lor_shiftl_add by (lia || apply Z.mod_pos_bound; done).
    rewrite shiftr8_div. pose proof (Z.div_mod x 256). change (2 ^ 8) with 256. lia.
  - apply land_shiftl_disjoint; [lia|]. by apply Z.mod_pos_bound.
Qed.

(** One table step is eight bit steps. *)
Lemma crc32c_step_bits c b :
  Byte b -> crc32c_step c b = crc_bits 8 (Z.lxor c b).
Proof.
  intros Hb. unfold crc32c_step.
  rewrite (split_byte (Z.lxor c b)) at 2.
  rewrite crc_bits_lxor, (crc_bits_shiftl 8).
  rewrite crc_table_correct by (rewrite land_255; by apply Z.mod_pos_bound).
  f_equal. rewrite Z.shiftr_lxor. rewrite (shiftr8_div b), (Z.div_small b) by done.
  by rewrite Z.lxor_0_r.
Qed.

(** ** The step is invertible *)
Lemma lxor_cancel_r a k : Z.lxor (Z.lxor a k) k = a.
Proof. by rewrite Z.lxor_assoc, Z.lxor_nilpotent, Z.lxor_0_r. Qed.
Lemma lxor_inj_r a b k : Z.lxor a k = Z.lxor b k -> a = b.
Proof. intros H. by rewrite <- (lxor_cancel_r a k), H, lxor_cancel_r. Qed.

Lemma lxor_range n a b :
  0 <= n -> 0 <= a < 2 ^ n -> 0 <= b < 2 ^ n -> 0 <= Z.lxor a b < 2 ^ n.
Proof.
  intros Hn Ha Hb. split; [apply Z.lxor_nonneg; lia|].
  destruct (Z.eq_dec (Z.lxor a b) 0) as [->|Hz]; [lia|].
  apply Z.log2_lt_pow2; [|].
  { assert (0 <= Z.lxor a b) by (apply Z.lxor_nonneg; lia). lia. }
  pose proof (Z.log2_lxor a b). assert (Z.log2 a < n \/ a = 0) as Ha'.
  { destruct (Z.eq_dec a 0); [by right|left]. apply Z.log2_lt_pow2; lia. }
  assert (Z.log2 b < n \/ b = 0) as Hb'.
  { destruct (Z.eq_dec b 0); [by right|left]. apply Z.log2_lt_pow2; lia. }
  destruct Ha' as [?| ->], Hb' as [?| ->]; rewrite ?Z.lxor_0_l, ?Z.lxor_0_r in *; lia.
Qed.

Lemma crc_bit_range c : U32 c -> U32 (crc_bit c).
Proof.
  intros Hc. unfold U32 in *. unfold crc_bit.
  assert (0 <= Z.shiftr c 1 < 2 ^ 32).
  { rewrite Z.shiftr_div_pow2 by lia. change (2 ^ 1) with 2. change (2 ^ 32) with 4294967296.
    split; [apply Z.div_pos|apply Z.div_lt_upper_bound]; lia. }
  split_if; [|done]. by apply (lxor_range 32).
Qed.

Lemma crc_bits_range n c : U32 c -> U32 (crc_bits n c).
Proof.
  intros. unfold crc_bits. induction n; [done|].
  rewrite Nat.iter_succ. by apply crc_bit_range.
Qed.

(** No 32-bit register but zero steps to zero: the polynomial has bit 31. *)
Lemma crc_bit_zero c : U32 c -> crc_bit c = 0 -> c = 0.
Proof.
  intros Hc. unfold crc_bit. split_if; intros H.
  - exfalso. apply Z.lxor_eq in H.
    assert (Z.shiftr c 1 < 2147483648).
    { rewrite Z.shiftr_div_pow2 by lia. unfold U32 in Hc. apply Z.div_lt_upper_bound; lia. }
    lia.
  - rewrite Z.shiftr_div_pow2 in H by lia. change (2 ^ 1) with 2 in H.
    rewrite Z.bit0_odd in E. rewrite (Zdiv2_odd_eqn c), E, Z.div2_div. lia.
Qed.

Lemma crc_bits_inj n a b :
  U32 a -> U32 b -> crc_bits n a = crc_bits n b -> a = b.
Proof.
  intros Ha Hb H. apply Z.lxor_eq.
  assert (crc_bits n (Z.lxor a b) = 0) as H0.
  { rewrite crc_bits_lxor, H. apply Z.lxor_nilpotent. }
  assert (U32 (Z.lxor a b)) as Hr by by apply (lxor_range 32).
  clear H Ha Hb. revert H0. generalize dependent (Z.lxor a b). clear.
  induction n as [|n IH]; intros x Hx H0; [done|].
  unfold crc_bits in *. rewrite Nat.iter_succ_r in H0.
  apply IH in H0; [|by apply crc_bit_range]. by apply crc_bit_zero.
Qed.

(** Up to four bytes are absorbed by shifting the register once over all of
    them: the bytes act on it as one little-endian word. *)
Lemma crc_absorb c bs :
  Bytes bs ->
  foldl crc32c_step c bs = crc_bits (8 * length bs) (Z.lxor c (unle bs)).
Proof.
  intros H. revert c. induction H as [|b bs Hb Hbs IH]; intros c.
  - simpl. by rewrite Z.lxor_0_r.
  - cbn [foldl length]. rewrite IH, crc32c_step_bits by done.
    replace (8 * S (length bs))%nat with (8 * length bs + 8)%nat by lia.
    rewrite crc_bits_add. f_equal. cbn [unle].
    rewrite <- Z.lxor_lor by (by apply land_shiftl_disjoint).
    rewrite <- Z.lxor_assoc, (crc_bits_lxor 8 (Z.lxor c b)), (crc_bits_shiftl 8).
    done.
Qed.

Lemma crc_step_range c b : U32 c -> Byte b -> U32 (crc32c_step c b).
Proof.
  intros Hc Hb. rewrite crc32c_step_bits by done. apply crc_bits_range.
  apply (lxor_range 32); [done|done|]. unfold Byte in Hb. lia.
Qed.

Lemma crc_fold_range c bs : U32 c -> Bytes bs -> U32 (foldl crc32c_step c bs).
Proof.
  intros Hc H. revert c Hc. induction H; intros; [done|].
  cbn [foldl]. auto using crc_step_range.
Qed.

Lemma rbp_crc32c_range bs : Bytes bs -> U32 (rbp_crc32c bs).
Proof.
  intros. unfold rbp_crc32c. apply (lxor_range 32); [done| |done].
  by apply crc_fold_range.
Qed.
#[export] Hint Resolve rbp_crc32c_range : rbp.

Lemma crc_fold_inj c c' bs :
  U32 c -> U32 c' -> Bytes bs ->
  foldl crc32c_step c bs = foldl crc32c_step c' bs -> c = c'.
Proof.
  intros Hc Hc' H. revert c c' Hc Hc'. induction H; intros c c' Hc Hc' Heq; [done|].
  cbn [foldl] in Heq. apply IHForall in Heq; auto using crc_step_range.
  rewrite !crc32c_step_bits in Heq by done.
  assert (forall r, U32 r -> U32 (Z.lxor r x)) as Hx.
  { intros r Hr. apply (lxor_range 32); [done|done|]. unfold Byte in H. lia. }
  apply crc_bits_inj in Heq; auto. by apply lxor_inj_r in Heq.
Qed.

(** ** Properties *)

(** C39: the table-driven [rbp_crc32c] computes the bitwise CRC32C
    (reflected polynomial 0x82F63B78, initial value and final xor
    0xFFFFFFFF) of every byte string. *)
Theorem rbp_crc32c_correct data : Bytes data -> rbp_crc32c data = crc_ref data.
Proof.
  intros H. unfold rbp_crc32c, crc_ref. f_equal. generalize 0xFFFFFFFF.
  induction H; intros c; [done|]. cbn [foldl].
  by rewrite crc32c_step_bits, IHForall by done.
Qed.

Definition check_string : list Z := [49; 50; 51; 52; 53; 54; 55; 56; 57].
(** The check value that protocol/include/rbp/frame.h documents. *)
Lemma rbp_crc32c_correct_witness :
  rbp_crc32c check_string = crc_ref check_string /\
  rbp_crc32c check_string = 0xE3069283.
Proof.
  split; [|vm_compute; reflexivity].
  apply rbp_crc32c_correct. repeat (constructor; [done|]). constructor.
Defined.

(** Error detection.  Two messages of the same length that differ
    inside a window of at most four consecutive bytes, and nowhere else, have
    different checksums. *)
Theorem rbp_crc32c_burst pre x y post :
  Bytes pre -> Bytes x -> Bytes y -> Bytes post ->
  length x = length y -> (length x <= 4)%nat -> x <> y ->
  rbp_crc32c (pre ++ x ++ post) <> rbp_crc32c (pre ++ y ++ post).
Proof.
  intros Hpre Hx Hy Hpost Hlen H4 Hne Heq. apply Hne. unfold rbp_crc32c in Heq.
  apply lxor_inj_r in Heq. rewrite !foldl_app in Heq.
  assert (U32 (foldl crc32c_step 0xFFFFFFFF pre)) as Hc by by apply crc_fold_range.
  apply crc_fold_inj in Heq; auto using crc_fold_range.
  revert Hc Heq. generalize (foldl crc32c_step 0xFFFFFFFF pre). intros c Hc Heq.
  rewrite !crc_absorb, Hlen in Heq by done.
  assert (forall l, Bytes l -> (length l <= 4)%nat -> U32 (unle l)) as Hu.
  { intros l Hl Hl4. pose proof (unle_range l Hl) as Hr. unfold U32, zlen in *.
    assert (2 ^ (8 * Z.of_nat (length l)) <= 2 ^ 32) by (apply Z.pow_le_mono_r; lia). lia. }
  assert (U32 (unle x)) by auto. assert (U32 (unle y)) by (apply Hu; [done|lia]).
  apply crc_bits_inj in Heq; try by apply (lxor_range 32).
  rewrite !(Z.lxor_comm c) in Heq. apply lxor_inj_r in Heq.
  rewrite <- (le_unle x), <- (le_unle y), Heq, Hlen by done. done.
Qed.

Lemma rbp_crc32c_burst_witness :
  rbp_crc32c ([82; 66] ++ [3; 0; 255; 1] ++ [7]) <>
  rbp_crc32c ([82; 66] ++ [4; 0; 255; 0] ++ [7]).
Proof.
  apply (rbp_crc32c_burst [82; 66] [3; 0; 255; 1] [4; 0; 255; 0] [7]);
    repeat (constructor; [done|]); try constructor; simpl; lia || done.
Defined.
