(* ===== verification/Cobs.v ===== *)
(** * COBS framing

    [rbp_cobs_encode] and [rbp_cobs_decode] of rbp_frame.c.  The encoder is
    modelled with its destination array, the pointer to the pending code byte
    and the running code, so that the patching of placeholders is explicit; the
    streaming encoder of [encode_payload] runs the same step.  The decoder is
    modelled twice: on separate source and destination ([rbp_cobs_decode]), and
    on one array with a read and a write cursor ([cobs_decode_inplace]), which is
    how the receiver calls it. *)
From S2P Require Import Prelude.

(** ** Encoder *)

(** [dst .. dst_end) as written so far, the index of the placeholder that
    [codep] points to, and [code]. *)
Record cobs_enc := CobsEnc { ce_out : list Z; ce_codep : Z; ce_code : Z }.
#[export] Instance eta_cobs_enc : Eta cobs_enc :=
  fun r => CobsEnc (ce_out r) (ce_codep r) (ce_code r).

(** [codep = dst++; code = 1]: the placeholder's value is overwritten later. *)
Definition cobs_open (out : list Z) : cobs_enc := CobsEnc (out ++ [0]) (zlen out) 1.
(** [*codep = code]. *)
Definition cobs_patch (e : cobs_enc) : list Z :=
  <[Z.to_nat (ce_codep e) := ce_code e]> (ce_out e).
(** The loop body of [rbp_cobs_encode] and of [encode_payload]. *)
Definition cobs_push (e : cobs_enc) (b : Z) : cobs_enc :=
  if b =? 0 then cobs_open (cobs_patch e)
  else
    let e := e <| ce_out ::= fun o => o ++ [b] |> <| ce_code ::= fun c => u8 (c + 1) |> in
    if ce_code e =? 0xFF then cobs_open (cobs_patch e) else e.

Definition rbp_cobs_encode (src : list Z) : list Z :=
  cobs_patch (foldl cobs_push (cobs_open []) src).

(** ** Decoder

    The result is [dst[0 .. returned length)]: empty when the code returns 0.
    Every iteration consumes at least the code byte, so the length of the
    source bounds the iterations ([cobs_dec_enough]). *)
Fixpoint cobs_dec (fuel : nat) (src : list Z) : option (list Z) :=
  match src, fuel with
  | [], _ => Some []
  | _ :: _, O => None
  | code :: src, S fuel =>
    if code =? 0 then None
    else
      let block := code - 1 in
      if zlen src <? block then None
      else
        let chunk := slice src 0 block in
        let src := drop (Z.to_nat block) src in
        let zero := if (code <? 0xFF) && negb (zlen src =? 0) then [0] else [] in
        match cobs_dec fuel src with
        | None => None
        | Some rest => Some (chunk ++ zero ++ rest)
        end
  end.
Definition rbp_cobs_decode (src : list Z) : list Z :=
  match cobs_dec (length src) src with Some d => d | None => [] end.

(** The same loop on one array: [mem] is read at [r] and written at [w]. *)
Definition mem_copy1 (mem : list Z) (r w : Z) : list Z :=
  <[Z.to_nat w := znth mem r]> mem.
Fixpoint mem_copy (n : nat) (mem : list Z) (r w : Z) : list Z :=
  match n with O => mem | S n => mem_copy n (mem_copy1 mem r w) (r + 1) (w + 1) end.
Fixpoint cobs_dec_mem (fuel : nat) (mem : list Z) (end_ r w : Z) : option (list Z * Z) :=
  if negb (r <? end_) then Some (mem, w)
  else match fuel with
  | O => None
  | S fuel =>
    let code := znth mem r in
    let r := r + 1 in
    if code =? 0 then None
    else
      let block := code - 1 in
      if end_ - r <? block then None
      else
        let mem := mem_copy (Z.to_nat block) mem r w in
        let r := r + block in
        let w := w + block in
        if (code <? 0xFF) && negb (r =? end_)
        then cobs_dec_mem fuel (<[Z.to_nat w := 0]> mem) end_ r (w + 1)
        else cobs_dec_mem fuel mem end_ r w
  end.
(** [rbp_cobs_decode(p->buf, p->len, p->buf)]: the decoded prefix of the buffer. *)
Definition cobs_decode_inplace (buf : list Z) (len : Z) : list Z :=
  match cobs_dec_mem (Z.to_nat len) buf len 0 0 with
  | Some (mem, w) => slice mem 0 w
  | None => []
  end.

(** ** Reference encoding: maximal runs of non-zero bytes *)
Fixpoint cobs_ref (run data : list Z) : list Z :=
  match data with
  | [] => (zlen run + 1) :: run
  | b :: data =>
    if b =? 0 then (zlen run + 1) :: run ++ cobs_ref [] data
    else if zlen run + 1 =? 254 then 255 :: (run ++ [b]) ++ cobs_ref [] data
    else cobs_ref (run ++ [b]) data
  end.

(** The encoder's state when [done] has been closed and [run] is pending. *)
Definition enc_at (closed run : list Z) : cobs_enc :=
  CobsEnc (closed ++ 0 :: run) (zlen closed) (zlen run + 1).

Lemma patch_enc_at closed run :
  cobs_patch (enc_at closed run) = closed ++ (zlen run + 1) :: run.
Proof.
  unfold cobs_patch, enc_at, zlen. cbn. rewrite Nat2Z.id.
  rewrite insert_app_r_alt by lia. by rewrite Nat.sub_diag.
Qed.

Lemma cobs_open_at out : cobs_open out = enc_at out [].
Proof. done. Qed.

Lemma cobs_push_at closed run b :
  zlen run < 254 -> Byte b ->
  cobs_push (enc_at closed run) b =
    if b =? 0 then enc_at (closed ++ (zlen run + 1) :: run) []
    else if zlen run + 1 =? 254 then enc_at (closed ++ 255 :: run ++ [b]) []
    else enc_at closed (run ++ [b]).
Proof.
  intros Hr Hb. unfold cobs_push. destruct (b =? 0) eqn:Eb.
  { by rewrite patch_enc_at, cobs_open_at. }
  assert ((enc_at closed run) <| ce_out ::= fun o => o ++ [b] |>
            <| ce_code ::= fun c => u8 (c + 1) |> = enc_at closed (run ++ [b])) as ->.
  { unfold enc_at, upd. cbn. rewrite <- app_assoc, zlen_app. cbn. f_equal.
    rewrite zlen_cons, zlen_nil. pose proof (zlen_nonneg run).
    rewrite u8_small by (unfold Byte; lia). lia. }
  replace (ce_code (enc_at closed (run ++ [b])) =? 255) with (zlen run + 1 =? 254).
  2: { unfold enc_at. cbn. rewrite zlen_app, zlen_cons, zlen_nil. lia. }
  destruct (zlen run + 1 =? 254) eqn:E; [|done].
  rewrite patch_enc_at, cobs_open_at. repeat f_equal.
  rewrite zlen_app, zlen_cons, zlen_nil. lia.
Qed.

Lemma cobs_encode_at data closed run :
  zlen run < 254 -> Bytes data ->
  cobs_patch (foldl cobs_push (enc_at closed run) data) = closed ++ cobs_ref run data.
Proof.
  intros Hr H. revert closed run Hr.
  induction H as [|b data Hb H IH]; intros closed run Hr.
  { apply patch_enc_at. }
  cbn [foldl cobs_ref]. rewrite cobs_push_at by done. repeat split_if.
  - rewrite IH by done. rewrite <- app_assoc. done.
  - rewrite IH by done. rewrite <- app_assoc. cbn. by rewrite <- app_assoc.
  - apply IH. rewrite zlen_app, zlen_cons, zlen_nil. lia.
Qed.

(** The pointer-patching encoder computes the reference encoding. *)
Lemma rbp_cobs_encode_ref data : Bytes data -> rbp_cobs_encode data = cobs_ref [] data.
Proof.
  intros. unfold rbp_cobs_encode. rewrite cobs_open_at.
  by rewrite (cobs_encode_at data [] []).
Qed.

(** ** Round trip *)
Lemma cobs_dec_fuel f g src :
  (length src <= f)%nat -> (length src <= g)%nat -> cobs_dec f src = cobs_dec g src.
Proof.
  revert g src. induction f as [|f IH]; intros g src Hf Hg.
  { destruct src; [by destruct g|simpl in Hf; lia]. }
  destruct src as [|c src]; [by destruct g|]. destruct g as [|g]; [simpl in Hg; lia|].
  cbn [cobs_dec]. repeat split_if; try done;
    rewrite (IH g); try done; rewrite length_drop; simpl in Hf, Hg; lia.
Qed.

(** The fuel [rbp_cobs_decode] passes is enough: more never changes the result. *)
Lemma cobs_dec_enough f src :
  (length src <= f)%nat -> cobs_dec f src = cobs_dec (length src) src.
Proof. intros. by apply cobs_dec_fuel. Qed.

Lemma cobs_ref_nonempty run data : 0 < zlen (cobs_ref run data).
Proof.
  revert run. induction data as [|b data IH]; intros run; cbn [cobs_ref].
  - rewrite zlen_cons. pose proof (zlen_nonneg run). lia.
  - repeat split_if; auto; rewrite zlen_cons, !zlen_app; pose proof (IH []);
      pose proof (zlen_nonneg run); pose proof (zlen_nonneg [b]); lia.
Qed.

Lemma cobs_dec_block f code run rest :
  0 < code -> zlen run = code - 1 ->
  cobs_dec (S f) (code :: run ++ rest) =
    match cobs_dec f rest with
    | None => None
    | Some d => Some (run ++ (if (code <? 0xFF) && negb (zlen rest =? 0)
                              then [0] else []) ++ d)
    end.
Proof.
  intros Hc Hrun. cbn [cobs_dec]. rewrite (proj2 (Z.eqb_neq code 0)) by lia.
  pose proof (zlen_nonneg rest). rewrite zlen_app.
  destruct (zlen run + zlen rest <? code - 1) eqn:E; [lia|].
  replace (slice (run ++ rest) 0 (code - 1)) with run.
  2: { unfold slice. rewrite drop_0, take_app_le, take_ge; unfold zlen in *; lia || done. }
  replace (drop (Z.to_nat (code - 1)) (run ++ rest)) with rest; [done|].
  rewrite drop_app_ge by (unfold zlen in *; lia).
  replace (Z.to_nat (code - 1) - length run)%nat with 0%nat; [done|].
  unfold zlen in *. lia.
Qed.

Lemma cobs_dec_ref data run f :
  zlen run < 254 -> (length (cobs_ref run data) <= f)%nat ->
  cobs_dec f (cobs_ref run data) = Some (run ++ data).
Proof.
  revert run f. induction data as [|b data IH]; intros run f Hr Hf; cbn [cobs_ref] in *.
  - destruct f; [simpl in Hf; lia|]. rewrite <- (app_nil_r run) at 2.
    pose proof (zlen_nonneg run). rewrite cobs_dec_block by lia.
    destruct f; simpl; rewrite andb_false_r; by rewrite !app_nil_r.
  - pose proof (zlen_nonneg run). pose proof (cobs_ref_nonempty [] data).
    destruct (b =? 0) eqn:Eb.
    { destruct f; [simpl in Hf; lia|]. cbn [length] in Hf. rewrite length_app in Hf.
      rewrite cobs_dec_block by lia. rewrite IH by (done || lia).
      replace ((zlen run + 1 <? 255) && negb (zlen (cobs_ref [] data) =? 0)) with true by lia.
      apply Z.eqb_eq in Eb as ->. done. }
    destruct (zlen run + 1 =? 254) eqn:E.
    { destruct f; [simpl in Hf; lia|]. cbn [length] in Hf. rewrite !length_app in Hf.
      rewrite cobs_dec_block by (rewrite ?zlen_app, ?zlen_cons, ?zlen_nil; lia).
      rewrite IH by (done || lia). cbn. by rewrite <- app_assoc. }
    rewrite IH by (rewrite ?zlen_app, ?zlen_cons, ?zlen_nil; lia || done).
    by rewrite <- app_assoc.
Qed.

(** ** Shape of the encoding *)
Lemma cobs_ref_nonzero run data :
  Bytes data -> Forall (fun b => b <> 0) run -> zlen run < 254 ->
  Bytes run -> Forall (fun b => 0 < b < 256) (cobs_ref run data).
Proof.
  intros H. revert run. induction H as [|b data Hb H IH]; intros run Hz Hr Hrb; cbn [cobs_ref].
  - pose proof (zlen_nonneg run). constructor; [lia|].
    eapply Forall_both; [exact Hz|exact Hrb|]. unfold Byte. cbn. lia.
  - pose proof (zlen_nonneg run).
    assert (Forall (fun b => 0 < b < 256) run) as Hrun.
    { eapply Forall_both; [exact Hz|exact Hrb|]. unfold Byte. cbn. lia. }
    unfold Byte in Hb. repeat split_if.
    + constructor; [lia|]. apply Forall_app; split; [done|]. by apply IH.
    + constructor; [lia|]. apply Forall_app; split; [|by apply IH].
      apply Forall_app; split; [done|]. repeat constructor; lia.
    + apply IH.
      * apply Forall_app; split; [done|]. repeat constructor; lia.
      * rewrite zlen_app, zlen_cons, zlen_nil. lia.
      * apply Forall_app; split; [done|]. repeat constructor; unfold Byte; lia.
Qed.

(** 254 input bytes cost at most one extra code byte. *)
Lemma cobs_ref_length run data :
  zlen run < 254 ->
  254 * zlen (cobs_ref run data) <= 255 * (zlen run + zlen data) + 254 /\
  zlen run + zlen data + 1 <= zlen (cobs_ref run data).
Proof.
  revert run. induction data as [|b data IH]; intros run Hr; cbn [cobs_ref].
  - rewrite zlen_cons, zlen_nil. pose proof (zlen_nonneg run). lia.
  - pose proof (zlen_nonneg run). pose proof (zlen_nonneg data).
    rewrite (zlen_cons b data). specialize (IH (if (b =? 0) || (zlen run + 1 =? 254)
      then [] else run ++ [b])).
    destruct (b =? 0) eqn:Eb; cbn [orb] in IH.
    { rewrite zlen_cons, zlen_app. rewrite zlen_nil in IH. destruct IH; lia. }
    destruct (zlen run + 1 =? 254) eqn:E.
    { rewrite zlen_cons, !zlen_app, zlen_cons, zlen_nil. rewrite zlen_nil in IH.
      destruct IH; lia. }
    rewrite zlen_app, zlen_cons, zlen_nil in IH. destruct IH; lia.
Qed.

(** ** In-place decoding *)
Lemma mem_copy_splice n mem r w :
  0 <= w < r -> r + Z.of_nat n <= zlen mem ->
  mem_copy n mem r w = splice mem w (slice mem r (Z.of_nat n)).
Proof.
  revert mem r w. induction n as [|n IH]; intros mem r w Hw Hr.
  { cbn [mem_copy]. change (Z.of_nat 0) with 0. rewrite slice_nil_n. apply list_eq. intros i.
    rewrite lookup_splice by (rewrite ?zlen_nil; lia).
    rewrite bool_decide_false by (rewrite zlen_nil; lia). done. }
  cbn [mem_copy]. unfold mem_copy1.
  assert (is_Some (mem !! Z.to_nat r)) as [x Hx].
  { apply lookup_lt_is_Some. unfold zlen in Hr. lia. }
  rewrite (znth_lookup _ _ _ Hx).
  assert (zlen (<[Z.to_nat w:=x]> mem) = zlen mem) as Hz.
  { unfold zlen. by rewrite length_insert. }
  rewrite IH by lia. apply list_eq. intros i.
  rewrite !lookup_splice by (rewrite ?zlen_slice, ?Hz; lia).
  rewrite !zlen_slice by (rewrite ?Hz; lia).
  destruct (decide (i = Z.to_nat w)) as [->|Hi].
  - rewrite bool_decide_false, bool_decide_true by lia.
    rewrite list_lookup_insert_eq by (unfold zlen in *; lia).
    rewrite lookup_slice by lia. rewrite <- Hx. f_equal. lia.
  - repeat case_bool_decide; try lia; rewrite ?list_lookup_insert_ne by lia; [|done].
    rewrite !lookup_slice, list_lookup_insert_ne by lia. f_equal. lia.
Qed.

Lemma insert_at_splice (mem : list Z) w x :
  0 <= w < zlen mem -> <[Z.to_nat w := x]> mem = splice mem w [x].
Proof.
  intros Hw. apply list_eq. intros i. rewrite lookup_splice by (unfold zlen in *; simpl; lia).
  destruct (decide (i = Z.to_nat w)) as [->|Hi].
  - rewrite list_lookup_insert_eq by (unfold zlen in *; lia).
    rewrite bool_decide_true by (unfold zlen in *; simpl; lia). by rewrite Nat.sub_diag.
  - rewrite list_lookup_insert_ne by lia.
    rewrite bool_decide_false by (unfold zlen in *; simpl; lia). done.
Qed.



Lemma drop_slice {A} (l : list A) k r n :
  0 <= k <= n -> 0 <= r ->
  drop (Z.to_nat k) (slice l r n) = slice l (r + k) (n - k).
Proof.
  intros. unfold slice.
  apply list_eq. intros i. rewrite lookup_drop.
  destruct (decide (Z.of_nat i < n - k)).
  - rewrite !lookup_take_lt, !lookup_drop by lia. f_equal. lia.
  - rewrite !lookup_take_ge by lia. done.
Qed.

Lemma take_slice {A} (l : list A) k r n :
  0 <= k <= n -> slice (slice l r n) 0 k = slice l r k.
Proof. intros. unfold slice. rewrite drop_0, take_take. f_equal. lia. Qed.

Lemma slice_cons (l : list Z) r n :
  0 <= r -> 0 < n -> r + n <= zlen l ->
  slice l r n = znth l r :: slice l (r + 1) (n - 1).
Proof.
  intros. assert (is_Some (l !! Z.to_nat r)) as [x Hx].
  { apply lookup_lt_is_Some. unfold zlen in *. lia. }
  rewrite (znth_lookup _ _ _ Hx). unfold slice.
  rewrite (drop_S l x) by done. replace (Z.to_nat n) with (S (Z.to_nat (n - 1))) by lia.
  cbn [take]. do 2 f_equal. f_equal. lia.
Qed.

(** One array or two: the write cursor stays behind the read cursor, so the
    loop on one array decodes what the loop on two arrays decodes. *)
Lemma cobs_dec_mem_spec fuel mem end_ r w :
  0 <= w <= r -> r <= end_ <= zlen mem -> Bytes mem ->
  match cobs_dec fuel (slice mem r (end_ - r)), cobs_dec_mem fuel mem end_ r w with
  | None, None => True
  | Some d, Some (mem', w') =>
      w' = w + zlen d /\ zlen mem' = zlen mem /\ w' <= end_ /\
      slice mem' 0 w' = slice mem 0 w ++ d
  | _, _ => False
  end.
Proof.
  revert mem r w. induction fuel as [|fuel IH]; intros mem r w Hw Hr Hb.
  { cbn [cobs_dec_mem]. destruct (r <? end_) eqn:E; cbn [negb].
    - rewrite slice_cons by lia. done.
    - replace (end_ - r) with 0 by lia. rewrite slice_nil_n. cbn.
      rewrite app_nil_r, zlen_nil. repeat split; lia || done. }
  cbn [cobs_dec_mem]. destruct (r <? end_) eqn:E; cbn [negb].
  2: { replace (end_ - r) with 0 by lia. rewrite slice_nil_n. cbn.
       rewrite app_nil_r, zlen_nil. repeat split; lia || done. }
  rewrite slice_cons by lia. cbn [cobs_dec].
  pose proof (znth_byte mem r Hb) as Hcode. set (code := znth mem r) in *.
  destruct (code =? 0) eqn:Ec; [done|]. unfold Byte in Hcode.
  rewrite zlen_slice by lia. replace (end_ - r - 1) with (end_ - (r + 1)) by lia.
  destruct (end_ - (r + 1) <? code - 1) eqn:Ef; [done|].
  rewrite take_slice, drop_slice by lia. rewrite zlen_slice by lia.
  rewrite mem_copy_splice by lia. rewrite Z2Nat.id by lia.
  set (chunk := slice mem (r + 1) (code - 1)).
  assert (zlen chunk = code - 1) as Hch by (apply zlen_slice; lia).
  set (mem1 := splice mem w chunk).
  assert (zlen mem1 = zlen mem) as Hm1 by (apply zlen_splice; lia).
  assert (Bytes mem1) as Hb1 by (subst mem1 chunk; auto with rbp).
  set (r1 := r + 1 + (code - 1)).
  replace (end_ - (r + 1) - (code - 1)) with (end_ - r1) by lia.
  replace (end_ - r1 =? 0) with (r1 =? end_) by lia.
  assert (slice mem1 0 (w + zlen chunk) = slice mem 0 w ++ chunk) as Hw1
    by (apply slice_splice_grow; lia).
  destruct ((code <? 255) && negb (r1 =? end_)) eqn:Ez.
  - rewrite (insert_at_splice mem1) by lia.
    pose proof (zlen_splice mem1 [0] (w + (code - 1))) as Hm2.
    change (zlen [0]) with 1 in Hm2. specialize (Hm2 ltac:(lia) ltac:(lia)).
    specialize (IH (splice mem1 (w + (code - 1)) [0]) r1 (w + (code - 1) + 1)).
    rewrite slice_splice_after in IH by (change (zlen [0]) with 1; lia).
    subst mem1. rewrite slice_splice_after in IH by lia.
    specialize (IH ltac:(lia) ltac:(lia) ltac:(apply splice_Forall; [done|by repeat constructor])).
    pose proof (slice_splice_grow (splice mem w chunk) [0] (w + (code - 1)) ltac:(lia)) as Hg.
    change (zlen [0]) with 1 in Hg. specialize (Hg ltac:(lia)).
    destruct (cobs_dec fuel _) as [d|], (cobs_dec_mem fuel _ _ _ _) as [[mem' w']|]; try done.
    destruct IH as (-> & Hl & Hle & Hs). rewrite !zlen_app, Hch. change (zlen [0]) with 1.
    repeat split; try lia. etrans; [|etrans; [exact Hs|]]; [f_equal; lia|].
    rewrite Hg. rewrite Hch in Hw1. rewrite Hw1, <- !app_assoc. done.
  - specialize (IH mem1 r1 (w + (code - 1)) ltac:(lia) ltac:(lia) Hb1).
    subst mem1. rewrite slice_splice_after in IH by lia.
    destruct (cobs_dec fuel _) as [d|], (cobs_dec_mem fuel _ _ _ _) as [[mem' w']|]; try done.
    destruct IH as (-> & Hl & Hle & Hs). rewrite !zlen_app, Hch, zlen_nil.
    repeat split; try lia. etrans; [|etrans; [exact Hs|]]; [f_equal; lia|].
    rewrite Hch in Hw1. rewrite Hw1, <- !app_assoc. done.
Qed.

Lemma cobs_decode_inplace_eq buf len :
  Bytes buf -> 0 <= len <= zlen buf ->
  cobs_decode_inplace buf len = rbp_cobs_decode (slice buf 0 len).
Proof.
  intros Hb Hl. unfold cobs_decode_inplace, rbp_cobs_decode.
  pose proof (cobs_dec_mem_spec (Z.to_nat len) buf len 0 0 ltac:(lia) ltac:(lia) Hb) as H.
  rewrite Z.sub_0_r in H.
  replace (length (slice buf 0 len)) with (Z.to_nat len).
  2: { pose proof (zlen_slice buf 0 len). unfold zlen in *. lia. }
  destruct (cobs_dec _ _), (cobs_dec_mem _ _ _ _ _) as [[mem w]|]; try done.
  destruct H as (-> & _ & _ & H). by rewrite H.
Qed.

(** ** The codec, in terms of its two functions *)
Lemma cobs_decode_encode data : Bytes data -> rbp_cobs_decode (rbp_cobs_encode data) = data.
Proof.
  intros H. rewrite rbp_cobs_encode_ref by done. unfold rbp_cobs_decode.
  by rewrite (cobs_dec_ref data []) by done.
Qed.
Lemma cobs_encode_nonzero data :
  Bytes data -> Forall (fun b => 0 < b < 256) (rbp_cobs_encode data).
Proof. intros H. rewrite rbp_cobs_encode_ref by done. by apply cobs_ref_nonzero. Qed.
Lemma cobs_encode_length data :
  Bytes data ->
  zlen data + 1 <= zlen (rbp_cobs_encode data) <= zlen data + zlen data / 254 + 1.
Proof.
  intros H. rewrite rbp_cobs_encode_ref by done.
  pose proof (cobs_ref_length [] data eq_refl) as [H1 H2].
  rewrite zlen_nil in H1, H2. Z.div_mod_to_equations. lia.
Qed.

(** ** Properties *)

(** Decoding an encoded record gives back the record, for every input of
    bytes (zeros, empty input and runs longer than 254 bytes included): the
    COBS codec loses and invents nothing. *)
Theorem rbp_cobs_roundtrip data :
  Bytes data -> rbp_cobs_decode (rbp_cobs_encode data) = data.
Proof. apply cobs_decode_encode. Qed.
Lemma rbp_cobs_roundtrip_witness :
  rbp_cobs_decode (rbp_cobs_encode [0; 7; 0; 0; 255]) = [0; 7; 0; 0; 255].
Proof. apply rbp_cobs_roundtrip. by apply (bool_decide_unpack _). Defined.

(** An encoded record contains no zero byte, so the delimiter is
    unambiguous on the wire; its length is at least [len + 1] and at most
    [len + len/254 + 1], inside the [len + len/254 + 2] bytes frame.h asks
    callers to provide. *)
Theorem rbp_cobs_encode_shape data :
  Bytes data ->
  Forall (fun b => 0 < b < 256) (rbp_cobs_encode data) /\
  zlen data + 1 <= zlen (rbp_cobs_encode data) <= zlen data + zlen data / 254 + 1.
Proof. intros H. split; [by apply cobs_encode_nonzero|by apply cobs_encode_length]. Qed.
Lemma rbp_cobs_encode_shape_witness :
  Forall (fun b => 0 < b < 256) (rbp_cobs_encode (replicate 254 9)) /\
  zlen (replicate 254 9) + 1 <= zlen (rbp_cobs_encode (replicate 254 9))
    <= zlen (replicate 254 9) + zlen (replicate 254 9) / 254 + 1.
Proof. apply rbp_cobs_encode_shape. by apply (bool_decide_unpack _). Defined.

(** The receiver decodes a run into the buffer that holds it.  The write
    cursor never passes the read cursor, so this gives exactly what decoding
    into a separate buffer gives, on malformed runs too. *)
Theorem cobs_decode_inplace_correct buf len :
  Bytes buf -> 0 <= len <= zlen buf ->
  cobs_decode_inplace buf len = rbp_cobs_decode (slice buf 0 len).
Proof. apply cobs_decode_inplace_eq. Qed.
Lemma cobs_decode_inplace_correct_witness :
  cobs_decode_inplace [3; 1; 2; 2; 9; 77] 5 = rbp_cobs_decode (slice [3; 1; 2; 2; 9; 77] 0 5).
Proof.
  apply cobs_decode_inplace_correct; [by apply (bool_decide_unpack _)|].
  by apply (bool_decide_unpack _).
Defined.
