(* ===== verification/Defs.v ===== *)
(** * Protocol constants

    The object-like macros of rbp/defs.h, rbp/tlv.h and rbp/audio.h, under the
    names of the source. *)
From S2P Require Import Prelude.

(** ** rbp/defs.h *)
Definition RBP_MAGIC0 : Z := 0x52.
Definition RBP_MAGIC1 : Z := 0x42.
Definition RBP_MAJOR : Z := 3.
Definition RBP_MINOR : Z := 0.
Definition RBP_HEADER_SIZE : Z := 32.
Definition RBP_MAX_PAYLOAD : Z := 512.
Definition RBP_MAX_DECODED : Z := (RBP_HEADER_SIZE + RBP_MAX_PAYLOAD).
Definition RBP_MAX_FRAME_RAW : Z := (RBP_MAX_DECODED + 4).
Definition RBP_MAX_ENCODED : Z := 552.
Definition RBP_COBS_RECV_MAX : Z := 551.
Definition RBP_KIND_REQUEST : Z := 1.
Definition RBP_KIND_RESPONSE : Z := 2.
Definition RBP_KIND_EVENT : Z := 3.
Definition RBP_KIND_AUDIO : Z := 4.
Definition RBP_STATUS_OK : Z := 0.
Definition RBP_STATUS_ACCEPTED : Z := 1.
Definition RBP_STATUS_INVALID_ARGUMENT : Z := 2.
Definition RBP_STATUS_UNSUPPORTED : Z := 3.
Definition RBP_STATUS_BAD_STATE : Z := 4.
Definition RBP_STATUS_BUSY : Z := 5.
Definition RBP_STATUS_NOT_FOUND : Z := 6.
Definition RBP_STATUS_TIMEOUT : Z := 7.
Definition RBP_STATUS_PAIRING_FAILED : Z := 8.
Definition RBP_STATUS_LINK_LOST : Z := 9.
Definition RBP_STATUS_STORAGE_FAILED : Z := 10.
Definition RBP_STATUS_RESOURCE_LIMIT : Z := 11.
Definition RBP_STATUS_CANCELLED : Z := 12.
Definition RBP_STATUS_DUPLICATE : Z := 13.
Definition RBP_STATUS_SESSION_MISMATCH : Z := 14.
Definition RBP_STATUS_DEVICE_ERROR : Z := 15.
Definition RBP_STATUS_VOICE_UNAVAILABLE : Z := 16.
Definition RBP_STATUS_VERSION_MISMATCH : Z := 17.
Definition RBP_OP_HELLO : Z := 0x0001.
Definition RBP_OP_PING : Z := 0x0002.
Definition RBP_OP_GET_DEVICE : Z := 0x0003.
Definition RBP_OP_GET_PEER : Z := 0x0004.
Definition RBP_OP_GET_OPERATION : Z := 0x0005.
Definition RBP_OP_GET_STATS : Z := 0x0006.
Definition RBP_OP_GOODBYE : Z := 0x0007.
Definition RBP_OP_FIND_START : Z := 0x0100.
Definition RBP_OP_FIND_LIST : Z := 0x0101.
Definition RBP_OP_FIND_STOP : Z := 0x0102.
Definition RBP_OP_PAIR_BEGIN : Z := 0x0110.
Definition RBP_OP_PAIR_REPLY : Z := 0x0111.
Definition RBP_OP_PAIR_CANCEL : Z := 0x0112.
Definition RBP_OP_FORGET_PEER : Z := 0x0113.
Definition RBP_OP_SET_RECONNECT : Z := 0x0114.
Definition RBP_OP_CONNECT_PEER : Z := 0x0115.
Definition RBP_OP_DISCONNECT : Z := 0x0116.
Definition RBP_OP_KEY_CATALOG : Z := 0x0200.
Definition RBP_OP_KEYS_SNAPSHOT : Z := 0x0201.
Definition RBP_OP_EVENTS_ENABLE : Z := 0x0202.
Definition RBP_OP_KEYS_STATE_EV : Z := 0x0280.
Definition RBP_OP_VOICE_ENABLE : Z := 0x0300.
Definition RBP_OP_VOICE_STOP : Z := 0x0301.
Definition RBP_OP_VOICE_START : Z := 0x0303.
Definition RBP_OP_VOICE_STARTED_EV : Z := 0x0380.
Definition RBP_OP_VOICE_DATA : Z := 0x0381.
Definition RBP_OP_VOICE_ENDED_EV : Z := 0x0382.
Definition RBP_OP_VOICE_FORMAT_EV : Z := 0x0383.
Definition RBP_OP_FIND_DONE_EV : Z := 0x0180.
Definition RBP_OP_PAIR_PROMPT_EV : Z := 0x0181.
Definition RBP_OP_OPERATION_EV : Z := 0x0182.
Definition RBP_OP_DEVICE_STATE_EV : Z := 0x0183.
Definition RBP_TLV_T_U8 : Z := 1.
Definition RBP_TLV_T_U16 : Z := 2.
Definition RBP_TLV_T_U32 : Z := 3.
Definition RBP_TLV_T_U64 : Z := 4.
Definition RBP_TLV_T_BOOL : Z := 5.
Definition RBP_TLV_T_TEXT : Z := 6.
Definition RBP_TLV_T_BYTES : Z := 7.
Definition RBP_FEAT_ENCODED_VOICE : Z := 0x01.
Definition RBP_FEAT_INTERACTIVE_PAIR : Z := 0x02.
Definition RBP_FEAT_BOND_SAVE : Z := 0x04.
Definition RBP_FEAT_AUTO_RECONNECT : Z := 0x08.
Definition RBP_DEVSTATE_UNBOUND : Z := 0.
Definition RBP_DEVSTATE_DISCONNECTED : Z := 1.
Definition RBP_DEVSTATE_CONNECTING : Z := 2.
Definition RBP_DEVSTATE_PAIRING : Z := 3.
Definition RBP_DEVSTATE_INITIALIZING : Z := 4.
Definition RBP_DEVSTATE_READY : Z := 5.
Definition RBP_DEVSTATE_UNSUPPORTED : Z := 6.
Definition RBP_DEVSTATE_ERROR : Z := 7.
Definition RBP_VOICE_ABSENT : Z := 0.
Definition RBP_VOICE_INITIALIZING : Z := 1.
Definition RBP_VOICE_READY : Z := 2.
Definition RBP_VOICE_UNSUPPORTED : Z := 3.
Definition RBP_VOICE_FAILED : Z := 4.
Definition RBP_VI_UNAVAILABLE : Z := 0.
Definition RBP_VI_ON_REQUEST : Z := 1.
Definition RBP_VI_PTT : Z := 2.
Definition RBP_VI_HTT : Z := 3.
Definition RBP_PROMPT_CONFIRM_PAIR : Z := 0.
Definition RBP_PROMPT_ENTER_PASSKEY : Z := 1.
Definition RBP_PROMPT_CONFIRM_NUMBER : Z := 2.
Definition RBP_PROMPT_DISPLAY_PASSKEY : Z := 3.
Definition RBP_FIND_DONE_EXPIRED : Z := 0.
Definition RBP_FIND_DONE_USER_STOP : Z := 1.
Definition RBP_FIND_DONE_PAIR_TAKEOVER : Z := 2.
Definition RBP_KEYS_STRUCT_SIZE : Z := 24.
Definition RBP_KEYS_KIND_SNAPSHOT : Z := 0.
Definition RBP_KEYS_KIND_PHYSICAL : Z := 1.
Definition RBP_KEYS_KIND_RESET : Z := 2.
Definition RBP_KEYS_REASON_NONE : Z := 0.
Definition RBP_KEYS_REASON_LINK_LOST : Z := 1.
Definition RBP_KEYS_REASON_OVERFLOW : Z := 2.
Definition RBP_KEYS_REASON_ADAPTER_ERROR : Z := 3.
Definition RBP_END_NORMAL : Z := 0.
Definition RBP_END_CONSUMER_DISABLED : Z := 1.
Definition RBP_END_LINK_LOST : Z := 2.
Definition RBP_END_BUFFER_OVERRUN : Z := 3.
Definition RBP_END_INVALID_ENCODED_DATA : Z := 4.
Definition RBP_END_SOURCE_DATA_LOST : Z := 5.
Definition RBP_END_DEVICE_ERROR : Z := 6.
Definition RBP_END_REQUESTED_STOP : Z := 7.
Definition RBP_END_CAPTURE_LIMIT : Z := 8.
Definition RBP_OPSTATE_PENDING : Z := 0.
Definition RBP_OPSTATE_COMPLETED : Z := 1.
Definition RBP_TAG_MESSAGE : Z := 1.
Definition RBP_TAG_UNCERTAIN : Z := 2.
Definition RBP_MAX_KEYS : Z := 64.
Definition RBP_MAX_CANDIDATES : Z := 8.
Definition RBP_MAX_OPERATION_RESULTS : Z := 4.
Definition RBP_KEY_QUEUE_DEPTH : Z := 8.
Definition RBP_MAX_VOICE_BLOCK_SAMPLES : Z := 246.
Definition RBP_KEY_POWER : Z := 0x0001.
Definition RBP_KEY_VOICE : Z := 0x0002.
Definition RBP_KEY_UP : Z := 0x0003.
Definition RBP_KEY_DOWN : Z := 0x0004.
Definition RBP_KEY_LEFT : Z := 0x0005.
Definition RBP_KEY_RIGHT : Z := 0x0006.
Definition RBP_KEY_OK : Z := 0x0007.
Definition RBP_KEY_BACK : Z := 0x0008.
Definition RBP_KEY_HOME : Z := 0x0009.
Definition RBP_KEY_MENU : Z := 0x000A.
Definition RBP_KEY_TV : Z := 0x000B.
Definition RBP_KEY_VOLUME_UP : Z := 0x000C.
Definition RBP_KEY_VOLUME_DOWN : Z := 0x000D.
Definition RBP_KEY_MUTE : Z := 0x000E.
Definition RBP_KEY_PLAY_PAUSE : Z := 0x000F.
Definition RBP_KEY_NEXT : Z := 0x0010.
Definition RBP_KEY_PREVIOUS : Z := 0x0011.
Definition RBP_KEY_STOP : Z := 0x0012.
Definition RBP_KEY_SETTINGS : Z := 0x0013.
Definition RBP_KEY_LOCAL : Z := 0x0014.
Definition RBP_KEY_CHANNEL_UP : Z := 0x0015.
Definition RBP_KEY_CHANNEL_DOWN : Z := 0x0016.
Definition RBP_KEY_DIGIT_0 : Z := 0x0017.
Definition RBP_KEY_DIGIT_1 : Z := 0x0018.
Definition RBP_KEY_DIGIT_2 : Z := 0x0019.
Definition RBP_KEY_DIGIT_3 : Z := 0x001A.
Definition RBP_KEY_DIGIT_4 : Z := 0x001B.
Definition RBP_KEY_DIGIT_5 : Z := 0x001C.
Definition RBP_KEY_DIGIT_6 : Z := 0x001D.
Definition RBP_KEY_DIGIT_7 : Z := 0x001E.
Definition RBP_KEY_DIGIT_8 : Z := 0x001F.
Definition RBP_KEY_DIGIT_9 : Z := 0x0020.
Definition RBP_KEY_STAR : Z := 0x0021.
Definition RBP_KEY_HASH : Z := 0x0022.
Definition RBP_END_UNSUPPORTED_FORMAT : Z := 9.
Definition RBP_OP_GET_VOICE_CAPS : Z := 0x0302.

(** ** rbp/tlv.h *)
Definition RBP_TLV_MAX_TEXT : Z := 96.
Definition RBP_TLV_MAX_BYTES : Z := 480.

(** ** rbp/audio.h *)
Definition RBP_CODEC_IMA_HI : Z := 1.
Definition RBP_CODEC_IFLYTEK_ICO : Z := 2.
Definition RBP_AUDIO_CONFIG_MAX : Z := 256.
Definition RBP_AUDIO_UNIT_MAX : Z := 65536.
Definition RBP_AUDIO_DATA_HEADER : Z := 40.
Definition RBP_AUDIO_FRAGMENT_MAX : Z := 472.

(** The sizes, for arithmetic: [sizes] exposes their values to [lia]. *)
Create HintDb sizes.
#[export] Hint Unfold RBP_HEADER_SIZE RBP_MAX_PAYLOAD RBP_MAX_DECODED RBP_MAX_FRAME_RAW
  RBP_MAX_ENCODED RBP_COBS_RECV_MAX RBP_TLV_MAX_TEXT RBP_TLV_MAX_BYTES
  RBP_KEYS_STRUCT_SIZE RBP_MAX_KEYS RBP_MAX_CANDIDATES RBP_MAX_OPERATION_RESULTS
  RBP_KEY_QUEUE_DEPTH RBP_AUDIO_DATA_HEADER RBP_AUDIO_CONFIG_MAX RBP_AUDIO_UNIT_MAX
  RBP_MAGIC0 RBP_MAGIC1 RBP_MAJOR RBP_MINOR : sizes.
Ltac sizes := autounfold with sizes in *; lia.
