(* ===== verification/Frame.v ===== *)
(** * Frames

    The frame layer of rbp_frame.c: the 32-byte header, the streaming encoder
    [encode_payload] and its two callers, and the receiver state machine
    [rbp_rxparser_feed] with its pump [rbp_rx_drain].

    A frame on the wire is [COBS(header ++ payload ++ CRC32C) ++ [0]].
    [rbp_rxparser_t]'s [buf] and [len] are modelled by the list [buf[0 .. len)]:
    the code reads no byte at or past [len]. *)
From S2P Require Import Prelude Defs Crc32c Cobs.

(** ** Header *)
Definition put16 (v : Z) : list Z := [u8 v; u8 (Z.shiftr v 8)].
Definition put32 (v : Z) : list Z :=
  [u8 v; u8 (Z.shiftr v 8); u8 (Z.shiftr v 16); u8 (Z.shiftr v 24)].
Definition get16 (p : list Z) (o : Z) : Z :=
  u16 (Z.lor (znth p o) (Z.shiftl (znth p (o + 1)) 8)).
Definition get32 (p : list Z) (o : Z) : Z :=
  Z.lor (Z.lor (Z.lor (znth p o) (Z.shiftl (znth p (o + 1)) 8))
               (Z.shiftl (znth p (o + 2)) 16)) (Z.shiftl (znth p (o + 3)) 24).

Record rbp_header_t := Header {
  h_magic0 : Z; h_magic1 : Z; h_major : Z; h_minor : Z; h_kind : Z; h_flags : Z;
  h_header_size : Z; h_session_id : Z; h_tx_seq : Z; h_request_id : Z;
  h_opcode : Z; h_status : Z; h_payload_size : Z; h_reserved : Z; h_connection_id : Z }.
#[export] Instance eta_header : Eta rbp_header_t := fun h =>
  Header (h_magic0 h) (h_magic1 h) (h_major h) (h_minor h) (h_kind h) (h_flags h)
    (h_header_size h) (h_session_id h) (h_tx_seq h) (h_request_id h)
    (h_opcode h) (h_status h) (h_payload_size h) (h_reserved h) (h_connection_id h).
(** [memset(&h, 0, sizeof h)]. *)
Definition header0 : rbp_header_t := Header 0 0 0 0 0 0 0 0 0 0 0 0 0 0 0.

Definition rbp_header_pack (h : rbp_header_t) : list Z :=
  [u8 (h_magic0 h); u8 (h_magic1 h); u8 (h_major h); u8 (h_minor h); u8 (h_kind h); u8 (h_flags h)] ++
  put16 (h_header_size h) ++ put32 (h_session_id h) ++ put32 (h_tx_seq h) ++
  put32 (h_request_id h) ++ put16 (h_opcode h) ++ put16 (h_status h) ++
  put16 (h_payload_size h) ++ put16 (h_reserved h) ++ put32 (h_connection_id h).

(** The parsed fields are filled in even when the function returns false. *)
Definition rbp_header_parse (b : list Z) : rbp_header_t * bool :=
  let h := Header (znth b 0) (znth b 1) (znth b 2) (znth b 3) (znth b 4) (znth b 5)
    (get16 b 6) (get32 b 8) (get32 b 12) (get32 b 16) (get16 b 20) (get16 b 22)
    (get16 b 24) (get16 b 26) (get32 b 28) in
  (h, (h_magic0 h =? RBP_MAGIC0) && (h_magic1 h =? RBP_MAGIC1) &&
      (h_header_size h =? RBP_HEADER_SIZE) && (h_reserved h =? 0)).

(** ** Encoder *)

(** [rbp_txseq_t] is its only field, [next_tx_seq]. *)
Definition rbp_txseq_init : Z := 1.

Record rbp_txframe_t := TxFrame {
  f_hdr : rbp_header_t; f_payload : list Z (* payload[0 .. payload_len) *) }.
#[export] Instance eta_txframe : Eta rbp_txframe_t := fun f => TxFrame (f_hdr f) (f_payload f).
Definition payload_len (f : rbp_txframe_t) : Z := zlen (f_payload f).

Definition rbp_txframe_begin (h : rbp_header_t) : rbp_txframe_t := TxFrame h [].
Definition rbp_txframe_payload (f : rbp_txframe_t) (data : list Z) : rbp_txframe_t * bool :=
  if (RBP_MAX_PAYLOAD <? payload_len f) || (RBP_MAX_PAYLOAD - payload_len f <? zlen data)
  then (f, false)
  else (f <| f_payload ::= fun p => p ++ data |>, true).

(** The header fields [encode_payload] fills in. *)
Definition stamp_header (h : rbp_header_t) (seq len : Z) : rbp_header_t :=
  h <| h_magic0 := RBP_MAGIC0 |> <| h_magic1 := RBP_MAGIC1 |> <| h_major := RBP_MAJOR |>
    <| h_minor := RBP_MINOR |> <| h_header_size := RBP_HEADER_SIZE |> <| h_tx_seq := seq |>
    <| h_reserved := 0 |> <| h_payload_size := u16 len |>.

(** One byte of the streaming loop; [covered] is [part < 2]. *)
Definition encode_byte (covered : bool) (st : Z * cobs_enc) (byte : Z) : Z * cobs_enc :=
  let '(crc, e) := st in
  (if covered then crc32c_step crc byte else crc, cobs_push e byte).

(** Result: the stamped header, [next_tx_seq] and the bytes of [out]; the
    returned length is their number, 0 when the payload is refused.  [None] is
    the null payload pointer. *)
Definition encode_payload (h : rbp_header_t) (seq : Z) (p : option (list Z)) (len : Z)
  : rbp_header_t * Z * list Z :=
  if (RBP_MAX_PAYLOAD <? len) || (negb (len =? 0) && bool_decide (p = None))
  then (h, seq, [])
  else
    let h := stamp_header h seq len in
    let st := (0xffffffff, cobs_open []) in
    let st := foldl (encode_byte true) st (rbp_header_pack h) in
    let st := foldl (encode_byte true) st (slice (default [] p) 0 len) in
    let tail := put32 (Z.lxor (fst st) 0xffffffff) in
    let st := foldl (encode_byte false) st tail in
    (h, u32 (seq + 1), cobs_patch (snd st) ++ [0]).

Definition rbp_frame_encode (h : rbp_header_t) (seq : Z) (p : option (list Z)) (len : Z)
  : Z * list Z :=
  let '(_, seq, out) := encode_payload h seq p len in (seq, out).
Definition rbp_txframe_commit (f : rbp_txframe_t) (seq : Z) : rbp_txframe_t * Z * list Z :=
  let '(h, seq, out) := encode_payload (f_hdr f) seq (Some (f_payload f)) (payload_len f) in
  (f <| f_hdr := h |>, seq, out).

(** ** Receiver *)
Inductive rx_state_t := RXS_IDLE | RXS_IN_FRAME | RXS_DISCARD.
#[export] Instance rx_state_eq_dec : EqDecision rx_state_t.
Proof. solve_decision. Defined.

Record rbp_rxparser_t := RxParser {
  rx_state : rx_state_t; rx_buf : list Z; frame_start_ms : Z }.
#[export] Instance eta_rxparser : Eta rbp_rxparser_t := fun p =>
  RxParser (rx_state p) (rx_buf p) (frame_start_ms p).
Definition rx_len (p : rbp_rxparser_t) : Z := zlen (rx_buf p).

(** [rbp_rx_event_t] with the fields of [rbp_rx_event_ctx_t] that are valid
    for it; [resume] is returned beside the event. *)
Inductive rbp_rx_event_t :=
  | RBP_RX_NONE
  | RBP_RX_FRAME (header : rbp_header_t) (pl : list Z) (crc_ok : bool)
  | RBP_RX_OVERFLOW
  | RBP_RX_TIMEOUT
  | RBP_RX_GARBAGE.

Definition rbp_rxparser_init (now_ms : Z) : rbp_rxparser_t := RxParser RXS_IDLE [] now_ms.
Definition rx_reset (now_ms : Z) : rbp_rxparser_t := RxParser RXS_IDLE [] now_ms.

(** A complete run, decoded in its own buffer. *)
Definition rx_frame (buf : list Z) : rbp_rx_event_t :=
  let raw := cobs_decode_inplace buf (zlen buf) in
  let raw_len := zlen raw in
  if (RBP_HEADER_SIZE + 4 <=? raw_len) && (raw_len <=? RBP_MAX_FRAME_RAW) then
    let plen := raw_len - RBP_HEADER_SIZE - 4 in
    let '(h, ok) := rbp_header_parse raw in
    if ok then
      let crc_ok := rbp_crc32c (slice raw 0 (RBP_HEADER_SIZE + plen)) =?
                    get32 raw (RBP_HEADER_SIZE + plen) in
      let plen := if RBP_MAX_PAYLOAD <? plen then RBP_MAX_PAYLOAD else plen in
      RBP_RX_FRAME h (slice raw RBP_HEADER_SIZE plen) crc_ok
    else RBP_RX_GARBAGE
  else RBP_RX_GARBAGE.

(** The loop body: [Some ev] is a [return ev] with [resume] at the next byte. *)
Definition rx_byte (p : rbp_rxparser_t) (b now_ms : Z) : rbp_rxparser_t * option rbp_rx_event_t :=
  if bool_decide (rx_state p = RXS_DISCARD)
  then (if b =? 0 then rx_reset now_ms else p, None)
  else if b =? 0 then
    if bool_decide (rx_state p = RXS_IN_FRAME) && (0 <? rx_len p)
    then (rx_reset now_ms, Some (rx_frame (rx_buf p)))
    else (rx_reset now_ms, None)
  else
    let p := if bool_decide (rx_state p = RXS_IDLE)
             then RxParser RXS_IN_FRAME [] now_ms else p in
    if RBP_COBS_RECV_MAX <=? rx_len p
    then (p <| rx_state := RXS_DISCARD |>, Some RBP_RX_OVERFLOW)
    else (p <| rx_buf ::= fun l => l ++ [b] |>, None).

Fixpoint rx_loop (p : rbp_rxparser_t) (data : list Z) (now_ms : Z)
  : rbp_rxparser_t * rbp_rx_event_t * list Z :=
  match data with
  | [] =>
    if bool_decide (rx_state p = RXS_IN_FRAME) && (1000 <? u32 (now_ms - frame_start_ms p))
    then (RxParser RXS_DISCARD [] (frame_start_ms p), RBP_RX_TIMEOUT, [])
    else (p, RBP_RX_NONE, [])
  | b :: data =>
    match rx_byte p b now_ms with
    | (p, Some ev) => (p, ev, data)
    | (p, None) => rx_loop p data now_ms
    end
  end.

Definition rx_stale (p : rbp_rxparser_t) (now_ms : Z) : bool :=
  bool_decide (rx_state p = RXS_IN_FRAME) && (1000 <=? u32 (now_ms - frame_start_ms p)).

Definition rbp_rxparser_feed (p : rbp_rxparser_t) (data : list Z) (now_ms : Z)
  : rbp_rxparser_t * rbp_rx_event_t * list Z :=
  if rx_stale p now_ms
  then (RxParser RXS_DISCARD [] (frame_start_ms p), RBP_RX_TIMEOUT, data)
  else rx_loop p data now_ms.

(** The pump.  [on_event] is the callback acting on the caller's state [U];
    it does not touch the parser.  [None]: out of fuel, which
    [rbp_rx_drain_total] excludes. *)
Fixpoint rx_drain {U} (on_event : rbp_rx_event_t -> U -> U) (fuel : nat)
    (p : rbp_rxparser_t) (data : list Z) (now_ms : Z) (u : U) : option (rbp_rxparser_t * U) :=
  match data, fuel with
  | [], _ => Some (p, u)
  | _ :: _, O => None
  | _ :: _, S fuel =>
    let '(p, ev, resume) := rbp_rxparser_feed p data now_ms in
    let u := on_event ev u in
    match ev with
    | RBP_RX_NONE => Some (p, u)
    | _ => rx_drain on_event fuel p resume now_ms u
    end
  end.
Definition rbp_rx_drain {U} (on_event : rbp_rx_event_t -> U -> U)
    (p : rbp_rxparser_t) (data : list Z) (now_ms : Z) (u : U) : rbp_rxparser_t * U :=
  match rx_drain on_event (S (length data)) p data now_ms u with
  | Some r => r
  | None => (p, u)
  end.

(** ** Header: round trip *)
Definition header_wf (h : rbp_header_t) : Prop :=
  Byte (h_magic0 h) /\ Byte (h_magic1 h) /\ Byte (h_major h) /\ Byte (h_minor h) /\
  Byte (h_kind h) /\ Byte (h_flags h) /\ U16 (h_header_size h) /\ U32 (h_session_id h) /\
  U32 (h_tx_seq h) /\ U32 (h_request_id h) /\ U16 (h_opcode h) /\ U16 (h_status h) /\
  U16 (h_payload_size h) /\ U16 (h_reserved h) /\ U32 (h_connection_id h).
#[export] Instance header_wf_dec h : Decision (header_wf h).
Proof. unfold header_wf. apply _. Defined.

Lemma rbp_header_parse_pack h rest :
  header_wf h ->
  rbp_header_parse (rbp_header_pack h ++ rest) =
    (h, (h_magic0 h =? RBP_MAGIC0) && (h_magic1 h =? RBP_MAGIC1) &&
        (h_header_size h =? RBP_HEADER_SIZE) && (h_reserved h =? 0)).
Proof.
  intros (H0&H1&H2&H3&H4&H5&H6&H7&H8&H9&H10&H11&H12&H13&H14).
  assert (Header (znth (rbp_header_pack h ++ rest) 0) (znth (rbp_header_pack h ++ rest) 1)
    (znth (rbp_header_pack h ++ rest) 2) (znth (rbp_header_pack h ++ rest) 3)
    (znth (rbp_header_pack h ++ rest) 4) (znth (rbp_header_pack h ++ rest) 5)
    (get16 (rbp_header_pack h ++ rest) 6) (get32 (rbp_header_pack h ++ rest) 8)
    (get32 (rbp_header_pack h ++ rest) 12) (get32 (rbp_header_pack h ++ rest) 16)
    (get16 (rbp_header_pack h ++ rest) 20) (get16 (rbp_header_pack h ++ rest) 22)
    (get16 (rbp_header_pack h ++ rest) 24) (get16 (rbp_header_pack h ++ rest) 26)
    (get32 (rbp_header_pack h ++ rest) 28) = h) as Hh.
  { lazy -[u8 u16 Z.lor Z.shiftl Z.shiftr h_magic0 h_magic1 h_major h_minor h_kind h_flags
      h_header_size h_session_id h_tx_seq h_request_id h_opcode h_status h_payload_size
      h_reserved h_connection_id].
    rewrite !join16, !join32, !u8_small by done. by destruct h. }
  unfold rbp_header_parse. rewrite Hh. done.
Qed.

Lemma length_pack h : length (rbp_header_pack h) = 32%nat.
Proof. done. Qed.
Lemma put32_bytes v : Bytes (put32 v).
Proof. unfold put32. repeat constructor; apply u8_byte. Qed.
Lemma pack_bytes h : Bytes (rbp_header_pack h).
Proof.
  unfold rbp_header_pack, put16, put32. cbn [app].
  repeat constructor; apply u8_byte.
Qed.
#[export] Hint Resolve put32_bytes pack_bytes : rbp.

Lemma get32_put32 a v : U32 v -> get32 (a ++ put32 v) (zlen a) = v.
Proof.
  intros Hv.
  assert (forall k : nat, znth (a ++ put32 v) (zlen a + Z.of_nat k) = nth k (put32 v) 0) as Hn.
  { intros k. unfold znth, zlen. rewrite app_nth2 by lia. f_equal. lia. }
  pose proof (Hn 0%nat) as E0. rewrite Z.add_0_r in E0.
  pose proof (Hn 1%nat) as E1. pose proof (Hn 2%nat) as E2. pose proof (Hn 3%nat) as E3.
  change (Z.of_nat 1) with 1 in E1. change (Z.of_nat 2) with 2 in E2.
  change (Z.of_nat 3) with 3 in E3.
  unfold get32. rewrite E0, E1, E2, E3. by apply join32.
Qed.

(** ** Encoder: the streamed frame is the encoding of the whole raw frame *)

(** The raw frame: header, payload and checksum. *)
Definition raw_frame (h : rbp_header_t) (data : list Z) : list Z :=
  let body := rbp_header_pack h ++ data in body ++ put32 (rbp_crc32c body).

Lemma encode_covered data crc e :
  foldl (encode_byte true) (crc, e) data =
    (foldl crc32c_step crc data, foldl cobs_push e data).
Proof. revert crc e. induction data as [|b data IH]; intros; [done|]. cbn. apply IH. Qed.
Lemma encode_uncovered data crc e :
  foldl (encode_byte false) (crc, e) data = (crc, foldl cobs_push e data).
Proof. revert e. induction data as [|b data IH]; intros; [done|]. cbn. apply IH. Qed.

Lemma encode_payload_stream h seq data :
  zlen data <= RBP_MAX_PAYLOAD ->
  encode_payload h seq (Some data) (zlen data) =
    (stamp_header h seq (zlen data), u32 (seq + 1),
     rbp_cobs_encode (raw_frame (stamp_header h seq (zlen data)) data) ++ [0]).
Proof.
  intros Hl. unfold encode_payload. rewrite bool_decide_false, andb_false_r by done.
  destruct (RBP_MAX_PAYLOAD <? zlen data) eqn:E; [lia|]. cbn [orb default].
  rewrite slice_all, !encode_covered, encode_uncovered.
  cbn [fst snd]. unfold rbp_cobs_encode, raw_frame, rbp_crc32c.
  rewrite !foldl_app. done.
Qed.

Lemma raw_frame_bytes h data : Bytes data -> Bytes (raw_frame h data).
Proof.
  intros. unfold raw_frame. apply Forall_app_2; [|auto with rbp].
  apply Forall_app_2; auto with rbp.
Qed.
Lemma zlen_raw_frame h data : zlen (raw_frame h data) = 36 + zlen data.
Proof.
  unfold raw_frame. rewrite !zlen_app. change (zlen (put32 _)) with 4.
  change (zlen (rbp_header_pack h)) with 32. lia.
Qed.

Lemma stamp_header_wf h seq len : header_wf h -> U32 seq -> header_wf (stamp_header h seq len).
Proof.
  intros (H0&H1&H2&H3&H4&H5&H6&H7&H8&H9&H10&H11&H12&H13&H14) Hs.
  pose proof (u16_range len).
  unfold header_wf, stamp_header. cbn.
  repeat split; try done; apply H0 || apply H1 || apply H2 || apply H3 || apply H4 ||
    apply H5 || apply H7 || apply H9 || apply H10 || apply H11 || apply H14 || apply Hs || apply H.
Qed.

(** ** Receiver: the events of a byte sequence

    [rx_run] is the receiver without calls and resume cursors: it feeds the
    bytes one by one and lists the events. *)
Fixpoint rx_run (p : rbp_rxparser_t) (data : list Z) (now_ms : Z)
  : rbp_rxparser_t * list rbp_rx_event_t :=
  match data with
  | [] => (p, [])
  | b :: data =>
    let '(p, ev) := rx_byte p b now_ms in
    let '(p, evs) := rx_run p data now_ms in
    (p, match ev with Some ev => ev :: evs | None => evs end)
  end.
(** The staleness check precedes the bytes, if there are any. *)
Definition rx_expire (p : rbp_rxparser_t) (now_ms : Z) : rbp_rxparser_t * list rbp_rx_event_t :=
  if rx_stale p now_ms then (RxParser RXS_DISCARD [] (frame_start_ms p), [RBP_RX_TIMEOUT])
  else (p, []).
Definition rx_events (p : rbp_rxparser_t) (data : list Z) (now_ms : Z)
  : rbp_rxparser_t * list rbp_rx_event_t :=
  match data with
  | [] => (p, [])
  | _ =>
    let '(p, evs) := rx_expire p now_ms in
    let '(p, evs') := rx_run p data now_ms in (p, evs ++ evs')
  end.

(** No event of a run is [RBP_RX_NONE], and no byte makes a parser stale. *)
Lemma rx_byte_event p b now p' ev : rx_byte p b now = (p', Some ev) -> ev <> RBP_RX_NONE.
Proof.
  unfold rx_byte, rx_frame. intros H.
  repeat (split_if_in H || match type of H with context [let '(_, _) := ?x in _] => destruct x end);
    inv H; done.
Qed.

Lemma rx_fresh now p : frame_start_ms p = now -> rx_stale p now = false.
Proof. intros <-. unfold rx_stale. rewrite Z.sub_diag. apply andb_false_r. Qed.

Lemma rx_byte_stale p b now p' ev :
  rx_stale p now = false -> rx_byte p b now = (p', ev) -> rx_stale p' now = false.
Proof.
  unfold rx_byte. intros Hs H. repeat split_if_in H; inv H; try done;
    try (by apply rx_fresh); unfold rx_stale, upd in *; cbn in *; done.
Qed.

Lemma rx_run_app p a b now :
  rx_run p (a ++ b) now =
    let '(p, ea) := rx_run p a now in let '(p, eb) := rx_run p b now in (p, ea ++ eb).
Proof.
  revert p. induction a as [|x a IH]; intros p; cbn.
  { by destruct (rx_run p b now). }
  destruct (rx_byte p x now) as [p1 ev]. rewrite IH.
  destruct (rx_run p1 a now) as [p2 ea], (rx_run p2 b now) as [p3 eb].
  by destruct ev.
Qed.

Lemma rx_run_stale p data now p' evs :
  rx_stale p now = false -> rx_run p data now = (p', evs) -> rx_stale p' now = false.
Proof.
  revert p p' evs. induction data as [|b data IH]; cbn; intros p p' evs Hs H; [by inv H|].
  destruct (rx_byte p b now) as [p1 ev] eqn:E.
  destruct (rx_run p1 data now) as [p2 es] eqn:E2. inv H.
  eapply IH; [|exact E2]. by eapply rx_byte_stale.
Qed.

(** A feed of a parser that is not stale: the bytes up to the first event. *)
Lemma rx_loop_run p data now p1 ev rest :
  rx_stale p now = false -> rx_loop p data now = (p1, ev, rest) ->
  (ev = RBP_RX_NONE /\ rest = [] /\ rx_run p data now = (p1, [])) \/
  (ev <> RBP_RX_NONE /\ (length rest < length data)%nat /\ rx_stale p1 now = false /\
   rx_run p data now = let '(p2, evs) := rx_run p1 rest now in (p2, ev :: evs)).
Proof.
  revert p. induction data as [|b data IH]; intros p Hs H; cbn in H.
  - unfold rx_stale in Hs. destruct (bool_decide (rx_state p = RXS_IN_FRAME));
      cbn in H, Hs; [|by inv H; left].
    replace (1000 <? u32 (now - frame_start_ms p)) with false in H by lia. inv H. by left.
  - destruct (rx_byte p b now) as [p2 [e|]] eqn:E.
    + inv H. right. split; [by eapply rx_byte_event|]. cbn. rewrite E.
      split; [lia|]. split; [by eapply rx_byte_stale|done].
    + destruct (IH p2 (rx_byte_stale _ _ _ _ _ Hs E) H) as [(->&->&Hr)|(Hn&Hl&Hs1&Hr)].
      * left. cbn. rewrite E, Hr. done.
      * right. cbn. rewrite E, Hr. destruct (rx_run p1 rest now). split; [done|].
        split; [lia|done].
Qed.

Section drain.
Context {U : Type} (on_event : rbp_rx_event_t -> U -> U).
(** The callback ignores [RBP_RX_NONE]. *)
Hypothesis on_none : forall u, on_event RBP_RX_NONE u = u.
Definition run_events (evs : list rbp_rx_event_t) (u : U) : U :=
  foldl (fun u ev => on_event ev u) u evs.

Lemma rx_drain_run fuel p data now u :
  rx_stale p now = false -> (length data <= fuel)%nat ->
  rx_drain on_event fuel p data now u =
    let '(p', evs) := rx_run p data now in Some (p', run_events evs u).
Proof.
  revert p data u. induction fuel as [|fuel IH]; intros p data u Hs Hf.
  { destruct data; [done|simpl in Hf; lia]. }
  destruct data as [|b data]; [done|]. remember (b :: data) as d.
  unfold rx_drain at 1; fold (@rx_drain U on_event). unfold rbp_rxparser_feed. rewrite Hs.
  destruct (rx_loop p d now) as [[p1 ev] rest] eqn:E.
  destruct (rx_loop_run _ _ _ _ _ _ Hs E) as [(->&->&Hr)|(Hn&Hl&Hs1&Hr)]; rewrite Hr.
  - rewrite on_none. by destruct d.
  - replace (rx_drain on_event fuel p1 rest now (on_event ev u))
      with (let '(p', evs) := rx_run p1 rest now in Some (p', run_events evs (on_event ev u)))
      by (symmetry; apply IH; [done|lia]).
    destruct (rx_run p1 rest now). destruct d; [done|]. by destruct ev.
Qed.

(** The pump delivers exactly the events of the byte sequence, in order, and
    its fuel is enough. *)
Lemma rbp_rx_drain_events p data now u :
  is_Some (rx_drain on_event (S (length data)) p data now u) /\
  rbp_rx_drain on_event p data now u =
    let '(p', evs) := rx_events p data now in (p', run_events evs u).
Proof.
  assert (rx_drain on_event (S (length data)) p data now u =
    let '(p', evs) := rx_events p data now in Some (p', run_events evs u)) as H.
  { destruct data as [|b data]; [done|]. unfold rx_events, rx_expire. remember (b :: data) as d.
    destruct (rx_stale p now) eqn:Es.
    - unfold rx_drain at 1; fold (@rx_drain U on_event). unfold rbp_rxparser_feed. rewrite Es.
      replace (rx_drain on_event (length d) _ d now _) with
        (let '(p', evs) := rx_run (RxParser RXS_DISCARD [] (frame_start_ms p)) d now in
         Some (p', run_events evs (on_event RBP_RX_TIMEOUT u)))
        by (symmetry; apply rx_drain_run; [done|lia]).
      destruct d; [done|]. by destruct (rx_run _ _ _).
    - rewrite rx_drain_run by (done || lia). by destruct (rx_run p d now). }
  unfold rbp_rx_drain. rewrite H. by destruct (rx_events p data now).
Qed.
End drain.

(** ** Receiver: invariant *)
Definition rx_wf (p : rbp_rxparser_t) : Prop :=
  rx_len p <= RBP_COBS_RECV_MAX /\ Forall (fun b => 0 < b < 256) (rx_buf p).

Lemma rx_byte_wf p b now : Byte b -> rx_wf p -> rx_wf (fst (rx_byte p b now)).
Proof.
  unfold rx_byte, rx_wf, rx_len, Byte. intros Hb [Hl Hf].
  repeat split_if; cbn; try done; split; rewrite ?zlen_app, ?zlen_nil; try sizes;
    try constructor; try apply Forall_app_2; try done;
    try (change (zlen [b]) with 1; unfold RBP_COBS_RECV_MAX in *; lia);
    repeat constructor; lia.
Qed.

Lemma rx_loop_wf p data now : Bytes data -> rx_wf p -> rx_wf (fst (fst (rx_loop p data now))).
Proof.
  intros Hd. revert p. induction Hd as [|b data Hb Hd IH]; intros p Hp; cbn.
  - split_if; [|done]. split; [done|constructor].
  - pose proof (rx_byte_wf p b now Hb Hp). destruct (rx_byte p b now) as [p' [ev|]]; [done|].
    by apply IH.
Qed.

(** ** Receiver: a clean run *)
Lemma rx_run_nonzero d now start buf :
  Forall (fun b => 0 < b < 256) d -> zlen buf + zlen d <= RBP_COBS_RECV_MAX ->
  rx_run (RxParser RXS_IN_FRAME buf start) d now = (RxParser RXS_IN_FRAME (buf ++ d) start, []).
Proof.
  intros Hd. revert buf. induction Hd as [|b d Hb Hd IH]; intros buf Hl; cbn [rx_run].
  { by rewrite app_nil_r. }
  rewrite zlen_cons in Hl. pose proof (zlen_nonneg d).
  unfold rx_byte. cbn [rx_state]. destruct (b =? 0) eqn:Eb; [lia|].
  do 2 rewrite bool_decide_false by done. unfold rx_len. cbn [rx_buf].
  destruct (RBP_COBS_RECV_MAX <=? zlen buf) eqn:E; [lia|].
  unfold upd. cbn. rewrite IH by (rewrite zlen_app; change (zlen [b]) with 1; lia).
  by rewrite <- app_assoc.
Qed.

Lemma rx_run_clean d now p :
  rx_state p = RXS_IDLE -> Forall (fun b => 0 < b < 256) d -> 0 < zlen d <= RBP_COBS_RECV_MAX ->
  rx_run p (d ++ [0]) now = (rx_reset now, [rx_frame d]).
Proof.
  intros Hp Hd Hl. rewrite rx_run_app.
  assert (rx_run p d now = (RxParser RXS_IN_FRAME d now, [])) as ->.
  { destruct Hd as [|b d Hb Hd]; [unfold zlen in Hl; simpl in Hl; lia|]. rewrite zlen_cons in Hl.
    cbn [rx_run]. unfold rx_byte. destruct (b =? 0) eqn:Eb; [lia|].
    rewrite Hp, bool_decide_false, bool_decide_true by done.
    change (RBP_COBS_RECV_MAX <=? rx_len _) with false. unfold upd. cbn. rewrite (rx_run_nonzero d now now [b]); [done..|].
    change (zlen [b]) with 1. lia. }
  cbn. unfold rx_byte. cbn. rewrite bool_decide_false, bool_decide_true by done.
  unfold rx_len. cbn. destruct (0 <? zlen d) eqn:E; [done|lia].
Qed.

(** The decoder recognises an encoded raw frame. *)
Lemma rx_frame_raw h data :
  header_wf h -> Bytes data -> zlen data <= RBP_MAX_PAYLOAD ->
  h_magic0 h = RBP_MAGIC0 -> h_magic1 h = RBP_MAGIC1 ->
  h_header_size h = RBP_HEADER_SIZE -> h_reserved h = 0 ->
  rx_frame (rbp_cobs_encode (raw_frame h data)) = RBP_RX_FRAME h data true.
Proof.
  intros Hh Hd Hl H0 H1 H2 H3.
  pose proof (raw_frame_bytes h data Hd) as Hraw.
  pose proof (cobs_encode_nonzero _ Hraw) as Hs.
  unfold rx_frame. rewrite cobs_decode_inplace_eq, slice_all, cobs_decode_encode; try done.
  2: { apply (Forall_both _ _ _ _ Hs Hs). unfold Byte. cbn. lia. }
  2: { pose proof (zlen_nonneg (rbp_cobs_encode (raw_frame h data))). lia. }
  rewrite zlen_raw_frame. pose proof (zlen_nonneg data).
  replace ((RBP_HEADER_SIZE + 4 <=? 36 + zlen data) && (36 + zlen data <=? RBP_MAX_FRAME_RAW))
    with true by sizes.
  unfold raw_frame. rewrite <- app_assoc. rewrite rbp_header_parse_pack by done.
  rewrite H0, H1, H2, H3, !Z.eqb_refl. cbn [andb].
  replace (36 + zlen data - RBP_HEADER_SIZE - 4) with (zlen data) by sizes.
  replace (RBP_MAX_PAYLOAD <? zlen data) with false by lia.
  rewrite app_assoc.
  assert (zlen (rbp_header_pack h ++ data) = RBP_HEADER_SIZE + zlen data) as Hz by (rewrite zlen_app; done).
  f_equal.
  - rewrite <- app_assoc. unfold slice, zlen. rewrite Nat2Z.id.
    change (Z.to_nat RBP_HEADER_SIZE) with (length (rbp_header_pack h)).
    by rewrite drop_app_length, take_app_length.
  - rewrite <- Hz. rewrite get32_put32.
    + apply Z.eqb_eq. f_equal. unfold slice, zlen. by rewrite Nat2Z.id, drop_0, take_app_length.
    + apply rbp_crc32c_range, Forall_app_2; auto with rbp.
Qed.

(** ** Receiver: chunking

    Parsers that differ only in their clock reading behave the same on bytes. *)
Definition rx_eqv (p q : rbp_rxparser_t) : Prop :=
  rx_state p = rx_state q /\ rx_buf p = rx_buf q.
#[export] Instance rx_eqv_equivalence : Equivalence rx_eqv.
Proof.
  split; [by split|intros ?? [??]; split; by symmetry|].
  intros ??? [??] [??]. split; by etrans.
Qed.

Lemma rx_byte_eqv p q b now now' :
  rx_eqv p q -> rx_eqv (fst (rx_byte p b now)) (fst (rx_byte q b now')) /\
  snd (rx_byte p b now) = snd (rx_byte q b now').
Proof.
  destruct p as [ps pb pt], q as [qs qb qt]. intros [Hs Hb]. cbn in Hs, Hb. subst.
  unfold rx_byte, rx_len. destruct qs; cbn; destruct (b =? 0); cbn; repeat split_if; cbn in *; done || congruence.
Qed.

Lemma rx_run_eqv data p q now now' :
  rx_eqv p q -> rx_eqv (fst (rx_run p data now)) (fst (rx_run q data now')) /\
  snd (rx_run p data now) = snd (rx_run q data now').
Proof.
  revert p q. induction data as [|b data IH]; intros p q Hpq; [by split|]. cbn.
  destruct (rx_byte_eqv p q b now now' Hpq) as [Hp Hev].
  destruct (rx_byte p b now) as [p1 e1], (rx_byte q b now') as [q1 e2]. cbn in Hp, Hev. subst.
  destruct (IH p1 q1 Hp) as [Hp1 Hev1].
  destruct (rx_run p1 data now), (rx_run q1 data now'). cbn in *. subst. done.
Qed.

(** A run in progress was started between [t0] and [now]. *)
Definition rx_since (t0 now : Z) (p : rbp_rxparser_t) : Prop :=
  rx_state p = RXS_IN_FRAME -> t0 <= frame_start_ms p <= now.

Lemma rx_byte_since t0 now p b :
  t0 <= now -> rx_since t0 now p -> rx_since t0 now (fst (rx_byte p b now)).
Proof.
  unfold rx_since, rx_byte. intros Ht Hp. repeat split_if; cbn; intros; try done; auto; lia.
Qed.

Lemma rx_run_since t0 now p data :
  t0 <= now -> rx_since t0 now p -> rx_since t0 now (fst (rx_run p data now)).
Proof.
  intros Ht. revert p. induction data as [|b data IH]; intros p Hp; [done|]. cbn.
  pose proof (rx_byte_since t0 now p b Ht Hp). destruct (rx_byte p b now) as [p1 e].
  specialize (IH p1 H). by destruct (rx_run p1 data now).
Qed.

Lemma rx_since_fresh t0 now p :
  t0 <= now < t0 + 1000 -> rx_since t0 now p -> rx_stale p now = false.
Proof.
  intros Ht Hp. unfold rx_stale. case_bool_decide as E; [|done]. specialize (Hp E). cbn.
  unfold u32. rewrite Z.mod_small by lia. lia.
Qed.

(** The callback that records every event but [RBP_RX_NONE]. *)
Definition rx_record (ev : rbp_rx_event_t) (evs : list rbp_rx_event_t) : list rbp_rx_event_t :=
  match ev with RBP_RX_NONE => evs | _ => evs ++ [ev] end.
(** Pumping a sequence of chunks, each at its arrival time. *)
Definition rx_chunks (p : rbp_rxparser_t) (chunks : list (Z * list Z)) (evs : list rbp_rx_event_t)
  : rbp_rxparser_t * list rbp_rx_event_t :=
  foldl (fun st c => rbp_rx_drain rx_record (fst st) (snd c) (fst c) (snd st)) (p, evs) chunks.

Lemma rx_run_events p data now : Forall (fun ev => ev <> RBP_RX_NONE) (snd (rx_run p data now)).
Proof.
  revert p. induction data as [|b data IH]; intros p; [constructor|]. cbn.
  destruct (rx_byte p b now) as [p1 [e|]] eqn:E; specialize (IH p1);
    destruct (rx_run p1 data now); [|done].
  constructor; [by eapply rx_byte_event|done].
Qed.

Lemma run_record evs acc :
  Forall (fun ev => ev <> RBP_RX_NONE) evs -> run_events rx_record evs acc = acc ++ evs.
Proof.
  intros H. revert acc. induction H as [|e evs He H IH]; intros acc; cbn.
  { by rewrite app_nil_r. }
  fold (run_events rx_record evs (rx_record e acc)). rewrite IH.
  destruct e; try done; cbn; by rewrite <- app_assoc.
Qed.

Lemma rx_drain_record p data now acc :
  rx_stale p now = false ->
  rbp_rx_drain rx_record p data now acc =
    (fst (rx_run p data now), acc ++ snd (rx_run p data now)).
Proof.
  intros Hs. destruct (rbp_rx_drain_events rx_record (fun u => eq_refl) p data now acc) as [_ ->].
  unfold rx_events, rx_expire. rewrite Hs. destruct data as [|b data].
  { cbn. by rewrite app_nil_r. }
  pose proof (rx_run_events p (b :: data) now) as Hr.
  destruct (rx_run p (b :: data) now) as [p' evs]. cbn [fst snd] in *.
  rewrite app_nil_l, run_record; done.
Qed.

(** Arrival times: non-decreasing from [t], and before [t1]. *)
Fixpoint times_ok (t t1 : Z) (chunks : list (Z * list Z)) : Prop :=
  match chunks with [] => True | c :: cs => t <= fst c < t1 /\ times_ok (fst c) t1 cs end.

Lemma rx_chunks_run t0 t p q chunks acc :
  t0 <= t -> times_ok t (t0 + 1000) chunks -> rx_since t0 t p -> rx_eqv p q ->
  rx_eqv (fst (rx_chunks p chunks acc)) (fst (rx_run q (concat (map snd chunks)) t0)) /\
  snd (rx_chunks p chunks acc) = acc ++ snd (rx_run q (concat (map snd chunks)) t0).
Proof.
  revert t p q acc. induction chunks as [|[now data] chunks IH]; intros t p q acc Ht Hc Hp Hpq.
  { cbn. by rewrite app_nil_r. }
  destruct Hc as [Hnow Hc]. cbn in Hnow, Hc. unfold rx_chunks.
  cbn [foldl fst snd map concat]. fold (rx_chunks).
  assert (rx_since t0 now p) as Hp' by (intros E; specialize (Hp E); lia).
  rewrite rx_drain_record by (by apply (rx_since_fresh t0); [lia|]).
  destruct (rx_run_eqv data p q now t0 Hpq) as [Hq Hev].
  pose proof (rx_run_since t0 now p data ltac:(lia) Hp') as Hs.
  rewrite rx_run_app. destruct (rx_run q data t0) as [q1 eq], (rx_run p data now) as [p1 ep].
  cbn [fst snd] in *. subst ep.
  destruct (IH now p1 q1 (acc ++ eq) ltac:(lia) Hc Hs Hq) as [Hq1 Hev1].
  unfold rx_chunks in Hq1, Hev1. destruct (rx_run q1 _ t0) as [q2 eq2]. cbn [fst snd] in *.
  split; [exact Hq1|]. rewrite Hev1. by rewrite <- app_assoc.
Qed.

(** ** Streams of frames *)

(** Consecutive frames on the wire, as the sender produces them. *)
Fixpoint encode_all (seq : Z) (fs : list (rbp_header_t * list Z)) : list Z :=
  match fs with
  | [] => []
  | (h, d) :: fs =>
    let '(seq, out) := rbp_frame_encode h seq (Some d) (zlen d) in out ++ encode_all seq fs
  end.
(** What the receiver must report for them. *)
Fixpoint expected (seq : Z) (fs : list (rbp_header_t * list Z)) : list rbp_rx_event_t :=
  match fs with
  | [] => []
  | (h, d) :: fs =>
    RBP_RX_FRAME (stamp_header h seq (zlen d)) d true :: expected (u32 (seq + 1)) fs
  end.
Definition frame_ok (f : rbp_header_t * list Z) : Prop :=
  header_wf (fst f) /\ Bytes (snd f) /\ zlen (snd f) <= RBP_MAX_PAYLOAD.
#[export] Instance frame_ok_dec f : Decision (frame_ok f).
Proof. unfold frame_ok. apply _. Defined.

Lemma frame_encode_stream h seq d :
  zlen d <= RBP_MAX_PAYLOAD ->
  rbp_frame_encode h seq (Some d) (zlen d) =
    (u32 (seq + 1), rbp_cobs_encode (raw_frame (stamp_header h seq (zlen d)) d) ++ [0]).
Proof. intros. unfold rbp_frame_encode. by rewrite encode_payload_stream. Qed.

Lemma encoded_length h d :
  Bytes d -> zlen d <= RBP_MAX_PAYLOAD ->
  0 < zlen (rbp_cobs_encode (raw_frame h d)) <= RBP_COBS_RECV_MAX.
Proof.
  intros Hd Hl. pose proof (cobs_encode_length _ (raw_frame_bytes h d Hd)) as H.
  rewrite zlen_raw_frame in H. pose proof (zlen_nonneg d).
  autounfold with sizes in *. Z.div_mod_to_equations. lia.
Qed.

Lemma rx_run_frame h seq d now p :
  frame_ok (h, d) -> U32 seq -> rx_state p = RXS_IDLE ->
  rx_run p (snd (rbp_frame_encode h seq (Some d) (zlen d))) now =
    (rx_reset now, [RBP_RX_FRAME (stamp_header h seq (zlen d)) d true]).
Proof.
  intros (Hh & Hd & Hl) Hs Hp. cbn [fst snd] in *. rewrite frame_encode_stream by done. cbn [snd].
  rewrite rx_run_clean; [|done|by apply cobs_encode_nonzero, raw_frame_bytes|by apply encoded_length].
  rewrite rx_frame_raw; try done. by apply stamp_header_wf.
Qed.

Lemma rx_run_stream fs seq now p :
  Forall frame_ok fs -> U32 seq -> rx_state p = RXS_IDLE ->
  rx_state (fst (rx_run p (encode_all seq fs) now)) = RXS_IDLE /\
  snd (rx_run p (encode_all seq fs) now) = expected seq fs.
Proof.
  intros Hf. revert seq p. induction Hf as [|[h d] fs Hok Hf IH]; intros seq p Hs Hp; [done|].
  cbn [encode_all expected].
  pose proof (rx_run_frame h seq d now p Hok Hs Hp) as Hr.
  assert (fst (rbp_frame_encode h seq (Some d) (zlen d)) = u32 (seq + 1)) as Hseq
    by (rewrite frame_encode_stream; [done|apply Hok]).
  destruct (rbp_frame_encode h seq (Some d) (zlen d)) as [seq' out]. cbn [fst snd] in *. subst seq'.
  rewrite rx_run_app, Hr.
  destruct (IH (u32 (seq + 1)) (rx_reset now) (u32_range _) eq_refl) as [H1 H2].
  destruct (rx_run (rx_reset now) _ now). cbn in *. by subst.
Qed.

(** A delimiter leaves every parser idle. *)
Lemma rx_byte_delimiter p now : fst (rx_byte p 0 now) = rx_reset now.
Proof. unfold rx_byte. by repeat split_if. Qed.

(** ** Properties *)

(** A header packed into its 32 bytes parses back to itself, and the parse
    accepts it exactly when magic, header size and reserved field are right. *)
Theorem rbp_header_roundtrip h :
  header_wf h ->
  length (rbp_header_pack h) = Z.to_nat RBP_HEADER_SIZE /\
  rbp_header_parse (rbp_header_pack h) =
    (h, (h_magic0 h =? RBP_MAGIC0) && (h_magic1 h =? RBP_MAGIC1) &&
        (h_header_size h =? RBP_HEADER_SIZE) && (h_reserved h =? 0)).
Proof.
  intros H. split; [done|]. rewrite <- (app_nil_r (rbp_header_pack h)).
  by apply rbp_header_parse_pack.
Qed.
Definition sample_header : rbp_header_t :=
  header0 <| h_kind := RBP_KIND_REQUEST |> <| h_session_id := 0x01020304 |>
          <| h_request_id := 7 |> <| h_opcode := RBP_OP_PING |>.
Lemma sample_header_wf : header_wf sample_header.
Proof. by apply (bool_decide_unpack _). Qed.
Lemma rbp_header_roundtrip_witness :
  rbp_header_parse (rbp_header_pack (stamp_header sample_header 5 16)) =
    (stamp_header sample_header 5 16, true).
Proof.
  refine (proj2 (rbp_header_roundtrip (stamp_header sample_header 5 16) _)).
  by apply (bool_decide_unpack _).
Defined.

(** The streaming encoder emits [COBS(header ++ payload ++ CRC32C)] and the
    delimiter, where the header carries the magic, version, sequence number and
    payload size; the frame has one zero byte, its last, and fits
    [RBP_MAX_ENCODED] bytes; the sequence number advances by one. *)
Theorem rbp_frame_encode_wire h seq d :
  Bytes d -> zlen d <= RBP_MAX_PAYLOAD ->
  let h' := stamp_header h seq (zlen d) in
  let body := rbp_header_pack h' ++ d in
  let record := rbp_cobs_encode (body ++ put32 (rbp_crc32c body)) in
  rbp_frame_encode h seq (Some d) (zlen d) = (u32 (seq + 1), record ++ [0]) /\
  Forall (fun b => 0 < b < 256) record /\ zlen (record ++ [0]) <= RBP_MAX_ENCODED.
Proof.
  intros Hd Hl. cbv zeta. split; [by apply frame_encode_stream|].
  pose proof (encoded_length (stamp_header h seq (zlen d)) d Hd Hl) as H.
  unfold raw_frame in H. split.
  - by apply cobs_encode_nonzero, (raw_frame_bytes (stamp_header h seq (zlen d)) d).
  - rewrite zlen_app. change (zlen [0]) with 1. sizes.
Qed.
Lemma rbp_frame_encode_wire_witness :
  let h' := stamp_header sample_header 9 3 in
  let body := rbp_header_pack h' ++ [1; 0; 2] in
  let record := rbp_cobs_encode (body ++ put32 (rbp_crc32c body)) in
  rbp_frame_encode sample_header 9 (Some [1; 0; 2]) 3 = (10, record ++ [0]) /\
  Forall (fun b => 0 < b < 256) record /\ zlen (record ++ [0]) <= RBP_MAX_ENCODED.
Proof. apply (rbp_frame_encode_wire sample_header 9 [1; 0; 2]); by apply (bool_decide_unpack _). Defined.

(** A payload over 512 bytes, or a null payload with a length, is refused:
    nothing is written and no sequence number is consumed. *)
Theorem rbp_frame_encode_refuses h seq p len :
  RBP_MAX_PAYLOAD < len \/ (len <> 0 /\ p = None) ->
  rbp_frame_encode h seq p len = (seq, []).
Proof.
  intros H. unfold rbp_frame_encode, encode_payload.
  replace (_ || _) with true; [done|]. symmetry. apply orb_true_iff.
  destruct H as [H|[H ->]]; [left; lia|right]. rewrite bool_decide_true by done. lia.
Qed.
Lemma rbp_frame_encode_refuses_witness :
  rbp_frame_encode sample_header 9 (Some (replicate 513 1)) 513 = (9, []).
Proof. apply rbp_frame_encode_refuses. left. by apply (bool_decide_unpack _). Defined.

(** C13: frames sent over a byte stream arrive intact.  However the bytes of
    consecutive frames are cut into chunks, as long as the chunks arrive in
    order within the 1000 ms half-frame limit, the pump reports exactly the
    frames that were sent, each with its header, its payload and a good
    checksum, and the parser is idle again. *)
Theorem frame_stream_roundtrip fs seq p t0 chunks :
  Forall frame_ok fs -> U32 seq -> rx_state p = RXS_IDLE -> rx_buf p = [] ->
  times_ok t0 (t0 + 1000) chunks ->
  concat (map snd chunks) = encode_all seq fs ->
  rx_state (fst (rx_chunks p chunks [])) = RXS_IDLE /\
  snd (rx_chunks p chunks []) = expected seq fs.
Proof.
  intros Hf Hs Hp Hb Ht Hc.
  assert (rx_since t0 t0 p) as Hsince by (intros E; by rewrite Hp in E).
  destruct (rx_chunks_run t0 t0 p p chunks [] (Z.le_refl _) Ht Hsince (reflexivity p)) as [[H1 _] H2].
  destruct (rx_run_stream fs seq t0 p Hf Hs Hp) as [H3 H4].
  rewrite Hc in H1, H2. split; [by rewrite H1|by rewrite H2].
Qed.
Definition sample_frames : list (rbp_header_t * list Z) :=
  [(sample_header, [1; 0; 2]); (sample_header, [])].
Lemma frame_stream_roundtrip_witness :
  snd (rx_chunks (rbp_rxparser_init 0)
    [(10, take 20 (encode_all 5 sample_frames)); (900, drop 20 (encode_all 5 sample_frames))] []) =
  expected 5 sample_frames.
Proof.
  refine (proj2 (frame_stream_roundtrip sample_frames 5 (rbp_rxparser_init 0) 0 _ _ _ _ _ _ _)).
  - by apply (bool_decide_unpack _).
  - unfold U32. lia.
  - reflexivity.
  - reflexivity.
  - cbn. lia.
  - vm_compute. reflexivity.
Defined.

(** The receiver resynchronises: whatever state it is in and whatever bytes
    precede, one delimiter later it receives the next frame. *)
Theorem rx_resync p garbage h seq d now :
  frame_ok (h, d) -> U32 seq -> rx_stale p now = false ->
  let wire := snd (rbp_frame_encode h seq (Some d) (zlen d)) in
  exists evs, rbp_rx_drain rx_record p (garbage ++ [0] ++ wire) now [] =
    (rx_reset now, evs ++ [RBP_RX_FRAME (stamp_header h seq (zlen d)) d true]).
Proof.
  intros Hok Hs Hp wire.
  pose proof (rx_run_frame h seq d now (rx_reset now) Hok Hs eq_refl) as Hr.
  fold wire in Hr. clearbody wire. rewrite rx_drain_record by done. rewrite !rx_run_app.
  destruct (rx_run p garbage now) as [p1 e1]. cbn [app rx_run].
  pose proof (rx_byte_delimiter p1 now) as Hd. destruct (rx_byte p1 0 now) as [p2 e2].
  cbn in Hd. subst p2. rewrite Hr. cbn [fst snd app].
  exists (e1 ++ match e2 with Some ev => [ev] | None => [] end).
  rewrite <- app_assoc. by destruct e2.
Qed.
Lemma rx_resync_witness :
  exists evs, rbp_rx_drain rx_record (RxParser RXS_DISCARD [] 0)
    ([1; 2; 0; 3] ++ [0] ++ snd (rbp_frame_encode sample_header 9 (Some []) 0)) 5 [] =
    (rx_reset 5, evs ++ [RBP_RX_FRAME (stamp_header sample_header 9 0) [] true]).
Proof.
  apply (rx_resync _ _ sample_header 9 []).
  - by apply (bool_decide_unpack _).
  - unfold U32. lia.
  - reflexivity.
Defined.

(** The receive buffer never overflows: from a parser whose run fits 551
    bytes, feeding any bytes at any time leaves a run of at most 551 non-zero
    bytes. *)
Theorem rbp_rxparser_feed_bounded p data now :
  Bytes data -> rx_wf p -> rx_wf (fst (fst (rbp_rxparser_feed p data now))).
Proof.
  intros Hd Hp. unfold rbp_rxparser_feed. split_if; [|by apply rx_loop_wf].
  split; [done|constructor].
Qed.
Lemma rbp_rxparser_feed_bounded_witness :
  rx_wf (fst (fst (rbp_rxparser_feed (rbp_rxparser_init 0) (replicate 600 7) 0))).
Proof.
  apply rbp_rxparser_feed_bounded; [by apply (bool_decide_unpack _)|].
  split; [done|constructor].
Defined.

(** The pump terminates and delivers, in order, exactly the events the bytes
    produce one by one (preceded by the timeout event if the half frame held
    by the parser is stale), whatever the callback does with its state. *)
Theorem rbp_rx_drain_complete {U} (on_event : rbp_rx_event_t -> U -> U) p data now u :
  (forall u, on_event RBP_RX_NONE u = u) ->
  is_Some (rx_drain on_event (S (length data)) p data now u) /\
  rbp_rx_drain on_event p data now u =
    let '(p', evs) := rx_events p data now in (p', foldl (fun u ev => on_event ev u) u evs).
Proof. intros. by apply rbp_rx_drain_events. Qed.
Lemma rbp_rx_drain_complete_witness :
  is_Some (rx_drain rx_record 3 (RxParser RXS_IN_FRAME [1] 0) [0; 0] 2000 []) /\
  rbp_rx_drain rx_record (RxParser RXS_IN_FRAME [1] 0) [0; 0] 2000 [] =
    (RxParser RXS_IDLE [] 2000, [RBP_RX_TIMEOUT]).
Proof.
  exact (rbp_rx_drain_complete rx_record (RxParser RXS_IN_FRAME [1] 0) [0; 0] 2000 []
    (fun u => eq_refl)).
Defined.
