(* ===== verification/Tlv.v ===== *)
(** * TLV codec

    rbp_tlv.c: the reader with its bitset of seen tags, the typed getters, the
    UTF-8 check and the bounded writer.

    The reader borrows its input: [r_buf] is [buf[0 .. len)].  Out-parameters
    are returned: a getter gives the error, the value ([out] unchanged when the
    code does not assign it) and [found]. *)
From S2P Require Import Prelude Defs.

(** ** UTF-8 *)

(** Continuation bytes [s[i+1 .. i+n]]. *)
Fixpoint utf8_tail (n : nat) (cp : Z) (s : list Z) : option (Z * list Z) :=
  match n, s with
  | O, _ => Some (cp, s)
  | S n, b :: s =>
    if negb (Z.land b 0xC0 =? 0x80) then None
    else utf8_tail n (Z.lor (u32 (Z.shiftl cp 6)) (Z.land b 0x3F)) s
  | S _, [] => None
  end.

(** The lead byte: initial code point bits and number of continuations. *)
Definition utf8_lead (c : Z) : option (Z * nat) :=
  if (Z.land c 0xE0 =? 0xC0) && (0xC2 <=? c) then Some (Z.land c 0x1F, 1%nat)
  else if Z.land c 0xF0 =? 0xE0 then Some (Z.land c 0x0F, 2%nat)
  else if (Z.land c 0xF8 =? 0xF0) && (c <=? 0xF4) then Some (Z.land c 0x07, 3%nat)
  else None.

(** Each round consumes the lead byte, so the length bounds the rounds. *)
Fixpoint utf8_loop (fuel : nat) (s : list Z) : bool :=
  match s, fuel with
  | [], _ => true
  | _ :: _, O => false
  | c :: s, S fuel =>
    if c =? 0 then false
    else if c <? 0x80 then utf8_loop fuel s
    else match utf8_lead c with
    | None => false
    | Some (cp, n) =>
      if zlen s <? Z.of_nat n then false
      else match utf8_tail n cp s with
      | None => false
      | Some (cp, s) =>
        if (Nat.eqb n 2) && (cp <? 0x800) then false
        else if (Nat.eqb n 3) && ((cp <? 0x10000) || ((0xD800 <=? cp) && (cp <=? 0xDFFF))) then false
        else if (Nat.eqb n 3) && (0x10FFFF <? cp) then false
        else utf8_loop fuel s
      end
    end
  end.
Definition utf8_valid (s : list Z) : bool := utf8_loop (length s) s.

(** ** Reader *)
Inductive rbp_tlv_err_t :=
  RBP_TLV_OK | RBP_TLV_ERR_MALFORMED | RBP_TLV_ERR_DUPLICATE | RBP_TLV_ERR_TYPE | RBP_TLV_ERR_VALUE.
#[export] Instance rbp_tlv_err_eq_dec : EqDecision rbp_tlv_err_t.
Proof. solve_decision. Defined.

Record rbp_tlv_reader_t := TlvReader {
  r_buf : list Z; r_pos : Z; seen_tags : list Z; r_valid : bool }.
#[export] Instance eta_tlv_reader : Eta rbp_tlv_reader_t := fun r =>
  TlvReader (r_buf r) (r_pos r) (seen_tags r) (r_valid r).
Definition r_len (r : rbp_tlv_reader_t) : Z := zlen (r_buf r).

Definition rbp_tlv_reader_init (buf : list Z) : rbp_tlv_reader_t :=
  TlvReader buf 0 (replicate 32 0) true.

Record tlv_item := TlvItem { it_tag : Z; it_type : Z; it_val : list Z }.
Definition tag_seen (seen : list Z) (t : Z) : bool :=
  negb (Z.land (znth seen (Z.shiftr t 3)) (Z.shiftl 1 (Z.land t 7)) =? 0).
Definition tag_mark (seen : list Z) (t : Z) : list Z :=
  <[Z.to_nat (Z.shiftr t 3) :=
     Z.lor (znth seen (Z.shiftr t 3)) (u8 (Z.shiftl 1 (Z.land t 7)))]> seen.

Definition rbp_tlv_next (r : rbp_tlv_reader_t)
  : rbp_tlv_reader_t * (rbp_tlv_err_t + tlv_item) :=
  if negb (r_valid r) then (r, inl RBP_TLV_ERR_MALFORMED)
  else if r_pos r =? r_len r then (r, inl RBP_TLV_ERR_MALFORMED)
  else if r_len r - r_pos r <? 4 then (r <| r_valid := false |>, inl RBP_TLV_ERR_MALFORMED)
  else
    let t := znth (r_buf r) (r_pos r) in
    let ty := znth (r_buf r) (r_pos r + 1) in
    let l := u16 (Z.lor (znth (r_buf r) (r_pos r + 2))
                        (Z.shiftl (znth (r_buf r) (r_pos r + 3)) 8)) in
    if r_len r - r_pos r - 4 <? l then (r <| r_valid := false |>, inl RBP_TLV_ERR_MALFORMED)
    else if tag_seen (seen_tags r) t then (r <| r_valid := false |>, inl RBP_TLV_ERR_DUPLICATE)
    else
      let r := r <| seen_tags := tag_mark (seen_tags r) t |> <| r_pos ::= fun p => p + 4 + l |> in
      (r, inr (TlvItem t ty (slice (r_buf r) (r_pos r - l) l))).

(** The [while (pos < len)] walk of [scan]; [None] in the first component is
    out of fuel.  Every item takes at least four bytes ([scan_total]). *)
Fixpoint scan_loop (fuel : nat) (tmp : rbp_tlv_reader_t) (want : Z) (hit : option tlv_item)
  : option rbp_tlv_err_t * option tlv_item :=
  if negb (r_pos tmp <? r_len tmp) then (Some RBP_TLV_OK, hit)
  else match fuel with
  | O => (None, hit)
  | S fuel =>
    match rbp_tlv_next tmp with
    | (_, inl e) => (Some e, hit)
    | (tmp, inr it) => scan_loop fuel tmp want (if it_tag it =? want then Some it else hit)
    end
  end.
(** [found] is whether the second component is [Some]. *)
Definition scan (r : rbp_tlv_reader_t) (want : Z) : rbp_tlv_err_t * option tlv_item :=
  let tmp := r <| r_pos := 0 |> <| seen_tags := replicate 32 0 |> in
  let '(e, hit) := scan_loop (length (r_buf r)) tmp want None in
  (default RBP_TLV_ERR_MALFORMED e, hit).

Definition get_fixed (r : rbp_tlv_reader_t) (tag want_type want_len : Z)
  : rbp_tlv_err_t * option (list Z) :=
  let '(e, hit) := scan r tag in
  match e, hit with
  | RBP_TLV_OK, Some it =>
    if negb (it_type it =? want_type) ||
       (negb (want_len =? 0) && negb (zlen (it_val it) =? want_len))
    then (RBP_TLV_ERR_TYPE, Some (it_val it))
    else (RBP_TLV_OK, Some (it_val it))
  | e, hit => (e, option_map it_val hit)
  end.

Definition found {A} (v : option A) : bool := match v with Some _ => true | None => false end.
Definition get_scalar (r : rbp_tlv_reader_t) (tag ty len : Z) (conv : list Z -> Z) (out : Z)
  : rbp_tlv_err_t * Z * bool :=
  match get_fixed r tag ty len with
  | (RBP_TLV_OK, Some v) => (RBP_TLV_OK, conv v, true)
  | (e, v) => (e, out, found v)
  end.
Definition rbp_tlv_get_u8 r tag out := get_scalar r tag RBP_TLV_T_U8 1 (fun v => znth v 0) out.
Definition rbp_tlv_get_u16 r tag out :=
  get_scalar r tag RBP_TLV_T_U16 2 (fun v => u16 (Z.lor (znth v 0) (Z.shiftl (znth v 1) 8))) out.
Definition rbp_tlv_get_u32 r tag out :=
  get_scalar r tag RBP_TLV_T_U32 4 (fun v =>
    Z.lor (Z.lor (Z.lor (znth v 0) (Z.shiftl (znth v 1) 8)) (Z.shiftl (znth v 2) 16))
          (Z.shiftl (znth v 3) 24)) out.
(** [for (i = 7; i >= 0; i--) x = (x << 8) | v[i]]. *)
Definition rbp_tlv_get_u64 r tag out :=
  get_scalar r tag RBP_TLV_T_U64 8 (fun v =>
    foldl (fun x i => Z.lor (u64 (Z.shiftl x 8)) (znth v i)) 0 [7; 6; 5; 4; 3; 2; 1; 0]) out.
Definition rbp_tlv_get_bool (r : rbp_tlv_reader_t) (tag : Z) (out : bool)
  : rbp_tlv_err_t * bool * bool :=
  match get_fixed r tag RBP_TLV_T_BOOL 1 with
  | (RBP_TLV_OK, Some v) =>
    if 1 <? znth v 0 then (RBP_TLV_ERR_VALUE, out, true)
    else (RBP_TLV_OK, negb (znth v 0 =? 0), true)
  | (e, v) => (e, out, found v)
  end.
(** The text and bytes getters return the value itself; [found] is [Some]. *)
Definition rbp_tlv_get_text (r : rbp_tlv_reader_t) (tag : Z) : rbp_tlv_err_t * option (list Z) :=
  match get_fixed r tag RBP_TLV_T_TEXT 0 with
  | (RBP_TLV_OK, Some v) =>
    if RBP_TLV_MAX_TEXT <? zlen v then (RBP_TLV_ERR_VALUE, Some v)
    else if (0 <? zlen v) && negb (utf8_valid v) then (RBP_TLV_ERR_VALUE, Some v)
    else (RBP_TLV_OK, Some v)
  | r => r
  end.
Definition rbp_tlv_get_bytes (r : rbp_tlv_reader_t) (tag : Z) : rbp_tlv_err_t * option (list Z) :=
  match get_fixed r tag RBP_TLV_T_BYTES 0 with
  | (RBP_TLV_OK, Some v) =>
    if RBP_TLV_MAX_BYTES <? zlen v then (RBP_TLV_ERR_VALUE, Some v) else (RBP_TLV_OK, Some v)
  | r => r
  end.

(** ** Writer: [w_buf] is [buf[0 .. len)] *)
Record rbp_tlv_writer_t := TlvWriter { w_buf : list Z; w_overflow : bool; last_tag : Z }.
#[export] Instance eta_tlv_writer : Eta rbp_tlv_writer_t := fun w =>
  TlvWriter (w_buf w) (w_overflow w) (last_tag w).
Definition w_len (w : rbp_tlv_writer_t) : Z := zlen (w_buf w).

Definition rbp_tlv_writer_init : rbp_tlv_writer_t := TlvWriter [] false (-1).
Definition w_put (w : rbp_tlv_writer_t) (tag type : Z) (v : list Z) : rbp_tlv_writer_t * bool :=
  let l := zlen v in
  let w := if tag <=? last_tag w then w <| w_overflow := true |> else w in
  let w := w <| last_tag := tag |> in
  if RBP_MAX_PAYLOAD <? w_len w + 4 + l then (w <| w_overflow := true |>, false)
  else (w <| w_buf ::= fun b => b ++ [tag; type; u8 l; u8 (Z.shiftr l 8)] ++ v |>, true).

(** The value parameters have the width of their names: passing converts. *)
Definition rbp_tlv_put_u8 w tag v := w_put w tag RBP_TLV_T_U8 [u8 v].
Definition rbp_tlv_put_u16 w tag v := w_put w tag RBP_TLV_T_U16 [u8 v; u8 (Z.shiftr v 8)].
Definition rbp_tlv_put_u32 w tag v :=
  w_put w tag RBP_TLV_T_U32 [u8 v; u8 (Z.shiftr v 8); u8 (Z.shiftr v 16); u8 (Z.shiftr v 24)].
Definition rbp_tlv_put_u64 w tag v :=
  w_put w tag RBP_TLV_T_U64 (map (fun i => u8 (Z.shiftr v (8 * i))) [0; 1; 2; 3; 4; 5; 6; 7]).
Definition rbp_tlv_put_bool w tag (v : bool) := w_put w tag RBP_TLV_T_BOOL [if v then 1 else 0].
(** A C string is its bytes before the terminator; [zlen] is [strlen]. *)
Definition rbp_tlv_put_text w tag (s : list Z) :=
  if RBP_TLV_MAX_TEXT <? zlen s then (w <| w_overflow := true |>, false)
  else w_put w tag RBP_TLV_T_TEXT s.
Definition rbp_tlv_put_bytes w tag (v : list Z) :=
  if RBP_TLV_MAX_BYTES <? zlen v then (w <| w_overflow := true |>, false)
  else w_put w tag RBP_TLV_T_BYTES v.

(** ** The message format *)
Definition encode_item (it : tlv_item) : list Z :=
  [it_tag it; it_type it; u8 (zlen (it_val it)); u8 (Z.shiftr (zlen (it_val it)) 8)] ++ it_val it.
Definition encode_items (its : list tlv_item) : list Z := concat (map encode_item its).
Definition item_wf (it : tlv_item) : Prop :=
  Byte (it_tag it) /\ Byte (it_type it) /\ Bytes (it_val it) /\ zlen (it_val it) < 65536.
#[export] Instance item_wf_dec it : Decision (item_wf it).
Proof. unfold item_wf. apply _. Defined.
(** A message: items with pairwise distinct tags. *)
Definition message (its : list tlv_item) : Prop := Forall item_wf its /\ NoDup (map it_tag its).
#[export] Instance message_dec its : Decision (message its).
Proof. unfold message. apply _. Defined.
Definition lookup_tag (want : Z) (its : list tlv_item) : option tlv_item :=
  find (fun it => it_tag it =? want) its.

(** ** The bitset of tags *)
Lemma land_pow2 x k : 0 <= k -> (Z.land x (Z.shiftl 1 k) =? 0) = negb (Z.testbit x k).
Proof.
  intros Hk. rewrite Z.shiftl_1_l.
  assert (Z.land x (2 ^ k) = if Z.testbit x k then 2 ^ k else 0) as ->.
  { apply Z.bits_inj'. intros i Hi. rewrite Z.land_spec, Z.pow2_bits_eqb by done.
    destruct (Z.eqb_spec k i) as [->|Hne].
    - rewrite andb_true_r. destruct (Z.testbit x i) eqn:E; [|by rewrite Z.bits_0].
      by rewrite Z.pow2_bits_true.
    - rewrite andb_false_r. destruct (Z.testbit x k); [|by rewrite Z.bits_0].
      by rewrite Z.pow2_bits_false. }
  destruct (Z.testbit x k); [|done]. cbn. apply Z.eqb_neq. 
  pose proof (Z.pow_pos_nonneg 2 k). lia.
Qed.

Lemma tag_seen_testbit seen t :
  Byte t -> tag_seen seen t = Z.testbit (znth seen (t / 8)) (t mod 8).
Proof.
  intros Ht. unfold tag_seen. rewrite Z.shiftr_div_pow2 by lia.
  change 7 with (Z.ones 3). rewrite Z.land_ones by lia.
  rewrite land_pow2 by (apply Z.mod_pos_bound; lia). by rewrite negb_involutive.
Qed.

Lemma tag_seen_mark seen t t' :
  Byte t -> Byte t' -> length seen = 32%nat ->
  tag_seen (tag_mark seen t) t' = (t =? t') || tag_seen seen t'.
Proof.
  intros Ht Ht' Hl. rewrite !tag_seen_testbit by done. unfold tag_mark, Byte in *.
  rewrite Z.shiftr_div_pow2 by lia. change (2 ^ 3) with 8.
  change (Z.land t 7) with (Z.land t (Z.ones 3)). rewrite Z.land_ones by lia. change (2 ^ 3) with 8.
  assert (0 <= t mod 8 < 8) as Hm by (apply Z.mod_pos_bound; lia).
  assert (0 <= t / 8 < 32) as Hd by (Z.div_mod_to_equations; lia).
  assert (0 <= t' / 8 < 32) as Hd' by (Z.div_mod_to_equations; lia).
  rewrite u8_small.
  2: { rewrite Z.shiftl_1_l. unfold Byte. split; [apply Z.pow_nonneg; lia|].
       apply (Z.pow_lt_mono_r 2 (t mod 8) 8); lia. }
  destruct (Z.eq_dec (t / 8) (t' / 8)) as [E|E].
  - rewrite E. erewrite znth_lookup by (apply list_lookup_insert_eq; lia).
    rewrite Z.lor_spec, Z.shiftl_1_l, Z.pow2_bits_eqb by lia. rewrite orb_comm. f_equal.
    destruct (Z.eqb_spec (t mod 8) (t' mod 8)), (Z.eqb_spec t t'); try done; subst; try done.
    Z.div_mod_to_equations; lia.
  - unfold znth. rewrite !nth_lookup, list_lookup_insert_ne by lia.
    destruct (Z.eqb_spec t t'); [by subst|done].
Qed.

Lemma length_tag_mark seen t : length (tag_mark seen t) = length seen.
Proof. apply length_insert. Qed.

(** ** One item *)
Lemma znth_app_r l k i : 0 <= i -> znth (l ++ k) (zlen l + i) = znth k i.
Proof. intros. unfold znth, zlen. rewrite app_nth2 by lia. f_equal. lia. Qed.
Lemma slice_app_r {A} (l k : list A) i n : 0 <= i -> slice (l ++ k) (zlen l + i) n = slice k i n.
Proof.
  intros. unfold slice, zlen. rewrite drop_app_ge by lia. do 2 f_equal. lia.
Qed.
Lemma slice_app_l {A} (l k : list A) : slice (l ++ k) 0 (zlen l) = l.
Proof. unfold slice, zlen. by rewrite Nat2Z.id, drop_0, take_app_length. Qed.
Lemma zlen_encode_item it : zlen (encode_item it) = 4 + zlen (it_val it).
Proof. unfold encode_item. by rewrite zlen_app. Qed.

(** The reader standing at [pre] with [rest] to read. *)
Definition reader_at (pre rest : list Z) (seen : list Z) : rbp_tlv_reader_t :=
  TlvReader (pre ++ rest) (zlen pre) seen true.

Lemma next_item pre it rest seen :
  item_wf it ->
  rbp_tlv_next (reader_at pre (encode_item it ++ rest) seen) =
    if tag_seen seen (it_tag it)
    then (reader_at pre (encode_item it ++ rest) seen <| r_valid := false |>, inl RBP_TLV_ERR_DUPLICATE)
    else (reader_at (pre ++ encode_item it) rest (tag_mark seen (it_tag it)), inr it).
Proof.
  intros (Ht & Hty & Hv & Hl). pose proof (zlen_nonneg (it_val it)). pose proof (zlen_nonneg rest).
  unfold rbp_tlv_next, reader_at, r_len. cbn [r_valid r_pos r_buf seen_tags negb].
  rewrite !zlen_app, zlen_encode_item.
  destruct (zlen pre =? _) eqn:E1; [lia|]. destruct (_ <? 4) eqn:E2; [lia|].
  assert (znth (pre ++ encode_item it ++ rest) (zlen pre) = it_tag it) as ->
    by (rewrite <- (Z.add_0_r (zlen pre)), znth_app_r; done).
  rewrite !znth_app_r by lia.
  change (znth (encode_item it ++ rest) 1) with (it_type it).
  change (znth (encode_item it ++ rest) 2) with (u8 (zlen (it_val it))).
  change (znth (encode_item it ++ rest) 3) with (u8 (Z.shiftr (zlen (it_val it)) 8)).
  rewrite join16 by (unfold U16; lia).
  destruct (_ <? zlen (it_val it)) eqn:E3; [lia|].
  destruct (tag_seen seen (it_tag it)); [done|]. unfold upd. cbn. rewrite <- !app_assoc.
  f_equal; [f_equal|].
  - lia.
  - destruct it as [tg ty v]. cbn in *. f_equal.
    replace (zlen pre + 4 + zlen v - zlen v) with (zlen pre + 4) by lia.
    rewrite slice_app_r by lia. f_equal. apply (slice_app_l v rest).
Qed.

(** Four bytes and a value of the announced length are an item. *)
Lemma item_split t ty b2 b3 val :
  Byte b2 -> Byte b3 -> b2 + b3 * 256 <= zlen val ->
  t :: ty :: b2 :: b3 :: val =
    encode_item (TlvItem t ty (slice val 0 (b2 + b3 * 256))) ++ drop (Z.to_nat (b2 + b3 * 256)) val.
Proof.
  unfold Byte. intros H2 H3 Hl. unfold encode_item. cbn [it_tag it_type it_val].
  rewrite zlen_slice by lia. cbn [app]. do 2 f_equal.
  rewrite shiftr8_div. f_equal; [words|]. f_equal; [words|].
  unfold slice. rewrite drop_0. by rewrite take_drop.
Qed.

(** What a successful [rbp_tlv_next] has read. *)
Lemma next_inv pre suf seen r it :
  Bytes suf -> rbp_tlv_next (reader_at pre suf seen) = (r, inr it) ->
  exists rest, suf = encode_item it ++ rest /\ item_wf it /\
    tag_seen seen (it_tag it) = false /\
    r = reader_at (pre ++ encode_item it) rest (tag_mark seen (it_tag it)).
Proof.
  intros Hb H. pose proof (zlen_nonneg pre). pose proof (zlen_nonneg suf).
  destruct (decide (zlen suf < 4)) as [Hs|Hs].
  { unfold rbp_tlv_next, reader_at, r_len in H. cbn [r_valid r_pos r_buf negb] in H.
    rewrite zlen_app in H. split_if_in H; [done|]. split_if_in H; [done|lia]. }
  destruct suf as [|t [|ty [|b2 [|b3 val]]]]; try (unfold zlen in Hs; simpl in Hs; lia).
  apply Forall_cons_1 in Hb as [Ht Hb]. apply Forall_cons_1 in Hb as [Hty Hb].
  apply Forall_cons_1 in Hb as [Hb2 Hb]. apply Forall_cons_1 in Hb as [Hb3 Hb].
  destruct (decide (b2 + b3 * 256 <= zlen val)) as [Hl|Hl].
  - rewrite item_split in H |- * by done. unfold Byte in *.
    assert (item_wf (TlvItem t ty (slice val 0 (b2 + b3 * 256)))) as Hwf.
    { repeat split; cbn; unfold Byte; try lia; auto with rbp. rewrite zlen_slice by lia. lia. }
    rewrite next_item in H by done. destruct (tag_seen _ _) eqn:E; [done|]. inv H. by eexists.
  - unfold rbp_tlv_next, reader_at, r_len in H. cbn [r_valid r_pos r_buf negb] in H.
    rewrite zlen_app in H. split_if_in H; [done|]. split_if_in H; [done|].
    rewrite !(znth_app_r pre) in H by lia.
    change (znth (t :: ty :: b2 :: b3 :: val) 2) with b2 in H.
    change (znth (t :: ty :: b2 :: b3 :: val) 3) with b3 in H.
    rewrite lor_shiftl_add, u16_small in H by (unfold U16, Byte in *; lia || done).
    rewrite !zlen_cons in H. change (2 ^ 8) with 256 in H.
    split_if_in H; [done|lia].
Qed.

(** ** The walk *)
Definition seen_tags_of (seen : list Z) (its : list tlv_item) : Prop :=
  length seen = 32%nat /\
  forall t, Byte t -> tag_seen seen t = bool_decide (t ∈ map it_tag its).

Lemma seen_tags_nil : seen_tags_of (replicate 32 0) [].
Proof.
  split; [done|]. intros t Ht. rewrite tag_seen_testbit by done.
  assert (forall i, znth (replicate 32 0) i = 0) as ->; [|apply Z.bits_0].
  intros i. unfold znth. destruct (nth_in_or_default (Z.to_nat i) (replicate 32 0) 0) as [Hin|]; [|done].
  by apply list_elem_of_In, elem_of_replicate in Hin as [? _].
Qed.
Lemma seen_tags_snoc seen its it :
  Byte (it_tag it) -> seen_tags_of seen its ->
  seen_tags_of (tag_mark seen (it_tag it)) (its ++ [it]).
Proof.
  intros Hi [Hl Hs]. split; [by rewrite length_tag_mark|]. intros t Ht.
  rewrite tag_seen_mark, Hs by done. rewrite map_app. cbn.
  destruct (Z.eqb_spec (it_tag it) t) as [->|Hne]; cbn.
  - symmetry. apply bool_decide_true. set_solver.
  - apply bool_decide_ext. set_solver.
Qed.

Lemma scan_loop_end fuel pre seen want hit :
  scan_loop fuel (reader_at pre [] seen) want hit = (Some RBP_TLV_OK, hit).
Proof.
  destruct fuel; cbn; unfold r_len; cbn; rewrite app_nil_r, Z.ltb_irrefl; done.
Qed.

Lemma scan_loop_step fuel pre suf seen want hit :
  suf <> [] ->
  scan_loop (S fuel) (reader_at pre suf seen) want hit =
    match rbp_tlv_next (reader_at pre suf seen) with
    | (_, inl e) => (Some e, hit)
    | (tmp, inr it) => scan_loop fuel tmp want (if it_tag it =? want then Some it else hit)
    end.
Proof.
  intros Hs. cbn [scan_loop]. unfold r_len, reader_at at 1 2. cbn [r_pos r_buf].
  rewrite zlen_app. destruct suf; [done|]. rewrite zlen_cons.
  pose proof (zlen_nonneg suf). destruct (_ <? _) eqn:E; [done|lia].
Qed.

(** Earlier items do not match later lookups: tags are distinct. *)
Lemma scan_loop_sound fuel pre suf seen before want hit hit' :
  Bytes suf -> seen_tags_of seen before ->
  scan_loop fuel (reader_at pre suf seen) want hit = (Some RBP_TLV_OK, hit') ->
  exists its, suf = encode_items its /\ message its /\
    (forall t, t ∈ map it_tag its -> t ∉ map it_tag before) /\
    hit' = match lookup_tag want its with Some it => Some it | None => hit end.
Proof.
  revert pre suf seen before hit. induction fuel as [|fuel IH]; intros pre suf seen before hit Hb Hs H.
  all: destruct suf as [|b suf];
    [rewrite scan_loop_end in H; inv H; exists []; repeat split; try constructor; set_solver|].
  { cbn in H. unfold r_len in H. cbn in H. rewrite zlen_app, zlen_cons in H.
    pose proof (zlen_nonneg suf). destruct (_ <? _) eqn:E; [done|lia]. }
  rewrite scan_loop_step in H by done. remember (b :: suf) as s eqn:Es. clear Es.
  destruct (rbp_tlv_next _) as [r [e|it]] eqn:En.
  { exfalso. inv H. unfold rbp_tlv_next in En. cbn in En. repeat split_if_in En; done. }
  apply next_inv in En as (rest & -> & Hwf & Hseen & ->); [|done].
  apply Forall_app in Hb as [_ Hb].
  destruct (IH _ _ _ (before ++ [it]) _ Hb (seen_tags_snoc _ _ _ (proj1 Hwf) Hs) H)
    as (its & -> & [Hw Hn] & Hdis & ->).
  assert (it_tag it ∉ map it_tag before) as Hnb.
  { rewrite (proj2 Hs) in Hseen by apply Hwf. by apply bool_decide_eq_false in Hseen. }
  setoid_rewrite map_app in Hdis. cbn in Hdis.
  exists (it :: its). split; [done|]. split.
  { split; [by constructor|]. cbn. constructor; [|done]. intros Hin. apply (Hdis _ Hin). set_solver. }
  split; [set_solver|]. unfold lookup_tag. cbn.
  destruct (it_tag it =? want) eqn:E; [|done].
  destruct (find _ its) as [it'|] eqn:Ef; [|done]. apply find_some in Ef as [Hin Heq].
  exfalso. apply (Hdis (it_tag it')); [apply list_elem_of_fmap; exists it'; split; [done|by apply list_elem_of_In]|].
  assert (it_tag it' = it_tag it) as -> by lia. set_solver.
Qed.

Lemma scan_loop_complete fuel pre its seen before want hit :
  message its -> seen_tags_of seen before ->
  (forall t, t ∈ map it_tag its -> t ∉ map it_tag before) ->
  (length (encode_items its) <= fuel)%nat ->
  exists hit', scan_loop fuel (reader_at pre (encode_items its) seen) want hit = (Some RBP_TLV_OK, hit').
Proof.
  revert pre its seen before hit.
  induction fuel as [|fuel IH]; intros pre its seen before hit [Hw Hn] Hs Hd Hf.
  all: destruct its as [|it its]; [eexists; apply scan_loop_end|].
  { cbn in Hf. lia. }
  inv Hw. inv Hn. rewrite scan_loop_step by done.
  change (encode_items (it :: its)) with (encode_item it ++ encode_items its) in *.
  rewrite next_item by done. rewrite (proj2 Hs) by apply H1.
  rewrite bool_decide_false by (apply Hd; set_solver).
  apply (IH _ _ _ (before ++ [it])); [by split|by apply seen_tags_snoc; [apply H1|]|..].
  - rewrite map_app. cbn. set_solver.
  - rewrite length_app in Hf. cbn in Hf. lia.
Qed.

Lemma scan_sound buf want hit :
  Bytes buf -> scan (rbp_tlv_reader_init buf) want = (RBP_TLV_OK, hit) ->
  exists its, buf = encode_items its /\ message its /\ hit = lookup_tag want its.
Proof.
  intros Hb H. unfold scan in H. cbn [upd r_buf rbp_tlv_reader_init] in H.
  destruct (scan_loop (length buf) _ want None) as [e h] eqn:E.
  assert (e = Some RBP_TLV_OK /\ h = hit) as [-> ->] by (destruct e; cbn in H; by simplify_eq).
  change (scan_loop (length buf) (reader_at [] buf (replicate 32 0)) want None =
            (Some RBP_TLV_OK, hit)) in E.
  apply (scan_loop_sound _ _ _ _ []) in E as (its & -> & Hm & _ & ->); [|done|apply seen_tags_nil].
  exists its. split; [done|]. split; [done|]. by destruct (lookup_tag want its).
Qed.

Lemma encode_items_inj its its' :
  Forall item_wf its -> Forall item_wf its' -> encode_items its = encode_items its' -> its = its'.
Proof.
  intros H. revert its'. induction H as [|it its Hi H IH]; intros its' H' E.
  { destruct H' as [|it' its' Hi' H']; [done|]. by cbn in E. }
  destruct H' as [|it' its' Hi' H']; [by cbn in E|].
  change (encode_item it ++ encode_items its = encode_item it' ++ encode_items its') in E.
  pose proof (next_item [] it (encode_items its) (replicate 32 0) Hi) as N.
  pose proof (next_item [] it' (encode_items its') (replicate 32 0) Hi') as N'.
  rewrite E in N. rewrite N in N'.
  rewrite !(proj2 seen_tags_nil) in N' by (apply Hi || apply Hi').
  cbn in N'. inv N'. f_equal. by apply IH.
Qed.

(** A well-formed message is walked to its end, and the lookup is the item
    with the tag. *)
Lemma scan_message its want :
  message its ->
  scan (rbp_tlv_reader_init (encode_items its)) want = (RBP_TLV_OK, lookup_tag want its).
Proof.
  intros Hm. assert (Bytes (encode_items its)) as Hb.
  { destruct Hm as [Hw _]. induction Hw as [|it its (Ht & Hty & Hv & _) Hw IH]; [constructor|].
    apply Forall_app; split; [|done]. unfold encode_item.
    repeat constructor; try done; apply u8_byte || apply Ht || apply Hty. }
  destruct (scan_loop_complete (length (encode_items its)) [] its (replicate 32 0) [] want None Hm
    seen_tags_nil ltac:(set_solver) ltac:(done)) as [hit Hl].
  assert (scan (rbp_tlv_reader_init (encode_items its)) want = (RBP_TLV_OK, hit)) as E.
  { unfold scan.
    change (rbp_tlv_reader_init (encode_items its) <| r_pos := 0 |> <| seen_tags := replicate 32 0 |>)
      with (reader_at [] (encode_items its) (replicate 32 0)).
    change (r_buf (rbp_tlv_reader_init (encode_items its))) with (encode_items its). by rewrite Hl. }
  pose proof (scan_sound _ _ _ Hb E) as (its' & Heq & [Hw' _] & ->).
  rewrite E. by rewrite (encode_items_inj its its' (proj1 Hm) Hw' Heq).
Qed.

(** ** Writing and reading back *)

(** What one put writes. *)
Inductive field :=
  | FU8 (tag v : Z) | FU16 (tag v : Z) | FU32 (tag v : Z) | FU64 (tag v : Z)
  | FBool (tag : Z) (v : bool) | FText (tag : Z) (v : list Z) | FBytes (tag : Z) (v : list Z).
Definition put_field (w : rbp_tlv_writer_t) (f : field) : rbp_tlv_writer_t * bool :=
  match f with
  | FU8 t v => rbp_tlv_put_u8 w t v | FU16 t v => rbp_tlv_put_u16 w t v
  | FU32 t v => rbp_tlv_put_u32 w t v | FU64 t v => rbp_tlv_put_u64 w t v
  | FBool t v => rbp_tlv_put_bool w t v | FText t v => rbp_tlv_put_text w t v
  | FBytes t v => rbp_tlv_put_bytes w t v
  end.
Definition put_fields (fs : list field) : rbp_tlv_writer_t :=
  foldl (fun w f => fst (put_field w f)) rbp_tlv_writer_init fs.
Definition field_item (f : field) : tlv_item :=
  match f with
  | FU8 t v => TlvItem t RBP_TLV_T_U8 [v]
  | FU16 t v => TlvItem t RBP_TLV_T_U16 (le 2 v)
  | FU32 t v => TlvItem t RBP_TLV_T_U32 (le 4 v)
  | FU64 t v => TlvItem t RBP_TLV_T_U64 (le 8 v)
  | FBool t v => TlvItem t RBP_TLV_T_BOOL [if v then 1 else 0]
  | FText t v => TlvItem t RBP_TLV_T_TEXT v
  | FBytes t v => TlvItem t RBP_TLV_T_BYTES v
  end.
Definition field_tag (f : field) : Z := it_tag (field_item f).
Definition field_wf (f : field) : Prop :=
  Byte (field_tag f) /\
  match f with
  | FU8 _ v => Byte v | FU16 _ v => U16 v | FU32 _ v => U32 v | FU64 _ v => U64 v
  | FBool _ _ => True
  | FText _ v => Bytes v /\ zlen v <= RBP_TLV_MAX_TEXT /\ utf8_valid v = true
  | FBytes _ v => Bytes v /\ zlen v <= RBP_TLV_MAX_BYTES
  end.
#[export] Instance field_wf_dec f : Decision (field_wf f).
Proof. unfold field_wf. destruct f; apply _. Defined.
(** The getter of the field's type, at its tag, returns the field's value. *)
Definition field_read (buf : list Z) (f : field) : Prop :=
  let r := rbp_tlv_reader_init buf in
  match f with
  | FU8 t v => rbp_tlv_get_u8 r t 0 = (RBP_TLV_OK, v, true)
  | FU16 t v => rbp_tlv_get_u16 r t 0 = (RBP_TLV_OK, v, true)
  | FU32 t v => rbp_tlv_get_u32 r t 0 = (RBP_TLV_OK, v, true)
  | FU64 t v => rbp_tlv_get_u64 r t 0 = (RBP_TLV_OK, v, true)
  | FBool t v => rbp_tlv_get_bool r t false = (RBP_TLV_OK, v, true)
  | FText t v => rbp_tlv_get_text r t = (RBP_TLV_OK, Some v)
  | FBytes t v => rbp_tlv_get_bytes r t = (RBP_TLV_OK, Some v)
  end.
(** Ascending tags, as the writer wants them. *)
Fixpoint ascending (last : Z) (ts : list Z) : Prop :=
  match ts with [] => True | t :: ts => last < t /\ ascending t ts end.
#[export] Instance ascending_dec last ts : Decision (ascending last ts).
Proof. revert last. induction ts; intros; cbn; apply _. Defined.

Lemma ascending_gt last ts : ascending last ts -> forall t, t ∈ ts -> last < t.
Proof.
  revert last. induction ts as [|a ts IH]; cbn; [set_solver|].
  intros last [Ha Hs] t Ht. apply elem_of_cons in Ht as [->|Ht]; [done|].
  pose proof (IH a Hs t Ht). lia.
Qed.
Lemma ascending_NoDup last ts : ascending last ts -> NoDup ts.
Proof.
  revert last. induction ts as [|a ts IH]; cbn; [constructor|]. intros last [_ Hs].
  constructor; [|by eapply IH]. intros Ha. pose proof (ascending_gt _ _ Hs _ Ha). lia.
Qed.

Lemma le2_eq v : [u8 v; u8 (Z.shiftr v 8)] = le 2 v.
Proof. done. Qed.
Lemma le4_eq v : [u8 v; u8 (Z.shiftr v 8); u8 (Z.shiftr v 16); u8 (Z.shiftr v 24)] = le 4 v.
Proof. cbn. by rewrite !Z.shiftr_shiftr by lia. Qed.
Lemma le8_eq v : map (fun i => u8 (Z.shiftr v (8 * i))) [0; 1; 2; 3; 4; 5; 6; 7] = le 8 v.
Proof. cbn. by rewrite !Z.shiftr_shiftr, Z.shiftr_0_r by lia. Qed.

(** One put: the item is appended if the tag ascends and the value fits. *)
Lemma put_field_spec w f :
  field_wf f -> last_tag w < field_tag f ->
  w_len w + zlen (encode_item (field_item f)) <= RBP_MAX_PAYLOAD ->
  put_field w f =
    (TlvWriter (w_buf w ++ encode_item (field_item f)) (w_overflow w) (field_tag f), true).
Proof.
  intros [Ht Hf] Hlast Hl.
  assert (forall v, it_val (field_item f) = v ->
    w_put w (field_tag f) (it_type (field_item f)) v =
      (TlvWriter (w_buf w ++ encode_item (field_item f)) (w_overflow w) (field_tag f), true)) as Hput.
  { intros v <-. unfold w_put. destruct (field_tag f <=? last_tag w) eqn:E; [lia|].
    rewrite zlen_encode_item in Hl. unfold w_len in *. cbn [upd w_buf].
    destruct (_ <? _) eqn:E2; [cbn in E2; lia|]. done. }
  destruct f; cbn [put_field field_item it_type it_val field_tag it_tag] in *.
  - unfold rbp_tlv_put_u8. rewrite u8_small by done. by apply Hput.
  - unfold rbp_tlv_put_u16. rewrite le2_eq. by apply Hput.
  - unfold rbp_tlv_put_u32. rewrite le4_eq. by apply Hput.
  - unfold rbp_tlv_put_u64. rewrite le8_eq. by apply Hput.
  - by apply Hput.
  - unfold rbp_tlv_put_text. destruct (_ <? _) eqn:E; [lia|]. by apply Hput.
  - unfold rbp_tlv_put_bytes. destruct (_ <? _) eqn:E; [lia|]. by apply Hput.
Qed.

Definition fields_size (fs : list field) : Z := zlen (encode_items (map field_item fs)).

Lemma put_fields_from fs w :
  Forall field_wf fs -> ascending (last_tag w) (map field_tag fs) ->
  w_len w + fields_size fs <= RBP_MAX_PAYLOAD ->
  w_buf (foldl (fun w f => fst (put_field w f)) w fs) = w_buf w ++ encode_items (map field_item fs) /\
  w_overflow (foldl (fun w f => fst (put_field w f)) w fs) = w_overflow w.
Proof.
  intros Hw. revert w. induction Hw as [|f fs Hf Hw IH]; intros w Ha Hl; cbn.
  { by rewrite app_nil_r. }
  destruct Ha as [Ht Ha].
  change (fields_size (f :: fs)) with
    (zlen (encode_item (field_item f) ++ encode_items (map field_item fs))) in Hl.
  rewrite zlen_app in Hl. pose proof (zlen_nonneg (encode_items (map field_item fs))).
  rewrite put_field_spec by (done || lia). cbn [fst].
  destruct (IH (TlvWriter (w_buf w ++ encode_item (field_item f)) (w_overflow w) (field_tag f)))
    as [-> ->]; [done|unfold w_len, fields_size in *; cbn [w_buf]; rewrite zlen_app; lia|].
  cbn. by rewrite <- app_assoc.
Qed.

Lemma field_item_wf f : field_wf f -> item_wf (field_item f).
Proof.
  intros [Ht Hf]. unfold item_wf. split; [exact Ht|].
  destruct f; cbn [field_item it_type it_val] in *; (split; [by vm_compute|]).
  - split; [by apply Forall_singleton|by vm_compute].
  - split; [auto with rbp|by rewrite zlen_le].
  - split; [auto with rbp|by rewrite zlen_le].
  - split; [auto with rbp|by rewrite zlen_le].
  - destruct v; (split; [by repeat constructor|by vm_compute]).
  - destruct Hf as (? & ? & _). split; [done|sizes].
  - destruct Hf as (? & ?). split; [done|sizes].
Qed.

Lemma fields_message fs :
  Forall field_wf fs -> ascending (-1) (map field_tag fs) -> message (map field_item fs).
Proof.
  intros Hw Ha. split.
  - induction Hw as [|f fs Hf Hw IH]; [constructor|]. cbn in Ha. constructor; [by apply field_item_wf|].
    apply IH. destruct fs as [|g fs]; [done|]. cbn in *. destruct Ha as (? & ? & ?).
    split; [lia|done].
  - rewrite map_map. by eapply ascending_NoDup.
Qed.

Lemma lookup_tag_in its it :
  NoDup (map it_tag its) -> it ∈ its -> lookup_tag (it_tag it) its = Some it.
Proof.
  intros Hn Hin. induction its as [|i its IH]; [set_solver|]. cbn in Hn |- *. inv Hn.
  unfold lookup_tag. cbn. apply elem_of_cons in Hin as [->|Hin]; [by rewrite Z.eqb_refl|].
  destruct (Z.eqb_spec (it_tag i) (it_tag it)) as [E|E]; [|by apply IH].
  exfalso. apply H1. rewrite E. by apply list_elem_of_fmap_2.
Qed.

Lemma unle4_join v : U32 v ->
  Z.lor (Z.lor (Z.lor (znth (le 4 v) 0) (Z.shiftl (znth (le 4 v) 1) 8)) (Z.shiftl (znth (le 4 v) 2) 16))
          (Z.shiftl (znth (le 4 v) 3) 24) = v.
Proof. intros H. rewrite <- le4_eq. by apply join32. Qed.

Lemma unle_fold l :
  Bytes l -> zlen l <= 8 ->
  foldl (fun x b => Z.lor (u64 (Z.shiftl x 8)) b) 0 (rev l) = unle l.
Proof.
  induction 1 as [|b l Hb Hl IH]; intros Hz; [done|]. rewrite zlen_cons in Hz.
  cbn [rev]. rewrite foldl_app. cbn [foldl]. rewrite IH by lia.
  rewrite u64_small; [by rewrite Z.lor_comm|].
  pose proof (unle_range l Hl) as Hr.
  assert (2 ^ (8 * zlen l) <= 2 ^ 56) by (apply Z.pow_le_mono_r; lia).
  rewrite Z.shiftl_mul_pow2 by lia. unfold U64. lia.
Qed.
Lemma unle8_join v : U64 v ->
  foldl (fun x i => Z.lor (u64 (Z.shiftl x 8)) (znth (le 8 v) i)) 0 [7; 6; 5; 4; 3; 2; 1; 0] = v.
Proof.
  intros H. change (foldl (fun x b => Z.lor (u64 (Z.shiftl x 8)) b) 0 (rev (le 8 v)) = v).
  rewrite unle_fold; [|auto with rbp|by rewrite zlen_le]. by apply unle_le.
Qed.

Lemma get_fixed_message its tag ty len :
  message its ->
  get_fixed (rbp_tlv_reader_init (encode_items its)) tag ty len =
    match lookup_tag tag its with
    | None => (RBP_TLV_OK, None)
    | Some it =>
      (if negb (it_type it =? ty) || (negb (len =? 0) && negb (zlen (it_val it) =? len))
       then RBP_TLV_ERR_TYPE else RBP_TLV_OK, Some (it_val it))
    end.
Proof.
  intros Hm. unfold get_fixed. rewrite scan_message by done.
  destruct (lookup_tag tag its); [|done]. by split_if.
Qed.

Lemma field_read_back fs f :
  Forall field_wf fs -> ascending (-1) (map field_tag fs) -> f ∈ fs ->
  field_read (encode_items (map field_item fs)) f.
Proof.
  intros Hw Ha Hin. pose proof (fields_message fs Hw Ha) as Hm.
  assert (lookup_tag (field_tag f) (map field_item fs) = Some (field_item f)) as Hl.
  { apply lookup_tag_in; [apply Hm|]. by apply list_elem_of_fmap_2. }
  rewrite Forall_forall in Hw. specialize (Hw f (proj1 (list_elem_of_In _ _) Hin)) as [Ht Hf].
  unfold field_read, rbp_tlv_get_u8, rbp_tlv_get_u16, rbp_tlv_get_u32, rbp_tlv_get_u64,
    rbp_tlv_get_bool, rbp_tlv_get_text, rbp_tlv_get_bytes, get_scalar.
  destruct f; cbn [field_tag field_item it_tag] in Hl; rewrite get_fixed_message, Hl by done;
    cbn [it_type it_val]; rewrite ?zlen_le, Z.eqb_refl; cbn [negb orb andb].
  - done.
  - do 2 f_equal. by apply join16.
  - do 2 f_equal. by apply unle4_join.
  - do 2 f_equal. by apply unle8_join.
  - by destruct v.
  - destruct Hf as (_ & Hl' & ->). replace (_ <? zlen v) with false by lia.
    rewrite andb_false_r. done.
  - destruct Hf as (_ & Hl'). replace (_ <? zlen v) with false by lia. done.
Qed.

(** ** UTF-8: the accepted strings *)
Definition utf8_encode (cp : Z) : list Z :=
  if cp <? 0x80 then [cp]
  else if cp <? 0x800 then [0xC0 + cp / 64; 0x80 + cp mod 64]
  else if cp <? 0x10000 then [0xE0 + cp / 4096; 0x80 + cp / 64 mod 64; 0x80 + cp mod 64]
  else [0xF0 + cp / 262144; 0x80 + cp / 4096 mod 64; 0x80 + cp / 64 mod 64; 0x80 + cp mod 64].

(** A decidable fact about a byte, checked on the 256 of them. *)
Lemma byte_cases (P : Z -> Prop) `{!forall b, Decision (P b)} :
  forallb (fun b => bool_decide (P b)) (map Z.of_nat (List.seq 0 256)) = true ->
  forall b, Byte b -> P b.
Proof.
  intros Hall b Hb. rewrite forallb_forall in Hall.
  apply (bool_decide_eq_true (P b)), Hall, in_map_iff.
  unfold Byte in Hb. exists (Z.to_nat b). split; [lia|]. apply in_seq. lia.
Qed.

Lemma utf8_lead_spec c : Byte c ->
  utf8_lead c = if (0xC2 <=? c) && (c <=? 0xDF) then Some (c - 0xC0, 1%nat)
    else if (0xE0 <=? c) && (c <=? 0xEF) then Some (c - 0xE0, 2%nat)
    else if (0xF0 <=? c) && (c <=? 0xF4) then Some (c - 0xF0, 3%nat) else None.
Proof. revert c. refine (byte_cases _ _). vm_compute. reflexivity. Qed.
Lemma utf8_cont_spec b : Byte b ->
  (Z.land b 0xC0 =? 0x80) = ((0x80 <=? b) && (b <=? 0xBF)) /\
  (0x80 <= b <= 0xBF -> Z.land b 0x3F = b - 0x80).
Proof. revert b. refine (byte_cases _ _). vm_compute. reflexivity. Qed.

Lemma utf8_tail_step n cp b s :
  Byte b -> 0 <= cp < 0x8000 ->
  utf8_tail (S n) cp (b :: s) =
    if (0x80 <=? b) && (b <=? 0xBF) then utf8_tail n (cp * 64 + (b - 0x80)) s else None.
Proof.
  intros Hb Hc. cbn [utf8_tail]. destruct (utf8_cont_spec b Hb) as [-> Hl].
  destruct ((0x80 <=? b) && (b <=? 0xBF)) eqn:E; [|done]. cbn [negb].
  rewrite Hl by lia. rewrite u32_small.
  2: { rewrite Z.shiftl_mul_pow2 by lia. unfold U32. lia. }
  rewrite Z.lor_comm, lor_shiftl_add by lia. f_equal. lia.
Qed.

(** The encodings of two, three and four bytes, from their bytes. *)
Lemma utf8_encode2 c b1 :
  0xC2 <= c <= 0xDF -> 0x80 <= b1 <= 0xBF ->
  utf8_encode ((c - 0xC0) * 64 + (b1 - 0x80)) = [c; b1].
Proof.
  intros. set (cp := _ + _). unfold utf8_encode. replace (cp <? 0x80) with false by lia.
  replace (cp <? 0x800) with true by lia. repeat f_equal; Z.div_mod_to_equations; lia.
Qed.
Lemma utf8_encode3 c b1 b2 :
  0xE0 <= c <= 0xEF -> 0x80 <= b1 <= 0xBF -> 0x80 <= b2 <= 0xBF ->
  let cp := ((c - 0xE0) * 64 + (b1 - 0x80)) * 64 + (b2 - 0x80) in
  0x800 <= cp -> utf8_encode cp = [c; b1; b2].
Proof.
  intros ??? cp Hcp. unfold utf8_encode. replace (cp <? 0x80) with false by lia.
  replace (cp <? 0x800) with false by lia. replace (cp <? 0x10000) with true by lia.
  repeat f_equal; Z.div_mod_to_equations; lia.
Qed.
Lemma utf8_encode4 c b1 b2 b3 :
  0xF0 <= c <= 0xF4 -> 0x80 <= b1 <= 0xBF -> 0x80 <= b2 <= 0xBF -> 0x80 <= b3 <= 0xBF ->
  let cp := (((c - 0xF0) * 64 + (b1 - 0x80)) * 64 + (b2 - 0x80)) * 64 + (b3 - 0x80) in
  0x10000 <= cp -> utf8_encode cp = [c; b1; b2; b3].
Proof.
  intros ???? cp Hcp. unfold utf8_encode. replace (cp <? 0x80) with false by lia.
  replace (cp <? 0x800) with false by lia. replace (cp <? 0x10000) with false by lia.
  repeat f_equal; Z.div_mod_to_equations; lia.
Qed.

Definition utf8_cps (s : list Z) : Prop :=
  exists cps, Forall (fun cp => 1 <= cp <= 0x10FFFF) cps /\ s = concat (map utf8_encode cps).
Lemma utf8_cps_cons cp enc s :
  utf8_encode cp = enc -> 1 <= cp <= 0x10FFFF -> utf8_cps s -> utf8_cps (enc ++ s).
Proof. intros <- Hc (cps & Hf & ->). exists (cp :: cps). by split; [constructor|]. Qed.

(** Takes one byte off the string, and its continuation test. *)
Ltac next_byte s Hb := destruct s as [|? s]; [done|]; apply Forall_cons_1 in Hb as [? Hb].
Ltac next_cont H := rewrite utf8_tail_step in H by (done || lia);
  match type of H with context [if ?b then _ else None] => destruct b eqn:? end; [|done].

Lemma utf8_loop_sound fuel s : Bytes s -> utf8_loop fuel s = true -> utf8_cps s.
Proof.
  revert s. induction fuel as [|fuel IH]; intros s Hb H.
  { destruct s; [by exists []|done]. }
  destruct s as [|c s]; [by exists []|]. apply Forall_cons_1 in Hb as [Hc Hb].
  cbn [utf8_loop] in H. unfold Byte in Hc.
  destruct (c =? 0) eqn:E0; [done|]. destruct (c <? 0x80) eqn:E1.
  { apply (utf8_cps_cons c [c]); [unfold utf8_encode; by rewrite E1|lia|by apply IH]. }
  rewrite utf8_lead_spec in H by (unfold Byte; lia).
  destruct ((0xC2 <=? c) && (c <=? 0xDF)) eqn:E2; [|destruct ((0xE0 <=? c) && (c <=? 0xEF)) eqn:E3;
    [|destruct ((0xF0 <=? c) && (c <=? 0xF4)) eqn:E4; [|done]]].
  - next_byte s Hb. split_if_in H; [done|]. next_cont H. cbn [utf8_tail Nat.eqb andb] in H.
    eapply (utf8_cps_cons _ [c; z]); [apply utf8_encode2; lia|lia|by apply IH].
  - next_byte s Hb. next_byte s Hb. split_if_in H; [done|]. next_cont H. next_cont H.
    cbn [utf8_tail Nat.eqb andb] in H. split_if_in H; [done|].
    eapply (utf8_cps_cons _ [c; z; z0]); [apply utf8_encode3; lia|lia|by apply IH].
  - next_byte s Hb. next_byte s Hb. next_byte s Hb. split_if_in H; [done|].
    next_cont H. next_cont H. next_cont H. cbn [utf8_tail Nat.eqb andb] in H.
    split_if_in H; [done|]. split_if_in H; [done|].
    eapply (utf8_cps_cons _ [c; z; z0; z1]); [apply utf8_encode4; lia|lia|by apply IH].
Qed.

(** Conversely the loop takes an encoded code point in one round. *)
Lemma utf8_loop_encode fuel cp s :
  1 <= cp <= 0x10FFFF -> utf8_loop (S fuel) (utf8_encode cp ++ s) = utf8_loop fuel s.
Proof.
  intros Hc. unfold utf8_encode. pose proof (zlen_nonneg s).
  destruct (cp <? 0x80) eqn:E1; [|destruct (cp <? 0x800) eqn:E2; [|destruct (cp <? 0x10000) eqn:E3]];
    cbn [app utf8_loop].
  - replace (cp =? 0) with false by lia. by rewrite E1.
  - assert (0xC2 <= 0xC0 + cp / 64 <= 0xDF) by (Z.div_mod_to_equations; lia).
    replace (_ =? 0) with false by lia. replace (_ <? 0x80) with false by lia.
    rewrite utf8_lead_spec by (unfold Byte; lia). replace (_ && _) with true by lia.
    rewrite !zlen_cons. replace (_ <? Z.of_nat _) with false by lia.
    rewrite utf8_tail_step by (unfold Byte; Z.div_mod_to_equations; lia).
    replace (_ && _) with true by (Z.div_mod_to_equations; lia). done.
  - assert (0xE0 <= 0xE0 + cp / 4096 <= 0xEF) by (Z.div_mod_to_equations; lia).
    replace (_ =? 0) with false by lia. replace (_ <? 0x80) with false by lia.
    rewrite utf8_lead_spec by (unfold Byte; lia). replace (_ && _) with false by lia.
    replace (_ && _) with true by lia.
    rewrite !zlen_cons. replace (_ <? Z.of_nat _) with false by lia.
    rewrite utf8_tail_step by (unfold Byte; Z.div_mod_to_equations; lia).
    replace (_ && _) with true by (Z.div_mod_to_equations; lia).
    rewrite utf8_tail_step by (unfold Byte; Z.div_mod_to_equations; lia).
    replace (_ && _) with true by (Z.div_mod_to_equations; lia). cbn [utf8_tail Nat.eqb andb].
    replace (_ <? 0x800) with false by (Z.div_mod_to_equations; lia). done.
  - assert (0xF0 <= 0xF0 + cp / 262144 <= 0xF4) by (Z.div_mod_to_equations; lia).
    replace (_ =? 0) with false by lia. replace (_ <? 0x80) with false by lia.
    rewrite utf8_lead_spec by (unfold Byte; lia). replace (_ && _) with false by lia.
    replace (_ && _) with false by lia. replace (_ && _) with true by lia.
    rewrite !zlen_cons. replace (_ <? Z.of_nat _) with false by lia.
    do 3 (rewrite utf8_tail_step by (unfold Byte; Z.div_mod_to_equations; lia);
      replace (_ && _) with true by (Z.div_mod_to_equations; lia)).
    cbn [utf8_tail Nat.eqb andb].
    match goal with |- context [?x <? 0x10000] => set (y := x) end.
    assert (y = cp) as -> by (subst y; Z.div_mod_to_equations; lia).
    replace (_ || _) with false by lia. replace (0x10FFFF <? cp) with false by lia. done.
Qed.

Lemma utf8_loop_complete cps fuel :
  Forall (fun cp => 1 <= cp <= 0x10FFFF) cps -> (length (concat (map utf8_encode cps)) <= fuel)%nat ->
  utf8_loop fuel (concat (map utf8_encode cps)) = true.
Proof.
  intros H. revert fuel. induction H as [|cp cps Hc H IH]; intros fuel Hf; [by destruct fuel|].
  cbn in Hf |- *. rewrite length_app in Hf.
  assert (0 < length (utf8_encode cp))%nat by (unfold utf8_encode; repeat split_if; simpl; lia).
  destruct fuel as [|fuel]; [lia|]. rewrite utf8_loop_encode by done. apply IH. lia.
Qed.

(** ** Properties *)

Definition sample_fields : list field :=
  [FU32 1 0xDEADBEEF; FU64 2 1234567890123; FBool 3 true; FText 4 [72; 105]; FBytes 7 [0; 255]].

(** A getter accepts a payload exactly when the whole of it is a sequence
    of complete items with pairwise distinct tags; truncated lengths, stray
    trailing bytes and duplicate tags are rejected wherever they are, and the
    item found is the one with the tag. *)
Theorem scan_exact buf want hit :
  Bytes buf ->
  scan (rbp_tlv_reader_init buf) want = (RBP_TLV_OK, hit) <->
  exists its, buf = encode_items its /\ message its /\ hit = lookup_tag want its.
Proof.
  intros Hb. split; [by apply scan_sound|].
  intros (its & -> & Hm & ->). by apply scan_message.
Qed.
Lemma scan_exact_witness :
  scan (rbp_tlv_reader_init [5; 1; 1; 0; 42]) 5 = (RBP_TLV_OK, Some (TlvItem 5 1 [42])) <->
  exists its, [5; 1; 1; 0; 42] = encode_items its /\ message its /\
    Some (TlvItem 5 1 [42]) = lookup_tag 5 its.
Proof. apply scan_exact. by apply (bool_decide_unpack _). Defined.

(** No put writes past the 512-byte buffer, whatever its arguments; one
    that does not fit leaves the contents alone and raises the overflow flag. *)
Theorem put_field_bounded w f :
  w_len w <= RBP_MAX_PAYLOAD ->
  w_len (fst (put_field w f)) <= RBP_MAX_PAYLOAD /\
  (snd (put_field w f) = false ->
   w_buf (fst (put_field w f)) = w_buf w /\ w_overflow (fst (put_field w f)) = true).
Proof.
  intros Hl.
  assert (forall tag ty v, w_len (fst (w_put w tag ty v)) <= RBP_MAX_PAYLOAD /\
    (snd (w_put w tag ty v) = false ->
     w_buf (fst (w_put w tag ty v)) = w_buf w /\ w_overflow (fst (w_put w tag ty v)) = true)) as H.
  { intros tag ty v. unfold w_put, w_len in *. pose proof (zlen_nonneg v).
    destruct (tag <=? last_tag w); cbn [upd w_buf];
      (destruct (_ <? _) eqn:E; cbn in E |- *; split; [done|done| |done]);
      rewrite zlen_app, !zlen_cons; lia. }
  destruct f; cbn [put_field]; try apply H;
    unfold rbp_tlv_put_text, rbp_tlv_put_bytes; split_if; try apply H; done.
Qed.
Lemma put_field_bounded_witness :
  w_len (fst (put_field (TlvWriter (replicate 510 0) false 3) (FU8 4 1))) <= RBP_MAX_PAYLOAD /\
  (snd (put_field (TlvWriter (replicate 510 0) false 3) (FU8 4 1)) = false ->
   w_buf (fst (put_field (TlvWriter (replicate 510 0) false 3) (FU8 4 1))) = replicate 510 0 /\
   w_overflow (fst (put_field (TlvWriter (replicate 510 0) false 3) (FU8 4 1))) = true).
Proof. apply put_field_bounded. by apply (bool_decide_unpack _). Defined.

(** The UTF-8 check accepts exactly the encodings, in shortest form, of
    sequences of code points from U+0001 to U+10FFFF: NUL, overlong forms,
    truncated sequences and values past U+10FFFF are rejected.  The surrogates
    U+D800..U+DFFF are inside that range and are accepted: the test for them
    is made only on four-byte sequences. *)
Theorem utf8_valid_exact s :
  Bytes s ->
  utf8_valid s = true <->
  exists cps, Forall (fun cp => 1 <= cp <= 0x10FFFF) cps /\ s = concat (map utf8_encode cps).
Proof.
  intros Hb. split; [by apply utf8_loop_sound|].
  intros (cps & Hc & ->). by apply utf8_loop_complete.
Qed.
Lemma utf8_valid_exact_witness :
  utf8_valid [0xED; 0xA0; 0x80] = true <->
  exists cps, Forall (fun cp => 1 <= cp <= 0x10FFFF) cps /\
    [0xED; 0xA0; 0x80] = concat (map utf8_encode cps).
Proof. apply utf8_valid_exact. by apply (bool_decide_unpack _). Defined.

(** The surrogate U+D800, on which the comment of the source and its code differ. *)
Example utf8_surrogate : utf8_valid (utf8_encode 0xD800) = true.
Proof. reflexivity. Qed.
