(* ===== verification/DeviceModel.v ===== *)
(** * Device catalogs

    The key tables and profiles of device_model.c.  A profile's [keys] array
    has [key_count] entries; the slot of a key is its index. *)
From Stdlib Require Import String.
From S2P Require Import Prelude Defs.
#[local] Open Scope string_scope.
#[local] Open Scope Z_scope.

Record rbp_key_def_t := KeyDef { key_id : Z; key_name : list Z }.
Record rbp_device_profile_t := Profile {
  model_id : list Z; display_name : list Z; catalog_revision : Z; key_count : Z;
  keys : list rbp_key_def_t }.

Definition key (id : Z) (name : string) : rbp_key_def_t := KeyDef id (cstr name).
Definition rc003_keys : list rbp_key_def_t :=
  [key RBP_KEY_POWER "Power"; key RBP_KEY_UP "Up"; key RBP_KEY_DOWN "Down";
   key RBP_KEY_LEFT "Left"; key RBP_KEY_RIGHT "Right"; key RBP_KEY_OK "OK";
   key RBP_KEY_BACK "Back"; key RBP_KEY_HOME "Home"; key RBP_KEY_MENU "Menu";
   key RBP_KEY_TV "TV"; key RBP_KEY_VOLUME_UP "Volume Up";
   key RBP_KEY_VOLUME_DOWN "Volume Down"; key RBP_KEY_VOICE "Voice"].
Definition RBP_PROFILE_RC003 : rbp_device_profile_t :=
  Profile (cstr "xiaomi.rc003") (cstr "Xiaomi Remote 2 Pro") 1 (zlen rc003_keys - 1) rc003_keys.
Definition RBP_PROFILE_RC003_VOICE : rbp_device_profile_t :=
  Profile (cstr "xiaomi.rc003") (cstr "Xiaomi Remote 2 Pro") 2 (zlen rc003_keys) rc003_keys.
Definition unicom_keys : list rbp_key_def_t :=
  [key RBP_KEY_POWER "Power"; key RBP_KEY_MUTE "Mute"; key RBP_KEY_SETTINGS "Settings";
   key RBP_KEY_UP "Up"; key RBP_KEY_DOWN "Down"; key RBP_KEY_LEFT "Left";
   key RBP_KEY_RIGHT "Right"; key RBP_KEY_OK "Ok"; key RBP_KEY_HOME "Home";
   key RBP_KEY_LOCAL "Local"; key RBP_KEY_BACK "Back"; key RBP_KEY_VOLUME_UP "Volume Up";
   key RBP_KEY_VOLUME_DOWN "Volume Down"; key RBP_KEY_CHANNEL_UP "Channel Up";
   key RBP_KEY_CHANNEL_DOWN "Channel Down"; key RBP_KEY_VOICE "Voice";
   key RBP_KEY_DIGIT_1 "Digit 1"; key RBP_KEY_DIGIT_2 "Digit 2"; key RBP_KEY_DIGIT_3 "Digit 3";
   key RBP_KEY_DIGIT_4 "Digit 4"; key RBP_KEY_DIGIT_5 "Digit 5"; key RBP_KEY_DIGIT_6 "Digit 6";
   key RBP_KEY_DIGIT_7 "Digit 7"; key RBP_KEY_DIGIT_8 "Digit 8"; key RBP_KEY_DIGIT_9 "Digit 9";
   key RBP_KEY_STAR "Star"; key RBP_KEY_DIGIT_0 "Digit 0"; key RBP_KEY_HASH "Hash"].
Definition RBP_PROFILE_UNICOM : rbp_device_profile_t :=
  Profile (cstr "unicom.hid_ico.v1") (cstr "Unicom BLE Voice Remote") 1 (zlen unicom_keys) unicom_keys.

(** What the catalog reply relies on: [key_count] entries exist, in at most
    [RBP_MAX_KEYS] slots, with distinct 16-bit ids and names of 1 to 32 bytes,
    none of them the terminator. *)
Definition profile_wf (p : rbp_device_profile_t) : Prop :=
  0 <= key_count p <= zlen (keys p) /\ key_count p <= RBP_MAX_KEYS /\
  NoDup (map key_id (keys p)) /\
  Forall (fun k => U16 (key_id k) /\ 0 < zlen (key_name k) <= 32 /\
                   Forall (fun b => 0 < b < 256) (key_name k)) (keys p).
#[export] Instance profile_wf_dec p : Decision (profile_wf p).
Proof. unfold profile_wf. apply _. Defined.

Lemma profiles_wf :
  Forall profile_wf [RBP_PROFILE_RC003; RBP_PROFILE_RC003_VOICE; RBP_PROFILE_UNICOM].
Proof. apply (bool_decide_unpack _). by vm_compute. Qed.
