(* ===== verification/Faults.v ===== *)
(** * Fault records

    The diagnostic ring of faults.c: four records, the newest merged with a
    repeated fault, the oldest evicted when full.  The file-scope variables of
    the source are the fields of [faults_t]; interrupts are masked for the
    duration of each function, so that each is one step. *)
From S2P Require Import Prelude.

Definition RBP_FAULT_CAPACITY : Z := 4.
Record rbp_fault_t := Fault {
  ft_sequence : Z; ft_domain : Z; ft_stage : Z; ft_code : Z; ft_context : Z;
  ft_count : Z; ft_board_ms : Z }.
#[export] Instance eta_fault : Eta rbp_fault_t := fun r =>
  Fault (ft_sequence r) (ft_domain r) (ft_stage r) (ft_code r) (ft_context r)
    (ft_count r) (ft_board_ms r).
Definition fault0 : rbp_fault_t := Fault 0 0 0 0 0 0 0.

Record faults_t := Faults {
  records : list rbp_fault_t; serial : Z; evictions : Z; clock_ms : Z; used : Z; next : Z }.
#[export] Instance eta_faults : Eta faults_t := fun f =>
  Faults (records f) (serial f) (evictions f) (clock_ms f) (used f) (next f).
Definition faults_init : faults_t := Faults (replicate 4 fault0) 0 0 0 0 0.

Definition record_at (f : faults_t) (i : Z) : rbp_fault_t := nth (Z.to_nat i) (records f) fault0.

Definition rbp_fault_set_time (f : faults_t) (board_ms : Z) : faults_t := f <| clock_ms := board_ms |>.
(** [if (++serial == 0) ++serial]. *)
Definition bump_serial (s : Z) : Z := let s := u32 (s + 1) in if s =? 0 then u32 (s + 1) else s.
Definition rbp_fault_record (f : faults_t) (domain stage code context : Z) : faults_t :=
  let at_ := (next f + RBP_FAULT_CAPACITY - 1) mod RBP_FAULT_CAPACITY in
  let r := record_at f at_ in
  let f := f <| serial ::= bump_serial |> in
  if negb (used f =? 0) && (ft_domain r =? domain) && (ft_stage r =? stage) &&
     (ft_code r =? code) && (ft_context r =? context)
  then
    let r := if negb (ft_count r =? UINT32_MAX) then r <| ft_count ::= fun c => c + 1 |> else r in
    let r := r <| ft_sequence := serial f |> <| ft_board_ms := clock_ms f |> in
    f <| records ::= fun l => <[Z.to_nat at_ := r]> l |>
  else
    let f := if (used f =? RBP_FAULT_CAPACITY) && negb (evictions f =? UINT32_MAX)
             then f <| evictions ::= fun e => e + 1 |> else f in
    let f := f <| records ::= fun l =>
      <[Z.to_nat (next f) := Fault (serial f) domain stage code context 1 (clock_ms f)]> l |> in
    let f := f <| next ::= fun n => u8 ((n + 1) mod RBP_FAULT_CAPACITY) |> in
    if used f <? RBP_FAULT_CAPACITY then f <| used ::= fun u => u8 (u + 1) |> else f.

(** The copied records (oldest first), the serial number and the evictions. *)
Definition rbp_fault_snapshot (f : faults_t) : list rbp_fault_t * Z * Z :=
  let count := used f in
  (map (fun i => record_at f ((next f + RBP_FAULT_CAPACITY - count + i) mod RBP_FAULT_CAPACITY))
     (map Z.of_nat (List.seq 0 (Z.to_nat count))), serial f, evictions f).

(** ** The log the ring implements *)
Definition same_fault (r : rbp_fault_t) (domain stage code context : Z) : bool :=
  (ft_domain r =? domain) && (ft_stage r =? stage) && (ft_code r =? code) && (ft_context r =? context).
Definition merged (r : rbp_fault_t) (seq ms : Z) : rbp_fault_t :=
  Fault seq (ft_domain r) (ft_stage r) (ft_code r) (ft_context r)
    (Z.min UINT32_MAX (ft_count r + 1)) ms.
(** Oldest first: the newest absorbs a repetition, else the fault is appended
    and the oldest of five dropped. *)
Definition log_record (log : list rbp_fault_t) (seq ms domain stage code context : Z)
  : list rbp_fault_t :=
  match rev log with
  | r :: older =>
    if same_fault r domain stage code context
    then rev older ++ [merged r seq ms]
    else drop (if zlen log =? 4 then 1 else 0) log ++ [Fault seq domain stage code context 1 ms]
  | [] => [Fault seq domain stage code context 1 ms]
  end.
(** A full log drops its oldest record, unless the newest absorbs the fault. *)
Definition log_evicts (log : list rbp_fault_t) (domain stage code context : Z) : bool :=
  match rev log with
  | r :: _ => (zlen log =? 4) && negb (same_fault r domain stage code context)
  | [] => false
  end.
Definition next_serial (s : Z) : Z := if s =? UINT32_MAX then 1 else s + 1.

Definition faults_wf (f : faults_t) : Prop :=
  length (records f) = 4%nat /\ 0 <= used f <= 4 /\ 0 <= next f < 4 /\
  U32 (serial f) /\ U32 (evictions f) /\
  Forall (fun r => 0 <= ft_count r <= UINT32_MAX) (records f).
#[export] Instance faults_wf_dec f : Decision (faults_wf f).
Proof. unfold faults_wf. apply _. Defined.

Lemma serial_step s : U32 s -> bump_serial s = next_serial s.
Proof. intros H. unfold bump_serial, next_serial. cbn. repeat split_if; words. Qed.

Lemma saturate c : 0 <= c <= UINT32_MAX ->
  (if negb (c =? UINT32_MAX) then c + 1 else c) = Z.min UINT32_MAX (c + 1).
Proof. intros. split_if; lia. Qed.

Lemma merge_record r seq ms : 0 <= ft_count r <= UINT32_MAX ->
  (if negb (ft_count r =? UINT32_MAX) then r <| ft_count ::= fun c => c + 1 |> else r)
    <| ft_sequence := seq |> <| ft_board_ms := ms |> = merged r seq ms.
Proof. intros H. unfold merged. rewrite <- saturate by done. by split_if. Qed.

(** The step with its fields written out. *)
Lemma fault_record_eq recs sr ev clk u n domain stage code context :
  Forall (fun r => 0 <= ft_count r <= UINT32_MAX) recs -> U32 sr ->
  let at_ := (n + 4 - 1) mod 4 in
  let r := nth (Z.to_nat at_) recs fault0 in
  rbp_fault_record (Faults recs sr ev clk u n) domain stage code context =
    if negb (u =? 0) && same_fault r domain stage code context
    then Faults (<[Z.to_nat at_ := merged r (next_serial sr) clk]> recs) (next_serial sr) ev clk u n
    else Faults (<[Z.to_nat n := Fault (next_serial sr) domain stage code context 1 clk]> recs)
           (next_serial sr) (if (u =? 4) && negb (ev =? UINT32_MAX) then ev + 1 else ev) clk
           (if u <? 4 then u8 (u + 1) else u) (u8 ((n + 1) mod 4)).
Proof.
  intros Hc Hs at_ r. rewrite <- (serial_step sr Hs).
  assert (0 <= ft_count r <= UINT32_MAX) as Hr.
  { unfold r. destruct (nth_in_or_default (Z.to_nat at_) recs fault0) as [Hin| ->]; [|done].
    rewrite List.Forall_forall in Hc. by apply Hc. }
  rewrite <- (merge_record r _ _ Hr). unfold rbp_fault_record, same_fault, record_at.
  cbn [records used next serial evictions clock_ms upd]. fold RBP_FAULT_CAPACITY. fold at_ r.
  rewrite !andb_assoc. destruct (_ && _); [done|].
  destruct ((u =? RBP_FAULT_CAPACITY) && _); cbn; by split_if.
Qed.

(** Case analysis over the twenty values of [used] and [next]. *)
Ltac fault_cases u n Hu Hn :=
  let Hu' := fresh in let Hn' := fresh in
  assert (u = 0 \/ u = 1 \/ u = 2 \/ u = 3 \/ u = 4) as Hu' by lia;
  assert (n = 0 \/ n = 1 \/ n = 2 \/ n = 3) as Hn' by lia;
  destruct Hu' as [->|[->|[->|[->| ->]]]]; destruct Hn' as [->|[->|[->| ->]]].

Lemma fault_record_wf f domain stage code context :
  faults_wf f -> faults_wf (rbp_fault_record f domain stage code context).
Proof.
  destruct f as [recs sr ev clk u n]. intros (Hl & Hu & Hn & Hs & He & Hc). cbn in Hl, Hu, Hn, Hs, He, Hc.
  rewrite fault_record_eq by done. assert (U32 (next_serial sr)) by (unfold next_serial; split_if; words).
  split_if; unfold faults_wf; cbn; rewrite length_insert.
  - split_and!; try done; try lia. apply Forall_insert; [done|]. unfold merged. cbn.
    split; [|apply Z.le_min_l]. destruct (nth_in_or_default (Z.to_nat ((n + 4 - 1) mod 4)) recs fault0) as [Hin| ->]; [|done].
    rewrite List.Forall_forall in Hc. specialize (Hc _ Hin). lia.
  - split_and!; try done; try (split_if; words); try words. by apply Forall_insert.
Qed.

(** The ring as its contents. *)
Lemma fault_record_log f domain stage code context :
  faults_wf f ->
  let '(log, s, e) := rbp_fault_snapshot f in
  rbp_fault_snapshot (rbp_fault_record f domain stage code context) =
    (log_record log (next_serial s) (clock_ms f) domain stage code context, next_serial s,
     if log_evicts log domain stage code context then Z.min UINT32_MAX (e + 1) else e).
Proof.
  destruct f as [recs sr ev clk u n]. intros (Hl & Hu & Hn & Hs & He & Hc). cbn in Hl, Hu, Hn, Hs, He, Hc.
  rewrite fault_record_eq by done. destruct recs as [|a [|b [|c [|d [|]]]]]; try done.
  assert (Z.min UINT32_MAX (ev + 1) = if negb (ev =? UINT32_MAX) then ev + 1 else ev) as Hev
    by (symmetry; apply saturate; words).
  unfold log_record, log_evicts, rbp_fault_snapshot. cbn [evictions serial clock_ms]. rewrite Hev. generalize (next_serial sr). intros sq.
  fault_cases u n Hu Hn; lazy -[same_fault merged]; try done; by destruct (same_fault _ _ _ _ _).
Qed.

(** ** Properties *)

(** Recording a fault acts on the snapshot as an append to a log of the four
    newest distinct runs: a repetition of the newest fault bumps its count
    (saturating) and refreshes its sequence and time; a new one is appended,
    evicting the oldest when the log is full; the serial number skips zero. *)
Theorem fault_log_refinement f domain stage code context :
  faults_wf f ->
  let f' := rbp_fault_record f domain stage code context in
  faults_wf f' /\
  let '(log, s, e) := rbp_fault_snapshot f in
  rbp_fault_snapshot f' =
    (log_record log (next_serial s) (clock_ms f) domain stage code context, next_serial s,
     if log_evicts log domain stage code context then Z.min UINT32_MAX (e + 1) else e).
Proof. intros H. split; [by apply fault_record_wf|by apply fault_record_log]. Qed.
Lemma fault_log_refinement_witness :
  let f' := rbp_fault_record faults_init 7 1 2 3 in
  faults_wf f' /\ rbp_fault_snapshot f' = ([Fault 1 7 1 2 3 1 0], 1, 0).
Proof. apply (fault_log_refinement faults_init 7 1 2 3). by apply (bool_decide_unpack _). Defined.
