(* ===== verification/ServerState.v ===== *)
(** * Server state

    The types of rbp_server.h and rbp_server.c: the server structure with its
    queues, the environment it is wired to (radio backend, store, transport,
    randomness) and the state monad its functions run in.

    Buffer sizes are the defaults of rbp_server.c. *)
From S2P Require Import Prelude Defs Ring Frame Tlv DeviceModel Faults.

(** ** Capacities and times *)
Definition OUT_RING_SIZE : Z := 2048.
Definition AUDIO_POOL_SIZE : Z := 2048.
Definition CTL_SLOTS : Z := 6.
Definition MEDIA_DEPTH : Z := 16.
Definition RBP_CTL_BYTES : Z := CTL_SLOTS * RBP_MAX_PAYLOAD.
Definition HEARTBEAT_TIMEOUT_MS : Z := 5000.
Definition CANDIDATE_TTL_MS : Z := 60000.
Definition PAIR_DEADLINE_MS : Z := 60000.
Definition FORGET_DEADLINE_MS : Z := 5000.
Definition VOICE_STOP_MS : Z := 2000.
Definition VOICE_FIRST_AUDIO_MS : Z := 5000.
Definition VOICE_PROGRESS_MS : Z := 2000.
Definition CTL_FLUSH_BURST : Z := 4.
Definition OPK_PAIR : Z := 1.
Definition OPK_FORGET : Z := 2.
#[export] Hint Unfold OUT_RING_SIZE AUDIO_POOL_SIZE CTL_SLOTS MEDIA_DEPTH RBP_CTL_BYTES
  HEARTBEAT_TIMEOUT_MS CANDIDATE_TTL_MS CTL_FLUSH_BURST : sizes.

(** ** Data *)
Record ctl_slot_t := CtlSlot {
  cs_used : bool; cs_kind : Z; cs_status : Z; cs_opcode : Z; cs_request_id : Z;
  cs_connection_id : Z; cs_session : Z; cs_len : Z; cs_offset : Z; cs_order : Z }.
#[export] Instance eta_ctl_slot : Eta ctl_slot_t := fun c =>
  CtlSlot (cs_used c) (cs_kind c) (cs_status c) (cs_opcode c) (cs_request_id c)
    (cs_connection_id c) (cs_session c) (cs_len c) (cs_offset c) (cs_order c).
Definition ctl_slot0 : ctl_slot_t := CtlSlot false 0 0 0 0 0 0 0 0 0.
Record media_marker_t := MediaMarker {
  mm_stream : Z; mm_connection : Z; mm_order : Z; mm_opcode : Z; mm_len : Z }.
Definition media_marker0 : media_marker_t := MediaMarker 0 0 0 0 0.
Record key_item_t := KeyItem { ki_used : bool; ki_buf : list Z; ki_order : Z; ki_connection : Z }.
#[export] Instance eta_key_item : Eta key_item_t := fun k =>
  KeyItem (ki_used k) (ki_buf k) (ki_order k) (ki_connection k).
Definition key_item0 : key_item_t := KeyItem false (replicate 24 0) 0 0.
Record op_result_t := OpResult {
  or_used : bool; or_op_id : Z; or_result : Z; or_peer_id : Z; or_connection_id : Z;
  or_uncertain : bool }.
Definition op_result0 : op_result_t := OpResult false 0 0 0 0 false.

(** Strings in fixed arrays are the bytes before the terminator. *)
Record rbp_peer_record_t := PeerRecord {
  pr_peer_id : Z; pr_name : list Z; pr_auto_reconnect : bool }.
#[export] Instance eta_peer_record : Eta rbp_peer_record_t := fun p =>
  PeerRecord (pr_peer_id p) (pr_name p) (pr_auto_reconnect p).
Definition peer_record0 : rbp_peer_record_t := PeerRecord 0 [] false.
(** [cd_name] is the whole 48-byte array: FIND_LIST copies [name_len] bytes of it. *)
Record rbp_candidate_t := Candidate {
  cd_candidate_id : Z; cd_support : Z; cd_signal : Z; cd_name : list Z; cd_name_len : Z }.
#[export] Instance eta_candidate : Eta rbp_candidate_t := fun c =>
  Candidate (cd_candidate_id c) (cd_support c) (cd_signal c) (cd_name c) (cd_name_len c).
Definition candidate0 : rbp_candidate_t := Candidate 0 0 0 (replicate 48 0) 0.

Inductive rbp_link_state_t :=
  RBP_LINK_UNBOUND | RBP_LINK_DISCONNECTED | RBP_LINK_CONNECTING | RBP_LINK_PAIRING |
  RBP_LINK_INITIALIZING | RBP_LINK_READY | RBP_LINK_UNSUPPORTED | RBP_LINK_ERROR.
#[export] Instance rbp_link_state_eq_dec : EqDecision rbp_link_state_t.
Proof. solve_decision. Defined.
(** [(uint8_t)s->link_state]. *)
Definition link_code (l : rbp_link_state_t) : Z :=
  match l with
  | RBP_LINK_UNBOUND => 0 | RBP_LINK_DISCONNECTED => 1 | RBP_LINK_CONNECTING => 2
  | RBP_LINK_PAIRING => 3 | RBP_LINK_INITIALIZING => 4 | RBP_LINK_READY => 5
  | RBP_LINK_UNSUPPORTED => 6 | RBP_LINK_ERROR => 7
  end.

Record rbp_codec_t := Codec { codec_id : Z; codec_revision : Z }.
Record rbp_audio_caps_t := AudioCaps { ac_codecs : list rbp_codec_t; ac_max_unit_bytes : Z; ac_count : Z }.
Record rbp_audio_format_t := AudioFormat {
  af_codec_id : Z; af_sample_rate : Z; af_max_unit_bytes : Z; af_codec_revision : Z;
  af_config_len : Z; af_channels : Z; af_config : option (list Z) }.
Record rbp_keys_report_t := KeysReport {
  kr_connection_id : Z; kr_kind : Z; kr_reason : Z; kr_pressed_bits : Z; kr_captured_us : Z }.
Inductive rbp_voice_evt_t :=
  | RBP_VOICE_EVT_SOURCE_BEGIN
  | RBP_VOICE_EVT_START (f : rbp_audio_format_t)
  | RBP_VOICE_EVT_ENCODED (data : option (list Z)) (len unit_size offset samples : Z)
  | RBP_VOICE_EVT_FORMAT (f : rbp_audio_format_t)
  | RBP_VOICE_EVT_FAULT (reason : Z)
  | RBP_VOICE_EVT_END (reason : Z).

(** The data of [rbp_server_cfg_t]; its function pointers are in [env]. *)
Record rbp_server_cfg_t := Cfg {
  cf_profile : option rbp_device_profile_t; cf_max_keys : Z; cf_max_capture_ms : Z;
  cf_bridge_uid : list Z; cf_firmware_version : option (list Z); cf_reset_reason : Z }.
#[export] Instance eta_cfg : Eta rbp_server_cfg_t := fun c =>
  Cfg (cf_profile c) (cf_max_keys c) (cf_max_capture_ms c) (cf_bridge_uid c)
    (cf_firmware_version c) (cf_reset_reason c).

(** The server.  [rx_ctx], the scratch context of the receive pump, is not
    kept between calls and is the event value passed to [server_rx_event]. *)
#[projections(primitive)]
Record rbp_server := Server {
  cfg : rbp_server_cfg_t; now_ms : Z; order_counter : Z;
  (* output *)
  out_ring : list Z; out_head : Z; out_len : Z;
  (* input framing *)
  rx : rbp_rxparser_t;
  (* control queue *)
  ctl : list ctl_slot_t; ctl_payload : list Z; ctl_used : Z;
  (* session *)
  session_active : bool; session_id : Z; session_counter : Z; connection_counter : Z;
  txseq : Z; last_req_ms : Z; req_hwm : Z; have_client_seq : bool; client_tx_hwm : Z;
  (* async ops *)
  op_active : bool; pair_ready_pending : bool; op_id : Z; op_kind : Z; op_deadline_ms : Z;
  op_peer_id : Z; op_connection_id : Z; ops_done : list op_result_t; ops_done_head : Z;
  ops_done_count : Z;
  (* find *)
  find_active : bool; find_valid : bool; search_id : Z; find_end_ms : Z;
  cand : list rbp_candidate_t; cand_count : Z;
  (* prompt *)
  prompt_active : bool; pair_cancel_requested : bool; prompt_id : Z; prompt_method : Z;
  prompt_number : Z; prompt_expiry_ms : Z;
  (* device model *)
  link_state : rbp_link_state_t; connection_id : Z; peer : rbp_peer_record_t;
  peer_valid : bool; battery : Z; charging : Z; voice_state : Z; voice_interaction : Z;
  voice_sample_rate : Z; reconnect_paused : bool; link_msg : list Z;
  (* keys *)
  events_enabled : bool; pressed_bits : Z; input_seq : Z; keys_captured_us : Z;
  key_q : list key_item_t; key_q_head : Z; key_q_count : Z;
  (* voice *)
  voice_enabled : bool; voice_denied : bool; voice_resume_peer : Z; waiting_idle : bool;
  stream_id : Z; next_stream_id : Z; frame_seq : Z; delivered_samples : Z;
  delivered_bytes : Z; source_samples : Z; source_bytes : Z; delivered_units : Z;
  delivered_epoch : Z; source_units : Z; epoch : Z; unit_offset : Z; unit_size : Z;
  unit_samples : Z; format_max_unit : Z; source_started_ms : Z;
  voice_caps : option rbp_audio_caps_t; accepted_max_unit : Z; accepted_codecs : list Z;
  accepted_len : Z; delivering : bool; ending : bool; stream_connection : Z;
  stop_requested : bool; stop_deadline_ms : Z; capture_limited : bool;
  capture_deadline_ms : Z; voice_ok_deferred : bool; voice_ok_deferred_opcode : Z;
  voice_ok_deferred_req : Z; voice_ok_deferred_conn : Z; voice_ok_deferred_is_enable : bool;
  (* encoded audio *)
  audio_pool : list Z; audio_head : Z; audio_len : Z; media_q : list media_marker_t;
  media_head : Z; media_count : Z;
  (* source tracking *)
  source_active : bool; first_audio_deadline : Z; progress_deadline : Z;
  got_audio_this_stream : bool;
  (* stats *)
  stat_protocol_errors : Z; stat_input_resets : Z; stat_voice_overruns : Z;
  stat_voice_errors : Z }.
#[export] Instance eta_server : Eta rbp_server := fun s =>
  Server (cfg s) (now_ms s) (order_counter s) (out_ring s) (out_head s) (out_len s) (rx s) (ctl s)
    (ctl_payload s) (ctl_used s) (session_active s) (session_id s) (session_counter s)
    (connection_counter s) (txseq s) (last_req_ms s) (req_hwm s) (have_client_seq s)
    (client_tx_hwm s) (op_active s) (pair_ready_pending s) (op_id s) (op_kind s)
    (op_deadline_ms s) (op_peer_id s) (op_connection_id s) (ops_done s) (ops_done_head s)
    (ops_done_count s) (find_active s) (find_valid s) (search_id s) (find_end_ms s) (cand s)
    (cand_count s) (prompt_active s) (pair_cancel_requested s) (prompt_id s) (prompt_method s)
    (prompt_number s) (prompt_expiry_ms s) (link_state s) (connection_id s) (peer s)
    (peer_valid s) (battery s) (charging s) (voice_state s) (voice_interaction s)
    (voice_sample_rate s) (reconnect_paused s) (link_msg s) (events_enabled s) (pressed_bits s)
    (input_seq s) (keys_captured_us s) (key_q s) (key_q_head s) (key_q_count s)
    (voice_enabled s) (voice_denied s) (voice_resume_peer s) (waiting_idle s) (stream_id s)
    (next_stream_id s) (frame_seq s) (delivered_samples s) (delivered_bytes s)
    (source_samples s) (source_bytes s) (delivered_units s) (delivered_epoch s) (source_units s)
    (epoch s) (unit_offset s) (unit_size s) (unit_samples s) (format_max_unit s)
    (source_started_ms s) (voice_caps s) (accepted_max_unit s) (accepted_codecs s)
    (accepted_len s) (delivering s) (ending s) (stream_connection s) (stop_requested s)
    (stop_deadline_ms s) (capture_limited s) (capture_deadline_ms s) (voice_ok_deferred s)
    (voice_ok_deferred_opcode s) (voice_ok_deferred_req s) (voice_ok_deferred_conn s)
    (voice_ok_deferred_is_enable s) (audio_pool s) (audio_head s) (audio_len s) (media_q s)
    (media_head s) (media_count s) (source_active s) (first_audio_deadline s)
    (progress_deadline s) (got_audio_this_stream s) (stat_protocol_errors s)
    (stat_input_resets s) (stat_voice_overruns s) (stat_voice_errors s).
#[export] Instance upd_cfg : Upd cfg := ltac:(solve_upd cfg).
#[export] Instance upd_now_ms : Upd now_ms := ltac:(solve_upd now_ms).
#[export] Instance upd_order_counter : Upd order_counter := ltac:(solve_upd order_counter).
#[export] Instance upd_out_ring : Upd out_ring := ltac:(solve_upd out_ring).
#[export] Instance upd_out_head : Upd out_head := ltac:(solve_upd out_head).
#[export] Instance upd_out_len : Upd out_len := ltac:(solve_upd out_len).
#[export] Instance upd_rx : Upd rx := ltac:(solve_upd rx).
#[export] Instance upd_ctl : Upd ctl := ltac:(solve_upd ctl).
#[export] Instance upd_ctl_payload : Upd ctl_payload := ltac:(solve_upd ctl_payload).
#[export] Instance upd_ctl_used : Upd ctl_used := ltac:(solve_upd ctl_used).
#[export] Instance upd_session_active : Upd session_active := ltac:(solve_upd session_active).
#[export] Instance upd_session_id : Upd session_id := ltac:(solve_upd session_id).
#[export] Instance upd_session_counter : Upd session_counter := ltac:(solve_upd session_counter).
#[export] Instance upd_connection_counter : Upd connection_counter := ltac:(solve_upd connection_counter).
#[export] Instance upd_txseq : Upd txseq := ltac:(solve_upd txseq).
#[export] Instance upd_last_req_ms : Upd last_req_ms := ltac:(solve_upd last_req_ms).
#[export] Instance upd_req_hwm : Upd req_hwm := ltac:(solve_upd req_hwm).
#[export] Instance upd_have_client_seq : Upd have_client_seq := ltac:(solve_upd have_client_seq).
#[export] Instance upd_client_tx_hwm : Upd client_tx_hwm := ltac:(solve_upd client_tx_hwm).
#[export] Instance upd_op_active : Upd op_active := ltac:(solve_upd op_active).
#[export] Instance upd_pair_ready_pending : Upd pair_ready_pending := ltac:(solve_upd pair_ready_pending).
#[export] Instance upd_op_id : Upd op_id := ltac:(solve_upd op_id).
#[export] Instance upd_op_kind : Upd op_kind := ltac:(solve_upd op_kind).
#[export] Instance upd_op_deadline_ms : Upd op_deadline_ms := ltac:(solve_upd op_deadline_ms).
#[export] Instance upd_op_peer_id : Upd op_peer_id := ltac:(solve_upd op_peer_id).
#[export] Instance upd_op_connection_id : Upd op_connection_id := ltac:(solve_upd op_connection_id).
#[export] Instance upd_ops_done : Upd ops_done := ltac:(solve_upd ops_done).
#[export] Instance upd_ops_done_head : Upd ops_done_head := ltac:(solve_upd ops_done_head).
#[export] Instance upd_ops_done_count : Upd ops_done_count := ltac:(solve_upd ops_done_count).
#[export] Instance upd_find_active : Upd find_active := ltac:(solve_upd find_active).
#[export] Instance upd_find_valid : Upd find_valid := ltac:(solve_upd find_valid).
#[export] Instance upd_search_id : Upd search_id := ltac:(solve_upd search_id).
#[export] Instance upd_find_end_ms : Upd find_end_ms := ltac:(solve_upd find_end_ms).
#[export] Instance upd_cand : Upd cand := ltac:(solve_upd cand).
#[export] Instance upd_cand_count : Upd cand_count := ltac:(solve_upd cand_count).
#[export] Instance upd_prompt_active : Upd prompt_active := ltac:(solve_upd prompt_active).
#[export] Instance upd_pair_cancel_requested : Upd pair_cancel_requested := ltac:(solve_upd pair_cancel_requested).
#[export] Instance upd_prompt_id : Upd prompt_id := ltac:(solve_upd prompt_id).
#[export] Instance upd_prompt_method : Upd prompt_method := ltac:(solve_upd prompt_method).
#[export] Instance upd_prompt_number : Upd prompt_number := ltac:(solve_upd prompt_number).
#[export] Instance upd_prompt_expiry_ms : Upd prompt_expiry_ms := ltac:(solve_upd prompt_expiry_ms).
#[export] Instance upd_link_state : Upd link_state := ltac:(solve_upd link_state).
#[export] Instance upd_connection_id : Upd connection_id := ltac:(solve_upd connection_id).
#[export] Instance upd_peer : Upd peer := ltac:(solve_upd peer).
#[export] Instance upd_peer_valid : Upd peer_valid := ltac:(solve_upd peer_valid).
#[export] Instance upd_battery : Upd battery := ltac:(solve_upd battery).
#[export] Instance upd_charging : Upd charging := ltac:(solve_upd charging).
#[export] Instance upd_voice_state : Upd voice_state := ltac:(solve_upd voice_state).
#[export] Instance upd_voice_interaction : Upd voice_interaction := ltac:(solve_upd voice_interaction).
#[export] Instance upd_voice_sample_rate : Upd voice_sample_rate := ltac:(solve_upd voice_sample_rate).
#[export] Instance upd_reconnect_paused : Upd reconnect_paused := ltac:(solve_upd reconnect_paused).
#[export] Instance upd_link_msg : Upd link_msg := ltac:(solve_upd link_msg).
#[export] Instance upd_events_enabled : Upd events_enabled := ltac:(solve_upd events_enabled).
#[export] Instance upd_pressed_bits : Upd pressed_bits := ltac:(solve_upd pressed_bits).
#[export] Instance upd_input_seq : Upd input_seq := ltac:(solve_upd input_seq).
#[export] Instance upd_keys_captured_us : Upd keys_captured_us := ltac:(solve_upd keys_captured_us).
#[export] Instance upd_key_q : Upd key_q := ltac:(solve_upd key_q).
#[export] Instance upd_key_q_head : Upd key_q_head := ltac:(solve_upd key_q_head).
#[export] Instance upd_key_q_count : Upd key_q_count := ltac:(solve_upd key_q_count).
#[export] Instance upd_voice_enabled : Upd voice_enabled := ltac:(solve_upd voice_enabled).
#[export] Instance upd_voice_denied : Upd voice_denied := ltac:(solve_upd voice_denied).
#[export] Instance upd_voice_resume_peer : Upd voice_resume_peer := ltac:(solve_upd voice_resume_peer).
#[export] Instance upd_waiting_idle : Upd waiting_idle := ltac:(solve_upd waiting_idle).
#[export] Instance upd_stream_id : Upd stream_id := ltac:(solve_upd stream_id).
#[export] Instance upd_next_stream_id : Upd next_stream_id := ltac:(solve_upd next_stream_id).
#[export] Instance upd_frame_seq : Upd frame_seq := ltac:(solve_upd frame_seq).
#[export] Instance upd_delivered_samples : Upd delivered_samples := ltac:(solve_upd delivered_samples).
#[export] Instance upd_delivered_bytes : Upd delivered_bytes := ltac:(solve_upd delivered_bytes).
#[export] Instance upd_source_samples : Upd source_samples := ltac:(solve_upd source_samples).
#[export] Instance upd_source_bytes : Upd source_bytes := ltac:(solve_upd source_bytes).
#[export] Instance upd_delivered_units : Upd delivered_units := ltac:(solve_upd delivered_units).
#[export] Instance upd_delivered_epoch : Upd delivered_epoch := ltac:(solve_upd delivered_epoch).
#[export] Instance upd_source_units : Upd source_units := ltac:(solve_upd source_units).
#[export] Instance upd_epoch : Upd epoch := ltac:(solve_upd epoch).
#[export] Instance upd_unit_offset : Upd unit_offset := ltac:(solve_upd unit_offset).
#[export] Instance upd_unit_size : Upd unit_size := ltac:(solve_upd unit_size).
#[export] Instance upd_unit_samples : Upd unit_samples := ltac:(solve_upd unit_samples).
#[export] Instance upd_format_max_unit : Upd format_max_unit := ltac:(solve_upd format_max_unit).
#[export] Instance upd_source_started_ms : Upd source_started_ms := ltac:(solve_upd source_started_ms).
#[export] Instance upd_voice_caps : Upd voice_caps := ltac:(solve_upd voice_caps).
#[export] Instance upd_accepted_max_unit : Upd accepted_max_unit := ltac:(solve_upd accepted_max_unit).
#[export] Instance upd_accepted_codecs : Upd accepted_codecs := ltac:(solve_upd accepted_codecs).
#[export] Instance upd_accepted_len : Upd accepted_len := ltac:(solve_upd accepted_len).
#[export] Instance upd_delivering : Upd delivering := ltac:(solve_upd delivering).
#[export] Instance upd_ending : Upd ending := ltac:(solve_upd ending).
#[export] Instance upd_stream_connection : Upd stream_connection := ltac:(solve_upd stream_connection).
#[export] Instance upd_stop_requested : Upd stop_requested := ltac:(solve_upd stop_requested).
#[export] Instance upd_stop_deadline_ms : Upd stop_deadline_ms := ltac:(solve_upd stop_deadline_ms).
#[export] Instance upd_capture_limited : Upd capture_limited := ltac:(solve_upd capture_limited).
#[export] Instance upd_capture_deadline_ms : Upd capture_deadline_ms := ltac:(solve_upd capture_deadline_ms).
#[export] Instance upd_voice_ok_deferred : Upd voice_ok_deferred := ltac:(solve_upd voice_ok_deferred).
#[export] Instance upd_voice_ok_deferred_opcode : Upd voice_ok_deferred_opcode := ltac:(solve_upd voice_ok_deferred_opcode).
#[export] Instance upd_voice_ok_deferred_req : Upd voice_ok_deferred_req := ltac:(solve_upd voice_ok_deferred_req).
#[export] Instance upd_voice_ok_deferred_conn : Upd voice_ok_deferred_conn := ltac:(solve_upd voice_ok_deferred_conn).
#[export] Instance upd_voice_ok_deferred_is_enable : Upd voice_ok_deferred_is_enable := ltac:(solve_upd voice_ok_deferred_is_enable).
#[export] Instance upd_audio_pool : Upd audio_pool := ltac:(solve_upd audio_pool).
#[export] Instance upd_audio_head : Upd audio_head := ltac:(solve_upd audio_head).
#[export] Instance upd_audio_len : Upd audio_len := ltac:(solve_upd audio_len).
#[export] Instance upd_media_q : Upd media_q := ltac:(solve_upd media_q).
#[export] Instance upd_media_head : Upd media_head := ltac:(solve_upd media_head).
#[export] Instance upd_media_count : Upd media_count := ltac:(solve_upd media_count).
#[export] Instance upd_source_active : Upd source_active := ltac:(solve_upd source_active).
#[export] Instance upd_first_audio_deadline : Upd first_audio_deadline := ltac:(solve_upd first_audio_deadline).
#[export] Instance upd_progress_deadline : Upd progress_deadline := ltac:(solve_upd progress_deadline).
#[export] Instance upd_got_audio_this_stream : Upd got_audio_this_stream := ltac:(solve_upd got_audio_this_stream).
#[export] Instance upd_stat_protocol_errors : Upd stat_protocol_errors := ltac:(solve_upd stat_protocol_errors).
#[export] Instance upd_stat_input_resets : Upd stat_input_resets := ltac:(solve_upd stat_input_resets).
#[export] Instance upd_stat_voice_overruns : Upd stat_voice_overruns := ltac:(solve_upd stat_voice_overruns).
#[export] Instance upd_stat_voice_errors : Upd stat_voice_errors := ltac:(solve_upd stat_voice_errors).

(** ** Environment

    The function pointers of [rbp_server_cfg_t].  [W] is the state of the
    outside: radio, store, transport, randomness, fault log.  A backend call may
    call back into the server before it returns ("backend calls may
    synchronously report completion"), so it acts on both; [out] must not
    reenter and [voice_request_start] asks the server and only queues.  A nullable pointer is an
    option. *)
Class Env (W : Type) := {
  start_find : Z -> rbp_server * W -> Z * (rbp_server * W);
  stop_find : rbp_server * W -> rbp_server * W;
  pair_begin : Z -> rbp_server * W -> rbp_server * W;
  pair_reply : bool -> bool -> Z -> rbp_server * W -> rbp_server * W;
  pair_cancel : rbp_server * W -> rbp_server * W;
  forget_peer : rbp_server * W -> rbp_server * W;
  connect_peer : rbp_server * W -> rbp_server * W;
  disconnect : rbp_server * W -> rbp_server * W;
  voice_request_stop : rbp_server * W -> rbp_server * W;
  voice_request_start : option (rbp_server -> W -> Z * W);
  store_load : option (W -> option rbp_peer_record_t * W);
  store_save : option (rbp_peer_record_t -> W -> bool * W);
  store_clear : option (W -> bool * W);
  out : list Z -> W -> Z * W;
  rng : option (W -> Z * W);
  fault_state : W -> faults_t }.

(** ** The monad of server functions *)
Definition M (W A : Type) : Type := rbp_server * W -> A * (rbp_server * W).
Section monad.
Context {W : Type}.
Definition ret {A} (a : A) : M W A := fun σ => (a, σ).
Definition bind {A B} (m : M W A) (k : A -> M W B) : M W B :=
  fun σ => let '(a, σ) := m σ in k a σ.
Definition get : M W rbp_server := fun σ => (fst σ, σ).
Definition modify (f : rbp_server -> rbp_server) : M W unit := fun σ => (tt, (f (fst σ), snd σ)).
(** A call of a [void] function of the backend. *)
Definition call (f : rbp_server * W -> rbp_server * W) : M W unit := fun σ => (tt, f σ).
(** A call that cannot reenter the server. *)
Definition outside {A} (f : W -> A * W) : M W A :=
  fun σ => let '(a, w) := f (snd σ) in (a, (fst σ, w)).
Definition when (b : bool) (m : M W unit) : M W unit := if b then m else ret tt.
Definition exec {A} (m : M W A) (σ : rbp_server * W) : rbp_server * W := snd (m σ).
End monad.
Notation "x <- m ;; k" := (bind m (fun x => k))
  (at level 100, m at next level, right associativity) : rbp_scope.
Notation "m ;; k" := (bind m (fun _ => k)) (at level 100, right associativity) : rbp_scope.

(** Array element access with the array's zero element. *)
Definition slot_at (l : list ctl_slot_t) (i : Z) : ctl_slot_t := nth (Z.to_nat i) l ctl_slot0.
Definition key_at (l : list key_item_t) (i : Z) : key_item_t := nth (Z.to_nat i) l key_item0.
Definition media_at (l : list media_marker_t) (i : Z) : media_marker_t := nth (Z.to_nat i) l media_marker0.
Definition op_at (l : list op_result_t) (i : Z) : op_result_t := nth (Z.to_nat i) l op_result0.
Definition cand_at (l : list rbp_candidate_t) (i : Z) : rbp_candidate_t := nth (Z.to_nat i) l candidate0.
(** [l[i] = x]. *)
Definition set_at {A} (l : list A) (i : Z) (x : A) : list A := <[Z.to_nat i := x]> l.
(** The indices [0 .. n-1] of a C loop. *)
Definition upto (n : Z) : list Z := map Z.of_nat (List.seq 0 (Z.to_nat n)).
