(* ===== verification/ServerCore.v ===== *)
(** * Server core

    The session, the output ring and the three queues of rbp_server.c: control
    slots, key items and encoded media, with the scheduler [rbp_server_flush_output]
    that moves them to the output. *)
From S2P Require Import Prelude Defs Ring Frame Tlv DeviceModel Faults ServerState.

(** ** Helpers *)
Definition now_us64 (s : rbp_server) : Z := u64 (now_ms s * 1000).
Definition next_order (s : rbp_server) : Z := u32 (order_counter s + 1).
(** [copy_name] into a string field of [cap] bytes. *)
Definition copy_name (cap : Z) (src : list Z) : list Z := slice src 0 (cap - 1).
(** [copy_name] into a candidate's array: the bytes up to the terminator (or
    [cap - 1] of them) and a terminator; the rest of the array stays. *)
Fixpoint strlen (src : list Z) : Z :=
  match src with [] => 0 | b :: src => if b =? 0 then 0 else 1 + strlen src end.
Definition copy_name_array (dst src : list Z) (cap : Z) : list Z :=
  splice dst 0 (slice src 0 (Z.min (strlen src) (cap - 1)) ++ [0]).
Definition audio_u32 (p : list Z) (o : Z) : Z := get32 p o.
(** [audio_put(p, n, len)] writes the little-endian bytes of [n]. *)
Definition audio_put (n : Z) (len : nat) : list Z := le len n.
Definition sample_add (a b : Z) : Z :=
  if (a =? UINT64_MAX) || (b =? UINT32_MAX) || (UINT64_MAX - a <=? b) then UINT64_MAX else a + b.

(** ** Session *)
Definition ctl_clear (s : rbp_server) : rbp_server :=
  s <| ctl ::= map (fun c => c <| cs_used := false |>) |> <| ctl_used := 0 |>.

Definition session_stop_delivery (s : rbp_server) : rbp_server :=
  s <| delivering := false |> <| ending := false |> <| stream_id := 0 |>
    <| media_head := 0 |> <| media_count := 0 |> <| audio_head := 0 |> <| audio_len := 0 |>
    <| accepted_len := 0 |> <| accepted_max_unit := 0 |> <| voice_resume_peer := 0 |>
    <| voice_ok_deferred := false |> <| key_q_head := 0 |> <| key_q_count := 0 |>
    <| events_enabled := false |> <| voice_enabled := false |> <| voice_denied := false |>
    <| waiting_idle := false |> <| stop_requested := false |>.

(** The loop that keeps the remainder of one frame: the length up to and
    including the first delimiter among [n] bytes from [i] on. *)
Fixpoint truncate_out (n : nat) (ring : list Z) (head i len : Z) : Z :=
  match n with
  | O => len
  | S n => if znth ring ((head + i) mod OUT_RING_SIZE) =? 0 then i + 1
           else truncate_out n ring head (i + 1) len
  end.

Section core.
Context {W : Type} `{E : Env W}.

Definition rng_u32 : M W Z :=
  v <- match rng with Some f => outside f | None => ret 0 end ;;
  ret (if v =? 0 then 1 else v).

Definition request_pair_cancel : M W unit :=
  s <- get ;;
  if pair_cancel_requested s then ret tt
  else
    modify (fun s => s <| pair_cancel_requested := true |> <| prompt_active := false |>) ;;
    call pair_cancel.

(** The state changes of [session_teardown], before the backend is called. *)
Definition session_withdraw (s : rbp_server) : rbp_server :=
  let was_stopping := source_active s && stop_requested s in
  let stop_deadline := stop_deadline_ms s in
  let s := if op_kind s =? OPK_PAIR then s <| op_active := false |> else s in
  let s := s <| prompt_active := false |> <| find_active := false |>
             <| session_active := false |> <| session_id := 0 |> in
  let s := ctl_clear s in
  let s := s <| out_len := truncate_out (Z.to_nat (out_len s)) (out_ring s) (out_head s) 0 (out_len s) |> in
  let s := session_stop_delivery s in
  let s := if source_active s
           then s <| stop_requested := true |>
                  <| stop_deadline_ms := if was_stopping then stop_deadline
                                         else u32 (now_ms s + VOICE_STOP_MS) |>
           else s in
  s <| ops_done_head := 0 |> <| ops_done_count := 0 |>.

Definition session_teardown : M W unit :=
  s <- get ;;
  let cancel_pair := (op_active s && (op_kind s =? OPK_PAIR)) || prompt_active s in
  let was_finding := find_active s in
  let stop_source := (source_active s || voice_enabled s) && negb (stop_requested s) in
  modify session_withdraw ;;
  when cancel_pair request_pair_cancel ;;
  when was_finding (call stop_find) ;;
  when stop_source (call voice_request_stop).

Definition session_create : M W unit :=
  session_teardown ;;
  modify (fun s => s <| session_active := true |>) ;;
  s <- get ;;
  if session_counter s =? UINT32_MAX then modify (fun s => s <| session_active := false |>)
  else modify (fun s =>
    s <| session_counter ::= fun c => c + 1 |> <| session_id := session_counter s + 1 |>
      <| txseq := rbp_txseq_init |> <| req_hwm := 0 |> <| have_client_seq := false |>
      <| client_tx_hwm := 0 |> <| last_req_ms := now_ms s |>).

(** ** Output *)
Definition out_try_frame (h : rbp_header_t) (payload : list Z) : M W bool :=
  s <- get ;;
  let next := txseq s in
  let plen := zlen payload in
  if (next =? 0) || (next =? UINT32_MAX) then session_teardown ;; ret false
  else if OUT_RING_SIZE - out_len s <? RBP_HEADER_SIZE + plen + 6 then ret false
  else
    let '(next, tmp) := rbp_frame_encode h next (Some payload) plen in
    let n := zlen tmp in
    if n =? 0 then ret false
    else if OUT_RING_SIZE - out_len s <? n then ret false
    else
      modify (fun s =>
        match ring_write (out_ring s) OUT_RING_SIZE (out_head s) (out_len s) tmp with
        | Some (ring, len) => s <| out_ring := ring |> <| out_len := len |>
        | None => s
        end <| txseq := next |>) ;;
      ret true.

(** One round of [out_drain]: whether to go on. *)
Definition out_drain_round : M W bool :=
  s <- get ;;
  let chunk := if 64 <? out_len s then 64 else out_len s in
  let chunk := if OUT_RING_SIZE - out_head s <? chunk then OUT_RING_SIZE - out_head s else chunk in
  sent <- outside (out (slice (out_ring s) (out_head s) chunk)) ;;
  if sent =? 0 then ret false
  else
    modify (fun s => s <| out_head := (out_head s + sent) mod OUT_RING_SIZE |>
                       <| out_len := out_len s - sent |>) ;;
    ret (negb (sent <? chunk)).
(** Every round but the last sends at least one byte ([out_drain_enough]). *)
Fixpoint out_drain_loop (fuel : nat) : M W unit :=
  s <- get ;;
  if negb (0 <? out_len s) then ret tt
  else match fuel with
  | O => ret tt
  | S fuel => more <- out_drain_round ;; if more then out_drain_loop fuel else ret tt
  end.
Definition out_drain : M W unit := s <- get ;; out_drain_loop (Z.to_nat (out_len s)).

(** ** Control queue *)

(** The used slot with the least order, the first of them on a tie. *)
Definition ctl_best (slots : list ctl_slot_t) : option ctl_slot_t :=
  foldl (fun best sl =>
    if cs_used sl && match best with None => true | Some b => cs_order sl <? cs_order b end
    then Some sl else best) None slots.
Definition ctl_peek_order (s : rbp_server) : option Z := option_map cs_order (ctl_best (ctl s)).

(** The first slot, from index [i] on, that is used and has the order. *)
Fixpoint ctl_find (slots : list ctl_slot_t) (order i : Z) : option Z :=
  match slots with
  | [] => None
  | sl :: slots => if cs_used sl && (cs_order sl =? order) then Some i else ctl_find slots order (i + 1)
  end.
Definition ctl_header (sl : ctl_slot_t) : rbp_header_t :=
  header0 <| h_kind := cs_kind sl |> <| h_session_id := cs_session sl |>
          <| h_opcode := cs_opcode sl |> <| h_status := cs_status sl |>
          <| h_request_id := cs_request_id sl |> <| h_connection_id := cs_connection_id sl |>.
(** Frees slot [i] and closes the gap its payload leaves. *)
Definition ctl_release (s : rbp_server) (i : Z) : rbp_server :=
  let sl := slot_at (ctl s) i in
  let s := s <| ctl := set_at (ctl s) i (sl <| cs_used := false |>) |> in
  let s := s <| ctl_payload :=
    splice (ctl_payload s) (cs_offset sl)
      (slice (ctl_payload s) (cs_offset sl + cs_len sl) (ctl_used s - cs_offset sl - cs_len sl)) |> in
  let s := s <| ctl_used := u16 (ctl_used s - cs_len sl) |> in
  s <| ctl ::= map (fun c =>
    if cs_used c && (cs_offset sl + cs_len sl <=? cs_offset c)
    then c <| cs_offset := u16 (cs_offset c - cs_len sl) |> else c) |>.
Definition ctl_pop : M W bool :=
  s <- get ;;
  match ctl_peek_order s with
  | None => ret false
  | Some order =>
    match ctl_find (ctl s) order 0 with
    | None => ret false
    | Some i =>
      let sl := slot_at (ctl s) i in
      ok <- out_try_frame (ctl_header sl) (slice (ctl_payload s) (cs_offset sl) (cs_len sl)) ;;
      if negb ok then ret false
      else modify (fun s => ctl_release s i) ;; ret true
    end
  end.

Fixpoint ctl_free (slots : list ctl_slot_t) (i : Z) : option Z :=
  match slots with
  | [] => None
  | sl :: slots => if negb (cs_used sl) then Some i else ctl_free slots (i + 1)
  end.
Definition ctl_enqueue (kind opcode status request_id connection_id : Z) (payload : list Z) : M W unit :=
  s <- get ;;
  let len := zlen payload in
  match ctl_free (ctl s) 0 with
  | Some i =>
    if (RBP_MAX_PAYLOAD <? len) || (RBP_CTL_BYTES - ctl_used s <? len)
    then modify (fun s => s <| stat_protocol_errors ::= fun n => u32 (n + 1) |>) ;; session_teardown
    else modify (fun s =>
      s <| ctl := set_at (ctl s) i
             (CtlSlot true kind status opcode request_id connection_id (session_id s) len
                (ctl_used s) (next_order s)) |>
        <| order_counter := next_order s |>
        <| ctl_payload := splice (ctl_payload s) (ctl_used s) payload |>
        <| ctl_used := u16 (ctl_used s + len) |>)
  | None =>
    modify (fun s => s <| stat_protocol_errors ::= fun n => u32 (n + 1) |>) ;; session_teardown
  end.

(** ** Keys *)
Definition key_struct (seq captured_us bits kind reason : Z) : list Z :=
  le 4 seq ++ le 8 captured_us ++ le 8 bits ++ [u8 kind; u8 reason; 0; 0].
Definition key_push (s : rbp_server) (kind reason bits captured_us : Z) : rbp_server * bool :=
  if RBP_KEY_QUEUE_DEPTH <=? key_q_count s then (s, false)
  else
    let idx := u8 ((key_q_head s + key_q_count s) mod RBP_KEY_QUEUE_DEPTH) in
    (s <| key_q := set_at (key_q s) idx
            (KeyItem true (key_struct (input_seq s) captured_us bits kind reason)
               (next_order s) (connection_id s)) |>
       <| order_counter := next_order s |>
       <| key_q_count := u8 (key_q_count s + 1) |>, true).
Definition bump_input_seq (s : rbp_server) : rbp_server := s <| input_seq ::= fun n => u32 (n + 1) |>.
Definition keys_emit (kind reason bits captured_us : Z) (s : rbp_server) : rbp_server :=
  if negb (events_enabled s) then s
  else
    let '(s, ok) := key_push s kind reason bits captured_us in
    if ok then s
    else
      let s := s <| key_q_head := 0 |> <| key_q_count := 0 |>
                 <| stat_input_resets ::= fun n => u32 (n + 1) |> in
      let s := bump_input_seq s in
      let '(s, _) := key_push s RBP_KEYS_KIND_RESET RBP_KEYS_REASON_OVERFLOW 0 captured_us in
      let s := bump_input_seq s in
      let '(s, _) := key_push s RBP_KEYS_KIND_SNAPSHOT RBP_KEYS_REASON_NONE (pressed_bits s) captured_us in
      s.
Definition rbp_server_on_keys (rep : rbp_keys_report_t) (s : rbp_server) : rbp_server :=
  if kr_kind rep =? RBP_KEYS_KIND_PHYSICAL then
    let s := s <| pressed_bits := kr_pressed_bits rep |> in
    let s := bump_input_seq s in
    let s := s <| keys_captured_us := kr_captured_us rep |> in
    keys_emit RBP_KEYS_KIND_PHYSICAL (kr_reason rep) (kr_pressed_bits rep) (kr_captured_us rep) s
  else if kr_kind rep =? RBP_KEYS_KIND_RESET then
    let s := bump_input_seq s in
    let s := s <| keys_captured_us := kr_captured_us rep |> in
    let s := keys_emit RBP_KEYS_KIND_RESET (kr_reason rep) 0 (kr_captured_us rep) s in
    if negb (kr_pressed_bits rep =? 0) then
      let s := s <| pressed_bits := kr_pressed_bits rep |> in
      let s := bump_input_seq s in
      keys_emit RBP_KEYS_KIND_SNAPSHOT RBP_KEYS_REASON_NONE (kr_pressed_bits rep) (kr_captured_us rep) s
    else s <| pressed_bits := 0 |>
  else if kr_kind rep =? RBP_KEYS_KIND_SNAPSHOT then
    let s := s <| pressed_bits := kr_pressed_bits rep |> in
    let s := s <| keys_captured_us := kr_captured_us rep |> in
    keys_emit RBP_KEYS_KIND_SNAPSHOT RBP_KEYS_REASON_NONE (kr_pressed_bits rep) (kr_captured_us rep) s
  else s.
Definition keys_flush_one : M W bool :=
  s <- get ;;
  if key_q_count s =? 0 then ret false
  else
    let it := key_at (key_q s) (key_q_head s) in
    let h := header0 <| h_kind := RBP_KIND_EVENT |> <| h_session_id := session_id s |>
               <| h_opcode := RBP_OP_KEYS_STATE_EV |> <| h_connection_id := ki_connection it |> in
    ok <- out_try_frame h (ki_buf it) ;;
    if negb ok then ret false
    else
      modify (fun s =>
        s <| key_q := set_at (key_q s) (key_q_head s) (it <| ki_used := false |>) |>
          <| key_q_head := u8 ((key_q_head s + 1) mod RBP_KEY_QUEUE_DEPTH) |>
          <| key_q_count := u8 (key_q_count s - 1) |>) ;;
      ret true.

(** ** Encoded media *)
Definition audio_read (s : rbp_server) (offset len : Z) : list Z :=
  let pos := (audio_head s + offset) mod AUDIO_POOL_SIZE in
  let first := AUDIO_POOL_SIZE - pos in
  let first := if len <? first then len else first in
  slice (audio_pool s) pos first ++
    (if first <? len then slice (audio_pool s) 0 (len - first) else []).

(** The bookkeeping of a media frame that reached the output. *)
Definition media_delivered (m : media_marker_t) (payload : list Z) (s : rbp_server) : rbp_server :=
  if mm_stream m =? stream_id s then
    if mm_opcode m =? RBP_OP_VOICE_DATA then
      let s := s <| delivered_bytes ::= fun d => u64 (d + u32 (mm_len m - RBP_AUDIO_DATA_HEADER)) |> in
      if u32 (audio_u32 payload 20 + mm_len m - RBP_AUDIO_DATA_HEADER) =? audio_u32 payload 16
      then s <| delivered_units ::= fun n => u32 (n + 1) |>
             <| delivered_samples ::= fun d => sample_add d (audio_u32 payload 32) |>
      else s
    else if (mm_opcode m =? RBP_OP_VOICE_STARTED_EV) || (mm_opcode m =? RBP_OP_VOICE_FORMAT_EV)
    then s <| delivered_epoch := audio_u32 payload 12 |>
    else if mm_opcode m =? RBP_OP_VOICE_ENDED_EV
    then s <| delivering := false |> <| ending := false |> <| stream_id := 0 |>
    else s
  else s.
(** The head of the queue is consumed. *)
Definition media_advance (m : media_marker_t) (s : rbp_server) : rbp_server :=
  s <| audio_head := (audio_head s + mm_len m) mod AUDIO_POOL_SIZE |>
    <| audio_len := audio_len s - mm_len m |>
    <| media_head := u8 ((media_head s + 1) mod MEDIA_DEPTH) |>
    <| media_count := u8 (media_count s - 1) |>.
Definition media_flush_one : M W bool :=
  s <- get ;;
  if negb (session_active s) || (media_count s =? 0) then ret false
  else
    let m := media_at (media_q s) (media_head s) in
    if OUT_RING_SIZE - out_len s <? RBP_HEADER_SIZE + mm_len m + 6 then ret false
    else
      let payload := audio_read s 0 (mm_len m) in
      let h := header0 <| h_kind := if mm_opcode m =? RBP_OP_VOICE_DATA then RBP_KIND_AUDIO else RBP_KIND_EVENT |>
                 <| h_opcode := mm_opcode m |> <| h_session_id := session_id s |>
                 <| h_connection_id := mm_connection m |> in
      ok <- out_try_frame h payload ;;
      if negb ok then ret false
      else
        modify (media_delivered m payload) ;;
        modify (media_advance m) ;;
        ret true.

(** ** Scheduler *)
Inductive queue_t := QCtl | QKey | QMedia.
(** The choice among the heads of the queues: the least order wins, a control
    burst yields to keys and media; whether the control quota is charged. *)
Definition flush_pick (s : rbp_server) (ctl_sent : Z) : option (queue_t * bool) :=
  let has_ctl := found (ctl_peek_order s) in
  let ctl_o := default 0 (ctl_peek_order s) in
  let has_key := 0 <? key_q_count s in
  let has_media := 0 <? media_count s in
  if negb has_ctl && negb has_key && negb has_media then None
  else
    let key_o := if has_key then ki_order (key_at (key_q s) (key_q_head s)) else 0 in
    let media_o := if has_media then mm_order (media_at (media_q s) (media_head s)) else 0 in
    let '(min_o, q) := if has_ctl then (ctl_o, QCtl) else (0, QMedia) in
    let '(min_o, q) := if has_key && ((min_o =? 0) || (key_o <? min_o)) then (key_o, QKey) else (min_o, q) in
    let '(min_o, q) := if has_media && ((min_o =? 0) || (media_o <? min_o)) then (media_o, QMedia) else (min_o, q) in
    match q with
    | QCtl =>
      if (CTL_FLUSH_BURST <=? ctl_sent) && (has_key || has_media)
      then Some (if has_key && (negb has_media || (key_o <=? media_o)) then QKey else QMedia, false)
      else Some (QCtl, true)
    | q => Some (q, false)
    end.
Definition flush_one (q : queue_t) : M W bool :=
  match q with QCtl => ctl_pop | QKey => keys_flush_one | QMedia => media_flush_one end.
(** Every round but the last takes one item from a queue ([flush_enough]). *)
Fixpoint flush_loop (fuel : nat) (ctl_sent : Z) : M W unit :=
  s <- get ;;
  match flush_pick s ctl_sent with
  | None => ret tt
  | Some (q, charged) =>
    match fuel with
    | O => ret tt
    | S fuel =>
      ok <- flush_one q ;;
      if ok then flush_loop fuel (if charged then u8 (ctl_sent + 1) else ctl_sent) else ret tt
    end
  end.
(** At most [CTL_SLOTS + RBP_KEY_QUEUE_DEPTH + MEDIA_DEPTH] items are queued. *)
Definition flush_fuel : nat := 31.
Definition rbp_server_flush_output : M W unit :=
  out_drain ;; flush_loop flush_fuel 0 ;; out_drain.

Definition media_full (s : rbp_server) (len : Z) : bool :=
  (MEDIA_DEPTH <=? media_count s) || (AUDIO_POOL_SIZE - audio_len s <? len).
(** The marker and its payload are appended. *)
Definition media_append (op : Z) (p : list Z) (s : rbp_server) : rbp_server :=
  let idx := (media_head s + media_count s) mod MEDIA_DEPTH in
  let s := s <| media_q := set_at (media_q s) idx
                  (MediaMarker (stream_id s) (stream_connection s) (next_order s) op (zlen p)) |>
             <| order_counter := next_order s |> in
  let s := match ring_write (audio_pool s) AUDIO_POOL_SIZE (audio_head s) (audio_len s) p with
           | Some (pool, len) => s <| audio_pool := pool |> <| audio_len := len |>
           | None => s
           end in
  s <| media_count := u8 (media_count s + 1) |>.
Definition media_enqueue (op : Z) (p : list Z) : M W bool :=
  s <- get ;;
  when (media_full s (zlen p)) rbp_server_flush_output ;;
  s <- get ;;
  if negb (session_active s) || media_full s (zlen p) then ret false
  else modify (media_append op p) ;; ret true.

(** Compaction: the loop over the queued markers, with the read and write
    positions in the pool and the number of markers kept. *)
Definition media_discard_step (st : rbp_server * (Z * Z * Z)) (i : Z) : rbp_server * (Z * Z * Z) :=
  let '(s, (read, write, kept)) := st in
  let m := media_at (media_q s) ((media_head s + i) mod MEDIA_DEPTH) in
  let payload := audio_read s read (mm_len m) in
  let read := read + mm_len m in
  if (mm_stream m =? stream_id s) && negb (mm_opcode m =? RBP_OP_VOICE_STARTED_EV)
  then (s, (read, write, kept))
  else
    let '(s, write) :=
      match ring_write (audio_pool s) AUDIO_POOL_SIZE (audio_head s) write payload with
      | Some (pool, len) => (s <| audio_pool := pool |>, len)
      | None => (s, write)
      end in
    (s <| media_q := set_at (media_q s) ((media_head s + kept) mod MEDIA_DEPTH) m |>,
     (read, write, kept + 1)).
Definition media_discard_current (s : rbp_server) : rbp_server :=
  let '(s, (_, write, kept)) := foldl media_discard_step (s, (0, 0, 0)) (upto (media_count s)) in
  s <| media_count := u8 kept |> <| audio_len := write |>.

(** ** Device information *)
Definition device_info_tlv (s : rbp_server) : rbp_tlv_writer_t :=
  let p := if bool_decide (link_state s = RBP_LINK_READY) then cf_profile (cfg s) else None in
  let w := rbp_tlv_writer_init in
  let '(w, _) := rbp_tlv_put_u32 w 1 (connection_id s) in
  let '(w, _) := rbp_tlv_put_u32 w 2 (if peer_valid s then pr_peer_id (peer s) else 0) in
  let '(w, _) := rbp_tlv_put_u8 w 3 (link_code (link_state s)) in
  let '(w, _) := rbp_tlv_put_text w 4 (match p with Some p => model_id p | None => [] end) in
  let '(w, _) := rbp_tlv_put_text w 5
    (match p with Some p => display_name p | None => if peer_valid s then pr_name (peer s) else [] end) in
  let '(w, _) := rbp_tlv_put_u32 w 6 (match p with Some p => catalog_revision p | None => 0 end) in
  let '(w, _) := rbp_tlv_put_u8 w 7 (match p with Some p => key_count p | None => 0 end) in
  let '(w, _) := rbp_tlv_put_u8 w 8 (voice_state s) in
  let '(w, _) := rbp_tlv_put_u32 w 9 (if voice_state s =? RBP_VOICE_READY then voice_sample_rate s else 0) in
  let '(w, _) := rbp_tlv_put_u8 w 10 (battery s) in
  let '(w, _) := rbp_tlv_put_u8 w 11 (charging s) in
  let '(w, _) := rbp_tlv_put_bool w 12 (voice_enabled s) in
  let '(w, _) := rbp_tlv_put_bool w 13 (delivering s) in
  let '(w, _) := rbp_tlv_put_u32 w 14 (if delivering s then stream_id s else 0) in
  let '(w, _) := rbp_tlv_put_bool w 15 (waiting_idle s) in
  let '(w, _) := rbp_tlv_put_u16 w 16
    (if bool_decide (link_state s = RBP_LINK_ERROR) || (voice_state s =? RBP_VOICE_FAILED)
     then RBP_STATUS_DEVICE_ERROR
     else if voice_state s =? RBP_VOICE_UNSUPPORTED then RBP_STATUS_VOICE_UNAVAILABLE
     else RBP_STATUS_OK) in
  let '(w, _) := match link_msg s with [] => (w, true) | m => rbp_tlv_put_text w 17 m end in
  let '(w, _) := rbp_tlv_put_u8 w 18 (voice_interaction s) in
  let '(w, _) := rbp_tlv_put_u32 w 19
    (if voice_state s =? RBP_VOICE_ABSENT then 0 else cf_max_capture_ms (cfg s)) in
  w.
Definition send_device_state (conn_ctx : Z) : M W unit :=
  s <- get ;;
  ctl_enqueue RBP_KIND_EVENT RBP_OP_DEVICE_STATE_EV 0 0 conn_ctx (w_buf (device_info_tlv s)).

(** The ring of the last completed operations. *)
Definition ops_push (r : op_result_t) (s : rbp_server) : rbp_server :=
  let idx := u8 ((ops_done_head s + ops_done_count s) mod RBP_MAX_OPERATION_RESULTS) in
  let s := if ops_done_count s <? RBP_MAX_OPERATION_RESULTS
           then s <| ops_done_count ::= fun n => u8 (n + 1) |>
           else s <| ops_done_head ::= fun n => u8 ((n + 1) mod RBP_MAX_OPERATION_RESULTS) |> in
  s <| ops_done := set_at (ops_done s) idx r |>.
(** The fields common to OPERATION events and GET_OPERATION replies. *)
Definition operation_tlv (id state result pid conn : Z) (uncertain : bool) : list Z :=
  let w := rbp_tlv_writer_init in
  let '(w, _) := rbp_tlv_put_u32 w 1 id in
  let '(w, _) := rbp_tlv_put_u8 w 2 state in
  let '(w, _) := rbp_tlv_put_u16 w 3 result in
  let '(w, _) := rbp_tlv_put_u32 w 4 pid in
  let '(w, _) := rbp_tlv_put_u32 w 5 conn in
  let '(w, _) := rbp_tlv_put_bool w 6 uncertain in
  w_buf w.
Definition op_complete (id result pid conn : Z) (uncertain : bool) : M W unit :=
  modify (ops_push (OpResult true id result pid conn uncertain)) ;;
  ctl_enqueue RBP_KIND_EVENT RBP_OP_OPERATION_EV 0 0 conn
    (operation_tlv id RBP_OPSTATE_COMPLETED result pid conn uncertain).
End core.
