(* ===== verification/CtlQueue.v ===== *)
(** * The control queue refines a list of messages

    Six slots index into one payload buffer.  The used slots, taken in the order
    of their offsets, tile the first [ctl_used] bytes of the buffer; the list of
    their messages is the abstract queue.  Enqueueing appends to it, releasing a
    slot removes its message and leaves every other one as it was. *)
From S2P Require Import Prelude Defs Ring Frame Tlv DeviceModel Faults ServerState ServerCore.

(** A queued message: the header fields of its slot and its payload. *)
Record ctl_msg := CtlMsg { cm_slot : ctl_slot_t; cm_payload : list Z }.
(** The slot with its position forgotten. *)
Definition slot_header (sl : ctl_slot_t) : ctl_slot_t := sl <| cs_offset := 0 |>.
Definition slot_msg (payload : list Z) (sl : ctl_slot_t) : ctl_msg :=
  CtlMsg (slot_header sl) (slice payload (cs_offset sl) (cs_len sl)).

(** The slots [q] occupy the bytes from [off] to [used], one after the other. *)
Fixpoint tile (slots : list ctl_slot_t) (q : list nat) (off used : Z) : Prop :=
  match q with
  | [] => off = used
  | i :: q => exists sl, slots !! i = Some sl /\ cs_offset sl = off /\
                0 <= cs_len sl <= RBP_MAX_PAYLOAD /\ tile slots q (off + cs_len sl) used
  end.
Definition ctl_tiled (slots : list ctl_slot_t) (q : list nat) (used : Z) : Prop :=
  NoDup q /\ (forall i sl, slots !! i = Some sl -> (cs_used sl = true <-> i ∈ q)) /\
  tile slots q 0 used.
Definition ctl_msgs (slots : list ctl_slot_t) (payload : list Z) (q : list nat) : list ctl_msg :=
  map (fun i => slot_msg payload (nth i slots ctl_slot0)) q.

Definition ctl_shape (slots : list ctl_slot_t) (payload : list Z) (used : Z) : Prop :=
  length slots = 6%nat /\ zlen payload = RBP_CTL_BYTES /\ 0 <= used <= RBP_CTL_BYTES.
(** The queue holds [msgs], oldest first. *)
Definition ctl_rep (s : rbp_server) (msgs : list ctl_msg) : Prop :=
  ctl_shape (ctl s) (ctl_payload s) (ctl_used s) /\
  exists q, ctl_tiled (ctl s) q (ctl_used s) /\ msgs = ctl_msgs (ctl s) (ctl_payload s) q.
Definition ctl_wf (s : rbp_server) : Prop := exists msgs, ctl_rep s msgs.

(** ** Tiles *)
Lemma tile_le slots q off used : tile slots q off used -> off <= used.
Proof.
  revert off. induction q as [|i q IH]; cbn; intros off H; [lia|].
  destruct H as (sl & _ & _ & Hl & Ht). apply IH in Ht. lia.
Qed.
Lemma tile_app slots q1 q2 off used :
  tile slots (q1 ++ q2) off used <-> exists mid, tile slots q1 off mid /\ tile slots q2 mid used.
Proof.
  revert off. induction q1 as [|i q1 IH]; cbn; intros off.
  - split; [by exists off|]. by intros (? & -> & ?).
  - split.
    + intros (sl & Hi & Ho & Hl & Ht). apply IH in Ht as (mid & H1 & H2). exists mid.
      split; [by exists sl|done].
    + intros (mid & (sl & Hi & Ho & Hl & Ht) & H2). exists sl. split; [done|]. split; [done|].
      split; [done|]. apply IH. by exists mid.
Qed.
Lemma tile_lookup slots q off used i :
  tile slots q off used -> i ∈ q ->
  exists sl, slots !! i = Some sl /\ off <= cs_offset sl /\ 0 <= cs_len sl <= RBP_MAX_PAYLOAD /\
    cs_offset sl + cs_len sl <= used.
Proof.
  intros Ht Hi. apply list_elem_of_split in Hi as (q1 & q2 & ->).
  apply tile_app in Ht as (mid & H1 & sl & Hs & Ho & Hl & H2). exists sl.
  pose proof (tile_le _ _ _ _ H1). pose proof (tile_le _ _ _ _ H2). split; [done|]. lia.
Qed.
(** Tiles depend only on the slots they mention. *)
Lemma tile_ext slots slots' q off used :
  (forall i, i ∈ q -> exists sl sl', slots !! i = Some sl /\ slots' !! i = Some sl' /\
     cs_offset sl = cs_offset sl' /\ cs_len sl = cs_len sl') ->
  tile slots q off used -> tile slots' q off used.
Proof.
  revert off. induction q as [|i q IH]; cbn; intros off H; [done|].
  intros (sl & Hi & Ho & Hl & Ht).
  destruct (H i) as (sl1 & sl' & H1 & H2 & H3 & H4); [set_solver|].
  rewrite H1 in Hi. inv Hi. exists sl'. split; [done|]. split; [done|]. rewrite <- H4.
  split; [done|]. apply IH; [|done]. intros. apply H. set_solver.
Qed.
(** The same tiles, all moved by [d]. *)
Lemma tile_shift slots slots' q off used d :
  (forall i, i ∈ q -> exists sl sl', slots !! i = Some sl /\ slots' !! i = Some sl' /\
     cs_offset sl' = cs_offset sl - d /\ cs_len sl = cs_len sl') ->
  tile slots q off used -> tile slots' q (off - d) (used - d).
Proof.
  revert off. induction q as [|i q IH]; cbn; intros off H; [lia|].
  intros (sl & Hi & Ho & Hl & Ht).
  destruct (H i) as (sl1 & sl' & H1 & H2 & H3 & H4); [set_solver|].
  rewrite H1 in Hi. inv Hi. exists sl'. split; [done|]. split; [done|]. rewrite <- H4.
  split; [done|]. replace (cs_offset sl - d + cs_len sl) with (cs_offset sl + cs_len sl - d) by lia.
  apply IH; [|done]. intros. apply H. set_solver.
Qed.

Lemma nth_slot slots i sl : slots !! i = Some sl -> nth i slots ctl_slot0 = sl.
Proof. intros H. by rewrite nth_lookup, H. Qed.

(** ** Enqueueing *)
Lemma ctl_free_spec slots k i :
  ctl_free slots k = Some i -> k <= i /\
  exists sl, slots !! Z.to_nat (i - k) = Some sl /\ cs_used sl = false.
Proof.
  revert k. induction slots as [|sl slots IH]; intros k; cbn; [done|].
  destruct (cs_used sl) eqn:E; cbn.
  - intros H. destruct (IH (k + 1) H) as (Hk & sl' & Hs & Hu). split; [lia|]. exists sl'.
    replace (Z.to_nat (i - k)) with (S (Z.to_nat (i - (k + 1)))) by lia. done.
  - intros [= ->]. split; [lia|]. exists sl. by rewrite Z.sub_diag.
Qed.
Lemma ctl_free_None slots k :
  ctl_free slots k = None <-> Forall (fun sl => cs_used sl = true) slots.
Proof.
  revert k. induction slots as [|sl slots IH]; intros k; cbn; [split; [constructor|done]|].
  destruct (cs_used sl) eqn:E; cbn.
  - rewrite IH. split; [by constructor|by inversion 1].
  - split; [done|]. inversion 1. congruence.
Qed.

Definition ctl_put (s : rbp_server) (i : Z) (sl : ctl_slot_t) (payload : list Z) : rbp_server :=
  s <| ctl := set_at (ctl s) i sl |>
    <| ctl_payload := splice (ctl_payload s) (ctl_used s) payload |>
    <| ctl_used := u16 (ctl_used s + zlen payload) |>.


Lemma ctl_msgs_ext slots slots' payload payload' q :
  (forall i, i ∈ q -> slot_msg payload (nth i slots ctl_slot0) = slot_msg payload' (nth i slots' ctl_slot0)) ->
  ctl_msgs slots payload q = ctl_msgs slots' payload' q.
Proof. intros H. apply map_ext_in. intros i Hi. apply H. by apply list_elem_of_In. Qed.

Lemma ctl_put_rep s msgs i old sl payload :
  ctl_rep s msgs -> 0 <= i -> ctl s !! Z.to_nat i = Some old -> cs_used old = false ->
  cs_used sl = true -> cs_offset sl = ctl_used s -> cs_len sl = zlen payload ->
  zlen payload <= RBP_MAX_PAYLOAD -> zlen payload <= RBP_CTL_BYTES - ctl_used s ->
  ctl_rep (ctl_put s i sl payload) (msgs ++ [CtlMsg (slot_header sl) payload]).
Proof.
  intros [(Hlen & Hpl & Hu) (q & (Hnd & Hq & Ht) & ->)] Hi Hold Hou Hus Hof Hln Hmax Hroom.
  pose proof (zlen_nonneg payload) as Hp0. set (n := Z.to_nat i) in *.
  assert (n ∉ q) as Hnq by (rewrite <- (Hq n old Hold); by rewrite Hou).
  assert (ctl s !! n <> None) as Hlt by by rewrite Hold.
  pose proof (lookup_lt_Some _ _ _ Hold) as Hn.
  assert (forall j, j ∈ q -> set_at (ctl s) i sl !! j = ctl s !! j) as Hsame.
  { intros j Hj. unfold set_at. apply list_lookup_insert_ne. intros <-. done. }
  assert (u16 (ctl_used s + zlen payload) = ctl_used s + zlen payload) as Hu16
    by (apply u16_small; unfold U16; sizes).
  split; [|exists (q ++ [n]); split].
  - cbn. rewrite Hu16. split; [unfold set_at; by rewrite length_insert|].
    split; [rewrite zlen_splice; lia|lia].
  - cbn. rewrite Hu16. split; [|split].
    + apply list.NoDup_app. split; [done|]. split; [set_solver|]. apply NoDup_singleton.
    + intros j c Hj. unfold set_at in Hj. destruct (decide (j = n)) as [->|Hne].
      * rewrite list_lookup_insert_eq in Hj by done. inv Hj. set_solver.
      * rewrite list_lookup_insert_ne in Hj by done. rewrite (Hq j c Hj). set_solver.
    + apply tile_app. exists (ctl_used s). split.
      * eapply tile_ext; [|exact Ht]. intros j Hj. destruct (tile_lookup _ _ _ _ _ Ht Hj) as (c & Hc & _).
        exists c, c. split; [done|]. rewrite Hsame by done. done.
      * cbn. exists sl. unfold set_at. rewrite list_lookup_insert_eq by done.
        split; [done|]. split; [done|]. rewrite Hln. split; [lia|done].
  - unfold ctl_msgs. cbn. rewrite map_app. f_equal.
    + apply (ctl_msgs_ext (ctl s)). intros j Hj.
      destruct (tile_lookup _ _ _ _ _ Ht Hj) as (c & Hc & Ho & Hl & Hle).
      rewrite (nth_slot _ _ _ Hc), (nth_slot _ j c) by by rewrite Hsame.
      unfold slot_msg. f_equal. symmetry. apply slice_splice_before; lia.
    + cbn. rewrite (nth_slot _ n sl) by (unfold set_at; by rewrite list_lookup_insert_eq).
      unfold slot_msg. rewrite Hof, Hln. do 2 f_equal.
      rewrite <- (Z.add_0_r (ctl_used s)) at 2.
      rewrite slice_splice_inside by lia. by rewrite slice_all.
Qed.

(** ** Releasing *)
Section release.
Context (s : rbp_server) (n : nat) (sl : ctl_slot_t) (q1 q2 : list nat).
Context (Hshape : ctl_shape (ctl s) (ctl_payload s) (ctl_used s)).
Context (Htiled : ctl_tiled (ctl s) (q1 ++ n :: q2) (ctl_used s)).
Context (Hsl : ctl s !! n = Some sl).
Let s' := ctl_release s (Z.of_nat n).
Let off := cs_offset sl.
Let len := cs_len sl.

(** The bounds of the released tile and of its neighbours. *)
Lemma release_bounds :
  0 <= off /\ 0 <= len <= RBP_MAX_PAYLOAD /\ off + len <= ctl_used s /\
  tile (ctl s) q1 0 off /\ tile (ctl s) q2 (off + len) (ctl_used s) /\ n ∉ q1 ++ q2.
Proof.
  destruct Htiled as (Hnd & _ & Ht). apply tile_app in Ht as (mid & H1 & c & Hc & Ho & Hl & H2).
  rewrite Hsl in Hc. inv Hc. pose proof (tile_le _ _ _ _ H1). pose proof (tile_le _ _ _ _ H2).
  apply list.NoDup_app in Hnd as (_ & Hd & Hn). apply list.NoDup_cons in Hn as [Hn _].
  unfold off, len. split; [lia|]. split; [done|]. split; [lia|]. split; [done|]. split; [done|]. set_solver.
Qed.

Lemma release_used : ctl_used s' = ctl_used s - len.
Proof.
  destruct release_bounds as (H0 & Hl & Hle & _). destruct Hshape as (_ & _ & Hu).
  unfold s', ctl_release, slot_at. rewrite Nat2Z.id, (nth_slot _ _ _ Hsl). cbn.
  fold len. apply u16_small. unfold U16. sizes.
Qed.
Lemma release_payload :
  ctl_payload s' = splice (ctl_payload s) off (slice (ctl_payload s) (off + len) (ctl_used s - off - len)).
Proof. unfold s', ctl_release, slot_at. by rewrite Nat2Z.id, (nth_slot _ _ _ Hsl). Qed.
(** Every other slot is kept, and moved down if it lies after the gap. *)
Lemma release_slot j c :
  j <> n -> ctl s !! j = Some c ->
  ctl s' !! j = Some (if cs_used c && (off + len <=? cs_offset c)
                      then c <| cs_offset := u16 (cs_offset c - len) |> else c).
Proof.
  intros Hj Hc. unfold s', ctl_release, slot_at. rewrite Nat2Z.id, (nth_slot _ _ _ Hsl). cbn.
  unfold set_at. rewrite Nat2Z.id. rewrite list_lookup_fmap.
  rewrite list_lookup_insert_ne by done. rewrite Hc. done.
Qed.
Lemma release_slot_n : ctl s' !! n = Some (sl <| cs_used := false |>).
Proof.
  pose proof (lookup_lt_Some _ _ _ Hsl).
  unfold s', ctl_release, slot_at. rewrite Nat2Z.id, (nth_slot _ _ _ Hsl). cbn.
  unfold set_at. rewrite Nat2Z.id, list_lookup_fmap, list_lookup_insert_eq by done. done.
Qed.
Lemma release_length : length (ctl s') = length (ctl s).
Proof.
  unfold s', ctl_release, slot_at. cbn. unfold set_at. by rewrite length_map, length_insert.
Qed.

Lemma release_used_flag j c c' :
  j <> n -> ctl s !! j = Some c -> ctl s' !! j = Some c' -> cs_used c' = cs_used c.
Proof. intros Hj Hc. rewrite (release_slot j c Hj Hc). intros [= <-]. by split_if. Qed.

(** Slots before the gap stay; slots after it move down by its length. *)
Lemma release_before j : j ∈ q1 ->
  exists c, ctl s !! j = Some c /\ ctl s' !! j = Some c /\ 0 <= cs_len c /\
    0 <= cs_offset c /\ cs_offset c + cs_len c <= off.
Proof.
  intros Hj. destruct release_bounds as (H0 & Hl & Hle & H1 & H2 & Hn).
  destruct (tile_lookup _ _ _ _ _ H1 Hj) as (c & Hc & Ho & Hcl & Hce). exists c.
  split; [done|]. split; [|lia]. rewrite (release_slot j c) by (set_solver || done).
  destruct (cs_used c && (off + len <=? cs_offset c)) eqn:E; [|done].
  assert (len = 0) as -> by lia. rewrite Z.sub_0_r. destruct Hshape as (_ & _ & Hu).
  rewrite u16_small by (unfold U16; sizes). by destruct c.
Qed.
Lemma release_after j : j ∈ q2 ->
  exists c, ctl s !! j = Some c /\ ctl s' !! j = Some (c <| cs_offset := cs_offset c - len |>) /\
    0 <= cs_len c /\ off + len <= cs_offset c /\ cs_offset c + cs_len c <= ctl_used s.
Proof.
  intros Hj. destruct release_bounds as (H0 & Hl & Hle & H1 & H2 & Hn).
  destruct (tile_lookup _ _ _ _ _ H2 Hj) as (c & Hc & Ho & Hcl & Hce). exists c.
  split; [done|]. split; [|lia]. rewrite (release_slot j c) by (set_solver || done).
  destruct Htiled as (_ & Hq & _).
  assert (cs_used c = true) as -> by (apply (Hq j c Hc); set_solver).
  destruct Hshape as (_ & _ & Hu). rewrite u16_small by (unfold U16; sizes).
  replace (off + len <=? cs_offset c) with true by lia. done.
Qed.

Lemma release_tiled : ctl_tiled (ctl s') (q1 ++ q2) (ctl_used s').
Proof.
  destruct release_bounds as (H0 & Hl & Hle & H1 & H2 & Hn). destruct Htiled as (Hnd & Hq & _).
  split; [|split].
  - apply list.NoDup_app in Hnd as (Ha & Hb & Hc). apply list.NoDup_cons in Hc as [_ Hc].
    apply list.NoDup_app. split; [done|]. split; [set_solver|done].
  - intros j c' Hc'. destruct (decide (j = n)) as [->|Hj].
    + rewrite release_slot_n in Hc'. inv Hc'. split; [done|]. intros. by destruct Hn.
    + assert (is_Some (ctl s !! j)) as [c Hc].
      { apply lookup_lt_is_Some. apply lookup_lt_Some in Hc'. by rewrite release_length in Hc'. }
      rewrite (release_used_flag j c c' Hj Hc Hc'), (Hq j c Hc). set_solver.
  - rewrite release_used. apply tile_app. exists off. split.
    + eapply tile_ext; [|exact H1]. intros j Hj.
      destruct (release_before j Hj) as (c & Hc & Hc' & _). by exists c, c.
    + replace off with (off + len - len) by lia. eapply tile_shift; [|exact H2]. intros j Hj.
      destruct (release_after j Hj) as (c & Hc & Hc' & _).
      by exists c, (c <| cs_offset := cs_offset c - len |>).
Qed.

Lemma release_msgs :
  ctl_msgs (ctl s') (ctl_payload s') (q1 ++ q2) = ctl_msgs (ctl s) (ctl_payload s) (q1 ++ q2).
Proof.
  destruct release_bounds as (H0 & Hl & Hle & H1 & H2 & Hn). destruct Hshape as (_ & Hp & Hu).
  assert (zlen (slice (ctl_payload s) (off + len) (ctl_used s - off - len)) = ctl_used s - off - len)
    as Hz by (apply zlen_slice; lia).
  apply ctl_msgs_ext. intros j Hj. apply elem_of_app in Hj as [Hj|Hj].
  - destruct (release_before j Hj) as (c & Hc & Hc' & Hlc & Hoc & Hec).
    rewrite (nth_slot _ _ _ Hc), (nth_slot _ _ _ Hc'). unfold slot_msg. f_equal.
    rewrite release_payload. apply slice_splice_before; lia.
  - destruct (release_after j Hj) as (c & Hc & Hc' & Hlc & Hoc & Hec).
    rewrite (nth_slot _ _ _ Hc), (nth_slot _ _ _ Hc'). unfold slot_msg. cbn [cs_offset cs_len upd].
    f_equal. rewrite release_payload. cbn.
    replace (cs_offset c - len) with (off + (cs_offset c - (off + len))) by lia.
    rewrite slice_splice_inside by lia. unfold slice.
    apply list_eq. intros i. destruct (decide (Z.of_nat i < cs_len c)).
    + rewrite !lookup_take_lt, !lookup_drop by lia. rewrite lookup_take_lt by lia.
      rewrite lookup_drop. f_equal. lia.
    + by rewrite !lookup_take_ge by lia.
Qed.

Lemma release_shape : ctl_shape (ctl s') (ctl_payload s') (ctl_used s').
Proof.
  destruct release_bounds as (H0 & Hl & Hle & _). destruct Hshape as (Hlen & Hp & Hu).
  split; [by rewrite release_length|]. rewrite release_used, release_payload. split; [|lia].
  rewrite zlen_splice; [done|lia|]. rewrite zlen_slice; lia.
Qed.
End release.

(** A released slot takes its message, and only that, out of the queue. *)
Lemma ctl_release_rep s msgs n sl :
  ctl_rep s msgs -> ctl s !! n = Some sl -> cs_used sl = true ->
  exists m1 m2, msgs = m1 ++ slot_msg (ctl_payload s) sl :: m2 /\
    ctl_rep (ctl_release s (Z.of_nat n)) (m1 ++ m2).
Proof.
  intros [Hsh (q & Ht & ->)] Hsl Hu. pose proof Ht as (_ & Hq & _).
  apply (Hq n sl Hsl) in Hu. apply list_elem_of_split in Hu as (q1 & q2 & ->).
  exists (ctl_msgs (ctl s) (ctl_payload s) q1), (ctl_msgs (ctl s) (ctl_payload s) q2). split.
  - unfold ctl_msgs. rewrite map_app. cbn. by rewrite (nth_slot _ _ _ Hsl).
  - split; [by apply (release_shape s n sl q1 q2)|]. exists (q1 ++ q2).
    split; [by apply (release_tiled s n sl q1 q2)|].
    rewrite (release_msgs s n sl q1 q2) by done. unfold ctl_msgs. by rewrite map_app.
Qed.

(** ** The oldest message *)
Definition least (b : option ctl_slot_t) (sl : ctl_slot_t) : option ctl_slot_t :=
  if cs_used sl && match b with None => true | Some b => cs_order sl <? cs_order b end
  then Some sl else b.
Lemma ctl_best_from slots b0 b :
  (forall c, b0 = Some c -> cs_used c = true) -> foldl least b0 slots = Some b ->
  (b0 = Some b \/ b ∈ slots) /\ cs_used b = true /\
  (forall c, (b0 = Some c \/ c ∈ slots) -> cs_used c = true -> cs_order b <= cs_order c).
Proof.
  revert b0. induction slots as [|sl slots IH]; cbn; intros b0 H0 Hf.
  { split; [by left|]. split; [by apply H0|]. intros c [Hc|Hc]; [|by apply not_elem_of_nil in Hc]. rewrite Hf in Hc. inv Hc. lia. }
  assert (forall c, least b0 sl = Some c -> cs_used c = true) as H1.
  { unfold least. intros c. destruct (cs_used sl) eqn:E; cbn; [|apply H0].
    split_if; [|apply H0]. by intros [= <-]. }
  destruct (IH _ H1 Hf) as (Hb & Hu & Hmin). split; [|split; [done|]].
  - destruct Hb as [Hb|Hb]; [|set_solver]. unfold least in Hb. split_if_in Hb; [|by left].
    inv Hb. set_solver.
  - intros c Hc Hcu.
    assert (c ∈ slots \/ exists d, least b0 sl = Some d /\ cs_order d <= cs_order c)
      as [Hin|(d & Hd & Hle)].
    { destruct Hc as [->|Hc]; [|apply elem_of_cons in Hc as [->|Hc]; [|by left]]; right; unfold least.
      - destruct (cs_used sl && (cs_order sl <? cs_order c)) eqn:E; eexists; (split; [done|]); lia.
      - rewrite Hcu. cbn. destruct b0 as [d|]; [|by exists sl].
        destruct (cs_order sl <? cs_order d) eqn:E; eexists; (split; [done|]); lia. }
    + apply Hmin; [by right|done].
    + etrans; [apply Hmin; [left; exact Hd|by apply H1]|done].
Qed.
Lemma ctl_best_Some slots b :
  ctl_best slots = Some b ->
  b ∈ slots /\ cs_used b = true /\ forall c, c ∈ slots -> cs_used c = true -> cs_order b <= cs_order c.
Proof.
  intros H. apply ctl_best_from in H as ([?|?] & ? & Hm); [done| |done].
  split; [done|]. split; [done|]. intros c Hc. apply Hm. by right.
Qed.
Lemma least_is_Some slots b : is_Some (foldl least (Some b) slots).
Proof.
  revert b. induction slots as [|sl slots IH]; intros b; cbn; [done|].
  destruct (least (Some b) sl) eqn:E; [apply IH|]. unfold least in E. by split_if_in E.
Qed.
Lemma ctl_best_None slots : ctl_best slots = None <-> forall c, c ∈ slots -> cs_used c = false.
Proof.
  change (ctl_best slots) with (foldl least None slots).
  induction slots as [|sl slots IH]; cbn; [split; [set_solver|done]|].
  unfold least at 2. destruct (cs_used sl) eqn:E; cbn.
  - destruct (least_is_Some slots sl) as [d ->]. split; [done|].
    intros H. rewrite H in E by set_solver. done.
  - rewrite IH. set_solver.
Qed.

Lemma ctl_find_Some slots order k i :
  ctl_find slots order k = Some i -> k <= i /\
  exists sl, slots !! Z.to_nat (i - k) = Some sl /\ cs_used sl = true /\ cs_order sl = order.
Proof.
  revert k. induction slots as [|sl slots IH]; intros k; cbn; [done|]. split_if.
  - intros [= ->]. split; [lia|]. exists sl. rewrite Z.sub_diag. split; [done|]. lia.
  - intros H. destruct (IH _ H) as (Hk & sl' & Hs & Hu). split; [lia|]. exists sl'.
    by replace (Z.to_nat (i - k)) with (S (Z.to_nat (i - (k + 1)))) by lia.
Qed.
Lemma ctl_find_is_Some slots order k sl :
  sl ∈ slots -> cs_used sl = true -> cs_order sl = order -> is_Some (ctl_find slots order k).
Proof.
  intros Hin Hu Ho. revert k. induction slots as [|c slots IH]; intros k; cbn; [set_solver|].
  split_if; [done|]. apply IH. apply elem_of_cons in Hin as [<-|]; [lia|done].
Qed.
(** The slot [ctl_pop] sends: used, and none used is older. *)
Lemma ctl_peek_find s order :
  ctl_peek_order s = Some order ->
  exists n sl, ctl_find (ctl s) order 0 = Some (Z.of_nat n) /\ ctl s !! n = Some sl /\
    cs_used sl = true /\ cs_order sl = order /\ slot_at (ctl s) (Z.of_nat n) = sl /\
    forall c, c ∈ ctl s -> cs_used c = true -> order <= cs_order c.
Proof.
  unfold ctl_peek_order. destruct (ctl_best (ctl s)) as [b|] eqn:Eb; [|done]. intros [= <-].
  apply ctl_best_Some in Eb as (Hin & Hu & Hmin).
  destruct (ctl_find_is_Some _ (cs_order b) 0 _ Hin Hu eq_refl) as [i Hi].
  destruct (ctl_find_Some _ _ _ _ Hi) as (H0 & sl & Hs & Hsu & Hso). rewrite Z.sub_0_r in Hs.
  exists (Z.to_nat i), sl. rewrite Z2Nat.id by done. split; [done|]. split; [done|].
  split; [done|]. split; [done|]. split; [|done]. unfold slot_at. by apply nth_slot.
Qed.

(** ** Size *)
Lemma ctl_rep_used s msgs m :
  ctl_rep s msgs -> m ∈ msgs ->
  exists c, c ∈ ctl s /\ cs_used c = true /\ cs_order c = cs_order (cm_slot m).
Proof.
  intros [_ (q & (_ & Hq & Ht) & ->)] Hm. apply list_elem_of_fmap in Hm as (i & -> & Hi).
  destruct (tile_lookup _ _ _ _ _ Ht Hi) as (c & Hc & _). exists c.
  split; [by eapply list_elem_of_lookup_2|]. split; [by apply (Hq i c Hc)|].
  by rewrite (nth_slot _ _ _ Hc).
Qed.
Definition msg_bytes (msgs : list ctl_msg) : Z := foldr (fun m n => zlen (cm_payload m) + n) 0 msgs.
Lemma tile_bytes slots payload q off used :
  tile slots q off used -> 0 <= off -> used <= zlen payload ->
  used = off + msg_bytes (ctl_msgs slots payload q) /\
  Forall (fun m => zlen (cm_payload m) <= RBP_MAX_PAYLOAD) (ctl_msgs slots payload q).
Proof.
  revert off. induction q as [|i q IH]; cbn; intros off H Ho Hu; [split; [lia|constructor]|].
  destruct H as (sl & Hi & Hof & Hl & Ht). pose proof (tile_le _ _ _ _ Ht).
  destruct (IH _ Ht ltac:(lia) Hu) as [H1 H2]. rewrite (nth_slot _ _ _ Hi).
  assert (zlen (cm_payload (slot_msg payload sl)) = cs_len sl) as Hz by (cbn; apply zlen_slice; lia).
  fold (ctl_msgs slots payload q). unfold msg_bytes in *. cbn in Hz. split; [cbn [foldr]; lia|].
  constructor; [cbn; lia|done].
Qed.
Lemma ctl_rep_bytes s msgs :
  ctl_rep s msgs ->
  ctl_used s = msg_bytes msgs /\ Forall (fun m => zlen (cm_payload m) <= RBP_MAX_PAYLOAD) msgs.
Proof.
  intros [(_ & Hp & Hu) (q & (_ & _ & Ht) & ->)]. apply (tile_bytes _ (ctl_payload s)) in Ht; [|lia..].
  destruct Ht. split; [lia|done].
Qed.
Lemma msg_bytes_le msgs :
  Forall (fun m => zlen (cm_payload m) <= RBP_MAX_PAYLOAD) msgs ->
  msg_bytes msgs <= RBP_MAX_PAYLOAD * Z.of_nat (length msgs).
Proof. induction 1; cbn [msg_bytes foldr length]; [lia|]. unfold msg_bytes in *. lia. Qed.

(** A slot is free exactly when fewer than six messages are queued. *)
Lemma ctl_rep_free s msgs :
  ctl_rep s msgs -> (length msgs <= 6)%nat /\ (ctl_free (ctl s) 0 = None <-> length msgs = 6%nat).
Proof.
  intros [(Hl & _ & _) (q & (Hnd & Hq & Ht) & ->)]. unfold ctl_msgs. rewrite length_map.
  assert (forall i, i ∈ q -> (i < 6)%nat) as Hlt.
  { intros i Hi. destruct (tile_lookup _ _ _ _ _ Ht Hi) as (c & Hc & _). apply lookup_lt_Some in Hc. lia. }
  assert (q ⊆+ List.seq 0 6) as Hsub.
  { apply NoDup_submseteq; [done|]. intros i Hi. apply elem_of_seq. specialize (Hlt i Hi). lia. }
  pose proof (submseteq_length _ _ Hsub) as Hle. cbn in Hle. split; [done|]. rewrite ctl_free_None. split.
  - intros Hall. assert (List.seq 0 6 ⊆+ q) as Hsup.
    { apply NoDup_submseteq; [apply NoDup_seq|]. intros i Hi. apply elem_of_seq in Hi.
      destruct (lookup_lt_is_Some_2 (ctl s) i ltac:(lia)) as [c Hc]. apply (Hq i c Hc).
      by eapply (Forall_lookup_1 (fun sl => cs_used sl = true)). }
    apply submseteq_length in Hsup. cbn in Hsup. lia.
  - intros H6. apply Forall_lookup_2. intros i c Hc. apply (Hq i c Hc).
    assert (q ≡ₚ List.seq 0 6) as -> by (apply submseteq_length_Permutation; [done|by rewrite H6]).
    apply elem_of_seq. apply lookup_lt_Some in Hc. lia.
Qed.

(** ** The queue in the order of its messages *)
Definition ctl_fifo (s : rbp_server) (msgs : list ctl_msg) : Prop :=
  ctl_rep s msgs /\ ascending 0 (map (fun m => cs_order (cm_slot m)) msgs) /\
  Forall (fun m => cs_order (cm_slot m) <= order_counter s) msgs /\ 0 <= order_counter s.
(** The oldest message is the one [ctl_pop] finds. *)
Lemma ctl_fifo_head s msgs n sl order :
  ctl_fifo s msgs -> ctl s !! n = Some sl -> cs_used sl = true -> cs_order sl = order ->
  (forall c, c ∈ ctl s -> cs_used c = true -> order <= cs_order c) ->
  exists msgs', msgs = slot_msg (ctl_payload s) sl :: msgs' /\ ctl_rep (ctl_release s (Z.of_nat n)) msgs'.
Proof.
  intros (Hr & Ha & _) Hn Hu Ho Hmin.
  destruct (ctl_release_rep s msgs n sl Hr Hn Hu) as (m1 & m2 & Hm & Hr').
  destruct m1 as [|m m1]; [by exists m2|]. exfalso. subst msgs.
  destruct (ctl_rep_used _ _ m Hr ltac:(set_solver)) as (c & Hc & Hcu & Hco).
  specialize (Hmin c Hc Hcu). cbn in Ha. destruct Ha as [_ Ha].
  assert (cs_order (cm_slot m) < cs_order sl); [|lia]. apply (ascending_gt _ _ Ha).
  rewrite map_app. cbn. set_solver.
Qed.
