(* ===== verification/MediaQueue.v ===== *)
(** * The media queue refines a list of records

    A ring of sixteen markers and a ring of bytes hold a list of records, each a
    marker with its payload.  Appending, taking the head and discarding the
    current stream are the list operations. *)
From S2P Require Import Prelude Defs Ring Cobs Frame Tlv DeviceModel Faults ServerState ServerCore.

Abbreviation record := (media_marker_t * list Z)%type.
Definition record_ok (r : record) : Prop :=
  mm_len (fst r) = zlen (snd r) /\ zlen (snd r) <= RBP_MAX_PAYLOAD /\
  (mm_opcode (fst r) = RBP_OP_VOICE_DATA -> RBP_AUDIO_DATA_HEADER <= zlen (snd r)).
(** The bytes the records occupy. *)
Definition record_bytes (recs : list record) : list Z := concat (map snd recs).

Definition media_rep (s : rbp_server) (recs : list record) : Prop :=
  ring_wf MEDIA_DEPTH (media_q s) (media_head s) (media_count s) /\
  ring_wf AUDIO_POOL_SIZE (audio_pool s) (audio_head s) (audio_len s) /\
  rview (media_q s) (media_head s) (media_count s) = map fst recs /\
  rview (audio_pool s) (audio_head s) (audio_len s) = record_bytes recs /\
  Forall record_ok recs.
Definition media_wf (s : rbp_server) : Prop := exists recs, media_rep s recs.

Lemma media_rep_count s recs : media_rep s recs -> media_count s = zlen recs.
Proof.
  intros (H1 & _ & Hm & _ & _). rewrite <- (zlen_rview _ _ _ _ H1), Hm.
  unfold zlen. by rewrite length_map.
Qed.
Lemma media_rep_len s recs : media_rep s recs -> audio_len s = zlen (record_bytes recs).
Proof. intros (_ & H2 & _ & Hb & _). by rewrite <- (zlen_rview _ _ _ _ H2), Hb. Qed.

(** Reading the pool is slicing the rotated array. *)
Lemma audio_read_full s off len :
  zlen (audio_pool s) = AUDIO_POOL_SIZE -> 0 <= audio_head s < AUDIO_POOL_SIZE ->
  0 <= off -> 0 <= len -> off + len <= AUDIO_POOL_SIZE ->
  audio_read s off len = slice (rview (audio_pool s) (audio_head s) AUDIO_POOL_SIZE) off len.
Proof.
  intros Hl Hh Ho Hn Hc. unfold audio_read. set (cap := AUDIO_POOL_SIZE) in *.
  assert (0 < cap) as Hcap by (unfold cap; sizes).
  assert (ring_wf cap (audio_pool s) (audio_head s) cap) as Hw by (repeat split; lia).
  set (pos := (audio_head s + off) mod cap).
  assert (0 <= pos < cap) as Hp by (apply Z.mod_pos_bound; lia).
  set (first := if len <? cap - pos then len else cap - pos).
  assert (0 <= first <= len /\ pos + first <= cap /\ (first = len \/ pos + first = cap)) as (Hf & Hf1 & Hf2)
    by (unfold first; split_if; lia).
  assert (zlen (slice (audio_pool s) pos first) = first) as Hz by (apply zlen_slice; lia).
  apply list_eq. intros i. destruct (decide (Z.of_nat i < len)) as [Hi|Hi].
  - rewrite (lookup_slice (rview _ _ _)) by lia.
    rewrite (lookup_rview cap) by (done || lia).
    rewrite Nat2Z.inj_add, Z2Nat.id by lia.
    rewrite (Z.add_assoc (audio_head s)). rewrite <- (Z.add_mod_idemp_l (audio_head s + off)) by lia.
    fold pos. rewrite (mod_wrap cap (pos + Z.of_nat i)) by lia.
    destruct (decide (Z.of_nat i < first)).
    + rewrite lookup_app_l by (unfold zlen in Hz; lia). rewrite lookup_slice by lia.
      replace (cap <=? pos + Z.of_nat i) with false by lia. f_equal. lia.
    + rewrite lookup_app_r by (unfold zlen in Hz; lia).
      replace (first <? len) with true by lia. rewrite lookup_slice by (unfold zlen in Hz; lia).
      replace (cap <=? pos + Z.of_nat i) with true by lia. f_equal. unfold zlen in Hz. lia.
  - rewrite (lookup_slice_ge (rview _ _ _)) by lia. apply lookup_ge_None.
    rewrite length_app. split_if.
    + pose proof (zlen_slice (audio_pool s) 0 (len - first)). unfold zlen in *. lia.
    + unfold zlen in Hz. cbn. lia.
Qed.

(** Inside the queued bytes, it is slicing the view. *)
Lemma audio_read_view s recs off len :
  media_rep s recs -> 0 <= off -> 0 <= len -> off + len <= audio_len s ->
  audio_read s off len = slice (record_bytes recs) off len.
Proof.
  intros (_ & Hw & _ & Hb & _) Ho Hn Hc. pose proof Hw as (Hl & Hh & Hal).
  rewrite audio_read_full by lia. rewrite <- Hb.
  rewrite (rview_take AUDIO_POOL_SIZE _ _ AUDIO_POOL_SIZE (audio_len s)) by (repeat split; lia).
  unfold slice. apply list_eq. intros i. destruct (decide (Z.of_nat i < len)).
  - rewrite !lookup_take_lt, !lookup_drop by lia. by rewrite lookup_take_lt by lia.
  - by rewrite !lookup_take_ge by lia.
Qed.

(** ** Appending *)
Lemma media_append_rep s recs op p :
  media_rep s recs -> media_full s (zlen p) = false -> zlen p <= RBP_MAX_PAYLOAD ->
  (op = RBP_OP_VOICE_DATA -> RBP_AUDIO_DATA_HEADER <= zlen p) ->
  media_rep (media_append op p s)
    (recs ++ [(MediaMarker (stream_id s) (stream_connection s) (next_order s) op (zlen p), p)]).
Proof.
  intros (Hq & Ha & Hm & Hb & Hok) Hfull Hp Hd. unfold media_full in Hfull.
  set (m := MediaMarker _ _ _ _ _). unfold media_append. fold m.
  destruct (ring_push MEDIA_DEPTH _ _ _ m Hq ltac:(lia)) as [Hq' Hv'].
  cbn [audio_pool audio_head audio_len upd].
  destruct (ring_write (audio_pool s) AUDIO_POOL_SIZE (audio_head s) (audio_len s) p)
    as [[pool len]|] eqn:E.
  2: { apply ring_write_None in E. lia. }
  change (ring_write (audio_pool s) AUDIO_POOL_SIZE (audio_head s) (audio_len s) p = Some (pool, len)) in E.
  destruct (ring_write_view _ _ _ _ _ _ _ Ha E) as (Ha' & Hlen & Hb').
  assert (u8 (media_count s + 1) = media_count s + 1) as Hu.
  { apply u8_small. destruct Hq as (_ & _ & ?). unfold Byte. sizes. }
  cbn. rewrite E. unfold media_rep. cbn. unfold set_at. rewrite Hu.
  split; [exact Hq'|]. split; [exact Ha'|]. split; [by rewrite Hv', Hm, map_app|].
  split; [unfold record_bytes; rewrite Hb', Hb, map_app, concat_app; cbn; by rewrite app_nil_r|].
  apply Forall_app. split; [done|]. apply Forall_singleton. split; [done|]. by split.
Qed.

(** ** The head *)
Lemma media_head_rep s m p recs :
  media_rep s ((m, p) :: recs) ->
  media_at (media_q s) (media_head s) = m /\ audio_read s 0 (mm_len m) = p.
Proof.
  intros Hr. pose proof Hr as (Hq & Ha & Hm & Hb & Hok).
  apply Forall_cons_1 in Hok as [(Hl & Hp & _) _]. cbn in Hl, Hp.
  pose proof (media_rep_count _ _ Hr) as Hc. rewrite zlen_cons in Hc. pose proof (zlen_nonneg recs).
  pose proof (media_rep_len _ _ Hr) as Hlen. unfold record_bytes in Hlen. cbn in Hlen.
  rewrite zlen_app in Hlen. fold (record_bytes recs) in Hlen. pose proof (zlen_nonneg (record_bytes recs)).
  pose proof (zlen_nonneg p).
  split.
  - pose proof (lookup_rview _ _ _ _ 0 Hq ltac:(lia)) as H2. rewrite Hm in H2. cbn in H2.
    rewrite Z.add_0_r, Z.mod_small in H2 by (destruct Hq as (_ & ? & _); lia).
    unfold media_at. rewrite nth_lookup. by rewrite <- H2.
  - rewrite (audio_read_view _ _ _ _ Hr) by lia. unfold record_bytes. cbn.
    rewrite Hl. unfold slice, zlen. by rewrite Nat2Z.id, drop_0, take_app_length.
Qed.

Lemma media_advance_rep s m p recs :
  media_rep s ((m, p) :: recs) -> media_rep (media_advance m s) recs.
Proof.
  intros Hr. pose proof Hr as (Hq & Ha & Hm & Hb & Hok).
  apply Forall_cons_1 in Hok as [(Hl & Hp & _) Hok]. cbn in Hl, Hp.
  pose proof (media_rep_count _ _ Hr) as Hc. rewrite zlen_cons in Hc. pose proof (zlen_nonneg recs).
  pose proof (media_rep_len _ _ Hr) as Hlen. unfold record_bytes in Hlen. cbn in Hlen.
  rewrite zlen_app in Hlen. fold (record_bytes recs) in Hlen. pose proof (zlen_nonneg (record_bytes recs)).
  pose proof (zlen_nonneg p).
  destruct (rview_advance MEDIA_DEPTH (media_q s) (media_head s) (media_count s) 1 Hq ltac:(lia)) as [Hq' Hv'].
  destruct (rview_advance AUDIO_POOL_SIZE (audio_pool s) (audio_head s) (audio_len s) (mm_len m) Ha ltac:(lia)) as [Ha' Hb'].
  assert (u8 (media_count s - 1) = media_count s - 1) as Hu1.
  { apply u8_small. destruct Hq as (_ & _ & ?). unfold Byte. sizes. }
  assert (u8 ((media_head s + 1) mod MEDIA_DEPTH) = (media_head s + 1) mod MEDIA_DEPTH) as Hu2.
  { apply u8_small. destruct Hq' as (_ & ? & _). unfold Byte. sizes. }
  unfold media_rep, media_advance. cbn. rewrite Hu1, Hu2.
  split; [exact Hq'|]. split; [exact Ha'|]. split; [by rewrite Hv', Hm|].
  split; [|done]. rewrite Hb', Hb, Hl. unfold record_bytes, zlen. cbn.
  by rewrite Nat2Z.id, drop_app_length.
Qed.

(** ** Discarding the current stream *)

(** What [media_discard_current] keeps: other streams, and the START of this one. *)
Definition keep_record (stream : Z) (r : record) : bool :=
  negb ((mm_stream (fst r) =? stream) && negb (mm_opcode (fst r) =? RBP_OP_VOICE_STARTED_EV)).
Definition kept (stream : Z) (recs : list record) : list record := List.filter (keep_record stream) recs.

Section discard.
Context (stream head ahead : Z).
Context (Hhead : 0 <= head < MEDIA_DEPTH) (Hahead : 0 <= ahead < AUDIO_POOL_SIZE).

(** The loop after the records [done], with [rest] to come: the kept records are
    compacted at the front, the rest is still in place. *)
Definition discard_inv (done_ rest : list record) (st : rbp_server * (Z * Z * Z)) : Prop :=
  let '(s, (read, write, k)) := st in
  stream_id s = stream /\ media_head s = head /\ audio_head s = ahead /\
  zlen (media_q s) = MEDIA_DEPTH /\ zlen (audio_pool s) = AUDIO_POOL_SIZE /\
  read = zlen (record_bytes done_) /\ write = zlen (record_bytes (kept stream done_)) /\
  k = zlen (kept stream done_) /\
  slice (rview (audio_pool s) ahead AUDIO_POOL_SIZE) 0 write = record_bytes (kept stream done_) /\
  slice (rview (audio_pool s) ahead AUDIO_POOL_SIZE) read (zlen (record_bytes rest)) = record_bytes rest /\
  slice (rview (media_q s) head MEDIA_DEPTH) 0 k = map fst (kept stream done_) /\
  slice (rview (media_q s) head MEDIA_DEPTH) (zlen done_) (zlen rest) = map fst rest.

Lemma kept_snoc recs r :
  kept stream (recs ++ [r]) = kept stream recs ++ (if keep_record stream r then [r] else []).
Proof. unfold kept. rewrite List.filter_app. cbn. by split_if. Qed.
Lemma kept_zlen recs : zlen (kept stream recs) <= zlen recs.
Proof. unfold zlen, kept. pose proof (List.filter_length_le (keep_record stream) recs). lia. Qed.
Lemma record_bytes_app l k : record_bytes (l ++ k) = record_bytes l ++ record_bytes k.
Proof. unfold record_bytes. by rewrite map_app, concat_app. Qed.
Lemma kept_bytes recs : zlen (record_bytes (kept stream recs)) <= zlen (record_bytes recs).
Proof.
  induction recs as [|r recs IH]; [done|]. unfold kept. cbn. fold (kept stream recs).
  unfold record_bytes. cbn. split_if; cbn; rewrite !zlen_app; fold (record_bytes (kept stream recs));
    fold (record_bytes recs); pose proof (zlen_nonneg (snd r)); lia.
Qed.
Lemma record_bytes_cons r recs : record_bytes (r :: recs) = snd r ++ record_bytes recs.
Proof. done. Qed.

(** The prefix and the remainder of a slice. *)
Lemma slice_app_inv {A} (l a b : list A) pos :
  0 <= pos -> slice l pos (zlen (a ++ b)) = a ++ b ->
  slice l pos (zlen a) = a /\ slice l (pos + zlen a) (zlen b) = b.
Proof.
  intros Hp H. pose proof (zlen_nonneg a). pose proof (zlen_nonneg b). rewrite zlen_app in H.
  unfold slice in *. replace (Z.to_nat (pos + zlen a)) with (Z.to_nat pos + Z.to_nat (zlen a))%nat by lia.
  rewrite <- drop_drop. remember (drop (Z.to_nat pos) l) as d. clear Heqd.
  replace (Z.to_nat (zlen a)) with (length a) by (unfold zlen; lia).
  assert (take (length a + Z.to_nat (zlen b)) d = a ++ b) as H'.
  { rewrite <- H. f_equal. unfold zlen. lia. }
  split.
  - apply (f_equal (take (length a))) in H'. rewrite take_take, take_app_length in H'.
    by rewrite Nat.min_l in H' by lia.
  - apply (f_equal (drop (length a))) in H'. rewrite drop_app_length in H'.
    rewrite <- H' at 2. rewrite skipn_firstn_comm. f_equal. lia.
Qed.

(** What the body of the loop reads: the next record, in its place. *)
Lemma discard_reads done_ r rest s write k :
  record_ok r -> zlen (record_bytes (done_ ++ r :: rest)) <= AUDIO_POOL_SIZE ->
  zlen (done_ ++ r :: rest) <= MEDIA_DEPTH ->
  discard_inv done_ (r :: rest) (s, (zlen (record_bytes done_), write, k)) ->
  media_at (media_q s) ((head + zlen done_) mod MEDIA_DEPTH) = fst r /\
  audio_read s (zlen (record_bytes done_)) (mm_len (fst r)) = snd r /\
  slice (rview (audio_pool s) ahead AUDIO_POOL_SIZE) (zlen (record_bytes (done_ ++ [r])))
    (zlen (record_bytes rest)) = record_bytes rest /\
  slice (rview (media_q s) head MEDIA_DEPTH) (zlen (done_ ++ [r])) (zlen rest) = map fst rest.
Proof.
  intros (Hlen & _) Hcap Hdep (Hs & Hmh & Hah & Hq & Hp & _ & _ & _ & _ & Hrb & _ & Hrm).
  rewrite record_bytes_app, record_bytes_cons, !zlen_app in Hcap. rewrite zlen_app, zlen_cons in Hdep.
  pose proof (zlen_nonneg (snd r)). pose proof (zlen_nonneg (record_bytes rest)). pose proof (zlen_nonneg rest).
  pose proof (zlen_nonneg (record_bytes done_)). pose proof (zlen_nonneg done_).
  rewrite record_bytes_cons in Hrb. apply slice_app_inv in Hrb as [Hpay Hrb]; [|lia].
  change (r :: rest) with ([r] ++ rest) in Hrm. rewrite map_app in Hrm.
  assert (zlen ([r] ++ rest) = zlen (map fst [r] ++ map fst rest)) as Hz
    by (rewrite !zlen_app; unfold zlen; by rewrite !length_map).
  rewrite Hz in Hrm. apply slice_app_inv in Hrm as [Hmk Hrm]; [|lia].
  replace (zlen (map fst rest)) with (zlen rest) in Hrm by (unfold zlen; by rewrite length_map).
  change (zlen (map fst [r])) with 1 in *.
  assert (ring_wf MEDIA_DEPTH (media_q s) head MEDIA_DEPTH) as Hwq by (repeat split; lia).
  split; [|split; [|split]].
  - assert (rview (media_q s) head MEDIA_DEPTH !! Z.to_nat (zlen done_) = Some (fst r)) as Hl.
    { pose proof (lookup_slice (rview (media_q s) head MEDIA_DEPTH) (zlen done_) 1 0) as Hl.
      rewrite Hmk in Hl. cbn in Hl. rewrite Nat.add_0_r in Hl. symmetry. apply Hl; lia. }
    rewrite (lookup_rview MEDIA_DEPTH) in Hl by (done || lia). rewrite Z2Nat.id in Hl by lia.
    unfold media_at. by rewrite nth_lookup, Hl.
  - rewrite audio_read_full by lia. by rewrite Hah, Hlen, Hpay.
  - rewrite record_bytes_app, zlen_app. unfold record_bytes at 2. cbn. by rewrite app_nil_r.
  - by rewrite zlen_app.
Qed.

Lemma slice_insert_before {A} (l : list A) (k : Z) x pos n :
  0 <= k < pos -> slice (<[Z.to_nat k := x]> l) pos n = slice l pos n.
Proof. intros. unfold slice. by rewrite drop_insert_lt by lia. Qed.
Lemma slice_insert_snoc {A} (l : list A) (k : Z) x :
  0 <= k < zlen l -> slice (<[Z.to_nat k := x]> l) 0 (k + 1) = slice l 0 k ++ [x].
Proof.
  intros Hk. unfold slice. rewrite !drop_0. replace (Z.to_nat (k + 1)) with (S (Z.to_nat k)) by lia.
  erewrite take_S_r by (apply list_lookup_insert_eq; unfold zlen in Hk; lia).
  by rewrite take_insert_ge by lia.
Qed.

Lemma discard_step done_ r rest st :
  record_ok r -> zlen (record_bytes (done_ ++ r :: rest)) <= AUDIO_POOL_SIZE ->
  zlen (done_ ++ r :: rest) <= MEDIA_DEPTH ->
  discard_inv done_ (r :: rest) st ->
  discard_inv (done_ ++ [r]) rest (media_discard_step st (zlen done_)).
Proof.
  destruct st as [s [[read write] k]]. intros Hok Hcap Hdep Hinv.
  pose proof Hinv as (Hs & Hmh & Hah & Hq & Hp & -> & -> & -> & Hkb & _ & Hkm & _).
  destruct (discard_reads _ _ _ _ _ _ Hok Hcap Hdep Hinv) as (Hm & Hpay & Hrb & Hrm).
  rewrite record_bytes_app, record_bytes_cons, !zlen_app in Hcap. rewrite zlen_app, zlen_cons in Hdep.
  pose proof (zlen_nonneg (snd r)). pose proof (zlen_nonneg (record_bytes rest)). pose proof (zlen_nonneg rest).
  pose proof (kept_bytes done_). pose proof (kept_zlen done_).
  pose proof (zlen_nonneg (record_bytes (kept stream done_))). pose proof (zlen_nonneg (kept stream done_)).
  assert (zlen (record_bytes (done_ ++ [r])) = zlen (record_bytes done_) + zlen (snd r)) as Hrd.
  { rewrite record_bytes_app, zlen_app. unfold record_bytes. cbn. by rewrite app_nil_r. }
  unfold media_discard_step. rewrite Hmh, Hm, Hpay, (proj1 Hok), Hs, Hah. unfold discard_inv.
  rewrite !kept_snoc. unfold keep_record.
  destruct (_ && negb _); cbn [negb]; [rewrite app_nil_r; split_and!; try done; try lia; by rewrite <- Hrd|].
  destruct (ring_write (audio_pool s) _ _ _ _) as [[pool len]|] eqn:E; [|apply ring_write_None in E; lia].
  assert (ring_wf AUDIO_POOL_SIZE (audio_pool s) ahead (zlen (record_bytes (kept stream done_)))) as Hwa
    by (repeat split; lia).
  destruct (ring_write_full _ _ _ _ _ _ _ Hwa E) as (Hpl & -> & Hfull).
  assert (zlen (rview (audio_pool s) ahead AUDIO_POOL_SIZE) = AUDIO_POOL_SIZE) as Hva
    by (eapply zlen_rview; repeat split; lia).
  assert (zlen (rview (media_q s) head MEDIA_DEPTH) = MEDIA_DEPTH) as Hvm
    by (eapply zlen_rview; repeat split; lia).
  assert (record_bytes (kept stream done_ ++ [r]) = record_bytes (kept stream done_) ++ snd r) as Hrk.
  { rewrite record_bytes_app. f_equal. unfold record_bytes. cbn. by rewrite app_nil_r. }
  cbn. unfold set_at. rewrite Hrk, map_app, !zlen_app. cbn [map].
  change (zlen [r]) with 1. rewrite Hmh, Hfull, ring_set_full by lia.
  split_and!; try done; try lia.
  - unfold zlen in *. by rewrite length_insert.
  - rewrite slice_splice_grow by lia. by rewrite Hkb.
  - rewrite slice_splice_after by lia. rewrite <- Hrd. done.
  - rewrite slice_insert_snoc by lia. by rewrite Hkm.
  - rewrite slice_insert_before by lia. rewrite <- Hrm. f_equal. by rewrite zlen_app.
Qed.

Lemma discard_loop rest done_ st :
  Forall record_ok rest -> zlen (record_bytes (done_ ++ rest)) <= AUDIO_POOL_SIZE ->
  zlen (done_ ++ rest) <= MEDIA_DEPTH -> discard_inv done_ rest st ->
  discard_inv (done_ ++ rest) []
    (foldl media_discard_step st (map Z.of_nat (List.seq (length done_) (length rest)))).
Proof.
  revert done_ st. induction rest as [|r rest IH]; intros done_ st Hok Hcap Hdep Hinv.
  { cbn. by rewrite app_nil_r. }
  apply Forall_cons_1 in Hok as [Hr Hok]. cbn [length List.seq map foldl].
  pose proof (discard_step _ _ _ _ Hr Hcap Hdep Hinv) as Hstep.
  replace (done_ ++ r :: rest) with ((done_ ++ [r]) ++ rest) in * by by rewrite <- app_assoc.
  specialize (IH (done_ ++ [r]) _ Hok Hcap Hdep Hstep).
  rewrite length_app in IH. cbn in IH. by rewrite Nat.add_1_r in IH.
Qed.
End discard.

(** Compaction keeps exactly the records of [kept], in order. *)
Lemma media_discard_rep s recs :
  media_rep s recs -> media_rep (media_discard_current s) (kept (stream_id s) recs).
Proof.
  intros Hr. pose proof (media_rep_count _ _ Hr) as Hc. pose proof (media_rep_len _ _ Hr) as Hl.
  pose proof Hr as (Hq & Ha & Hm & Hb & Hok). pose proof Hq as (Hql & Hqh & Hqc). pose proof Ha as (Hal & Hah & Hac).
  assert (discard_inv (stream_id s) (media_head s) (audio_head s) [] recs (s, (0, 0, 0))) as H0.
  { unfold discard_inv. split_and!; try done.
    - rewrite <- Hl, <- Hb. rewrite (rview_take AUDIO_POOL_SIZE _ _ AUDIO_POOL_SIZE (audio_len s)) by (repeat split; lia).
      unfold slice. by rewrite drop_0.
    - change (zlen (@nil record)) with 0. rewrite <- Hc, <- Hm.
      rewrite (rview_take MEDIA_DEPTH _ _ MEDIA_DEPTH (media_count s)) by (repeat split; lia).
      unfold slice. by rewrite drop_0. }
  apply discard_loop in H0; [|done|done|done|change ([] ++ recs) with recs; lia..].
  unfold media_discard_current, upto. rewrite Hc. unfold zlen at 1. rewrite Nat2Z.id. cbn [app length] in H0.
  destruct (foldl _ _ _) as [s' [[read write] k]].
  destruct H0 as (Hs & Hmh & Hah' & Hq' & Hp' & _ & -> & -> & Hkb & _ & Hkm & _).
  pose proof (kept_bytes (stream_id s) recs). pose proof (kept_zlen (stream_id s) recs).
  pose proof (zlen_nonneg (kept (stream_id s) recs)).
  pose proof (zlen_nonneg (record_bytes (kept (stream_id s) recs))).
  unfold media_rep. cbn. rewrite u8_small by (unfold Byte; sizes). rewrite Hmh, Hah'.
  split; [repeat split; lia|]. split; [repeat split; lia|]. split; [|split].
  - rewrite (rview_take MEDIA_DEPTH _ _ MEDIA_DEPTH) by (repeat split; lia). etrans; [|exact Hkm].
    unfold slice. by rewrite drop_0.
  - rewrite (rview_take AUDIO_POOL_SIZE _ _ AUDIO_POOL_SIZE) by (repeat split; lia). etrans; [|exact Hkb].
    unfold slice. by rewrite drop_0.
  - unfold kept. rewrite List.Forall_forall in Hok |- *. intros r Hin. apply filter_In in Hin as [Hin _]. by apply Hok.
Qed.
