(* ===== verification/ServerVoice.v ===== *)
(** * Voice delivery

    The one-stream delivery policy of rbp_server.c: acceptance of a format,
    START, FORMAT, DATA and END records, faults, and [rbp_server_on_voice] with
    the fragmentation of encoded units. *)
From S2P Require Import Prelude Defs Ring Frame Tlv DeviceModel Faults ServerState ServerCore.

(** [for (i = 0; i < len; i += 6)]. *)
Definition codec_steps (len : Z) : list Z := map (Z.mul 6) (upto ((len + 5) / 6)).
(** The 6-byte entry at [i]: id and revision. *)
Definition codec_at (p : list Z) (i : Z) : Z * Z :=
  (audio_u32 p i, u16 (Z.lor (znth p (i + 4)) (Z.shiftl (znth p (i + 5)) 8))).
Definition caps_have (c : rbp_audio_caps_t) (id rev : Z) : bool :=
  existsb (fun k => (codec_id k =? id) && (codec_revision k =? rev)) (slice (ac_codecs c) 0 (ac_count c)).
Definition codec_accepted (s : rbp_server) (f : rbp_audio_format_t) : bool :=
  match voice_caps s with
  | None => false
  | Some caps =>
    if (af_codec_id f =? 0) || (0x80000000 <=? af_codec_id f) || (af_codec_revision f =? 0) ||
       (af_sample_rate f =? 0) || (384000 <? af_sample_rate f) || (af_channels f =? 0) ||
       (8 <? af_channels f) || (RBP_AUDIO_CONFIG_MAX <? af_config_len f) ||
       (negb (af_config_len f =? 0) && bool_decide (af_config f = None)) ||
       (af_max_unit_bytes f =? 0) || (accepted_max_unit s <? af_max_unit_bytes f) ||
       (ac_max_unit_bytes caps <? af_max_unit_bytes f)
    then false
    else if negb (caps_have caps (af_codec_id f) (af_codec_revision f)) then false
    else existsb (fun i => let '(id, rev) := codec_at (accepted_codecs s) i in
                           (id =? af_codec_id f) && (rev =? af_codec_revision f))
           (codec_steps (accepted_len s))
  end.

Definition rbp_server_set_voice_caps (caps : option rbp_audio_caps_t) (s : rbp_server) : rbp_server :=
  s <| voice_caps := caps |>.

Section voice.
Context {W : Type} `{E : Env W}.

Definition ended_tlv (s : rbp_server) (reason : Z) (clear_pending : bool) : list Z :=
  let w := rbp_tlv_writer_init in
  let '(w, _) := rbp_tlv_put_u32 w 1 (stream_id s) in
  let '(w, _) := rbp_tlv_put_u8 w 2 reason in
  let '(w, _) := rbp_tlv_put_u64 w 3 (if clear_pending then delivered_bytes s else source_bytes s) in
  let '(w, _) := rbp_tlv_put_u64 w 4 (now_us64 s) in
  let '(w, _) := rbp_tlv_put_u32 w 5 (if clear_pending then delivered_units s else source_units s) in
  let '(w, _) := rbp_tlv_put_u64 w 6 (if clear_pending then delivered_samples s else source_samples s) in
  let '(w, _) := rbp_tlv_put_u32 w 7 (if clear_pending then delivered_epoch s else epoch s) in
  w_buf w.

(** The part after the early returns: END is queued and the stream retired. *)
Definition voice_end (reason : Z) (clear_pending : bool) : M W unit :=
  when clear_pending (modify media_discard_current) ;;
  s <- get ;;
  ok <- media_enqueue RBP_OP_VOICE_ENDED_EV (ended_tlv s reason clear_pending) ;;
  if negb ok then session_teardown
  else
    modify (fun s => s <| ending := true |>) ;;
    when clear_pending
      (modify (fun s => s <| delivering := false |> <| ending := false |> <| stream_id := 0 |>)).
Definition voice_finish_stream (reason : Z) (clear_pending : bool) : M W unit :=
  s <- get ;;
  if negb (delivering s) then ret tt
  else
    let broken := negb clear_pending && negb (unit_offset s =? 0) in
    let reason := if broken then RBP_END_INVALID_ENCODED_DATA else reason in
    let clear_pending := broken || clear_pending in
    if ending s && negb clear_pending then ret tt
    else voice_end reason clear_pending.

(** The capture is asked to stop, with a deadline. *)
Definition request_stop (now : Z) : M W unit :=
  modify (fun s => s <| stop_requested := true |> <| stop_deadline_ms := u32 (now + VOICE_STOP_MS) |>) ;;
  call voice_request_stop.

Definition voice_fault (reason : Z) : M W unit :=
  s <- get ;;
  let had_stream := delivering s in
  modify (fun s => s <| stat_voice_errors ::= fun n => u32 (n + 1) |>) ;;
  when (reason =? RBP_END_BUFFER_OVERRUN)
    (modify (fun s => s <| stat_voice_overruns ::= fun n => u32 (n + 1) |>)) ;;
  voice_finish_stream reason true ;;
  s <- get ;;
  when (source_active s && negb (stop_requested s)) (request_stop (now_ms s)) ;;
  when ((reason =? RBP_END_UNSUPPORTED_FORMAT) || negb had_stream)
    (modify (fun s => s <| voice_resume_peer := 0 |> <| voice_enabled := false |>
       <| voice_state := if reason =? RBP_END_UNSUPPORTED_FORMAT then RBP_VOICE_UNSUPPORTED
                         else RBP_VOICE_FAILED |>) ;;
     s <- get ;; send_device_state (connection_id s)).

Definition format_tlv (s : rbp_server) (f : rbp_audio_format_t) (start : bool) (ep : Z) : list Z :=
  let w := rbp_tlv_writer_init in
  let '(w, _) := rbp_tlv_put_u32 w 1 (stream_id s) in
  let '(w, _) := rbp_tlv_put_u32 w 2 ep in
  let '(w, _) := rbp_tlv_put_u32 w 3 (af_codec_id f) in
  let '(w, _) := rbp_tlv_put_u16 w 4 (af_codec_revision f) in
  let '(w, _) := rbp_tlv_put_u32 w 5 (af_sample_rate f) in
  let '(w, _) := rbp_tlv_put_u8 w 6 (af_channels f) in
  let '(w, _) := rbp_tlv_put_bytes w 7 (slice (default [] (af_config f)) 0 (af_config_len f)) in
  let '(w, _) := rbp_tlv_put_u32 w 8 (af_max_unit_bytes f) in
  let '(w, _) := rbp_tlv_put_u64 w 9 (source_samples s) in
  let '(w, _) := rbp_tlv_put_u64 w 10 (if start then u64 (source_started_ms s * 1000) else now_us64 s) in
  let '(w, _) := rbp_tlv_put_u32 w 11 (u32 (source_units s + 1)) in
  w_buf w.
Definition queue_format (f : rbp_audio_format_t) (start : bool) : M W bool :=
  s <- get ;;
  if negb (codec_accepted s f) then voice_fault RBP_END_UNSUPPORTED_FORMAT ;; ret false
  else if negb (unit_offset s =? 0) || (epoch s =? UINT32_MAX)
  then voice_fault RBP_END_SOURCE_DATA_LOST ;; ret false
  else
    let ep := if start then 1 else epoch s + 1 in
    ok <- media_enqueue (if start then RBP_OP_VOICE_STARTED_EV else RBP_OP_VOICE_FORMAT_EV)
            (format_tlv s f start ep) ;;
    if negb ok then ret false
    else modify (fun s => s <| epoch := ep |> <| format_max_unit := af_max_unit_bytes f |>) ;; ret true.

(** *** [rbp_server_on_voice], one definition per event *)
Definition on_voice_source_begin (now : Z) : M W unit :=
  modify (fun s =>
    s <| source_active := true |> <| source_started_ms := now |> <| got_audio_this_stream := false |>
      <| first_audio_deadline := u32 (now + VOICE_FIRST_AUDIO_MS) |>
      <| progress_deadline := u32 (now + VOICE_PROGRESS_MS) |>
      <| capture_deadline_ms := u32 (now + cf_max_capture_ms (cfg s)) |>
      <| stop_requested := false |> <| capture_limited := false |>).

(** The identity and counters of a new stream. *)
Definition open_stream (s : rbp_server) : rbp_server :=
  s <| next_stream_id := next_stream_id s + 1 |> <| stream_id := next_stream_id s + 1 |>
    <| stream_connection := connection_id s |> <| frame_seq := 0 |> <| epoch := 0 |>
    <| source_units := 0 |> <| delivered_units := 0 |> <| unit_offset := 0 |>
    <| source_bytes := 0 |> <| delivered_bytes := 0 |> <| source_samples := 0 |>
    <| delivered_samples := 0 |> <| delivered_epoch := 1 |> <| delivering := true |>
    <| ending := false |>.
Definition on_voice_start (f : rbp_audio_format_t) (now : Z) : M W unit :=
  modify (fun s => s <| voice_sample_rate := af_sample_rate f |>) ;;
  s <- get ;;
  if negb (source_active s) then voice_fault RBP_END_INVALID_ENCODED_DATA
  else if negb (voice_enabled s) || negb (session_active s) || waiting_idle s then request_stop now
  else
    when (delivering s)
      (modify (fun s => s <| stat_voice_overruns ::= fun n => u32 (n + 1) |>) ;;
       voice_finish_stream RBP_END_BUFFER_OVERRUN true) ;;
    s <- get ;;
    if negb (codec_accepted s f) then voice_fault RBP_END_UNSUPPORTED_FORMAT
    else if next_stream_id s =? UINT32_MAX then session_teardown
    else
      modify open_stream ;;
      ok <- queue_format f true ;;
      if ok then ret tt
      else
        modify (fun s => s <| delivering := false |> <| stream_id := 0 |>) ;;
        voice_fault RBP_END_BUFFER_OVERRUN.

Definition on_voice_format (f : rbp_audio_format_t) : M W unit :=
  modify (fun s => s <| voice_sample_rate := af_sample_rate f |>) ;;
  s <- get ;;
  if delivering s && negb (ending s) then
    ok <- queue_format f false ;;
    s <- get ;;
    when (negb ok && delivering s) (voice_fault RBP_END_BUFFER_OVERRUN)
  else ret tt.

(** One DATA record: the 40-byte header and a fragment. *)
Definition data_record (s : rbp_server) (size samples : Z) (frag : list Z) : list Z :=
  audio_put (stream_id s) 4 ++ audio_put (u32 (frame_seq s + 1)) 4 ++ audio_put (epoch s) 4 ++
  audio_put (u32 (source_units s + 1)) 4 ++ audio_put size 4 ++ audio_put (unit_offset s) 4 ++
  audio_put (source_samples s) 8 ++ audio_put samples 4 ++ audio_put 0 4 ++ frag.
(** The counters after a fragment of [take] bytes was queued. *)
Definition fragment_queued (size samples take : Z) (s : rbp_server) : rbp_server :=
  let s := s <| frame_seq ::= fun n => u32 (n + 1) |> <| source_bytes ::= fun n => u64 (n + take) |>
             <| unit_offset ::= fun n => u32 (n + take) |> in
  if unit_offset s =? size
  then s <| unit_offset := 0 |> <| source_units ::= fun n => u32 (n + 1) |>
         <| source_samples ::= fun n => sample_add n samples |>
  else s.
(** Every round takes at least one byte, so the length bounds the rounds. *)
Fixpoint encoded_loop (fuel : nat) (size samples : Z) (bytes : list Z) : M W unit :=
  s <- get ;;
  if (zlen bytes =? 0) || negb (delivering s) then ret tt
  else match fuel with
  | O => ret tt
  | S fuel =>
    let take := if 256 <? zlen bytes then 256 else zlen bytes in
    if frame_seq s =? UINT32_MAX then voice_fault RBP_END_INVALID_ENCODED_DATA
    else
      ok <- media_enqueue RBP_OP_VOICE_DATA (data_record s size samples (slice bytes 0 take)) ;;
      if negb ok then voice_fault RBP_END_BUFFER_OVERRUN
      else
        modify (fragment_queued size samples take) ;;
        encoded_loop fuel size samples (drop (Z.to_nat take) bytes)
  end.
(** The checks on a fragment against the unit in progress. *)
Definition encoded_bad (s : rbp_server) (bytes : option (list Z)) (len size offset samples : Z) : bool :=
  (len =? 0) || bool_decide (bytes = None) || (size =? 0) || negb (offset =? unit_offset s) ||
  (size <? offset) || (size - offset <? len) ||
  (negb (offset =? 0) && (negb (size =? unit_size s) || negb (samples =? unit_samples s))) ||
  (source_units s =? UINT32_MAX).
Definition on_voice_encoded (data : option (list Z)) (len size offset samples now : Z) : M W unit :=
  s <- get ;;
  if negb (source_active s) then ret tt
  else
    modify (fun s => s <| got_audio_this_stream := true |>
                       <| progress_deadline := u32 (now + VOICE_PROGRESS_MS) |>) ;;
    s <- get ;;
    if negb (delivering s) || ending s then ret tt
    else if format_max_unit s <? size then voice_fault RBP_END_UNSUPPORTED_FORMAT
    else if encoded_bad s data len size offset samples then voice_fault RBP_END_INVALID_ENCODED_DATA
    else
      modify (fun s => s <| unit_size := size |> <| unit_samples := samples |>) ;;
      encoded_loop (Z.to_nat len) size samples (slice (default [] data) 0 len).

Definition on_voice_end (reason : Z) : M W unit :=
  modify (fun s => s <| source_active := false |> <| waiting_idle := false |>) ;;
  s <- get ;;
  let reason := if (reason =? RBP_END_NORMAL) && capture_limited s then RBP_END_CAPTURE_LIMIT
                else if stop_requested s && (reason =? RBP_END_NORMAL) then RBP_END_REQUESTED_STOP
                else reason in
  let drain := (reason =? RBP_END_NORMAL) || (reason =? RBP_END_REQUESTED_STOP) ||
               (reason =? RBP_END_CAPTURE_LIMIT) in
  voice_finish_stream reason (negb drain).

Definition rbp_server_on_voice (ev : rbp_voice_evt_t) (now : Z) : M W unit :=
  modify (fun s => s <| now_ms := now |>) ;;
  match ev with
  | RBP_VOICE_EVT_SOURCE_BEGIN => on_voice_source_begin now
  | RBP_VOICE_EVT_START f => on_voice_start f now
  | RBP_VOICE_EVT_FORMAT f => on_voice_format f
  | RBP_VOICE_EVT_ENCODED data len size offset samples => on_voice_encoded data len size offset samples now
  | RBP_VOICE_EVT_FAULT reason => voice_fault reason
  | RBP_VOICE_EVT_END reason => on_voice_end reason
  end.

(** An accepted codec is among the adapter's. *)
Definition caps_compatible (s : rbp_server) (caps : rbp_audio_caps_t) : bool :=
  existsb (fun i => let '(id, rev) := codec_at (accepted_codecs s) i in caps_have caps id rev)
    (codec_steps (accepted_len s)).
Definition rbp_server_on_voice_state (vs interaction rate : Z) : M W unit :=
  s <- get ;;
  if negb (voice_state s =? vs) || negb (voice_sample_rate s =? rate) ||
     negb (voice_interaction s =? interaction) then
    modify (fun s => s <| voice_state := vs |> <| voice_interaction := interaction |>
                       <| voice_sample_rate := rate |>) ;;
    s <- get ;;
    when (negb (vs =? RBP_VOICE_READY) && voice_enabled s)
      (modify (fun s => s <| voice_enabled := false |>)) ;;
    s <- get ;;
    when ((vs =? RBP_VOICE_READY) && session_active s && peer_valid s &&
          (voice_resume_peer s =? pr_peer_id (peer s)) && negb (reconnect_paused s) &&
          match voice_caps s with
          | Some caps => (ac_max_unit_bytes caps <=? accepted_max_unit s) && caps_compatible s caps
          | None => false
          end)
      (modify (fun s => s <| voice_enabled := true |> <| waiting_idle := source_active s |>)) ;;
    send_device_state (connection_id s)
  else ret tt.
End voice.
