(* ===== verification/ServerLink.v ===== *)
(** * Radio inputs

    What the radio and adapter report to the server: link state, discovery,
    pairing, forgetting, battery, adapter failure; and the queries they make. *)
From Stdlib Require Import String.
From S2P Require Import Prelude Defs Ring Frame Tlv DeviceModel Faults ServerState ServerCore ServerVoice.
#[local] Open Scope string_scope.
#[local] Open Scope Z_scope.
#[local] Open Scope list_scope.
#[local] Open Scope rbp_scope.

Definition link_is (s : rbp_server) (ls : list rbp_link_state_t) : bool :=
  bool_decide (link_state s ∈ ls).
Definition link_active : list rbp_link_state_t :=
  [RBP_LINK_CONNECTING; RBP_LINK_PAIRING; RBP_LINK_INITIALIZING; RBP_LINK_READY].
Definition link_down : list rbp_link_state_t :=
  [RBP_LINK_DISCONNECTED; RBP_LINK_UNBOUND; RBP_LINK_ERROR; RBP_LINK_UNSUPPORTED].

(** The new id, 0 when the counter is exhausted. *)
Definition new_connection_id (s : rbp_server) : rbp_server * Z :=
  if connection_counter s =? UINT32_MAX then (s, 0)
  else (s <| connection_counter := connection_counter s + 1 |>, connection_counter s + 1).

(** A READY report during pairing is held back as INITIALIZING. *)
Definition link_pairing (state : rbp_link_state_t) (s : rbp_server) : rbp_server * rbp_link_state_t :=
  let '(s, state) :=
    if bool_decide (state = RBP_LINK_READY) && op_active s && (op_kind s =? OPK_PAIR)
    then (s <| pair_ready_pending := true |>, RBP_LINK_INITIALIZING) else (s, state) in
  (if bool_decide (state ∈ link_down) then s <| pair_ready_pending := false |> else s, state).
(** A first active state allocates the logical connection. *)
Definition link_connect (state : rbp_link_state_t) (conn : Z) (s : rbp_server)
  : rbp_server * rbp_link_state_t :=
  if (connection_id s =? 0) && bool_decide (state ∈ link_active) then
    let '(s, id) := if negb (conn =? 0) then (s, conn) else new_connection_id s in
    let s := s <| connection_id := id |> <| input_seq := 0 |> <| pressed_bits := 0 |>
               <| keys_captured_us := now_us64 s |> <| link_msg := [] |> in
    (s, if id =? 0 then RBP_LINK_ERROR else state)
  else (s, state).
(** A lost link forgets the connection and everything learnt over it. *)
Definition link_lost (s : rbp_server) : rbp_server :=
  s <| connection_id := 0 |> <| source_active := false |> <| stop_requested := false |>
    <| waiting_idle := false |> <| voice_enabled := false |> <| voice_state := RBP_VOICE_ABSENT |>
    <| voice_sample_rate := 0 |> <| voice_interaction := RBP_VI_UNAVAILABLE |>
    <| battery := 255 |> <| charging := 0 |>.

Section link.
Context {W : Type} `{E : Env W}.

Definition rbp_server_on_link (state : rbp_link_state_t) (conn now : Z) : M W unit :=
  modify (fun s => s <| now_ms := now |>) ;;
  s <- get ;;
  let '(s1, state) := link_pairing state s in
  let old := link_state s1 in
  let ctx_id := connection_id s1 in
  let '(s1, state) := link_connect state conn s1 in
  modify (fun _ => s1 <| link_state := state |>) ;;
  when (bool_decide (old = RBP_LINK_READY) && negb (bool_decide (state = RBP_LINK_READY)))
    (s <- get ;;
     when (delivering s) (voice_finish_stream RBP_END_LINK_LOST true) ;;
     modify (fun s => rbp_server_on_keys
       (KeysReport 0 RBP_KEYS_KIND_RESET RBP_KEYS_REASON_LINK_LOST 0 (now_us64 s)) s) ;;
     modify (fun s => s <| events_enabled := false |>)) ;;
  when (bool_decide (state ∈ link_down)) (modify link_lost) ;;
  send_device_state ctx_id.

Definition rbp_server_on_link_message (msg : list Z) (s : rbp_server) : rbp_server :=
  s <| link_msg := copy_name 48 msg |>.

(** The first stored candidate with the id, from index [i] on. *)
Fixpoint cand_find (l : list rbp_candidate_t) (id i : Z) : option Z :=
  match l with
  | [] => None
  | c :: l => if cd_candidate_id c =? id then Some i else cand_find l id (i + 1)
  end.
Definition rbp_server_on_scan_candidate (c : rbp_candidate_t) (s : rbp_server) : rbp_server :=
  if negb (find_active s) then s
  else match cand_find (slice (cand s) 0 (cand_count s)) (cd_candidate_id c) 0 with
  | Some i =>
    let k := cand_at (cand s) i <| cd_signal := cd_signal c |> in
    let k := if cd_support k <? cd_support c then k <| cd_support := cd_support c |> else k in
    let k := if negb (cd_name_len c =? 0)
             then k <| cd_name := copy_name_array (cd_name k) (cd_name c) 48 |>
                    <| cd_name_len := cd_name_len c |> else k in
    s <| cand := set_at (cand s) i k |>
  | None =>
    if RBP_MAX_CANDIDATES <=? cand_count s then s
    else
      s <| cand := set_at (cand s) (cand_count s)
             (c <| cd_name := copy_name_array (cd_name c) (cd_name c) 48 |>) |>
        <| cand_count := u8 (cand_count s + 1) |>
  end.

Definition find_done_tlv (s : rbp_server) (reason : Z) : list Z :=
  let '(w, _) := rbp_tlv_put_u32 rbp_tlv_writer_init 1 (search_id s) in
  let '(w, _) := rbp_tlv_put_u8 w 2 reason in
  w_buf w.
Definition send_find_done (reason : Z) : M W unit :=
  s <- get ;;
  ctl_enqueue RBP_KIND_EVENT RBP_OP_FIND_DONE_EV 0 0 0 (find_done_tlv s reason).
Definition rbp_server_on_scan_done (reason now : Z) : M W unit :=
  modify (fun s => s <| now_ms := now |>) ;;
  s <- get ;;
  if negb (find_active s) then ret tt
  else
    modify (fun s => s <| find_active := false |> <| find_end_ms := now |> <| find_valid := true |>) ;;
    send_find_done reason.

Definition prompt_tlv (s : rbp_server) (method number remaining_ms : Z) : list Z :=
  let '(w, _) := rbp_tlv_put_u32 rbp_tlv_writer_init 1 (op_id s) in
  let '(w, _) := rbp_tlv_put_u32 w 2 (prompt_id s) in
  let '(w, _) := rbp_tlv_put_u8 w 3 method in
  let '(w, _) := if (method =? RBP_PROMPT_CONFIRM_NUMBER) || (method =? RBP_PROMPT_DISPLAY_PASSKEY)
                 then rbp_tlv_put_u32 w 4 number else (w, true) in
  let '(w, _) := rbp_tlv_put_u32 w 5 remaining_ms in
  w_buf w.
(** [rng_u32] never returns 0, so the [do .. while (id == 0)] loop runs once. *)
Definition rbp_server_on_pair_prompt (method number remaining_ms : Z) : M W unit :=
  s <- get ;;
  if negb (op_active s) || negb (op_kind s =? OPK_PAIR) || pair_cancel_requested s then ret tt
  else
    let operation_remaining := s32 (op_deadline_ms s - now_ms s) in
    if operation_remaining <=? 0 then ret tt
    else
      let remaining_ms := if operation_remaining <? remaining_ms then operation_remaining else remaining_ms in
      modify (fun s => s <| prompt_active := true |>) ;;
      id <- rng_u32 ;;
      modify (fun s => s <| prompt_id := id |> <| prompt_method := method |> <| prompt_number := number |>
                         <| prompt_expiry_ms := u32 (now_ms s + remaining_ms) |>) ;;
      s <- get ;;
      ctl_enqueue RBP_KIND_EVENT RBP_OP_PAIR_PROMPT_EV 0 0 (op_connection_id s)
        (prompt_tlv s method number remaining_ms).

(** The bond is committed: the resulting status and whether it is uncertain. *)
Definition pair_commit (status : Z) (p : option rbp_peer_record_t) : M W (Z * bool) :=
  if status =? RBP_STATUS_OK then
    match p with
    | None => ret (RBP_STATUS_PAIRING_FAILED, false)
    | Some p =>
      if pr_peer_id p =? 0 then ret (RBP_STATUS_PAIRING_FAILED, false)
      else
        let committed := p <| pr_auto_reconnect := true |> in
        saved <- match store_save with Some save => outside (save committed) | None => ret true end ;;
        if negb saved then ret (RBP_STATUS_STORAGE_FAILED, true)
        else
          modify (fun s => s <| peer := committed |> <| peer_valid := true |> <| reconnect_paused := false |>) ;;
          ret (status, false)
    end
  else ret (status, false).
Definition rbp_server_on_pair_done (status : Z) (peer_committed : bool)
    (p : option rbp_peer_record_t) (conn : Z) : M W unit :=
  s <- get ;;
  let publish_ready := pair_ready_pending s in
  modify (fun s => s <| pair_ready_pending := false |>) ;;
  let status := if (status =? RBP_STATUS_OK) && negb peer_committed
                then RBP_STATUS_STORAGE_FAILED else status in
  modify (fun s => s <| prompt_active := false |>) ;;
  r <- pair_commit status p ;;
  let '(status, uncertain) := r in
  s <- get ;;
  when (op_active s && (op_kind s =? OPK_PAIR))
    (modify (fun s => s <| op_active := false |>) ;;
     let pid := if (status =? RBP_STATUS_OK) && peer_valid s then pr_peer_id (peer s) else 0 in
     op_complete (op_id s) status pid (connection_id s) uncertain) ;;
  s <- get ;;
  if status =? RBP_STATUS_OK then
    if publish_ready then rbp_server_on_link RBP_LINK_READY conn (now_ms s)
    else if negb (bool_decide (link_state s = RBP_LINK_READY))
    then rbp_server_on_link RBP_LINK_INITIALIZING conn (now_ms s)
    else send_device_state (connection_id s)
  else
    modify (fun s => s <| link_msg := copy_name 48 (cstr "pairing failed") |>) ;;
    rbp_server_on_link RBP_LINK_ERROR 0 (now_ms s).

Definition rbp_server_on_forget_done (status : Z) (uncertain : bool) : M W unit :=
  r <- (if status =? RBP_STATUS_OK then
          cleared <- match store_clear with Some clear => outside clear | None => ret false end ;;
          ret (if cleared then (status, uncertain) else (RBP_STATUS_STORAGE_FAILED, true))
        else ret (status, uncertain)) ;;
  let '(status, uncertain) := r in
  when (status =? RBP_STATUS_OK)
    (modify (fun s => s <| peer_valid := false |> <| peer := peer_record0 |>) ;;
     s <- get ;;
     rbp_server_on_link RBP_LINK_UNBOUND 0 (now_ms s)) ;;
  s <- get ;;
  when (op_active s && (op_kind s =? OPK_FORGET))
    (modify (fun s => s <| op_active := false |>) ;;
     op_complete (op_id s) status 0 0 uncertain) ;;
  when (negb (status =? RBP_STATUS_OK)) (send_device_state 0).

Definition rbp_server_on_peer_changed (p : rbp_peer_record_t) (s : rbp_server) : rbp_server :=
  let s := if negb (peer_valid s) || negb (pr_peer_id (peer s) =? pr_peer_id p)
           then s <| voice_resume_peer := 0 |> else s in
  s <| peer := p |> <| peer_valid := negb (pr_peer_id p =? 0) |>.

Definition rbp_server_on_battery (level chg : Z) : M W unit :=
  s <- get ;;
  when (negb (battery s =? level) || negb (charging s =? chg))
    (modify (fun s => s <| battery := level |> <| charging := chg |>) ;;
     s <- get ;; send_device_state (connection_id s)).

Definition rbp_server_on_usb_gone (now : Z) : M W unit :=
  modify (fun s => s <| now_ms := now |>) ;;
  session_teardown ;;
  modify (fun s => ctl_clear (s <| out_head := 0 |> <| out_len := 0 |>)).

(** Profiles are compared by contents: the source compares the addresses of
    constant profiles, which differ in contents. *)
#[export] Instance key_def_eq_dec : EqDecision rbp_key_def_t.
Proof. solve_decision. Defined.
#[export] Instance profile_eq_dec : EqDecision rbp_device_profile_t.
Proof. solve_decision. Defined.
Definition rbp_server_set_profile (p : option rbp_device_profile_t) : M W unit :=
  s <- get ;;
  if bool_decide (cf_profile (cfg s) = p) then ret tt
  else
    modify (fun s => s <| cfg ::= fun c => c <| cf_profile := p |> |>) ;;
    s <- get ;; send_device_state (connection_id s).
Definition rbp_server_adapter_failed (reason : list Z) : M W unit :=
  modify (fun s => s <| link_msg := copy_name 48 reason |>) ;;
  s <- get ;;
  rbp_server_on_link RBP_LINK_ERROR 0 (now_ms s) ;;
  call disconnect.
End link.

(** ** Queries *)
Definition rbp_server_voice_wanted (s : rbp_server) : bool :=
  session_active s && voice_enabled s && negb (waiting_idle s).
Definition rbp_server_should_reconnect (s : rbp_server) : bool :=
  peer_valid s && pr_auto_reconnect (peer s) && negb (reconnect_paused s) && negb (op_active s).
Definition rbp_server_voice_capture_session (s : rbp_server) : Z :=
  if session_active s && peer_valid s && negb (voice_denied s) && negb (waiting_idle s) &&
     negb (voice_state s =? RBP_VOICE_UNSUPPORTED) && negb (voice_state s =? RBP_VOICE_FAILED)
  then session_id s else 0.
Record rbp_server_info_t := ServerInfo {
  si_session_active : bool; si_session_id : Z; si_connection_id : Z; si_link_state : rbp_link_state_t;
  si_events_enabled : bool; si_voice_enabled : bool; si_waiting_idle : bool; si_voice_state : Z;
  si_stream_id : Z }.
Definition rbp_server_get_info (s : rbp_server) : rbp_server_info_t :=
  ServerInfo (session_active s) (session_id s) (connection_id s) (link_state s) (events_enabled s)
    (voice_enabled s) (waiting_idle s) (voice_state s) (stream_id s).
