(* ===== verification/ServerDispatch.v ===== *)
(** * Request dispatch

    [dispatch_request] of rbp_server.c, one definition per opcode, without the
    [RBP_DEBUG] extension.  A handler runs after the envelope check; it reads
    its arguments with the typed getters and queues exactly one response, except
    for a VOICE_ENABLE that ends a stream, whose response is deferred. *)
From Stdlib Require Import String.
From S2P Require Import Prelude Defs Ring Frame Tlv DeviceModel Faults ServerState ServerCore ServerVoice ServerLink.
#[local] Open Scope string_scope.
#[local] Open Scope Z_scope.
#[local] Open Scope list_scope.
#[local] Open Scope rbp_scope.

(** The two [while (rd.pos < rd.len)] conditions of the envelope check. *)
Fixpoint envelope_loop (fuel : nat) (rd : rbp_tlv_reader_t) : bool :=
  if negb (r_pos rd <? r_len rd) then true
  else match fuel with
  | O => false
  | S fuel => match rbp_tlv_next rd with (rd, inr _) => envelope_loop fuel rd | (_, inl _) => false end
  end.
Definition envelope_ok (payload : list Z) : bool :=
  envelope_loop (length payload) (rbp_tlv_reader_init payload).

Definition is_ok (e : rbp_tlv_err_t) : bool := bool_decide (e = RBP_TLV_OK).

Definition conn_ready_for (s : rbp_server) (h : rbp_header_t) : bool :=
  if negb (bool_decide (link_state s = RBP_LINK_READY)) then false
  else if (h_connection_id h =? 0) || negb (h_connection_id h =? connection_id s) then false
  else true.
(** The status when it is not. *)
Definition not_ready_status (s : rbp_server) : Z :=
  if bool_decide (link_state s = RBP_LINK_READY) then RBP_STATUS_BAD_STATE else RBP_STATUS_LINK_LOST.

(** The page loops of FIND_LIST and KEY_CATALOG: records from index [i] on, at
    most [limit] of them, while the 500-byte entry buffer has room; [acc] is
    [entries[1 .. elen)].  Result: the index reached, the count, the bytes. *)
Fixpoint page_loop (fuel : nat) (rec_at : Z -> list Z) (total limit i count : Z) (acc : list Z)
  : Z * Z * list Z :=
  if negb ((i <? total) && (count <? limit)) then (i, count, acc)
  else match fuel with
  | O => (i, count, acc)
  | S fuel =>
    let rec := rec_at i in
    if 500 <? (1 + zlen acc) + zlen rec + 1 then (i, count, acc)
    else page_loop fuel rec_at total limit (i + 1) (count + 1) (acc ++ rec)
  end.

Definition candidate_rec (c : rbp_candidate_t) : list Z :=
  le 4 (cd_candidate_id c) ++ [u8 (cd_support c); u8 (cd_signal c); u8 (cd_name_len c)] ++
  slice (cd_name c) 0 (cd_name_len c).
Definition key_rec (p : rbp_device_profile_t) (i : Z) : list Z :=
  let k := nth (Z.to_nat i) (keys p) (KeyDef 0 []) in
  let nl := if zlen (key_name k) <? 32 then zlen (key_name k) else 32 in
  [u8 i; u8 (Z.land (key_id k) 0xFF); u8 (Z.shiftr (key_id k) 8); nl] ++ slice (key_name k) 0 nl.
Definition fault_rec (f : rbp_fault_t) : list Z :=
  concat (map (le 4) [ft_sequence f; Z.lor (ft_domain f) (Z.shiftl (ft_stage f) 16); ft_code f;
                      ft_context f; ft_count f; ft_board_ms f]).
Definition accepted_payload (id : Z) : list Z := [1; RBP_TLV_T_U32; 4; 0] ++ le 4 id.

(** The order check of the codec list: [None] is an error, else whether the list
    meets the adapter's capabilities. *)
Fixpoint codecs_check (caps : option rbp_audio_caps_t) (codecs : list Z) (steps : list Z)
    (last_id last_rev : Z) (intersects : bool) : option bool :=
  match steps with
  | [] => Some intersects
  | i :: steps =>
    let '(id, rev) := codec_at codecs i in
    if (id =? 0) || (0x80000000 <=? id) || (rev =? 0) || (id <? last_id) ||
       ((id =? last_id) && (rev <=? last_rev)) then None
    else codecs_check caps codecs steps id rev
           (intersects || match caps with Some c => caps_have c id rev | None => false end)
  end.

Section dispatch.
Context {W : Type} `{E : Env W}.

Definition respond_error (req : rbp_header_t) (status : Z) (msg : option (list Z)) (uncertain : bool)
  : M W unit :=
  let payload :=
    if found msg || uncertain then
      let w := rbp_tlv_writer_init in
      let '(w, _) := match msg with Some m => rbp_tlv_put_text w RBP_TAG_MESSAGE m | None => (w, true) end in
      let '(w, _) := if uncertain then rbp_tlv_put_bool w RBP_TAG_UNCERTAIN true else (w, true) in
      if w_len w <=? 144 then w_buf w else []
    else [] in
  ctl_enqueue RBP_KIND_RESPONSE (h_opcode req) status (h_request_id req) (h_connection_id req) payload.
Definition reject (req : rbp_header_t) (status : Z) (msg : string) : M W unit :=
  respond_error req status (Some (cstr msg)) false.
Definition reject_silent (req : rbp_header_t) (status : Z) : M W unit :=
  respond_error req status None false.
Definition respond (req : rbp_header_t) (status : Z) (payload : list Z) : M W unit :=
  ctl_enqueue RBP_KIND_RESPONSE (h_opcode req) status (h_request_id req) (h_connection_id req) payload.

(** *** Receiver level *)
Definition op_ping (h : rbp_header_t) (rd : rbp_tlv_reader_t) : M W unit :=
  let '(e, cookie, f) := rbp_tlv_get_u32 rd 1 0 in
  if negb (is_ok e) || negb f then reject h RBP_STATUS_INVALID_ARGUMENT "cookie required"
  else
    s <- get ;;
    let '(w, _) := rbp_tlv_put_u32 rbp_tlv_writer_init 1 cookie in
    let '(w, _) := rbp_tlv_put_u64 w 2 (now_us64 s) in
    respond h RBP_STATUS_OK (w_buf w).

Definition op_get_device (h : rbp_header_t) : M W unit :=
  s <- get ;; respond h RBP_STATUS_OK (w_buf (device_info_tlv s)).

Definition op_get_peer (h : rbp_header_t) : M W unit :=
  s <- get ;;
  let '(w, _) := rbp_tlv_put_u32 rbp_tlv_writer_init 1 (if peer_valid s then pr_peer_id (peer s) else 0) in
  let '(w, _) := rbp_tlv_put_text w 2 (if peer_valid s then pr_name (peer s) else []) in
  let '(w, _) := rbp_tlv_put_bool w 3 (if peer_valid s then pr_auto_reconnect (peer s) else false) in
  respond h RBP_STATUS_OK (w_buf w).

(** The first result with the id, oldest first. *)
Definition op_lookup (s : rbp_server) (id : Z) : option op_result_t :=
  List.find (fun r => or_op_id r =? id)
    (map (fun i => op_at (ops_done s) (u8 ((ops_done_head s + i) mod RBP_MAX_OPERATION_RESULTS)))
       (upto (ops_done_count s))).
Definition op_get_operation (h : rbp_header_t) (rd : rbp_tlv_reader_t) : M W unit :=
  let '(e, id, f) := rbp_tlv_get_u32 rd 1 0 in
  if negb (is_ok e) || negb f then reject h RBP_STATUS_INVALID_ARGUMENT "operation_id required"
  else
    s <- get ;;
    if op_active s && (op_id s =? id)
    then respond h RBP_STATUS_OK
           (operation_tlv id RBP_OPSTATE_PENDING RBP_STATUS_ACCEPTED (op_peer_id s) (op_connection_id s) false)
    else match op_lookup s id with
    | Some r => respond h RBP_STATUS_OK
        (operation_tlv id RBP_OPSTATE_COMPLETED (or_result r) (or_peer_id r) (or_connection_id r) (or_uncertain r))
    | None => reject_silent h RBP_STATUS_NOT_FOUND
    end.

Definition op_get_stats (h : rbp_header_t) : M W unit :=
  s <- get ;;
  faults <- outside (fun w => (rbp_fault_snapshot (fault_state w), w)) ;;
  let '(recs, sequence, evicted) := faults in
  let '(w, _) := rbp_tlv_put_u32 rbp_tlv_writer_init 1 (stat_protocol_errors s) in
  let '(w, _) := rbp_tlv_put_u32 w 2 (stat_input_resets s) in
  let '(w, _) := rbp_tlv_put_u32 w 3 (stat_voice_overruns s) in
  let '(w, _) := rbp_tlv_put_u32 w 4 (stat_voice_errors s) in
  let '(w, _) := rbp_tlv_put_u16 w 5 (cf_reset_reason (cfg s)) in
  let '(w, _) := rbp_tlv_put_u32 w 6 sequence in
  let '(w, _) := rbp_tlv_put_bytes w 7 (concat (map fault_rec recs)) in
  let '(w, _) := rbp_tlv_put_u32 w 8 evicted in
  respond h RBP_STATUS_OK (w_buf w).

Definition op_goodbye (h : rbp_header_t) : M W unit :=
  s <- get ;;
  let closing_session := session_id s in
  let committed_output := out_len s in
  session_teardown ;;
  modify (fun s => s <| out_len := committed_output |>) ;;
  respond h RBP_STATUS_OK [] ;;
  modify (fun s => s <| ctl ::= fun l => set_at l 0 (slot_at l 0 <| cs_session := closing_session |>) |>).

(** *** Find and pairing *)
Definition op_find_start (h : rbp_header_t) (rd : rbp_tlv_reader_t) : M W unit :=
  let '(e, dur, f) := rbp_tlv_get_u16 rd 1 0 in
  if negb (is_ok e) || negb f || (dur <? 1) || (30000 <? dur)
  then reject h RBP_STATUS_INVALID_ARGUMENT "duration 1..30000"
  else
    s <- get ;;
    if op_active s then reject_silent h RBP_STATUS_BUSY
    else if link_is s link_active then reject h RBP_STATUS_BAD_STATE "link active"
    else
      modify (fun s => s <| find_active := true |> <| find_valid := false |> <| cand_count := 0 |>) ;;
      id <- rng_u32 ;;
      modify (fun s => s <| search_id := id |> <| find_end_ms := u32 (now_ms s + dur) |>) ;;
      scan_status <- start_find dur ;;
      if negb (scan_status =? RBP_STATUS_OK) then
        modify (fun s => s <| find_active := false |> <| find_valid := false |> <| cand_count := 0 |>) ;;
        reject h scan_status "discovery did not start"
      else
        s <- get ;;
        let '(w, _) := rbp_tlv_put_u32 rbp_tlv_writer_init 1 (search_id s) in
        respond h RBP_STATUS_OK (w_buf w).

Definition op_find_list (h : rbp_header_t) (rd : rbp_tlv_reader_t) : M W unit :=
  let '(e1, sid, f1) := rbp_tlv_get_u32 rd 1 0 in
  let '(e2, cursor, f2) := rbp_tlv_get_u8 rd 2 0 in
  if negb (is_ok e1) || negb (is_ok e2) || negb f1 || negb f2
  then reject h RBP_STATUS_INVALID_ARGUMENT "args"
  else
    s <- get ;;
    if negb (sid =? search_id s) || (negb (find_active s) && negb (find_valid s))
    then reject h RBP_STATUS_NOT_FOUND "search"
    else if RBP_MAX_CANDIDATES <=? cursor then reject h RBP_STATUS_INVALID_ARGUMENT "cursor"
    else
      let '(i, count, acc) :=
        page_loop 8 (fun i => candidate_rec (cand_at (cand s) i)) (cand_count s) 8 cursor 0 [] in
      let next_cursor := if cand_count s <=? i then 255 else i in
      let '(w, _) := rbp_tlv_put_u8 rbp_tlv_writer_init 1 next_cursor in
      let '(w, _) := rbp_tlv_put_bytes w 2 (count :: acc) in
      respond h RBP_STATUS_OK (w_buf w).

Definition op_find_stop (h : rbp_header_t) (rd : rbp_tlv_reader_t) : M W unit :=
  let '(e, sid, f) := rbp_tlv_get_u32 rd 1 0 in
  if negb (is_ok e) || negb f then reject h RBP_STATUS_INVALID_ARGUMENT "search_id required"
  else
    s <- get ;;
    if negb (sid =? search_id s) || negb (find_active s) then reject h RBP_STATUS_NOT_FOUND "search"
    else
      modify (fun s => s <| find_active := false |> <| find_valid := true |> <| find_end_ms := now_ms s |>) ;;
      respond h RBP_STATUS_OK [] ;;
      call stop_find ;;
      send_find_done RBP_FIND_DONE_USER_STOP.

Definition op_begin (kind : Z) (h : rbp_header_t) (s : rbp_server) : rbp_server :=
  s <| op_active := true |> <| op_kind := kind |> <| pair_cancel_requested := false |>
    <| pair_ready_pending := false |> <| op_id := h_request_id h |> <| op_connection_id := 0 |>
    <| op_peer_id := 0 |>.
Definition op_pair_begin (h : rbp_header_t) (rd : rbp_tlv_reader_t) : M W unit :=
  let '(e1, sid, f1) := rbp_tlv_get_u32 rd 1 0 in
  let '(e2, cid, f2) := rbp_tlv_get_u32 rd 2 0 in
  if negb (is_ok e1) || negb (is_ok e2) || negb f1 || negb f2
  then reject h RBP_STATUS_INVALID_ARGUMENT "args"
  else
    s <- get ;;
    if op_active s then reject_silent h RBP_STATUS_BUSY
    else if link_is s [RBP_LINK_READY] then reject h RBP_STATUS_BAD_STATE "already connected"
    else if peer_valid s then reject h RBP_STATUS_BUSY "bond slot full"
    else
      let have_cand := existsb (fun c => cd_candidate_id c =? cid) (slice (cand s) 0 (cand_count s)) in
      if negb (sid =? search_id s) || negb have_cand || (negb (find_valid s) && negb (find_active s))
      then reject h RBP_STATUS_NOT_FOUND "candidate"
      else
        when (find_active s)
          (modify (fun s => s <| find_active := false |>) ;;
           call stop_find ;;
           send_find_done RBP_FIND_DONE_PAIR_TAKEOVER) ;;
        modify (op_begin OPK_PAIR h) ;;
        modify (fun s => s <| op_deadline_ms := u32 (now_ms s + PAIR_DEADLINE_MS) |>) ;;
        respond h RBP_STATUS_ACCEPTED (accepted_payload (h_request_id h)) ;;
        call (pair_begin cid).

Definition op_pair_reply (h : rbp_header_t) (rd : rbp_tlv_reader_t) : M W unit :=
  let '(e1, id, f_op) := rbp_tlv_get_u32 rd 1 0 in
  let '(e2, pid, f_pid) := rbp_tlv_get_u32 rd 2 0 in
  let '(e3, accept, f_acc) := rbp_tlv_get_bool rd 3 false in
  let '(e4, passkey, f_pk) := rbp_tlv_get_u32 rd 4 0 in
  if negb (is_ok e1) || negb (is_ok e2) || negb (is_ok e3) || negb (is_ok e4) ||
     negb f_op || negb f_pid || negb f_acc
  then reject h RBP_STATUS_INVALID_ARGUMENT "args"
  else if f_pk && (999999 <? passkey) then reject h RBP_STATUS_INVALID_ARGUMENT "passkey range"
  else
    s <- get ;;
    if negb (op_active s) || negb (op_kind s =? OPK_PAIR) || negb (id =? op_id s) ||
       negb (prompt_active s) || negb (pid =? prompt_id s)
    then reject h RBP_STATUS_NOT_FOUND "prompt"
    else if f_pk && negb (prompt_method s =? RBP_PROMPT_ENTER_PASSKEY)
    then reject h RBP_STATUS_INVALID_ARGUMENT "passkey not expected"
    else if prompt_method s =? RBP_PROMPT_DISPLAY_PASSKEY
    then reject h RBP_STATUS_INVALID_ARGUMENT "display only; cancel operation to reject"
    else if accept && negb f_pk && (prompt_method s =? RBP_PROMPT_ENTER_PASSKEY)
    then reject h RBP_STATUS_INVALID_ARGUMENT "passkey required"
    else
      modify (fun s => s <| prompt_active := false |>) ;;
      respond h RBP_STATUS_OK [] ;;
      call (pair_reply accept f_pk passkey).

Definition op_pair_cancel (h : rbp_header_t) (rd : rbp_tlv_reader_t) : M W unit :=
  let '(e, id, f) := rbp_tlv_get_u32 rd 1 0 in
  if negb (is_ok e) || negb f then reject h RBP_STATUS_INVALID_ARGUMENT "operation_id required"
  else
    s <- get ;;
    if negb (op_active s) || negb (op_kind s =? OPK_PAIR) || negb (id =? op_id s)
    then reject h RBP_STATUS_NOT_FOUND "operation"
    else
      modify (fun s => s <| prompt_active := false |>) ;;
      respond h RBP_STATUS_OK [] ;;
      request_pair_cancel.

Definition op_forget_peer (h : rbp_header_t) (rd : rbp_tlv_reader_t) : M W unit :=
  let '(e, pid, f) := rbp_tlv_get_u32 rd 1 0 in
  if negb (is_ok e) || negb f then reject h RBP_STATUS_INVALID_ARGUMENT "peer_id required"
  else
    s <- get ;;
    if op_active s then reject_silent h RBP_STATUS_BUSY
    else if negb (peer_valid s) || negb (pid =? pr_peer_id (peer s))
    then reject h RBP_STATUS_NOT_FOUND "peer"
    else
      modify (op_begin OPK_FORGET h) ;;
      modify (fun s => s <| op_deadline_ms := u32 (now_ms s + FORGET_DEADLINE_MS) |>
                         <| reconnect_paused := true |>) ;;
      respond h RBP_STATUS_ACCEPTED (accepted_payload (h_request_id h)) ;;
      call forget_peer.

Definition op_set_reconnect (h : rbp_header_t) (rd : rbp_tlv_reader_t) : M W unit :=
  let '(e1, pid, f_pid) := rbp_tlv_get_u32 rd 1 0 in
  let '(e2, enabled, f_en) := rbp_tlv_get_bool rd 2 false in
  if negb (is_ok e1) || negb (is_ok e2) || negb f_pid || negb f_en
  then reject h RBP_STATUS_INVALID_ARGUMENT "args"
  else
    s <- get ;;
    if negb (peer_valid s) || negb (pid =? pr_peer_id (peer s))
    then reject h RBP_STATUS_NOT_FOUND "peer"
    else if eqb (pr_auto_reconnect (peer s)) enabled then
      when enabled (modify (fun s => s <| reconnect_paused := false |>)) ;;
      respond h RBP_STATUS_OK []
    else
      let previous := pr_auto_reconnect (peer s) in
      modify (fun s => s <| peer ::= fun p => p <| pr_auto_reconnect := enabled |> |>) ;;
      s <- get ;;
      saved <- match store_save with Some save => outside (save (peer s)) | None => ret false end ;;
      if negb saved then
        modify (fun s => s <| peer ::= fun p => p <| pr_auto_reconnect := previous |> |>) ;;
        reject_silent h RBP_STATUS_STORAGE_FAILED
      else
        when enabled (modify (fun s => s <| reconnect_paused := false |>)) ;;
        respond h RBP_STATUS_OK [].

(** The second test of [peer_valid] in the source cannot fail after the first. *)
Definition op_connect_peer (h : rbp_header_t) (rd : rbp_tlv_reader_t) : M W unit :=
  s <- get ;;
  if op_active s then reject_silent h RBP_STATUS_BUSY
  else
    let '(e, pid, f) := rbp_tlv_get_u32 rd 1 0 in
    if negb (is_ok e) || negb f then reject h RBP_STATUS_INVALID_ARGUMENT "peer_id required"
    else if negb (peer_valid s) || negb (pr_peer_id (peer s) =? pid)
    then reject h RBP_STATUS_NOT_FOUND "peer"
    else if link_is s [RBP_LINK_READY] then reject h RBP_STATUS_BAD_STATE "already connected"
    else if link_is s [RBP_LINK_CONNECTING; RBP_LINK_PAIRING; RBP_LINK_INITIALIZING]
    then respond h RBP_STATUS_OK []
    else if negb (peer_valid s) then reject h RBP_STATUS_NOT_FOUND "peer"
    else
      modify (fun s => s <| reconnect_paused := false |>) ;;
      call connect_peer ;;
      respond h RBP_STATUS_OK [].

Definition op_disconnect (h : rbp_header_t) : M W unit :=
  modify (fun s => s <| reconnect_paused := true |> <| voice_resume_peer := 0 |>) ;;
  s <- get ;;
  when (link_is s link_active) (call disconnect) ;;
  respond h RBP_STATUS_OK [].

(** *** Keys *)
Definition op_key_catalog (h : rbp_header_t) (rd : rbp_tlv_reader_t) : M W unit :=
  s <- get ;;
  if negb (conn_ready_for s h) then reject_silent h (not_ready_status s)
  else
    let '(e, cursor, f) := rbp_tlv_get_u8 rd 1 0 in
    if bool_decide (e = RBP_TLV_ERR_MALFORMED) || (bool_decide (e = RBP_TLV_ERR_TYPE) && f)
    then reject h RBP_STATUS_INVALID_ARGUMENT "tlv"
    else
      let cursor := if f then cursor else 0 in
      match cf_profile (cfg s) with
      | None => reject h RBP_STATUS_BAD_STATE "catalog"
      | Some prof =>
        if key_count prof <=? cursor then reject h RBP_STATUS_INVALID_ARGUMENT "cursor"
        else
          let '(i, count, acc) := page_loop 12 (key_rec prof) (key_count prof) 12 cursor 0 [] in
          let next_cursor := if key_count prof <=? i then 255 else i in
          let '(w, _) := rbp_tlv_put_u32 rbp_tlv_writer_init 1 (catalog_revision prof) in
          let '(w, _) := rbp_tlv_put_u8 w 2 next_cursor in
          let '(w, _) := rbp_tlv_put_bytes w 3 (count :: acc) in
          respond h RBP_STATUS_OK (w_buf w)
      end.

Definition op_keys_snapshot (h : rbp_header_t) : M W unit :=
  s <- get ;;
  if negb (conn_ready_for s h) then reject_silent h (not_ready_status s)
  else respond h RBP_STATUS_OK
         (key_struct (input_seq s) (keys_captured_us s) (pressed_bits s) RBP_KEYS_KIND_SNAPSHOT 0).

Definition op_events_enable (h : rbp_header_t) (rd : rbp_tlv_reader_t) : M W unit :=
  s <- get ;;
  if negb (conn_ready_for s h) then reject_silent h (not_ready_status s)
  else
    let '(e, enabled, f) := rbp_tlv_get_bool rd 1 false in
    if negb (is_ok e) || negb f then reject h RBP_STATUS_INVALID_ARGUMENT "enabled required"
    else if enabled : bool then
      respond h RBP_STATUS_OK [] ;;
      modify (fun s => s <| events_enabled := true |>) ;;
      modify (fun s => keys_emit RBP_KEYS_KIND_SNAPSHOT RBP_KEYS_REASON_NONE (pressed_bits s)
                         (keys_captured_us s) s)
    else
      modify (fun s => s <| events_enabled := false |> <| key_q_head := 0 |> <| key_q_count := 0 |>) ;;
      respond h RBP_STATUS_OK [].

(** *** Voice *)
Definition op_get_voice_caps (h : rbp_header_t) : M W unit :=
  s <- get ;;
  if (h_connection_id h =? 0) || negb (h_connection_id h =? connection_id s)
  then reject_silent h RBP_STATUS_LINK_LOST
  else
    let '(list, max) :=
      match voice_caps s with
      | Some c =>
        if (voice_state s =? RBP_VOICE_READY) && (ac_count c <=? 16)
        then (concat (map (fun k => audio_put (codec_id k) 4 ++ audio_put (codec_revision k) 2)
                        (slice (ac_codecs c) 0 (ac_count c))),
              if ac_count c =? 0 then 0 else ac_max_unit_bytes c)
        else ([], 0)
      | None => ([], 0)
      end in
    let '(w, _) := rbp_tlv_put_bytes rbp_tlv_writer_init 1 list in
    let '(w, _) := rbp_tlv_put_u32 w 2 max in
    let '(w, _) := rbp_tlv_put_u16 w 3 RBP_AUDIO_CONFIG_MAX in
    respond h RBP_STATUS_OK (w_buf w).

Definition enabled_tlv (enabled waiting : bool) : list Z :=
  let '(w, _) := rbp_tlv_put_bool rbp_tlv_writer_init 1 enabled in
  let '(w, _) := rbp_tlv_put_bool w 2 waiting in
  w_buf w.
(** The arguments of an enable: an error status, or none. *)
Definition voice_enable_check (s : rbp_server) (codecs : option (list Z)) (has_max : bool) (max_unit : Z)
  : option Z :=
  match codecs with
  | None => Some RBP_STATUS_INVALID_ARGUMENT
  | Some codecs =>
    let codec_len := zlen codecs in
    if negb has_max || (codec_len =? 0) || (96 <? codec_len) || negb (codec_len mod 6 =? 0) ||
       (max_unit =? 0) || (RBP_AUDIO_UNIT_MAX <? max_unit)
    then Some RBP_STATUS_INVALID_ARGUMENT
    else match codecs_check (voice_caps s) codecs (codec_steps codec_len) 0 0 false with
    | None => Some RBP_STATUS_INVALID_ARGUMENT
    | Some intersects =>
      if (voice_state s =? RBP_VOICE_READY) &&
         (negb intersects || match voice_caps s with Some c => max_unit <? ac_max_unit_bytes c | None => true end)
      then Some RBP_STATUS_UNSUPPORTED
      else if (delivering s || waiting_idle s) &&
              (negb (accepted_len s =? codec_len) || negb (accepted_max_unit s =? max_unit) ||
               negb (bool_decide (slice (accepted_codecs s) 0 codec_len = codecs)))
      then Some RBP_STATUS_BUSY
      else if negb (voice_state s =? RBP_VOICE_READY) then Some RBP_STATUS_VOICE_UNAVAILABLE
      else None
    end
  end.
Definition voice_enable_on (h : rbp_header_t) (codecs : list Z) (max_unit : Z) : M W unit :=
  modify (fun s =>
    s <| accepted_codecs := splice (accepted_codecs s) 0 codecs |> <| accepted_len := u8 (zlen codecs) |>
      <| accepted_max_unit := max_unit |> <| voice_denied := false |>
      <| voice_resume_peer := if peer_valid s then pr_peer_id (peer s) else 0 |>) ;;
  s <- get ;;
  when (negb (voice_enabled s))
    (modify (fun s => s <| voice_enabled := true |> <| waiting_idle := source_active s |>)) ;;
  s <- get ;;
  respond h RBP_STATUS_OK (enabled_tlv true (waiting_idle s)).
Definition voice_enable_off (h : rbp_header_t) : M W unit :=
  s <- get ;;
  let was := voice_enabled s in
  modify (fun s => s <| accepted_len := 0 |> <| accepted_max_unit := 0 |> <| voice_resume_peer := 0 |>
                     <| voice_denied := true |> <| voice_enabled := false |> <| waiting_idle := false |>) ;;
  when (negb (delivering s) && (source_active s || was)) (call voice_request_stop) ;;
  s <- get ;;
  if delivering s then
    voice_finish_stream RBP_END_CONSUMER_DISABLED true ;;
    modify (fun s =>
      s <| voice_ok_deferred := true |> <| voice_ok_deferred_opcode := h_opcode h |>
        <| voice_ok_deferred_req := h_request_id h |> <| voice_ok_deferred_conn := h_connection_id h |>
        <| voice_ok_deferred_is_enable := true |>) ;;
    when was (call voice_request_stop)
  else respond h RBP_STATUS_OK (enabled_tlv false false).
Definition op_voice_enable (h : rbp_header_t) (rd : rbp_tlv_reader_t) : M W unit :=
  let '(e, enabled, f) := rbp_tlv_get_bool rd 1 false in
  if negb (is_ok e) || negb f then reject h RBP_STATUS_INVALID_ARGUMENT "enabled required"
  else
    s <- get ;;
    if (enabled && negb (conn_ready_for s h)) ||
       (negb enabled && negb (h_connection_id h =? 0) && negb (h_connection_id h =? connection_id s))
    then reject_silent h (not_ready_status s)
    else
      let '(e2, codecs) := rbp_tlv_get_bytes rd 2 in
      let '(e3, max_unit, has_max) := rbp_tlv_get_u32 rd 3 0 in
      if negb (is_ok e2) || negb (is_ok e3) || (negb enabled && (found codecs || has_max))
      then reject_silent h RBP_STATUS_INVALID_ARGUMENT
      else if enabled : bool then
        match voice_enable_check s codecs has_max max_unit with
        | Some status => reject_silent h status
        | None => voice_enable_on h (default [] codecs) max_unit
        end
      else voice_enable_off h.

Definition op_voice_start (h : rbp_header_t) : M W unit :=
  s <- get ;;
  if negb (conn_ready_for s h) then reject_silent h RBP_STATUS_LINK_LOST
  else if negb (voice_state s =? RBP_VOICE_READY) then reject_silent h RBP_STATUS_VOICE_UNAVAILABLE
  else if negb (voice_enabled s) then reject h RBP_STATUS_BAD_STATE "voice not enabled"
  else if source_active s || delivering s || ending s || waiting_idle s
  then reject h RBP_STATUS_BUSY "previous capture not idle"
  else match voice_request_start with
  | None => reject_silent h RBP_STATUS_UNSUPPORTED
  | Some start =>
    status <- outside (start s) ;;
    if negb (status =? RBP_STATUS_OK) then reject_silent h status
    else respond h RBP_STATUS_OK []
  end.

Definition op_voice_stop (h : rbp_header_t) (rd : rbp_tlv_reader_t) : M W unit :=
  s <- get ;;
  if negb (conn_ready_for s h) then reject_silent h (not_ready_status s)
  else
    let '(e, sid, f) := rbp_tlv_get_u32 rd 1 0 in
    if negb (is_ok e) || negb f then reject h RBP_STATUS_INVALID_ARGUMENT "stream_id required"
    else if negb (delivering s) || negb (sid =? stream_id s) then reject h RBP_STATUS_NOT_FOUND "stream"
    else
      when (negb (stop_requested s)) (request_stop (now_ms s)) ;;
      respond h RBP_STATUS_OK [].

(** *** The switch *)
Definition dispatch_opcode (h : rbp_header_t) (rd : rbp_tlv_reader_t) : M W unit :=
  let op := h_opcode h in
  if op =? RBP_OP_PING then op_ping h rd
  else if op =? RBP_OP_GET_DEVICE then op_get_device h
  else if op =? RBP_OP_GET_PEER then op_get_peer h
  else if op =? RBP_OP_GET_OPERATION then op_get_operation h rd
  else if op =? RBP_OP_GET_STATS then op_get_stats h
  else if op =? RBP_OP_GOODBYE then op_goodbye h
  else if op =? RBP_OP_FIND_START then op_find_start h rd
  else if op =? RBP_OP_FIND_LIST then op_find_list h rd
  else if op =? RBP_OP_FIND_STOP then op_find_stop h rd
  else if op =? RBP_OP_PAIR_BEGIN then op_pair_begin h rd
  else if op =? RBP_OP_PAIR_REPLY then op_pair_reply h rd
  else if op =? RBP_OP_PAIR_CANCEL then op_pair_cancel h rd
  else if op =? RBP_OP_FORGET_PEER then op_forget_peer h rd
  else if op =? RBP_OP_SET_RECONNECT then op_set_reconnect h rd
  else if op =? RBP_OP_CONNECT_PEER then op_connect_peer h rd
  else if op =? RBP_OP_DISCONNECT then op_disconnect h
  else if op =? RBP_OP_KEY_CATALOG then op_key_catalog h rd
  else if op =? RBP_OP_KEYS_SNAPSHOT then op_keys_snapshot h
  else if op =? RBP_OP_EVENTS_ENABLE then op_events_enable h rd
  else if op =? RBP_OP_GET_VOICE_CAPS then op_get_voice_caps h
  else if op =? RBP_OP_VOICE_ENABLE then op_voice_enable h rd
  else if op =? RBP_OP_VOICE_START then op_voice_start h
  else if op =? RBP_OP_VOICE_STOP then op_voice_stop h rd
  else reject_silent h RBP_STATUS_UNSUPPORTED.
Definition dispatch_request (h : rbp_header_t) (payload : list Z) : M W unit :=
  if (h_opcode h <? 0x200) && negb (h_connection_id h =? 0)
  then reject h RBP_STATUS_INVALID_ARGUMENT "management connection must be zero"
  else if negb (envelope_ok payload) then reject h RBP_STATUS_INVALID_ARGUMENT "malformed TLV"
  else dispatch_opcode h (rbp_tlv_reader_init payload).
End dispatch.
