(* ===== verification/Server.v ===== *)
(** * Server entry points

    HELLO, frame admission, the USB input pump, the periodic tick and
    initialisation of rbp_server.c, and the list of its entry points as steps
    of one state machine. *)
From Stdlib Require Import String.
From S2P Require Import Prelude Defs Ring Frame Tlv DeviceModel Faults ServerState ServerCore ServerVoice ServerLink ServerDispatch.
#[local] Open Scope string_scope.
#[local] Open Scope Z_scope.
#[local] Open Scope list_scope.
#[local] Open Scope rbp_scope.

(** [memset(s, 0, sizeof *s); s->cfg = *cfg] and the defaults. *)
Definition cfg_defaults (c : rbp_server_cfg_t) : rbp_server_cfg_t :=
  let c := if (cf_max_capture_ms c =? 0) || (120000 <? cf_max_capture_ms c)
           then c <| cf_max_capture_ms := 120000 |> else c in
  if (cf_max_keys c =? 0) || (RBP_MAX_KEYS <? cf_max_keys c)
  then c <| cf_max_keys := RBP_MAX_KEYS |> else c.
Definition server_init (c : rbp_server_cfg_t) : rbp_server :=
  Server (cfg_defaults c) 0 0 (replicate 2048 0) 0 0 (rbp_rxparser_init 0) (replicate 6 ctl_slot0)
    (replicate 3072 0) 0 false 0 0 0 0 0 0 false 0 false false 0 0 0 0 0
    (replicate 4 op_result0) 0 0 false false 0 0 (replicate 8 candidate0) 0 false false 0 0 0 0
    RBP_LINK_UNBOUND 0 peer_record0 false 255 0 RBP_VOICE_ABSENT RBP_VI_UNAVAILABLE 0 false []
    false 0 0 0 (replicate 8 key_item0) 0 0 false false 0 false 0 0 0 0 0 0 0 0 0 0 0 0 0 0 0 0
    None 0 (replicate 96 0) 0 false false 0 false 0 false 0 false 0 0 0 false (replicate 2048 0)
    0 0 (replicate 16 media_marker0) 0 0 false 0 0 false 0 0 0 0.

Section server.
Context {W : Type} `{E : Env W}.

Definition rbp_server_init (c : rbp_server_cfg_t) (w : W) : rbp_server * W :=
  let s := server_init c in
  match store_load with
  | None => (s, w)
  | Some load =>
    let '(rec, w) := load w in
    (match rec with
     | None => s
     | Some rec =>
       let s := s <| peer := rec |> <| peer_valid := negb (pr_peer_id rec =? 0) |> in
       s <| link_state := if peer_valid s then RBP_LINK_DISCONNECTED else RBP_LINK_UNBOUND |>
     end, w)
  end.

(** ** HELLO *)
Definition hello_shape_ok (h : rbp_header_t) (len : Z) : bool :=
  (h_kind h =? RBP_KIND_REQUEST) && (h_flags h =? 0) && (h_status h =? 0) && (h_session_id h =? 0) &&
  (h_connection_id h =? 0) && (h_request_id h =? 1) && (h_tx_seq h =? 1) && (h_payload_size h =? len) &&
  (h_magic0 h =? RBP_MAGIC0) && (h_magic1 h =? RBP_MAGIC1) && (h_header_size h =? RBP_HEADER_SIZE) &&
  (h_reserved h =? 0).
Definition hello_nonce (payload : list Z) : option (list Z) :=
  let '(e, nonce) := rbp_tlv_get_bytes (rbp_tlv_reader_init payload) 1 in
  match nonce with
  | Some n => if is_ok e && (zlen n =? 16) then Some n else None
  | None => None
  end.
(** A frame of another version is answered in place, outside any session. *)
Definition hello_version_mismatch (nonce : option (list Z)) : M W unit :=
  let rh := header0 <| h_kind := RBP_KIND_RESPONSE |> <| h_session_id := 0 |> <| h_tx_seq := 1 |>
              <| h_request_id := 1 |> <| h_opcode := RBP_OP_HELLO |>
              <| h_status := RBP_STATUS_VERSION_MISMATCH |> in
  let w := match nonce with Some n => w_buf (fst (rbp_tlv_put_bytes rbp_tlv_writer_init 3 n)) | None => [] end in
  let '(_, tmp) := rbp_frame_encode rh rbp_txseq_init (Some w) (zlen w) in
  modify (fun s =>
    match ring_write (out_ring s) OUT_RING_SIZE (out_head s) (out_len s) tmp with
    | Some (ring, len) => s <| out_ring := ring |> <| out_len := len |>
    | None => s
    end) ;;
  out_drain.
Definition hello_tlv (s : rbp_server) (nonce : list Z) : list Z :=
  let '(w, _) := rbp_tlv_put_bytes rbp_tlv_writer_init 1 nonce in
  let '(w, _) := rbp_tlv_put_bytes w 2 (cf_bridge_uid (cfg s)) in
  let '(w, _) := rbp_tlv_put_text w 3 (default (cstr "0.0") (cf_firmware_version (cfg s))) in
  let '(w, _) := rbp_tlv_put_u8 w 4 (cf_max_keys (cfg s)) in
  let '(w, _) := rbp_tlv_put_u16 w 5 RBP_MAX_PAYLOAD in
  let '(w, _) := rbp_tlv_put_u32 w 6
    (Z.lor (Z.lor (Z.lor RBP_FEAT_ENCODED_VOICE RBP_FEAT_INTERACTIVE_PAIR) RBP_FEAT_BOND_SAVE)
           RBP_FEAT_AUTO_RECONNECT) in
  w_buf w.
Definition handle_hello (h : rbp_header_t) (payload : list Z) : M W unit :=
  let nonce := hello_nonce payload in
  if negb (hello_shape_ok h (zlen payload))
  then modify (fun s => s <| stat_protocol_errors ::= fun n => u32 (n + 1) |>)
  else if negb (h_major h =? RBP_MAJOR) || negb (h_minor h =? RBP_MINOR)
  then hello_version_mismatch nonce
  else match nonce with
  | None => reject h RBP_STATUS_INVALID_ARGUMENT "nonce required" ;; out_drain
  | Some nonce =>
    if negb (h_session_id h =? 0)
    then reject h RBP_STATUS_INVALID_ARGUMENT "session must be 0" ;; out_drain
    else
      session_create ;;
      modify (fun s => s <| req_hwm := h_request_id h |> <| client_tx_hwm := 1 |>
                         <| have_client_seq := true |>) ;;
      s <- get ;;
      ctl_enqueue RBP_KIND_RESPONSE RBP_OP_HELLO RBP_STATUS_OK (h_request_id h) 0 (hello_tlv s nonce) ;;
      out_drain
  end.

(** ** Admission of a frame *)
Definition protocol_error : M W unit :=
  modify (fun s => s <| stat_protocol_errors ::= fun n => u32 (n + 1) |>).
(** The tail of [process_frame]: a request id is executed once. *)
Definition accept_request (h : rbp_header_t) (payload : list Z) : M W unit :=
  s <- get ;;
  if h_request_id h =? 0 then reject h RBP_STATUS_INVALID_ARGUMENT "request_id required"
  else if h_request_id h <=? req_hwm s then reject_silent h RBP_STATUS_DUPLICATE
  else
    modify (fun s => s <| req_hwm := h_request_id h |>) ;;
    dispatch_request h payload.
Definition process_frame (h : rbp_header_t) (payload : list Z) (crc_ok : bool) : M W unit :=
  s <- get ;;
  if negb crc_ok then when (session_active s) (protocol_error ;; session_teardown)
  else if negb (h_payload_size h =? zlen payload) || negb (h_flags h =? 0) ||
          negb (h_reserved h =? 0) || negb (h_status h =? 0)
  then protocol_error ;; when (session_active s) session_teardown
  else if negb (h_kind h =? RBP_KIND_REQUEST) then when (session_active s) protocol_error
  else if h_opcode h =? RBP_OP_HELLO then handle_hello h payload
  else if negb (h_major h =? RBP_MAJOR) || negb (h_minor h =? RBP_MINOR)
  then when (session_active s) session_teardown
  else if negb (session_active s) || negb (h_session_id h =? session_id s) then ret tt
  else if (h_tx_seq h =? 0) || (client_tx_hwm s =? UINT32_MAX) ||
          negb (h_tx_seq h =? client_tx_hwm s + 1)
  then protocol_error ;; session_teardown
  else
    modify (fun s => s <| client_tx_hwm := h_tx_seq h |> <| last_req_ms := now_ms s |>) ;;
    accept_request h payload.

Definition server_rx_event (ev : rbp_rx_event_t) : M W unit :=
  s <- get ;;
  match ev with
  | RBP_RX_FRAME h payload crc_ok => process_frame h payload crc_ok
  | RBP_RX_NONE => ret tt
  | _ => when (session_active s) (protocol_error ;; session_teardown)
  end.
(** The pump runs on [s->rx] while its callback runs on the rest of the server;
    no function the callback reaches touches [rx]. *)
Definition rbp_server_on_usb_rx (data : list Z) (now : Z) : M W unit := fun σ =>
  let '(s, w) := σ in
  let s := s <| now_ms := now |> in
  let '(p, (s, w)) :=
    rbp_rx_drain (fun ev σ => exec (server_rx_event ev) σ) (rx s) data now (s, w) in
  (tt, (s <| rx := p |>, w)).

(** ** Tick *)
Definition tick_rx_timeout (now : Z) : M W unit :=
  s <- get ;;
  let '(p, ev, _) := rbp_rxparser_feed (rx s) [] now in
  modify (fun s => s <| rx := p |>) ;;
  match ev with RBP_RX_TIMEOUT => protocol_error ;; session_teardown | _ => ret tt end.
Definition tick_heartbeat (now : Z) : M W unit :=
  s <- get ;;
  when (session_active s && (HEARTBEAT_TIMEOUT_MS <? u32 (now - last_req_ms s))) session_teardown.
Definition tick_find (now : Z) : M W unit :=
  s <- get ;;
  when (find_active s && (0 <=? s32 (now - find_end_ms s)))
    (modify (fun s => s <| find_active := false |> <| find_valid := true |>) ;;
     call stop_find ;;
     send_find_done RBP_FIND_DONE_EXPIRED) ;;
  s <- get ;;
  when (find_valid s && negb (find_active s) && (CANDIDATE_TTL_MS <? u32 (now - find_end_ms s)))
    (modify (fun s => s <| find_valid := false |> <| cand_count := 0 |>)).
Definition tick_prompt (now : Z) : M W unit :=
  s <- get ;;
  when (prompt_active s && (0 <=? s32 (now - prompt_expiry_ms s)))
    (modify (fun s => s <| prompt_active := false |>) ;; request_pair_cancel).
Definition tick_operation (now : Z) : M W unit :=
  s <- get ;;
  when (op_active s && (0 <=? s32 (now - op_deadline_ms s)))
    (let result := if op_kind s =? OPK_FORGET then RBP_STATUS_STORAGE_FAILED else RBP_STATUS_TIMEOUT in
     modify (fun s => s <| op_active := false |>) ;;
     when (op_kind s =? OPK_PAIR) request_pair_cancel ;;
     s <- get ;;
     op_complete (op_id s) result (op_peer_id s) (op_connection_id s) true).
Definition tick_source (now : Z) : M W unit :=
  s <- get ;;
  if negb (source_active s) then ret tt
  else if stop_requested s && (0 <=? s32 (now - stop_deadline_ms s)) then
    modify (fun s => s <| stop_deadline_ms := u32 (now + VOICE_STOP_MS) |>
                       <| stat_voice_errors ::= fun n => u32 (n + 1) |>
                       <| voice_enabled := false |> <| voice_state := RBP_VOICE_FAILED |>) ;;
    voice_finish_stream RBP_END_DEVICE_ERROR true ;;
    s <- get ;; send_device_state (connection_id s) ;;
    call disconnect
  else if negb (stop_requested s) && (0 <=? s32 (now - capture_deadline_ms s)) then
    modify (fun s => s <| capture_limited := true |>) ;;
    request_stop now
  else if negb (stop_requested s) then
    if negb (got_audio_this_stream s) && (0 <=? s32 (now - first_audio_deadline s))
    then voice_fault RBP_END_DEVICE_ERROR
    else if got_audio_this_stream s && (0 <=? s32 (now - progress_deadline s)) then
      modify (fun s => s <| stat_voice_errors ::= fun n => u32 (n + 1) |>) ;;
      voice_finish_stream RBP_END_DEVICE_ERROR true ;;
      request_stop now
    else ret tt
  else ret tt.
Definition tick_deferred : M W unit :=
  s <- get ;;
  when (voice_ok_deferred s && session_active s && negb (delivering s) && (media_count s =? 0))
    (ctl_enqueue RBP_KIND_RESPONSE (voice_ok_deferred_opcode s) RBP_STATUS_OK (voice_ok_deferred_req s)
       (voice_ok_deferred_conn s)
       (if voice_ok_deferred_is_enable s then enabled_tlv false false else []) ;;
     modify (fun s => s <| voice_ok_deferred := false |>)).
Definition rbp_server_tick (now : Z) : M W unit :=
  modify (fun s => s <| now_ms := now |>) ;;
  tick_rx_timeout now ;; tick_heartbeat now ;; tick_find now ;; tick_prompt now ;;
  tick_operation now ;; tick_source now ;; tick_deferred ;;
  rbp_server_flush_output.

(** ** Entry points *)
Inductive api :=
  | ATick (now : Z) | AFlush | AUsbRx (data : list Z) (now : Z) | AUsbGone (now : Z)
  | AScanCandidate (c : rbp_candidate_t) | AScanDone (reason now : Z)
  | APairPrompt (method number remaining : Z)
  | APairDone (status : Z) (committed : bool) (p : option rbp_peer_record_t) (conn : Z)
  | AForgetDone (status : Z) (uncertain : bool)
  | ALink (state : rbp_link_state_t) (conn now : Z) | ALinkMessage (msg : list Z)
  | APeerChanged (p : rbp_peer_record_t) | AKeys (rep : rbp_keys_report_t)
  | AVoice (ev : rbp_voice_evt_t) (now : Z) | AVoiceState (vs interaction rate : Z)
  | AVoiceCaps (caps : option rbp_audio_caps_t) | ABattery (level chg : Z)
  | ASetProfile (p : option rbp_device_profile_t) | AAdapterFailed (reason : list Z).
Definition run_api (a : api) : M W unit :=
  match a with
  | ATick now => rbp_server_tick now
  | AFlush => rbp_server_flush_output
  | AUsbRx data now => rbp_server_on_usb_rx data now
  | AUsbGone now => rbp_server_on_usb_gone now
  | AScanCandidate c => modify (rbp_server_on_scan_candidate c)
  | AScanDone reason now => rbp_server_on_scan_done reason now
  | APairPrompt method number remaining => rbp_server_on_pair_prompt method number remaining
  | APairDone status committed p conn => rbp_server_on_pair_done status committed p conn
  | AForgetDone status uncertain => rbp_server_on_forget_done status uncertain
  | ALink state conn now => rbp_server_on_link state conn now
  | ALinkMessage msg => modify (rbp_server_on_link_message msg)
  | APeerChanged p => modify (rbp_server_on_peer_changed p)
  | AKeys rep => modify (rbp_server_on_keys rep)
  | AVoice ev now => rbp_server_on_voice ev now
  | AVoiceState vs interaction rate => rbp_server_on_voice_state vs interaction rate
  | AVoiceCaps caps => modify (rbp_server_set_voice_caps caps)
  | ABattery level chg => rbp_server_on_battery level chg
  | ASetProfile p => rbp_server_set_profile p
  | AAdapterFailed reason => rbp_server_adapter_failed reason
  end.
End server.
