(* ===== verification/ServerInv.v ===== *)
(** * The server invariant

    The structural invariant of the server: its rings and queues are well
    formed, buffer indices stay inside their buffers, and the session flag
    agrees with the session id.  It is preserved by every operation, for every
    environment whose backend calls preserve it: a backend may call back into
    the server, so the interface asks of it what the server proves of itself. *)
From S2P Require Import Prelude Defs Ring Cobs Frame Tlv DeviceModel Faults ServerState ServerCore CtlQueue MediaQueue ServerVoice ServerLink ServerDispatch Server.

Definition key_item_ok (k : key_item_t) : Prop := zlen (ki_buf k) = RBP_KEYS_STRUCT_SIZE.
Definition candidate_ok (c : rbp_candidate_t) : Prop := zlen (cd_name c) = 48.

Record server_wf (s : rbp_server) : Prop := ServerWf {
  wf_out : ring_wf OUT_RING_SIZE (out_ring s) (out_head s) (out_len s);
  wf_rx : rx_wf (rx s);
  wf_ctl : ctl_wf s;
  wf_keys : ring_wf RBP_KEY_QUEUE_DEPTH (key_q s) (key_q_head s) (key_q_count s) /\
            Forall key_item_ok (key_q s);
  wf_media : media_wf s;
  wf_ops : ring_wf RBP_MAX_OPERATION_RESULTS (ops_done s) (ops_done_head s) (ops_done_count s);
  wf_cand : zlen (cand s) = RBP_MAX_CANDIDATES /\ 0 <= cand_count s <= RBP_MAX_CANDIDATES /\
            Forall candidate_ok (cand s);
  wf_accepted : zlen (accepted_codecs s) = 96 /\ 0 <= accepted_len s <= 96 /\ accepted_len s mod 6 = 0;
  wf_session : session_active s = negb (session_id s =? 0) /\
               0 <= session_id s <= session_counter s /\ session_counter s <= UINT32_MAX;
  wf_txseq : 0 <= txseq s <= UINT32_MAX }.

(** ** How an operation may change the session

    [calm]: the session stays or is closed, and the watermarks of admission are
    untouched.  [fresh]: the session is closed; or it stays and its watermarks
    do not go back; or one is opened, under an id no earlier session had. *)
Definition admission (s : rbp_server) : Z * Z * Z := (session_counter s, client_tx_hwm s, req_hwm s).
Definition calm (s s' : rbp_server) : Prop :=
  admission s' = admission s /\ (session_id s' = session_id s \/ session_id s' = 0).
Definition fresh (s s' : rbp_server) : Prop :=
  session_counter s <= session_counter s' /\
  (session_id s' = 0 \/
   (session_id s' = session_id s /\ client_tx_hwm s <= client_tx_hwm s' /\ req_hwm s <= req_hwm s') \/
   session_counter s < session_id s' <= session_counter s').
#[export] Instance calm_preorder : PreOrder calm.
Proof.
  split; [intros s; by split; [|left]|]. intros s1 s2 s3 [H1 H2] [H3 H4].
  split; [congruence|]. lia.
Qed.
#[export] Instance fresh_preorder : PreOrder fresh.
Proof.
  split; [intros s; unfold fresh; lia|]. intros s1 s2 s3 [H1 H2] [H3 H4]. unfold fresh. lia.
Qed.
Lemma calm_fresh s s' : calm s s' -> fresh s s'.
Proof. unfold calm, fresh, admission. intros [[= H1 H2 H3] H]. lia. Qed.

(** ** Preservation, along the monad *)
Section monad.
Context {W : Type}.
Definition keeps_at (R : relation rbp_server) (s : rbp_server) {A} (m : M W A) : Prop :=
  forall w, server_wf (fst (snd (m (s, w)))) /\ R s (fst (snd (m (s, w)))).
Definition keeps (R : relation rbp_server) {A} (m : M W A) : Prop :=
  forall s, server_wf s -> keeps_at R s m.

Context {R : relation rbp_server} `{!PreOrder R}.
Lemma keeps_at_ret s {A} (a : A) : server_wf s -> keeps_at R s (ret a).
Proof. intros H w. split; [exact H|]. reflexivity. Qed.
Lemma keeps_ret {A} (a : A) : keeps R (ret a).
Proof. intros s. apply keeps_at_ret. Qed.
Lemma keeps_get : keeps R get.
Proof. intros s H w. split; [exact H|]. cbn. reflexivity. Qed.
Lemma keeps_at_bind {A B} s (m : M W A) (k : A -> M W B) :
  keeps_at R s m -> (forall a, keeps R (k a)) -> keeps_at R s (bind m k).
Proof.
  intros Hm Hk w. specialize (Hm w). unfold bind.
  destruct (m (s, w)) as [a [s' w']]. destruct Hm as [H1 H2].
  destruct (Hk a s' H1 w') as [H3 H4]. split; [exact H3|]. by etrans.
Qed.
(** The continuation may use what the first part establishes. *)
Lemma keeps_at_bind_post {A B} (P : rbp_server -> Prop) s (m : M W A) (k : A -> M W B) :
  keeps_at R s m -> (forall w, P (fst (snd (m (s, w))))) ->
  (forall a s1, server_wf s1 -> P s1 -> keeps_at R s1 (k a)) -> keeps_at R s (bind m k).
Proof.
  intros Hm HP Hk w. specialize (Hm w). specialize (HP w). unfold bind.
  destruct (m (s, w)) as [a [s1 w1]]. destruct Hm as [H1 H2].
  destruct (Hk a s1 H1 HP w1) as [H3 H4]. split; [exact H3|]. by etrans.
Qed.
Lemma keeps_bind {A B} (m : M W A) (k : A -> M W B) :
  keeps R m -> (forall a, keeps R (k a)) -> keeps R (bind m k).
Proof. intros Hm Hk s Hs. apply keeps_at_bind; [by apply Hm|done]. Qed.
(** After [get] the continuation may use the state it was given. *)
Lemma keeps_get_at {B} (k : rbp_server -> M W B) :
  (forall s, server_wf s -> keeps_at R s (k s)) -> keeps R (bind get k).
Proof. intros Hk s Hs w. by apply Hk. Qed.
Lemma keeps_get_bind {B} (k : rbp_server -> M W B) :
  (forall s, server_wf s -> keeps R (k s)) -> keeps R (bind get k).
Proof. intros Hk. apply keeps_get_at. intros s Hs. by apply Hk. Qed.
Lemma keeps_modify f :
  (forall s, server_wf s -> server_wf (f s) /\ R s (f s)) -> keeps R (modify f).
Proof. intros Hf s Hs w. by apply Hf. Qed.
Lemma keeps_at_modify_bind {B} s f (k : unit -> M W B) :
  server_wf (f s) -> R s (f s) -> keeps R (k tt) -> keeps_at R s (bind (modify f) k).
Proof.
  intros Hs HR Hk w. destruct (Hk (f s) Hs w) as [H1 H2]. split; [exact H1|]. by etrans.
Qed.
Lemma keeps_outside {A} (f : W -> A * W) : keeps R (outside f).
Proof.
  intros s Hs w. unfold outside. cbn. destruct (f w). split; [exact Hs|]. reflexivity.
Qed.
Lemma keeps_when b (m : M W unit) : keeps R m -> keeps R (when b m).
Proof. intros Hm. destruct b; [exact Hm|apply keeps_ret]. Qed.
End monad.
Lemma keeps_calm {W A} (m : M W A) : keeps calm m -> keeps fresh m.
Proof. intros H s Hs w. destruct (H s Hs w). split; [done|by apply calm_fresh]. Qed.
Create HintDb wf.
#[export] Hint Resolve keeps_ret keeps_get keeps_outside calm_preorder fresh_preorder : wf.
#[export] Hint Extern 9 (keeps fresh _) => apply keeps_calm : wf.

(** ** The interface with the environment

    A backend call may call back into the server; it may close the session but
    not open one.  The transport accepts a prefix of what it is offered. *)
Class EnvOk (W : Type) (E : Env W) : Prop := {
  ok_start_find d : keeps calm (start_find d);
  ok_stop_find : keeps calm (call stop_find);
  ok_pair_begin c : keeps calm (call (pair_begin c));
  ok_pair_reply a b k : keeps calm (call (pair_reply a b k));
  ok_pair_cancel : keeps calm (call pair_cancel);
  ok_forget_peer : keeps calm (call forget_peer);
  ok_connect_peer : keeps calm (call connect_peer);
  ok_disconnect : keeps calm (call disconnect);
  ok_voice_request_stop : keeps calm (call voice_request_stop);
  ok_out data w : 0 <= fst (out data w) <= zlen data }.
#[export] Hint Resolve ok_start_find ok_stop_find ok_pair_begin ok_pair_reply ok_pair_cancel
  ok_forget_peer ok_connect_peer ok_disconnect ok_voice_request_stop : wf.

(** An update of fields the invariant does not mention. *)
Ltac frame_wf :=
  match goal with
  | H : server_wf ?s |- server_wf _ => destruct H; constructor; assumption
  end.
Ltac frame :=
  let s := fresh "s" in let H := fresh "H" in
  intros s H;
  split; [destruct H; constructor; assumption|first [by split; [|left]|by split; [done|left]]].
(** Walks a program: binds, tests, matches, and the operations already proved. *)
Ltac walk :=
  repeat match goal with
  | |- forall _, _ => intro
  | _ => solve [auto 3 with wf]
  | |- keeps _ (bind _ _) => apply keeps_bind
  | |- keeps _ (when _ _) => apply keeps_when
  | |- keeps _ (modify _) => apply keeps_modify; solve [frame]
  | |- keeps _ (if ?b then _ else _) => destruct b
  | |- keeps _ (match ?x with _ => _ end) => destruct x
  end.

(** ** State updates *)
Lemma truncate_out_le n ring head i len :
  0 <= i -> i + Z.of_nat n = len -> i <= truncate_out n ring head i len <= len.
Proof.
  revert i. induction n as [|n IH]; intros i Hi Hl; cbn; [lia|].
  split_if; [lia|]. specialize (IH (i + 1) ltac:(lia) ltac:(lia)). lia.
Qed.

Lemma ctl_clear_rep s : ctl_wf s -> ctl_rep (ctl_clear s) [].
Proof.
  intros (msgs & (Hl & Hp & Hu) & _). split.
  - unfold ctl_shape, ctl_clear. cbn. rewrite length_map. split; [done|]. split; [done|]. sizes.
  - exists []. split; [|done]. split; [constructor|]. split; [|done]. intros i sl Hi.
    unfold ctl_clear in Hi. cbn in Hi. rewrite list_lookup_fmap in Hi.
    destruct (ctl s !! i); [|done]. inv Hi. split; [done|set_solver].
Qed.
Lemma ring_reset {A} cap (r : list A) h n : 0 < cap -> ring_wf cap r h n -> ring_wf cap r 0 0.
Proof. intros ? (Hl & _). repeat split; lia. Qed.
Lemma media_reset_rep s :
  media_wf s -> media_rep (s <| media_head := 0 |> <| media_count := 0 |> <| audio_head := 0 |> <| audio_len := 0 |>) [].
Proof.
  intros (recs & Hq & Ha & _). split; [exact (ring_reset MEDIA_DEPTH _ _ _ ltac:(sizes) Hq)|].
  split; [exact (ring_reset AUDIO_POOL_SIZE _ _ _ ltac:(sizes) Ha)|]. split; [done|]. split; [done|constructor].
Qed.

Lemma session_withdraw_wf s : server_wf s -> server_wf (session_withdraw s).
Proof.
  intros [Ho Hr Hc [Hk Hk'] Hm Hop Hcd (Ha & _) [_ Hs] Ht]. unfold session_withdraw.
  pose proof (media_reset_rep _ Hm) as Hm'.
  pose proof (truncate_out_le (Z.to_nat (out_len s)) (out_ring s) (out_head s) 0 (out_len s)
    ltac:(lia) ltac:(destruct Ho as (_ & _ & ?); lia)) as Htr.
  destruct (op_kind s =? OPK_PAIR); cbn [source_active session_stop_delivery ctl_clear upd];
    destruct (source_active s) eqn:Es; unfold session_stop_delivery, ctl_clear; cbn; rewrite ?Es;
    (constructor;
     [ destruct Ho as (Hl & Hh & Hn); split; [exact Hl|split; [exact Hh|cbn; lia]]
     | exact Hr
     | exists []; exact (ctl_clear_rep _ Hc)
     | split; [exact (ring_reset RBP_KEY_QUEUE_DEPTH _ _ _ ltac:(sizes) Hk)|exact Hk']
     | exists []; exact Hm'
     | exact (ring_reset RBP_MAX_OPERATION_RESULTS _ _ _ ltac:(sizes) Hop)
     | exact Hcd
     | split; [exact Ha|split; [cbn; lia|done]]
     | split; [done|cbn; lia]
     | exact Ht ]).
Qed.
Lemma withdraw_calm s : calm s (session_withdraw s).
Proof.
  unfold session_withdraw. destruct (op_kind s =? OPK_PAIR); cbn;
    destruct (source_active s); (split; [done|by right]).
Qed.

(** The output ring after a frame. *)
Lemma server_wf_out s ring len n :
  server_wf s -> ring_wf OUT_RING_SIZE ring (out_head s) len -> 0 <= n <= UINT32_MAX ->
  server_wf (s <| out_ring := ring |> <| out_len := len |> <| txseq := n |>).
Proof. intros [] H Hn. constructor; assumption. Qed.
Lemma server_wf_drain s head len :
  server_wf s -> ring_wf OUT_RING_SIZE (out_ring s) head len ->
  server_wf (s <| out_head := head |> <| out_len := len |>).
Proof. intros [] H. constructor; assumption. Qed.

Section server.
Context {W : Type} `{E : Env W} `{!EnvOk W E}.

(** ** Session *)
Lemma keeps_rng : keeps (W := W) calm rng_u32.
Proof. unfold rng_u32. walk. Qed.
Lemma keeps_request_pair_cancel : keeps calm request_pair_cancel.
Proof. unfold request_pair_cancel. walk. Qed.
#[local] Hint Resolve keeps_rng keeps_request_pair_cancel : wf.
Lemma keeps_teardown : keeps calm session_teardown.
Proof.
  unfold session_teardown. walk. apply keeps_modify. intros s Hs.
  split; [by apply session_withdraw_wf|apply withdraw_calm].
Qed.
#[local] Hint Resolve keeps_teardown : wf.

(** After a teardown there is no session. *)
Lemma teardown_closed s w : server_wf s -> session_id (fst (snd (session_teardown (s, w)))) = 0.
Proof.
  intros Hs. assert (keeps calm
    (s0 <- get ;;
     when ((op_active s && (op_kind s =? OPK_PAIR)) || prompt_active s) request_pair_cancel ;;
     when (find_active s) (call stop_find) ;;
     when ((source_active s || voice_enabled s) && negb (stop_requested s)) (call voice_request_stop))) as H
    by walk.
  destruct (H (session_withdraw s) (session_withdraw_wf s Hs) w) as [_ [_ Hid]].
  assert (session_id (session_withdraw s) = 0) as H0
    by (unfold session_withdraw; destruct (op_kind s =? OPK_PAIR); cbn; by destruct (source_active s)).
  rewrite H0 in Hid. unfold session_teardown. cbn in *. lia.
Qed.
Lemma keeps_create : keeps fresh session_create.
Proof.
  unfold session_create. intros s Hs. apply (keeps_at_bind_post (fun s => session_id s = 0)).
  { exact (keeps_calm _ keeps_teardown s Hs). }
  { intros w. by apply teardown_closed. }
  intros _ s1 H1 H0 w. pose proof H1 as []. unfold bind, get, modify. cbn [fst snd].
  change (session_counter (s1 <| session_active := true |>)) with (session_counter s1).
  destruct (session_counter s1 =? UINT32_MAX) eqn:Em; cbn [fst snd].
  - split; [constructor; try assumption|apply calm_fresh; split; [done|by left]].
    cbn. rewrite H0. split; [done|lia].
  - split; [constructor; try assumption|].
    + cbn. replace (_ =? 0) with false by lia. split; [done|unfold UINT32_MAX in *; lia].
    + done.
    + split; [|right; right]; cbn; lia.
Qed.
#[local] Hint Resolve keeps_create : wf.
(** A new session starts with its watermarks at zero. *)
Lemma create_marks s w :
  server_wf s ->
  let s' := fst (snd (session_create (s, w))) in
  session_id s' = 0 \/ (client_tx_hwm s' = 0 /\ req_hwm s' = 0).
Proof.
  intros Hs. unfold session_create. pose proof (teardown_closed s w Hs) as H0. unfold bind.
  destruct (session_teardown (s, w)) as [[] [s1 w1]]. cbn in H0. unfold get, modify. cbn [fst snd].
  destruct (_ =? UINT32_MAX); cbn; auto.
Qed.

(** ** Output

    A frame is refused with the state as it was or the session torn down, or
    its bytes follow those already queued and the sequence number advances. *)
Definition frame_wire (s : rbp_server) (h : rbp_header_t) (payload : list Z) : list Z :=
  rbp_cobs_encode (raw_frame (stamp_header h (txseq s) (zlen payload)) payload) ++ [0].
Definition frame_out (s : rbp_server) (h : rbp_header_t) (payload : list Z) (s' : rbp_server) : Prop :=
  exists ring len,
    zlen payload <= RBP_MAX_PAYLOAD /\ 0 < txseq s < UINT32_MAX /\
    ring_write (out_ring s) OUT_RING_SIZE (out_head s) (out_len s) (frame_wire s h payload) = Some (ring, len) /\
    s' = s <| out_ring := ring |> <| out_len := len |> <| txseq := txseq s + 1 |>.
Lemma try_frame_spec h payload s w :
  server_wf s ->
  match out_try_frame h payload (s, w) with
  | (true, (s', w')) => w' = w /\ frame_out s h payload s'
  | (false, (s', w')) => (s', w') = (s, w) \/
      ((txseq s = 0 \/ txseq s = UINT32_MAX) /\ (s', w') = exec session_teardown (s, w))
  end.
Proof.
  intros [_ _ _ _ _ _ _ _ _ Ht]. unfold out_try_frame, bind at 1, get. cbn [fst snd].
  destruct ((txseq s =? 0) || (txseq s =? UINT32_MAX)) eqn:Et.
  { unfold bind, ret, exec. destruct (session_teardown (s, w)) as [[] [s' w']]. right. split; [lia|done]. }
  destruct (_ <? _); [by left|]. destruct (RBP_MAX_PAYLOAD <? zlen payload) eqn:Em.
  { unfold rbp_frame_encode, encode_payload. rewrite Em. cbn. by left. }
  rewrite frame_encode_stream by lia. fold (frame_wire s h payload).
  destruct (zlen _ =? 0) eqn:Ez; [by left|].
  destruct (OUT_RING_SIZE - out_len s <? zlen _) eqn:Ef; [by left|].
  cbn. destruct (ring_write _ _ _ _ _) as [[ring len]|] eqn:Ew.
  2: { apply ring_write_None in Ew. lia. }
  split; [done|]. exists ring, len. rewrite u32_small by words.
  split_and!; try done; lia.
Qed.
Lemma frame_out_wf s h payload s' : server_wf s -> frame_out s h payload s' -> server_wf s' /\ calm s s'.
Proof.
  intros Hs (ring & len & _ & Ht & Hw & ->). split; [|by split; [|left]].
  apply server_wf_out; [done| |lia]. destruct Hs as [Ho]. by destruct (ring_write_view _ _ _ _ _ _ _ Ho Hw).
Qed.
Lemma try_frame_bind s h payload (k : M W bool) :
  server_wf s -> (forall s', frame_out s h payload s' -> server_wf s' -> keeps_at calm s' k) ->
  keeps_at calm s (ok <- out_try_frame h payload ;; if negb ok then ret false else k).
Proof.
  intros Hs Hk w. pose proof (try_frame_spec h payload s w Hs) as H. unfold bind.
  destruct (out_try_frame h payload (s, w)) as [[|] [s' w']]; cbn [negb].
  - destruct H as [-> H]. destruct (frame_out_wf _ _ _ _ Hs H) as [H1 H2].
    destruct (Hk s' H H1 w) as [H3 H4]. split; [done|by etrans].
  - destruct H as [[= -> ->]|[_ H]]; [by split|]. destruct (keeps_teardown s Hs w) as [H1 H2].
    unfold exec in H. by rewrite <- H in H1, H2.
Qed.

Lemma keeps_drain_round : keeps calm out_drain_round.
Proof.
  unfold out_drain_round. intros s Hs w. unfold bind, get. cbn [fst snd].
  pose proof (wf_out _ Hs) as Ho. pose proof Ho as (Hl & Hh & Hn).
  set (c1 := if 64 <? out_len s then 64 else out_len s).
  set (chunk := if _ <? c1 then _ else c1).
  assert (0 <= chunk <= out_len s /\ out_head s + chunk <= OUT_RING_SIZE) as [Hc Hc'].
  { assert (0 <= c1 <= out_len s) by (unfold c1; split_if; lia). unfold chunk. split_if; lia. }
  unfold outside. cbn [fst snd]. pose proof (ok_out (slice (out_ring s) (out_head s) chunk) w) as Hsent.
  rewrite zlen_slice in Hsent by lia.
  destruct (out _ w) as [sent w1]. cbn [fst] in Hsent. destruct (sent =? 0); [by split; [exact Hs|]|].
  cbn. split; [|by split; [|left]]. apply server_wf_drain; [exact Hs|].
  by destruct (rview_advance _ _ _ _ sent Ho ltac:(lia)).
Qed.
#[local] Hint Resolve keeps_drain_round : wf.
Lemma keeps_drain_loop fuel : keeps calm (out_drain_loop fuel).
Proof. induction fuel as [|fuel IH]; cbn [out_drain_loop]; walk. Qed.
#[local] Hint Resolve keeps_drain_loop : wf.
Lemma keeps_drain : keeps calm out_drain.
Proof. unfold out_drain. walk. Qed.
#[local] Hint Resolve keeps_drain : wf.

(** ** Control queue *)
Lemma enqueue_rep s msgs i sl payload :
  ctl_rep s msgs -> ctl_free (ctl s) 0 = Some i ->
  (RBP_MAX_PAYLOAD <? zlen payload) || (RBP_CTL_BYTES - ctl_used s <? zlen payload) = false ->
  cs_used sl = true -> cs_offset sl = ctl_used s -> cs_len sl = zlen payload ->
  ctl_rep (ctl_put s i sl payload) (msgs ++ [CtlMsg (slot_header sl) payload]).
Proof.
  intros Hm Hi Hroom Hu Hof Hln.
  apply ctl_free_spec in Hi as (Hi & old & Hold & Hou). rewrite Z.sub_0_r in Hold.
  apply (ctl_put_rep s msgs i old); (done || lia).
Qed.
Lemma keeps_enqueue kind opcode status request_id connection_id payload :
  keeps calm (ctl_enqueue kind opcode status request_id connection_id payload).
Proof.
  unfold ctl_enqueue. apply keeps_get_at. intros s Hs. destruct (ctl_free _ _) as [i|] eqn:Ef.
  - destruct (_ || _) eqn:Er; [apply (keeps_bind (modify _)); [|auto with wf|done]; apply keeps_modify; frame|].
    intros w. destruct (wf_ctl _ Hs) as [msgs Hm]. split; [|by split; [|left]].
    pose proof (enqueue_rep s msgs i (CtlSlot true kind status opcode request_id connection_id (session_id s)
      (zlen payload) (ctl_used s) (next_order s)) payload Hm Ef Er eq_refl eq_refl eq_refl) as H.
    destruct Hs. constructor; try assumption. eexists. exact H.
  - apply (keeps_bind (modify _)); [|auto with wf|done]. apply keeps_modify. frame.
Qed.
#[local] Hint Resolve keeps_enqueue : wf.

Lemma release_wf s n sl :
  server_wf s -> ctl s !! n = Some sl -> cs_used sl = true -> server_wf (ctl_release s (Z.of_nat n)).
Proof.
  intros Hs Hn Hu. destruct (wf_ctl _ Hs) as [msgs Hm].
  destruct (ctl_release_rep _ _ _ _ Hm Hn Hu) as (m1 & m2 & _ & H).
  destruct Hs. constructor; try assumption. by exists (m1 ++ m2).
Qed.
Lemma keeps_pop : keeps calm ctl_pop.
Proof.
  unfold ctl_pop. apply keeps_get_at. intros s Hs.
  destruct (ctl_peek_order s) as [o|] eqn:Ep; [|by apply keeps_at_ret].
  destruct (ctl_peek_find s o Ep) as (n & sl & -> & Hn & Hu & _ & -> & _).
  apply try_frame_bind; [done|]. intros s' (ring & len & _ & _ & _ & ->) Hs' w. cbn [bind modify ret fst snd].
  split; [by apply (release_wf _ n sl)|by split; [|left]].
Qed.
#[local] Hint Resolve keeps_pop : wf.

(** ** Keys *)
(** A pure update that keeps the invariant and the session. *)
Definition good (s s' : rbp_server) : Prop := server_wf s -> server_wf s' /\ calm s s'.
Lemma good_refl s : good s s.
Proof. intros H. by split. Qed.
Lemma good_trans s1 s2 s3 : good s1 s2 -> good s2 s3 -> good s1 s3.
Proof. intros H1 H2 H. destruct (H1 H) as [Ha Hb]. destruct (H2 Ha). split; [done|by etrans]. Qed.
Lemma keeps_good (f : rbp_server -> rbp_server) : (forall s, good s (f s)) -> keeps (W := W) calm (modify f).
Proof. intros H. apply keeps_modify. intros s Hs. by apply H. Qed.

Lemma key_push_good s kind reason bits us : good s (fst (key_push s kind reason bits us)).
Proof.
  intros Hs. unfold key_push. destruct (RBP_KEY_QUEUE_DEPTH <=? key_q_count s) eqn:E1; [by split|].
  cbn [fst]. split; [|by split; [|left]].
  destruct Hs as [? ? ? [Hk Hk']]. pose proof Hk as (Hl & Hh & Hn). constructor; try assumption. cbn.
  set (it := KeyItem _ _ _ _). destruct (ring_push _ _ _ _ it Hk ltac:(lia)) as [Hr _].
  rewrite !u8_small; [|unfold Byte; sizes|].
  - split; [exact Hr|]. unfold set_at. apply Forall_insert; done.
  - pose proof (Z.mod_pos_bound (key_q_head s + key_q_count s) RBP_KEY_QUEUE_DEPTH). unfold Byte. sizes.
Qed.
Lemma key_reset_good s :
  good s (s <| key_q_head := 0 |> <| key_q_count := 0 |> <| stat_input_resets ::= fun n => u32 (n + 1) |>).
Proof.
  intros [? ? ? [Hk Hk']]. split; [|by split; [|left]]. constructor; try assumption. split; [|exact Hk'].
  exact (ring_reset RBP_KEY_QUEUE_DEPTH _ _ _ ltac:(sizes) Hk).
Qed.
Lemma bump_good s : good s (bump_input_seq s).
Proof. revert s. unfold good. frame. Qed.
Lemma keys_emit_good kind reason bits us s : good s (keys_emit kind reason bits us s).
Proof.
  unfold keys_emit. destruct (negb _); [apply good_refl|].
  pose proof (key_push_good s kind reason bits us) as H1.
  destruct (key_push s kind reason bits us) as [s1 [|]]; [done|]. cbn [fst] in H1.
  eapply good_trans; [exact H1|]. eapply good_trans; [apply key_reset_good|].
  set (s2 := upd _ _ _). eapply good_trans; [apply (bump_good s2)|]. generalize (bump_input_seq s2). clear. intros s2.
  pose proof (key_push_good s2 RBP_KEYS_KIND_RESET RBP_KEYS_REASON_OVERFLOW 0 us) as H1.
  destruct (key_push s2 _ _ _ _) as [s3 b3]. cbn [fst] in H1. eapply good_trans; [exact H1|].
  eapply good_trans; [apply (bump_good s3)|]. generalize (bump_input_seq s3). clear. intros s4.
  pose proof (key_push_good s4 RBP_KEYS_KIND_SNAPSHOT RBP_KEYS_REASON_NONE (pressed_bits s4) us) as H1.
  by destruct (key_push s4 _ _ _ _).
Qed.
Lemma on_keys_good rep s : good s (rbp_server_on_keys rep s).
Proof.
  unfold rbp_server_on_keys.
  assert (forall (f : rbp_server -> rbp_server) s', good s s' -> (forall s, good s (f s)) -> good s (f s')) as Hc
    by (intros; by eapply good_trans).
  repeat split_if; try apply good_refl.
  all: repeat (first [ apply (Hc (keys_emit _ _ _ _)); [|apply keys_emit_good]
                     | apply (Hc bump_input_seq); [|apply bump_good]
                     | match goal with |- good _ (upd _ _ ?x) =>
                         apply (good_trans _ x); [|clear; generalize x; unfold good; frame] end
                     | apply good_refl ]).
Qed.
Lemma keeps_keys_flush : keeps calm keys_flush_one.
Proof.
  unfold keys_flush_one. apply keeps_get_at. intros s Hs.
  destruct (key_q_count s =? 0) eqn:E0; [by apply keeps_at_ret|].
  apply try_frame_bind; [done|]. intros s' (ring & len & _ & _ & _ & ->) Hs' w. cbn [bind modify ret fst snd].
  split; [|by split; [|left]]. destruct (wf_keys _ Hs) as [Hk Hk'].
  destruct Hs'. constructor; try assumption. cbn. pose proof Hk as (Hl & Hh & Hn).
  destruct (rview_advance _ _ _ _ 1 Hk ltac:(lia)) as [(_ & Hr & _) _].
  rewrite !u8_small by (unfold Byte; sizes). unfold set_at. split.
  - split; [unfold zlen in *; by rewrite length_insert|]. split; [done|lia].
  - apply Forall_insert; [done|]. unfold key_item_ok. cbn. unfold key_at.
    destruct (nth_in_or_default (Z.to_nat (key_q_head s)) (key_q s) key_item0) as [Hin| ->]; [|done].
    rewrite List.Forall_forall in Hk'. by apply Hk'.
Qed.
#[local] Hint Resolve keeps_keys_flush : wf.

(** ** Media *)
Definition media_only (s s' : rbp_server) : Prop :=
  exists q h c p a l o, s' = s <| media_q := q |> <| media_head := h |> <| media_count := c |>
     <| audio_pool := p |> <| audio_head := a |> <| audio_len := l |> <| order_counter := o |>.
Lemma media_good s s' recs : media_rep s' recs -> media_only s s' -> good s s'.
Proof.
  intros Hr (q & h & c & p & a & l & o & ->) []. split; [|by split; [|left]].
  constructor; try assumption. by exists recs.
Qed.
(** Witnesses [media_only] by the fields of the result. *)
Ltac media_only :=
  match goal with |- media_only _ ?s' =>
    exists (media_q s'), (media_head s'), (media_count s'), (audio_pool s'), (audio_head s'),
      (audio_len s'), (order_counter s'); reflexivity end.
Lemma media_append_only op p s : media_only s (media_append op p s).
Proof.
  unfold media_append. cbv zeta. destruct (ring_write _ _ _ _ _) as [[pool len]|]; media_only.
Qed.
Lemma media_append_good op p s recs :
  media_rep s recs -> media_full s (zlen p) = false -> zlen p <= RBP_MAX_PAYLOAD ->
  (op = RBP_OP_VOICE_DATA -> RBP_AUDIO_DATA_HEADER <= zlen p) -> good s (media_append op p s).
Proof.
  intros Hr Hf Hp Hd. pose proof (media_append_rep s recs op p Hr Hf Hp Hd) as H.
  apply (media_good _ _ _ H), media_append_only.
Qed.
Lemma media_discard_frame s l st :
  (exists q p, fst st = s <| media_q := q |> <| audio_pool := p |>) ->
  exists q p, fst (foldl media_discard_step st l) = s <| media_q := q |> <| audio_pool := p |>.
Proof.
  revert st. induction l as [|i l IH]; cbn; intros st H; [done|]. apply IH.
  destruct st as [s1 [[read write] k]]. destruct H as (q & p & H). cbn [fst] in H. subst s1.
  unfold media_discard_step. destruct (_ && _); [by do 2 eexists|].
  destruct (ring_write _ _ _ _ _) as [[pool len]|]; by do 2 eexists.
Qed.
Lemma media_discard_good s : good s (media_discard_current s).
Proof.
  intros Hs. destruct (wf_media _ Hs) as [recs Hr]. pose proof (media_discard_rep _ _ Hr) as H.
  revert Hs. apply (media_good _ _ _ H). unfold media_discard_current.
  destruct (media_discard_frame s (upto (media_count s)) (s, (0, 0, 0))) as (q & p & Hf); [by do 2 eexists|].
  destruct (foldl _ _ _) as [s1 [[read write] k]]. cbn [fst] in Hf. subst s1. media_only.
Qed.
Lemma media_delivered_good m p s : good s (media_delivered m p s).
Proof.
  unfold media_delivered. repeat split_if; try apply good_refl; intros Hs;
    (split; [frame_wf|by split; [|left]]).
Qed.
Lemma media_delivered_rep m p s recs : media_rep s recs -> media_rep (media_delivered m p s) recs.
Proof. unfold media_delivered. repeat split_if; done. Qed.
Lemma media_advance_good m p s recs : media_rep s ((m, p) :: recs) -> good s (media_advance m s).
Proof. intros Hr. apply (media_good _ _ recs); [by eapply media_advance_rep|]. media_only. Qed.

(** The head record, when the queue is not empty. *)
Lemma media_head_ex s :
  server_wf s -> (media_count s =? 0) = false ->
  exists m p recs, media_rep s ((m, p) :: recs) /\ media_at (media_q s) (media_head s) = m /\
    audio_read s 0 (mm_len m) = p.
Proof.
  intros Hs H0. destruct (wf_media _ Hs) as [recs Hr]. pose proof (media_rep_count _ _ Hr) as Hc.
  destruct recs as [|[m p] recs]; [by rewrite Hc in H0|]. exists m, p, recs. split; [done|].
  by apply (media_head_rep _ _ _ recs).
Qed.
Lemma keeps_media_flush : keeps calm media_flush_one.
Proof.
  unfold media_flush_one. apply keeps_get_at. intros s Hs.
  destruct (_ || _) eqn:E0; [by apply keeps_at_ret|]. apply orb_false_iff in E0 as [_ E0].
  destruct (media_head_ex s Hs E0) as (m & p & recs & Hr & -> & ->).
  destruct (_ <? _); [by apply keeps_at_ret|]. apply try_frame_bind; [done|].
  intros s' (ring & len & _ & _ & _ & ->) Hs' w. cbn [bind modify ret fst snd].
  set (s1 := _ <| txseq := _ |>) in *.
  assert (media_rep (media_delivered m p s1) ((m, p) :: recs)) as H1 by by apply media_delivered_rep.
  eapply good_trans; [apply media_delivered_good|by eapply media_advance_good|done].
Qed.
#[local] Hint Resolve keeps_media_flush : wf.

(** ** Scheduler *)
Lemma keeps_flush_one q : keeps calm (flush_one q).
Proof. destruct q; cbn [flush_one]; auto with wf. Qed.
#[local] Hint Resolve keeps_flush_one : wf.
Lemma keeps_flush_loop fuel n : keeps calm (flush_loop fuel n).
Proof.
  revert n. induction fuel as [|fuel IH]; intros n; cbn [flush_loop]; walk.
Qed.
#[local] Hint Resolve keeps_flush_loop : wf.
Lemma keeps_flush : keeps calm rbp_server_flush_output.
Proof. unfold rbp_server_flush_output. walk. Qed.
#[local] Hint Resolve keeps_flush : wf.

(** A record that fits a frame. *)
Definition media_ok (op : Z) (p : list Z) : Prop :=
  zlen p <= RBP_MAX_PAYLOAD /\ (op = RBP_OP_VOICE_DATA -> RBP_AUDIO_DATA_HEADER <= zlen p).
Lemma keeps_media_enqueue op p : media_ok op p -> keeps calm (media_enqueue op p).
Proof.
  intros [Hp Hd]. unfold media_enqueue. apply keeps_bind; [walk|]. intros s0. apply keeps_bind; [walk|].
  intros _. apply keeps_get_at. intros s Hs. destruct (_ || _) eqn:E0; [by apply keeps_at_ret|].
  apply orb_false_iff in E0 as [_ E0]. destruct (wf_media _ Hs) as [recs Hr].
  destruct (media_append_good op p s recs Hr E0 Hp Hd Hs) as [H1 H2]. intros w. by split.
Qed.

(** ** Operations *)
Lemma keeps_device_state conn : keeps calm (send_device_state conn).
Proof. unfold send_device_state. walk. Qed.
Lemma ops_push_good r s : good s (ops_push r s).
Proof.
  intros Hs. pose proof (wf_ops _ Hs) as (Hl & Hh & Hn). unfold ops_push. split_if; split;
    try (by split; [|left]); destruct Hs; constructor; try assumption; cbn;
    (split; [unfold set_at, zlen in *; by rewrite length_insert|]).
  - rewrite u8_small by (unfold Byte; sizes). sizes.
  - pose proof (Z.mod_pos_bound (ops_done_head s + 1) RBP_MAX_OPERATION_RESULTS ltac:(sizes)).
    rewrite u8_small by (unfold Byte; sizes). sizes.
Qed.
Lemma keeps_op_complete id result pid conn uncertain : keeps calm (op_complete id result pid conn uncertain).
Proof. unfold op_complete. walk. apply keeps_good, ops_push_good. Qed.
End server.
#[export] Hint Resolve keeps_rng keeps_request_pair_cancel keeps_teardown keeps_create keeps_drain
  keeps_enqueue keeps_flush keeps_device_state keeps_op_complete : wf.
