(* ===== verification/ServerSafe.v ===== *)
(** * The invariant at the entry points

    Voice, link, dispatch and the entry points of the server keep the invariant
    of ServerInv.v.  The result is stated for one call of any entry point, and
    by induction for every reachable state. *)
From Stdlib Require Import String.
From S2P Require Import Prelude Defs Ring Cobs Frame Tlv DeviceModel Faults ServerState ServerCore CtlQueue MediaQueue ServerVoice ServerLink ServerDispatch Server ServerInv.
#[local] Open Scope Z_scope.
#[local] Open Scope rbp_scope.

(** ** Writers stay inside a payload *)
Definition fits (w : rbp_tlv_writer_t) : Prop := w_len w <= RBP_MAX_PAYLOAD.
Lemma fits_put w tag ty v : fits w -> fits (fst (w_put w tag ty v)).
Proof.
  intros H. unfold w_put. set (w1 := _ <| last_tag := tag |>).
  assert (w_buf w1 = w_buf w) as Hb by (unfold w1; by destruct (tag <=? last_tag w)).
  unfold fits, w_len in *. rewrite <- Hb in H. destruct (_ <? _) eqn:E; [exact H|].
  set (hd := [tag; ty; u8 (zlen v); u8 (Z.shiftr (zlen v) 8)]).
  change (zlen (w_buf w1 ++ hd ++ v) <= RBP_MAX_PAYLOAD). rewrite !zlen_app. change (zlen hd) with 4. lia.
Qed.
Lemma fits_let {A} (P : A -> Prop) (pr : rbp_tlv_writer_t * bool) (k : rbp_tlv_writer_t -> A) :
  fits (fst pr) -> (forall w, fits w -> P (k w)) -> P (let '(w, _) := pr in k w).
Proof. destruct pr as [w b]. cbn. auto. Qed.
Lemma fits_text w tag s : fits w -> fits (fst (rbp_tlv_put_text w tag s)).
Proof. intros. unfold rbp_tlv_put_text. split_if; [done|by apply fits_put]. Qed.
Lemma fits_bytes w tag v : fits w -> fits (fst (rbp_tlv_put_bytes w tag v)).
Proof. intros. unfold rbp_tlv_put_bytes. split_if; [done|by apply fits_put]. Qed.
Lemma fits_init : fits rbp_tlv_writer_init.
Proof. done. Qed.
#[local] Hint Resolve fits_init fits_text fits_bytes fits_put : wf.
#[local] Hint Extern 1 (fits (fst (rbp_tlv_put_u8 _ _ _))) => apply fits_put : wf.
#[local] Hint Extern 1 (fits (fst (rbp_tlv_put_u16 _ _ _))) => apply fits_put : wf.
#[local] Hint Extern 1 (fits (fst (rbp_tlv_put_u32 _ _ _))) => apply fits_put : wf.
#[local] Hint Extern 1 (fits (fst (rbp_tlv_put_u64 _ _ _))) => apply fits_put : wf.
Ltac written := repeat (apply (fits_let (fun l => zlen l <= RBP_MAX_PAYLOAD)); [auto with wf|intros]); assumption.

Lemma ended_fits s reason b : zlen (ended_tlv s reason b) <= RBP_MAX_PAYLOAD.
Proof. unfold ended_tlv. written. Qed.
Lemma format_fits s f b ep : zlen (format_tlv s f b ep) <= RBP_MAX_PAYLOAD.
Proof. unfold format_tlv. written. Qed.
Lemma zlen_audio_put n len : zlen (audio_put n len) = Z.of_nat len.
Proof. apply zlen_le. Qed.
Lemma zlen_data_record s size samples frag :
  zlen (data_record s size samples frag) = RBP_AUDIO_DATA_HEADER + zlen frag.
Proof. unfold data_record. rewrite !zlen_app, !zlen_audio_put. sizes. Qed.

Section voice.
Context {W : Type} `{E : Env W} `{!EnvOk W E}.

Lemma keeps_voice_end reason b : keeps calm (voice_end reason b).
Proof.
  unfold voice_end. apply keeps_bind; [walk; apply keeps_good, media_discard_good|intros _].
  apply keeps_bind; [walk|intros s]. apply keeps_bind; [|walk].
  apply keeps_media_enqueue. split; [apply ended_fits|done].
Qed.
#[local] Hint Resolve keeps_voice_end : wf.
Lemma keeps_finish_stream reason b : keeps calm (voice_finish_stream reason b).
Proof. unfold voice_finish_stream. walk. Qed.
Lemma keeps_request_stop now : keeps calm (request_stop now).
Proof. unfold request_stop. walk. Qed.
#[local] Hint Resolve keeps_finish_stream keeps_request_stop : wf.
Lemma keeps_voice_fault reason : keeps calm (voice_fault reason).
Proof. unfold voice_fault. walk. Qed.
#[local] Hint Resolve keeps_voice_fault : wf.
Lemma keeps_queue_format f start : keeps calm (queue_format f start).
Proof.
  unfold queue_format. walk. apply keeps_media_enqueue. split; [apply format_fits|by destruct start].
Qed.
#[local] Hint Resolve keeps_queue_format : wf.
Lemma fragment_good size samples take s : good s (fragment_queued size samples take s).
Proof.
  unfold fragment_queued. cbv zeta. split_if; intros Hs; (split; [frame_wf|by split; [|left]]).
Qed.
Lemma keeps_encoded_loop fuel size samples bytes : keeps calm (encoded_loop fuel size samples bytes).
Proof.
  revert bytes. induction fuel as [|fuel IH]; intros bytes; cbn [encoded_loop]; walk.
  - apply keeps_media_enqueue. unfold media_ok. rewrite zlen_data_record.
    set (t := if 256 <? zlen bytes then 256 else zlen bytes).
    assert (0 <= t <= 256 /\ t <= zlen bytes) by (pose proof (zlen_nonneg bytes); unfold t; split_if; lia).
    rewrite zlen_slice by lia. split; [|intros _]; sizes.
  - apply keeps_good, fragment_good.
Qed.
#[local] Hint Resolve keeps_encoded_loop : wf.
Lemma keeps_on_voice ev now : keeps calm (rbp_server_on_voice ev now).
Proof.
  unfold rbp_server_on_voice, on_voice_source_begin, on_voice_start, on_voice_format,
    on_voice_encoded, on_voice_end. walk.
Qed.
Lemma keeps_on_voice_state vs interaction rate : keeps calm (rbp_server_on_voice_state vs interaction rate).
Proof. unfold rbp_server_on_voice_state. walk. Qed.
End voice.
#[export] Hint Resolve keeps_finish_stream keeps_request_stop keeps_voice_fault keeps_on_voice
  keeps_on_voice_state : wf.

(** ** Radio inputs *)
Lemma strlen_nonneg l : 0 <= strlen l.
Proof. induction l; cbn; [lia|split_if; lia]. Qed.
Lemma copy_name_array_len dst src :
  zlen dst = 48 -> zlen (copy_name_array dst src 48) = 48.
Proof.
  intros Hd. unfold copy_name_array. rewrite zlen_splice; [done|lia|].
  rewrite zlen_app. change (zlen [0]) with 1. unfold slice, zlen in *.
  rewrite length_take. pose proof (strlen_nonneg src). lia.
Qed.
Lemma cand_at_ok l i : Forall candidate_ok l -> candidate_ok (cand_at l i).
Proof.
  intros H. unfold cand_at. destruct (nth_in_or_default (Z.to_nat i) l candidate0) as [Hin| ->]; [|done].
  rewrite List.Forall_forall in H. by apply H.
Qed.
Lemma scan_candidate_good c s : candidate_ok c -> good s (rbp_server_on_scan_candidate c s).
Proof.
  intros Hc Hs. pose proof (wf_cand _ Hs) as (Hl & Hn & Hf). unfold rbp_server_on_scan_candidate.
  destruct (negb _); [by split|]. destruct (cand_find _ _ _) as [i|].
  - set (k1 := cand_at (cand s) i <| cd_signal := cd_signal c |>).
    set (k2 := if cd_support k1 <? cd_support c then k1 <| cd_support := cd_support c |> else k1).
    set (k3 := if negb (cd_name_len c =? 0) then _ else k2).
    assert (candidate_ok k2) as H2 by (unfold k2; split_if; by apply (cand_at_ok (cand s) i Hf)).
    assert (candidate_ok k3) as H3 by (unfold k3; split_if; [by apply copy_name_array_len|done]).
    clearbody k3. split; [|by split; [|left]]. destruct Hs. constructor; try assumption. cbn.
    unfold set_at. split; [unfold zlen in *; by rewrite length_insert|]. split; [done|].
    by apply Forall_insert.
  - destruct (_ <=? _) eqn:E1; [by split|]. split; [|by split; [|left]].
    destruct Hs. constructor; try assumption. cbn. unfold set_at.
    split; [unfold zlen in *; by rewrite length_insert|].
    rewrite u8_small by (unfold Byte; sizes). split; [lia|].
    apply Forall_insert; [done|]. by apply copy_name_array_len.
Qed.
Lemma link_pairing_good state s : good s (fst (link_pairing state s)).
Proof.
  unfold link_pairing. destruct (_ && _); cbn [fst]; split_if; try apply good_refl; intros Hs;
    (split; [frame_wf|by split; [|left]]).
Qed.
Lemma link_connect_good state conn s : good s (fst (link_connect state conn s)).
Proof.
  unfold link_connect, new_connection_id. repeat split_if; cbn [fst]; try apply good_refl; intros Hs;
    (split; [frame_wf|by split; [|left]]).
Qed.

Section link.
Context {W : Type} `{E : Env W} `{!EnvOk W E}.

Lemma keeps_on_link state conn now : keeps calm (rbp_server_on_link state conn now).
Proof.
  unfold rbp_server_on_link. apply keeps_bind; [walk|intros _]. apply keeps_get_at. intros s Hs.
  pose proof (link_pairing_good state s) as H1. destruct (link_pairing state s) as [s1 st1].
  pose proof (link_connect_good st1 conn s1) as H2. destruct (link_connect st1 conn s1) as [s2 st2].
  cbn [fst] in H1, H2. destruct (good_trans _ _ _ H1 H2 Hs) as [H3 H4]. apply keeps_at_modify_bind.
  - frame_wf.
  - exact H4.
  - walk. apply keeps_good. intros s'. apply on_keys_good.
Qed.
#[local] Hint Resolve keeps_on_link : wf.
Lemma keeps_find_done reason : keeps calm (send_find_done reason).
Proof. unfold send_find_done. walk. Qed.
#[local] Hint Resolve keeps_find_done : wf.
Lemma keeps_scan_done reason now : keeps calm (rbp_server_on_scan_done reason now).
Proof. unfold rbp_server_on_scan_done. walk. Qed.
Lemma keeps_pair_prompt method number remaining : keeps calm (rbp_server_on_pair_prompt method number remaining).
Proof. unfold rbp_server_on_pair_prompt. walk. Qed.
Lemma keeps_pair_done status committed p conn : keeps calm (rbp_server_on_pair_done status committed p conn).
Proof. unfold rbp_server_on_pair_done, pair_commit. walk. Qed.
Lemma keeps_forget_done status uncertain : keeps calm (rbp_server_on_forget_done status uncertain).
Proof. unfold rbp_server_on_forget_done. walk. Qed.
Lemma keeps_battery level chg : keeps calm (rbp_server_on_battery level chg).
Proof. unfold rbp_server_on_battery. walk. Qed.
Lemma usb_gone_good s : good s (ctl_clear (s <| out_head := 0 |> <| out_len := 0 |>)).
Proof.
  intros Hs. split; [|by split; [|left]].
  assert (ctl_rep (ctl_clear (s <| out_head := 0 |> <| out_len := 0 |>)) []) as Hc
    by exact (ctl_clear_rep _ (wf_ctl _ Hs)).
  pose proof (ring_reset OUT_RING_SIZE _ _ _ ltac:(sizes) (wf_out _ Hs)) as Ho.
  destruct Hs. constructor; try assumption. by exists [].
Qed.
Lemma keeps_usb_gone now : keeps calm (rbp_server_on_usb_gone now).
Proof. unfold rbp_server_on_usb_gone. walk. apply keeps_good, usb_gone_good. Qed.
Lemma keeps_set_profile p : keeps calm (rbp_server_set_profile p).
Proof. unfold rbp_server_set_profile. walk. Qed.
Lemma keeps_adapter_failed reason : keeps calm (rbp_server_adapter_failed reason).
Proof. unfold rbp_server_adapter_failed. walk. Qed.
End link.
#[export] Hint Resolve keeps_on_link keeps_find_done keeps_scan_done keeps_pair_prompt keeps_pair_done
  keeps_forget_done keeps_battery keeps_usb_gone keeps_set_profile keeps_adapter_failed : wf.

(** ** Dispatch *)
Lemma ctl_session_wf s x :
  ctl_wf s -> ctl_wf (s <| ctl ::= fun l => set_at l 0 (slot_at l 0 <| cs_session := x |>) |>).
Proof.
  intros (msgs & (Hl & Hp & Hu) & q & (Hnd & Hq & Ht) & ->).
  assert (exists c, ctl s !! 0%nat = Some c) as [c0 Hc0] by (destruct (ctl s); [done|by eexists]).
  assert (slot_at (ctl s) 0 = c0) as Hs0 by (unfold slot_at; by apply nth_slot).
  eexists. split; [|exists q; split; [|done]].
  - split; [cbn; unfold set_at; by rewrite length_insert|]. by split.
  - cbn. rewrite Hs0. unfold set_at. change (Z.to_nat 0) with 0%nat.
    assert (forall i, exists c c', ctl s !! i = None \/ ctl s !! i = Some c /\
      <[0%nat := c0 <| cs_session := x |>]> (ctl s) !! i = Some c' /\
      cs_offset c = cs_offset c' /\ cs_len c = cs_len c' /\ cs_used c = cs_used c') as Hsame.
    { intros [|i].
      - exists c0, (c0 <| cs_session := x |>). right.
        rewrite list_lookup_insert_eq by (by apply lookup_lt_Some in Hc0). done.
      - destruct (ctl s !! S i) as [c|] eqn:Ei; [|exists c0, c0; by left]. exists c, c. right.
        by rewrite list_lookup_insert_ne. }
    split; [done|]. split.
    + intros i sl Hi. destruct (Hsame i) as (c & c' & [Hn|(Hc & Hc' & _ & _ & Hu')]).
      * apply lookup_ge_None in Hn. apply lookup_lt_Some in Hi. rewrite length_insert in Hi. lia.
      * rewrite Hi in Hc'. inv Hc'. rewrite <- Hu'. by apply Hq.
    + eapply tile_ext; [|exact Ht]. intros i Hi. destruct (tile_lookup _ _ _ _ _ Ht Hi) as (d & Hd & _).
      destruct (Hsame i) as (c & c' & [Hn|(Hc & Hc' & Ho & Hlen & _)]); [congruence|]. by exists c, c'.
Qed.
Lemma events_off_good s :
  good s (s <| events_enabled := false |> <| key_q_head := 0 |> <| key_q_count := 0 |>).
Proof.
  intros [? ? ? [Hk Hk']]. split; [|by split; [|left]]. constructor; try assumption. split; [|exact Hk'].
  exact (ring_reset RBP_KEY_QUEUE_DEPTH _ _ _ ltac:(sizes) Hk).
Qed.
Lemma accept_good s codecs max_unit :
  zlen codecs <= 96 -> zlen codecs mod 6 = 0 ->
  good s (s <| accepted_codecs := splice (accepted_codecs s) 0 codecs |> <| accepted_len := u8 (zlen codecs) |>
      <| accepted_max_unit := max_unit |> <| voice_denied := false |>
      <| voice_resume_peer := if peer_valid s then pr_peer_id (peer s) else 0 |>).
Proof.
  intros Hl Hm Hs. pose proof (zlen_nonneg codecs). split; [|by split; [|left]].
  pose proof (wf_accepted _ Hs) as (Ha & _). destruct Hs. constructor; try assumption. cbn.
  rewrite zlen_splice by lia. rewrite u8_small by (unfold Byte; lia). lia.
Qed.
Lemma unaccept_good s :
  good s (s <| accepted_len := 0 |> <| accepted_max_unit := 0 |> <| voice_resume_peer := 0 |>
            <| voice_denied := true |> <| voice_enabled := false |> <| waiting_idle := false |>).
Proof.
  intros Hs. split; [|by split; [|left]]. pose proof (wf_accepted _ Hs) as (Ha & _).
  destruct Hs. constructor; try assumption. by split.
Qed.
Lemma cand_clear_wf s : server_wf s -> server_wf (s <| cand_count := 0 |>).
Proof.
  intros Hs. pose proof (wf_cand _ Hs) as (Hl & _ & Hf). destruct Hs. constructor; try assumption.
  split; [exact Hl|]. split; [by split|exact Hf].
Qed.
(** Closes the updates that empty the candidate list. *)
Ltac clear_cand :=
  apply keeps_modify; intros ? ?; (split; [|by split; [|left]]);
  match goal with H : server_wf _ |- _ => apply cand_clear_wf in H; frame_wf end.
(** What the check of an enable establishes. *)
Lemma enable_check_len s codecs has_max max_unit :
  voice_enable_check s (Some codecs) has_max max_unit = None ->
  0 < zlen codecs <= 96 /\ zlen codecs mod 6 = 0.
Proof.
  unfold voice_enable_check. pose proof (zlen_nonneg codecs). destruct (_ || _) eqn:E1; [done|]. intros _. lia.
Qed.

Section dispatch.
Context {W : Type} `{E : Env W} `{!EnvOk W E}.

Lemma keeps_respond_error req status msg uncertain : keeps calm (respond_error req status msg uncertain).
Proof. unfold respond_error. auto with wf. Qed.
Lemma keeps_respond req status payload : keeps calm (respond req status payload).
Proof. unfold respond. auto with wf. Qed.
#[local] Hint Resolve keeps_respond_error keeps_respond : wf.
Lemma keeps_reject req status msg : keeps calm (reject req status msg).
Proof. unfold reject. auto with wf. Qed.
Lemma keeps_reject_silent req status : keeps calm (reject_silent req status).
Proof. unfold reject_silent. auto with wf. Qed.
#[local] Hint Resolve keeps_reject keeps_reject_silent : wf.

Lemma keeps_goodbye h : keeps calm (op_goodbye h).
Proof.
  unfold op_goodbye. apply keeps_get_bind. intros s Hs. pose proof (wf_out _ Hs) as (_ & _ & Hn).
  walk; apply keeps_modify; intros s1 H1; (split; [|by split; [|left]]).
  - pose proof (wf_out _ H1) as (Hl & Hh & _). destruct H1. constructor; try assumption. by split.
  - pose proof (ctl_session_wf s1 (session_id s) (wf_ctl _ H1)). destruct H1. constructor; assumption.
Qed.

Lemma keeps_find_start h rd : keeps calm (op_find_start h rd).
Proof. unfold op_find_start. walk; clear_cand. Qed.
Lemma keeps_events_enable h rd : keeps calm (op_events_enable h rd).
Proof.
  unfold op_events_enable. walk; apply keeps_good; intros s; [apply keys_emit_good|apply events_off_good].
Qed.
Lemma keeps_voice_on h codecs max_unit :
  zlen codecs <= 96 -> zlen codecs mod 6 = 0 -> keeps calm (voice_enable_on h codecs max_unit).
Proof. intros. unfold voice_enable_on. walk. apply keeps_good. intros s. by apply accept_good. Qed.
Lemma keeps_voice_off h : keeps calm (voice_enable_off h).
Proof. unfold voice_enable_off. walk. apply keeps_good, unaccept_good. Qed.
#[local] Hint Resolve keeps_goodbye keeps_find_start keeps_events_enable keeps_voice_off : wf.
Lemma keeps_voice_enable h rd : keeps calm (op_voice_enable h rd).
Proof.
  unfold op_voice_enable. destruct (rbp_tlv_get_bool _ _ _) as [[e enabled] f]. destruct (_ || _); [walk|].
  apply keeps_get_bind. intros s Hs. destruct (_ || _); [walk|].
  destruct (rbp_tlv_get_bytes _ _) as [e2 codecs]. destruct (rbp_tlv_get_u32 _ _ _) as [[e3 max_unit] has_max].
  destruct (_ || _); [walk|]. destruct enabled; [|walk].
  destruct (voice_enable_check s codecs has_max max_unit) as [status|] eqn:Ec; [walk|].
  destruct codecs as [codecs|]; [|done]. destruct (enable_check_len _ _ _ _ Ec). apply keeps_voice_on; cbn; lia.
Qed.
#[local] Hint Resolve keeps_voice_enable : wf.
Lemma keeps_dispatch h payload : keeps calm (dispatch_request h payload).
Proof.
  unfold dispatch_request, dispatch_opcode, op_ping, op_get_device, op_get_peer, op_get_operation,
    op_get_stats, op_find_list, op_find_stop, op_pair_begin, op_pair_reply, op_pair_cancel,
    op_forget_peer, op_set_reconnect, op_connect_peer, op_disconnect, op_key_catalog,
    op_keys_snapshot, op_get_voice_caps, op_voice_start, op_voice_stop, op_begin. walk.
Qed.
End dispatch.
#[export] Hint Resolve keeps_reject keeps_reject_silent keeps_respond keeps_dispatch : wf.

(** ** Entry points *)
(** The arguments of a call have the types of the source: bytes, and a name
    array of 48 bytes. *)
Definition api_ok (a : api) : Prop :=
  match a with
  | AUsbRx data _ => Bytes data
  | AScanCandidate c => candidate_ok c
  | _ => True
  end.
(** Everything but USB input leaves the session or closes it. *)
Definition api_rel (a : api) : relation rbp_server :=
  match a with AUsbRx _ _ => fresh | _ => calm end.

Lemma rx_run_wf p data now : Bytes data -> rx_wf p -> rx_wf (fst (rx_run p data now)).
Proof.
  intros Hd. revert p. induction Hd as [|b data Hb Hd IH]; intros p Hp; cbn; [done|].
  pose proof (rx_byte_wf p b now Hb Hp) as H1. destruct (rx_byte p b now) as [p1 ev].
  specialize (IH p1 H1). by destruct (rx_run p1 data now).
Qed.
Lemma rx_events_wf p data now : Bytes data -> rx_wf p -> rx_wf (fst (rx_events p data now)).
Proof.
  intros Hd Hp. unfold rx_events. destruct data as [|b data]; [done|]. unfold rx_expire.
  destruct (rx_stale p now).
  - pose proof (rx_run_wf (RxParser RXS_DISCARD [] (frame_start_ms p)) (b :: data) now Hd) as H.
    destruct (rx_run _ _ _). apply H. by split.
  - pose proof (rx_run_wf p (b :: data) now Hd Hp) as H. by destruct (rx_run _ _ _).
Qed.

Section server.
Context {W : Type} `{E : Env W} `{!EnvOk W E}.

Lemma keeps_version_mismatch nonce : keeps calm (hello_version_mismatch nonce).
Proof.
  unfold hello_version_mismatch. destruct (rbp_frame_encode _ _ _ _) as [n tmp]. walk.
  apply keeps_modify. intros s Hs. destruct (ring_write _ _ _ _ _) as [[ring len]|] eqn:Ew; [|by split].
  split; [|by split; [|left]]. destruct (ring_write_view _ _ _ _ _ _ _ (wf_out _ Hs) Ew) as [Ho _].
  destruct Hs. constructor; assumption.
Qed.
#[local] Hint Resolve keeps_version_mismatch : wf.
Lemma keeps_hello h payload : keeps fresh (handle_hello h payload).
Proof.
  unfold handle_hello. destruct (hello_shape_ok h (zlen payload)) eqn:Eh; cbn [negb].
  2: { apply keeps_calm. walk. }
  destruct (_ || _); [walk|]. destruct (hello_nonce payload); [|walk]. destruct (negb _); [walk|].
  intros s Hs. apply (keeps_at_bind_post (fun s => session_id s = 0 \/ (client_tx_hwm s = 0 /\ req_hwm s = 0))).
  { by apply keeps_create. }
  { intros w. by apply create_marks. }
  intros _ s1 H1 Hm. assert (h_request_id h = 1) as Hr by (unfold hello_shape_ok in Eh; lia).
  apply keeps_at_modify_bind; [frame_wf|split; [reflexivity|cbn; lia]|]. walk.
Qed.
#[local] Hint Resolve keeps_hello : wf.
Lemma keeps_protocol_error : keeps (W := W) calm protocol_error.
Proof. unfold protocol_error. walk. Qed.
#[local] Hint Resolve keeps_protocol_error : wf.
Lemma keeps_accept h payload : keeps fresh (accept_request h payload).
Proof.
  unfold accept_request. apply keeps_get_at. intros s Hs. destruct (h_request_id h =? 0); [by apply keeps_calm; [walk|]|].
  destruct (h_request_id h <=? req_hwm s) eqn:Er; [by apply keeps_calm; [walk|]|].
  apply keeps_at_modify_bind; [frame_wf|split; [reflexivity|cbn; lia]|]. walk.
Qed.
#[local] Hint Resolve keeps_accept : wf.
Lemma keeps_process_frame h payload crc_ok : keeps fresh (process_frame h payload crc_ok).
Proof.
  unfold process_frame. apply keeps_get_at. intros s Hs.
  destruct (negb crc_ok); [by apply keeps_calm; [walk|]|].
  destruct (_ || _); [by apply keeps_calm; [walk|]|].
  destruct (negb (h_kind h =? _)); [by apply keeps_calm; [walk|]|].
  destruct (h_opcode h =? _); [by apply keeps_hello|].
  destruct (_ || _); [by apply keeps_calm; [walk|]|].
  destruct (_ || _); [by apply keeps_at_ret|].
  destruct (_ || _) eqn:Et; [by apply keeps_calm; [walk|]|].
  apply keeps_at_modify_bind; [frame_wf|split; [reflexivity|cbn; lia]|]. walk.
Qed.
#[local] Hint Resolve keeps_process_frame : wf.
Lemma keeps_rx_event ev : keeps fresh (server_rx_event ev).
Proof. unfold server_rx_event. walk. Qed.
Lemma rx_none_event (u : rbp_server * W) : exec (server_rx_event RBP_RX_NONE) u = u.
Proof. by destruct u. Qed.
Lemma run_events_keep evs s w :
  server_wf s ->
  let s' := fst (run_events (fun ev σ => exec (server_rx_event ev) σ) evs (s, w)) in
  server_wf s' /\ fresh s s'.
Proof.
  revert s w. induction evs as [|ev evs IH]; intros s w Hs; [by split|].
  unfold run_events. cbn. unfold exec at 2 4. destruct (keeps_rx_event ev s Hs w) as [H1 H2].
  destruct (server_rx_event ev (s, w)) as [[] [s1 w1]]. cbn in H1, H2 |- *.
  destruct (IH s1 w1 H1) as [H3 H4]. split; [exact H3|]. by etrans.
Qed.
Lemma keeps_usb_rx data now : Bytes data -> keeps fresh (rbp_server_on_usb_rx data now).
Proof.
  intros Hd s Hs w. unfold rbp_server_on_usb_rx.
  destruct (rbp_rx_drain_events (fun ev σ => exec (server_rx_event ev) σ) rx_none_event (rx s) data now
              (s <| now_ms := now |>, w)) as [_ He].
  change (rx (s <| now_ms := now |>)) with (rx s). rewrite He. clear He.
  pose proof (rx_events_wf (rx s) data now Hd (wf_rx _ Hs)) as Hrx.
  destruct (rx_events (rx s) data now) as [p evs]. cbn [fst] in Hrx.
  destruct (run_events_keep evs (s <| now_ms := now |>) w) as [H1 H2]; [frame_wf|].
  destruct (run_events _ evs _) as [s1 w1]. cbn in H1, H2 |- *. destruct H1.
  split; [constructor; assumption|exact H2].
Qed.

Lemma keeps_tick_rx now : keeps calm (tick_rx_timeout now).
Proof.
  unfold tick_rx_timeout. apply keeps_get_bind. intros s Hs.
  assert (rx_wf (fst (fst (rbp_rxparser_feed (rx s) [] now)))) as Hp.
  { unfold rbp_rxparser_feed. pose proof (wf_rx _ Hs). split_if; [by split|].
    by apply rx_loop_wf. }
  destruct (rbp_rxparser_feed (rx s) [] now) as [[p ev] rest]. cbn [fst] in Hp. walk.
Qed.
#[local] Hint Resolve keeps_tick_rx : wf.
(** The tick after the heartbeat check. *)
Lemma keeps_tick_rest now : keeps calm
  (tick_find now ;; tick_prompt now ;; tick_operation now ;; tick_source now ;; tick_deferred ;;
   rbp_server_flush_output).
Proof.
  unfold tick_find, tick_prompt, tick_operation, tick_source, tick_deferred. walk. clear_cand.
Qed.
#[local] Hint Resolve keeps_tick_rest : wf.
Lemma keeps_tick_heartbeat now : keeps calm (tick_heartbeat now).
Proof. unfold tick_heartbeat. walk. Qed.
#[local] Hint Resolve keeps_tick_heartbeat : wf.
Lemma keeps_tick now : keeps calm (rbp_server_tick now).
Proof. unfold rbp_server_tick. walk. Qed.
#[local] Hint Resolve keeps_tick keeps_usb_rx : wf.
Lemma keeps_api a : api_ok a -> keeps (api_rel a) (run_api a).
Proof.
  intros Ha. destruct a; cbn [run_api api_rel]; try solve [walk].
  - apply keeps_good. intros s. by apply scan_candidate_good.
  - apply keeps_good. intros s Hs. unfold rbp_server_on_peer_changed.
    destruct (_ || _); (split; [frame_wf|by split; [|left]]).
  - apply keeps_good. intros s. apply on_keys_good.
Qed.
End server.

(** ** The initial state *)
Lemma server_init_wf c : server_wf (server_init c).
Proof.
  constructor; cbn.
  - by repeat split.
  - by split.
  - exists []. split; [by repeat split|]. exists []. split; [|done]. split; [constructor|].
    split; [|done]. intros i sl Hi. apply (list_elem_of_lookup_2 (replicate 6 ctl_slot0)) in Hi.
    apply elem_of_replicate in Hi as [-> _]. split; [done|set_solver].
  - split; [by repeat split|]. by repeat constructor.
  - exists []. by repeat split.
  - by repeat split.
  - split; [done|]. split; [done|]. by repeat constructor.
  - done.
  - done.
  - done.
Qed.
Lemma rbp_server_init_wf {W} `{E : Env W} c w : server_wf (fst (rbp_server_init c w)).
Proof.
  pose proof (server_init_wf c) as H. unfold rbp_server_init. destruct store_load as [load|]; [|done].
  destruct (load w) as [[rec|] w']; [|done]. cbn [fst]. destruct H. constructor; assumption.
Qed.

(** ** Runs *)
Section runs.
Context {W : Type} `{E : Env W}.
Definition runs (calls : list api) (σ : rbp_server * W) : rbp_server * W :=
  foldl (fun σ a => exec (run_api a) σ) σ calls.
(** The states of a server that was configured with [c]. *)
Inductive reachable (c : rbp_server_cfg_t) : rbp_server * W -> Prop :=
  | reach_init w : reachable c (rbp_server_init c w)
  | reach_call σ a : reachable c σ -> api_ok a -> reachable c (exec (run_api a) σ).

Context `{!EnvOk W E}.
Lemma api_step a s w :
  api_ok a -> server_wf s ->
  let s' := fst (exec (run_api a) (s, w)) in server_wf s' /\ api_rel a s s'.
Proof. intros Ha Hs. by apply keeps_api. Qed.
Lemma runs_keep calls s w :
  Forall api_ok calls -> server_wf s ->
  let s' := fst (runs calls (s, w)) in server_wf s' /\ fresh s s'.
Proof.
  intros Hc. revert s w. induction Hc as [|a calls Ha Hc IH]; intros s w Hs; [by split|].
  destruct (api_step a s w Ha Hs) as [H1 H2]. unfold runs. cbn [foldl].
  destruct (exec (run_api a) (s, w)) as [s1 w1]. destruct (IH s1 w1 H1) as [H3 H4].
  split; [exact H3|]. etrans; [|exact H4]. destruct a; first [exact H2|exact (calm_fresh _ _ H2)].
Qed.
End runs.

(** ** Environments

    [sink] is a transport and a radio that never answers.  In [reentrant n] the
    backend reports completion from inside the call, [n] levels deep, and the
    transport takes at most 20 bytes at a time. *)
Definition sink : Env (list Z) := {|
  start_find _ σ := (RBP_STATUS_OK, σ); stop_find σ := σ; pair_begin _ σ := σ;
  pair_reply _ _ _ σ := σ; pair_cancel σ := σ; forget_peer σ := σ; connect_peer σ := σ;
  disconnect σ := σ; voice_request_stop σ := σ; voice_request_start := None;
  store_load := None; store_save := None; store_clear := None;
  out data w := (zlen data, w ++ data); rng := None; fault_state _ := faults_init |}.
Fixpoint reentrant (n : nat) : Env (list Z) :=
  match n with
  | O => sink
  | S n =>
    let back a σ := exec (run_api (E := reentrant n) a) σ in
    {| start_find _ σ := (RBP_STATUS_OK, back (AScanCandidate candidate0) σ);
       stop_find := back (AScanDone RBP_FIND_DONE_USER_STOP 0);
       pair_begin _ := back (APairPrompt RBP_PROMPT_CONFIRM_NUMBER 1234 30000);
       pair_reply _ _ _ := back (APairDone RBP_STATUS_OK true (Some (PeerRecord 7 [] true)) 0);
       pair_cancel := back (APairDone RBP_STATUS_PAIRING_FAILED false None 0);
       forget_peer := back (AForgetDone RBP_STATUS_OK false);
       connect_peer := back (ALink RBP_LINK_CONNECTING 0 0);
       disconnect := back (ALink RBP_LINK_DISCONNECTED 0 0);
       voice_request_stop := back (AVoice (RBP_VOICE_EVT_END RBP_END_NORMAL) 0);
       voice_request_start := Some (fun _ w => (RBP_STATUS_OK, w));
       store_load := Some (fun w => (Some (PeerRecord 7 [] true), w));
       store_save := Some (fun _ w => (true, w)); store_clear := Some (fun w => (true, w));
       out data w := (Z.min 20 (zlen data), w ++ slice data 0 20);
       rng := Some (fun w => (17, w)); fault_state _ := faults_init |}
  end.
Lemma keeps_id {W} : keeps (W := W) calm (call (fun σ => σ)).
Proof. intros s Hs w. by split. Qed.
#[export] Instance sink_ok : EnvOk (list Z) sink.
Proof.
  split; intros; try apply keeps_id; cbn; pose proof (zlen_nonneg data); lia.
Qed.
#[export] Instance reentrant_ok n : EnvOk (list Z) (reentrant n).
Proof.
  induction n as [|n IH]; [apply sink_ok|].
  assert (forall a, api_ok a -> api_rel a = calm ->
    keeps calm (call (fun σ => exec (run_api (E := reentrant n) a) σ))) as Hb.
  { intros a Ha Hr s Hs w. rewrite <- Hr. by apply keeps_api. }
  split; intros; try (by apply Hb). cbn. pose proof (zlen_nonneg data). lia.
Qed.

(** ** Properties *)

Definition sample_cfg : rbp_server_cfg_t := Cfg (Some RBP_PROFILE_RC003) 0 0 (replicate 16 1) None 0.

(** Session ids are never reused: when a session has ended and another is
    open later, after any further calls, its id is larger than that of every
    session before. *)
Theorem session_ids_never_reused {W} `{E : Env W} `{!EnvOk W E} s w calls1 calls2 :
  server_wf s -> Forall api_ok calls1 -> Forall api_ok calls2 ->
  let σ1 := runs calls1 (s, w) in
  let σ2 := runs calls2 σ1 in
  session_id (fst σ1) = 0 -> session_id (fst σ2) <> 0 -> session_id s < session_id (fst σ2).
Proof.
  intros Hs Hc1 Hc2 σ1 σ2. destruct (runs_keep calls1 s w Hc1 Hs) as [H1 [H2 _]].
  subst σ1 σ2. destruct (runs calls1 (s, w)) as [s1 w1].
  destruct (runs_keep calls2 s1 w1 Hc2 H1) as [_ [_ H4]].
  destruct (wf_session _ Hs) as [_ Hi]. cbn [fst] in *. lia.
Qed.
Definition hello_payload : list Z := w_buf (fst (rbp_tlv_put_bytes rbp_tlv_writer_init 1 (replicate 16 7))).
Definition hello_frame : list Z :=
  snd (rbp_frame_encode (header0 <| h_kind := RBP_KIND_REQUEST |> <| h_opcode := RBP_OP_HELLO |> <| h_request_id := 1 |>)
         1 (Some hello_payload) (zlen hello_payload)).
Lemma session_ids_never_reused_witness :
  let s := fst (runs (E := reentrant 2) [AUsbRx hello_frame 1] (rbp_server_init (E := reentrant 2) sample_cfg [])) in
  session_id s = 1 /\
  let σ1 := runs (E := reentrant 2) [AUsbGone 2] (s, []) in
  let σ2 := runs (E := reentrant 2) [AUsbRx hello_frame 3; ATick 4] σ1 in
  session_id s < session_id (fst σ2).
Proof.
  cbv zeta. split; [by vm_compute|]. apply (session_ids_never_reused (E := reentrant 2)).
  - apply (runs_keep (E := reentrant 2)); [|exact (rbp_server_init_wf (E := reentrant 2) sample_cfg [])].
    constructor; [|constructor]. apply (bool_decide_unpack _). by vm_compute.
  - by repeat constructor.
  - constructor; [|by repeat constructor]. apply (bool_decide_unpack _). by vm_compute.
  - by vm_compute.
  - by vm_compute.
Defined.

(** Only USB input opens a session: every other entry point leaves the
    current session open or closes it, and never touches the watermarks that
    admit requests, even if the backend calls back. *)
Theorem only_usb_opens_sessions {W} `{E : Env W} `{!EnvOk W E} a s w :
  server_wf s -> (forall data now, a <> AUsbRx data now) -> api_ok a ->
  let s' := fst (exec (run_api a) (s, w)) in
  (session_id s' = session_id s \/ session_id s' = 0) /\
  (session_counter s', client_tx_hwm s', req_hwm s') = (session_counter s, client_tx_hwm s, req_hwm s).
Proof.
  intros Hs Hn Ha. destruct (api_step a s w Ha Hs) as [_ H].
  assert (api_rel a = calm) as Hr by (destruct a; try done; by destruct (Hn data now)).
  rewrite Hr in H. by destruct H.
Qed.
Lemma only_usb_opens_sessions_witness :
  let s' := fst (exec (run_api (E := reentrant 1) (ATick 9000)) (server_init sample_cfg, [])) in
  (session_id s' = 0 \/ session_id s' = 0) /\ (session_counter s', client_tx_hwm s', req_hwm s') = (0, 0, 0).
Proof.
  apply (only_usb_opens_sessions (E := reentrant 1) (ATick 9000) (server_init sample_cfg) []);
    [apply server_init_wf|done|done].
Defined.
