(* ===== verification/ServerProps.v ===== *)
(** * What the server promises

    Admission of requests, heartbeat, output and the queues: theorems about the
    operations of the server in well-formed states, for every environment that
    keeps the interface of ServerInv.v. *)
From S2P Require Import Prelude Defs Ring Cobs Frame Tlv DeviceModel Faults ServerState ServerCore CtlQueue MediaQueue ServerVoice ServerLink ServerDispatch Server ServerInv ServerSafe.

(** ** Admission *)

(** A request frame of this version, other than HELLO, with a sound header. *)
Definition request_ok (h : rbp_header_t) (payload : list Z) : bool :=
  (h_payload_size h =? zlen payload) && (h_flags h =? 0) && (h_reserved h =? 0) && (h_status h =? 0) &&
  (h_kind h =? RBP_KIND_REQUEST) && negb (h_opcode h =? RBP_OP_HELLO) &&
  (h_major h =? RBP_MAJOR) && (h_minor h =? RBP_MINOR).

Lemma exec_then {W} (m : M W unit) {A} (k : M W A) σ : exec (m ;; k) σ = exec k (exec m σ).
Proof. unfold exec, bind. by destruct (m σ) as [[] σ']. Qed.
Lemma exec_get {W A} (k : rbp_server -> M W A) s w : exec (bind get k) (s, w) = exec (k s) (s, w).
Proof. done. Qed.
(** A closed session stays closed along a [calm] program. *)
Lemma calm_closed {W A} (m : M W A) s w :
  keeps calm m -> server_wf s -> session_id s = 0 -> session_id (fst (exec m (s, w))) = 0.
Proof. intros Hm Hs H0. destruct (Hm s Hs w) as [_ [_ H]]. unfold exec. lia. Qed.

Section admission.
Context {W : Type} `{E : Env W}.
Definition seen (h : rbp_header_t) (s : rbp_server) : rbp_server :=
  s <| client_tx_hwm := h_tx_seq h |> <| last_req_ms := now_ms s |>.
(** A request frame of the open session: the next in sequence is admitted, any
    other closes the session. *)
Lemma process_request h payload s :
  request_ok h payload = true -> session_active s = true -> h_session_id h = session_id s ->
  forall w, process_frame h payload true (s, w) =
    if (h_tx_seq h =? 0) || (client_tx_hwm s =? UINT32_MAX) || negb (h_tx_seq h =? client_tx_hwm s + 1)
    then (protocol_error ;; session_teardown) (s, w)
    else accept_request h payload (seen h s, w).
Proof.
  intros Hr Ha Hi w. unfold process_frame, bind at 1, get. cbn [fst snd negb].
  unfold request_ok in Hr. rewrite !andb_true_iff in Hr.
  destruct Hr as [[[[[[[H1 H2] H3] H4] H5] H6] H7] H8].
  rewrite H1, H2, H3, H4, H5, H7, H8, Ha. apply negb_true_iff in H6. rewrite H6.
  cbn [negb orb]. rewrite Hi, Z.eqb_refl. cbn [negb]. by destruct (_ || _ || _).
Qed.


Context `{!EnvOk W E}.
Lemma accept_marks h payload s w :
  server_wf s ->
  let s' := fst (exec (accept_request h payload) (s, w)) in
  server_wf s' /\ client_tx_hwm s' = client_tx_hwm s /\
  (session_id s' = session_id s \/ session_id s' = 0) /\
  (h_request_id h = 0 \/ h_request_id h <= req_hwm s').
Proof.
  intros Hs. unfold accept_request, exec, bind, get. cbn [fst snd].
  destruct (h_request_id h =? 0) eqn:E0; [|destruct (h_request_id h <=? req_hwm s) eqn:E1].
  - edestruct keeps_reject as [H1 [[= H2 H3 H4] H5]]; [done|]. split; [exact H1|]. lia.
  - edestruct keeps_reject_silent as [H1 [[= H2 H3 H4] H5]]; [done|]. split; [exact H1|]. lia.
  - unfold modify. cbn [fst snd]. set (s1 := s <| req_hwm := h_request_id h |>).
    assert (server_wf s1) as Hs1 by frame_wf.
    destruct (keeps_dispatch h payload s1 Hs1 w) as [H1 [[= H2 H3 H4] H5]].
    split; [exact H1|]. cbn in *. lia.
Qed.
(** A request frame closes the session, or leaves it with the watermarks at or
    above the frame's numbers. *)
Lemma process_marks h payload s w :
  server_wf s -> request_ok h payload = true -> session_active s = true -> h_session_id h = session_id s ->
  let s' := fst (exec (process_frame h payload true) (s, w)) in
  server_wf s' /\
  (session_id s' = 0 \/ session_id s' = session_id s /\ h_tx_seq h <= client_tx_hwm s' /\
     (h_request_id h = 0 \/ h_request_id h <= req_hwm s')).
Proof.
  intros Hs Hr Ha Hi s'. split; [by apply keeps_process_frame|]. subst s'. unfold exec.
  rewrite process_request by done. destruct (_ || _).
  - left. unfold protocol_error, bind, modify. cbn [fst snd]. apply teardown_closed. frame_wf.
  - assert (server_wf (seen h s)) as H1 by frame_wf. destruct (accept_marks h payload (seen h s) w H1) as (_ & H2 & H3 & H4).
    unfold exec in *. cbn in *. lia.
Qed.
(** The same after any further calls, as long as the session is still open. *)
Lemma marks_later h payload calls s w :
  server_wf s -> session_active s = true -> request_ok h payload = true -> h_session_id h = session_id s ->
  Forall api_ok calls ->
  let s2 := fst (runs calls (exec (process_frame h payload true) (s, w))) in
  session_id s2 = session_id s ->
  server_wf s2 /\ session_active s2 = true /\ h_tx_seq h <= client_tx_hwm s2 /\
  (h_request_id h = 0 \/ h_request_id h <= req_hwm s2).
Proof.
  intros Hs Ha Hr Hi Hc s2 Hid. pose proof (wf_session _ Hs) as [Hf Hcnt].
  destruct (process_marks h payload s w Hs Hr Ha Hi) as [H1 H2].
  destruct (keeps_process_frame h payload true s Hs w) as [_ [H3 _]]. unfold exec in *.
  destruct (process_frame h payload true (s, w)) as [[] [s1 w1]]. cbn [fst snd] in *.
  destruct (runs_keep calls s1 w1 Hc H1) as [H4 [_ H5]]. fold s2 in H4, H5.
  split; [done|]. destruct (wf_session _ H4) as [-> _]. rewrite Ha in Hf. rewrite Hid. lia.
Qed.
End admission.

(** ** Properties: admission *)

(** C3: replayed frames end the session: once a request frame was processed, a
    later frame of the same session whose sequence number is not larger closes
    it, whatever calls were made in between. *)
Theorem replay_closes_session {W} `{E : Env W} `{!EnvOk W E} s w h payload calls h2 payload2 :
  server_wf s -> session_active s = true -> request_ok h payload = true -> h_session_id h = session_id s ->
  Forall api_ok calls ->
  let σ2 := runs calls (exec (process_frame h payload true) (s, w)) in
  session_id (fst σ2) = session_id s ->
  request_ok h2 payload2 = true -> h_session_id h2 = session_id s -> h_tx_seq h2 <= h_tx_seq h ->
  session_id (fst (exec (process_frame h2 payload2 true) σ2)) = 0.
Proof.
  intros Hs Ha Hr Hi Hc σ2 Hid Hr2 Hi2 Htx.
  destruct (marks_later h payload calls s w Hs Ha Hr Hi Hc Hid) as (H1 & H2 & H3 & _).
  subst σ2. destruct (runs calls _) as [s2 w2]. cbn [fst] in *. unfold exec.
  rewrite process_request by congruence.
  replace (_ || _) with true by lia. unfold protocol_error, bind, modify. cbn [fst snd].
  apply teardown_closed. frame_wf.
Qed.
(** The state after HELLO, and a PING with given numbers. *)
Definition hello_state : rbp_server :=
  fst (runs (E := sink) [AUsbRx hello_frame 1] (rbp_server_init (E := sink) sample_cfg [])).
Lemma hello_state_wf : server_wf hello_state.
Proof.
  apply (runs_keep (E := sink)); [|apply server_init_wf].
  constructor; [|constructor]. apply (bool_decide_unpack _). by vm_compute.
Qed.
Definition ping_payload : list Z := w_buf (fst (rbp_tlv_put_u32 rbp_tlv_writer_init 1 99)).
Definition ping (seq id : Z) : rbp_header_t :=
  stamp_header (header0 <| h_kind := RBP_KIND_REQUEST |> <| h_opcode := RBP_OP_PING |>
                        <| h_request_id := id |> <| h_session_id := 1 |>) seq (zlen ping_payload).
Lemma replay_closes_session_witness :
  let σ2 := runs (E := sink) [ATick 7] (exec (process_frame (E := sink) (ping 2 2) ping_payload true) (hello_state, [])) in
  session_id (fst σ2) = 1 /\
  session_id (fst (exec (process_frame (E := sink) (ping 2 3) ping_payload true) σ2)) = 0.
Proof.
  cbv zeta. split; [by vm_compute|].
  apply (replay_closes_session (E := sink) hello_state [] (ping 2 2) ping_payload [ATick 7] (ping 2 3) ping_payload
    hello_state_wf eq_refl eq_refl eq_refl ltac:(by repeat constructor)); by vm_compute.
Defined.

(** C12: a request id is executed once: after a request was processed, a later
    frame of the same session that is next in sequence but whose request id is
    not larger is answered DUPLICATE, and nothing else happens. *)
Theorem request_executed_once {W} `{E : Env W} `{!EnvOk W E} s w h payload calls h2 payload2 :
  server_wf s -> session_active s = true -> request_ok h payload = true -> h_session_id h = session_id s ->
  Forall api_ok calls ->
  let σ2 := runs calls (exec (process_frame h payload true) (s, w)) in
  session_id (fst σ2) = session_id s ->
  request_ok h2 payload2 = true -> h_session_id h2 = session_id s ->
  0 < h_tx_seq h2 <= UINT32_MAX -> h_tx_seq h2 = client_tx_hwm (fst σ2) + 1 ->
  0 < h_request_id h2 <= h_request_id h ->
  exec (process_frame h2 payload2 true) σ2 =
    exec (ctl_enqueue RBP_KIND_RESPONSE (h_opcode h2) RBP_STATUS_DUPLICATE (h_request_id h2)
            (h_connection_id h2) []) (seen h2 (fst σ2), snd σ2).
Proof.
  intros Hs Ha Hr Hi Hc σ2 Hid Hr2 Hi2 Ht Hn Hq.
  destruct (marks_later h payload calls s w Hs Ha Hr Hi Hc Hid) as (H1 & H2 & H3 & H4).
  subst σ2. destruct (runs calls _) as [s2 w2]. cbn [fst snd] in *. unfold exec.
  rewrite process_request by congruence.
  replace (_ || _) with false by lia. unfold accept_request, bind at 1, get. cbn [fst snd].
  change (req_hwm (seen h2 s2)) with (req_hwm s2).
  replace (h_request_id h2 =? 0) with false by lia. by replace (h_request_id h2 <=? req_hwm s2) with true by lia.
Qed.
Lemma request_executed_once_witness :
  let σ2 := runs (E := sink) [ATick 7] (exec (process_frame (E := sink) (ping 2 2) ping_payload true) (hello_state, [])) in
  exec (process_frame (E := sink) (ping 3 2) ping_payload true) σ2 =
    exec (ctl_enqueue (E := sink) RBP_KIND_RESPONSE RBP_OP_PING RBP_STATUS_DUPLICATE 2 0 [])
      (seen (ping 3 2) (fst σ2), snd σ2).
Proof.
  apply (request_executed_once (E := sink) hello_state [] (ping 2 2) ping_payload [ATick 7] (ping 3 2) ping_payload
    hello_state_wf eq_refl eq_refl eq_refl ltac:(by repeat constructor)); by vm_compute.
Defined.

(** ** Properties: heartbeat *)
Lemma tick_rx_spec {W} `{E : Env W} `{!EnvOk W E} now s w :
  server_wf s ->
  let s' := fst (exec (tick_rx_timeout now) (s, w)) in
  session_id s' = 0 \/ last_req_ms s' = last_req_ms s.
Proof.
  intros Hs. unfold tick_rx_timeout, exec, bind, get, modify. cbn [fst snd].
  destruct (rbp_rxparser_feed (rx s) [] now) as [[p ev] rest] eqn:Ef. cbn [fst snd].
  assert (rx_wf p) as Hp.
  { unfold rbp_rxparser_feed in Ef. pose proof (wf_rx _ Hs) as Hrx.
    destruct (rx_stale (rx s) now); [by inv Ef|]. pose proof (rx_loop_wf (rx s) [] now ltac:(constructor) Hrx) as H.
    by rewrite Ef in H. }
  destruct ev; try (right; reflexivity). left. unfold protocol_error, modify. cbn [fst snd].
  apply teardown_closed. destruct Hs. constructor; assumption.
Qed.
Lemma heartbeat_spec {W} `{E : Env W} `{!EnvOk W E} now s w :
  server_wf s -> session_id s = 0 \/ HEARTBEAT_TIMEOUT_MS < u32 (now - last_req_ms s) ->
  session_id (fst (exec (tick_heartbeat now) (s, w))) = 0.
Proof.
  intros Hs H. unfold tick_heartbeat, exec, bind, get. cbn [fst snd].
  destruct (wf_session _ Hs) as [-> _]. destruct (session_id s =? 0) eqn:E0; [cbn; lia|].
  replace (HEARTBEAT_TIMEOUT_MS <? u32 (now - last_req_ms s)) with true by lia.
  by apply (teardown_closed s w).
Qed.

(** A session whose last request is more than five seconds old is closed by
    the next tick. *)
Theorem heartbeat_closes_session {W} `{E : Env W} `{!EnvOk W E} s w now :
  server_wf s -> HEARTBEAT_TIMEOUT_MS < u32 (now - last_req_ms s) ->
  session_id (fst (exec (rbp_server_tick now) (s, w))) = 0.
Proof.
  intros Hs Ht. unfold rbp_server_tick. rewrite exec_then. set (s0 := s <| now_ms := now |>).
  change (exec (modify _) (s, w)) with (s0, w). assert (server_wf s0) as H0 by frame_wf.
  destruct (keeps_tick_rx now s0 H0 w) as [H1 _]. pose proof (tick_rx_spec now s0 w H0) as H2.
  rewrite exec_then. unfold exec in H2. unfold exec at 2.
  destruct (tick_rx_timeout now (s0, w)) as [[] [s1 w1]]. cbn [fst snd] in *.
  assert (session_id (fst (exec (tick_heartbeat now) (s1, w1))) = 0) as H3.
  { apply heartbeat_spec; [done|]. destruct H2 as [H2|H2]; [by left|right]. by rewrite H2. }
  destruct (keeps_tick_heartbeat now s1 H1 w1) as [H4 _]. rewrite exec_then.
  unfold exec in H3. unfold exec at 2. destruct (tick_heartbeat now (s1, w1)) as [[] [s2 w2]].
  by apply calm_closed; [apply keeps_tick_rest|..].
Qed.
Lemma heartbeat_closes_session_witness :
  session_id hello_state = 1 /\
  session_id (fst (exec (rbp_server_tick (E := sink) 5002) (hello_state, []))) = 0.
Proof.
  split; [by vm_compute|]. apply (heartbeat_closes_session (E := sink)); [exact hello_state_wf|by vm_compute].
Defined.
