(* ===== verification/ServerFlow.v ===== *)
(** * What flows out of the server

    The output ring, the control, key and media queues and the scheduler: bytes
    and messages leave in the order they entered, none is lost or doubled, and
    the loops end. *)
From S2P Require Import Prelude Defs Ring Cobs Frame Tlv DeviceModel Faults ServerState ServerCore CtlQueue MediaQueue ServerVoice ServerLink ServerDispatch Server ServerInv ServerSafe ServerProps.

(** The bytes waiting in the output ring. *)
Definition out_view (s : rbp_server) : list Z := rview (out_ring s) (out_head s) (out_len s).

Section drain.
Context {W : Type} `{E : Env W} `{!EnvOk W E}.

(** What the transport has taken, as a ghost of the environment. *)
Context (log : W -> list Z).
Context (Hlog : forall data w, log (snd (out data w)) = log w ++ take (Z.to_nat (fst (out data w))) data).

Lemma drain_round_spec s w :
  server_wf s -> 0 < out_len s ->
  let '(more, (s', w')) := out_drain_round (s, w) in
  server_wf s' /\ log w' ++ out_view s' = log w ++ out_view s /\ out_len s' <= out_len s /\
  (more = true -> out_len s' < out_len s) /\
  (fst (out (slice (out_ring s) (out_head s) (Z.min 64 (Z.min (out_len s) (OUT_RING_SIZE - out_head s)))) w) =
     Z.min 64 (Z.min (out_len s) (OUT_RING_SIZE - out_head s)) -> more = true).
Proof.
  intros Hs Hpos. destruct (keeps_drain_round s Hs w) as [Hs' _]. revert Hs'.
  unfold out_drain_round, bind, get, ret. cbn [fst snd]. pose proof (wf_out _ Hs) as Ho. pose proof Ho as (Hl & Hh & Hn).
  set (chunk := if OUT_RING_SIZE - out_head s <? _ then _ else _).
  assert (chunk = Z.min 64 (Z.min (out_len s) (OUT_RING_SIZE - out_head s))) as Hc.
  { unfold chunk. destruct (64 <? out_len s) eqn:E1; split_if; lia. }
  rewrite <- Hc. clearbody chunk. unfold outside. cbn [fst snd].
  set (data := slice (out_ring s) (out_head s) chunk).
  pose proof (ok_out data w) as Hsent. pose proof (Hlog data w) as Hw.
  assert (zlen data = chunk) as Hz by (unfold data; apply zlen_slice; lia). rewrite Hz in Hsent.
  destruct (out data w) as [sent w1]. cbn [fst snd] in *. destruct (sent =? 0) eqn:E0; cbn [fst snd].
  { intros Hs'. replace sent with 0 in Hw by lia. cbn in Hw. rewrite app_nil_r in Hw. rewrite Hw.
    split; [done|]. split; [done|]. split; [lia|]. split; [done|]. lia. }
  unfold modify. cbn [fst snd]. intros Hs'. split; [exact Hs'|].
  destruct (rview_advance _ _ _ _ sent Ho ltac:(lia)) as [_ Hv].
  split; [|cbn; split; [lia|split; [lia|intros; apply negb_true_iff; lia]]].
  unfold out_view. cbn. rewrite Hv, Hw, <- app_assoc. f_equal.
  rewrite <- (take_drop (Z.to_nat sent) (rview (out_ring s) (out_head s) (out_len s))) at 2. f_equal.
  unfold data, rview, slice. rewrite !take_take. rewrite drop_app_le by (unfold zlen in Hl; lia).
  rewrite take_app_le by (rewrite length_drop; unfold zlen in Hl; lia). f_equal. lia.
Qed.

(** Fuel for the bytes queued is enough; no byte is lost, doubled or reordered;
    a transport that takes everything empties the ring. *)
Lemma drain_loop_spec fuel s w :
  server_wf s -> out_len s <= Z.of_nat fuel ->
  let σ' := exec (out_drain_loop fuel) (s, w) in
  (forall k, out_drain_loop (fuel + k) (s, w) = out_drain_loop fuel (s, w)) /\
  log (snd σ') ++ out_view (fst σ') = log w ++ out_view s /\
  ((forall data w, fst (out data w) = zlen data) -> out_len (fst σ') = 0).
Proof.
  revert s w. induction fuel as [|fuel IH]; intros s w Hs Hf; pose proof (wf_out _ Hs) as (Hl & Hh & Hn).
  - assert ((0 <? out_len s) = false) as H0 by lia.
    assert (forall k, out_drain_loop k (s, w) = ret tt (s, w)) as Hk.
    { intros k. destruct k; unfold out_drain_loop, bind, get; cbn [fst]; by rewrite H0. }
    unfold exec. cbn [Nat.add]. rewrite !Hk. split; [intros k; by rewrite !Hk|]. cbn. split; [done|]. lia.
  - pose proof (drain_round_spec s w Hs) as Hr. cbn [out_drain_loop Nat.add]. unfold exec, bind, get. cbn [fst].
    destruct (0 <? out_len s) eqn:E0; cbn [negb]; [|by cbn; split_and!; [done..|lia]].
    specialize (Hr ltac:(lia)). destruct (out_drain_round (s, w)) as [[|] [s1 w1]].
    + destruct Hr as (H1 & H2 & _ & H3 & _). destruct (IH s1 w1 H1 ltac:(lia)) as (H4 & H5 & H6).
      unfold exec in *. split; [done|]. split; [by rewrite H5|done].
    + destruct Hr as (H1 & H2 & _ & _ & H3). cbn. split; [done|]. split; [done|]. intros Hall.
      rewrite Hall, zlen_slice in H3; [|lia..]. by specialize (H3 eq_refl).
Qed.
End drain.

(** ** Properties: output *)

(** C29: draining loses, doubles and reorders nothing: what the transport has
    taken followed by what is still queued is the same before and after, for a
    transport that may take any prefix of a chunk; the loop has enough fuel; and
    a transport that takes everything leaves the ring empty. *)
Theorem out_drain_conserves {W} `{E : Env W} `{!EnvOk W E} (log : W -> list Z) s w :
  (forall data w, log (snd (out data w)) = log w ++ take (Z.to_nat (fst (out data w))) data) ->
  server_wf s ->
  let σ' := exec out_drain (s, w) in
  (forall k, out_drain (s, w) = out_drain_loop (Z.to_nat (out_len s) + k) (s, w)) /\
  log (snd σ') ++ out_view (fst σ') = log w ++ out_view s /\
  ((forall data w, fst (out data w) = zlen data) -> out_view (fst σ') = []).
Proof.
  intros Hlog Hs. pose proof (wf_out _ Hs) as (_ & _ & Hn).
  destruct (drain_loop_spec log Hlog (Z.to_nat (out_len s)) s w Hs ltac:(lia)) as (H1 & H2 & H3).
  unfold out_drain, exec, bind, get in *. cbn [fst]. split; [done|]. split; [done|].
  intros Hall. unfold out_view. by rewrite (H3 Hall).
Qed.
Lemma out_drain_conserves_witness :
  let s := server_init sample_cfg <| out_ring ::= fun r => splice r 2040 [1; 2; 3; 4; 5; 6; 7; 8] |>
             <| out_head := 2041 |> <| out_len := 30 |> in
  let σ' := exec (out_drain (E := reentrant 1)) (s, []) in
  snd σ' ++ out_view (fst σ') = out_view s.
Proof.
  apply (out_drain_conserves (E := reentrant 1) (fun w => w)).
  - intros data w. cbn. f_equal. unfold slice. pose proof (zlen_nonneg data).
    rewrite drop_0. unfold zlen in *. destruct (decide (20 <= Z.of_nat (length data))).
    + f_equal. lia.
    + rewrite !take_ge by lia. done.
  - destruct (server_init_wf sample_cfg). constructor; try assumption. by repeat split.
Defined.

(** ** Control queue *)
Lemma ascending_snoc last ts t :
  ascending last ts -> Forall (fun x => x < t) ts -> last < t -> ascending last (ts ++ [t]).
Proof.
  revert last. induction ts as [|x ts IH]; cbn; intros last Ha Hf Ht; [done|].
  destruct Ha. apply Forall_cons_1 in Hf as [??]. split; [done|]. by apply IH.
Qed.
(** The header the queue keeps of a message. *)
Definition ctl_entry (s : rbp_server) (kind opcode status request_id connection_id : Z) (payload : list Z) : ctl_msg :=
  CtlMsg (CtlSlot true kind status opcode request_id connection_id (session_id s) (zlen payload) 0
            (order_counter s + 1)) payload.

Section control.
Context {W : Type} `{E : Env W} `{!EnvOk W E}.

(** The two ways a message does not fit. *)
Lemma enqueue_refused s w : server_wf s ->
  session_id (fst (exec (modify (fun s => s <| stat_protocol_errors ::= fun n => u32 (n + 1) |>) ;; session_teardown)
                     (s, w))) = 0.
Proof. intros Hs. unfold exec, bind, modify. cbn [fst snd]. apply teardown_closed. frame_wf. Qed.
Lemma enqueue_spec s w msgs kind opcode status request_id connection_id payload :
  server_wf s -> ctl_fifo s msgs -> order_counter s < UINT32_MAX ->
  let σ' := exec (ctl_enqueue kind opcode status request_id connection_id payload) (s, w) in
  if bool_decide (length msgs < 6)%nat && (zlen payload <=? RBP_MAX_PAYLOAD)
  then snd σ' = w /\
       ctl_fifo (fst σ') (msgs ++ [ctl_entry s kind opcode status request_id connection_id payload])
  else session_id (fst σ') = 0.
Proof.
  intros Hs (Hr & Ha & Hb & H0) Hmax. destruct (ctl_rep_free _ _ Hr) as [H6 Hfree].
  destruct (ctl_rep_bytes _ _ Hr) as [Hu Hp]. pose proof (msg_bytes_le _ Hp) as Hle.
  cbv zeta. unfold ctl_enqueue. rewrite exec_get.
  destruct (ctl_free (ctl s) 0) as [i|] eqn:Ef.
  2: { rewrite bool_decide_false by (destruct Hfree as [H _]; rewrite H by done; lia).
       apply (enqueue_refused s w Hs). }
  assert (length msgs <> 6%nat) as Hlt by (intros Hx; by apply Hfree in Hx).
  rewrite bool_decide_true by lia. cbn [andb].
  destruct (RBP_MAX_PAYLOAD <? zlen payload) eqn:Em; cbn [orb].
  { replace (zlen payload <=? RBP_MAX_PAYLOAD) with false by lia. apply (enqueue_refused s w Hs). }
  replace (zlen payload <=? RBP_MAX_PAYLOAD) with true by lia.
  assert ((RBP_CTL_BYTES - ctl_used s <? zlen payload) = false) as Er by sizes. rewrite Er.
  assert (next_order s = order_counter s + 1) as Hn by (unfold next_order; apply u32_small; words).
  unfold exec, modify. cbn [fst snd]. rewrite Hn. split; [done|].
  pose proof (enqueue_rep s msgs i (CtlSlot true kind status opcode request_id connection_id (session_id s)
    (zlen payload) (ctl_used s) (order_counter s + 1)) payload Hr Ef ltac:(by rewrite Em, Er) eq_refl eq_refl eq_refl) as H.
  split; [exact H|]. rewrite map_app. cbn. split_and!.
  - apply ascending_snoc; [done| |lia]. apply Forall_map. eapply Forall_impl; [|exact Hb]. cbn. lia.
  - apply Forall_app. split; [eapply Forall_impl; [|exact Hb]; cbn; lia|]. constructor; [cbn; lia|constructor].
  - lia.
Qed.

(** A frame that fits is accepted. *)
Lemma try_frame_room h payload s w :
  Bytes payload -> zlen payload <= RBP_MAX_PAYLOAD -> 0 < txseq s < UINT32_MAX ->
  RBP_MAX_ENCODED <= OUT_RING_SIZE - out_len s -> fst (out_try_frame h payload (s, w)) = true.
Proof.
  intros Hb Hl Ht Hroom. unfold out_try_frame, bind, get. cbn [fst snd].
  replace ((txseq s =? 0) || (txseq s =? UINT32_MAX)) with false by lia.
  replace (_ <? _) with false by sizes. rewrite frame_encode_stream by done.
  pose proof (encoded_length (stamp_header h (txseq s) (zlen payload)) payload Hb Hl).
  rewrite zlen_app. change (zlen [0]) with 1.
  replace (_ =? 0) with false by lia. replace (_ <? _) with false by sizes. done.
Qed.
(** The output after an accepted frame. *)
Lemma frame_out_view s h payload s' :
  server_wf s -> frame_out s h payload s' ->
  out_view s' = out_view s ++ frame_wire s h payload /\ txseq s' = txseq s + 1.
Proof.
  intros Hs (ring & len & _ & _ & Hw & ->). split; [|done].
  by destruct (ring_write_view _ _ _ _ _ _ _ (wf_out _ Hs) Hw) as (_ & _ & H).
Qed.
Lemma fifo_tail s m msgs s' :
  ctl_fifo s (m :: msgs) -> order_counter s' = order_counter s -> ctl_rep s' msgs -> ctl_fifo s' msgs.
Proof.
  intros (_ & Ha & Hf & H0) Ho Hr. cbn in Ha. destruct Ha as [Hm Ha].
  apply Forall_cons_1 in Hf as [Hm' Hf]. unfold ctl_fifo. rewrite Ho. split; [done|]. split; [|done].
  destruct msgs as [|m2 msgs]; [done|]. cbn in Ha |- *. destruct Ha. split; [lia|done].
Qed.
Lemma pop_spec s w msgs :
  server_wf s -> ctl_fifo s msgs ->
  match ctl_pop (s, w), msgs with
  | (true, (s', w')), m :: msgs' =>
      w' = w /\ ctl_fifo s' msgs' /\ txseq s' = txseq s + 1 /\
      out_view s' = out_view s ++ frame_wire s (ctl_header (cm_slot m)) (cm_payload m)
  | (true, _), [] => False
  | (false, (s', w')), _ => (s', w') = (s, w) \/ session_id s' = 0
  end.
Proof.
  intros Hs Hf. unfold ctl_pop, bind at 1, get. cbn [fst snd].
  destruct (ctl_peek_order s) as [o|] eqn:Ep; [|by left].
  destruct (ctl_peek_find s o Ep) as (n & sl & -> & Hn & Hu & Ho & -> & Hmin).
  destruct (ctl_fifo_head s msgs n sl o Hf Hn Hu Ho Hmin) as (msgs' & -> & Hr).
  unfold bind. set (h := ctl_header sl). set (p := slice _ _ _).
  pose proof (try_frame_spec h p s w Hs) as Ht.
  destruct (out_try_frame h p (s, w)) as [[|] [s1 w1]]; cbn [negb].
  - destruct Ht as [-> Ho1]. destruct (frame_out_view _ _ _ _ Hs Ho1) as [Hv Htx].
    destruct Ho1 as (ring & len & _ & _ & _ & ->). unfold modify, ret. cbn [fst snd].
    split; [done|]. split; [|split; [exact Htx|exact Hv]]. by eapply fifo_tail.
  - destruct Ht as [Ht|[_ Ht]]; [by left|]. right. pose proof (teardown_closed s w Hs) as H.
    unfold exec in Ht. by rewrite <- Ht in H.
Qed.
Lemma pop_room s w m msgs :
  server_wf s -> ctl_fifo s (m :: msgs) -> Bytes (cm_payload m) -> 0 < txseq s < UINT32_MAX ->
  RBP_MAX_ENCODED <= OUT_RING_SIZE - out_len s -> fst (ctl_pop (s, w)) = true.
Proof.
  intros Hs Hf Hb Ht Hroom. unfold ctl_pop, bind at 1, get. cbn [fst snd].
  destruct (ctl_peek_order s) as [o|] eqn:Ep.
  2: { exfalso. unfold ctl_peek_order in Ep. destruct (ctl_best (ctl s)) eqn:Eb; [done|].
       destruct Hf as [Hr _]. destruct (ctl_rep_used _ _ m Hr ltac:(set_solver)) as (c & Hc & Hu & _).
       rewrite ctl_best_None in Eb. by rewrite (Eb c Hc) in Hu. }
  destruct (ctl_peek_find s o Ep) as (n & sl & -> & Hn & Hu & Ho & -> & Hmin).
  destruct (ctl_fifo_head s _ n sl o Hf Hn Hu Ho Hmin) as (msgs' & [= -> <-] & Hr).
  destruct Hf as [Hrep _]. destruct (ctl_rep_bytes _ _ Hrep) as [_ Hlen]. apply Forall_cons_1 in Hlen as [Hlen _].
  cbn in Hlen, Hb. unfold bind.
  pose proof (try_frame_room (ctl_header sl) _ s w Hb Hlen Ht Hroom) as H.
  by destruct (out_try_frame _ _ (s, w)) as [[|] [s1 w1]].
Qed.
End control.

(** ** Properties: control queue *)

(** Enqueueing a control message appends it to the queue when fewer than six
    are waiting and its payload fits a frame (a free slot always has buffer
    space); otherwise the session is closed. *)
Theorem ctl_enqueue_appends {W} `{E : Env W} `{!EnvOk W E} s w msgs kind opcode status request_id connection_id payload :
  server_wf s -> ctl_fifo s msgs -> order_counter s < UINT32_MAX ->
  let σ' := exec (ctl_enqueue kind opcode status request_id connection_id payload) (s, w) in
  if bool_decide (length msgs < 6)%nat && (zlen payload <=? RBP_MAX_PAYLOAD)
  then snd σ' = w /\
       ctl_fifo (fst σ') (msgs ++ [ctl_entry s kind opcode status request_id connection_id payload])
  else session_id (fst σ') = 0.
Proof. apply enqueue_spec. Qed.
Lemma init_fifo c : ctl_fifo (server_init c) [].
Proof.
  destruct (wf_ctl _ (server_init_wf c)) as [msgs Hr].
  assert (msgs = []) as ->.
  { destruct msgs as [|m msgs]; [done|]. destruct (ctl_rep_used _ _ m Hr ltac:(set_solver)) as (cc & Hc & Hu & _).
    cbn in Hc. set_solver. }
  split; [done|]. by split_and!.
Qed.
Lemma ctl_enqueue_appends_witness :
  let s := server_init sample_cfg in
  let σ' := exec (ctl_enqueue (E := sink) RBP_KIND_EVENT 1 0 0 0 [5; 6]) (s, []) in
  ctl_fifo (fst σ') [ctl_entry s RBP_KIND_EVENT 1 0 0 0 [5; 6]].
Proof.
  cbv zeta. apply (ctl_enqueue_appends (E := sink) (server_init sample_cfg) [] [] RBP_KIND_EVENT 1 0 0 0 [5; 6]);
    [apply server_init_wf|apply init_fifo|by vm_compute].
Defined.

(** Control messages leave in the order they entered: a successful pop
    appends to the output the frame of the oldest message, with the next
    sequence number, and removes that message; a refused one changes nothing or
    ends the session; with room for a frame it succeeds. *)
Theorem ctl_pop_oldest {W} `{E : Env W} `{!EnvOk W E} s w msgs :
  server_wf s -> ctl_fifo s msgs ->
  match ctl_pop (s, w), msgs with
  | (true, (s', w')), m :: msgs' =>
      w' = w /\ ctl_fifo s' msgs' /\ txseq s' = txseq s + 1 /\
      out_view s' = out_view s ++ frame_wire s (ctl_header (cm_slot m)) (cm_payload m)
  | (true, _), [] => False
  | (false, (s', w')), _ => (s', w') = (s, w) \/ session_id s' = 0
  end /\
  match msgs with
  | m :: _ => Bytes (cm_payload m) -> 0 < txseq s < UINT32_MAX ->
              RBP_MAX_ENCODED <= OUT_RING_SIZE - out_len s -> fst (ctl_pop (s, w)) = true
  | [] => True
  end.
Proof.
  intros Hs Hf. split; [by apply pop_spec|]. destruct msgs; [done|]. intros. by eapply pop_room.
Qed.
(** A state with two messages queued. *)
Definition two_queued : rbp_server :=
  fst (exec (ctl_enqueue (E := sink) RBP_KIND_EVENT 1 0 0 0 [5; 6] ;; ctl_enqueue (E := sink) RBP_KIND_EVENT 2 0 0 0 [7])
         (server_init sample_cfg <| txseq := 1 |>, [])).
Lemma two_queued_ok : exists m1 m2, cm_payload m1 = [5; 6] /\ server_wf two_queued /\ ctl_fifo two_queued [m1; m2].
Proof.
  set (s := server_init sample_cfg <| txseq := 1 |>).
  assert (server_wf s) as Hs by (destruct (server_init_wf sample_cfg); constructor; (assumption || by split)).
  assert (ctl_fifo s []) as Hf by exact (init_fifo sample_cfg).
  pose proof (enqueue_spec (E := sink) s [] [] RBP_KIND_EVENT 1 0 0 0 [5; 6] Hs Hf ltac:(by vm_compute)) as [_ H1].
  destruct (keeps_enqueue (E := sink) RBP_KIND_EVENT 1 0 0 0 [5; 6] s Hs []) as [Hs1 _].
  unfold two_queued. rewrite exec_then. fold s. unfold exec in *. cbn [fst snd] in *.
  destruct (ctl_enqueue (E := sink) RBP_KIND_EVENT 1 0 0 0 [5; 6] (s, [])) as [[] [s1 w1]] eqn:E1.
  assert (order_counter s1 = 1) as Ho by (apply (f_equal (fun r => order_counter (fst (snd r)))) in E1; by vm_compute in E1).
  pose proof (enqueue_spec (E := sink) s1 w1 _ RBP_KIND_EVENT 2 0 0 0 [7] Hs1 H1) as H2.
  rewrite Ho in H2. destruct (H2 ltac:(by vm_compute)) as [_ H3].
  destruct (keeps_enqueue (E := sink) RBP_KIND_EVENT 2 0 0 0 [7] s1 Hs1 w1) as [Hs2 _].
  do 2 eexists. split; [|split; [exact Hs2|exact H3]]. done.
Qed.
Lemma ctl_pop_oldest_witness :
  exists m1 m2, cm_payload m1 = [5; 6] /\
  match ctl_pop (E := sink) (two_queued, []) with
  | (true, (s', w')) => ctl_fifo s' [m2] /\
      out_view s' = out_view two_queued ++ frame_wire two_queued (ctl_header (cm_slot m1)) [5; 6]
  | (false, _) => False
  end.
Proof.
  destruct two_queued_ok as (m1 & m2 & Hp & Hs & Hf). exists m1, m2. split; [done|].
  destruct (ctl_pop_oldest (E := sink) two_queued [] [m1; m2] Hs Hf) as [H1 H2].
  rewrite Hp in H2. assert (fst (ctl_pop (E := sink) (two_queued, [])) = true) as Hok
    by (apply H2; apply (bool_decide_unpack _); by vm_compute).
  destruct (ctl_pop (two_queued, [])) as [[|] [s' w']]; [|done]. rewrite Hp in H1. by destruct H1 as (_ & ? & _ & ?).
Defined.
