(* ===== verification/ServerQueues.v ===== *)
(** * Keys, media and the scheduler

    The key queue with its overflow rule, the media queue, and the loop that
    moves the three queues to the output. *)
From S2P Require Import Prelude Defs Ring Cobs Frame Tlv DeviceModel Faults ServerState ServerCore CtlQueue MediaQueue ServerVoice ServerLink ServerDispatch Server ServerInv ServerSafe ServerProps ServerFlow.

(** ** Keys *)
Definition key_view (s : rbp_server) : list key_item_t := rview (key_q s) (key_q_head s) (key_q_count s).
(** The item of an event, with the counters it takes. *)
Definition key_entry (kind reason bits us seq order conn : Z) : key_item_t :=
  KeyItem true (key_struct seq us bits kind reason) order conn.
Lemma key_view_length s : server_wf s -> zlen (key_view s) = key_q_count s.
Proof. intros Hs. destruct (wf_keys _ Hs) as [Hk _]. by eapply zlen_rview. Qed.

Lemma key_push_spec s kind reason bits us :
  server_wf s ->
  let '(s', ok) := key_push s kind reason bits us in
  ok = (key_q_count s <? RBP_KEY_QUEUE_DEPTH) /\
  (ok = true ->
   key_view s' = key_view s ++ [key_entry kind reason bits us (input_seq s) (next_order s) (connection_id s)] /\
   s' = s <| key_q := key_q s' |> <| key_q_count := key_q_count s + 1 |> <| order_counter := next_order s |>) /\
  (ok = false -> s' = s).
Proof.
  intros Hs. unfold key_push. destruct (RBP_KEY_QUEUE_DEPTH <=? key_q_count s) eqn:E1.
  { split; [lia|]. by split. }
  destruct (wf_keys _ Hs) as [Hk _]. pose proof Hk as (Hl & Hh & Hn).
  set (it := KeyItem _ _ _ _). destruct (ring_push _ _ _ _ it Hk ltac:(lia)) as [_ Hv].
  pose proof (Z.mod_pos_bound (key_q_head s + key_q_count s) RBP_KEY_QUEUE_DEPTH ltac:(sizes)).
  rewrite !u8_small by (unfold Byte; sizes). split; [lia|]. split; [|done]. intros _.
  split; [exact Hv|]. reflexivity.
Qed.

(** After an overflow: the two events that restart the client's view. *)
Definition key_restart (s : rbp_server) (us : Z) : list key_item_t :=
  let seq := u32 (input_seq s + 1) in
  let order := next_order s in
  [key_entry RBP_KEYS_KIND_RESET RBP_KEYS_REASON_OVERFLOW 0 us seq order (connection_id s);
   key_entry RBP_KEYS_KIND_SNAPSHOT RBP_KEYS_REASON_NONE (pressed_bits s) us (u32 (seq + 1)) (u32 (order + 1))
     (connection_id s)].
(** Pushing onto a queue with room, as a rewrite. *)
Lemma key_push_ok s kind reason bits us :
  server_wf s -> key_q_count s < RBP_KEY_QUEUE_DEPTH ->
  exists s', key_push s kind reason bits us = (s', true) /\ server_wf s' /\
    key_view s' = key_view s ++ [key_entry kind reason bits us (input_seq s) (next_order s) (connection_id s)] /\
    s' = s <| key_q := key_q s' |> <| key_q_count := key_q_count s + 1 |> <| order_counter := next_order s |>.
Proof.
  intros Hs Hc. pose proof (key_push_spec s kind reason bits us Hs) as H.
  destruct (key_push_good s kind reason bits us Hs) as [H1 _].
  destruct (key_push s kind reason bits us) as [s' ok]. destruct H as (-> & H2 & _).
  replace (key_q_count s <? RBP_KEY_QUEUE_DEPTH) with true in * by lia.
  destruct (H2 eq_refl). by exists s'.
Qed.
Lemma keys_emit_spec s kind reason bits us :
  server_wf s -> events_enabled s = true ->
  let s' := keys_emit kind reason bits us s in
  if zlen (key_view s) <? RBP_KEY_QUEUE_DEPTH
  then key_view s' = key_view s ++ [key_entry kind reason bits us (input_seq s) (next_order s) (connection_id s)] /\
       input_seq s' = input_seq s
  else key_view s' = key_restart s us /\ input_seq s' = u32 (u32 (input_seq s + 1) + 1) /\
       stat_input_resets s' = u32 (stat_input_resets s + 1).
Proof.
  intros Hs He. cbv zeta. unfold keys_emit. rewrite He, key_view_length by done. cbn [negb].
  destruct (key_q_count s <? RBP_KEY_QUEUE_DEPTH) eqn:Ec.
  - destruct (key_push_ok s kind reason bits us Hs ltac:(lia)) as (s1 & -> & _ & Hv & H1).
    split; [done|]. by rewrite H1.
  - pose proof (key_push_spec s kind reason bits us Hs) as H. rewrite Ec in H.
    destruct (key_push s kind reason bits us) as [s0 ok]. destruct H as (-> & _ & H). rewrite (H eq_refl).
    set (s1 := bump_input_seq _).
    assert (server_wf s1) as H1 by (apply bump_good, key_reset_good; exact Hs).
    destruct (key_push_ok s1 RBP_KEYS_KIND_RESET RBP_KEYS_REASON_OVERFLOW 0 us H1 ltac:(done)) as (s2 & -> & H2 & Hv2 & Hs2).
    set (s3 := bump_input_seq s2). assert (server_wf s3) as H3 by by apply bump_good.
    assert (key_q_count s3 = 1) as Hc3 by (unfold s3; by rewrite Hs2).
    destruct (key_push_ok s3 RBP_KEYS_KIND_SNAPSHOT RBP_KEYS_REASON_NONE (pressed_bits s3) us H3 ltac:(rewrite Hc3; done))
      as (s4 & -> & _ & Hv4 & Hs4).
    assert (key_view s3 = key_view s2) as Hv3 by done.
    rewrite Hv4, Hv3, Hv2, Hs4. unfold s3. rewrite Hs2. done.
Qed.

Section flush_keys.
Context {W : Type} `{E : Env W} `{!EnvOk W E}.
Definition key_header (s : rbp_server) (it : key_item_t) : rbp_header_t :=
  header0 <| h_kind := RBP_KIND_EVENT |> <| h_session_id := session_id s |>
          <| h_opcode := RBP_OP_KEYS_STATE_EV |> <| h_connection_id := ki_connection it |>.
Lemma keys_flush_spec s w :
  server_wf s ->
  match keys_flush_one (s, w), key_view s with
  | (true, (s', w')), it :: rest =>
      w' = w /\ key_view s' = rest /\ txseq s' = txseq s + 1 /\
      out_view s' = out_view s ++ frame_wire s (key_header s it) (ki_buf it)
  | (true, _), [] => False
  | (false, (s', w')), _ => (s', w') = (s, w) \/ session_id s' = 0
  end.
Proof.
  intros Hs. unfold keys_flush_one, bind at 1, get. cbn [fst snd]. pose proof (key_view_length s Hs) as Hlen.
  destruct (key_q_count s =? 0) eqn:E0; [by left|].
  destruct (wf_keys _ Hs) as [Hk _]. pose proof Hk as (Hl & Hh & Hn).
  assert (key_view s !! 0%nat = Some (key_at (key_q s) (key_q_head s))) as Hhd.
  { unfold key_view. rewrite (lookup_rview _ _ _ _ 0 Hk) by lia. rewrite Z.add_0_r, Z.mod_small by done.
    unfold key_at. rewrite nth_lookup. destruct (key_q s !! Z.to_nat (key_q_head s)) eqn:El; [done|].
    apply lookup_ge_None in El. unfold zlen in Hl. lia. }
  destruct (key_view s) as [|it rest] eqn:Ev; [done|]. cbn in Hhd. inv Hhd.
  set (it := key_at (key_q s) (key_q_head s)) in *. fold (key_header s it). unfold bind.
  pose proof (try_frame_spec (key_header s it) (ki_buf it) s w Hs) as Ht.
  destruct (out_try_frame _ _ (s, w)) as [[|] [s1 w1]]; cbn [negb].
  - destruct Ht as [-> Ho1]. destruct (frame_out_view _ _ _ _ Hs Ho1) as [Hv Htx].
    destruct Ho1 as (ring & len & _ & _ & _ & ->). unfold modify, ret. cbn [fst snd].
    split; [done|]. split; [|split; [exact Htx|exact Hv]]. unfold key_view. cbn.
    destruct (rview_advance _ _ _ _ 1 Hk ltac:(lia)) as [(_ & Hr & _) Hd].
    rewrite !u8_small by (unfold Byte; sizes).
    fold (key_view s) in Hd. rewrite Ev in Hd. change (drop (Z.to_nat 1) (it :: rest)) with rest in Hd. rewrite <- Hd.
    apply (rview_insert_head _ _ _ _ _ Hk). lia.
  - destruct Ht as [Ht|[_ Ht]]; [by left|]. right. pose proof (teardown_closed s w Hs) as H.
    unfold exec in Ht. by rewrite <- Ht in H.
Qed.
End flush_keys.

(** ** Media *)
Section media.
Context {W : Type} `{E : Env W} `{!EnvOk W E}.
Definition media_header (s : rbp_server) (m : media_marker_t) : rbp_header_t :=
  header0 <| h_kind := if mm_opcode m =? RBP_OP_VOICE_DATA then RBP_KIND_AUDIO else RBP_KIND_EVENT |>
          <| h_opcode := mm_opcode m |> <| h_session_id := session_id s |>
          <| h_connection_id := mm_connection m |>.
Lemma media_flush_spec s w recs :
  server_wf s -> media_rep s recs ->
  match media_flush_one (s, w), recs with
  | (true, (s', w')), (m, p) :: rest =>
      w' = w /\ media_rep s' rest /\ txseq s' = txseq s + 1 /\ session_active s = true /\
      out_view s' = out_view s ++ frame_wire s (media_header s m) p
  | (true, _), [] => False
  | (false, (s', w')), _ => (s', w') = (s, w) \/ session_id s' = 0
  end.
Proof.
  intros Hs Hr. pose proof (media_rep_count _ _ Hr) as Hc. unfold media_flush_one, bind at 1, get. cbn [fst snd].
  destruct (_ || _) eqn:E0; [by left|]. apply orb_false_iff in E0 as [Ea E0].
  destruct recs as [|[m p] recs]; [by rewrite Hc in E0|].
  destruct (media_head_rep _ _ _ _ Hr) as [-> ->]. destruct (_ <? _); [by left|]. unfold bind.
  fold (media_header s m). pose proof (try_frame_spec (media_header s m) p s w Hs) as Ht.
  destruct (out_try_frame _ _ (s, w)) as [[|] [s1 w1]]; cbn [negb].
  - destruct Ht as [-> Ho1]. destruct (frame_out_view _ _ _ _ Hs Ho1) as [Hv Htx].
    destruct Ho1 as (ring & len & _ & _ & _ & ->). unfold modify, ret. cbn [fst snd].
    set (s1 := _ <| txseq := _ |>) in *.
    assert (media_rep (media_delivered m p s1) ((m, p) :: recs)) as H1 by by apply media_delivered_rep.
    split; [done|]. split; [by eapply media_advance_rep|].
    assert (forall s, out_view (media_advance m (media_delivered m p s)) = out_view s /\
      txseq (media_advance m (media_delivered m p s)) = txseq s) as Hsame
      by (intros; unfold media_delivered; by repeat split_if).
    destruct (Hsame s1) as [-> ->]. split; [done|]. split; [by apply negb_false_iff in Ea|done].
  - destruct Ht as [Ht|[_ Ht]]; [by left|]. right. pose proof (teardown_closed s w Hs) as H.
    unfold exec in Ht. by rewrite <- Ht in H.
Qed.

(** With room, nothing is flushed and the record is appended. *)
Lemma media_enqueue_room s w recs op p :
  media_rep s recs -> media_ok op p -> session_active s = true -> media_full s (zlen p) = false ->
  exists s', media_enqueue op p (s, w) = (true, (s', w)) /\
    media_rep s' (recs ++ [(MediaMarker (stream_id s) (stream_connection s) (next_order s) op (zlen p), p)]) /\
    media_only s s'.
Proof.
  intros Hr [Hp Hd] Ha Hf. exists (media_append op p s). split.
  - unfold media_enqueue, bind, get, when. cbn [fst snd]. rewrite Hf. cbn. by rewrite Ha, Hf.
  - split; [by apply media_append_rep|]. apply media_append_only.
Qed.
(** Without room after flushing, or without a session, nothing is queued. *)
Lemma media_enqueue_refused s w op p s' w' :
  media_enqueue op p (s, w) = (false, (s', w')) ->
  session_active s' = false \/ media_full s' (zlen p) = true.
Proof.
  unfold media_enqueue, bind, get, when. cbn [fst snd].
  destruct (media_full s (zlen p)); [destruct (rbp_server_flush_output (s, w)) as [[] [s1 w1]]|];
    cbn; (destruct (negb _ || _) eqn:E0; [|done]); unfold ret; intros [= <- <-];
    apply orb_true_iff in E0 as [E0|E0]; auto; left; by apply negb_true_iff.
Qed.
End media.

(** ** Scheduler *)

(** The number of items waiting. *)
Definition queued (s : rbp_server) (n : nat) : Prop :=
  exists msgs recs, ctl_rep s msgs /\ media_rep s recs /\
    n = (length msgs + Z.to_nat (key_q_count s) + length recs)%nat.
Lemma queued_ex s : server_wf s -> exists n, queued s n /\ (n <= 30)%nat.
Proof.
  intros Hs. destruct (wf_ctl _ Hs) as [msgs Hm]. destruct (wf_media _ Hs) as [recs Hr].
  destruct (wf_keys _ Hs) as [(_ & _ & Hk) _]. pose proof (media_rep_count _ _ Hr) as Hc.
  pose proof Hr as ((_ & _ & Hq) & _). destruct (ctl_rep_free _ _ Hm) as [H6 _].
  exists (length msgs + Z.to_nat (key_q_count s) + length recs)%nat.
  split; [by exists msgs, recs|]. unfold zlen in *. sizes.
Qed.
Lemma queued_none s c : queued s 0 -> 0 <= key_q_count s -> flush_pick s c = None.
Proof.
  intros (msgs & recs & Hm & Hr & Hn) Hk. pose proof (media_rep_count _ _ Hr) as Hc.
  destruct msgs; [|cbn in Hn; lia]. destruct recs; [|cbn in Hn; lia].
  assert (ctl_peek_order s = None) as Hp.
  { unfold ctl_peek_order. destruct (ctl_best (ctl s)) as [b|] eqn:Eb; [|done].
    apply ctl_best_Some in Eb as (Hin & Hu & _). destruct Hm as [_ (q & (_ & Hq & _) & Hms)].
    destruct q; [|done]. apply list_elem_of_lookup in Hin as [i Hi]. apply (Hq i b Hi) in Hu. set_solver. }
  unfold flush_pick. rewrite Hp, Hc. replace (0 <? key_q_count s) with false by (cbn in Hn; lia). done.
Qed.

Section scheduler.
Context {W : Type} `{E : Env W} `{!EnvOk W E}.

(** Every successful round takes one item. *)
Lemma pop_takes s w n s' w' :
  server_wf s -> queued s n -> ctl_pop (s, w) = (true, (s', w')) -> exists n', queued s' n' /\ (n' < n)%nat.
Proof.
  intros Hs (msgs & recs & Hm & Hr & ->). unfold ctl_pop, bind at 1, get. cbn [fst snd].
  destruct (ctl_peek_order s) as [o|] eqn:Ep; [|done].
  destruct (ctl_peek_find s o Ep) as (i & sl & -> & Hi & Hu & _ & -> & _). unfold bind.
  set (h := ctl_header sl). set (p := slice _ _ _). pose proof (try_frame_spec h p s w Hs) as Ht.
  destruct (out_try_frame h p (s, w)) as [[|] [s1 w1]]; cbn [negb]; [|done].
  destruct Ht as [-> (ring & len & _ & _ & _ & ->)]. unfold modify, ret. cbn [fst snd]. intros [= <- <-].
  destruct (ctl_release_rep s msgs i sl Hm Hi Hu) as (m1 & m2 & -> & Hrel).
  eexists. split; [exists (m1 ++ m2), recs; split; [exact Hrel|split; [exact Hr|reflexivity]]|].
  rewrite !length_app. cbn. lia.
Qed.
Lemma keys_takes s w n s' w' :
  server_wf s -> queued s n -> keys_flush_one (s, w) = (true, (s', w')) -> exists n', queued s' n' /\ (n' < n)%nat.
Proof.
  intros Hs (msgs & recs & Hm & Hr & ->). unfold keys_flush_one, bind at 1, get. cbn [fst snd].
  destruct (key_q_count s =? 0) eqn:E0; [done|]. unfold bind. set (h := _ <| h_connection_id := _ |>).
  pose proof (try_frame_spec h (ki_buf (key_at (key_q s) (key_q_head s))) s w Hs) as Ht.
  destruct (out_try_frame h _ (s, w)) as [[|] [s1 w1]]; cbn [negb]; [|done].
  destruct Ht as [-> (ring & len & _ & _ & _ & ->)]. unfold modify, ret. cbn [fst snd]. intros [= <- <-].
  eexists. split; [exists msgs, recs; split; [exact Hm|split; [exact Hr|reflexivity]]|].
  destruct (wf_keys _ Hs) as [(_ & _ & Hk) _]. cbn. rewrite u8_small by (unfold Byte; sizes). lia.
Qed.
Lemma media_takes s w n s' w' :
  server_wf s -> queued s n -> media_flush_one (s, w) = (true, (s', w')) -> exists n', queued s' n' /\ (n' < n)%nat.
Proof.
  intros Hs (msgs & recs & Hm & Hr & ->) Hf. pose proof (media_flush_spec s w recs Hs Hr) as Hsp. rewrite Hf in Hsp.
  destruct recs as [|[m p] recs]; [done|]. destruct Hsp as (_ & Hr' & _).
  assert (ctl_rep s' msgs /\ key_q_count s' = key_q_count s) as [Hm' Hk].
  { revert Hf. unfold media_flush_one, bind at 1, get. cbn [fst snd]. destruct (_ || _); [done|].
    destruct (_ <? _); [done|]. unfold bind. set (h := _ <| h_connection_id := _ |>). set (q := audio_read _ _ _).
    pose proof (try_frame_spec h q s w Hs) as Ht.
    destruct (out_try_frame h q (s, w)) as [[|] [s1 w1]]; cbn [negb]; [|done].
    destruct Ht as [-> (ring & len & _ & _ & _ & ->)]. unfold modify, ret. cbn [fst snd]. intros [= <- _].
    unfold media_delivered. by repeat split_if. }
  eexists. split; [exists msgs, recs; split; [exact Hm'|split; [exact Hr'|reflexivity]]|]. rewrite Hk. cbn. lia.
Qed.
Lemma flush_one_takes q s w n s' w' :
  server_wf s -> queued s n -> flush_one q (s, w) = (true, (s', w')) -> exists n', queued s' n' /\ (n' < n)%nat.
Proof. destruct q; [apply pop_takes|apply keys_takes|apply media_takes]. Qed.

Lemma flush_enough fuel c s w n :
  server_wf s -> queued s n -> (n <= fuel)%nat ->
  forall k, flush_loop (fuel + k) c (s, w) = flush_loop fuel c (s, w).
Proof.
  revert c s w n. induction fuel as [|fuel IH]; intros c s w n Hs Hq Hn k.
  - assert (n = 0%nat) as -> by lia. destruct (wf_keys _ Hs) as [(_ & _ & Hk) _].
    pose proof (queued_none s c Hq ltac:(lia)) as Hp.
    assert (forall f, flush_loop f c (s, w) = ret tt (s, w)) as Hf
      by (intros [|f]; unfold flush_loop, bind, get; cbn [fst]; by rewrite Hp).
    by rewrite !Hf.
  - cbn [flush_loop Nat.add]. unfold bind, get. cbn [fst snd].
    destruct (flush_pick s c) as [[q charged]|]; [|done].
    pose proof (flush_one_takes q s w n) as Ht. destruct (keeps_flush_one q s Hs w) as [Hs' _].
    destruct (flush_one q (s, w)) as [[|] [s' w']]; [|done].
    destruct (Ht s' w' Hs Hq eq_refl) as (n' & Hq' & Hlt). apply (IH _ _ _ n'); [done|done|lia].
Qed.
End scheduler.

(** The heads of the queues with their orders, and those that may go next: a
    control burst of four yields to keys and media. *)
Definition heads (s : rbp_server) : list (queue_t * Z) :=
  match ctl_peek_order s with Some o => [(QCtl, o)] | None => [] end ++
  (if 0 <? key_q_count s then [(QKey, ki_order (key_at (key_q s) (key_q_head s)))] else []) ++
  (if 0 <? media_count s then [(QMedia, mm_order (media_at (media_q s) (media_head s)))] else []).
Definition is_ctl (q : queue_t) : bool := match q with QCtl => true | _ => false end.
Definition eligible (s : rbp_server) (ctl_sent : Z) : list (queue_t * Z) :=
  if (CTL_FLUSH_BURST <=? ctl_sent) && existsb (fun h => negb (is_ctl (fst h))) (heads s)
  then List.filter (fun h => negb (is_ctl (fst h))) (heads s) else heads s.

Lemma flush_pick_spec s n :
  Forall (fun h => 0 < snd h) (heads s) ->
  match flush_pick s n with
  | None => heads s = []
  | Some (q, charged) =>
    charged = is_ctl q /\ exists o, (q, o) ∈ eligible s n /\ Forall (fun h => o <= snd h) (eligible s n)
  end.
Proof.
  unfold flush_pick, eligible, heads.
  set (ko := ki_order _). set (mo := mm_order _).
  destruct (ctl_peek_order s) as [co|]; destruct (0 <? key_q_count s); destruct (0 <? media_count s);
    cbn [found default negb andb orb app existsb fst snd is_ctl List.filter]; intros Hp;
    rewrite ?Forall_cons_iff in Hp; cbn in Hp; unfold id; rewrite ?andb_false_r, ?andb_true_r;
    repeat (match goal with
            | |- context [if ?b then _ else _] => destruct b eqn:?; cbn [andb orb]
            | |- context [match ?b with true => _ | false => _ end] => destruct b eqn:?
            end); try done; try lia;
    (split; [done|]); eexists; (split; [apply list_elem_of_In; cbn; auto|]);
    rewrite ?Forall_cons_iff; cbn; split_and?; try apply Forall_nil; try done; lia.
Qed.

(** ** Properties *)

(** A key event is queued behind those waiting; when eight are waiting, the
    queue is replaced by a RESET with reason OVERFLOW and a SNAPSHOT of the
    pressed keys, with consecutive sequence numbers; without a subscription
    nothing changes. *)
Theorem keys_emit_queue s kind reason bits us :
  server_wf s ->
  let s' := keys_emit kind reason bits us s in
  if negb (events_enabled s) then s' = s
  else if zlen (key_view s) <? RBP_KEY_QUEUE_DEPTH
  then key_view s' = key_view s ++ [key_entry kind reason bits us (input_seq s) (next_order s) (connection_id s)] /\
       input_seq s' = input_seq s
  else key_view s' = key_restart s us /\ input_seq s' = u32 (u32 (input_seq s + 1) + 1) /\
       stat_input_resets s' = u32 (stat_input_resets s + 1).
Proof.
  intros Hs. destruct (events_enabled s) eqn:He; cbn [negb]; [by apply keys_emit_spec|].
  unfold keys_emit. by rewrite He.
Qed.
Definition keys_full : rbp_server :=
  server_init sample_cfg <| events_enabled := true |> <| key_q_head := 5 |> <| key_q_count := 8 |>
    <| pressed_bits := 6 |> <| input_seq := 9 |>.
Lemma keys_full_wf : server_wf keys_full.
Proof.
  destruct (server_init_wf sample_cfg) as [? ? ? [Hk Hf]]. constructor; try assumption.
  split; [by repeat split|exact Hf].
Qed.
Lemma keys_emit_queue_witness :
  let s' := keys_emit RBP_KEYS_KIND_PHYSICAL 0 6 123 keys_full in
  key_view s' = key_restart keys_full 123 /\ input_seq s' = 11 /\ stat_input_resets s' = 1.
Proof.
  pose proof (keys_emit_queue keys_full RBP_KEYS_KIND_PHYSICAL 0 6 123 keys_full_wf) as H. exact H.
Defined.

(** Key events leave in order: a successful flush appends to the output the
    frame of the oldest event and removes it; a refused one changes nothing or
    ends the session. *)
Theorem keys_flush_oldest {W} `{E : Env W} `{!EnvOk W E} s w :
  server_wf s ->
  match keys_flush_one (s, w), key_view s with
  | (true, (s', w')), it :: rest =>
      w' = w /\ key_view s' = rest /\ txseq s' = txseq s + 1 /\
      out_view s' = out_view s ++ frame_wire s (key_header s it) (ki_buf it)
  | (true, _), [] => False
  | (false, (s', w')), _ => (s', w') = (s, w) \/ session_id s' = 0
  end.
Proof. apply keys_flush_spec. Qed.
Definition key_waiting : rbp_server :=
  keys_emit RBP_KEYS_KIND_PHYSICAL 0 6 123 (server_init sample_cfg <| events_enabled := true |> <| txseq := 3 |>).
Lemma key_waiting_wf : server_wf key_waiting.
Proof.
  apply keys_emit_good. destruct (server_init_wf sample_cfg). constructor; (assumption || by split).
Qed.
Lemma keys_flush_oldest_witness :
  match keys_flush_one (E := sink) (key_waiting, []) with
  | (true, (s', _)) => key_view s' = [] /\ txseq s' = 4
  | (false, _) => False
  end.
Proof.
  pose proof (keys_flush_oldest (E := sink) key_waiting [] key_waiting_wf) as H.
  assert (fst (keys_flush_one (E := sink) (key_waiting, [])) = true) as Hok by by vm_compute.
  assert (key_view key_waiting = [key_entry RBP_KEYS_KIND_PHYSICAL 0 6 123 0 1 0]) as Hv by by vm_compute.
  rewrite Hv in H. destruct (keys_flush_one (key_waiting, [])) as [[|] [s' w']]; [|done].
  destruct H as (_ & Hk & Ht & _). split; [done|]. by rewrite Ht; vm_compute.
Defined.

(** Media records leave in order: a successful flush appends to the output
    the frame of the oldest record, as audio or event by its opcode, and removes
    it from both rings; a refused one changes nothing or ends the session. *)
Theorem media_flush_oldest {W} `{E : Env W} `{!EnvOk W E} s w recs :
  server_wf s -> media_rep s recs ->
  match media_flush_one (s, w), recs with
  | (true, (s', w')), (m, p) :: rest =>
      w' = w /\ media_rep s' rest /\ txseq s' = txseq s + 1 /\ session_active s = true /\
      out_view s' = out_view s ++ frame_wire s (media_header s m) p
  | (true, _), [] => False
  | (false, (s', w')), _ => (s', w') = (s, w) \/ session_id s' = 0
  end.
Proof. apply media_flush_spec. Qed.
Lemma init_media c : media_rep (server_init c) [].
Proof. by repeat split. Qed.
Definition media_waiting : rbp_server :=
  media_append RBP_OP_VOICE_ENDED_EV [1; 2; 3]
    (server_init sample_cfg <| txseq := 3 |> <| session_active := true |> <| session_id := 1 |> <| session_counter := 1 |>).
Lemma media_waiting_ok :
  server_wf media_waiting /\ media_rep media_waiting [(MediaMarker 0 0 1 RBP_OP_VOICE_ENDED_EV 3, [1; 2; 3])].
Proof.
  set (s := server_init sample_cfg <| txseq := 3 |> <| session_active := true |> <| session_id := 1 |> <| session_counter := 1 |>).
  assert (server_wf s) as Hs by (destruct (server_init_wf sample_cfg); constructor; (assumption || by split)).
  assert (media_rep s []) as Hr by exact (init_media sample_cfg).
  split; [by apply (media_append_good _ _ s [] Hr)|].
  exact (media_append_rep s [] RBP_OP_VOICE_ENDED_EV [1; 2; 3] Hr eq_refl ltac:(done) ltac:(done)).
Qed.
Lemma media_flush_oldest_witness :
  match media_flush_one (E := sink) (media_waiting, []) with
  | (true, (s', _)) => media_rep s' [] /\ txseq s' = 4
  | (false, _) => False
  end.
Proof.
  destruct media_waiting_ok as [Hs Hr]. pose proof (media_flush_oldest (E := sink) media_waiting [] _ Hs Hr) as H.
  assert (fst (media_flush_one (E := sink) (media_waiting, [])) = true) as Hok by by vm_compute.
  destruct (media_flush_one (media_waiting, [])) as [[|] [s' w']]; [|done].
  destruct H as (_ & Hk & Ht & _). split; [done|]. by rewrite Ht; vm_compute.
Defined.

(** Discarding the current stream compacts both rings in place to exactly
    the records that are kept, in order: those of other streams and the START of
    this one. *)
Theorem media_discard_filters s recs :
  media_rep s recs ->
  media_rep (media_discard_current s)
    (List.filter (fun r => negb ((mm_stream (fst r) =? stream_id s) &&
                                 negb (mm_opcode (fst r) =? RBP_OP_VOICE_STARTED_EV))) recs).
Proof. apply media_discard_rep. Qed.
Lemma media_discard_filters_witness :
  let s := media_append RBP_OP_VOICE_DATA (replicate 41 9) (media_append RBP_OP_VOICE_STARTED_EV [1; 2] (server_init sample_cfg)) in
  media_rep (media_discard_current s) [(MediaMarker 0 0 1 RBP_OP_VOICE_STARTED_EV 2, [1; 2])].
Proof.
  cbv zeta. set (s1 := media_append RBP_OP_VOICE_STARTED_EV [1; 2] (server_init sample_cfg)).
  assert (media_rep s1 [(MediaMarker 0 0 1 RBP_OP_VOICE_STARTED_EV 2, [1; 2])]) as H1
    by exact (media_append_rep _ [] RBP_OP_VOICE_STARTED_EV [1; 2] (init_media sample_cfg) eq_refl ltac:(done) ltac:(done)).
  pose proof (media_append_rep s1 _ RBP_OP_VOICE_DATA (replicate 41 9) H1 eq_refl ltac:(done) ltac:(done)) as H2.
  exact (media_discard_filters _ _ H2).
Defined.

(** A record that fits both rings is appended to the media queue with the
    identity of the stream and the next order, and nothing is sent; when the
    enqueue fails, the session is gone or the rings are full even after
    flushing. *)
Theorem media_enqueue_appends {W} `{E : Env W} s w recs op p :
  media_rep s recs -> media_ok op p ->
  (session_active s = true -> media_full s (zlen p) = false ->
   exists s', media_enqueue op p (s, w) = (true, (s', w)) /\
     media_rep s' (recs ++ [(MediaMarker (stream_id s) (stream_connection s) (next_order s) op (zlen p), p)])) /\
  (forall s' w', media_enqueue op p (s, w) = (false, (s', w')) ->
   session_active s' = false \/ media_full s' (zlen p) = true).
Proof.
  intros Hr Hok. split.
  - intros Ha Hf. destruct (media_enqueue_room s w recs op p Hr Hok Ha Hf) as (s' & H1 & H2 & _). by exists s'.
  - intros s' w'. apply media_enqueue_refused.
Qed.
Lemma media_enqueue_appends_witness :
  exists s', media_enqueue (E := sink) RBP_OP_VOICE_ENDED_EV [1] (server_init sample_cfg <| session_active := true |>, []) =
    (true, (s', [])) /\ media_rep s' [(MediaMarker 0 0 1 RBP_OP_VOICE_ENDED_EV 1, [1])].
Proof.
  set (s := server_init sample_cfg <| session_active := true |>).
  assert (media_rep s []) as Hr by exact (init_media sample_cfg).
  destruct (media_enqueue_appends (E := sink) s [] [] RBP_OP_VOICE_ENDED_EV [1] Hr ltac:(by split)) as [H _].
  destruct (H eq_refl eq_refl) as (s' & H1 & H2). exists s'. split; [exact H1|exact H2].
Defined.

(** C36: the flush loop ends: more fuel changes nothing, because every successful
    round takes one of the at most thirty queued items. *)
Theorem flush_terminates {W} `{E : Env W} `{!EnvOk W E} s w ctl_sent k :
  server_wf s -> flush_loop (flush_fuel + k) ctl_sent (s, w) = flush_loop flush_fuel ctl_sent (s, w).
Proof.
  intros Hs. destruct (queued_ex s Hs) as (n & Hq & Hn). apply (flush_enough _ _ _ _ n); [done|done|].
  unfold flush_fuel. lia.
Qed.
Lemma flush_terminates_witness :
  flush_loop (E := sink) (flush_fuel + 5) 0 (two_queued, []) = flush_loop (E := sink) flush_fuel 0 (two_queued, []).
Proof.
  apply (flush_terminates (E := sink)). destruct two_queued_ok as (m1 & m2 & _ & Hs & _). exact Hs.
Defined.

(** The scheduler is fair: it picks the queue whose head has the least order,
    and after four control frames it leaves control out while keys or media
    wait; only control frames are charged to the burst; it stops only when
    nothing is queued. *)
Theorem flush_pick_oldest s ctl_sent :
  Forall (fun h => 0 < snd h) (heads s) ->
  match flush_pick s ctl_sent with
  | None => heads s = []
  | Some (q, charged) =>
    charged = is_ctl q /\
    exists o, (q, o) ∈ eligible s ctl_sent /\ Forall (fun h => o <= snd h) (eligible s ctl_sent)
  end.
Proof. apply flush_pick_spec. Qed.
Lemma flush_pick_oldest_witness :
  exists o, (QCtl, o) ∈ eligible two_queued 0 /\ Forall (fun h => o <= snd h) (eligible two_queued 0).
Proof.
  pose proof (flush_pick_oldest two_queued 0) as H. assert (Forall (fun h : queue_t * Z => 0 < snd h) (heads two_queued)) as Hp
    by (apply (bool_decide_unpack _); by vm_compute).
  assert (flush_pick two_queued 0 = Some (QCtl, true)) as Hf by by vm_compute.
  specialize (H Hp). rewrite Hf in H. exact (proj2 H).
Defined.
