(* ===== verification/ServerSpecs.v ===== *)
(** * Session end, operation history, paging, envelopes

    Theorems about single operations of the server against short
    specifications: what a closed session leaves behind, the history of
    completed operations, the pages of lists and the envelope check of a
    request. *)
From Stdlib Require Import String.
From S2P Require Import Prelude Defs Ring Cobs Frame Tlv DeviceModel Faults ServerState ServerCore CtlQueue MediaQueue ServerVoice ServerLink ServerDispatch Server ServerInv ServerSafe ServerProps ServerFlow ServerQueues.
#[local] Open Scope Z_scope.
#[local] Open Scope list_scope.
#[local] Open Scope rbp_scope.

(** ** The end of a session *)

(** The bytes up to and including the first delimiter. *)
Fixpoint first_frame (l : list Z) : list Z :=
  match l with [] => [] | b :: l => if b =? 0 then [b] else b :: first_frame l end.
Lemma first_frame_prefix l : exists k, l = first_frame l ++ k.
Proof.
  induction l as [|b l [k IH]]; cbn; [by exists []|]. split_if; [by exists l|]. exists k. cbn. by f_equal.
Qed.
Lemma truncate_out_spec n ring head i len :
  ring_wf OUT_RING_SIZE ring head len -> 0 <= i -> i + Z.of_nat n = len ->
  truncate_out n ring head i len = i + zlen (first_frame (drop (Z.to_nat i) (rview ring head len))).
Proof.
  intros Hw. pose proof (zlen_rview _ _ _ _ Hw) as Hz. revert i. induction n as [|n IH]; intros i Hi Hl; cbn [truncate_out].
  - rewrite drop_ge by (unfold zlen in Hz; lia). change (zlen (first_frame [])) with 0. lia.
  - assert (Z.of_nat (Z.to_nat i) < len) as Hlt by lia.
    pose proof (lookup_rview _ _ _ _ _ Hw Hlt) as Hb. rewrite Z2Nat.id in Hb by done.
    destruct (lookup_lt_is_Some_2 (rview ring head len) (Z.to_nat i)) as [b Eb]; [unfold zlen in Hz; lia|].
    rewrite (drop_S _ _ _ Eb). rewrite Eb in Hb. symmetry in Hb. apply znth_lookup in Hb. rewrite Hb. cbn [first_frame].
    split_if; [done|]. rewrite IH by lia. rewrite zlen_cons. replace (Z.to_nat (i + 1)) with (S (Z.to_nat i)) by lia. lia.
Qed.
Lemma withdraw_out s :
  ring_wf OUT_RING_SIZE (out_ring s) (out_head s) (out_len s) ->
  out_view (session_withdraw s) = first_frame (out_view s).
Proof.
  intros Hw. pose proof (zlen_rview _ _ _ _ Hw) as Hz. pose proof Hw as (_ & _ & Hn).
  assert (out_view (session_withdraw s) = rview (out_ring s) (out_head s)
    (truncate_out (Z.to_nat (out_len s)) (out_ring s) (out_head s) 0 (out_len s))) as ->
    by (unfold session_withdraw; destruct (op_kind s =? OPK_PAIR); cbn; by destruct (source_active s)).
  rewrite (truncate_out_spec _ _ _ _ _ Hw) by lia. rewrite drop_0, Z.add_0_l. fold (out_view s).
  destruct (first_frame_prefix (out_view s)) as [k Hk].
  assert (zlen (first_frame (out_view s)) <= out_len s).
  { apply (f_equal zlen) in Hk. rewrite zlen_app in Hk. pose proof (zlen_nonneg k). unfold out_view in *. lia. }
  pose proof (zlen_nonneg (first_frame (out_view s))).
  rewrite (rview_take _ _ _ _ _ Hw) by lia. fold (out_view s).
  generalize (first_frame (out_view s)) Hk. intros f ->. unfold zlen. by rewrite Nat2Z.id, take_app_length.
Qed.

Definition two_frames : rbp_server := server_init sample_cfg <| out_ring ::= fun r => splice r 2046 [5; 6] |>
  <| out_ring ::= fun r => splice r 0 [7; 0; 8; 0] |> <| out_head := 2046 |> <| out_len := 6 |>.

(** ** The history of operations *)
Definition ops_view (s : rbp_server) : list op_result_t := rview (ops_done s) (ops_done_head s) (ops_done_count s).
Lemma op_lookup_view s id : server_wf s -> op_lookup s id = List.find (fun r => or_op_id r =? id) (ops_view s).
Proof.
  intros Hs. pose proof (wf_ops _ Hs) as Hw. unfold op_lookup, ops_view. f_equal.
  rewrite <- (rview_map _ _ _ _ op_result0 Hw). unfold upto. rewrite map_map. apply map_ext. intros i.
  unfold op_at. destruct Hw as (_ & Hh & _).
  pose proof (Z.mod_pos_bound (ops_done_head s + Z.of_nat i) RBP_MAX_OPERATION_RESULTS ltac:(sizes)).
  by rewrite u8_small by (unfold Byte; sizes).
Qed.
Lemma ops_push_view r s :
  server_wf s ->
  ops_view (ops_push r s) =
    (if ops_done_count s <? RBP_MAX_OPERATION_RESULTS then ops_view s else drop 1 (ops_view s)) ++ [r].
Proof.
  intros Hs. pose proof (wf_ops _ Hs) as Hw. pose proof Hw as (Hl & Hh & Hn). unfold ops_push, ops_view.
  pose proof (Z.mod_pos_bound (ops_done_head s + ops_done_count s) RBP_MAX_OPERATION_RESULTS ltac:(sizes)).
  rewrite (u8_small (_ mod _)) by (unfold Byte; sizes). destruct (_ <? _) eqn:E0; cbn; unfold set_at.
  - rewrite u8_small by (unfold Byte; sizes). by destruct (ring_push _ _ _ _ r Hw ltac:(lia)).
  - pose proof (Z.mod_pos_bound (ops_done_head s + 1) RBP_MAX_OPERATION_RESULTS ltac:(sizes)).
    rewrite u8_small by (unfold Byte; sizes).
    assert (ops_done_count s = RBP_MAX_OPERATION_RESULTS) as Hc by lia. rewrite Hc in *.
    replace ((ops_done_head s + RBP_MAX_OPERATION_RESULTS) mod RBP_MAX_OPERATION_RESULTS) with (ops_done_head s).
    + by destruct (ring_overwrite _ _ _ r Hw).
    + rewrite <- (Z.mul_1_l RBP_MAX_OPERATION_RESULTS) at 1. rewrite Z_mod_plus_full. symmetry. by apply Z.mod_small.
Qed.

(** The results of the last four operations can be queried: completing an
    operation adds its result behind the older ones and drops the oldest of five,
    and a query finds the oldest kept result with its id. *)
Theorem operation_history s r id :
  server_wf s ->
  let s' := ops_push r s in
  ops_view s' = (if ops_done_count s <? RBP_MAX_OPERATION_RESULTS then ops_view s else drop 1 (ops_view s)) ++ [r] /\
  op_lookup s' id = List.find (fun r => or_op_id r =? id) (ops_view s').
Proof.
  intros Hs. split; [by apply ops_push_view|]. apply op_lookup_view. by apply (ops_push_good r s).
Qed.
Definition op_n (id : Z) : op_result_t := OpResult true id RBP_STATUS_OK 0 0 false.
Lemma operation_history_witness :
  let s := foldr ops_push (server_init sample_cfg) [op_n 4; op_n 3; op_n 2; op_n 1] in
  ops_view (ops_push (op_n 5) s) = [op_n 2; op_n 3; op_n 4; op_n 5] /\
  op_lookup (ops_push (op_n 5) s) 1 = None.
Proof.
  cbv zeta. set (s := foldr _ _ _). assert (server_wf s) as Hs.
  { cbn in s. unfold s. do 4 (apply ops_push_good). apply server_init_wf. }
  destruct (operation_history s (op_n 5) 1 Hs) as [H1 H2]. rewrite H2, H1. by vm_compute.
Defined.

(** ** Pages *)
(** A client that follows the cursors of the replies. *)
Fixpoint read_pages (rec_at : Z -> list Z) (total limit : Z) (fuel : nat) (cursor : Z) : option (list Z) :=
  match fuel with
  | O => None
  | S fuel =>
    let '(i, count, acc) := page_loop (Z.to_nat limit) rec_at total limit cursor 0 [] in
    if total <=? i then Some acc
    else match read_pages rec_at total limit fuel i with Some rest => Some (acc ++ rest) | None => None end
  end.
Lemma concat_zlen_le (l : list (list Z)) m : Forall (fun r => zlen r <= m) l -> zlen (concat l) <= m * zlen l.
Proof.
  induction 1 as [|r l Hr Hl IH]; cbn [concat]; [unfold zlen; cbn; lia|]. rewrite zlen_app, zlen_cons. nia.
Qed.

Section pages.
Context (recs : list (list Z)) (rec_at : Z -> list Z) (limit : Z).
Context (Hat : forall i, 0 <= i < zlen recs -> rec_at i = nth (Z.to_nat i) recs []).
Context (Hfit : Forall (fun r => zlen r <= 498) recs) (Hlim : 0 < limit).

Lemma page_loop_spec fuel c i count acc :
  0 <= c -> i = c + count -> 0 <= count <= limit -> i <= zlen recs -> limit <= count + Z.of_nat fuel ->
  acc = concat (slice recs c count) -> 1 + zlen acc <= 500 ->
  let '(i', count', acc') := page_loop fuel rec_at (zlen recs) limit i count acc in
  i' = c + count' /\ count <= count' <= limit /\ i' <= zlen recs /\ acc' = concat (slice recs c count') /\
  1 + zlen acc' <= 500 /\ (i < zlen recs -> count = 0 -> count' <> 0).
Proof.
  revert i count acc. induction fuel as [|fuel IH]; intros i count acc Hc Hi Hn Hle Hf Ha Hz; cbn [page_loop].
  { replace (negb _) with true by lia. split_and!; try done; lia. }
  destruct (negb _) eqn:E0; [split_and!; try done; lia|].
  assert (i < zlen recs) as Hlt by lia. rewrite (Hat i) by lia.
  destruct (lookup_lt_is_Some_2 recs (Z.to_nat i)) as [r Hr]; [unfold zlen in Hlt; lia|].
  rewrite nth_lookup, Hr. cbn [default]. unfold id.
  assert (zlen r <= 498) as Hrz by exact (Forall_lookup_1 _ _ _ _ Hfit Hr). pose proof (zlen_nonneg r).
  destruct (500 <? _) eqn:E1.
  { assert (count <> 0) by (intros Hc0; subst count; assert (zlen acc = 0) by (by rewrite Ha); lia).
    split_and!; try done; lia. }
  assert (slice recs c (count + 1) = slice recs c count ++ [r]) as Hs.
  { unfold slice. replace (Z.to_nat (count + 1)) with (S (Z.to_nat count)) by lia. apply take_S_r.
    rewrite lookup_drop, <- Hr. f_equal. lia. }
  specialize (IH (i + 1) (count + 1) (acc ++ r) Hc ltac:(lia) ltac:(lia) ltac:(lia) ltac:(lia)).
  rewrite zlen_app, Hs, concat_app, Ha in IH. cbn in IH. rewrite app_nil_r in IH.
  specialize (IH eq_refl ltac:(rewrite <- Ha; lia)). rewrite <- Ha in IH.
  destruct (page_loop _ _ _ _ _ _ _) as [[i' count'] acc']. destruct IH as (H1 & H2 & H3 & H4 & H5 & _).
  split_and!; try done; lia.
Qed.

Lemma read_pages_all fuel c :
  0 <= c < zlen recs -> zlen recs - c <= Z.of_nat fuel ->
  read_pages rec_at (zlen recs) limit fuel c = Some (concat (drop (Z.to_nat c) recs)).
Proof.
  revert c. induction fuel as [|fuel IH]; intros c Hc Hf; [lia|]. cbn [read_pages].
  pose proof (page_loop_spec (Z.to_nat limit) c c 0 [] ltac:(lia) ltac:(lia) ltac:(lia) ltac:(lia) ltac:(lia) eq_refl ltac:(done)) as H.
  destruct (page_loop _ _ _ _ _ _ _) as [[i count] acc]. destruct H as (-> & H2 & H3 & -> & _ & H6).
  specialize (H6 ltac:(lia) eq_refl).
  assert (drop (Z.to_nat c) recs = slice recs c count ++ drop (Z.to_nat (c + count)) recs) as ->.
  { unfold slice. rewrite Z2Nat.inj_add by lia. rewrite <- drop_drop. symmetry. apply take_drop. }
  rewrite concat_app. destruct (zlen recs <=? c + count) eqn:E0.
  - rewrite (drop_ge recs) by (unfold zlen in E0; lia). cbn. by rewrite app_nil_r.
  - by rewrite IH by lia.
Qed.
End pages.

(** The records of a profile. *)
Definition key_recs (p : rbp_device_profile_t) : list (list Z) := map (key_rec p) (upto (key_count p)).
Lemma zlen_upto n : 0 <= n -> zlen (upto n) = n.
Proof. intros. unfold upto, zlen. rewrite length_map, length_seq. lia. Qed.
Lemma nth_upto n i : 0 <= i < n -> upto n !! Z.to_nat i = Some i.
Proof. intros. unfold upto. rewrite list_lookup_fmap, lookup_seq_lt by lia. cbn. f_equal. lia. Qed.
Lemma key_rec_le p i : zlen (key_rec p i) <= 36.
Proof.
  unfold key_rec. rewrite zlen_app. change (zlen [_; _; _; _]) with 4. unfold slice, zlen.
  rewrite length_take. cbn [length]. split_if; lia.
Qed.

(** The key catalog can be read completely: a client that asks for the pages
    one after the other, following the returned cursor, receives the records of
    all keys in slot order; and every page, whatever its cursor, has room for
    its records both in the entry buffer and in a TLV. *)
Theorem catalog_pages_complete p :
  0 < key_count p ->
  read_pages (key_rec p) (key_count p) 12 (Z.to_nat (key_count p)) 0 = Some (concat (key_recs p)) /\
  (forall cursor, 0 <= cursor < key_count p ->
   let '(i, count, acc) := page_loop 12 (key_rec p) (key_count p) 12 cursor 0 [] in
   cursor < i <= key_count p /\ count = i - cursor /\ 1 + zlen acc <= RBP_TLV_MAX_BYTES).
Proof.
  intros Hk. assert (zlen (key_recs p) = key_count p) as Hz
    by (unfold key_recs, zlen; rewrite length_map; apply zlen_upto; lia).
  assert (forall i, 0 <= i < zlen (key_recs p) -> key_rec p i = nth (Z.to_nat i) (key_recs p) []) as Hat.
  { intros i Hi. unfold key_recs. rewrite nth_lookup, list_lookup_fmap, nth_upto by lia. done. }
  assert (Forall (fun r => zlen r <= 36) (key_recs p)) as H36
    by (apply Forall_map, Forall_forall; intros; apply key_rec_le).
  assert (Forall (fun r => zlen r <= 498) (key_recs p)) as Hfit by (eapply Forall_impl; [|exact H36]; cbn; lia).
  split.
  - rewrite <- Hz at 1. rewrite (read_pages_all _ _ 12 Hat Hfit) by lia. by rewrite drop_0.
  - intros c Hc. pose proof (page_loop_spec _ _ 12 Hat Hfit ltac:(lia) 12 c c 0 [] ltac:(lia) ltac:(lia) ltac:(lia) ltac:(lia)
      ltac:(lia) eq_refl ltac:(done)) as H. rewrite Hz in H.
    destruct (page_loop _ _ _ _ _ _ _) as [[i count] acc]. destruct H as (-> & H2 & H3 & -> & _ & H6).
    specialize (H6 ltac:(lia) eq_refl). split; [lia|]. split; [lia|].
    pose proof (concat_zlen_le (slice (key_recs p) c count) 36 ltac:(by apply slice_Forall)) as Hle.
    rewrite zlen_slice in Hle by lia. sizes.
Qed.
Lemma catalog_pages_complete_witness :
  read_pages (key_rec RBP_PROFILE_UNICOM) 28 12 28 0 = Some (concat (key_recs RBP_PROFILE_UNICOM)).
Proof. apply (catalog_pages_complete RBP_PROFILE_UNICOM). by vm_compute. Defined.

(** ** The envelope *)
Lemma next_not_ok r r' e : rbp_tlv_next r = (r', inl e) -> e <> RBP_TLV_OK.
Proof. unfold rbp_tlv_next. intros H. repeat split_if_in H; by inv H. Qed.
Lemma envelope_scan fuel rd want hit :
  envelope_loop fuel rd = bool_decide (fst (scan_loop fuel rd want hit) = Some RBP_TLV_OK).
Proof.
  revert rd hit. induction fuel as [|fuel IH]; intros rd hit; cbn; (destruct (negb _); [by rewrite bool_decide_true|]).
  - by rewrite bool_decide_false.
  - destruct (rbp_tlv_next rd) as [rd' [e|it]] eqn:En; [|apply IH].
    pose proof (next_not_ok _ _ _ En). cbn. rewrite bool_decide_false by congruence. done.
Qed.
Lemma envelope_exact payload :
  Bytes payload -> envelope_ok payload = true <-> exists its, payload = encode_items its /\ message its.
Proof.
  intros Hb. unfold envelope_ok. rewrite (envelope_scan _ _ 0 None).
  assert (scan (rbp_tlv_reader_init payload) 0 =
    (default RBP_TLV_ERR_MALFORMED (fst (scan_loop (length payload) (rbp_tlv_reader_init payload) 0 None)),
     snd (scan_loop (length payload) (rbp_tlv_reader_init payload) 0 None))) as Hs.
  { unfold scan. change (rbp_tlv_reader_init payload <| r_pos := 0 |> <| seen_tags := replicate 32 0 |>)
      with (rbp_tlv_reader_init payload). change (r_buf (rbp_tlv_reader_init payload)) with payload.
    by destruct (scan_loop _ _ _ _). }
  rewrite bool_decide_eq_true. split.
  - intros H. rewrite H in Hs. apply scan_sound in Hs as (its & He & Hm & _); [|done]. by exists its.
  - intros (its & -> & Hm). rewrite (scan_message its 0 Hm) in Hs.
    destruct (scan_loop _ _ _ _) as [[e|] h]; cbn in *; congruence.
Qed.

(** C37: a request is dispatched only if its payload is a sequence of complete
    TLV items with distinct tags; any other payload is answered
    INVALID_ARGUMENT before a handler sees it. *)
Theorem dispatch_envelope {W} `{E : Env W} h payload :
  Bytes payload -> (0x200 <=? h_opcode h) || (h_connection_id h =? 0) = true ->
  ((exists its, payload = encode_items its /\ message its) ->
   dispatch_request h payload = dispatch_opcode h (rbp_tlv_reader_init payload)) /\
  (~ (exists its, payload = encode_items its /\ message its) ->
   dispatch_request h payload = reject h RBP_STATUS_INVALID_ARGUMENT "malformed TLV").
Proof.
  intros Hb Hm. unfold dispatch_request. pose proof (envelope_exact payload Hb) as He.
  replace ((h_opcode h <? 512) && _) with false by lia. split.
  - intros Hex. apply He in Hex. by rewrite Hex.
  - intros Hno. destruct (envelope_ok payload); [|done]. exfalso. apply Hno. by apply He.
Qed.
Lemma dispatch_envelope_witness :
  dispatch_request (E := sink) (ping 2 2) ping_payload = dispatch_opcode (E := sink) (ping 2 2) (rbp_tlv_reader_init ping_payload).
Proof.
  apply (dispatch_envelope (E := sink) (ping 2 2) ping_payload).
  - apply (bool_decide_unpack _). by vm_compute.
  - by vm_compute.
  - exists [TlvItem 1 RBP_TLV_T_U32 [99; 0; 0; 0]]. split; [by vm_compute|]. apply (bool_decide_unpack _). by vm_compute.
Defined.
