(* ===== verification/VoiceProps.v ===== *)
(** * Encoded units and codecs

    How an encoded unit is cut into DATA records, and how the codecs of a stream
    are negotiated. *)
From S2P Require Import Prelude Defs Ring Cobs Frame Tlv DeviceModel Faults ServerState ServerCore CtlQueue MediaQueue ServerVoice ServerLink ServerDispatch Server ServerInv ServerSafe ServerProps ServerFlow ServerQueues.

(** ** Fragments *)
Fixpoint chunk_loop (fuel : nat) (l : list Z) : list (list Z) :=
  match fuel, l with
  | O, _ | _, [] => []
  | S fuel, _ => slice l 0 256 :: chunk_loop fuel (drop 256 l)
  end.
(** The pieces of at most 256 bytes of an encoded fragment. *)
Definition chunks (l : list Z) : list (list Z) := chunk_loop (length l) l.
Lemma chunk_loop_concat fuel l : (length l <= fuel)%nat -> concat (chunk_loop fuel l) = l.
Proof.
  revert l. induction fuel as [|fuel IH]; intros l Hl; [destruct l; [done|cbn in Hl; lia]|]. destruct l as [|b l]; [done|].
  cbn [chunk_loop concat]. rewrite IH by (rewrite length_drop; cbn in *; lia).
  unfold slice. rewrite drop_0. apply (take_drop 256).
Qed.
Lemma chunk_loop_le fuel l : Forall (fun c => 0 < zlen c <= 256) (chunk_loop fuel l).
Proof.
  revert l. induction fuel as [|fuel IH]; intros l; [by destruct l; constructor|].
  destruct l as [|b l]; [constructor|]. cbn [chunk_loop]. constructor; [|apply IH].
  unfold slice, zlen. rewrite length_take, drop_0. cbn [length]. lia.
Qed.

(** The payloads of the records of one unit, from byte [off] of the unit on. *)
Fixpoint unit_frames (stream seq ep unit size off ssamples samples : Z) (cs : list (list Z)) : list (list Z) :=
  match cs with
  | [] => []
  | c :: cs =>
    (le 4 stream ++ le 4 (seq + 1) ++ le 4 ep ++ le 4 unit ++ le 4 size ++ le 4 off ++ le 8 ssamples ++
     le 4 samples ++ le 4 0 ++ c) ::
    unit_frames stream (seq + 1) ep unit size (off + zlen c) ssamples samples cs
  end.

(** The counters after [len] bytes of a unit of [size] bytes were queued. *)
Definition advanced (s s' : rbp_server) (size samples len n : Z) : Prop :=
  frame_seq s' = frame_seq s + n /\ source_bytes s' = u64 (source_bytes s + len) /\
  stream_id s' = stream_id s /\ epoch s' = epoch s /\
  (if unit_offset s + len =? size
   then unit_offset s' = 0 /\ source_units s' = source_units s + 1 /\
        source_samples s' = sample_add (source_samples s) samples
   else unit_offset s' = unit_offset s + len /\ source_units s' = source_units s /\
        source_samples s' = source_samples s).
(** A record of the stream. *)
Definition stream_data (stream conn : Z) (r : record) : Prop :=
  mm_opcode (fst r) = RBP_OP_VOICE_DATA /\ mm_stream (fst r) = stream /\ mm_connection (fst r) = conn.

Lemma media_full_rep s recs n :
  media_rep s recs ->
  media_full s n = (MEDIA_DEPTH <=? zlen recs) || (AUDIO_POOL_SIZE - zlen (record_bytes recs) <? n).
Proof. intros Hr. unfold media_full. by rewrite (media_rep_count _ _ Hr), (media_rep_len _ _ Hr). Qed.

Lemma record_bytes_snoc recs m p : record_bytes (recs ++ [(m, p)]) = record_bytes recs ++ p.
Proof. unfold record_bytes. rewrite map_app, concat_app. cbn. by rewrite app_nil_r. Qed.

Section fragments.
Context {W : Type} `{E : Env W}.

(** The counters a fragment relies on: the unit in progress has room for the
    bytes, and no counter is about to overflow. *)
Definition unit_ok (s : rbp_server) (size len n : Z) : Prop :=
  0 <= frame_seq s /\ frame_seq s + n <= UINT32_MAX /\ 0 <= source_units s < UINT32_MAX /\
  0 <= unit_offset s /\ unit_offset s + len <= size <= UINT32_MAX /\ U64 (source_bytes s).

Lemma fragment_step s size samples n :
  0 <= frame_seq s < UINT32_MAX -> 0 <= source_units s < UINT32_MAX -> 0 <= unit_offset s ->
  unit_offset s + n <= size <= UINT32_MAX -> 0 < n ->
  advanced s (fragment_queued size samples n s) size samples n 1 /\
  session_active (fragment_queued size samples n s) = session_active s /\
  delivering (fragment_queued size samples n s) = delivering s /\
  stream_connection (fragment_queued size samples n s) = stream_connection s.
Proof.
  intros Hf Hu Ho Hs Hn. unfold advanced, fragment_queued. cbv zeta.
  change (unit_offset (_ <| unit_offset ::= _ |>)) with (u32 (unit_offset s + n)).
  rewrite (u32_small (unit_offset s + n)) by words.
  assert (u32 (frame_seq s + 1) = frame_seq s + 1) as H1 by (apply u32_small; words).
  assert (u32 (source_units s + 1) = source_units s + 1) as H2 by (apply u32_small; words).
  assert (u32 (unit_offset s + n) = unit_offset s + n) as H3 by (apply u32_small; words).
  destruct (unit_offset s + n =? size) eqn:E1; cbn -[u32 u64]; rewrite ?H1, ?H2, ?H3; done.
Qed.
Lemma fragment_media size samples n s recs :
  media_rep s recs -> media_rep (fragment_queued size samples n s) recs.
Proof. unfold fragment_queued. cbv zeta. by split_if. Qed.
Lemma advanced_trans s s1 s2 size samples n m k :
  0 < m -> unit_offset s + n + m <= size ->
  advanced s s1 size samples n 1 -> advanced s1 s2 size samples m k -> advanced s s2 size samples (n + m) (1 + k).
Proof.
  intros Hm Hs (H1 & H2 & H3 & H4 & H5) (G1 & G2 & G3 & G4 & G5). unfold advanced.
  replace (unit_offset s + n =? size) with false in H5 by lia. destruct H5 as (H5 & H6 & H7).
  rewrite H5, H6, H7 in G5. split; [lia|]. split.
  { rewrite G2, H2. unfold u64. rewrite Zplus_mod_idemp_l. f_equal. lia. }
  split; [congruence|]. split; [congruence|]. by rewrite Z.add_assoc.
Qed.
(** One record is queued: the state before the counters move. *)
Lemma data_enqueue s w recs size samples frag :
  media_rep s recs -> session_active s = true -> 0 < zlen frag <= 256 ->
  zlen recs < MEDIA_DEPTH -> zlen (record_bytes recs) + 40 + zlen frag <= AUDIO_POOL_SIZE ->
  exists s1, media_enqueue RBP_OP_VOICE_DATA (data_record s size samples frag) (s, w) = (true, (s1, w)) /\
    media_only s s1 /\
    media_rep s1 (recs ++ [(MediaMarker (stream_id s) (stream_connection s) (next_order s) RBP_OP_VOICE_DATA
                              (40 + zlen frag), data_record s size samples frag)]).
Proof.
  intros Hr Ha Hf Hd Hp. pose proof (zlen_data_record s size samples frag) as Hz.
  change RBP_AUDIO_DATA_HEADER with 40 in Hz.
  destruct (media_enqueue_room s w recs RBP_OP_VOICE_DATA (data_record s size samples frag) Hr) as (s1 & H1 & H2 & H3).
  - split; [|intros _]; rewrite Hz; sizes.
  - done.
  - rewrite (media_full_rep _ _ _ Hr), Hz. lia.
  - exists s1. rewrite Hz in H2. done.
Qed.
Lemma data_record_frame s size samples frag cs :
  0 <= frame_seq s < UINT32_MAX -> 0 <= source_units s < UINT32_MAX ->
  unit_frames (stream_id s) (frame_seq s) (epoch s) (source_units s + 1) size (unit_offset s) (source_samples s)
    samples (frag :: cs) =
  data_record s size samples frag ::
  unit_frames (stream_id s) (frame_seq s + 1) (epoch s) (source_units s + 1) size (unit_offset s + zlen frag)
    (source_samples s) samples cs.
Proof. intros. cbn [unit_frames]. unfold data_record, audio_put. by rewrite !u32_small by words. Qed.
(** One round of the loop, with room for the fragment. *)
Lemma encoded_round fuel size samples l s w recs :
  let t := Z.min 256 (zlen l) in
  media_rep s recs -> session_active s = true -> delivering s = true -> 0 < zlen l ->
  zlen recs < MEDIA_DEPTH -> zlen (record_bytes recs) + 40 + t <= AUDIO_POOL_SIZE ->
  unit_ok s size (zlen l) 1 ->
  exists s2,
    encoded_loop (S fuel) size samples l (s, w) = encoded_loop fuel size samples (drop (Z.to_nat t) l) (s2, w) /\
    media_rep s2 (recs ++ [(MediaMarker (stream_id s) (stream_connection s) (next_order s) RBP_OP_VOICE_DATA (40 + t),
                            data_record s size samples (slice l 0 t))]) /\
    advanced s s2 size samples t 1 /\ session_active s2 = true /\ delivering s2 = true /\
    stream_connection s2 = stream_connection s.
Proof.
  intros t Hr Ha Hd Hl0 Hq Hp (Hu1 & Hu2 & Hu3 & Hu4 & Hu5 & Hu6).
  assert (zlen (slice l 0 t) = t) as Hst by (apply zlen_slice; lia).
  destruct (data_enqueue s w recs size samples (slice l 0 t) Hr Ha ltac:(lia) ltac:(lia) ltac:(lia)) as (s1 & He & Hm & Hr1).
  rewrite Hst in Hr1. destruct Hm as (mq & mh & mc & mp & ma & ml & mo & Hs1).
  assert (frame_seq s1 = frame_seq s /\ source_units s1 = source_units s /\ unit_offset s1 = unit_offset s)
    as (F1 & F2 & F3) by (by rewrite Hs1).
  destruct (fragment_step s1 size samples t) as (Hadv & Ha2 & Hd2 & Hc2); [lia..|].
  exists (fragment_queued size samples t s1). split; [|split; [by apply fragment_media|]].
  - cbn [encoded_loop]. unfold bind at 1, get. cbn [fst snd]. rewrite Hd. cbn [negb].
    replace (zlen l =? 0) with false by lia. cbn [orb].
    replace (if 256 <? zlen l then 256 else zlen l) with t by (unfold t; split_if; lia).
    replace (frame_seq s =? UINT32_MAX) with false by lia. unfold bind at 1. by rewrite He.
  - rewrite Ha2, Hd2, Hc2. rewrite Hs1 in Hadv |- *. done.
Qed.
Lemma chunk_loop_cons fuel l :
  0 < zlen l ->
  let t := Z.min 256 (zlen l) in
  chunk_loop (S fuel) l = slice l 0 t :: chunk_loop fuel (drop (Z.to_nat t) l).
Proof.
  intros Hl t. destruct l as [|b l]; [done|]. cbn [chunk_loop]. destruct (decide (256 <= zlen (b :: l))).
  - by replace t with 256 by lia.
  - replace t with (zlen (b :: l)) by lia. rewrite slice_all, slice_0_all by lia. f_equal.
    f_equal. rewrite !drop_ge; [done|unfold zlen in *; lia..].
Qed.
Lemma encoded_loop_spec fuel size samples l s w recs :
  media_rep s recs -> session_active s = true -> delivering s = true -> (length l <= fuel)%nat ->
  let cs := chunk_loop fuel l in
  zlen recs + zlen cs <= MEDIA_DEPTH ->
  zlen (record_bytes recs) + 40 * zlen cs + zlen l <= AUDIO_POOL_SIZE ->
  unit_ok s size (zlen l) (zlen cs) ->
  exists s' new, encoded_loop fuel size samples l (s, w) = (tt, (s', w)) /\
    media_rep s' (recs ++ new) /\
    map snd new = unit_frames (stream_id s) (frame_seq s) (epoch s) (source_units s + 1) size (unit_offset s)
                    (source_samples s) samples cs /\
    Forall (stream_data (stream_id s) (stream_connection s)) new /\
    (l <> [] -> advanced s s' size samples (zlen l) (zlen cs)).
Proof.
  revert l s recs. induction fuel as [|fuel IH]; intros l s recs Hr Ha Hd Hl cs Hq Hp Hu; subst cs.
  all: destruct (decide (zlen l = 0)) as [Hl0|Hl0];
    [assert (l = []) as -> by (apply length_zero_iff_nil; unfold zlen in Hl0; lia);
     exists s, []; cbn; rewrite app_nil_r; by split_and!|].
  { unfold zlen in Hl0. lia. }
  pose proof (zlen_nonneg l). assert (0 < zlen l) as Hpos by lia. set (t := Z.min 256 (zlen l)).
  pose proof (chunk_loop_cons fuel l Hpos) as Hcs. cbv zeta in Hcs. fold t in Hcs. rewrite Hcs in *. clear Hcs.
  set (rest := drop (Z.to_nat t) l) in *. set (cs' := chunk_loop fuel rest) in *.
  assert (zlen rest = zlen l - t) as Hrest by (unfold rest, zlen; rewrite length_drop; unfold zlen in *; lia).
  rewrite zlen_cons in *.
  pose proof (zlen_nonneg cs') as Hcs0. pose proof Hu as (Hu1 & Hu2 & Hu3 & Hu4 & Hu5 & Hu6).
  destruct (encoded_round fuel size samples l s w recs Hr Ha Hd Hpos ltac:(lia) ltac:(lia)) as (s2 & -> & Hr2 & Hadv & Ha2 & Hd2 & Hc2).
  { split_and!; lia || done. }
  fold t rest in Hr2, Hadv |- *. rewrite data_record_frame by lia. rewrite zlen_slice by lia. set (m := MediaMarker _ _ _ _ _) in *.
  destruct (decide (zlen rest = 0)) as [Hr0|Hr0].
  - assert (rest = []) as Hnil by (apply length_zero_iff_nil; unfold zlen in Hr0; lia).
    assert (cs' = []) as Hcs'' by (unfold cs'; rewrite Hnil; by destruct fuel).
    exists s2, [(m, data_record s size samples (slice l 0 t))]. rewrite Hnil, Hcs''.
    split; [by destruct fuel|]. split; [done|]. split; [done|]. split; [by repeat constructor|].
    intros _. change (1 + zlen (@nil (list Z))) with 1. by replace (zlen l) with t by lia.
  - pose proof Hadv as (A1 & A2 & A3 & A4 & A5).
    replace (unit_offset s + t =? size) with false in A5 by lia. destruct A5 as (A5 & A6 & A7).
    destruct (IH rest s2 _ Hr2 Ha2 Hd2) as (s' & new & H1 & H2 & H3 & H4 & H5); fold cs'.
    + unfold zlen in *. lia.
    + rewrite zlen_app. change (zlen [_]) with 1. lia.
    + rewrite record_bytes_snoc, zlen_app, zlen_data_record, zlen_slice by lia. change RBP_AUDIO_DATA_HEADER with 40. lia.
    + unfold unit_ok. rewrite A1, A2, A5, A6. split_and!; try lia; apply u64_range.
    + exists s', ((m, data_record s size samples (slice l 0 t)) :: new).
      split; [exact H1|]. split; [by rewrite <- app_assoc in H2|]. split.
      { cbn [map snd]. f_equal. by rewrite H3, A1, A3, A4, A5, A6, A7. }
      split; [constructor; [done|by rewrite A3, Hc2 in H4]|].
      intros _. replace (zlen l) with (t + zlen rest) by lia. apply (advanced_trans s s2); [lia|lia|done|].
      apply H5. intros Hx. by rewrite Hx in Hr0.
Qed.
End fragments.

(** ** Properties: encoded audio *)

(** C28: an encoded fragment of the unit in progress that fits the media queue is
    cut into DATA records of at most 256 bytes whose payloads joined are the
    fragment; the records carry the stream, consecutive frame numbers, the unit
    number and size and consecutive offsets; they follow what was queued, nothing
    is sent, and the counters account for the bytes, closing the unit exactly
    when its last byte is queued. *)
Theorem encoded_unit_queued {W} `{E : Env W} s w recs bytes size offset samples now :
  media_rep s recs -> session_active s = true -> source_active s = true -> delivering s = true -> ending s = false ->
  size <= format_max_unit s -> encoded_bad s (Some bytes) (zlen bytes) size offset samples = false ->
  let cs := chunks bytes in
  zlen recs + zlen cs <= MEDIA_DEPTH ->
  zlen (record_bytes recs) + 40 * zlen cs + zlen bytes <= AUDIO_POOL_SIZE ->
  unit_ok s size (zlen bytes) (zlen cs) ->
  concat cs = bytes /\ Forall (fun c => 0 < zlen c <= 256) cs /\
  exists s' new,
    rbp_server_on_voice (RBP_VOICE_EVT_ENCODED (Some bytes) (zlen bytes) size offset samples) now (s, w) = (tt, (s', w)) /\
    media_rep s' (recs ++ new) /\
    map snd new = unit_frames (stream_id s) (frame_seq s) (epoch s) (source_units s + 1) size offset
                    (source_samples s) samples cs /\
    Forall (stream_data (stream_id s) (stream_connection s)) new /\
    advanced s s' size samples (zlen bytes) (zlen cs).
Proof.
  intros Hr Ha Hsrc Hd He Hsz Hbad cs Hq Hp Hu. split; [by apply chunk_loop_concat|]. split; [apply chunk_loop_le|].
  assert (zlen bytes <> 0 /\ offset = unit_offset s) as [Hne Hoff].
  { unfold encoded_bad in Hbad. lia. }
  set (s1 := s <| now_ms := now |> <| got_audio_this_stream := true |> <| progress_deadline := u32 (now + VOICE_PROGRESS_MS) |>
               <| unit_size := size |> <| unit_samples := samples |>).
  destruct (encoded_loop_spec (length bytes) size samples bytes s1 w recs Hr Ha Hd ltac:(lia) Hq Hp Hu)
    as (s' & new & H1 & H2 & H3 & H4 & H5).
  exists s', new. split; [|split; [done|split; [rewrite Hoff; exact H3|split; [exact H4|]]]].
  - rewrite <- H1. unfold rbp_server_on_voice, on_voice_encoded, bind at 1 2, modify, get. cbn [fst snd].
    change (source_active (s <| now_ms := now |>)) with (source_active s). rewrite Hsrc. cbn [negb].
    unfold bind at 1 2. cbn [fst snd].
    set (s0 := _ <| progress_deadline := _ |>).
    change (delivering s0) with (delivering s). change (ending s0) with (ending s). rewrite Hd, He. cbn [negb orb].
    change (format_max_unit s0) with (format_max_unit s). replace (format_max_unit s <? size) with false by lia.
    change (encoded_bad s0 (Some bytes) (zlen bytes) size offset samples)
      with (encoded_bad s (Some bytes) (zlen bytes) size offset samples). rewrite Hbad.
    unfold bind at 1. cbn [fst snd default]. unfold id. rewrite slice_all. unfold zlen. by rewrite Nat2Z.id.
  - apply H5. intros ->. by apply Hne.
Qed.
Definition streaming : rbp_server :=
  server_init sample_cfg <| session_active := true |> <| source_active := true |> <| delivering := true |>
    <| stream_id := 4 |> <| epoch := 1 |> <| format_max_unit := 1000 |>.
Lemma encoded_unit_queued_witness :
  exists s' new,
    rbp_server_on_voice (E := sink) (RBP_VOICE_EVT_ENCODED (Some (replicate 300 9)) 300 300 0 160) 7 (streaming, []) = (tt, (s', [])) /\
    media_rep s' new /\ zlen new = 2 /\ source_units s' = 1 /\ source_samples s' = 160.
Proof.
  pose proof (encoded_unit_queued (E := sink) streaming [] [] (replicate 300 9) 300 0 160 7) as H.
  destruct H as (_ & _ & s' & new & H1 & H2 & H3 & _ & H5);
    [exact (init_media sample_cfg)|by vm_compute..|by split_and!|].
  exists s', new. split; [exact H1|]. split; [exact H2|]. split.
  - apply (f_equal zlen) in H3. unfold zlen in H3 |- *. rewrite length_map in H3. rewrite H3. by vm_compute.
  - destruct H5 as (_ & _ & _ & _ & H5). change (300 =? 300) with true in H5. cbn in H5.
    destruct H5 as (_ & -> & ->). by vm_compute.
Defined.

(** ** Codec lists

    A client lists the codecs it accepts as six-byte entries: id, revision. *)
Definition codec_entry (e : Z * Z) : list Z := le 4 (fst e) ++ le 2 (snd e).
Definition codec_list (es : list (Z * Z)) : list Z := concat (map codec_entry es).
Definition entry_wf (e : Z * Z) : Prop := U32 (fst e) /\ U16 (snd e).
#[export] Instance entry_wf_dec e : Decision (entry_wf e).
Proof. unfold entry_wf. apply _. Defined.

Lemma codec_at_app a k : codec_at (a ++ k) (zlen a) = codec_at k 0.
Proof.
  unfold codec_at, audio_u32, get32. rewrite !znth_app_r by lia.
  assert (znth (a ++ k) (zlen a) = znth k 0) as -> by (rewrite <- (Z.add_0_r (zlen a)); apply znth_app_r; lia).
  done.
Qed.
Lemma codec_at_entry e k : entry_wf e -> codec_at (codec_entry e ++ k) 0 = e.
Proof.
  intros [Hi Hr]. unfold codec_at, audio_u32, get32, codec_entry.
  rewrite <- le4_eq, <- le2_eq. cbn [app znth Z.to_nat nth Z.add Pos.to_nat Pos.iter_op Nat.add].
  destruct e as [id rev]. cbn [fst snd] in *. f_equal; [|by apply join16].
  etrans; [|by apply join32]. done.
Qed.
Lemma zlen_codec_list es : zlen (codec_list es) = 6 * zlen es.
Proof.
  induction es as [|e es IH]; [done|]. unfold codec_list. cbn [map concat]. fold (codec_list es).
  rewrite zlen_app, zlen_cons, IH. unfold codec_entry. rewrite zlen_app, !zlen_le. lia.
Qed.
Lemma codec_at_nth es rest k e :
  Forall entry_wf es -> es !! k = Some e -> codec_at (codec_list es ++ rest) (6 * Z.of_nat k) = e.
Proof.
  intros Hw Hk. rewrite <- (take_drop_middle _ _ _ Hk). unfold codec_list. rewrite map_app, concat_app. cbn [map concat].
  rewrite <- !app_assoc. assert (zlen (codec_list (take k es)) = 6 * Z.of_nat k) as <-.
  { rewrite zlen_codec_list. unfold zlen. rewrite length_take. apply lookup_lt_Some in Hk. lia. }
  rewrite codec_at_app. apply codec_at_entry. by eapply (Forall_lookup_1 entry_wf).
Qed.
Lemma codec_steps_list es : codec_steps (zlen (codec_list es)) = map (fun k => 6 * Z.of_nat k) (List.seq 0 (length es)).
Proof.
  unfold codec_steps, upto. rewrite map_map, zlen_codec_list. do 2 f_equal. unfold zlen.
  replace (6 * Z.of_nat (length es) + 5) with (5 + Z.of_nat (length es) * 6) by lia.
  rewrite Z.div_add by done. change (5 / 6) with 0. lia.
Qed.
(** Reading the entries one by one gives the list back. *)
Lemma codec_read es rest :
  Forall entry_wf es ->
  map (codec_at (codec_list es ++ rest)) (codec_steps (zlen (codec_list es))) = es.
Proof.
  intros Hw. rewrite codec_steps_list, map_map. apply list_eq. intros i. rewrite list_lookup_fmap.
  destruct (es !! i) as [e|] eqn:Ei.
  - pose proof (lookup_lt_Some _ _ _ Ei). rewrite lookup_seq_lt by done. cbn. f_equal. by apply codec_at_nth.
  - apply lookup_ge_None in Ei. by rewrite lookup_seq_ge.
Qed.

(** Strictly ascending by id, then revision; ids below 2^31, nothing zero. *)
Fixpoint entries_ok (last_id last_rev : Z) (es : list (Z * Z)) : bool :=
  match es with
  | [] => true
  | (id, rev) :: es =>
    (0 <? id) && (id <? 0x80000000) && (0 <? rev) &&
    ((last_id <? id) || ((last_id =? id) && (last_rev <? rev))) && entries_ok id rev es
  end.
Definition caps_meet (caps : option rbp_audio_caps_t) (es : list (Z * Z)) : bool :=
  match caps with Some c => existsb (fun e => caps_have c (fst e) (snd e)) es | None => false end.
Lemma codecs_check_entries caps p steps es li lr b :
  map (codec_at p) steps = es -> Forall entry_wf es -> 0 <= li ->
  codecs_check caps p steps li lr b = if entries_ok li lr es then Some (b || caps_meet caps es) else None.
Proof.
  intros <-. revert li lr b. induction steps as [|i steps IH]; intros li lr b Hw Hl; cbn [codecs_check map entries_ok].
  { unfold caps_meet. by destruct caps; cbn; rewrite orb_false_r. }
  cbn [map] in Hw. apply Forall_cons_1 in Hw as [[Hi Hr] Hw]. destruct (codec_at p i) as [id rev] eqn:Ec.
  cbn [fst snd] in Hi, Hr. unfold U32, U16 in *.
  destruct (_ || _) eqn:E0.
  - assert ((0 <? id) && (id <? 0x80000000) && (0 <? rev) && ((li <? id) || ((li =? id) && (lr <? rev))) = false) as -> by lia.
    done.
  - assert ((0 <? id) && (id <? 0x80000000) && (0 <? rev) && ((li <? id) || ((li =? id) && (lr <? rev))) = true) as -> by lia.
    rewrite IH by (done || lia). cbn [andb]. split_if; [|done]. f_equal. unfold caps_meet.
    destruct caps; cbn; [by rewrite orb_assoc|by rewrite !orb_false_r].
Qed.

(** The codec list of an enable request is accepted exactly when it names
    codecs in strictly ascending order of id and revision, with ids from 1 to
    2^31-1 and non-zero revisions, and the check reports whether the adapter has
    one of them. *)
Theorem codecs_check_exact caps es :
  Forall entry_wf es ->
  codecs_check caps (codec_list es) (codec_steps (zlen (codec_list es))) 0 0 false =
    if entries_ok 0 0 es then Some (caps_meet caps es) else None.
Proof.
  intros Hw. apply (codecs_check_entries caps _ _ es); [|done|done].
  etrans; [|by apply (codec_read es [] Hw)]. by rewrite app_nil_r.
Qed.
Definition sample_caps : rbp_audio_caps_t := AudioCaps [Codec 1 1; Codec 2 1] 512 2.
Lemma codecs_check_exact_witness :
  codecs_check (Some sample_caps) (codec_list [(1, 1); (7, 2)]) (codec_steps 12) 0 0 false = Some true.
Proof. apply (codecs_check_exact (Some sample_caps) [(1, 1); (7, 2)]). apply (bool_decide_unpack _). by vm_compute. Defined.

(** The format itself is sound and within the agreed sizes. *)
Definition format_ok (s : rbp_server) (caps : rbp_audio_caps_t) (f : rbp_audio_format_t) : bool :=
  (0 <? af_codec_id f) && (af_codec_id f <? 0x80000000) && (0 <? af_codec_revision f) &&
  (0 <? af_sample_rate f) && (af_sample_rate f <=? 384000) && (1 <=? af_channels f) && (af_channels f <=? 8) &&
  (af_config_len f <=? RBP_AUDIO_CONFIG_MAX) && ((af_config_len f =? 0) || negb (bool_decide (af_config f = None))) &&
  (0 <? af_max_unit_bytes f) && (af_max_unit_bytes f <=? accepted_max_unit s) &&
  (af_max_unit_bytes f <=? ac_max_unit_bytes caps).
Definition format_wf (f : rbp_audio_format_t) : Prop :=
  0 <= af_codec_id f /\ 0 <= af_codec_revision f /\ 0 <= af_sample_rate f /\ 0 <= af_channels f /\
  0 <= af_max_unit_bytes f.
#[export] Instance format_wf_dec f : Decision (format_wf f).
Proof. unfold format_wf. apply _. Defined.

(** A stream format is accepted exactly when it is sound, fits the sizes both
    sides agreed on, and its codec and revision are among the adapter's and among
    those the client listed when it enabled voice. *)
Theorem codec_accepted_exact s old es f :
  Forall entry_wf es -> format_wf f ->
  accepted_codecs s = splice old 0 (codec_list es) -> accepted_len s = zlen (codec_list es) ->
  codec_accepted s f = true <->
  exists caps, voice_caps s = Some caps /\ format_ok s caps f = true /\
    caps_have caps (af_codec_id f) (af_codec_revision f) = true /\ (af_codec_id f, af_codec_revision f) ∈ es.
Proof.
  intros Hw Hf Hacc Hlen. unfold codec_accepted. destruct (voice_caps s) as [caps|]; [|naive_solver].
  assert (existsb (fun i => let '(id, rev) := codec_at (accepted_codecs s) i in
            (id =? af_codec_id f) && (rev =? af_codec_revision f)) (codec_steps (accepted_len s)) = true <->
          (af_codec_id f, af_codec_revision f) ∈ es) as Hex.
  { rewrite Hacc, Hlen. unfold splice. change (take (Z.to_nat 0) old) with (@nil Z). cbn [app].
    set (rest := drop _ old). etrans; [|by rewrite <- (codec_read es rest Hw) at 1].
    rewrite existsb_exists, list_elem_of_fmap. split.
    - intros (i & Hi & He). destruct (codec_at _ i) as [id rev] eqn:Ec. exists i. rewrite Ec.
      split; [f_equal; lia|by apply list_elem_of_In].
    - intros (i & He & Hi). exists i. split; [by apply list_elem_of_In|]. rewrite <- He. lia. }
  destruct (_ || _) eqn:E0.
  - split; [done|]. intros (caps' & [= <-] & Hok & _). unfold format_ok in Hok. unfold format_wf in Hf. lia.
  - assert (format_ok s caps f = true) as Hok by (unfold format_ok; unfold format_wf in Hf; lia).
    destruct (caps_have caps _ _) eqn:Ec; cbn [negb].
    + rewrite Hex. split; [intros; by exists caps|]. by intros (? & _ & _ & _ & ?).
    + split; [done|]. by intros (? & [= <-] & _ & ? & _); congruence.
Qed.
Definition sample_format : rbp_audio_format_t := AudioFormat 2 16000 100 1 0 1 None.
Lemma codec_accepted_exact_witness :
  let s := server_init sample_cfg <| voice_caps := Some sample_caps |> <| accepted_max_unit := 256 |>
    <| accepted_codecs := splice (replicate 96 0) 0 (codec_list [(1, 1); (2, 1)]) |> <| accepted_len := 12 |> in
  codec_accepted s sample_format = true.
Proof.
  apply (codec_accepted_exact _ (replicate 96 0) [(1, 1); (2, 1)] sample_format);
    [apply (bool_decide_unpack _); by vm_compute..|by vm_compute|by vm_compute|].
  exists sample_caps. split; [done|]. split; [by vm_compute|]. split; [by vm_compute|]. set_solver.
Defined.
