(* ===== verification/Ima.v ===== *)
(** * The host audio decoder

    ima_decoder.c (4:1 IMA ADPCM, high nibble first) and rbp_decoder.c in the
    build without RBP_WITH_ICO.  A pointer argument that may be NULL is an
    [option]; a buffer the code writes into is a list that is returned. *)
From S2P Require Import Prelude Defs.

(** ** ima_decoder.c *)
Definition k_step_table : list Z :=
  [7; 8; 9; 10; 11; 12; 13; 14; 16; 17; 19; 21; 23; 25; 28; 31; 34; 37; 41; 45; 50; 55; 60; 66;
   73; 80; 88; 97; 107; 118; 130; 143; 157; 173; 190; 209; 230; 253; 279; 307; 337; 371; 408; 449;
   494; 544; 598; 658; 724; 796; 876; 963; 1060; 1166; 1282; 1411; 1552; 1707; 1878; 2066; 2272;
   2499; 2749; 3024; 3327; 3660; 4026; 4428; 4871; 5358; 5894; 6484; 7132; 7845; 8630; 9493; 10442;
   11487; 12635; 13899; 15289; 16818; 18500; 20350; 22385; 24623; 27086; 29794; 32767].
Definition k_index_table : list Z := [-1; -1; -1; -1; 2; 4; 6; 8; -1; -1; -1; -1; 2; 4; 6; 8].

Record ima_state_t := Ima { predictor : Z; step_index : Z }.
#[export] Instance ima_state_eq_dec : EqDecision ima_state_t.
Proof. solve_decision. Defined.

Definition ima_state_reset (predictor step_index : Z) : ima_state_t :=
  Ima predictor (if 88 <? step_index then 88 else step_index).

(** [(int16_t)z]. *)
Definition s16 (z : Z) : Z := let r := u16 z in if r <? 32768 then r else r - 65536.
Definition ima_diff (step nibble : Z) : Z :=
  let diff := Z.shiftr step 3 in
  let diff := if Z.land nibble 4 =? 0 then diff else diff + step in
  let diff := if Z.land nibble 2 =? 0 then diff else diff + Z.shiftr step 1 in
  if Z.land nibble 1 =? 0 then diff else diff + Z.shiftr step 2.
(** The new state; the sample returned is its predictor. *)
Definition ima_decode_nibble (st : ima_state_t) (nibble : Z) : ima_state_t :=
  let step := znth k_step_table (step_index st) in
  let diff := ima_diff step nibble in
  let pred := predictor st + (if Z.land nibble 8 =? 0 then diff else - diff) in
  let pred := if 32767 <? pred then 32767 else pred in
  let pred := if pred <? -32768 then -32768 else pred in
  let idx := step_index st + znth k_index_table (Z.land nibble 7) in
  let idx := if idx <? 0 then 0 else idx in
  let idx := if 88 <? idx then 88 else idx in
  Ima (s16 pred) (u8 idx).

(** The loop of [ima_decode]: [n] samples of [out] are written. *)
Fixpoint ima_loop (local : ima_state_t) (data out : list Z) (n out_max : Z)
  : ima_state_t * list Z * Z :=
  match data with
  | [] => (local, out, n)
  | b :: data =>
    if out_max <? n + 2 then (local, out, n)
    else
      let local := ima_decode_nibble local (u8 (Z.shiftr b 4)) in
      let out := <[Z.to_nat n := predictor local]> out in
      let local := ima_decode_nibble local (u8 (Z.land b 15)) in
      let out := <[Z.to_nat (n + 1) := predictor local]> out in
      ima_loop local data out (n + 2) out_max
  end.
(** The final decoder state, the output buffer and the number of samples. *)
Definition ima_decode (st_in : option ima_state_t) (data : list Z) (len : Z) (out : list Z)
  (out_max : Z) : ima_state_t * list Z * Z :=
  let local := match st_in with Some st => st | None => ima_state_reset 0 0 end in
  ima_loop local (slice data 0 len) out 0 out_max.

(** ** rbp_decoder.c *)
Definition RBP_DECODE_OK : Z := 0.
Definition RBP_DECODE_UNSUPPORTED : Z := 1.
Definition RBP_DECODE_CONFIG : Z := 2.
Definition RBP_DECODE_CAPACITY : Z := 3.
Definition RBP_DECODE_INPUT : Z := 4.

Record rbp_decoder_t := Decoder {
  d_size : Z; d_abi_version : Z; d_max_unit_bytes : Z; d_sample_rate : Z;
  d_ima : ima_state_t; d_ready : Z; d_codec_id : Z; d_codec_state : list Z }.
#[export] Instance eta_decoder : Eta rbp_decoder_t := fun d =>
  Decoder (d_size d) (d_abi_version d) (d_max_unit_bytes d) (d_sample_rate d) (d_ima d)
    (d_ready d) (d_codec_id d) (d_codec_state d).
(** [offsetof(rbp_decoder_t, codec_id)] and [sizeof(rbp_decoder_t)] where
    [uint32_t] and [uint64_t] are aligned to their size. *)
Definition LEGACY_SIZE : Z := 24.
Definition SIZEOF_DECODER : Z := 1056.

(** [rbp_audio_format_t] of audio.h as the host reads it; [config] may be NULL. *)
Record host_format_t := HostFormat {
  hf_codec_id : Z; hf_sample_rate : Z; hf_max_unit_bytes : Z; hf_codec_revision : Z;
  hf_config_len : Z; hf_channels : Z; hf_config : option (list Z) }.

(** [memset(d,0,size)]: the prefix ABI leaves the codec extension alone. *)
Definition decoder_zero (d : rbp_decoder_t) (size : Z) : rbp_decoder_t :=
  if size =? SIZEOF_DECODER
  then Decoder 0 0 0 0 (Ima 0 0) 0 0 (replicate 128 0)
  else Decoder 0 0 0 0 (Ima 0 0) 0 (d_codec_id d) (d_codec_state d).

Definition rbp_decoder_init (d : option rbp_decoder_t) (size : Z) (f : option host_format_t)
  : Z * option rbp_decoder_t :=
  match d with
  | None => (RBP_DECODE_CONFIG, d)
  | Some d0 =>
    if negb (size =? SIZEOF_DECODER) && negb (size =? LEGACY_SIZE) then (RBP_DECODE_CONFIG, d)
    else
      let d0 := decoder_zero d0 size <| d_size := size |> <| d_abi_version := 1 |> in
      match f with
      | None => (RBP_DECODE_UNSUPPORTED, Some d0)
      | Some f =>
        if negb (hf_codec_id f =? RBP_CODEC_IMA_HI) || negb (hf_codec_revision f =? 1)
        then (RBP_DECODE_UNSUPPORTED, Some d0)
        else
          match hf_config f with
          | None => (RBP_DECODE_CONFIG, Some d0)
          | Some config =>
            if negb (hf_channels f =? 1) ||
               (negb (hf_sample_rate f =? 8000) && negb (hf_sample_rate f =? 16000)) ||
               negb (hf_config_len f =? 4) || (88 <? znth config 2) || negb (znth config 3 =? 0) ||
               (hf_max_unit_bytes f =? 0) || (RBP_AUDIO_UNIT_MAX <? hf_max_unit_bytes f)
            then (RBP_DECODE_CONFIG, Some d0)
            else
              let pred := u16 (Z.lor (znth config 0) (Z.shiftl (znth config 1) 8)) in
              (RBP_DECODE_OK,
               Some (d0 <| d_ima := ima_state_reset (s16 pred) (znth config 2) |>
                        <| d_sample_rate := hf_sample_rate f |>
                        <| d_max_unit_bytes := hf_max_unit_bytes f |> <| d_ready := 1 |>))
          end
      end
  end.

(** The return value, the decoder, the PCM buffer and [*written]. *)
Definition rbp_decoder_decode (d : option rbp_decoder_t) (encoded : option (list Z)) (bytes : Z)
  (pcm : option (list Z)) (capacity : Z) (written : option Z)
  : Z * option rbp_decoder_t * option (list Z) * option Z :=
  let written := match written with Some _ => Some 0 | None => None end in
  match d, written, encoded, pcm with
  | Some d0, Some _, Some e, Some p =>
    if (negb (d_size d0 =? SIZEOF_DECODER) && negb (d_size d0 =? LEGACY_SIZE)) ||
       negb (d_abi_version d0 =? 1) || (d_ready d0 =? 0) || (bytes =? 0) ||
       (d_max_unit_bytes d0 <? bytes)
    then (RBP_DECODE_INPUT, d, pcm, written)
    else if capacity <? u32 (bytes * 2) then (RBP_DECODE_CAPACITY, d, pcm, written)
    else
      let '(ima, p, n) := ima_decode (Some (d_ima d0)) e bytes p capacity in
      (RBP_DECODE_OK, Some (d0 <| d_ima := ima |>), Some p, Some (u32 n))
  | _, _, _, _ => (RBP_DECODE_INPUT, d, pcm, written)
  end.

(** ** The sample stream *)

(** The nibbles of a byte string in decoding order. *)
Definition nibbles (data : list Z) : list Z :=
  data ≫= fun b => [Z.shiftr b 4; Z.land b 15].
(** The decoder as a pure stream transducer. *)
Fixpoint ima_run (st : ima_state_t) (ns : list Z) : ima_state_t * list Z :=
  match ns with
  | [] => (st, [])
  | n :: ns =>
    let st := ima_decode_nibble st n in
    let '(fin, out) := ima_run st ns in (fin, predictor st :: out)
  end.
Definition ima_wf (st : ima_state_t) : Prop :=
  -32768 <= predictor st <= 32767 /\ 0 <= step_index st <= 88.
#[export] Instance ima_wf_dec st : Decision (ima_wf st).
Proof. unfold ima_wf. apply _. Defined.

Lemma ima_run_app st a b :
  ima_run st (a ++ b) =
    let '(mid, x) := ima_run st a in let '(fin, y) := ima_run mid b in (fin, x ++ y).
Proof.
  revert st. induction a as [|n a IH]; intros st; cbn [app ima_run].
  - by destruct (ima_run st b).
  - rewrite IH. destruct (ima_run _ a) as [mid x]. by destruct (ima_run mid b).
Qed.

Lemma nibbles_app a b : nibbles (a ++ b) = nibbles a ++ nibbles b.
Proof. unfold nibbles. by rewrite bind_app. Qed.
Lemma ima_run_length st ns : length (snd (ima_run st ns)) = length ns.
Proof.
  revert st. induction ns as [|n ns IH]; intros st; [done|]. cbn [ima_run].
  specialize (IH (ima_decode_nibble st n)). destruct (ima_run _ ns). cbn in *. lia.
Qed.
Lemma nibbles_length data : length (nibbles data) = (2 * length data)%nat.
Proof. induction data as [|b data IH]; [done|]. cbn in *. unfold nibbles in IH. lia. Qed.

Lemma s16_small z : -32768 <= z <= 32767 -> s16 z = z.
Proof. unfold s16, u16. intros. repeat split_if; words. Qed.
Lemma s16_range z : -32768 <= s16 z <= 32767.
Proof. unfold s16. cbv zeta. split_if; words. Qed.

Lemma index_step_range n : -1 <= znth k_index_table n <= 8.
Proof.
  assert (Forall (fun x => -1 <= x <= 8) k_index_table) as H
    by by apply (bool_decide_unpack _); vm_compute.
  unfold znth. destruct (nth_in_or_default (Z.to_nat n) k_index_table 0) as [Hin | ->]; [|lia].
  rewrite List.Forall_forall in H. by apply H.
Qed.

Lemma ima_decode_nibble_wf st n : ima_wf st -> ima_wf (ima_decode_nibble st n).
Proof.
  intros [_ Hi]. split; cbn; [apply s16_range|].
  pose proof (index_step_range (Z.land n 7)). rewrite u8_small by (unfold Byte; repeat split_if; lia).
  repeat split_if; lia.
Qed.
#[export] Hint Resolve ima_decode_nibble_wf : rbp.
Lemma ima_run_wf st ns : ima_wf st ->
  ima_wf (fst (ima_run st ns)) /\ Forall (fun s => -32768 <= s <= 32767) (snd (ima_run st ns)).
Proof.
  revert st. induction ns as [|n ns IH]; intros st Hst; cbn [ima_run]; [done|].
  destruct (IH (ima_decode_nibble st n)) as [H1 H2]; [auto with rbp|].
  destruct (ima_run _ ns); cbn in *. split; [done|]. constructor; [|done].
  apply s16_range.
Qed.

Lemma splice_two (out : list Z) n x y l :
  0 <= n -> n + 2 + zlen l <= zlen out ->
  splice (<[Z.to_nat (n + 1) := y]> (<[Z.to_nat n := x]> out)) (n + 2) l = splice out n (x :: y :: l).
Proof.
  intros Hn Hl. apply list_eq. intros i.
  assert (zlen (<[Z.to_nat (n + 1) := y]> (<[Z.to_nat n := x]> out)) = zlen out) as Hz
    by (unfold zlen; rewrite !length_insert; done).
  rewrite !lookup_splice by (rewrite ?Hz, ?zlen_cons; lia). rewrite !zlen_cons.
  unfold zlen in *. do 2 case_bool_decide; try lia.
  - replace (i - Z.to_nat n)%nat with (S (S (i - Z.to_nat (n + 2)))) by lia. done.
  - destruct (decide (i = Z.to_nat n)) as [->|].
    + rewrite list_lookup_insert_ne by lia. rewrite list_lookup_insert_eq by lia.
      replace (Z.to_nat n - Z.to_nat n)%nat with 0%nat by lia. done.
    + assert (i = Z.to_nat (n + 1)) as -> by lia.
      rewrite list_lookup_insert_eq by (rewrite length_insert; lia).
      replace (Z.to_nat (n + 1) - Z.to_nat n)%nat with 1%nat by lia. done.
  - by rewrite !list_lookup_insert_ne by lia.
Qed.

Lemma splice_nil {A} (l : list A) n : splice l n [] = l.
Proof. unfold splice. cbn. rewrite Nat.add_0_r. apply take_drop. Qed.

Lemma ima_loop_run data : forall local out n out_max,
  Bytes data -> 0 <= n <= out_max -> out_max <= zlen out ->
  ima_loop local data out n out_max =
    let used := Z.min (zlen data) ((out_max - n) / 2) in
    let '(fin, pcm) := ima_run local (nibbles (slice data 0 used)) in
    (fin, splice out n pcm, n + 2 * used).
Proof.
  induction data as [|b data IH]; intros local out n out_max Hb Hn Ho; cbn [ima_loop].
  - cbv zeta. change (zlen (@nil Z)) with 0. rewrite Z.min_l by words.
    change (ima_run local (nibbles (slice [] 0 0))) with (local, @nil Z). cbv beta iota.
    rewrite splice_nil. repeat f_equal. lia.
  - apply Forall_cons_iff in Hb as [Hb Hd]. rewrite zlen_cons. pose proof (zlen_nonneg data).
    split_if.
    + rewrite Z.min_r by words. replace ((out_max - n) / 2) with 0 by words.
      change (ima_run local (nibbles (slice (b :: data) 0 0))) with (local, @nil Z). cbv beta iota.
      rewrite splice_nil. repeat f_equal. lia.
    + rewrite IH by (done || lia || (unfold zlen in *; rewrite !length_insert; lia)). cbv zeta.
      replace ((out_max - n) / 2) with (1 + (out_max - (n + 2)) / 2) by words.
      rewrite Z.add_min_distr_l. set (used := Z.min (zlen data) _).
      assert (0 <= used <= zlen data) as Hu by (subst used; words).
      replace (slice (b :: data) 0 (1 + used)) with (b :: slice data 0 used).
      2:{ unfold slice. rewrite !drop_0. by replace (Z.to_nat (1 + used)) with (S (Z.to_nat used)) by lia. }
      change (nibbles (b :: slice data 0 used))
        with (Z.shiftr b 4 :: Z.land b 15 :: nibbles (slice data 0 used)).
      rewrite !u8_small.
      2:{ change 15 with (Z.ones 4). rewrite Z.land_ones by lia. words. }
      2:{ rewrite Z.shiftr_div_pow2 by lia. words. }
      cbn [ima_run].
      set (st2 := ima_decode_nibble (ima_decode_nibble local _) _).
      pose proof (ima_run_length st2 (nibbles (slice data 0 used))) as Hl.
      rewrite nibbles_length in Hl. destruct (ima_run st2 _) as [fin pcm]. cbn [snd] in Hl.
      rewrite splice_two; [by replace (n + 2 + 2 * used) with (n + 2 * (1 + used)) by lia|lia|].
      assert (zlen pcm = 2 * used) as -> by
        (pose proof (zlen_slice data 0 used); unfold zlen in *; lia).
      subst used. words.
Qed.

(** [ima_decode] decodes exactly [min(len, out_max/2)] bytes: it writes
    two samples for each of them at the start of [out] and leaves the rest of
    the buffer alone, the samples are those of the nibble stream (high nibble
    first), each an int16_t, and the final state is valid again. *)
Theorem ima_decode_exact st data len out out_max :
  ima_wf st -> Bytes data -> 0 <= len <= zlen data -> 0 <= out_max <= zlen out ->
  let used := Z.min len (out_max / 2) in
  let '(fin, pcm) := ima_run st (nibbles (slice data 0 used)) in
  ima_decode (Some st) data len out out_max = (fin, splice out 0 pcm, 2 * used) /\
  zlen pcm = 2 * used /\ ima_wf fin /\ Forall (fun s => -32768 <= s <= 32767) pcm.
Proof.
  intros Hst Hb Hl Ho used. unfold ima_decode.
  rewrite ima_loop_run by (auto with rbp || lia). cbv zeta.
  rewrite zlen_slice by lia. replace (out_max - 0) with out_max by lia. fold used.
  assert (0 <= used <= len) by (subst used; words).
  replace (slice (slice data 0 len) 0 used) with (slice data 0 used)
    by (unfold slice; rewrite !drop_0, take_take; f_equal; lia).
  pose proof (ima_run_length st (nibbles (slice data 0 used))) as Hn.
  rewrite nibbles_length in Hn. pose proof (zlen_slice data 0 used).
  destruct (ima_run_wf st (nibbles (slice data 0 used)) Hst) as [H1 H2].
  destruct (ima_run _ _) as [fin pcm]. cbn [fst snd] in *. split; [done|].
  split; [unfold zlen in *; lia|done].
Qed.
Lemma ima_decode_exact_witness :
  ima_decode (Some (Ima 0 0)) [127; 1] 2 (replicate 5 9) 5 =
    (fst (ima_run (Ima 0 0) (nibbles [127; 1])), splice (replicate 5 9) 0 (snd (ima_run (Ima 0 0) (nibbles [127; 1]))), 4).
Proof.
  pose proof (ima_decode_exact (Ima 0 0) [127; 1] 2 (replicate 5 9) 5) as H.
  destruct H as [H _]; [by apply (bool_decide_unpack _); vm_compute..|exact H].
Defined.

(** ** One nibble against the coding rule *)
Lemma clamp16 z :
  s16 (let p := if 32767 <? z then 32767 else z in if p <? -32768 then -32768 else p) =
    Z.max (-32768) (Z.min 32767 z).
Proof. cbv zeta. destruct (32767 <? z) eqn:?; rewrite s16_small; split_if; lia. Qed.
Lemma clamp88 z : -200 < z < 200 ->
  u8 (let p := if z <? 0 then 0 else z in if 88 <? p then 88 else p) = Z.max 0 (Z.min 88 z).
Proof.
  intros. cbv zeta. destruct (z <? 0) eqn:?; rewrite u8_small; unfold Byte; split_if; lia.
Qed.
Lemma nibble_cases (P : Z -> Prop) n :
  Forall P (map Z.of_nat (List.seq 0 16)) -> 0 <= n < 16 -> P n.
Proof.
  rewrite List.Forall_forall. intros H Hn. apply H. apply in_map_iff.
  exists (Z.to_nat n). split; [lia|]. apply in_seq. lia.
Qed.
Lemma nibble_sign n : 0 <= n < 16 -> (Z.land n 8 =? 0) = (n <? 8).
Proof.
  apply (nibble_cases (fun n => (Z.land n 8 =? 0) = (n <? 8))).
  by apply (bool_decide_unpack _); vm_compute.
Qed.
Lemma nibble_index n : 0 <= n < 16 ->
  znth k_index_table (Z.land n 7) = if n mod 8 <? 4 then -1 else 2 * (n mod 8 - 3).
Proof.
  apply (nibble_cases (fun n => znth k_index_table (Z.land n 7) =
    if n mod 8 <? 4 then -1 else 2 * (n mod 8 - 3))).
  by apply (bool_decide_unpack _); vm_compute.
Qed.
Lemma ima_diff_bound step n : In step k_step_table -> 0 <= n < 16 ->
  8 * ima_diff step n <= (2 * (n mod 8) + 1) * step < 8 * ima_diff step n + 25.
Proof.
  intros Hs Hn.
  assert (Forall (fun s => Forall (fun n =>
    8 * ima_diff s n <= (2 * (n mod 8) + 1) * s < 8 * ima_diff s n + 25) (map Z.of_nat (List.seq 0 16)))
    k_step_table) as H by by apply (bool_decide_unpack _); vm_compute.
  rewrite List.Forall_forall in H. by apply (nibble_cases (fun n => _) n (H _ Hs)).
Qed.

(** One nibble moves the predictor by the coding rule of IMA ADPCM:
    the sign is bit 3, the magnitude is [(2m+1)/8] of the step for the low
    three bits [m], truncated by at most three units, and the result is clamped
    to int16_t; the step index moves by the index table and stays in 0..88. *)
Theorem ima_nibble_rule st n :
  ima_wf st -> 0 <= n < 16 ->
  let step := znth k_step_table (step_index st) in
  let m := n mod 8 in
  exists diff, 8 * diff <= (2 * m + 1) * step < 8 * diff + 25 /\
    predictor (ima_decode_nibble st n) =
      Z.max (-32768) (Z.min 32767 (if n <? 8 then predictor st + diff else predictor st - diff)) /\
    step_index (ima_decode_nibble st n) =
      Z.max 0 (Z.min 88 (step_index st + if m <? 4 then -1 else 2 * (m - 3))).
Proof.
  intros [Hp Hi] Hn step m. exists (ima_diff step n). split; [|split].
  - apply ima_diff_bound; [|done]. unfold step, znth. apply nth_In. cbn. lia.
  - cbn. fold step.
    rewrite (nibble_sign n) by done. rewrite clamp16. f_equal. f_equal. split_if; lia.
  - unfold ima_decode_nibble. cbn [step_index]. rewrite (nibble_index n) by done. fold m.
    assert (0 <= m < 8) by (unfold m; apply Z.mod_pos_bound; lia).
    apply clamp88. split_if; lia.
Qed.
Lemma ima_nibble_rule_witness :
  ima_wf (Ima 100 20) /\ step_index (ima_decode_nibble (Ima 100 20) 13) = 24.
Proof.
  destruct (ima_nibble_rule (Ima 100 20) 13) as (_ & _ & _ & H);
    [by apply (bool_decide_unpack _); vm_compute|lia|]. split; [|exact H].
  by apply (bool_decide_unpack _); vm_compute.
Defined.

(** ** A decoding session *)

(** The arguments of one call of [rbp_decoder_decode] on the decoder. *)
Record dcall := DCall {
  c_encoded : option (list Z); c_bytes : Z; c_pcm : option (list Z); c_capacity : Z }.
(** What C requires of the buffers. *)
Definition dcall_ok (c : dcall) : Prop :=
  U32 (c_bytes c) /\ U32 (c_capacity c) /\
  match c_encoded c with Some e => Bytes e /\ c_bytes c <= zlen e | None => True end /\
  match c_pcm c with Some p => c_capacity c <= zlen p | None => True end.
#[export] Instance dcall_ok_dec c : Decision (dcall_ok c).
Proof. unfold dcall_ok. destruct (c_encoded c), (c_pcm c); apply _. Defined.

(** The unit a call contributes: [None] when it must fail. *)
Definition unit_of (max : Z) (c : dcall) : option (list Z) :=
  match c_encoded c, c_pcm c with
  | Some e, Some _ =>
    if bool_decide (0 < c_bytes c <= max /\ 2 * c_bytes c <= c_capacity c)
    then Some (slice e 0 (c_bytes c)) else None
  | _, _ => None
  end.
(** The calls in order: the return values and the samples handed out. *)
Fixpoint decoder_run (d : option rbp_decoder_t) (calls : list dcall)
  : option rbp_decoder_t * list Z * list Z :=
  match calls with
  | [] => (d, [], [])
  | c :: calls =>
    let '(code, d, pcm, written) :=
      rbp_decoder_decode d (c_encoded c) (c_bytes c) (c_pcm c) (c_capacity c) (Some 777) in
    let '(fin, codes, out) := decoder_run d calls in
    (fin, code :: codes, slice (default [] pcm) 0 (default 0 written) ++ out)
  end.

(** A decoder that [rbp_decoder_init] has made ready. *)
Definition decoder_ready (max : Z) (d : rbp_decoder_t) : Prop :=
  (d_size d = SIZEOF_DECODER \/ d_size d = LEGACY_SIZE) /\ d_abi_version d = 1 /\
  d_ready d = 1 /\ d_max_unit_bytes d = max /\ 0 < max <= RBP_AUDIO_UNIT_MAX /\ ima_wf (d_ima d).


Lemma decode_call max d c code d' pcm w :
  decoder_ready max d -> dcall_ok c ->
  rbp_decoder_decode (Some d) (c_encoded c) (c_bytes c) (c_pcm c) (c_capacity c) (Some 777) =
    (code, d', pcm, w) ->
  match unit_of max c with
  | None => code <> RBP_DECODE_OK /\ d' = Some d /\ pcm = c_pcm c /\ w = Some 0
  | Some u =>
    code = RBP_DECODE_OK /\
    d' = Some (d <| d_ima := fst (ima_run (d_ima d) (nibbles u)) |>) /\
    slice (default [] pcm) 0 (default 0 w) = snd (ima_run (d_ima d) (nibbles u))
  end.
Proof.
  intros (Hs & Ha & Hr & Hm & Hmax & Hi) (Hb & Hc & He & Hp).
  unfold rbp_decoder_decode, unit_of. rewrite Ha, Hr, Hm.
  destruct (c_encoded c) as [e|], (c_pcm c) as [p|]; try (intros [= <- <- <- <-]; done).
  unfold RBP_AUDIO_UNIT_MAX in *.
  assert (negb (d_size d =? SIZEOF_DECODER) && negb (d_size d =? LEGACY_SIZE) = false) as -> by lia.
  change (negb (1 =? 1)) with false. change (1 =? 0) with false. cbn [orb].
  case_bool_decide as Hu.
  - destruct He as [Hbe He].
    replace ((c_bytes c =? 0) || (max <? c_bytes c)) with false by lia.
    replace (c_capacity c <? u32 (c_bytes c * 2)) with false by words.
    unfold ima_decode. rewrite ima_loop_run by (auto with rbp || words). cbv zeta.
    rewrite zlen_slice by words. rewrite Z.min_l by words.
    rewrite (slice_0_all (slice e 0 _)) by (rewrite zlen_slice by words; lia).
    pose proof (ima_run_length (d_ima d) (nibbles (slice e 0 (c_bytes c)))) as Hl.
    rewrite nibbles_length in Hl. pose proof (zlen_slice e 0 (c_bytes c)).
    destruct (ima_run _ _) as [fin out]. cbn [snd fst] in *.
    intros [= <- <- <- <-].
    split; [done|]. split; [done|]. cbn [default].
    assert (u32 (0 + 2 * c_bytes c) = zlen out) as -> by words.
    by apply slice_splice_front.
  - intros H. destruct ((c_bytes c =? 0) || (max <? c_bytes c)) eqn:E1; [by injection H as <- <- <- <-|].
    replace (c_capacity c <? u32 (c_bytes c * 2)) with true in H by words.
    by injection H as <- <- <- <-.
Qed.

Lemma decoder_run_ready max calls : forall d,
  decoder_ready max d -> Forall dcall_ok calls ->
  let '(_, codes, out) := decoder_run (Some d) calls in
  map (Z.eqb RBP_DECODE_OK) codes = map (fun c => bool_decide (is_Some (unit_of max c))) calls /\
  out = snd (ima_run (d_ima d) (nibbles (concat (omap (unit_of max) calls)))).
Proof.
  induction calls as [|c calls IH]; intros d Hd Hok; [done|]. cbn [decoder_run].
  apply Forall_cons_iff in Hok as [Hc Hok].
  destruct (rbp_decoder_decode _ _ _ _ _ _) as [[[code d'] pcm] w] eqn:E.
  pose proof (decode_call _ _ _ _ _ _ _ Hd Hc E) as H.
  change (omap (unit_of max) (c :: calls)) with
    (match unit_of max c with Some u => u :: omap (unit_of max) calls | None => omap (unit_of max) calls end).
  destruct (unit_of max c) as [u|] eqn:Eu.
  - destruct H as (-> & -> & Hp).
    specialize (IH (d <| d_ima := fst (ima_run (d_ima d) (nibbles u)) |>)).
    destruct (decoder_run _ calls) as [[fin codes] out].
    destruct IH as [H1 H2]; [|done|].
    { destruct Hd as (? & ? & ? & ? & ? & ?). unfold decoder_ready. cbn.
      split_and!; try done; lia || by apply ima_run_wf. }
    cbn [concat map]. rewrite Eu, H1, Hp, H2. rewrite nibbles_app, ima_run_app.
    split; [done|]. cbn [d_ima]. destruct (ima_run (d_ima d) _) as [mid x] eqn:Ex.
    cbn [fst snd]. change (d_ima (d <| d_ima := mid |>)) with mid. by destruct (ima_run mid _).
  - destruct H as (Hne & -> & -> & ->). specialize (IH d Hd Hok).
    destruct (decoder_run _ calls) as [[fin codes] out].
    destruct IH as [H1 H2]. cbn [map]. rewrite Eu, H1.
    split; [|done]. f_equal. apply Z.eqb_neq. done.
Qed.

(** The predictor and step index a format's configuration starts from. *)
Definition ima_start (config : list Z) : ima_state_t :=
  Ima (s16 (znth config 0 + 256 * znth config 1)) (znth config 2).

Lemma rbp_decoder_init_ready d0 size f config d :
  Bytes config -> U32 (hf_max_unit_bytes f) -> hf_config f = Some config ->
  rbp_decoder_init d0 size (Some f) = (RBP_DECODE_OK, Some d) ->
  decoder_ready (hf_max_unit_bytes f) d /\ d_ima d = ima_start config.
Proof.
  intros Hc Hm Ef. unfold rbp_decoder_init. rewrite Ef. destruct d0 as [d0|]; [|done].
  split_if; [done|]. split_if; [done|]. split_if; [done|].
  intros [= <-]. pose proof (znth_byte config 0 Hc). pose proof (znth_byte config 1 Hc).
  pose proof (znth_byte config 2 Hc). unfold ima_start, decoder_ready, ima_state_reset. cbn.
  replace (88 <? znth config 2) with false by lia.
  rewrite lor_shiftl_add by (lia || done). rewrite u16_small by words.
  split; [|by rewrite Z.mul_comm].
  split_and!; try (cbn; lia); try done; unfold RBP_AUDIO_UNIT_MAX, U32 in *; try lia.
  split; cbn; [apply s16_range|words].
Qed.

(** C34: A whole decoding session: after a successful [rbp_decoder_init], for
    any sequence of [rbp_decoder_decode] calls, with any arguments C allows and
    NULL buffers too, exactly the calls with a non-empty unit within the
    negotiated maximum and room for its samples return OK, and the samples
    handed out over the session are those of decoding the concatenation of the
    accepted units from the predictor and step index of the configuration: a
    rejected call leaves no trace in the stream. *)
Theorem decoder_session d0 size f config d calls :
  Bytes config -> U32 (hf_max_unit_bytes f) -> hf_config f = Some config -> Forall dcall_ok calls ->
  rbp_decoder_init d0 size (Some f) = (RBP_DECODE_OK, Some d) ->
  let max := hf_max_unit_bytes f in
  let '(_, codes, out) := decoder_run (Some d) calls in
  map (Z.eqb RBP_DECODE_OK) codes = map (fun c => bool_decide (is_Some (unit_of max c))) calls /\
  out = snd (ima_run (ima_start config) (nibbles (concat (omap (unit_of max) calls)))).
Proof.
  intros Hc Hm Ef Hok Hi max. destruct (rbp_decoder_init_ready _ _ _ _ _ Hc Hm Ef Hi) as [Hr <-].
  by apply decoder_run_ready.
Qed.
Definition sample_host_format : host_format_t := HostFormat 1 16000 240 1 4 1 (Some [200; 255; 30; 0]).
Definition sample_decoder : rbp_decoder_t := Decoder 0 0 0 0 (Ima 0 0) 0 0 (replicate 128 0).
Definition sample_calls : list dcall :=
  [DCall (Some [18; 52]) 2 (Some (replicate 4 0)) 4; DCall (Some [1; 2]) 2 (Some [0; 0]) 2;
   DCall None 2 (Some [0; 0]) 2; DCall (Some [171]) 1 (Some (replicate 9 7)) 9].
Lemma decoder_session_witness :
  exists d, rbp_decoder_init (Some sample_decoder) 24 (Some sample_host_format) = (RBP_DECODE_OK, Some d) /\
  snd (decoder_run (Some d) sample_calls) = snd (ima_run (Ima (-56) 30) (nibbles [18; 52; 171])).
Proof.
  eexists. split; [reflexivity|].
  match goal with |- snd (decoder_run (Some ?d) _) = _ =>
    pose proof (decoder_session (Some sample_decoder) 24 sample_host_format [200; 255; 30; 0] d sample_calls) as H
  end.
  destruct H as [_ H]; [by apply (bool_decide_unpack _); vm_compute..|reflexivity| |reflexivity|].
  - by apply (bool_decide_unpack _); vm_compute.
  - exact H.
Defined.
