(* ===== verification/Input.v ===== *)
(** * The host key reducer

    rbp_input.c: the catalog of a source in slot order, the bitmap of held
    slots, and the events the application is told.  The callback and its
    argument are the caller's ([emit_set] is [s->emit != NULL]); the header
    forbids it to re-enter, so that a call is the list of events it emits,
    oldest first. *)
From S2P Require Import Prelude.

Record rbp_input_source_t := Source {
  receiver_id : Z; session_id : Z; peer_id : Z; connection_id : Z; catalog_revision : Z;
  model_id : list Z }.
Definition source0 : rbp_input_source_t := Source 0 0 0 0 0 (replicate 41 0).

Definition RBP_INPUT_DOWN : Z := 1.
Definition RBP_INPUT_UP : Z := 2.
Definition RBP_INPUT_SNAPSHOT : Z := 3.
Definition RBP_INPUT_RESET : Z := 4.

Record rbp_input_event_t := InputEvent {
  ie_source : rbp_input_source_t; captured_us : Z; input_seq : Z; key_id : Z; ie_kind : Z;
  ie_reason : Z; synthetic : bool }.

Record rbp_input_t := Input {
  in_source : rbp_input_source_t; key_ids : list Z; bits : Z; sequence : Z; count : Z;
  ready : bool; have_sequence : bool; emit_set : bool }.
#[export] Instance eta_input : Eta rbp_input_t := fun s =>
  Input (in_source s) (key_ids s) (bits s) (sequence s) (count s) (ready s) (have_sequence s)
    (emit_set s).

Definition emit (s : rbp_input_t) (kind key : Z) (synth : bool) (time seq reason : Z)
  : list rbp_input_event_t :=
  if emit_set s then [InputEvent (in_source s) time seq (u16 key) (u8 kind) reason synth] else [].

Definition rbp_input_init (cb : bool) : rbp_input_t :=
  Input source0 (replicate 64 0) 0 0 0 false false cb.

(** [for(i=0;i<s->count;i++) if(mask & 1<<i) emit(s, kind, key_ids[i], ...)]. *)
Definition emit_slots (s : rbp_input_t) (mask kind : Z) (synth : bool) (time seq reason : Z)
  : list rbp_input_event_t :=
  List.seq 0 (Z.to_nat (count s)) ≫= fun i =>
    if negb (Z.land mask (Z.shiftl 1 (Z.of_nat i)) =? 0)
    then emit s kind (znth (key_ids s) (Z.of_nat i)) synth time seq reason else [].

Definition rbp_input_reset (s : rbp_input_t) (reason : Z) : rbp_input_t * list rbp_input_event_t :=
  let '(s, evs) :=
    if ready s then
      let held := bits s in
      let s := s <| bits := 0 |> <| ready := false |> in
      (s, emit_slots s held RBP_INPUT_UP true 0 0 reason ++
          emit s RBP_INPUT_RESET 0 true 0 0 reason)
    else (s, []) in
  (s <| count := 0 |> <| have_sequence := false |> <| sequence := 0 |> <| in_source := source0 |>,
   evs).

(** The two loops over [ids]: no zero and no duplicate. *)
Definition ids_valid (ids : list Z) : bool :=
  forallb (fun i =>
    negb (znth ids (Z.of_nat i) =? 0) &&
    forallb (fun j => negb (znth ids (Z.of_nat j) =? znth ids (Z.of_nat i))) (List.seq 0 i))
    (List.seq 0 (length ids)).
Definition rbp_input_install (s : rbp_input_t) (source : option rbp_input_source_t)
  (ids : option (list Z)) (count_ : Z) : bool * rbp_input_t * list rbp_input_event_t :=
  match source with
  | None => (false, s, [])
  | Some src =>
    if negb (existsb (Z.eqb 0) (model_id src)) || (session_id src =? 0) || (peer_id src =? 0) ||
       (connection_id src =? 0) || (64 <? count_) ||
       (negb (count_ =? 0) && bool_decide (ids = None))
    then (false, s, [])
    else
      let l := slice (default [] ids) 0 count_ in
      if negb (ids_valid l) then (false, s, [])
      else
        let '(s, evs) := rbp_input_reset s 0 in
        let s := s <| in_source := src |> <| count := u8 count_ |> in
        let s := if negb (count_ =? 0) then s <| key_ids ::= fun k => splice k 0 l |> else s in
        (true, s <| ready := true |>, evs)
  end.

Definition rbp_input_has_key (s : rbp_input_t) (id : Z) : bool :=
  ready s &&
  existsb (fun i => znth (key_ids s) (Z.of_nat i) =? id) (List.seq 0 (Z.to_nat (count s))).

(** [~b] at 64 bits. *)
Definition not64 (b : Z) : Z := u64 (Z.lnot b).
Definition rbp_input_feed (s : rbp_input_t) (seq time bits_ kind reason : Z)
  : bool * rbp_input_t * list rbp_input_event_t :=
  if negb (ready s) || (2 <? kind) || (3 <? reason) || ((kind =? 2) && negb (bits_ =? 0)) ||
     ((count s <? 64) && negb (Z.shiftr bits_ (count s) =? 0))
  then (false, s, [])
  else if have_sequence s && ((seq <? sequence s) || ((seq =? sequence s) && negb (kind =? 2)))
  then (true, s, [])
  else
    let previous := bits s in
    let s := s <| bits := bits_ |> <| sequence := seq |> <| have_sequence := true |> in
    if kind =? 0 then (true, s, emit s RBP_INPUT_SNAPSHOT 0 true time seq reason)
    else
      (true, s,
       emit_slots s (Z.land previous (not64 bits_)) RBP_INPUT_UP (kind =? 2) time seq reason ++
       emit_slots s (Z.land bits_ (not64 previous)) RBP_INPUT_DOWN false time seq reason ++
       if kind =? 2 then emit s RBP_INPUT_RESET 0 true time seq reason else []).

(** ** The reducer an application sees *)

(** The catalog, and the keys a bitmap holds. *)
Definition catalog (s : rbp_input_t) : list Z := slice (key_ids s) 0 (count s).
Definition held_in (s : rbp_input_t) (mask : Z) (k : Z) : Prop :=
  exists i : nat, catalog s !! i = Some k /\ Z.testbit mask (Z.of_nat i) = true.
(** An application's set of pressed keys, as a predicate, after one event. *)
Definition hears (held : Z -> Prop) (e : rbp_input_event_t) : Z -> Prop := fun k =>
  if ie_kind e =? RBP_INPUT_DOWN then held k \/ k = key_id e
  else if ie_kind e =? RBP_INPUT_UP then held k /\ k <> key_id e
  else if ie_kind e =? RBP_INPUT_RESET then False else held k.

Record input_wf (s : rbp_input_t) : Prop := {
  iw_ids : length (key_ids s) = 64%nat /\ Forall U16 (key_ids s);
  iw_count : 0 <= count s <= 64;
  iw_nodup : ready s = true -> NoDup (catalog s) /\ Forall (fun k => 0 < k) (catalog s);
  iw_bits : 0 <= bits s < 2 ^ count s;
  iw_idle : ready s = false -> bits s = 0 /\ count s = 0 }.

Definition slot_keys (s : rbp_input_t) (mask : Z) : list Z :=
  List.seq 0 (Z.to_nat (count s)) ≫= fun i =>
    if Z.testbit mask (Z.of_nat i) then [znth (key_ids s) (Z.of_nat i)] else [].
Definition event (s : rbp_input_t) (kind : Z) (synth : bool) (time seq reason key : Z) :=
  InputEvent (in_source s) time seq key kind reason synth.

Lemma land_bit mask i : 0 <= i -> (Z.land mask (Z.shiftl 1 i) =? 0) = negb (Z.testbit mask i).
Proof.
  intros Hi. destruct (Z.testbit mask i) eqn:E.
  - apply Z.eqb_neq. intros H. apply (f_equal (fun z => Z.testbit z i)) in H.
    rewrite Z.land_spec, E, Z.shiftl_spec, Z.sub_diag, Z.bits_0 in H by done. done.
  - apply Z.eqb_eq. apply Z.bits_inj'. intros j Hj. rewrite Z.land_spec, Z.bits_0.
    destruct (decide (i = j)) as [->|]; [by rewrite E|].
    rewrite Z.shiftl_1_l, Z.pow2_bits_false by done. apply andb_false_r.
Qed.

Lemma catalog_map s : input_wf s ->
  catalog s = map (fun i => znth (key_ids s) (Z.of_nat i)) (List.seq 0 (Z.to_nat (count s))).
Proof.
  intros [[Hl _] Hc _ _ _]. apply list_eq. intros i. unfold catalog. rewrite list_lookup_fmap.
  destruct (decide (Z.of_nat i < count s)) as [H|H].
  - rewrite lookup_slice by lia. rewrite lookup_seq_lt by lia. cbn.
    destruct (key_ids s !! i) as [k|] eqn:E.
    + rewrite (znth_lookup _ _ k); [done|]. by rewrite Nat2Z.id.
    + apply lookup_ge_None in E. lia.
  - rewrite lookup_slice_ge by lia. rewrite lookup_seq_ge by lia. done.
Qed.

Lemma emit_slots_events s mask kind synth time seq reason :
  input_wf s -> emit_set s = true -> Byte kind ->
  emit_slots s mask kind synth time seq reason =
    map (event s kind synth time seq reason) (slot_keys s mask).
Proof.
  intros Hw He Hk. unfold emit_slots, slot_keys.
  induction (List.seq 0 (Z.to_nat (count s))) as [|i l IH]; [done|].
  cbn [mbind list_bind]. rewrite map_app. f_equal; [|exact IH].
  rewrite land_bit, negb_involutive by lia. destruct (Z.testbit _ _); [|done].
  unfold emit. rewrite He. rewrite u8_small by done. rewrite u16_small; [done|].
  destruct Hw as [[_ Hu] _ _ _ _]. unfold znth.
  destruct (nth_in_or_default (Z.to_nat (Z.of_nat i)) (key_ids s) 0) as [Hin | ->].
  - rewrite List.Forall_forall in Hu. by apply Hu.
  - unfold U16. lia.
Qed.

Lemma elem_of_slot_keys s mask k : input_wf s -> k ∈ slot_keys s mask <-> held_in s mask k.
Proof.
  intros Hw. unfold held_in, slot_keys. rewrite (catalog_map s Hw), list_elem_of_bind. split.
  - intros (i & Hk & Hi). apply elem_of_seq in Hi. destruct (Z.testbit _ _) eqn:E; [|by inv Hk].
    apply list_elem_of_singleton in Hk as ->. exists i. split; [|done].
    rewrite list_lookup_fmap, lookup_seq_lt by lia. done.
  - intros (i & Hk & Hi). rewrite list_lookup_fmap in Hk.
    destruct (List.seq 0 _ !! i) as [j|] eqn:E; [|done]. apply lookup_seq in E as [-> E].
    injection Hk as <-. exists i. rewrite Hi. split; [by constructor|]. apply elem_of_seq. lia.
Qed.

Lemma filter_sublist {A B} (p : A -> bool) (f : A -> B) l :
  (l ≫= fun x => if p x then [f x] else []) `sublist_of` map f l.
Proof. induction l as [|x l IH]; cbn; [done|]. destruct (p x); cbn; by constructor. Qed.

Lemma slot_keys_NoDup s mask : input_wf s -> ready s = true -> NoDup (slot_keys s mask).
Proof.
  intros Hw Hr. destruct (iw_nodup s Hw Hr) as [Hn _]. rewrite (catalog_map s Hw) in Hn.
  eapply sublist_NoDup; [exact Hn|]. apply (filter_sublist (fun i => Z.testbit mask (Z.of_nat i))).
Qed.

(** A truthful event stream: only keys not held go down, only held keys go up,
    and a reset is announced once everything is up. *)
Fixpoint truthful (held : Z -> Prop) (evs : list rbp_input_event_t) : Prop :=
  match evs with
  | [] => True
  | e :: evs =>
    (if ie_kind e =? RBP_INPUT_DOWN then ~ held (key_id e)
     else if ie_kind e =? RBP_INPUT_UP then held (key_id e)
     else if ie_kind e =? RBP_INPUT_RESET then forall k, ~ held k else True) /\
    truthful (hears held e) evs
  end.

Lemma truthful_app held a b :
  truthful held (a ++ b) <-> truthful held a /\ truthful (fold_left hears a held) b.
Proof. revert held. induction a as [|e a IH]; intros; cbn [app truthful fold_left]; [tauto|]. rewrite IH. tauto. Qed.

Lemma hears_ups s synth time seq reason ks : forall held k,
  fold_left hears (map (event s RBP_INPUT_UP synth time seq reason) ks) held k <-> held k /\ k ∉ ks.
Proof.
  induction ks as [|x ks IH]; intros held k; cbn [map fold_left]; [set_solver|].
  rewrite IH. unfold hears at 1. cbn. set_solver.
Qed.
Lemma hears_downs s synth time seq reason ks : forall held k,
  fold_left hears (map (event s RBP_INPUT_DOWN synth time seq reason) ks) held k <-> held k \/ k ∈ ks.
Proof.
  induction ks as [|x ks IH]; intros held k; cbn [map fold_left]; [set_solver|].
  rewrite IH. unfold hears at 1. cbn. set_solver.
Qed.
Lemma truthful_ups s synth time seq reason ks : forall held : Z -> Prop,
  NoDup ks -> (forall k, k ∈ ks -> held k) ->
  truthful held (map (event s RBP_INPUT_UP synth time seq reason) ks).
Proof.
  induction ks as [|x ks IH]; intros held Hn Hh; [done|]. apply list.NoDup_cons in Hn as [Hx Hn].
  cbn [map truthful]. split; [cbn; apply Hh; set_solver|].
  apply IH; [done|]. intros k Hk. unfold hears. cbn. set_solver.
Qed.
Lemma truthful_downs s synth time seq reason ks : forall held : Z -> Prop,
  NoDup ks -> (forall k, k ∈ ks -> ~ held k) ->
  truthful held (map (event s RBP_INPUT_DOWN synth time seq reason) ks).
Proof.
  induction ks as [|x ks IH]; intros held Hn Hh; [done|]. apply list.NoDup_cons in Hn as [Hx Hn].
  cbn [map truthful]. split; [cbn; apply Hh; set_solver|].
  apply IH; [done|]. intros k Hk. unfold hears. cbn. intros [H| ->]; [|done].
  apply (Hh k); [set_solver|done].
Qed.

(** ** Calls of the interface *)
Inductive input_call :=
| Install (source : option rbp_input_source_t) (ids : option (list Z)) (n : Z)
| Reset (reason : Z)
| Feed (seq time bits kind reason : Z).
(** What the C types and buffers guarantee of the arguments. *)
Definition call_ok (c : input_call) : Prop :=
  match c with
  | Install _ ids n =>
    0 <= n /\ match ids with Some l => Forall U16 l /\ (n <= 64 -> n <= zlen l) | None => True end
  | Reset _ => True
  | Feed _ _ b kind _ => U64 b /\ Byte kind
  end.
#[export] Instance call_ok_dec c : Decision (call_ok c).
Proof. destruct c as [? []| |]; cbn; apply _. Defined.
Definition input_step (s : rbp_input_t) (c : input_call) : rbp_input_t * list rbp_input_event_t :=
  match c with
  | Install src ids n => let '(_, s, evs) := rbp_input_install s src ids n in (s, evs)
  | Reset reason => rbp_input_reset s reason
  | Feed seq time b kind reason => let '(_, s, evs) := rbp_input_feed s seq time b kind reason in (s, evs)
  end.

Lemma ids_valid_spec l : Forall U16 l -> ids_valid l = true -> NoDup l /\ Forall (fun k => 0 < k) l.
Proof.
  unfold ids_valid. rewrite forallb_forall. intros Hu H.
  assert (forall i x, l !! i = Some x ->
    x <> 0 /\ forall j, (j < i)%nat -> l !! j <> Some x) as Hi.
  { intros i x E. pose proof (lookup_lt_Some _ _ _ E). specialize (H i).
    rewrite (znth_lookup l (Z.of_nat i) x) in H by by rewrite Nat2Z.id.
    rewrite in_seq, andb_true_iff, forallb_forall in H. destruct H as [Hx Hj]; [lia|].
    split; [lia|]. intros j Hlt Ej. specialize (Hj j).
    rewrite (znth_lookup l (Z.of_nat j) x) in Hj by by rewrite Nat2Z.id.
    rewrite in_seq in Hj. specialize (Hj ltac:(lia)). lia. }
  split.
  - apply NoDup_alt. intros i j x Ei Ej. destruct (Hi i x Ei) as [_ H1], (Hi j x Ej) as [_ H2].
    destruct (Nat.lt_trichotomy i j) as [Hl|[Hl|Hl]]; [by destruct (H2 i Hl)|done|by destruct (H1 j Hl)].
  - apply Forall_lookup. intros i x E. destruct (Hi i x E) as [Hx _].
    assert (U16 x) by (by eapply Forall_lookup_1). words.
Qed.

Lemma rbp_input_reset_wf s reason s' evs :
  input_wf s -> rbp_input_reset s reason = (s', evs) ->
  input_wf s' /\ ready s' = false /\ emit_set s' = emit_set s.
Proof.
  intros [Hk Hc Hn Hb Hi]. unfold rbp_input_reset. destruct (ready s) eqn:Er; intros [= <- _].
  - split; [|done]. split; cbn; try done; lia.
  - destruct (Hi eq_refl) as [Hb0 Hc0]. split; [|done]. split; cbn; try done; lia.
Qed.

Lemma rbp_input_install_wf s src ids n b s' evs :
  input_wf s -> call_ok (Install src ids n) -> rbp_input_install s src ids n = (b, s', evs) ->
  input_wf s' /\ emit_set s' = emit_set s /\
  if b then evs = snd (rbp_input_reset s 0) /\ ready s' = true /\ bits s' = 0
  else s' = s /\ evs = [].
Proof.
  intros Hw [Hn0 Ho]. unfold rbp_input_install. destruct src as [src|]; [|by intros [= <- <- <-]].
  destruct (_ || _) eqn:E1; [by intros [= <- <- <-]|].
  destruct (negb (ids_valid _)) eqn:E2; [by intros [= <- <- <-]|]. apply negb_false_iff in E2.
  destruct (rbp_input_reset s 0) as [s1 ev1] eqn:Er. intros [= <- <- <-].
  destruct (rbp_input_reset_wf _ _ _ _ Hw Er) as (Hw1 & Hr & He).
  destruct Hw1 as [[Hl Hu] Hc Hnd Hb Hi]. destruct (Hi Hr) as [Hb0 _].
  assert (n <= 64) by lia. rewrite u8_small by (unfold Byte; lia).
  destruct (n =? 0) eqn:En; cbn [negb].
  - split; [|done]. assert (n = 0) as -> by lia.
    split; cbn; try done; try lia. intros _. split; constructor.
  - assert (exists l, ids = Some l) as [l ->].
    { destruct ids as [l|]; [by exists l|]. rewrite bool_decide_eq_true_2 in E1 by done. lia. }
    destruct Ho as [Hul Ho]. specialize (Ho ltac:(lia)). cbn [default] in *.
    assert (Forall U16 (slice l 0 n)) as Hs by auto with rbp.
    destruct (ids_valid_spec _ Hs E2) as [Hd Hz].
    pose proof (zlen_slice l 0 n ltac:(lia) ltac:(lia) ltac:(lia)) as Hzl.
    assert (slice (splice (key_ids s1) 0 (slice l 0 n)) 0 n = slice l 0 n) as Hcat.
    { rewrite <- Hzl at 2. unfold slice at 1, splice. change (Z.to_nat 0) with 0%nat.
      rewrite drop_0, take_0. cbn [app]. rewrite take_app_le by (unfold zlen in *; lia).
      apply take_ge. unfold zlen in *. lia. }
    split; [|done]. split; cbn; try lia; try done.
    + split; [|by apply splice_Forall].
      pose proof (zlen_splice (key_ids s1) (slice l 0 n) 0). unfold zlen in *. lia.
    + intros _. unfold catalog. cbn. by rewrite Hcat.
Qed.

Lemma not64_testbit b i : U64 b -> 0 <= i < 64 -> Z.testbit (not64 b) i = negb (Z.testbit b i).
Proof.
  intros Hb Hi. unfold not64, u64. change 18446744073709551616 with (2 ^ 64).
  rewrite Z.mod_pow2_bits_low by lia. by rewrite Z.lnot_spec by lia.
Qed.
Lemma bits_U64 s : input_wf s -> U64 (bits s).
Proof.
  intros [_ Hc _ Hb _]. unfold U64. change 18446744073709551616 with (2 ^ 64).
  pose proof (Z.pow_le_mono_r 2 (count s) 64). lia.
Qed.

Lemma held_in_lt s k i : input_wf s -> catalog s !! i = Some k -> Z.of_nat i < 64.
Proof.
  intros [_ Hc _ _ _] E. unfold catalog in E.
  destruct (decide (Z.of_nat i < count s)); [lia|]. rewrite lookup_slice_ge in E by lia. done.
Qed.
(** Slots and keys of a ready reducer correspond one to one. *)
Lemma held_in_slot s mask k i : input_wf s -> ready s = true ->
  catalog s !! i = Some k -> held_in s mask k <-> Z.testbit mask (Z.of_nat i) = true.
Proof.
  intros Hw Hr Ei. destruct (iw_nodup s Hw Hr) as [Hn _]. split; [|by exists i].
  intros (j & Ej & Hj). by rewrite (NoDup_lookup _ _ _ _ Hn Ei Ej).
Qed.
Lemma held_in_diff s a b k : input_wf s -> ready s = true -> U64 b ->
  held_in s (Z.land a (not64 b)) k <-> held_in s a k /\ ~ held_in s b k.
Proof.
  intros Hw Hr Hb. split.
  - intros (i & Ei & Hi). pose proof (held_in_lt s k i Hw Ei).
    rewrite !(held_in_slot s _ k i) by done.
    rewrite Z.land_spec, not64_testbit in Hi by (done || lia). destruct (Z.testbit a _), (Z.testbit b _); done.
  - intros [(i & Ei & Hi) Hn]. pose proof (held_in_lt s k i Hw Ei).
    rewrite (held_in_slot s _ k i) in Hn by done. rewrite (held_in_slot s _ k i) by done.
    rewrite Z.land_spec, not64_testbit, Hi by (done || lia). by destruct (Z.testbit b _).
Qed.
Lemma held_in_0 s k : ~ held_in s 0 k.
Proof. intros (i & _ & Hi). by rewrite Z.bits_0 in Hi. Qed.

Lemma shiftr_zero_range b n : 0 <= n -> U64 b ->
  (n <? 64) && negb (Z.shiftr b n =? 0) = false -> n <= 64 -> 0 <= b < 2 ^ n.
Proof.
  intros Hn Hb H Hn64. split; [words|]. destruct (decide (n = 64)) as [->|]; [exact (proj2 Hb)|].
  assert (Z.shiftr b n = 0) as Hz by lia. rewrite Z.shiftr_div_pow2 in Hz by done.
  pose proof (Z.pow_pos_nonneg 2 n). apply Z.div_small_iff in Hz; [|lia]. words.
Qed.

(** A snapshot is adopted: the application takes the new bitmap over. *)
Definition is_snapshot (e : rbp_input_event_t) : bool := ie_kind e =? RBP_INPUT_SNAPSHOT.
Definition after (s : rbp_input_t) (held : Z -> Prop) (evs : list rbp_input_event_t) : Z -> Prop :=
  if existsb is_snapshot evs then held_in s (bits s) else fold_left hears evs held.
Definition agrees (s : rbp_input_t) (held : Z -> Prop) : Prop :=
  forall k, held k <-> held_in s (bits s) k.

Lemma no_snapshot s kind synth time seq reason ks :
  kind <> RBP_INPUT_SNAPSHOT -> existsb is_snapshot (map (event s kind synth time seq reason) ks) = false.
Proof. intros Hk. induction ks; cbn; [done|]. rewrite IHks. unfold is_snapshot. cbn. lia. Qed.

Lemma reset_events s reason held s' evs :
  input_wf s -> emit_set s = true -> agrees s held -> rbp_input_reset s reason = (s', evs) ->
  truthful held evs /\ existsb is_snapshot evs = false /\ (forall k, ~ fold_left hears evs held k).
Proof.
  intros Hw He Ha. unfold rbp_input_reset. destruct (ready s) eqn:Er; intros [= <- <-].
  - change (emit_slots _ (bits s) _ _ _ _ _) with (emit_slots s (bits s) RBP_INPUT_UP true 0 0 reason).
    rewrite emit_slots_events by done. unfold emit. cbn [emit_set]. 
    change (emit_set (s <| bits := 0 |> <| ready := false |>)) with (emit_set s). rewrite He.
    assert (forall k, ~ fold_left hears (map (event s RBP_INPUT_UP true 0 0 reason) (slot_keys s (bits s))) held k)
      as Hup by (intros k; rewrite hears_ups, elem_of_slot_keys, (Ha k) by done; tauto).
    split; [|split].
    + apply truthful_app. split; [|by cbn].
      apply truthful_ups; [by apply slot_keys_NoDup|].
      intros k. rewrite elem_of_slot_keys by done. by apply Ha.
    + rewrite existsb_app, no_snapshot by done. done.
    + intros k. rewrite fold_left_app. cbn. unfold hears at 1. cbn. tauto.
  - split_and!; [done..|]. intros k. cbn. rewrite (Ha k).
    destruct (iw_idle s Hw Er) as [-> _]. apply held_in_0.
Qed.

Lemma rbp_input_feed_wf s seq time b kind reason r s' evs :
  input_wf s -> U64 b -> rbp_input_feed s seq time b kind reason = (r, s', evs) ->
  input_wf s' /\ emit_set s' = emit_set s.
Proof.
  intros Hw Hb. unfold rbp_input_feed. destruct (_ || _) eqn:E1; [by intros [= <- <- <-]|].
  split_if; [by intros [= <- <- <-]|].
  assert (input_wf (s <| bits := b |> <| sequence := seq |> <| have_sequence := true |>)) as Hw'.
  { destruct Hw as [Hk Hc Hn Hbb Hi]. split; cbn; try done.
    - apply shiftr_zero_range; lia || done || (destruct (ready s); lia).
    - intros Hr. rewrite Hr in E1. done. }
  split_if; by intros [= <- <- <-].
Qed.

Lemma feed_events s seq time b kind reason held r s' evs :
  input_wf s -> U64 b -> Byte kind -> emit_set s = true -> agrees s held ->
  rbp_input_feed s seq time b kind reason = (r, s', evs) ->
  truthful held evs /\ agrees s' (after s' held evs).
Proof.
  intros Hw Hb Hk He Ha H.
  destruct (rbp_input_feed_wf _ _ _ _ _ _ _ _ _ Hw Hb H) as [Hw' He']. revert H.
  unfold rbp_input_feed. destruct (_ || _) eqn:E1; [by intros [= <- <- <-]|].
  split_if; [by intros [= <- <- <-]|]. assert (ready s = true) as Hr by (destruct (ready s); done).
  set (s2 := s <| bits := b |> <| sequence := seq |> <| have_sequence := true |>) in *.
  change (emit_set s2) with (emit_set s). destruct (kind =? 0) eqn:Ek.
  - intros [= <- <- <-]. unfold emit. change (emit_set s2) with (emit_set s). rewrite He. done.
  - intros [= <- <- <-].
    assert (ready s2 = true) as Hr2 by done. assert (bits s2 = b) as Hbb by done.
    assert (forall m k, held_in s2 m k <-> held_in s m k) as Hs2 by done.
    pose proof (bits_U64 s Hw) as Hp.
    clearbody s2. rewrite !emit_slots_events by (done || congruence).
    unfold emit. replace (emit_set s2) with true by congruence.
    set (ups := slot_keys s2 _). set (downs := slot_keys s2 (Z.land b _)).
    set (tl := if kind =? 2 then _ else []).
    assert (forall k, fold_left hears (map (event s2 RBP_INPUT_DOWN false time seq reason) downs)
      (fold_left hears (map (event s2 RBP_INPUT_UP (kind =? 2) time seq reason) ups) held) k <->
      held_in s2 b k) as Hfin.
    { intros k. rewrite hears_downs, hears_ups. subst ups downs. rewrite !elem_of_slot_keys by done.
      rewrite !held_in_diff by done. rewrite (Ha k), <- (Hs2 (bits s) k).
      pose proof (elem_of_slot_keys s2 b k Hw'). pose proof (elem_of_slot_keys s2 (bits s) k Hw').
      destruct (decide (k ∈ slot_keys s2 b)), (decide (k ∈ slot_keys s2 (bits s))); tauto. }
    assert (kind = 2 -> b = 0) as Hb0 by lia.
    split.
    + apply truthful_app. split; [|apply truthful_app; split].
      * apply truthful_ups; [by apply slot_keys_NoDup|]. intros k. subst ups.
        rewrite elem_of_slot_keys, held_in_diff, (Ha k), <- (Hs2 (bits s) k) by done. tauto.
      * apply truthful_downs; [by apply slot_keys_NoDup|]. intros k. subst downs.
        rewrite hears_ups, elem_of_slot_keys, held_in_diff, (Ha k), <- (Hs2 (bits s) k) by done. tauto.
      * subst tl. split_if; [|done]. split; [|done]. cbn. intros k. rewrite (Hfin k).
        rewrite Hb0 by lia. apply held_in_0.
    + assert (existsb is_snapshot tl = false) as Htl by (subst tl; by split_if).
      intros k. unfold after. rewrite !existsb_app, !no_snapshot, Htl by done. cbn [orb].
      rewrite !fold_left_app, Hbb. subst tl. split_if; [|exact (Hfin k)]. cbn. unfold hears at 1. cbn.
      rewrite Hb0 by lia. pose proof (held_in_0 s2 k). change (u8 RBP_INPUT_RESET) with 4. cbn. tauto.
Qed.

(** Every call of a session: its events are truthful for what the application
    holds, and afterwards the application holds exactly the keys of the bitmap. *)
Fixpoint session_ok (s : rbp_input_t) (held : Z -> Prop) (calls : list input_call) : Prop :=
  match calls with
  | [] => True
  | c :: calls =>
    let '(s, evs) := input_step s c in
    truthful held evs /\ agrees s (after s held evs) /\ session_ok s (after s held evs) calls
  end.

Lemma call_step s c held : input_wf s -> emit_set s = true -> call_ok c -> agrees s held ->
  let '(s', evs) := input_step s c in
  input_wf s' /\ emit_set s' = true /\ truthful held evs /\ agrees s' (after s' held evs).
Proof.
  intros Hw He Hok Ha. destruct c as [src ids n|reason|seq time b kind reason]; cbn [input_step].
  - destruct (rbp_input_install s src ids n) as [[r s'] evs] eqn:E.
    destruct (rbp_input_install_wf _ _ _ _ _ _ _ Hw Hok E) as (Hw' & He' & H).
    split; [done|]. split; [congruence|]. destruct r; [|by destruct H as [-> ->]].
    destruct H as (-> & Hr & Hb). destruct (rbp_input_reset s 0) as [s1 evs1] eqn:Er.
    destruct (reset_events _ _ held _ _ Hw He Ha Er) as (H1 & H2 & H3). split; [done|].
    intros k. unfold after. cbn [snd]. rewrite H2, Hb. pose proof (held_in_0 s' k).
    specialize (H3 k). tauto.
  - destruct (rbp_input_reset s reason) as [s' evs] eqn:Er.
    destruct (rbp_input_reset_wf _ _ _ _ Hw Er) as (Hw' & Hr & He').
    destruct (reset_events _ _ held _ _ Hw He Ha Er) as (H1 & H2 & H3).
    split; [done|]. split; [congruence|]. split; [done|]. intros k. unfold after. rewrite H2.
    destruct (iw_idle s' Hw' Hr) as [-> _]. pose proof (held_in_0 s' k). specialize (H3 k). tauto.
  - destruct (rbp_input_feed s seq time b kind reason) as [[r s'] evs] eqn:E. destruct Hok as [Hb Hk].
    destruct (rbp_input_feed_wf _ _ _ _ _ _ _ _ _ Hw Hb E) as [Hw' He'].
    split; [done|]. split; [congruence|]. exact (feed_events _ _ _ _ _ _ _ _ _ _ Hw Hb Hk He Ha E).
Qed.

Lemma rbp_input_init_wf cb : input_wf (rbp_input_init cb).
Proof.
  split; try done; [|cbn; lia..]. split; [done|]. apply Forall_replicate. unfold U16. lia.
Qed.

(** C32: From [rbp_input_init], whatever installs, resets and feeds follow
    (rejected and stale ones included), the events are truthful: DOWN is only
    said of a key that is up, UP only of a key that is down, RESET only when
    everything is up; and an application that follows them, adopting the bitmap
    at a snapshot, holds exactly the keys of the reducer after each call. *)
Theorem input_session_truthful calls :
  Forall call_ok calls -> session_ok (rbp_input_init true) (fun _ => False) calls.
Proof.
  assert (forall s held, input_wf s -> emit_set s = true -> agrees s held -> Forall call_ok calls ->
    session_ok s held calls) as H.
  { induction calls as [|c calls IH]; intros s held Hw He Ha Hok; [done|].
    apply Forall_cons_iff in Hok as [Hc Hok]. cbn [session_ok].
    pose proof (call_step s c held Hw He Hc Ha) as H. destruct (input_step s c) as [s' evs].
    destruct H as (Hw' & He' & H1 & H2). split_and!; [done..|]. by apply IH. }
  intros Hok. apply H; [apply rbp_input_init_wf|done| |done].
  intros k. split; [done|]. apply held_in_0.
Qed.
Definition sample_source : rbp_input_source_t := Source 1 2 3 4 5 [82; 67; 0].
Definition sample_feeds : list input_call :=
  [Install (Some sample_source) (Some [10; 20; 30]) 3; Feed 1 5 3 1 0; Feed 1 5 7 1 0;
   Feed 2 6 4 1 0; Feed 3 7 2 0 0; Feed 3 8 0 2 1; Reset 2].
Lemma input_session_truthful_witness :
  session_ok (rbp_input_init true) (fun _ => False) sample_feeds /\
  map (fun e => (ie_kind e, key_id e))
    (snd (fold_left (fun '(s, l) c => let '(s', evs) := input_step s c in (s', l ++ evs)) sample_feeds
      (rbp_input_init true, []))) =
  [(1, 10); (1, 20); (2, 10); (2, 20); (1, 30); (3, 0); (2, 20); (4, 0); (4, 0)].
Proof.
  split; [|vm_compute; reflexivity]. apply (input_session_truthful sample_feeds).
  by apply (bool_decide_unpack _); vm_compute.
Defined.
