(* ===== verification/Hogp.v ===== *)
(** * HID report maps

    report_map.c: the bounded Report Map parser and the report decoder.  The
    arrays [fields] and [inputs] with their counters are lists; a rejected map
    is [None] (its partly filled output is never used).  The decoder reads
    the report through [!!], and a read outside of it is a result of its own. *)
From Stdlib Require Import Sorting.Sorted.
From S2P Require Import Prelude Defs.

Definition HOGP_MAX_INPUT_REPORTS : Z := 8.
Definition HOGP_MAX_MAP_SIZE : Z := 512.
Definition HOGP_MAX_FIELDS : Z := 64.
Record hogp_input_report_t := InputReport {
  ir_report_id : Z; ir_usage_page : Z; ir_bits : Z; ir_bytes : Z }.
#[export] Instance eta_input_report : Eta hogp_input_report_t := fun r =>
  InputReport (ir_report_id r) (ir_usage_page r) (ir_bits r) (ir_bytes r).
Record hogp_field_t := Field {
  f_offset : Z; f_page : Z; f_usage_min : Z; f_usage_max : Z; f_logical_min : Z;
  f_report_id : Z; f_size : Z; f_count : Z; f_variable : bool }.
Record hogp_report_map_t := ReportMap {
  fields : list hogp_field_t; inputs : list hogp_input_report_t; uses_report_ids : bool }.
#[export] Instance eta_report_map : Eta hogp_report_map_t := fun m =>
  ReportMap (fields m) (inputs m) (uses_report_ids m).
#[export] Instance hogp_field_eq_dec : EqDecision hogp_field_t.
Proof. solve_decision. Defined.
#[export] Instance hogp_input_report_eq_dec : EqDecision hogp_input_report_t.
Proof. solve_decision. Defined.
#[export] Instance hogp_report_map_eq_dec : EqDecision hogp_report_map_t.
Proof. solve_decision. Defined.

Record globals_t := Globals {
  g_page : Z; g_size : Z; g_count : Z; g_id : Z; g_lmin : Z; g_lmax : Z }.
#[export] Instance eta_globals : Eta globals_t := fun g =>
  Globals (g_page g) (g_size g) (g_count g) (g_id g) (g_lmin g) (g_lmax g).

(** The local variables of [hogp_report_map_parse]; [p_stack] has its top first. *)
Record parser := Parser {
  p_out : hogp_report_map_t; p_g : globals_t; p_stack : list globals_t; p_depth : Z;
  p_usages : list Z; p_umin : Z; p_umax : Z; p_have_min : bool; p_have_max : bool }.
#[export] Instance eta_parser : Eta parser := fun p =>
  Parser (p_out p) (p_g p) (p_stack p) (p_depth p) (p_usages p) (p_umin p) (p_umax p)
    (p_have_min p) (p_have_max p).
Definition parser0 : parser :=
  Parser (ReportMap [] [] false) (Globals 0 0 0 0 0 0) [] 0 [] 0 0 false false.

(** [type == 1] *)
Definition global_item (p : parser) (tag v : Z) : option parser :=
  let g := p_g p in
  if tag =? 0 then if 65535 <? v then None else Some (p <| p_g := g <| g_page := v |> |>)
  else if tag =? 1 then Some (p <| p_g := g <| g_lmin := v |> |>)
  else if tag =? 2 then Some (p <| p_g := g <| g_lmax := v |> |>)
  else if tag =? 7 then Some (p <| p_g := g <| g_size := v |> |>)
  else if tag =? 8 then
    if (v =? 0) || (255 <? v) then None
    else Some (p <| p_g := g <| g_id := v |> |> <| p_out ::= fun m => m <| uses_report_ids := true |> |>)
  else if tag =? 9 then Some (p <| p_g := g <| g_count := v |> |>)
  else if tag =? 10 then
    if zlen (p_stack p) =? 4 then None else Some (p <| p_stack := g :: p_stack p |>)
  else if tag =? 11 then
    match p_stack p with [] => None | g :: stack => Some (p <| p_g := g |> <| p_stack := stack |>) end
  else Some p.

(** [n==4?v:(g.page<<16)|v] *)
Definition full_usage (p : parser) (n v : Z) : Z :=
  if n =? 4 then v else Z.lor (u32 (Z.shiftl (g_page (p_g p)) 16)) v.
(** [type == 2] *)
Definition local_item (p : parser) (tag n v : Z) : option parser :=
  if tag =? 0 then
    if zlen (p_usages p) =? 32 then None else Some (p <| p_usages ::= fun l => l ++ [full_usage p n v] |>)
  else if tag =? 1 then Some (p <| p_umin := full_usage p n v |> <| p_have_min := true |>)
  else if tag =? 2 then Some (p <| p_umax := full_usage p n v |> <| p_have_max := true |>)
  else if tag =? 10 then None
  else Some p.

(** The index of the last report of the given id. *)
Fixpoint find_report (l : list hogp_input_report_t) (id : Z) : option nat :=
  match l with
  | [] => None
  | r :: l =>
    match find_report l id with
    | Some i => Some (S i)
    | None => if ir_report_id r =? id then Some 0%nat else None
    end
  end.

(** The usage of element [j] of a variable field. *)
Definition variable_usage (p : parser) (j : Z) : Z :=
  let nu := zlen (p_usages p) in
  if negb (nu =? 0) then znth (p_usages p) (if j <? nu then j else nu - 1)
  else u32 (p_umin p + (if j <=? u32 (p_umax p - p_umin p) then j else u32 (p_umax p - p_umin p))).
(** [for(j=0;j<g.count;j++)]: one field per element of a variable item. *)
Fixpoint variable_fields (p : parser) (bits : Z) (fs : list hogp_field_t) (js : list Z)
  : option (list hogp_field_t) :=
  match js with
  | [] => Some fs
  | j :: js =>
    let g := p_g p in
    let usage := variable_usage p j in
    if zlen fs =? HOGP_MAX_FIELDS then None
    else
      variable_fields p bits
        (fs ++ [Field (u16 (bits + j * g_size g)) (u16 (Z.shiftr usage 16)) (Z.land usage 65535)
           (Z.land usage 65535) 0 (u8 (g_id g)) (u8 (g_size g)) 1 true]) js
  end.
Definition array_field (p : parser) (bits : Z) : hogp_field_t :=
  let g := p_g p in
  Field (u16 bits) (u16 (Z.shiftr (p_umin p) 16)) (Z.land (p_umin p) 65535) (Z.land (p_umax p) 65535)
    (u16 (g_lmin g)) (u8 (g_id g)) (u8 (g_size g)) (u8 (g_count g)) false.
(** The fields after the data item [v], whose report has [bits] bits so far and
    ends at [end_]. *)
Definition item_fields (p : parser) (v bits end_ : Z) (vendor : bool) : option (list hogp_field_t) :=
  let g := p_g p in
  let fs := fields (p_out p) in
  if negb (Z.land v 1 =? 0) || vendor then Some fs
  else if 512 <? end_ then None
  else if negb (Z.land v 260 =? 0) then None
  else if negb (Bool.eqb (p_have_min p) (p_have_max p)) ||
          (p_have_min p && ((p_umax p <? p_umin p) ||
             negb (Z.shiftr (p_umax p) 16 =? Z.shiftr (p_umin p) 16))) then None
  else if negb (Z.land v 2 =? 0) then
    if (zlen (p_usages p) =? 0) && negb (p_have_min p) then None
    else variable_fields p bits fs (map Z.of_nat (List.seq 0 (Z.to_nat (g_count g))))
  else if negb (p_have_min p) || (65535 <? g_lmin g) || (65535 <? g_lmax g) || (g_lmax g <? g_lmin g)
  then None
  else if zlen fs =? HOGP_MAX_FIELDS then None
  else Some (fs ++ [array_field p bits]).

Definition vendor_item (p : parser) : bool :=
  (65280 <=? g_page (p_g p)) &&
  negb (p_have_min p && (Z.shiftr (p_umin p) 16 <? 65280)) &&
  forallb (fun u => negb (Z.shiftr u 16 <? 65280)) (p_usages p).
(** [tag == 8]: an Input item. *)
Definition input_item (p : parser) (v : Z) : option parser :=
  let g := p_g p in
  let vendor := vendor_item p in
  if (g_size g =? 0) || (65535 <? g_size g) || (g_count g =? 0) || (65535 <? g_count g) then None
  else if negb vendor && ((16 <? g_size g) || (64 <? g_count g)) then None
  else
    let ins := inputs (p_out p) in
    match
      match find_report ins (g_id g) with
      | Some i => Some (ins, i)
      | None =>
        if zlen ins =? HOGP_MAX_INPUT_REPORTS then None
        else Some (ins ++ [InputReport (u8 (g_id g)) (u16 (g_page g)) 0 0], length ins)
      end
    with
    | None => None
    | Some (ins, i) =>
      let r := nth i ins (InputReport 0 0 0 0) in
      let width := u32 (g_size g * g_count g) in
      if 65535 - ir_bits r <? width then None
      else
        let end_ := ir_bits r + width in
        match item_fields p v (ir_bits r) end_ vendor with
        | None => None
        | Some fs =>
          let r := r <| ir_bits := u16 end_ |> <| ir_bytes := u16 ((end_ + 7) / 8) |> in
          Some (p <| p_out ::= fun m => m <| fields := fs |> <| inputs := <[i := r]> ins |> |>)
        end
    end.
(** [type == 0]; every main item ends the scope of the local ones. *)
Definition main_item (p : parser) (tag v : Z) : option parser :=
  match
    (if tag =? 10 then if 16 <? p_depth p + 1 then None else Some (p <| p_depth ::= fun d => d + 1 |>)
     else if tag =? 12 then
       if p_depth p =? 0 then None else Some (p <| p_depth ::= fun d => d - 1 |>)
     else if tag =? 8 then input_item p v
     else Some p)
  with
  | None => None
  | Some p => Some (p <| p_usages := [] |> <| p_have_min := false |> <| p_have_max := false |>)
  end.

(** The item loop; [None] in the outer option is an exhausted [fuel]. *)
Fixpoint parse_items (fuel : nat) (d : list Z) (pos : Z) (p : parser) : option (option parser) :=
  if negb (pos <? zlen d) then Some (Some p)
  else
    match fuel with
    | O => None
    | S fuel =>
      let prefix := znth d pos in
      let pos := pos + 1 in
      if prefix =? 254 then Some None
      else
        let n := Z.land prefix 3 in
        let n := if n =? 3 then 4 else n in
        if zlen d <? pos + n then Some None
        else
          let v := unle (slice d pos n) in
          let type := Z.land (Z.shiftr prefix 2) 3 in
          let tag := Z.shiftr prefix 4 in
          match
            (if type =? 1 then global_item p tag v
             else if type =? 2 then local_item p tag n v
             else if type =? 0 then main_item p tag v else Some p)
          with
          | None => Some None
          | Some p => parse_items fuel d (pos + n) p
          end
    end.

Definition useful (fs : list hogp_field_t) (r : hogp_input_report_t) : bool :=
  existsb (fun f => f_report_id f =? ir_report_id r) fs.
(** The reports kept: those with a field, each of at most 512 bits. *)
Fixpoint keep_useful (fs : list hogp_field_t) (l : list hogp_input_report_t)
  : option (list hogp_input_report_t) :=
  match l with
  | [] => Some []
  | r :: l =>
    if useful fs r then
      if 512 <? ir_bits r then None
      else match keep_useful fs l with Some l => Some (r :: l) | None => None end
    else keep_useful fs l
  end.
Definition parse_finish (p : parser) : option hogp_report_map_t :=
  let out := p_out p in
  if negb (p_depth p =? 0) || negb (zlen (p_stack p) =? 0) || (zlen (inputs out) =? 0) then None
  else if uses_report_ids out && existsb (fun r => ir_report_id r =? 0) (inputs out) then None
  else
    match keep_useful (fields out) (inputs out) with
    | None => None
    | Some kept => if zlen kept =? 0 then None else Some (out <| inputs := kept |>)
    end.
(** Every iteration consumes a byte, so that [length d] iterations are enough. *)
Definition hogp_report_map_parse (d : list Z) : option (option hogp_report_map_t) :=
  if (zlen d =? 0) || (HOGP_MAX_MAP_SIZE <? zlen d) then Some None
  else match parse_items (length d) d 0 parser0 with
       | None => None
       | Some None => Some None
       | Some (Some p) => Some (parse_finish p)
       end.

(** ** Usages and keys *)
Definition hogp_usage_to_key (usage_page usage : Z) : Z :=
  if usage_page =? 0x07 then
    if usage =? 0x4F then RBP_KEY_RIGHT else if usage =? 0x50 then RBP_KEY_LEFT
    else if usage =? 0x51 then RBP_KEY_DOWN else if usage =? 0x52 then RBP_KEY_UP
    else if usage =? 0x28 then RBP_KEY_OK else if usage =? 0x29 then RBP_KEY_BACK
    else if usage =? 0x4A then RBP_KEY_HOME else if usage =? 0x65 then RBP_KEY_MENU
    else if usage =? 0x66 then RBP_KEY_POWER else if usage =? 0x80 then RBP_KEY_VOLUME_UP
    else if usage =? 0x81 then RBP_KEY_VOLUME_DOWN else if usage =? 0x3E then RBP_KEY_VOICE
    else if usage =? 0xF1 then RBP_KEY_BACK else if usage =? 0x35 then RBP_KEY_TV
    else 0xFFFF
  else if usage_page =? 0x0C then
    if usage =? 0x030 then RBP_KEY_POWER else if usage =? 0x041 then RBP_KEY_OK
    else if usage =? 0x042 then RBP_KEY_UP else if usage =? 0x043 then RBP_KEY_DOWN
    else if usage =? 0x044 then RBP_KEY_LEFT else if usage =? 0x045 then RBP_KEY_RIGHT
    else if usage =? 0x0CF then RBP_KEY_VOICE else if usage =? 0x0E9 then RBP_KEY_VOLUME_UP
    else if usage =? 0x0EA then RBP_KEY_VOLUME_DOWN else if usage =? 0x040 then RBP_KEY_MENU
    else if usage =? 0x223 then RBP_KEY_HOME else if usage =? 0x224 then RBP_KEY_BACK
    else 0xFFFF
  else 0xFFFF.
(** [if(key!=0xffff && key && key<64) result |= 1<<key]. *)
Definition press (result key : Z) : Z :=
  if negb (key =? 0xFFFF) && (key <? 64) && negb (key =? 0) then Z.lor result (Z.shiftl 1 key)
  else result.

(** ** Decoding *)
Inductive decoded := OutOfBounds | Refused | Keys (keys : Z).
#[export] Instance decoded_eq_dec : EqDecision decoded.
Proof. solve_decision. Defined.

Fixpoint boot_keys (data : list Z) (is_ : list Z) (result : Z) : decoded :=
  match is_ with
  | [] => Keys result
  | i :: is_ =>
    match data !! Z.to_nat i with
    | None => OutOfBounds
    | Some b =>
      if (1 <=? b) && (b <=? 3) then Refused
      else boot_keys data is_ (press result (hogp_usage_to_key 7 b))
    end
  end.
Definition hogp_decode_boot_keyboard (data : list Z) : decoded :=
  if negb (zlen data =? 8) || negb (znth data 1 =? 0) then Refused
  else boot_keys data [2; 3; 4; 5; 6; 7] 0.

(** [for(k=0;k<f->size;k++) value |= ((data[(bit+k)/8]>>((bit+k)%8))&1u)<<k]. *)
Fixpoint read_bits (data : list Z) (bit : Z) (ks : list Z) (value : Z) : option Z :=
  match ks with
  | [] => Some value
  | k :: ks =>
    match data !! Z.to_nat ((bit + k) / 8) with
    | None => None
    | Some b =>
      read_bits data bit ks
        (Z.lor value (Z.shiftl (Z.land (Z.shiftr b ((bit + k) mod 8)) 1) k))
    end
  end.
Definition below (n : Z) : list Z := map Z.of_nat (List.seq 0 (Z.to_nat n)).
Definition read_value (data : list Z) (bit size : Z) : option Z := read_bits data bit (below size) 0.

(** What the value of an element says: nothing, an error, or a usage. *)
Inductive element := Idle | Bad | Usage (usage : Z).
Definition element_usage (f : hogp_field_t) (value : Z) : element :=
  if f_variable f then if value =? 0 then Idle else Usage (f_usage_min f)
  else if (value <? f_logical_min f) ||
          (u32 (f_usage_max f - f_usage_min f) <? value - f_logical_min f) then Bad
  else
    let usage := u32 (f_usage_min f + value - f_logical_min f) in
    if (f_page f =? 7) && (1 <=? usage) && (usage <=? 3) then Bad else Usage usage.
Fixpoint decode_elements (data : list Z) (f : hogp_field_t) (js : list Z) (result : Z) : decoded :=
  match js with
  | [] => Keys result
  | j :: js =>
    match read_value data (f_offset f + j * f_size f) (f_size f) with
    | None => OutOfBounds
    | Some value =>
      match element_usage f value with
      | Idle => decode_elements data f js result
      | Bad => Refused
      | Usage usage =>
        decode_elements data f js (press result (hogp_usage_to_key (f_page f) (u16 usage)))
      end
    end
  end.
Fixpoint decode_fields (data : list Z) (id : Z) (fs : list hogp_field_t) (result : Z) : decoded :=
  match fs with
  | [] => Keys result
  | f :: fs =>
    if negb (f_report_id f =? id) then decode_fields data id fs result
    else match decode_elements data f (below (f_count f)) result with
         | Keys result => decode_fields data id fs result
         | e => e
         end
  end.
Definition hogp_decode_report (map : hogp_report_map_t) (id : Z) (data : list Z) : decoded :=
  match find_report (inputs map) id with
  | None => Refused
  | Some i =>
    if negb (zlen data =? ir_bytes (nth i (inputs map) (InputReport 0 0 0 0))) then Refused
    else decode_fields data id (fields map) 0
  end.

(** A keyboard with six array slots on report 1 and a consumer control of two
    buttons on report 2. *)
Definition sample_map : list Z :=
  [5; 1; 9; 6; 161; 1; 133; 1; 5; 7; 25; 0; 41; 101; 21; 0; 37; 101; 117; 8; 149; 6; 129; 0; 192;
   5; 12; 9; 1; 161; 1; 133; 2; 9; 233; 9; 234; 117; 1; 149; 2; 129; 2; 149; 6; 129; 1; 192].
Definition sample_parsed : hogp_report_map_t :=
  match hogp_report_map_parse sample_map with Some (Some m) => m | _ => ReportMap [] [] false end.
Example sample_parses :
  (hogp_report_map_parse sample_map, hogp_decode_report sample_parsed 1 [40; 0; 82; 0; 0; 0],
   hogp_decode_report sample_parsed 2 [2], hogp_decode_report sample_parsed 2 [2; 0]) =
  (Some (Some (ReportMap
     [Field 0 7 0 101 0 1 8 6 false; Field 0 12 233 233 0 2 1 1 true; Field 1 12 234 234 0 2 1 1 true]
     [InputReport 1 7 48 6; InputReport 2 12 8 1] true)), Keys 136, Keys 8192, Refused).
Proof. vm_compute. reflexivity. Qed.

(** ** The parser invariant *)
Definition field_end (f : hogp_field_t) : Z := f_offset f + f_count f * f_size f.
Definition before (f g : hogp_field_t) : Prop :=
  f_report_id f = f_report_id g -> field_end f <= f_offset g.
Definition field_ok (f : hogp_field_t) : Prop :=
  0 <= f_offset f /\ 1 <= f_size f <= 16 /\ 1 <= f_count f <= 64.
Definition report_ok (r : hogp_input_report_t) : Prop :=
  Byte (ir_report_id r) /\ U16 (ir_bits r) /\ ir_bytes r = (ir_bits r + 7) / 8.
Definition within (ins : list hogp_input_report_t) (f : hogp_field_t) : Prop :=
  exists r, r ∈ ins /\ ir_report_id r = f_report_id f /\ field_end f <= ir_bits r.
Record map_wf (m : hogp_report_map_t) : Prop := {
  mw_ids : NoDup (map ir_report_id (inputs m));
  mw_reports : Forall report_ok (inputs m);
  mw_fields : Forall field_ok (fields m);
  mw_within : Forall (within (inputs m)) (fields m);
  mw_sorted : StronglySorted before (fields m) }.
Definition globals_ok (g : globals_t) : Prop :=
  U32 (g_page g) /\ U32 (g_size g) /\ U32 (g_count g) /\ Byte (g_id g).
Definition parser_wf (p : parser) : Prop :=
  map_wf (p_out p) /\ globals_ok (p_g p) /\ Forall globals_ok (p_stack p).

Lemma StronglySorted_app_intro {A} (R : A -> A -> Prop) l k :
  StronglySorted R l -> StronglySorted R k -> (forall x y, x ∈ l -> y ∈ k -> R x y) ->
  StronglySorted R (l ++ k).
Proof.
  intros Hl Hk. induction Hl as [|x l Hl IH Hx]; intros H; [done|]. cbn. constructor.
  - apply IH. intros. apply H; [by right|done].
  - apply Forall_app. split; [done|]. apply list.Forall_forall. intros y Hy. apply H; [by left|done].
Qed.

Lemma find_report_Some l id i : find_report l id = Some i ->
  exists r, l !! i = Some r /\ ir_report_id r = id.
Proof.
  revert i. induction l as [|r l IH]; intros i; cbn; [done|].
  destruct (find_report l id) as [j|]; [intros [= <-]; by apply IH|].
  destruct (_ =? _) eqn:E; [|done]. intros [= <-]. exists r. split; [done|lia].
Qed.
Lemma find_report_None l id : find_report l id = None -> id ∉ map ir_report_id l.
Proof.
  induction l as [|r l IH]; cbn; [set_solver|]. destruct (find_report l id); [done|].
  destruct (_ =? _) eqn:E; [done|]. intros _. specialize (IH eq_refl). set_unfold. intros [->|?]; [lia|done].
Qed.

(** The new fields of an item occupy the bits from [bits] to [end_], in order. *)
Definition fresh_fields (id bits end_ : Z) (new : list hogp_field_t) : Prop :=
  StronglySorted before new /\
  Forall (fun f => field_ok f /\ f_report_id f = id /\ bits <= f_offset f /\ field_end f <= end_) new.

Lemma variable_fields_spec p bits n : forall a fs fs',
  0 <= bits -> 1 <= g_size (p_g p) <= 16 -> Byte (g_id (p_g p)) ->
  bits + Z.of_nat (a + n) * g_size (p_g p) <= 512 ->
  variable_fields p bits fs (map Z.of_nat (List.seq a n)) = Some fs' ->
  exists new, fs' = fs ++ new /\
    fresh_fields (g_id (p_g p)) (bits + Z.of_nat a * g_size (p_g p))
      (bits + Z.of_nat (a + n) * g_size (p_g p)) new.
Proof.
  induction n as [|n IH]; intros a fs fs' Hb Hs Hid He; cbn [List.seq map variable_fields].
  - intros [= <-]. exists []. split; [by rewrite app_nil_r|]. split; constructor.
  - cbv zeta. split_if; [done|]. intros H. apply IH in H; [|done..|].
    2:{ by replace (S a + n)%nat with (a + S n)%nat by lia. }
    destruct H as (new & -> & Hso & Hf). rewrite <- app_assoc. eexists. split; [reflexivity|].
    replace (a + S n)%nat with (S a + n)%nat by lia. set (f := Field _ _ _ _ _ _ _ _ _).
    assert (f_offset f = bits + Z.of_nat a * g_size (p_g p)) as Ho by (cbn; apply u16_small; unfold U16; nia).
    assert (f_size f = g_size (p_g p)) as Hz by (cbn; apply u8_small; unfold Byte; lia).
    assert (f_report_id f = g_id (p_g p)) as Hi by (cbn; by apply u8_small).
    assert (f_count f = 1) as Hc by done. clearbody f.
    split; cbn [app].
    + constructor; [done|]. eapply Forall_impl; [|exact Hf]. intros g (_ & _ & Hg & _) _.
      unfold field_end. nia.
    + constructor.
      * unfold field_ok, field_end. rewrite Ho, Hz, Hc. repeat split; try done; nia.
      * eapply Forall_impl; [|exact Hf]. intros g (? & ? & ? & ?). split_and!; try done. nia.
Qed.

Lemma item_fields_spec p v bits end_ vendor fs' :
  0 <= bits -> globals_ok (p_g p) -> end_ = bits + g_size (p_g p) * g_count (p_g p) ->
  (vendor = false -> 1 <= g_size (p_g p) <= 16 /\ 1 <= g_count (p_g p) <= 64) ->
  item_fields p v bits end_ vendor = Some fs' ->
  exists new, fs' = fields (p_out p) ++ new /\ fresh_fields (g_id (p_g p)) bits end_ new.
Proof.
  intros Hb (_ & _ & _ & Hid) He Hv. unfold item_fields. destruct (_ || vendor) eqn:Ev.
  - intros [= <-]. exists []. split; [by rewrite app_nil_r|]. split; constructor.
  - destruct (Hv ltac:(destruct vendor; [lia|done])) as [Hs Hc]. split_if; [done|]. split_if; [done|].
    split_if; [done|]. split_if; split_if; try done; [|split_if; try done].
    + intros H. apply variable_fields_spec in H; [|done..|nia].
      destruct H as (new & -> & H). exists new. split; [done|].
      replace (bits + Z.of_nat 0 * _) with bits in H by lia.
      by replace (bits + Z.of_nat (0 + Z.to_nat (g_count (p_g p))) * g_size (p_g p)) with end_ in H by nia.
    + intros [= <-]. eexists. split; [reflexivity|]. split; [repeat constructor|].
      constructor; [|constructor]. unfold array_field, field_ok, field_end. cbn.
      rewrite u16_small by (unfold U16; nia). rewrite !u8_small by (unfold Byte; lia || done).
      repeat split; try done; nia.
Qed.

Lemma within_mono ins ins' f :
  (forall r, r ∈ ins -> exists r', r' ∈ ins' /\ ir_report_id r' = ir_report_id r /\ ir_bits r <= ir_bits r') ->
  within ins f -> within ins' f.
Proof. intros H (r & Hr & Hi & He). destruct (H r Hr) as (r' & ? & ? & ?). exists r'. split_and!; [done|congruence|lia]. Qed.

Lemma add_report fs ins u id page :
  map_wf (ReportMap fs ins u) -> id ∉ map ir_report_id ins -> Byte id ->
  map_wf (ReportMap fs (ins ++ [InputReport id page 0 0]) u).
Proof.
  intros [Hi Hr Hf Hw Hs] Hn Hb. cbn in *. split; cbn; try done.
  - rewrite map_app. apply list.NoDup_app. split; [done|]. split; [|cbn; apply NoDup_singleton].
    intros x Hx Hx'. cbn in Hx'. apply list_elem_of_singleton in Hx' as ->. done.
  - apply Forall_app. split; [done|]. constructor; [|constructor]. by unfold report_ok, U16; cbn.
  - eapply Forall_impl; [|exact Hw]. intros f. apply within_mono. intros r Hin.
    exists r. split; [set_solver|]. split; [done|lia].
Qed.

Lemma same_report ins (r r' : hogp_input_report_t) :
  NoDup (map ir_report_id ins) -> r ∈ ins -> r' ∈ ins -> ir_report_id r = ir_report_id r' -> r = r'.
Proof.
  intros Hn Hr Hr' He. apply list_elem_of_lookup in Hr as [i Hi], Hr' as [j Hj].
  assert (i = j) as ->; [|congruence].
  eapply (NoDup_lookup _ i j (ir_report_id r) Hn); rewrite list_lookup_fmap; [by rewrite Hi|].
  rewrite Hj. cbn. by rewrite He.
Qed.

Definition grown (r : hogp_input_report_t) (end_ : Z) : hogp_input_report_t :=
  r <| ir_bits := u16 end_ |> <| ir_bytes := u16 ((end_ + 7) / 8) |>.

Lemma grow_report fs ins u i r end_ new :
  map_wf (ReportMap fs ins u) -> ins !! i = Some r ->
  fresh_fields (ir_report_id r) (ir_bits r) end_ new -> ir_bits r <= end_ <= 65535 ->
  map_wf (ReportMap (fs ++ new) (<[i := grown r end_]> ins) u).
Proof.
  intros [Hi Hr Hf Hw Hs] E [Hns Hn] He. cbn in *.
  assert (report_ok r) as Hok by by eapply Forall_lookup_1. destruct Hok as (Hb & Hu & _).
  assert (ir_bits (grown r end_) = end_) as Hg by (cbn; apply u16_small; words).
  assert (r ∈ ins) as Hin by by eapply list_elem_of_lookup_2.
  assert (i < length ins)%nat as Hlt by by eapply lookup_lt_Some.
  assert (grown r end_ ∈ <[i := grown r end_]> ins) as Hgin
    by (eapply list_elem_of_lookup_2; by apply list_lookup_insert_eq).
  split; cbn.
  - change (map ir_report_id) with (fmap (M := list) ir_report_id). rewrite list_fmap_insert.
    rewrite list_insert_id; [done|]. rewrite list_lookup_fmap, E. done.
  - apply Forall_insert; [done|]. unfold report_ok. rewrite Hg. cbn.
    split; [done|]. split; [words|]. apply u16_small. words.
  - apply Forall_app. split; [done|]. eapply Forall_impl; [|exact Hn]. by intros f [? _].
  - apply Forall_app. split.
    + eapply Forall_impl; [|exact Hw]. intros f. apply within_mono. intros r0 H0.
      apply list_elem_of_lookup in H0 as [j Hj]. destruct (decide (i = j)) as [->|Hne].
      * exists (grown r end_). rewrite Hg. assert (r0 = r) as -> by congruence.
        split; [done|]. split; [done|lia].
      * exists r0. split; [|split; [done|lia]].
        eapply (list_elem_of_lookup_2 _ j). by rewrite list_lookup_insert_ne.
    + eapply Forall_impl; [|exact Hn]. intros f (_ & Hid & _ & Hend). exists (grown r end_).
      rewrite Hg. done.
  - apply StronglySorted_app_intro; [done..|]. intros f g Hf' Hg' Hfg.
    rewrite list.Forall_forall in Hw, Hn. destruct (Hw f Hf') as (r0 & Hr0 & Hid0 & Hend).
    destruct (Hn g Hg') as (_ & Hgid & Hoff & _).
    rewrite (same_report ins r0 r) in Hend; [lia|done..|congruence].
Qed.

Lemma input_item_wf p v p' : parser_wf p -> input_item p v = Some p' -> parser_wf p'.
Proof.
  intros (Hm & Hg & Hst). pose proof Hg as (_ & Hsz & Hct & Hid). unfold input_item.
  destruct (_ || (65535 <? g_count (p_g p))) eqn:E1; [done|].
  destruct (_ && _) eqn:E2; [done|].
  set (found := match find_report _ _ with Some _ => _ | None => _ end).
  assert (forall ins i, found = Some (ins, i) ->
    map_wf (ReportMap (fields (p_out p)) ins (uses_report_ids (p_out p))) /\
    exists r, ins !! i = Some r /\ ir_report_id r = g_id (p_g p)) as Hfound.
  { intros ins i. subst found. destruct (p_out p) as [fs ins0 u]. cbn.
    destruct (find_report ins0 _) as [k|] eqn:Ef.
    - intros [= <- <-]. split; [done|]. by apply find_report_Some.
    - split_if; [done|]. intros [= <- <-]. rewrite (u8_small (g_id _)) by done.
      apply find_report_None in Ef. split; [by apply add_report|].
      eexists. split; [apply list_lookup_middle; done|done]. }
  destruct found as [[ins i]|]; [|done]. destruct (Hfound ins i eq_refl) as (Hm' & r & Er & Erid).
  rewrite nth_lookup, Er. change (default (InputReport 0 0 0 0) (Some r)) with r.
  assert (report_ok r) as (_ & Hrb & _) by by eapply (Forall_lookup_1 _ _ _ _ (mw_reports _ Hm')).
  assert (u32 (g_size (p_g p) * g_count (p_g p)) = g_size (p_g p) * g_count (p_g p)) as ->
    by (apply u32_small; unfold U32 in *; nia).
  destruct (65535 - ir_bits r <? _) eqn:E3; [done|].
  destruct (item_fields _ _ _ _ _) as [fs|] eqn:Ei; [|done]. intros [= <-].
  apply item_fields_spec in Ei as (new & -> & Hnew); [|words|done|done|].
  2:{ intros Hv. rewrite Hv in E2. unfold U32 in *. lia. }
  split; [|done]. rewrite <- Erid in Hnew.
  refine (grow_report _ _ _ i r _ _ Hm' Er Hnew _). unfold U32, U16 in *. nia.
Qed.

Lemma global_item_wf p tag v p' : parser_wf p -> U32 v -> global_item p tag v = Some p' -> parser_wf p'.
Proof.
  intros Hw Hv. pose proof Hw as (Hm & Hg & Hst). pose proof Hg as (? & ? & ? & ?). unfold global_item.
  repeat split_if; try done;
    try (intros [= <-]; split; [exact Hm|]; split; [|exact Hst]; split_and!; exact Hv || assumption).
  - intros [= <-]. split; [by destruct Hm|]. split; [|exact Hst].
    split_and!; [assumption..|]. cbn. words.
  - intros [= <-]. split; [exact Hm|]. split; [exact Hg|]. by constructor.
  - destruct (p_stack p) as [|g stack]; [done|]. intros [= <-].
    apply Forall_cons_iff in Hst as [Hg' Hst]. by split.
Qed.
Lemma local_item_wf p tag n v p' : parser_wf p -> local_item p tag n v = Some p' -> parser_wf p'.
Proof. intros Hw. unfold local_item. repeat split_if; try done; by intros [= <-]. Qed.
Lemma main_item_wf p tag v p' : parser_wf p -> main_item p tag v = Some p' -> parser_wf p'.
Proof.
  intros Hw. unfold main_item. destruct (if tag =? 10 then _ else _) as [q|] eqn:E; [|done].
  intros [= <-]. assert (parser_wf q) as Hq; [|exact Hq]. revert E.
  repeat split_if; try done; try (by intros [= <-]). by apply input_item_wf.
Qed.

Lemma unle_slice_U32 d pos n : Bytes d -> 0 <= pos -> 0 <= n <= 4 -> pos + n <= zlen d ->
  U32 (unle (slice d pos n)).
Proof.
  intros Hd Hp Hn Hl. pose proof (unle_range (slice d pos n) ltac:(auto with rbp)) as H.
  rewrite zlen_slice in H by lia. unfold U32. pose proof (Z.pow_le_mono_r 2 (8 * n) 32). lia.
Qed.
Lemma item_size b : 0 <= (let n := Z.land b 3 in if n =? 3 then 4 else n) <= 4.
Proof.
  cbv zeta. change 3 with (Z.ones 2). rewrite Z.land_ones by lia. split_if; words.
Qed.

Lemma parse_items_wf fuel : forall d pos p p', Bytes d -> 0 <= pos -> parser_wf p ->
  parse_items fuel d pos p = Some (Some p') -> parser_wf p'.
Proof.
  induction fuel as [|fuel IH]; intros d pos p p' Hd Hp Hw; cbn [parse_items]; [split_if; congruence|].
  split_if; [congruence|]. split_if; [done|]. cbv zeta.
  pose proof (item_size (znth d pos)) as Hn. cbv zeta in Hn. set (n := if _ =? 3 then 4 else _) in *.
  destruct (zlen d <? pos + 1 + n) eqn:El; [done|].
  pose proof (unle_slice_U32 d (pos + 1) n Hd ltac:(lia) Hn ltac:(lia)) as Hv.
  set (v := unle _) in *. set (tag := Z.shiftr _ 4).
  destruct (if Z.land _ 3 =? 1 then _ else _) as [q|] eqn:Eq; [|done].
  apply IH; [done|lia|]. revert Eq. repeat split_if.
  - by apply global_item_wf.
  - by apply local_item_wf.
  - by apply main_item_wf.
  - by intros [= <-].
Qed.

Lemma parse_items_enough fuel : forall d pos p, 0 <= pos -> zlen d - pos <= Z.of_nat fuel ->
  is_Some (parse_items fuel d pos p).
Proof.
  induction fuel as [|fuel IH]; intros d pos p Hp Hf; cbn [parse_items].
  - replace (pos <? zlen d) with false by lia. done.
  - split_if; [done|]. split_if; [done|]. cbv zeta.
    pose proof (item_size (znth d pos)) as Hn. cbv zeta in Hn. set (n := if _ =? 3 then 4 else _) in *.
    split_if; [done|]. destruct (if Z.land _ 3 =? 1 then _ else _) as [q|]; [|done].
    apply IH; lia.
Qed.

Lemma keep_useful_spec fs l kept : keep_useful fs l = Some kept ->
  kept = List.filter (useful fs) l /\ Forall (fun r => ir_bits r <= 512) kept.
Proof.
  revert kept. induction l as [|r l IH]; intros kept; cbn; [by intros [= <-]|].
  destruct (useful fs r).
  - split_if; [done|]. destruct (keep_useful fs l) as [k|]; [|done]. intros [= <-].
    destruct (IH k eq_refl) as [-> H]. split; [done|]. constructor; [lia|done].
  - apply IH.
Qed.

Lemma filter_map_sublist {A B} (f : A -> B) p l : map f (List.filter p l) `sublist_of` map f l.
Proof. induction l as [|x l IH]; cbn; [done|]. destruct (p x); cbn; by constructor. Qed.

Lemma keep_useful_wf m kept : map_wf m -> keep_useful (fields m) (inputs m) = Some kept ->
  map_wf (m <| inputs := kept |>).
Proof.
  intros [Hi Hr Hf Hw Hs] Hk. apply keep_useful_spec in Hk as [-> Hb]. split; cbn; try done.
  - eapply sublist_NoDup; [exact Hi|]. apply filter_map_sublist.
  - rewrite List.Forall_forall in Hr |- *. intros r Hin. apply filter_In in Hin as [Hin _]. by apply Hr.
  - rewrite list.Forall_forall in Hw |- *. intros f Hin. destruct (Hw f Hin) as (r & Hr' & Hid & He).
    exists r. split; [|done]. apply list_elem_of_In, filter_In. split; [by apply list_elem_of_In|].
    unfold useful. apply existsb_exists. exists f. split; [by apply list_elem_of_In|lia].
Qed.

(** A report map the decoder can rely on. *)
Definition map_ok (m : hogp_report_map_t) : Prop :=
  map_wf m /\ inputs m <> [] /\
  Forall (fun r => ir_bits r <= 512 /\ useful (fields m) r = true) (inputs m).

Lemma parse_finish_ok p m : map_wf (p_out p) -> parse_finish p = Some m -> map_ok m.
Proof.
  intros Hw. unfold parse_finish. split_if; [done|]. split_if; [done|].
  destruct (keep_useful _ _) as [kept|] eqn:Ek; [|done]. split_if; [done|]. intros [= <-].
  split; [by apply keep_useful_wf|]. split; [by destruct kept|].
  apply keep_useful_spec in Ek as [-> Hb]. cbn.
  rewrite List.Forall_forall in Hb |- *. intros r Hr. split; [by apply Hb|].
  by apply filter_In in Hr as [_ Hr].
Qed.

Lemma parser0_wf : parser_wf parser0.
Proof. split; [|split; [|constructor]]; [split; cbn; constructor|]. split_and!; cbn; words. Qed.

(** C33: The Report Map parser returns for every descriptor, and a map it
    accepts is sound: report ids are distinct, every report has a field and at
    most 512 bits, every field has a size and a count in range, lies within the
    bits of its report, and starts after the end of every earlier field of
    that report, so that no two fields overlap. *)
Theorem hogp_parse_sound d : Bytes d ->
  exists r, hogp_report_map_parse d = Some r /\ forall m, r = Some m -> map_ok m.
Proof.
  intros Hd. unfold hogp_report_map_parse. split_if; [by exists None|].
  destruct (parse_items_enough (length d) d 0 parser0 ltac:(lia) ltac:(unfold zlen; lia)) as [r Er].
  rewrite Er. destruct r as [p|]; [|by exists None]. eexists. split; [reflexivity|].
  intros m Hm. eapply parse_finish_ok; [|exact Hm].
  by eapply (parse_items_wf _ d 0 parser0 p Hd ltac:(lia) parser0_wf).
Qed.
Lemma hogp_parse_sound_witness :
  hogp_report_map_parse sample_map = Some (Some sample_parsed) /\ map_ok sample_parsed.
Proof.
  split; [vm_compute; reflexivity|].
  destruct (hogp_parse_sound sample_map) as (r & Er & H); [by apply (bool_decide_unpack _); vm_compute|].
  apply H. enough (Some r = Some (Some sample_parsed)) by congruence.
  rewrite <- Er. vm_compute. reflexivity.
Defined.

(** ** Bits of a report *)
Lemma unle_testbit l i : Bytes l -> 0 <= i ->
  Z.testbit (unle l) i = Z.testbit (znth l (i / 8)) (i mod 8).
Proof.
  intros Hl. revert i. induction Hl as [|b l Hb Hl IH]; intros i Hi.
  - cbn. unfold znth. rewrite Z.bits_0. destruct (Z.to_nat _); cbn; by rewrite Z.bits_0.
  - cbn [unle]. rewrite Z.lor_spec, Z.shiftl_spec by lia. destruct (decide (i < 8)) as [H|H].
    + rewrite (Z.testbit_neg_r _ (i - 8)), orb_false_r by lia.
      rewrite Z.div_small, Z.mod_small by lia. done.
    + rewrite IH by lia.
      replace (Z.testbit b i) with false.
      2:{ symmetry. rewrite <- (Z.mod_small b (2 ^ 8)) by exact Hb. apply Z.mod_pow2_bits_high. lia. }
      cbn [orb]. replace ((i - 8) mod 8) with (i mod 8) by words. unfold znth.
      replace (Z.to_nat (i / 8)) with (S (Z.to_nat ((i - 8) / 8))); [done|].
      assert (i / 8 = (i - 8) / 8 + 1) as -> by words. assert (0 <= (i - 8) / 8) by words. lia.
Qed.

Lemma read_bits_spec data bit n : forall a value,
  Bytes data -> 0 <= bit -> bit + Z.of_nat (a + n) <= 8 * zlen data ->
  value = Z.shiftr (unle data) bit mod 2 ^ Z.of_nat a ->
  read_bits data bit (map Z.of_nat (List.seq a n)) value =
    Some (Z.shiftr (unle data) bit mod 2 ^ Z.of_nat (a + n)).
Proof.
  induction n as [|n IH]; intros a value Hd Hb Hl Hv; cbn [List.seq map read_bits].
  - by rewrite Nat.add_0_r, Hv.
  - assert (0 <= (bit + Z.of_nat a) / 8 < zlen data) as Hr by words.
    destruct (data !! Z.to_nat ((bit + Z.of_nat a) / 8)) as [b|] eqn:E.
    2:{ apply lookup_ge_None in E. unfold zlen in Hr. lia. }
    apply znth_lookup in E. replace (a + S n)%nat with (S a + n)%nat in * by lia.
    apply IH; [done|done|lia|]. rewrite Hv.
    pose proof (unle_testbit data (bit + Z.of_nat a) Hd ltac:(lia)) as Ht. rewrite E in Ht.
    change 1 with (Z.ones 1). rewrite Z.land_ones by lia.
    apply Z.bits_inj'. intros i Hi. rewrite Z.lor_spec, Z.shiftl_spec by lia.
    destruct (Z.lt_trichotomy i (Z.of_nat a)) as [H|[->|H]].
    + rewrite (Z.testbit_neg_r _ (i - _)), orb_false_r by lia.
      by rewrite !Z.mod_pow2_bits_low by lia.
    + rewrite (Z.mod_pow2_bits_high _ (Z.of_nat a)) by lia. cbn [orb].
      rewrite Z.sub_diag, !Z.mod_pow2_bits_low, !Z.shiftr_spec by lia.
      rewrite (Z.add_comm (Z.of_nat a) bit), Ht. by f_equal.
    + rewrite !Z.mod_pow2_bits_high by lia. done.
Qed.
Lemma read_value_spec data bit size : Bytes data -> 0 <= bit -> 0 <= size ->
  bit + size <= 8 * zlen data ->
  read_value data bit size = Some (Z.shiftr (unle data) bit mod 2 ^ size).
Proof.
  intros Hd Hb Hs Hl. unfold read_value, below.
  rewrite read_bits_spec; [|done|done|lia|by rewrite Z.mod_1_r].
  do 3 f_equal. lia.
Qed.

(** ** What a report says *)

(** The report as one little-endian number, and element [j] of a field of it. *)
Definition value_at (data : list Z) (f : hogp_field_t) (j : Z) : Z :=
  Z.shiftr (unle data) (f_offset f + j * f_size f) mod 2 ^ f_size f.
Definition is_bad (data : list Z) (f : hogp_field_t) (j : Z) : Prop :=
  element_usage f (value_at data f j) = Bad.
(** Element [j] reports the key [k] as pressed. *)
Definition presses (data : list Z) (f : hogp_field_t) (j k : Z) : Prop :=
  0 < k < 64 /\ exists u, element_usage f (value_at data f j) = Usage u /\
    hogp_usage_to_key (f_page f) (u16 u) = k.
Definition element_of (m : hogp_report_map_t) (id : Z) (f : hogp_field_t) (j : Z) : Prop :=
  f ∈ fields m /\ f_report_id f = id /\ 0 <= j < f_count f.
Definition accepts_report (m : hogp_report_map_t) (id : Z) (data : list Z) : Prop :=
  exists r, r ∈ inputs m /\ ir_report_id r = id /\ zlen data = (ir_bits r + 7) / 8.

Lemma usage_to_key_range page u : 0 < hogp_usage_to_key page u.
Proof. unfold hogp_usage_to_key. repeat split_if; done. Qed.

Lemma press_testbit r key k : 0 < key ->
  Z.testbit (press r key) k = true <-> Z.testbit r k = true \/ (0 < k < 64 /\ key = k).
Proof.
  intros Hk. unfold press. split_if.
  - rewrite Z.lor_spec, Z.shiftl_1_l, Z.pow2_bits_eqb by lia.
    destruct (Z.testbit r k), (key =? k) eqn:Ek; cbn; intuition lia.
  - intuition lia.
Qed.

Lemma decode_elements_spec data f js : forall res,
  Bytes data -> 0 <= f_offset f -> 0 <= f_size f ->
  (forall j, j ∈ js -> 0 <= j /\ f_offset f + j * f_size f + f_size f <= 8 * zlen data) ->
  match decode_elements data f js res with
  | OutOfBounds => False
  | Refused => exists j, j ∈ js /\ is_bad data f j
  | Keys ks => (forall j, j ∈ js -> ~ is_bad data f j) /\
      forall k, Z.testbit ks k = true <->
        Z.testbit res k = true \/ exists j, j ∈ js /\ presses data f j k
  end.
Proof.
  induction js as [|j js IH]; intros res Hd Ho Hs Hj; cbn [decode_elements].
  - split; [set_solver|]. intros k. set_solver.
  - destruct (Hj j) as [Hj0 Hjl]; [set_solver|]. rewrite read_value_spec by (done || nia).
    fold (value_at data f j).
    assert (forall j, j ∈ js -> 0 <= j /\ f_offset f + j * f_size f + f_size f <= 8 * zlen data) as Hjs
      by (intros; apply Hj; set_solver).
    destruct (element_usage f (value_at data f j)) as [| |u] eqn:E; [|by exists j; split; [set_solver|]|].
    + specialize (IH res Hd Ho Hs Hjs). destruct (decode_elements data f js res); [done| |].
      * destruct IH as (j' & ? & ?). exists j'. set_solver.
      * destruct IH as [H1 H2]. split.
        -- intros j' Hj'. apply elem_of_cons in Hj' as [->|?]; [|by apply H1]. unfold is_bad. by rewrite E.
        -- intros k. rewrite H2. split; (intros [H|(j' & Hj' & Hp)]; [by left|right]).
           ++ exists j'. set_solver.
           ++ apply elem_of_cons in Hj' as [->|?]; [|by exists j'].
              destruct Hp as (_ & u & Hu & _). congruence.
    + specialize (IH (press res (hogp_usage_to_key (f_page f) (u16 u))) Hd Ho Hs Hjs).
      destruct (decode_elements data f js _); [done| |].
      * destruct IH as (j' & ? & ?). exists j'. set_solver.
      * destruct IH as [H1 H2]. split.
        -- intros j' Hj'. apply elem_of_cons in Hj' as [->|?]; [|by apply H1]. unfold is_bad. by rewrite E.
        -- intros k. rewrite H2, press_testbit by apply usage_to_key_range. split.
           ++ intros [[H|[Hk <-]]|(j' & Hj' & Hp)]; [by left|right; exists j|right; exists j'; set_solver].
              split; [set_solver|]. split; [done|]. by exists u.
           ++ intros [H|(j' & Hj' & Hp)]; [by left; left|].
              apply elem_of_cons in Hj' as [->|?]; [|by right; exists j'].
              destruct Hp as (Hk & u' & Hu & <-). left. right. split; [done|]. congruence.
Qed.

Lemma elem_of_below n j : j ∈ below n <-> 0 <= j < n.
Proof.
  unfold below. rewrite list_elem_of_In, in_map_iff. split.
  - intros (i & <- & Hi). apply in_seq in Hi. lia.
  - intros H. exists (Z.to_nat j). split; [lia|]. apply in_seq. lia.
Qed.

Lemma element_bound f j n : field_ok f -> field_end f <= n -> 0 <= j < f_count f ->
  0 <= j /\ f_offset f + j * f_size f + f_size f <= n.
Proof.
  unfold field_ok, field_end. intros (_ & Hs & _) He Hj. split; [lia|].
  pose proof (Z.mul_le_mono_nonneg_r (j + 1) (f_count f) (f_size f)). lia.
Qed.

Lemma decode_fields_spec data id fs : forall res,
  Bytes data -> Forall field_ok fs ->
  (forall f, f ∈ fs -> f_report_id f = id -> field_end f <= 8 * zlen data) ->
  match decode_fields data id fs res with
  | OutOfBounds => False
  | Refused => exists f j, f ∈ fs /\ f_report_id f = id /\ 0 <= j < f_count f /\ is_bad data f j
  | Keys ks =>
    (forall f j, f ∈ fs -> f_report_id f = id -> 0 <= j < f_count f -> ~ is_bad data f j) /\
    forall k, Z.testbit ks k = true <-> Z.testbit res k = true \/
      exists f j, f ∈ fs /\ f_report_id f = id /\ 0 <= j < f_count f /\ presses data f j k
  end.
Proof.
  induction fs as [|f fs IH]; intros res Hd Hok He; cbn [decode_fields].
  - split; [set_solver|]. intros k. set_solver.
  - apply Forall_cons_iff in Hok as [Hf Hok].
    assert (forall f, f ∈ fs -> f_report_id f = id -> field_end f <= 8 * zlen data) as He'
      by (intros; apply He; [by right|done]).
    destruct (negb _) eqn:Eid.
    + specialize (IH res Hd Hok He'). assert (f_report_id f <> id) by lia.
      destruct (decode_fields data id fs res); [done| |].
      * destruct IH as (g & j & Hg & H'). exists g, j. split; [by right|done].
      * destruct IH as [H1 H2]. split.
        -- intros g j Hg. apply elem_of_cons in Hg as [->|Hg]; [done|by apply H1].
        -- intros k. rewrite H2. split; (intros [H'|(g & j & Hg & Hi & Hr)]; [by left|right; exists g, j]).
           ++ split; [by right|done].
           ++ apply elem_of_cons in Hg as [->|Hg]; [done|done].
    + assert (f_report_id f = id) as Hid by lia.
      pose proof (He f (list_elem_of_here _ _) Hid) as Hend. pose proof Hf as (Ho & Hs & Hc).
      pose proof (decode_elements_spec data f (below (f_count f)) res Hd Ho ltac:(lia)
        (fun j Hj => element_bound f j _ Hf Hend (proj1 (elem_of_below _ _) Hj))) as H.
      destruct (decode_elements _ _ _ _) as [| |ks]; [done| |].
      * destruct H as (j & Hj & Hb). apply elem_of_below in Hj. exists f, j. split; [by left|done].
      * destruct H as [H1 H2]. specialize (IH ks Hd Hok He'). destruct (decode_fields data id fs ks) as [| |ks'];
          [done| |].
        { destruct IH as (g & j & Hg & H'). exists g, j. split; [by right|done]. }
        destruct IH as [H3 H4].
        assert (forall j, 0 <= j < f_count f -> ~ is_bad data f j) as H1'
          by (intros j Hj; apply H1; by apply elem_of_below).
        split.
        { intros g j Hg. apply elem_of_cons in Hg as [->|Hg]; [intros _; apply H1'|by apply H3]. }
        intros k. rewrite H4, H2. split.
        -- intros [[H|(j & Hj & Hp)]|(g & j & Hg & Hrest)]; [by left| |].
           ++ apply elem_of_below in Hj. right. exists f, j. split; [by left|done].
           ++ right. exists g, j. split; [by right|done].
        -- intros [H|(g & j & Hg & Hgi & Hj & Hp)]; [by left; left|].
           apply elem_of_cons in Hg as [->|Hg]; [|by right; exists g, j].
           left. right. exists j. split; [by apply elem_of_below|done].
Qed.

Lemma parse_map_ok d m : Bytes d -> hogp_report_map_parse d = Some (Some m) -> map_ok m.
Proof.
  intros Hd. unfold hogp_report_map_parse. split_if; [done|].
  destruct (parse_items _ _ _ _) as [[p|]|] eqn:Ep; try done. intros [= Hm].
  eapply parse_finish_ok; [|exact Hm].
  by eapply (parse_items_wf _ d 0 parser0 p Hd ltac:(lia) parser0_wf).
Qed.

Lemma find_report_accepts m id data : map_wf m ->
  match find_report (inputs m) id with
  | None => ~ accepts_report m id data
  | Some i => accepts_report m id data <->
      zlen data = ir_bytes (nth i (inputs m) (InputReport 0 0 0 0))
  end.
Proof.
  intros [Hi Hr _ _ _]. destruct (find_report (inputs m) id) as [i|] eqn:E.
  - apply find_report_Some in E as (r & Er & Hid). rewrite nth_lookup, Er.
    change (default (InputReport 0 0 0 0) (Some r)) with r.
    assert (r ∈ inputs m) as Hin by by eapply list_elem_of_lookup_2.
    assert (report_ok r) as (_ & _ & Hb) by by eapply Forall_lookup_1. rewrite Hb. split.
    + intros (r' & Hin' & Hid' & Hl). by rewrite (same_report _ r r' Hi Hin Hin' ltac:(congruence)).
    + intros Hl. by exists r.
  - apply find_report_None in E. intros (r & Hin & Hid & _). apply E. rewrite <- Hid.
    apply list_elem_of_fmap_2. done.
Qed.

Lemma fields_fit m id data f : map_wf m -> accepts_report m id data ->
  f ∈ fields m -> f_report_id f = id -> field_end f <= 8 * zlen data.
Proof.
  intros [Hi _ _ Hw _] (r & Hin & Hid & Hl) Hf Hfid. rewrite list.Forall_forall in Hw.
  destruct (Hw f Hf) as (r' & Hin' & Hid' & He).
  rewrite (same_report _ r' r Hi Hin' Hin ltac:(congruence)) in He. words.
Qed.

(** C19: Decoding with any accepted map never reads outside of the report,
    and gives exactly what the report says: it is refused when no report of
    that id and length is in the map or some element holds an error value;
    otherwise bit [k] of the bitmap is set if and only if an element of a field
    of that report, read as the bits of the little-endian report at the field's
    offset, holds a usage that maps to key [k] in 1..63. *)
Theorem hogp_decode_exact d m id data :
  Bytes d -> hogp_report_map_parse d = Some (Some m) -> Bytes data ->
  match hogp_decode_report m id data with
  | OutOfBounds => False
  | Refused => ~ accepts_report m id data \/ exists f j, element_of m id f j /\ is_bad data f j
  | Keys ks =>
    accepts_report m id data /\ (forall f j, element_of m id f j -> ~ is_bad data f j) /\
    forall k, Z.testbit ks k = true <-> exists f j, element_of m id f j /\ presses data f j k
  end.
Proof.
  intros Hd Hm Hb. destruct (parse_map_ok d m Hd Hm) as [Hw _]. unfold hogp_decode_report.
  pose proof (find_report_accepts m id data Hw) as Ha. destruct (find_report _ _) as [i|]; [|by left].
  destruct (negb _) eqn:En; [left; rewrite Ha; lia|].
  assert (accepts_report m id data) as Hacc by (apply Ha; lia).
  pose proof (decode_fields_spec data id (fields m) 0 Hb (mw_fields _ Hw)
    (fun f Hf Hi => fields_fit m id data f Hw Hacc Hf Hi)) as H.
  destruct (decode_fields _ _ _ _) as [| |ks]; [done| |].
  - right. destruct H as (f & j & ? & ? & ? & ?). exists f, j. by unfold element_of.
  - destruct H as [H1 H2]. split; [done|]. split; [by intros f j (? & ? & ?); apply H1|].
    intros k. rewrite H2, Z.bits_0. unfold element_of.
    split; [intros [?|(f & j & ? & ? & ? & ?)]; [done|]|intros (f & j & (? & ? & ?) & ?); right]; by exists f, j.
Qed.
Lemma hogp_decode_exact_witness :
  hogp_decode_report sample_parsed 1 [40; 0; 82; 0; 0; 0] = Keys 136 /\
  exists f j, element_of sample_parsed 1 f j /\ presses [40; 0; 82; 0; 0; 0] f j RBP_KEY_UP.
Proof.
  pose proof (hogp_decode_exact sample_map sample_parsed 1 [40; 0; 82; 0; 0; 0]) as H.
  assert (hogp_decode_report sample_parsed 1 [40; 0; 82; 0; 0; 0] = Keys 136) as E
    by (vm_compute; reflexivity).
  rewrite E in H. split; [exact E|].
  destruct H as (_ & _ & H); [by apply (bool_decide_unpack _); vm_compute|vm_compute; reflexivity
    |by apply (bool_decide_unpack _); vm_compute|]. apply H. reflexivity.
Defined.

Lemma boot_keys_spec data is_ : forall res,
  (forall i, i ∈ is_ -> 0 <= i < zlen data) ->
  match boot_keys data is_ res with
  | OutOfBounds => False
  | Refused => exists i, i ∈ is_ /\ 1 <= znth data i <= 3
  | Keys ks => (forall i, i ∈ is_ -> ~ (1 <= znth data i <= 3)) /\
      forall k, Z.testbit ks k = true <-> Z.testbit res k = true \/
        exists i, i ∈ is_ /\ 0 < k < 64 /\ hogp_usage_to_key 7 (znth data i) = k
  end.
Proof.
  induction is_ as [|i is_ IH]; intros res Hi; cbn [boot_keys].
  - split; [set_solver|]. intros k. set_solver.
  - pose proof (Hi i (list_elem_of_here _ _)) as Hi0.
    destruct (data !! Z.to_nat i) as [b|] eqn:E.
    2:{ apply lookup_ge_None in E. unfold zlen in Hi0. lia. }
    apply znth_lookup in E. destruct (_ && _) eqn:Eb.
    { exists i. split; [by left|]. rewrite E. lia. }
    specialize (IH (press res (hogp_usage_to_key 7 b)) (fun x Hx => Hi x (list_elem_of_further _ _ _ Hx))).
    destruct (boot_keys data is_ _) as [| |ks]; [done| |].
    + destruct IH as (x & Hx & H). exists x. split; [by right|done].
    + destruct IH as [H1 H2]. split.
      * intros x Hx. apply elem_of_cons in Hx as [->|Hx]; [lia|by apply H1].
      * intros k. rewrite H2, press_testbit by apply usage_to_key_range. split.
        -- intros [[H|[Hk <-]]|(x & Hx & H)]; [by left| |].
           ++ right. exists i. split; [by left|]. by rewrite E.
           ++ right. exists x. split; [by right|done].
        -- intros [H|(x & Hx & Hk & H)]; [by left; left|].
           apply elem_of_cons in Hx as [->|Hx]; [|by right; exists x].
           left. right. split; [done|]. congruence.
Qed.

(** The boot keyboard decoder stays within the report: a report of eight bytes
    with a zero reserved byte and no error code gives the keys of its six usage
    bytes, any other report is refused. *)
Theorem hogp_boot_keyboard_exact data :
  match hogp_decode_boot_keyboard data with
  | OutOfBounds => False
  | Refused => zlen data <> 8 \/ znth data 1 <> 0 \/ exists i, 2 <= i < 8 /\ 1 <= znth data i <= 3
  | Keys ks => zlen data = 8 /\ znth data 1 = 0 /\
      (forall i, 2 <= i < 8 -> ~ (1 <= znth data i <= 3)) /\
      forall k, Z.testbit ks k = true <->
        exists i, 2 <= i < 8 /\ 0 < k < 64 /\ hogp_usage_to_key 7 (znth data i) = k
  end.
Proof.
  unfold hogp_decode_boot_keyboard. destruct (_ || _) eqn:E; [lia|].
  assert (forall i, i ∈ [2; 3; 4; 5; 6; 7] <-> 2 <= i < 8) as Hi.
  { intros i. rewrite !elem_of_cons, elem_of_nil. lia. }
  pose proof (boot_keys_spec data [2; 3; 4; 5; 6; 7] 0) as H.
  assert (forall i, i ∈ [2; 3; 4; 5; 6; 7] -> 0 <= i < zlen data) as Hr
    by (intros i Hx; apply Hi in Hx; lia).
  specialize (H Hr). destruct (boot_keys _ _ _) as [| |ks]; [done| |].
  - destruct H as (i & Hx & Hb). right. right. exists i. by rewrite <- Hi.
  - destruct H as [H1 H2]. split; [lia|]. split; [lia|]. split.
    + intros i Hx. by apply H1, Hi.
    + intros k. rewrite H2, Z.bits_0. split.
      * intros [?|(i & Hx & H)]; [done|]. exists i. by rewrite <- Hi.
      * intros (i & Hx & H). right. exists i. by rewrite Hi.
Qed.
