(* ===== verification/Atvv.v ===== *)
(** * The voice engine

    rc003_atvv.c: the ATVV 1.0 control messages and the audio stream state
    machine between the remote and the server.

    The sink of the source is two classes: [Tx], [write_tx] and [want_voice],
    which only submit and ask, and [Sink], the other callbacks.  During one of
    these the server may ask the engine to stop or start, and it may drop the
    link, upon which the adapter initialises the engine anew; what a callback
    may do is the relation [reacts].  The fault records and the trace are not
    part of the model: they only observe.  A message is a list of bytes, the
    empty list standing for a NULL or empty buffer. *)
From S2P Require Import Prelude Defs Ima.

Definition ATVV_AUDIO_STOP : Z := 0x00.
Definition ATVV_AUDIO_START : Z := 0x04.
Definition ATVV_START_SEARCH : Z := 0x08.
Definition ATVV_AUDIO_SYNC : Z := 0x0A.
Definition ATVV_CAPS_RESP : Z := 0x0B.
Definition ATVV_MIC_OPEN_ERROR : Z := 0x0C.
Definition ATVV_MIC_OPEN : Z := 0x0C.
Definition ATVV_MIC_CLOSE : Z := 0x0D.
Definition ATVV_MIC_EXTEND : Z := 0x0E.
Definition ATVV_ERR_BUSY : Z := 0x0F80.
Definition ATVV_MAX_FRAME : Z := 512.
Definition ATVV_OPEN_WAIT_MS : Z := 5000.

Record atvv_caps_t := AtvvCaps {
  version_hi : Z; version_lo : Z; codecs : Z; interaction : Z; frame_size : Z; request_dle : bool }.
Record rc003_atvv_t := Atvv {
  caps_valid : bool; caps : atvv_caps_t; sample_rate : Z; announced : bool; codec_config : list Z;
  stream_active : bool; remote_stream_id : Z; frame_bytes : Z; failed : bool; closing : bool;
  open_pending : bool; open_queued : bool; close_queued : bool; last_extend_ms : Z;
  open_deadline_ms : Z; frame_no : Z; decoder_ready : bool; saw_sync : bool; last_audio_ms : Z;
  now_ms : Z; profile_init_without_sync : bool }.
#[export] Instance eta_atvv : Eta rc003_atvv_t := fun a =>
  Atvv (caps_valid a) (caps a) (sample_rate a) (announced a) (codec_config a) (stream_active a)
    (remote_stream_id a) (frame_bytes a) (failed a) (closing a) (open_pending a) (open_queued a)
    (close_queued a) (last_extend_ms a) (open_deadline_ms a) (frame_no a) (decoder_ready a)
    (saw_sync a) (last_audio_ms a) (now_ms a) (profile_init_without_sync a).

Definition rc003_atvv_init : rc003_atvv_t :=
  Atvv false (AtvvCaps 0 0 0 0 0 false) 0 false [0; 0; 0; 0] false 0 0 false false false false false
    0 0 0 false false 0 0 false.

Definition atvv_build_get_caps : list Z := [0x0A; 0x01; 0x00; 0x00; 0x03; 0x03].
Definition atvv_build_mic_open : list Z := [ATVV_MIC_OPEN; 0x01].
Definition atvv_build_mic_close (stream_id : Z) : list Z := [ATVV_MIC_CLOSE; stream_id].
Definition atvv_build_mic_extend (stream_id : Z) : list Z := [ATVV_MIC_EXTEND; stream_id].

(** A two-byte big-endian value. *)
Definition be16 (hi lo : Z) : Z := Z.lor (u16 (Z.shiftl hi 8)) lo.
Definition atvv_parse_caps (d : list Z) : option atvv_caps_t :=
  if (zlen d <? 9) || negb (znth d 0 =? ATVV_CAPS_RESP) || negb (znth d 1 =? 1) ||
     negb (znth d 2 =? 0) then None
  else
    let size := be16 (znth d 5) (znth d 6) in
    if (znth d 3 =? 0) || negb (Z.land (znth d 3) (Z.lnot 3) =? 0) ||
       (negb (znth d 4 =? 0) && negb (znth d 4 =? 1) && negb (znth d 4 =? 3)) ||
       (size =? 0) || (ATVV_MAX_FRAME <? size) || negb (Z.land (znth d 7) (Z.lnot 1) =? 0) ||
       negb (znth d 8 =? 0) then None
    else Some (AtvvCaps 1 0 (znth d 3) (znth d 4) size (negb (Z.land (znth d 7) 1 =? 0))).
Definition codec_to_rate (c : Z) : Z := if c =? 1 then 8000 else if c =? 2 then 16000 else 0.

(** ** The sink *)
Inductive sink_event :=
| Write_tx (cmd : list Z) (ok : bool)
| On_source_begin
| On_started (f : host_format_t)
| On_encoded (d : list Z)
| On_format (f : host_format_t)
| On_ended (reason : Z)
| On_fault (reason : Z)
(** not a callback: the adapter was detached *)
| Detached.
Inductive request := Stop | Start.
Record engine {W : Type} := Engine { eng : rc003_atvv_t; outside : W; events : list sink_event }.
Arguments engine W : clear implicits.
Arguments Engine {W}.
Class Tx (W : Type) := {
  write_tx : list Z -> W -> bool * W;
  want_voice : option (W -> bool * W) }.

Section engine.
Context {W : Type} `{T : Tx W}.
Implicit Types x : engine W.

Definition set (f : rc003_atvv_t -> rc003_atvv_t) x : engine W := Engine (f (eng x)) (outside x) (events x).
Definition submit (cmd : list Z) x : bool * engine W :=
  let '(ok, w) := write_tx cmd (outside x) in (ok, Engine (eng x) w (events x ++ [Write_tx cmd ok])).

Definition rc003_atvv_request_stop x : bool * engine W :=
  let a := eng x in
  if open_pending a && negb (stream_active a) then
    (true, if open_queued a then set (fun a => a <| open_queued := false |> <| open_pending := false |>) x
           else set (fun a => a <| closing := true |>) x)
  else if negb (stream_active a) then (false, x)
  else if closing a then (true, x)
  else
    let '(ok, x) := submit (atvv_build_mic_close (remote_stream_id a)) x in
    (ok, if ok then set (fun a => a <| closing := true |> <| close_queued := false |>) x
         else set (fun a =>
           (if negb (close_queued a) then a <| open_deadline_ms := u32 (now_ms a + 1000) |> else a)
             <| close_queued := true |>) x).
Definition rc003_atvv_request_start x : bool * engine W :=
  let a := eng x in
  if negb (caps_valid a) || stream_active a || open_pending a then (false, x)
  else
    match want_voice with
    | None => (false, x)
    | Some want =>
      let '(yes, w) := want (outside x) in
      let x := Engine a w (events x) in
      if negb yes then (false, x)
      else
        let '(ok, x) := submit atvv_build_mic_open x in
        (true, set (fun a => a <| open_queued := negb ok |> <| open_pending := true |> <| closing := false |>
                               <| open_deadline_ms := u32 (now_ms a + ATVV_OPEN_WAIT_MS) |>) x)
    end.

Definition obey (x : engine W) (r : request) : engine W :=
  match r with Stop => snd (rc003_atvv_request_stop x) | Start => snd (rc003_atvv_request_start x) end.
(** [rc003_atvv_init] again, as the adapter does when the link is gone. *)
Definition detach (seedless : bool) x : engine W :=
  Engine (rc003_atvv_init <| profile_init_without_sync := seedless |>) (outside x) (events x ++ [Detached]).
(** What a callback may do to the engine before it returns. *)
Inductive reacts (e : sink_event) : engine W -> engine W -> Prop :=
| reacts_done x : reacts e x x
| reacts_outside x w y : reacts e (Engine (eng x) w (events x)) y -> reacts e x y
| reacts_request x r y : reacts e (obey x r) y -> reacts e x y
| reacts_detach x b y : e <> On_source_begin -> reacts e (detach b x) y -> reacts e x y.
End engine.

(** [has_source_begin] and [has_fault]: the pointer is not NULL. *)
Class Sink (W : Type) := {
  has_source_begin : bool;
  has_fault : bool;
  react : sink_event -> engine W -> engine W }.

Section engine.
Context {W : Type} `{T : Tx W} `{K : Sink W}.
Implicit Types x : engine W.
Definition notify (e : sink_event) x : engine W := react e (Engine (eng x) (outside x) (events x ++ [e])).

Definition fault (reason : Z) x : engine W :=
  if failed (eng x) then x
  else
    let x := set (fun a => a <| failed := true |> <| decoder_ready := false |>) x in
    let x := notify (if has_fault then On_fault reason else On_ended reason) x in
    snd (rc003_atvv_request_stop x).
Definition format_of (a : rc003_atvv_t) : host_format_t :=
  HostFormat RBP_CODEC_IMA_HI (sample_rate a) ATVV_MAX_FRAME 1 4 1 (Some (codec_config a)).
Definition announce_format x : engine W :=
  let f := format_of (eng x) in
  if announced (eng x) then notify (On_format f) x
  else notify (On_started f) (set (fun a => a <| announced := true |>) x).

(** ** Control messages *)
Definition on_caps (d : list Z) x : bool * engine W :=
  if stream_active (eng x) then (false, x)
  else match atvv_parse_caps d with
       | None => (false, x)
       | Some c => (true, set (fun a => a <| caps := c |> <| caps_valid := true |>
           <| sample_rate := if negb (Z.land (codecs c) 2 =? 0) then 16000 else 8000 |>) x)
       end.
Definition start_valid (a : rc003_atvv_t) (d : list Z) : bool :=
  negb (negb (zlen d =? 4) || negb (caps_valid a) || (codec_to_rate (znth d 2) =? 0) ||
        (Z.land (codecs (caps a)) (znth d 2) =? 0) ||
        (negb (znth d 1 =? 0) && negb (znth d 1 =? 1) && negb (znth d 1 =? 3)) ||
        (if znth d 1 =? 0 then negb (znth d 3 =? 0) else (znth d 3 =? 0) || (128 <? znth d 3)) ||
        (negb (znth d 1 =? 0) && negb (znth d 1 =? interaction (caps a)))).
Definition start_stream (d : list Z) (a : rc003_atvv_t) : rc003_atvv_t :=
  a <| stream_active := true |> <| remote_stream_id := znth d 3 |> <| frame_no := 0 |>
    <| frame_bytes := 0 |> <| sample_rate := codec_to_rate (znth d 2) |> <| decoder_ready := false |>
    <| saw_sync := false |> <| failed := false |> <| closing := false |> <| open_pending := false |>
    <| open_queued := false |> <| close_queued := false |> <| last_audio_ms := now_ms a |>
    <| last_extend_ms := now_ms a |> <| announced := false |>.
Definition on_start (d : list Z) x : bool * engine W :=
  if stream_active (eng x) then (false, fault RBP_END_SOURCE_DATA_LOST x)
  else if negb (start_valid (eng x) d) then (false, x)
  else
    let stop_after_open := closing (eng x) && open_pending (eng x) in
    let x := set (start_stream d) x in
    let x := if has_source_begin then notify On_source_begin x else x in
    let x := if profile_init_without_sync (eng x)
             then announce_format (set (fun a => a <| codec_config := [0; 0; 0; 0] |>
                                                   <| decoder_ready := true |>) x)
             else x in
    (true, if stop_after_open then snd (rc003_atvv_request_stop x) else x).
Definition on_sync (d : list Z) x : bool * engine W :=
  let a := eng x in
  if negb (stream_active a) || failed a then (false, x)
  else if negb (zlen d =? 7) || (codec_to_rate (znth d 1) =? 0) ||
          (Z.land (codecs (caps a)) (znth d 1) =? 0) || (88 <? znth d 6)
  then (false, fault RBP_END_INVALID_ENCODED_DATA x)
  else if negb (be16 (znth d 2) (znth d 3) =? frame_no a) || negb (frame_bytes a =? 0)
  then (false, fault RBP_END_SOURCE_DATA_LOST x)
  else
    (true, announce_format (set (fun a =>
       a <| codec_config := [znth d 5; znth d 4; znth d 6; 0] |> <| decoder_ready := true |>
         <| saw_sync := true |> <| sample_rate := codec_to_rate (znth d 1) |>) x)).
Definition on_stop (d : list Z) x : bool * engine W :=
  if negb (zlen d =? 2) || negb (stream_active (eng x)) then (false, x)
  else
    let reason := if (znth d 1 =? 0) || (znth d 1 =? 2) || (znth d 1 =? 4)
                  then RBP_END_NORMAL else RBP_END_DEVICE_ERROR in
    let x := set (fun a => a <| stream_active := false |> <| decoder_ready := false |>
                             <| closing := false |> <| close_queued := false |>) x in
    (true, notify (On_ended reason) x).
Definition on_open_error (d : list Z) x : bool * engine W :=
  if negb (zlen d =? 3) then (false, x)
  else
    let busy := be16 (znth d 1) (znth d 2) =? ATVV_ERR_BUSY in
    if open_pending (eng x) && negb (stream_active (eng x)) then
      let x := set (fun a => a <| open_queued := false |>) x in
      if busy then (true, x)
      else
        let x := set (fun a => a <| open_pending := false |> <| closing := false |>) x in
        (true, if has_fault then notify (On_fault RBP_END_DEVICE_ERROR) x else x)
    else
      let x := set (fun a => a <| open_pending := false |> <| open_queued := false |>
                               <| closing := false |>) x in
      (true, if stream_active (eng x) && negb busy then fault RBP_END_DEVICE_ERROR x else x).
Definition rc003_atvv_on_control (d : list Z) x : bool * engine W :=
  if zlen d =? 0 then (false, x)
  else
    let op := znth d 0 in
    if op =? ATVV_CAPS_RESP then on_caps d x
    else if op =? ATVV_AUDIO_START then on_start d x
    else if op =? ATVV_AUDIO_SYNC then on_sync d x
    else if op =? ATVV_AUDIO_STOP then on_stop d x
    else if op =? ATVV_START_SEARCH then
      if zlen d =? 1 then rc003_atvv_request_start x else (false, x)
    else if op =? ATVV_MIC_OPEN_ERROR then on_open_error d x
    else (false, x).

Definition count_audio (n : Z) (a : rc003_atvv_t) : rc003_atvv_t :=
  let bytes := frame_bytes a + n in
  a <| last_audio_ms := now_ms a |> <| frame_no := u16 (frame_no a + bytes / frame_size (caps a)) |>
    <| frame_bytes := u16 (bytes mod frame_size (caps a)) |>.
Definition rc003_atvv_on_audio (d : list Z) x : engine W :=
  let a := eng x in
  if negb (stream_active a) || failed a then x
  else if (zlen d =? 0) || (ATVV_MAX_FRAME <? zlen d) || negb (caps_valid a) ||
          (frame_size (caps a) =? 0)
  then fault RBP_END_INVALID_ENCODED_DATA x
  else if negb (decoder_ready a) then fault RBP_END_INVALID_ENCODED_DATA x
  else notify (On_encoded d) (set (count_audio (zlen d)) x).

(** [(int32_t)(now - deadline) >= 0] *)
Definition due (now deadline : Z) : bool := 0 <=? s32 (now - deadline).
Definition open_expired (now : Z) x : engine W :=
  if open_pending (eng x) && due now (open_deadline_ms (eng x)) then
    let x := set (fun a => a <| open_pending := false |> <| open_queued := false |>
                             <| closing := false |>) x in
    if has_fault then notify (On_fault RBP_END_DEVICE_ERROR) x else x
  else x.
Definition tick_open (now : Z) x : engine W :=
  let x := open_expired now x in
  if open_queued (eng x) then
    let '(ok, x) := submit atvv_build_mic_open x in
    if ok then set (fun a => a <| open_queued := false |>) x else x
  else x.
Definition rc003_atvv_tick (now : Z) x : bool * engine W :=
  let x := tick_open now (set (fun a => a <| now_ms := now |>) x) in
  let a := eng x in
  if close_queued a then
    if due now (open_deadline_ms a)
    then (false, fault RBP_END_DEVICE_ERROR (set (fun a => a <| close_queued := false |>) x))
    else rc003_atvv_request_stop x
  else if failed a && stream_active a && negb (closing a) then rc003_atvv_request_stop x
  else if negb (stream_active a) || closing a || failed a then (false, x)
  else if 5000 <=? u32 (now - last_extend_ms a) then
    let '(ok, x) := submit (atvv_build_mic_extend (remote_stream_id a)) x in
    (ok, if ok then set (fun a => a <| last_extend_ms := now |>) x else x)
  else (false, x).

(** The adapter's [rc003_adapter_mic_start] queues an open for the next tick. *)
Definition queue_open (now : Z) (a : rc003_atvv_t) : rc003_atvv_t :=
  if negb (caps_valid a) || stream_active a || open_pending a || closing a || close_queued a then a
  else a <| open_pending := true |> <| open_queued := true |> <| closing := false |>
         <| open_deadline_ms := u32 (now + ATVV_OPEN_WAIT_MS) |>.

(** ** Everything that happens to the engine *)
Inductive input :=
| Control (d : list Z) | Audio (d : list Z) | Tick (now : Z) | Clock (now : Z)
| Request (r : request) | Queue (now : Z) | Unlink (seedless : bool).
Definition step (x : engine W) (i : input) : engine W :=
  match i with
  | Control d => snd (rc003_atvv_on_control d x)
  | Audio d => rc003_atvv_on_audio d x
  | Tick now => snd (rc003_atvv_tick now x)
  | Clock now => set (fun a => a <| now_ms := now |>) x
  | Request r => obey x r
  | Queue now => set (queue_open now) x
  | Unlink seedless => detach seedless x
  end.
Definition input_ok (i : input) : Prop :=
  match i with Control d | Audio d => Bytes d | _ => True end.
(** A fresh engine for a profile that starts with or without a SYNC. *)
Definition boot (seedless : bool) (w : W) : engine W :=
  Engine (rc003_atvv_init <| profile_init_without_sync := seedless |>) w [].
Definition run (seedless : bool) (w : W) (is_ : list input) : engine W :=
  fold_left step is_ (boot seedless w).
End engine.
#[export] Instance input_ok_dec i : Decision (input_ok i).
Proof. destruct i; cbn; apply _. Defined.

(** ** What the server is told

    The callbacks of one capture form a protocol: begin, then started, then
    formats and encoded data, until the end; a fault silences the capture until
    its end.  Without a capture only a failed open is reported.  Losing the link
    ends everything silently: the server knows. *)
Inductive phase := Quiet | Begun | Live | Dead.
#[export] Instance phase_eq_dec : EqDecision phase.
Proof. solve_decision. Defined.
Definition phase_of (a : rc003_atvv_t) : phase :=
  if negb (stream_active a) then Quiet
  else if failed a then Dead else if announced a then Live else Begun.
Definition allowed (q : phase) (e : sink_event) : option phase :=
  match e, q with
  | Write_tx _ _, q => Some q
  | Detached, _ => Some Quiet
  | On_source_begin, Quiet => Some Begun
  | On_started _, Begun => Some Live
  | On_format _, Live | On_encoded _, Live => Some Live
  | On_fault _, Quiet => Some Quiet
  | On_fault _, (Begun | Live) => Some Dead
  | On_ended _, (Begun | Live | Dead) => Some Quiet
  | _, _ => None
  end.
Definition protocol (es : list sink_event) : option phase :=
  fold_left (fun q e => q ≫= fun q => allowed q e) es (Some Quiet).
(** The encoded bytes handed over since the capture began. *)
Definition streamed (es : list sink_event) : Z :=
  fold_left (fun n e =>
    match e with On_source_begin => 0 | On_encoded d => n + zlen d | _ => n end) es 0.
(** The host decoder accepts a format. *)
Definition decodable (f : host_format_t) : Prop :=
  exists config, hf_config f = Some config /\ length config = 4%nat /\ Bytes config /\
    fst (rbp_decoder_init (Some sample_decoder) SIZEOF_DECODER (Some f)) = RBP_DECODE_OK.
Definition event_ok (e : sink_event) : Prop :=
  match e with On_started f | On_format f => decodable f | On_encoded d => 0 < zlen d <= ATVV_MAX_FRAME | _ => True end.

(** ** The invariant of the engine *)
Definition config_ok (c : list Z) : Prop :=
  length c = 4%nat /\ Bytes c /\ znth c 2 <= 88 /\ znth c 3 = 0.
#[export] Instance config_ok_dec c : Decision (config_ok c).
Proof. unfold config_ok. apply _. Defined.
Record atvv_wf (a : rc003_atvv_t) : Prop := {
  aw_caps : caps_valid a = true -> 0 < frame_size (caps a) <= ATVV_MAX_FRAME;
  aw_active : stream_active a = true -> caps_valid a = true;
  aw_rate : stream_active a = true -> sample_rate a = 8000 \/ sample_rate a = 16000;
  aw_config : config_ok (codec_config a);
  aw_pending : open_pending a = true -> stream_active a = false;
  aw_queued : open_queued a = true -> open_pending a = true /\ closing a = false;
  aw_close : close_queued a = true -> stream_active a = true /\ closing a = false;
  aw_closing : closing a = true -> stream_active a = true \/ open_pending a = true;
  aw_ready : decoder_ready a = true -> stream_active a = true /\ failed a = false /\ announced a = true }.
Definition counted (a : rc003_atvv_t) (es : list sink_event) : Prop :=
  stream_active a = true ->
  0 <= streamed es /\
  frame_bytes a = streamed es mod frame_size (caps a) /\
  frame_no a = (streamed es / frame_size (caps a)) mod 65536.
Definition inv (a : rc003_atvv_t) (es : list sink_event) : Prop :=
  atvv_wf a /\ protocol es = Some (phase_of a) /\ Forall event_ok es /\ counted a es.

(** All callbacks of the sink are set, as the adapter does, and do no more
    than they may. *)
Class Wired W (T : Tx W) (K : Sink W) := {
  wired_begin : has_source_begin = true; wired_fault : has_fault = true;
  wired_reacts e x : reacts e x (react e x) }.

Lemma protocol_snoc es e : protocol (es ++ [e]) = protocol es ≫= fun q => allowed q e.
Proof. unfold protocol. by rewrite fold_left_app. Qed.
Lemma streamed_snoc es e : streamed (es ++ [e]) =
  match e with On_source_begin => 0 | On_encoded d => streamed es + zlen d | _ => streamed es end.
Proof. unfold streamed. by rewrite fold_left_app. Qed.

(** One more event: the protocol allows it and the engine is in the phase after it. *)
Lemma inv_snoc a b es e :
  protocol es = Some (phase_of b) -> Forall event_ok es -> event_ok e ->
  atvv_wf a -> allowed (phase_of b) e = Some (phase_of a) -> counted a (es ++ [e]) -> inv a (es ++ [e]).
Proof.
  intros Hp Hf He Ha Hs Hc. split; [done|]. rewrite protocol_snoc, Hp. split; [done|].
  split; [|done]. apply Forall_app. by split; [|constructor].
Qed.

Ltac bools :=
  repeat match goal with
  | H : _ && _ = true |- _ => apply andb_true_iff in H as [? ?]
  | H : _ || _ = false |- _ => apply orb_false_iff in H as [? ?]
  | H : negb _ = true |- _ => apply negb_true_iff in H
  | H : negb _ = false |- _ => apply negb_false_iff in H
  end.
Ltac crush_wf :=
  bools;
  match goal with H : atvv_wf _ |- _ => destruct H end;
  split; cbn in *; intros; try done; intuition congruence.

Section proofs.
Context {W : Type} `{T : Tx W} `{K : Sink W} `{!Wired W T K}.
Implicit Types x : engine W.

(** The changes of a request leave the phase and the count alone. *)
Lemma inv_calm a a' es :
  inv a es -> atvv_wf a' -> phase_of a' = phase_of a ->
  stream_active a' = stream_active a -> frame_bytes a' = frame_bytes a -> frame_no a' = frame_no a ->
  caps a' = caps a -> inv a' es.
Proof.
  intros (_ & Hp & Hf & Hc) Hw Ep Es Eb En Ec. split; [done|]. split; [congruence|]. split; [done|].
  unfold counted in *. by rewrite Es, Eb, En, Ec.
Qed.
Lemma inv_write a es cmd ok : inv a es -> inv a (es ++ [Write_tx cmd ok]).
Proof.
  intros (Hw & Hp & Hf & Hc). apply (inv_snoc a a); try done. unfold counted. by rewrite streamed_snoc.
Qed.

Lemma submit_eng cmd x ok x' : submit cmd x = (ok, x') ->
  eng x' = eng x /\ events x' = events x ++ [Write_tx cmd ok].
Proof. unfold submit. destruct (write_tx cmd (outside x)). by intros [= <- <-]. Qed.

Lemma inv_request_stop x : inv (eng x) (events x) ->
  let y := snd (rc003_atvv_request_stop x) in
  inv (eng y) (events y) /\ phase_of (eng y) = phase_of (eng x).
Proof.
  intros Hi. pose proof Hi as (Hw & _). unfold rc003_atvv_request_stop.
  destruct (open_pending (eng x) && _) eqn:E1; cbn [snd].
  { destruct (open_queued (eng x)) eqn:E2; cbn; (split; [|done]);
      (apply (inv_calm (eng x)); try done); crush_wf. }
  destruct (stream_active (eng x)) eqn:Es; cbn; [|done]. destruct (closing (eng x)) eqn:Ec; [done|].
  destruct (submit _ x) as [ok y] eqn:Ey. destruct (submit_eng _ _ _ _ Ey) as [Ee Ev]. cbn [snd].
  assert (inv (eng y) (events y)) as Hy by (rewrite Ee, Ev; by apply inv_write).
  rewrite <- Ee. destruct ok; cbn; [|destruct (close_queued (eng y))]; cbn; (split; [|done]);
    (apply (inv_calm (eng y)); try done); pose proof Hy as (Hw' & _); rewrite <- Ee in *; crush_wf.
Qed.

Lemma inv_request_start x : inv (eng x) (events x) ->
  let y := snd (rc003_atvv_request_start x) in
  inv (eng y) (events y) /\ phase_of (eng y) = phase_of (eng x).
Proof.
  intros Hi. unfold rc003_atvv_request_start. destruct (_ || open_pending (eng x)) eqn:E1; [done|].
  destruct want_voice as [want|]; [|done]. destruct (want (outside x)) as [yes w].
  destruct yes; cbn [negb]; [|done].
  destruct (submit _ (Engine (eng x) w (events x))) as [ok y] eqn:Ey.
  destruct (submit_eng _ _ _ _ Ey) as [Ee Ev]. cbn in Ee, Ev.
  assert (inv (eng y) (events y)) as Hy by (rewrite Ee, Ev; by apply inv_write).
  cbn. split; [|by rewrite Ee]. apply (inv_calm (eng y)); try done.
  pose proof Hy as (Hw & _). rewrite <- Ee in *. crush_wf.
Qed.

Lemma inv_obey x r : inv (eng x) (events x) ->
  inv (eng (obey x r)) (events (obey x r)) /\ phase_of (eng (obey x r)) = phase_of (eng x).
Proof. destruct r; [apply inv_request_stop|apply inv_request_start]. Qed.

Lemma inv_detach b x : inv (eng x) (events x) -> inv (eng (detach b x)) (events (detach b x)).
Proof.
  intros (_ & Hp & Hf & _). apply (inv_snoc _ (eng x)); try done.
  split; cbn; try done. by apply (bool_decide_unpack _); vm_compute.
Qed.
(** A callback: the invariant of the engine with the event in the log is kept
    by whatever the server does. *)
Lemma inv_reacts e x y : reacts e x y -> inv (eng x) (events x) ->
  inv (eng y) (events y) /\ (e = On_source_begin -> phase_of (eng y) = phase_of (eng x)).
Proof.
  induction 1 as [x|x w y _ IH|x r y _ IH|x b y Hn _ IH]; intros Hi; [done|by apply IH| |].
  - destruct (inv_obey x r Hi) as [H1 H2]. destruct (IH H1) as [H3 H4]. split; [done|]. intros E. by rewrite H4.
  - destruct (IH (inv_detach b x Hi)) as [H3 _]. done.
Qed.
Lemma inv_notify e x : inv (eng x) (events x ++ [e]) ->
  inv (eng (notify e x)) (events (notify e x)) /\
  (e = On_source_begin -> phase_of (eng (notify e x)) = phase_of (eng x)).
Proof. intros Hi. by apply (inv_reacts e _ _ (wired_reacts e (Engine (eng x) (outside x) (events x ++ [e])))). Qed.

Lemma inv_fault r x : inv (eng x) (events x) -> stream_active (eng x) = true ->
  inv (eng (fault r x)) (events (fault r x)).
Proof.
  intros Hi Ha. unfold fault. destruct (failed (eng x)) eqn:Ef; [done|]. rewrite wired_fault.
  apply inv_request_stop, inv_notify. destruct Hi as (Hw & Hp & Hf & Hc). cbn.
  apply (inv_snoc _ (eng x)); [done..|crush_wf| |].
  - unfold phase_of. cbn. rewrite Ha, Ef. by destruct (announced (eng x)).
  - unfold counted. by rewrite streamed_snoc.
Qed.

Lemma format_decodable a : atvv_wf a -> stream_active a = true -> decodable (format_of a).
Proof.
  intros Hw Ha. exists (codec_config a). destruct (aw_config a Hw) as (Hl & Hb & H2 & H3).
  split; [done|]. split; [done|]. split; [done|].
  unfold rbp_decoder_init, format_of. cbn [hf_config hf_codec_id hf_codec_revision hf_channels
    hf_sample_rate hf_config_len hf_max_unit_bytes]. rewrite H3.
  replace (88 <? znth (codec_config a) 2) with false by lia.
  by destruct (aw_rate a Hw Ha) as [-> | ->].
Qed.

Lemma inv_announce x :
  let a := eng x <| announced := true |> in
  stream_active (eng x) = true -> failed (eng x) = false -> atvv_wf a ->
  protocol (events x) = Some (if announced (eng x) then Live else Begun) ->
  Forall event_ok (events x) -> counted (eng x) (events x) ->
  inv (eng (announce_format x)) (events (announce_format x)).
Proof.
  intros a Ha Hf Hw Hp He Hc. unfold announce_format.
  assert (decodable (format_of (eng x))) as Hd by exact (format_decodable a Hw Ha).
  destruct (announced (eng x)) eqn:En; apply inv_notify.
  - assert (a = eng x) as <- by (subst a; by destruct (eng x); cbn in *; subst).
    apply (inv_snoc a a); try done.
    + unfold phase_of. cbn. by rewrite Ha, Hf.
    + unfold phase_of. cbn. by rewrite Ha, Hf.
    + unfold counted. by rewrite streamed_snoc.
  - fold a. apply (inv_snoc a (eng x)); try done.
    + unfold phase_of. by rewrite Ha, Hf, En.
    + unfold phase_of. cbn. by rewrite Ha, Hf, En.
    + unfold counted. by rewrite streamed_snoc.
Qed.

(** ** Control messages, audio and time keep the invariant *)
Lemma be16_range hi lo : Byte hi -> Byte lo -> U16 (be16 hi lo).
Proof.
  intros Hh Hl. unfold be16. rewrite Z.lor_comm. rewrite Z.shiftl_mul_pow2 by lia.
  rewrite u16_small by words. rewrite <- Z.shiftl_mul_pow2 by lia.
  rewrite lor_shiftl_add by (lia || done). words.
Qed.
Lemma atvv_parse_caps_ok d c : Bytes d -> atvv_parse_caps d = Some c -> 0 < frame_size c <= ATVV_MAX_FRAME.
Proof.
  intros Hd. unfold atvv_parse_caps. split_if; [done|]. split_if; [done|]. intros [= <-]. cbn.
  pose proof (be16_range (znth d 5) (znth d 6) ltac:(auto with rbp) ltac:(auto with rbp)).
  unfold U16 in *. lia.
Qed.
Lemma rate_ok c : codec_to_rate c <> 0 -> codec_to_rate c = 8000 \/ codec_to_rate c = 16000.
Proof. unfold codec_to_rate. repeat split_if; lia. Qed.

Lemma inv_caps d x : Bytes d -> inv (eng x) (events x) ->
  inv (eng (snd (on_caps d x))) (events (snd (on_caps d x))).
Proof.
  intros Hd Hi. unfold on_caps. destruct (stream_active (eng x)) eqn:Ha; [done|].
  destruct (atvv_parse_caps d) as [c|] eqn:Ec; [|done]. apply atvv_parse_caps_ok in Ec; [|done].
  destruct Hi as (Hw & Hp & Hf & Hc). cbn. split; [crush_wf|]. split; [|split; [done|]].
  - rewrite Hp. unfold phase_of. cbn. by rewrite Ha.
  - unfold counted. cbn. congruence.
Qed.

(** A capture that has just begun. *)
Lemma inv_begin d x w es (b : engine W) : start_valid (eng x) d = true -> atvv_wf (eng x) ->
  protocol es = Some Quiet -> Forall event_ok es ->
  b = Engine (start_stream d (eng x)) w es -> inv (eng b) (events b ++ [On_source_begin]).
Proof.
  intros Hv Hw Hp Hf ->. unfold start_valid in Hv. apply negb_true_iff in Hv. bools.
  pose proof (rate_ok (znth d 2) ltac:(lia)) as Hr. cbn [eng events].
  split; [|split; [|split]].
  - crush_wf.
  - by rewrite protocol_snoc, Hp.
  - apply Forall_app. by split; [|constructor].
  - unfold counted. cbn. rewrite streamed_snoc, Z.mod_0_l, Z.div_0_l, Z.mod_0_l by
      (pose proof (aw_caps _ Hw); done || lia). done.
Qed.

Lemma inv_start d x : inv (eng x) (events x) ->
  inv (eng (snd (on_start d x))) (events (snd (on_start d x))).
Proof.
  intros Hi. unfold on_start. destruct (stream_active (eng x)) eqn:Ha; [by apply inv_fault|].
  destruct (start_valid (eng x) d) eqn:Hv; cbn [negb snd]; [|done]. rewrite wired_begin.
  assert (forall y, inv (eng y) (events y) -> inv (eng (if closing (eng x) && open_pending (eng x)
    then snd (rc003_atvv_request_stop y) else y)) (events (if closing (eng x) && open_pending (eng x)
    then snd (rc003_atvv_request_stop y) else y))) as Hstop
    by (intros y Hy; split_if; [by apply inv_request_stop|done]).
  destruct Hi as (Hw & Hp & Hf & _). unfold phase_of in Hp. rewrite Ha in Hp.
  pose proof (inv_begin d x (outside x) (events x) _ Hv Hw Hp Hf eq_refl) as Hb.
  apply (inv_notify On_source_begin (set (start_stream d) x)) in Hb as [Hb Eb]. specialize (Eb eq_refl).
  set (y := notify _ _) in *. apply Hstop. destruct (profile_init_without_sync (eng y)); [|done].
  assert (phase_of (eng y) = Begun) as Ey by by rewrite Eb.
  assert (stream_active (eng y) = true /\ failed (eng y) = false /\ announced (eng y) = false) as (Hsa & Hfa & Hna).
  { revert Ey. unfold phase_of. by destruct (stream_active (eng y)), (failed (eng y)), (announced (eng y)). }
  destruct Hb as (Hwy & Hpy & Hfy & Hcy). apply inv_announce; try done.
  - assert (config_ok [0; 0; 0; 0]) as Hcfg by (by apply (bool_decide_unpack _); vm_compute).
    unfold config_ok in Hcfg. cbn. set (cfg := [0; 0; 0; 0]) in *. clearbody cfg. crush_wf.
  - etransitivity; [exact Hpy|]. rewrite Ey. cbn. by rewrite Hna.
Qed.

Lemma inv_sync d x : Bytes d -> inv (eng x) (events x) ->
  inv (eng (snd (on_sync d x))) (events (snd (on_sync d x))).
Proof.
  intros Hd Hi. unfold on_sync. destruct (_ || failed (eng x)) eqn:E0; [done|]. bools.
  split_if; [by apply inv_fault|]. split_if; [by apply inv_fault|]. cbn [snd]. bools.
  pose proof (rate_ok (znth d 1) ltac:(lia)) as Hr.
  destruct Hi as (Hw & Hp & Hf & Hc). apply inv_announce; try done.
  - assert (config_ok [znth d 5; znth d 4; znth d 6; 0]) as Hcfg.
    { split; [done|]. split; [|split; [change (znth d 6 <= 88); lia|done]].
      repeat (apply List.Forall_cons; [first [by auto with rbp|words]|]). constructor. }
    unfold config_ok in Hcfg. cbn. set (cfg := [znth d 5; _; _; _]) in *. clearbody cfg. crush_wf.
  - etransitivity; [exact Hp|]. unfold phase_of. rewrite H, H0. by destruct (announced (eng x)) eqn:En; cbn; rewrite En.
Qed.

Lemma inv_stop d x : inv (eng x) (events x) ->
  inv (eng (snd (on_stop d x))) (events (snd (on_stop d x))).
Proof.
  intros (Hw & Hp & Hf & Hc). unfold on_stop. destruct (_ || _) eqn:E0; [done|]. bools.
  apply inv_notify. apply (inv_snoc _ (eng x)); try done.
  - cbn. crush_wf.
  - unfold phase_of. cbn. rewrite H0. by destruct (failed (eng x)), (announced (eng x)).
Qed.

Lemma inv_open_failed x : inv (eng x) (events x) -> stream_active (eng x) = false ->
  let y := set (fun a => a <| open_pending := false |> <| open_queued := false |> <| closing := false |>) x in
  inv (eng y) (events y ++ [On_fault RBP_END_DEVICE_ERROR]).
Proof.
  intros (Hw & Hp & Hf & Hc) Ha y. subst y. cbn. apply (inv_snoc _ (eng x)); try done.
  - crush_wf.
  - unfold phase_of. cbn. by rewrite Ha.
  - unfold counted. cbn. congruence.
Qed.

Lemma inv_open_error d x : inv (eng x) (events x) ->
  inv (eng (snd (on_open_error d x))) (events (snd (on_open_error d x))).
Proof.
  intros Hi. pose proof Hi as (Hw & _). unfold on_open_error. split_if; [done|].
  destruct (open_pending (eng x) && _) eqn:E1; cbn [snd].
  - destruct (_ =? ATVV_ERR_BUSY); cbn [snd].
    + apply (inv_calm (eng x)); try done. cbn. crush_wf.
    + rewrite wired_fault. apply inv_notify. bools.
      refine (inv_calm _ _ _ (inv_open_failed x Hi ltac:(done)) _ _ _ _ _ _); try done. cbn. crush_wf.
  - match goal with |- context [set ?f x] => set (y := set f x) end.
    assert (inv (eng y) (events y)) as Hy.
    { apply (inv_calm (eng x)); try done. cbn. crush_wf. }
    clearbody y. split_if; [|done]. bools. by apply inv_fault.
Qed.

Lemma inv_control d x : Bytes d -> inv (eng x) (events x) ->
  inv (eng (snd (rc003_atvv_on_control d x))) (events (snd (rc003_atvv_on_control d x))).
Proof.
  intros Hd Hi. unfold rc003_atvv_on_control. split_if; [done|].
  split_if; [by apply inv_caps|]. split_if; [by apply inv_start|]. split_if; [by apply inv_sync|].
  split_if; [by apply inv_stop|]. split_if; [split_if; [by apply inv_request_start|done]|].
  split_if; [by apply inv_open_error|done].
Qed.

(** A fragment of [n] bytes: the frame counter follows the byte count. *)
Lemma count_step fs n total : 0 < fs -> 0 <= total -> 0 <= n ->
  ((total / fs) mod 65536 + (total mod fs + n) / fs) mod 65536 = ((total + n) / fs) mod 65536 /\
  (total mod fs + n) mod fs = (total + n) mod fs.
Proof.
  intros Hf Ht Hn.
  assert ((total + n) / fs = total / fs + (total mod fs + n) / fs) as ->.
  { rewrite (Z.div_mod total fs) at 1 by lia.
    replace (fs * (total / fs) + total mod fs + n) with (total mod fs + n + total / fs * fs) by lia.
    rewrite Z.div_add by lia. lia. }
  split; [by rewrite Zplus_mod_idemp_l|]. by rewrite Zplus_mod_idemp_l.
Qed.

Lemma inv_audio d x : inv (eng x) (events x) ->
  inv (eng (rc003_atvv_on_audio d x)) (events (rc003_atvv_on_audio d x)).
Proof.
  intros Hi. unfold rc003_atvv_on_audio. destruct (_ || failed (eng x)) eqn:E0; [done|]. bools.
  destruct (_ || (_ =? 0)) eqn:E1; [by apply inv_fault|]. bools.
  destruct (decoder_ready (eng x)) eqn:Er; [|by apply inv_fault]. cbn [negb].
  destruct Hi as (Hw & Hp & Hf & Hc). destruct (aw_ready _ Hw Er) as (Hs & _ & Hn).
  pose proof (aw_caps _ Hw ltac:(done)) as Hfs. pose proof (zlen_nonneg d).
  destruct (Hc Hs) as (Hs0 & Hb & Hno).
  pose proof (count_step (frame_size (caps (eng x))) (zlen d) (streamed (events x)) ltac:(lia) Hs0 ltac:(lia)) as [C1 C2].
  apply inv_notify. apply (inv_snoc _ (eng x)); try done.
  - cbn. lia.
  - cbn. crush_wf.
  - unfold phase_of. cbn. by rewrite Hs, H0, Hn.
  - intros _. change (events (set (count_audio (zlen d)) x)) with (events x). rewrite streamed_snoc.
    change (caps (eng (set (count_audio (zlen d)) x))) with (caps (eng x)). cbv beta iota.
    split; [lia|].
    change (frame_bytes (eng (set (count_audio (zlen d)) x))) with
      (u16 ((frame_bytes (eng x) + zlen d) mod frame_size (caps (eng x)))).
    change (frame_no (eng (set (count_audio (zlen d)) x))) with
      (u16 (frame_no (eng x) + (frame_bytes (eng x) + zlen d) / frame_size (caps (eng x)))).
    rewrite Hb, Hno. split.
    + rewrite C2. apply u16_small. unfold ATVV_MAX_FRAME in *.
      pose proof (Z.mod_pos_bound (streamed (events x) + zlen d) (frame_size (caps (eng x)))). words.
    + exact C1.
Qed.

Lemma inv_tick_open now x : inv (eng x) (events x) ->
  inv (eng (tick_open now x)) (events (tick_open now x)).
Proof.
  intros Hi. unfold tick_open.
  assert (inv (eng (open_expired now x)) (events (open_expired now x))) as Hy.
  { unfold open_expired. destruct (_ && _) eqn:E; [|done]. bools. rewrite wired_fault. apply inv_notify.
    apply inv_open_failed; [done|]. destruct Hi as (Hw & _). by apply (aw_pending _ Hw). }
  set (y := open_expired now x) in *. clearbody y. cbv zeta. destruct (open_queued (eng y)) eqn:Eq; [|done].
  destruct (submit _ y) as [ok z] eqn:Ez. destruct (submit_eng _ _ _ _ Ez) as [Ee Ev].
  assert (inv (eng z) (events z)) as Hz by (rewrite Ee, Ev; by apply inv_write).
  destruct ok; [|done]. apply (inv_calm (eng z)); try done. pose proof Hz as (Hw & _). cbn. crush_wf.
Qed.

Lemma inv_tick now x : inv (eng x) (events x) ->
  inv (eng (snd (rc003_atvv_tick now x))) (events (snd (rc003_atvv_tick now x))).
Proof.
  intros Hi. unfold rc003_atvv_tick.
  match goal with |- context [tick_open now ?e] => assert (inv (eng e) (events e)) as Hy end.
  { destruct Hi as (Hw & Hp & Hf & Hc). split; [cbn; crush_wf|]. exact (conj Hp (conj Hf Hc)). }
  pose proof (inv_tick_open now _ Hy) as Ht. clear Hy. rename Ht into Hy.
  set (y := tick_open now _) in *. clearbody y. cbv zeta.
  pose proof Hy as (Hw & _). destruct (close_queued (eng y)) eqn:Ec.
  - destruct (aw_close _ Hw Ec) as [Hs Hcl]. split_if; cbn [snd]; [|by apply inv_request_stop].
    apply inv_fault; [|exact Hs]. apply (inv_calm (eng y)); try done. cbn. crush_wf.
  - split_if; [by apply inv_request_stop|]. split_if; [done|]. split_if; [|done].
    destruct (submit _ y) as [ok z] eqn:Ez. destruct (submit_eng _ _ _ _ Ez) as [Ee Ev].
    assert (inv (eng z) (events z)) as Hz by (rewrite Ee, Ev; by apply inv_write).
    destruct ok; [|done]. apply (inv_calm (eng z)); try done. destruct Hz as (Hwz & _). cbn. crush_wf.
Qed.

Lemma inv_step x i : input_ok i -> inv (eng x) (events x) ->
  inv (eng (step x i)) (events (step x i)).
Proof.
  intros Hok Hi. destruct i as [d|d|now|now|r|now|b]; cbn [step].
  - by apply inv_control.
  - by apply inv_audio.
  - by apply inv_tick.
  - destruct Hi as (Hw & Hp & Hf & Hc). split; [cbn; crush_wf|]. exact (conj Hp (conj Hf Hc)).
  - by apply inv_obey.
  - pose proof Hi as (Hw & _). cbn. unfold queue_open. destruct (_ || _) eqn:E; [done|].
    apply (inv_calm (eng x)); try done. crush_wf.
  - by apply inv_detach.
Qed.

Lemma inv_run seedless w is_ : Forall input_ok is_ ->
  let x := run seedless w is_ in inv (eng x) (events x).
Proof.
  assert (forall x : engine W, inv (eng x) (events x) -> Forall input_ok is_ ->
    inv (eng (fold_left step is_ x)) (events (fold_left step is_ x))) as H.
  { induction is_ as [|i is_ IH]; intros x Hx Hok; [done|].
    apply Forall_cons_iff in Hok as [Hi Hok]. apply IH; [by apply inv_step|done]. }
  intros Hok. apply H; [|done]. split; [|split; [done|split; [constructor|done]]].
  split; cbn; try done. by apply (bool_decide_unpack _); vm_compute.
Qed.
End proofs.

(** ** What the engine leaves alone

    Outside of the engine only the writes, the questions and the callbacks act:
    what they keep, the engine keeps. *)
Section outside_kept.
Context {W : Type} `{T : Tx W} `{K : Sink W} (P : W -> Prop).
Hypothesis write_kept : forall cmd w, P w -> P (snd (write_tx cmd w)).
Hypothesis want_kept : forall f w, want_voice = Some f -> P w -> P (snd (f w)).
Hypothesis react_kept : forall e x, P (outside x) -> P (outside (react e x)).
#[local] Abbreviation Q x := (P (outside x)).

Lemma notify_kept e (x : engine W) : Q x -> Q (notify e x).
Proof. intros Hx. by apply react_kept. Qed.
Lemma submit_kept cmd (x : engine W) : Q x -> Q (snd (submit cmd x)).
Proof.
  intros Hx. unfold submit. pose proof (write_kept cmd _ Hx) as Hw. by destruct (write_tx cmd (outside x)).
Qed.
Lemma request_stop_kept (x : engine W) : Q x -> Q (snd (rc003_atvv_request_stop x)).
Proof.
  intros Hx. unfold rc003_atvv_request_stop. repeat (split_if; [by repeat split_if|]).
  match goal with |- context [submit ?c x] => pose proof (submit_kept c x Hx); destruct (submit c x) as [ok y] end.
  by destruct ok.
Qed.
Lemma request_start_kept (x : engine W) : Q x -> Q (snd (rc003_atvv_request_start x)).
Proof.
  intros Hx. unfold rc003_atvv_request_start. split_if; [done|]. destruct want_voice as [want|] eqn:Ew; [|done].
  pose proof (want_kept want _ eq_refl Hx) as Hw. destruct (want (outside x)) as [yes w]. cbn [snd] in Hw. split_if; [done|].
  match goal with |- context [submit ?c ?y] => pose proof (submit_kept c y Hw); by destruct (submit c y) end.
Qed.
Lemma fault_kept r (x : engine W) : Q x -> Q (fault r x).
Proof. intros Hx. unfold fault. split_if; [done|]. by apply request_stop_kept, notify_kept. Qed.
Lemma announce_kept (x : engine W) : Q x -> Q (announce_format x).
Proof. intros Hx. unfold announce_format. by split_if; apply notify_kept. Qed.
Lemma control_kept d (x : engine W) : Q x -> Q (snd (rc003_atvv_on_control d x)).
Proof.
  intros Hx. unfold rc003_atvv_on_control. split_if; [done|].
  split_if; [unfold on_caps; split_if; [done|]; by destruct (atvv_parse_caps d)|].
  split_if.
  { unfold on_start. split_if; [by apply fault_kept|]. split_if; [done|]. cbn [snd].
    assert (forall y, Q y -> Q (if closing (eng x) && open_pending (eng x)
      then snd (rc003_atvv_request_stop y) else y)) as Hs by (intros y Hy; split_if; [by apply request_stop_kept|done]).
    apply Hs. assert (Q (if has_source_begin then notify On_source_begin (set (start_stream d) x)
      else set (start_stream d) x)) as Hn by (split_if; [by apply notify_kept|done]).
    split_if; [by apply announce_kept|done]. }
  split_if.
  { unfold on_sync. split_if; [done|]. split_if; [by apply fault_kept|]. split_if; [by apply fault_kept|].
    by apply announce_kept. }
  split_if; [unfold on_stop; split_if; [done|]; by apply notify_kept|].
  split_if; [split_if; [by apply request_start_kept|done]|]. split_if; [|done].
  unfold on_open_error. split_if; [done|]. split_if.
  - split_if; [done|]. cbn [snd]. split_if; [by apply notify_kept|done].
  - cbn [snd]. split_if; [by apply fault_kept|done].
Qed.
Lemma audio_kept d (x : engine W) : Q x -> Q (rc003_atvv_on_audio d x).
Proof.
  intros Hx. unfold rc003_atvv_on_audio. split_if; [done|]. split_if; [by apply fault_kept|].
  split_if; [by apply fault_kept|]. by apply notify_kept.
Qed.
Lemma tick_kept now (x : engine W) : Q x -> Q (snd (rc003_atvv_tick now x)).
Proof.
  intros Hx. unfold rc003_atvv_tick.
  match goal with |- context [tick_open now ?e] => assert (Q (tick_open now e)) as Hy end.
  { unfold tick_open.
    match goal with |- context [open_expired now ?e] => assert (Q (open_expired now e)) as Hy
      by (unfold open_expired; split_if; [split_if; [by apply notify_kept|done]|done]);
      generalize dependent (open_expired now e) end.
    intros y Hy. split_if; [|done].
    match goal with |- context [submit ?c ?z] => pose proof (submit_kept c z Hy); destruct (submit c z) as [ok v] end.
    by destruct ok. }
  match goal with |- context [tick_open now ?e] => generalize dependent (tick_open now e) end.
  intros y Hy. split_if; [split_if; [by apply fault_kept|by apply request_stop_kept]|].
  split_if; [by apply request_stop_kept|]. split_if; [done|]. split_if; [|done].
  match goal with |- context [submit ?c ?z] => pose proof (submit_kept c z Hy); destruct (submit c z) as [ok v] end.
  by destruct ok.
Qed.
End outside_kept.

(** A sink for the witnesses: the write queue is full every other time, the
    server stops a capture as soon as it has started and drops the link on a
    fault. *)
#[export] Instance busy_tx : Tx bool := {
  write_tx _ full := (negb full, negb full);
  want_voice := Some (fun w => (true, w)) }.
#[export] Instance busy_sink : Sink bool := {
  has_source_begin := true;
  has_fault := true;
  react e x := match e with
    | On_started _ => obey (obey x Stop) Start
    | On_fault _ => detach false x
    | _ => x
    end }.
#[export] Instance busy_sink_wired : Wired bool busy_tx busy_sink.
Proof.
  split; [done..|]. intros [] x; cbn [react busy_sink]; try apply reacts_done.
  - apply (reacts_request _ x Stop), (reacts_request _ _ Start), reacts_done.
  - eapply reacts_detach, reacts_done. done.
Qed.
Definition sample_inputs : list input :=
  [Control [11; 1; 0; 3; 3; 0; 4; 0; 0]; Queue 5; Tick 10; Control [4; 3; 2; 7];
   Control [10; 2; 0; 0; 1; 44; 20]; Audio [1; 2; 3; 4; 5]; Audio [6; 7; 8];
   Control [10; 2; 0; 2; 0; 0; 9]; Tick 20].

(** C15: What the server is told of a capture follows its protocol, whatever
    the remote sends, whenever the clock ticks, whatever the server asks for
    during a callback and whichever writes are refused: a capture begins once,
    starts once, delivers formats and encoded data only between start and
    fault or end, and ends once; the protocol state is the engine's. *)
Theorem atvv_protocol {W} `{T : Tx W} `{K : Sink W} `{!Wired W T K} seedless w is_ :
  Forall input_ok is_ ->
  protocol (events (run seedless w is_)) = Some (phase_of (eng (run seedless w is_))).
Proof. intros Hok. by destruct (inv_run seedless w is_ Hok) as (_ & Hp & _). Qed.
Lemma atvv_protocol_witness :
  protocol (events (run false false sample_inputs)) = Some Live.
Proof.
  rewrite (atvv_protocol false false sample_inputs); [vm_compute; reflexivity|].
  by apply (bool_decide_unpack _); vm_compute.
Defined.

(** A decoder at the host can play everything the engine hands over:
    every format it announces is accepted by [rbp_decoder_init], and every
    encoded unit is non-empty and no longer than the announced maximum. *)
Theorem atvv_host_compatible {W} `{T : Tx W} `{K : Sink W} `{!Wired W T K} seedless w is_ :
  Forall input_ok is_ -> Forall event_ok (events (run seedless w is_)).
Proof. intros Hok. by destruct (inv_run seedless w is_ Hok) as (_ & _ & Hf & _). Qed.
Lemma atvv_host_compatible_witness :
  Forall event_ok (events (run false false sample_inputs)) /\
  length (events (run false false sample_inputs)) = 8%nat.
Proof.
  split; [|vm_compute; reflexivity]. apply (atvv_host_compatible false false sample_inputs).
  by apply (bool_decide_unpack _); vm_compute.
Defined.

