(* ===== verification/Board.v ===== *)
(** * Board storage

    The journals of firmware/wch: board.c keeps the bond record in two 256-byte
    slots ("RBS2"), cache_store.inc the GATT cache in two 512-byte slots
    ("GCS1").  A record is written to the slot that is not current, checked,
    and committed by a final word.

    The EEPROM commands of the vendor's library are the class [Eeprom]; what
    the code relies on are the laws of [EepromOk].  The fault records and the
    trace only observe and are left out. *)
From S2P Require Import Prelude Crc32c Cobs Frame.

Definition STORE_BASE : Z := 0x7C00.
Definition STORE_SLOT_SIZE : Z := 256.
Definition STORE_SLOT_COUNT : Z := 2.
Definition BOARD_CACHE_BASE : Z := 0x7800.
Definition BOARD_CACHE_MAX : Z := 384.
Definition CRC_OFF : Z := 248.
Definition COMMIT_OFF : Z := 252.
Definition COMMIT_WORD : Z := 0x43544252.
Definition GAC_CRC : Z := 504.
Definition GAC_COMMIT : Z := 508.
Definition GAC_WORD : Z := 0x31434147.

(** [!memcmp(p, s, n)] for the [n] bytes of [s]. *)
Definition starts_with (p s : list Z) : bool := bool_decide (slice p 0 (zlen s) = s).
Definition RBS2 : list Z := [82; 66; 83; 50].
Definition GCS1 : list Z := [71; 67; 83; 49].
Definition crc_ok (p : list Z) (off : Z) : bool := get32 p off =? rbp_crc32c (slice p 0 off).

Definition valid (p : list Z) : bool :=
  starts_with p RBS2 && (get32 p COMMIT_OFF =? COMMIT_WORD) && crc_ok p CRC_OFF &&
  (1 <=? znth p 8) && (znth p 8 <=? 3) && (znth p 21 <=? 1) && (znth p 22 <=? 1) && (znth p 23 <=? 1).
Definition gac_valid (p : list Z) : bool :=
  starts_with p GCS1 && (get32 p GAC_COMMIT =? GAC_WORD) && crc_ok p GAC_CRC &&
  (get32 p 12 <=? BOARD_CACHE_MAX).

(** ** The device *)
Class Eeprom (D : Type) := {
  EEPROM_READ : Z -> Z -> D -> Z * list Z * D;
  EEPROM_WRITE : Z -> list Z -> D -> Z * D;
  EEPROM_ERASE : Z -> Z -> D -> Z * D;
  (** the byte at an address *)
  cell : D -> Z -> Z }.
Definition cells `{Eeprom D} (d : D) (addr n : Z) : list Z :=
  map (fun i => cell d (addr + Z.of_nat i)) (List.seq 0 (Z.to_nat n)).

(** What the code relies on.  A command touches its range only; a failed one
    (also one that a power failure interrupts) may stop half way: programming
    clears no bit that should stay set, erasing clears no bit, and a half
    erased page is not mistaken for a record, which is what its checksum is
    for. *)
Class EepromOk D (E : Eeprom D) := {
  cell_byte d a : Byte (cell d a);
  read_keeps addr n d a : cell (snd (EEPROM_READ addr n d)) a = cell d a;
  read_data addr n d : fst (fst (EEPROM_READ addr n d)) = 0 -> snd (fst (EEPROM_READ addr n d)) = cells d addr n;
  write_outside addr l d a : a < addr \/ addr + zlen l <= a -> cell (snd (EEPROM_WRITE addr l d)) a = cell d a;
  write_bits addr l d a : addr <= a < addr + zlen l ->
    let b := Z.land (cell d a) (znth l (a - addr)) in Z.land (cell (snd (EEPROM_WRITE addr l d)) a) b = b;
  erase_outside addr n d a : a < addr \/ addr + n <= a -> cell (snd (EEPROM_ERASE addr n d)) a = cell d a;
  erase_bits addr n d a : Z.land (cell (snd (EEPROM_ERASE addr n d)) a) (cell d a) = cell d a;
  erase_done addr n d a : fst (EEPROM_ERASE addr n d) = 0 -> addr <= a < addr + n ->
    cell (snd (EEPROM_ERASE addr n d)) a = 255;
  erase_torn addr d : fst (EEPROM_ERASE addr 256 d) <> 0 ->
    (forall a, cell (snd (EEPROM_ERASE addr 256 d)) a = cell d a) \/
    valid (cells (snd (EEPROM_ERASE addr 256 d)) addr 256) = false /\
    gac_valid (cells (snd (EEPROM_ERASE addr 256 d)) addr 512) = false }.

(** ** The bond journal *)
Record store_record_t := StoreRecord { sr_peer_id : Z; sr_name : list Z; sr_auto_reconnect : bool }.
Record board_t := Board {
  current : list Z; current_slot : Z; storage_state : Z; loaded : bool;
  staged_addr : list Z; staged_type : Z; staged_valid : bool; staged_hid_flags : Z;
  gac_slot : Z; gac_generation : Z; gac_loaded : bool; gac_io_failed : bool }.
#[export] Instance eta_board : Eta board_t := fun b =>
  Board (current b) (current_slot b) (storage_state b) (loaded b) (staged_addr b) (staged_type b)
    (staged_valid b) (staged_hid_flags b) (gac_slot b) (gac_generation b) (gac_loaded b) (gac_io_failed b).
(** The static variables at reset. *)
Definition board_reset : board_t :=
  Board (replicate 80 0) (-1) 0 false (replicate 6 0) 0 false 255 (-1) 0 false false.

(** [uint8_t v = flag]. *)
Definition b2z (b : bool) : Z := if b then 1 else 0.

Section board.
Context {D : Type} `{E : Eeprom D}.
Implicit Types (b : board_t) (d : D).

Definition slot_addr (i : Z) : Z := STORE_BASE + i * STORE_SLOT_SIZE.
(** [checked_read] of a whole slot. *)
Definition read_slot (i : Z) d : Z * list Z * D := EEPROM_READ (slot_addr i) STORE_SLOT_SIZE d.
Definition is_blank (p : list Z) : bool := forallb (Z.eqb 255) p.

(** The first loop of [load_slots]: [None] is a read error. *)
Definition load_one (i : Z) (b : board_t) (dirty : bool) d : option (board_t * bool) * D :=
  let '(rc, page, d) := read_slot i d in
  if negb (rc =? 0) then (None, d)
  else
    let dirty := dirty || negb (is_blank page) in
    let b := if valid page && ((current_slot b <? 0) || (get32 (current b) 4 <? get32 page 4))
             then b <| current := slice page 0 80 |> <| current_slot := i |> else b in
    (Some (b, dirty), d).
(** The first record of a pairing, as a fresh board writes it. *)
Definition first_body : list Z :=
  let p := replicate 256 255 in
  let p := splice p 0 RBS2 in
  let p := splice p 4 (put32 1) in
  let p := splice p 8 [3] in
  let p := splice p 12 (put32 1) in
  let p := splice p 16 (put32 0) in
  let p := splice p 21 [0; 0; 0] in
  let p := splice p 24 (replicate 6 0) in
  splice p 32 (replicate 48 0).
Definition sealed (p : list Z) : list Z := splice p CRC_OFF (put32 (rbp_crc32c (slice p 0 CRC_OFF))).
Definition committed (p : list Z) : list Z := splice p COMMIT_OFF (put32 COMMIT_WORD).
Definition first_record : list Z := committed (sealed first_body).

(** The scan for an uncommitted pairing record. *)
Definition pending_page (p : list Z) : bool :=
  starts_with p RBS2 && (znth p 8 =? 3) && crc_ok p CRC_OFF.
Fixpoint find_pending (is_ : list Z) (b : board_t) d : option (option board_t) * D :=
  match is_ with
  | [] => (Some None, d)
  | i :: is_ =>
    let '(rc, page, d) := read_slot i d in
    if negb (rc =? 0) then (None, d)
    else if pending_page page
    then (Some (Some (b <| current := slice page 0 80 |> <| current_slot := i |> <| storage_state := 3 |>)), d)
    else find_pending is_ b d
  end.
(** A torn first record: every bit of [first_record] that is set is set. *)
Definition covers (p expected : list Z) : bool :=
  forallb (fun i => Z.land (znth p (Z.of_nat i)) (znth expected (Z.of_nat i)) =?
                    znth expected (Z.of_nat i)) (List.seq 0 256).
Definition recover_torn (b : board_t) d : board_t * D :=
  let '(rc, page, d) := read_slot 1 d in
  if negb (rc =? 0) || negb (is_blank page) then (b, d)
  else
    let '(rc, page, d) := read_slot 0 d in
    if negb (rc =? 0) || negb (covers page first_record) then (b, d)
    else (b <| current := slice first_record 0 80 |> <| current_slot := 0 |> <| storage_state := 3 |>, d).

Definition restore_staged (b : board_t) : board_t :=
  let c := current b in
  b <| storage_state := znth c 8 |> <| staged_valid := negb (znth c 22 =? 0) |>
    <| staged_type := znth c 23 |> <| staged_addr := slice c 24 6 |>
    <| staged_hid_flags := if znth c 30 <=? 3 then znth c 30 else 255 |>.
Definition load_slots (b : board_t) d : board_t * D :=
  if loaded b then (b, d)
  else
    let b := b <| loaded := true |> <| storage_state := 0 |> in
    match load_one 0 b false d with
    | (None, d) => (b <| storage_state := 255 |>, d)
    | (Some (b, dirty), d) =>
      match load_one 1 b dirty d with
      | (None, d) => (b <| storage_state := 255 |>, d)
      | (Some (b, dirty), d) =>
        if 0 <=? current_slot b then (restore_staged b, d)
        else if dirty then
          let b := b <| storage_state := 255 |> in
          match find_pending [0; 1] b d with
          | (None, d) => (b, d)
          | (Some (Some b), d) => (b, d)
          | (Some None, d) => recover_torn b d
          end
        else (b, d)
      end
    end.

(** The record [write_record] builds, before its checksum. *)
Definition record_body (b : board_t) (gen state : Z) (rec : option store_record_t) (counter : Z) : list Z :=
  let p := replicate 256 255 in
  let p := splice p 0 RBS2 in
  let p := splice p 4 (put32 (u32 (gen + 1))) in
  let p := splice p 8 [u8 state] in
  let p := splice p 12 (put32 counter) in
  let p := splice p 16 (put32 (match rec with Some r => sr_peer_id r | None => 0 end)) in
  let p := splice p 21 [b2z (match rec with Some r => sr_auto_reconnect r | None => false end)] in
  let p := splice p 22 [b2z (match rec with Some _ => staged_valid b | None => false end)] in
  let p := splice p 23 [staged_type b] in
  let p := splice p 24 (staged_addr b) in
  let p := splice p 32 (replicate 48 0) in
  let p := splice p 30 [match rec with Some _ => staged_hid_flags b | None => 255 end] in
  match rec with Some r => splice p 32 (slice (sr_name r) 0 47) | None => p end.

(** Erase, write, read back and compare the body; write, read back and compare
    the commit word. *)
Definition program_body (addr : Z) (page : list Z) (d : D) : bool * D :=
  let '(rc, d) := EEPROM_ERASE addr STORE_SLOT_SIZE d in
  if negb (rc =? 0) then (false, d) else
  let '(rc, d) := EEPROM_WRITE addr (slice page 0 COMMIT_OFF) d in
  if negb (rc =? 0) then (false, d) else
  let '(rc, check, d) := EEPROM_READ addr STORE_SLOT_SIZE d in
  if negb (rc =? 0) || negb (bool_decide (slice page 0 COMMIT_OFF = slice check 0 COMMIT_OFF)) then (false, d)
  else (true, d).
Definition program_commit (addr : Z) (page : list Z) (d : D) : bool * D :=
  let '(rc, d) := EEPROM_WRITE (addr + COMMIT_OFF) (slice page COMMIT_OFF 4) d in
  if negb (rc =? 0) then (false, d) else
  let '(rc, check, d) := EEPROM_READ addr STORE_SLOT_SIZE d in
  if negb (rc =? 0) || negb (bool_decide (page = check)) then (false, d) else (true, d).
Definition program_slot (slot : Z) (page : list Z) (d : D) : bool * D :=
  let addr := slot_addr slot in
  let '(ok, d) := program_body addr page d in
  if ok then program_commit addr (committed page) d else (false, d).

Definition next_slot (b : board_t) : Z :=
  if current_slot b <? 0 then 0 else (current_slot b + 1) mod STORE_SLOT_COUNT.
Definition generation (b : board_t) : Z := if current_slot b <? 0 then 0 else get32 (current b) 4.
Definition new_record (b : board_t) (state : Z) (rec : option store_record_t) (counter : Z) : list Z :=
  sealed (record_body b (generation b) state rec counter).
Definition write_record (state : Z) (rec : option store_record_t) (counter : Z) (b : board_t) (d : D)
  : bool * (board_t * D) :=
  let '(b, d) := load_slots b d in
  if storage_state b =? 255 then (false, (b, d))
  else if generation b =? UINT32_MAX then (false, (b, d))
  else
    let page := new_record b state rec counter in
    let slot := next_slot b in
    let '(ok, d) := program_slot slot page d in
    if ok
    then (true, (b <| current := slice (committed page) 0 80 |> <| current_slot := slot |>
                   <| storage_state := state |>, d))
    else (false, (b, d)).

(** ** The interface of the journal *)
Definition board_storage_state b d : Z * (board_t * D) :=
  let '(b, d) := load_slots b d in (storage_state b, (b, d)).
Definition board_peer_counter b d : Z * (board_t * D) :=
  let '(b, d) := load_slots b d in
  (if current_slot b <? 0 then 0 else get32 (current b) 12, (b, d)).
Definition board_begin_pair b d : bool * (board_t * D) :=
  let '(b, d) := load_slots b d in
  let '(counter, (b, d)) := board_peer_counter b d in
  if (storage_state b =? 255) || ((storage_state b =? 1) && negb (get32 (current b) 16 =? 0)) ||
     (counter =? UINT32_MAX)
  then (false, (b, d))
  else write_record 3 None (u32 (counter + 1)) (b <| staged_valid := false |> <| staged_hid_flags := 255 |>) d.
Definition board_begin_forget b d : bool * (board_t * D) :=
  let '(counter, (b, d)) := board_peer_counter b d in write_record 2 None counter b d.
Definition board_addr_stage (addr : list Z) (type : Z) b d : board_t * D :=
  let '(b, d) := load_slots b d in
  (b <| staged_addr := addr |> <| staged_type := type |> <| staged_valid := true |>, d).
Definition board_addr_invalidate b d : board_t * D :=
  let '(b, d) := load_slots b d in (b <| staged_valid := false |>, d).
Definition board_hid_flags_stage (flags : Z) b d : board_t * D :=
  let '(b, d) := load_slots b d in
  (b <| staged_hid_flags := if flags <=? 3 then flags else 255 |>, d).
Definition board_hid_flags_load b d : Z * (board_t * D) :=
  let '(b, d) := load_slots b d in
  (if (0 <=? current_slot b) && (znth (current b) 30 <=? 3) then znth (current b) 30 else 255, (b, d)).
(** The address and its type, [None] for [false]. *)
Definition board_addr_load b d : option (list Z * Z) * (board_t * D) :=
  let '(b, d) := load_slots b d in
  (if negb (storage_state b =? 1) || (znth (current b) 22 =? 0) || (get32 (current b) 16 =? 0) then None
   else Some (slice (current b) 24 6, znth (current b) 23), (b, d)).
(** The 48-byte name array is the 47 stored bytes and the zero of [memset]. *)
Definition store_load b d : option store_record_t * (board_t * D) :=
  let '(b, d) := load_slots b d in
  (if negb (storage_state b =? 1) then None
   else Some (StoreRecord (get32 (current b) 16) (slice (current b) 32 47 ++ [0])
                (negb (znth (current b) 21 =? 0))), (b, d)).
Definition store_save (rec : option store_record_t) b d : bool * (board_t * D) :=
  match rec with
  | None => (false, (b, d))
  | Some r =>
    if sr_peer_id r =? 0 then (false, (b, d))
    else let '(counter, (b, d)) := board_peer_counter b d in write_record 1 (Some r) counter b d
  end.
Definition store_clear b d : bool * (board_t * D) :=
  let '(counter, (b, d)) := board_peer_counter (b <| staged_valid := false |>) d in
  write_record 1 None counter b d.
End board.

(** ** The unique id

    [get_id] is the flash command, [None] when it fails; [uid] the 16 bytes kept from
    an earlier call. *)
Definition board_unique_id {W} (get_id : W -> option (list Z) * W) (uid : option (list Z)) (w : W)
  : option (list Z) * (option (list Z) * W) :=
  match uid with
  | Some _ => (uid, (uid, w))
  | None =>
    let '(raw, w) := get_id w in
    let uid := option_map (fun raw => slice raw 0 8 ++ slice raw 0 8) raw in (uid, (uid, w))
  end.
(** The id that was returned once is returned by every later call, whatever the command
    would do then; after a failure the next call asks again. *)
Lemma unique_id_stable {W} (get_id : W -> option (list Z) * W) uid w :
  let '(r, (uid', w')) := board_unique_id get_id uid w in
  match r with
  | Some _ => forall (get' : W -> option (list Z) * W) w1, board_unique_id get' uid' w1 = (r, (uid', w1))
  | None => forall (get' : W -> option (list Z) * W) w1, board_unique_id get' uid' w1 = board_unique_id get' None w1
  end.
Proof. unfold board_unique_id. destruct uid; [done|]. by destruct (get_id w) as [[raw|] w']. Qed.

(** ** The layout of a record *)
Definition head80 (g : list Z) (st : Z) (c i : list Z) (au sv ty : Z) (addr : list Z) (hid : Z)
  (nm : list Z) : list Z :=
  RBS2 ++ g ++ [st; 255; 255; 255] ++ c ++ i ++ [255; au; sv; ty] ++ addr ++ [hid; 255] ++ nm ++ [0].
Definition page_of (h crc commit : list Z) : list Z := h ++ replicate 168 255 ++ crc ++ commit.

Ltac explode l := repeat (destruct l as [|? l]; try discriminate).

Lemma head80_length g st c i au sv ty addr hid nm :
  length g = 4%nat -> length c = 4%nat -> length i = 4%nat -> length addr = 6%nat -> length nm = 47%nat ->
  length (head80 g st c i au sv ty addr hid nm) = 80%nat.
Proof. intros. unfold head80. rewrite !length_app. cbn [length RBS2]. lia. Qed.

Lemma splice_mid {A} (a b c d : list A) : length b = length d -> splice (a ++ b ++ c) (zlen a) d = a ++ d ++ c.
Proof.
  intros Hl. unfold splice, zlen. rewrite Nat2Z.id. rewrite take_app_le, take_ge by lia.
  f_equal. f_equal. rewrite <- Hl. rewrite drop_app_ge by lia.
  rewrite drop_app_ge by lia. by replace (length a + length b - length a - length b)%nat with 0%nat by lia.
Qed.

(** The writes of [record_body], with their operands as lists. *)
Lemma body_layout g st c i au sv ty addr hid nm :
  length g = 4%nat -> length c = 4%nat -> length i = 4%nat -> length addr = 6%nat -> length nm = 47%nat ->
  splice (splice (splice (splice (splice (splice (splice (splice (splice (splice (splice (splice
    (replicate 256 255) 0 RBS2) 4 g) 8 [st]) 12 c) 16 i) 21 [au]) 22 [sv]) 23 [ty]) 24 addr)
    32 (replicate 48 0)) 30 [hid]) 32 nm =
  page_of (head80 g st c i au sv ty addr hid nm) (replicate 4 255) (replicate 4 255).
Proof. intros. explode g. explode c. explode i. explode addr. explode nm. reflexivity. Qed.

Lemma splice_self {A} (l : list A) pos n : 0 <= pos -> 0 <= n -> pos + n <= zlen l -> splice l pos (slice l pos n) = l.
Proof.
  intros. apply list_eq. intros k. rewrite lookup_splice by (rewrite ?zlen_slice; lia).
  rewrite zlen_slice by lia. case_bool_decide; [|done]. rewrite lookup_slice by lia. f_equal. lia.
Qed.

Lemma put32_length v : length (put32 v) = 4%nat.
Proof. done. Qed.
Lemma record_body_layout b gen state rec counter :
  length (staged_addr b) = 6%nat ->
  match rec with Some r => 47 <= zlen (sr_name r) | None => True end ->
  record_body b gen state rec counter =
  page_of
    (head80 (put32 (u32 (gen + 1))) (u8 state) (put32 counter)
       (put32 (match rec with Some r => sr_peer_id r | None => 0 end))
       (b2z (match rec with Some r => sr_auto_reconnect r | None => false end))
       (b2z (match rec with Some _ => staged_valid b | None => false end)) (staged_type b)
       (staged_addr b) (match rec with Some _ => staged_hid_flags b | None => 255 end)
       (match rec with Some r => slice (sr_name r) 0 47 | None => replicate 47 0 end))
    (replicate 4 255) (replicate 4 255).
Proof.
  intros Ha Hn. unfold record_body. cbv zeta. destruct rec as [r|].
  - apply body_layout; try done. pose proof (zlen_slice (sr_name r) 0 47). unfold zlen in *. lia.
  - rewrite <- body_layout by done.
    match goal with |- ?l = splice ?l 32 ?z => set (p := l) end.
    assert (replicate 47 0 = slice p 32 47 /\ zlen p = 256) as [-> Hp];
      [|symmetry; apply splice_self; lia].
    subst p. generalize (put32_length (u32 (gen + 1))) (put32_length counter) (put32_length 0).
    generalize (put32 (u32 (gen + 1))) (put32 counter) (put32 0). intros g c i Hg Hc Hi.
    destruct b as [? ? ? ? addr]. cbn in Ha |- *. explode g. explode c. explode i. explode addr. done.
Qed.

(** ** Records as values *)

(** What a record says. *)
Record contents := Contents {
  ct_gen : Z; ct_state : Z; ct_counter : Z; ct_peer : Z; ct_auto : bool; ct_addr_valid : bool;
  ct_type : Z; ct_addr : list Z; ct_hid : Z; ct_name : list Z }.
Definition head_of (c : contents) : list Z :=
  head80 (put32 (ct_gen c)) (ct_state c) (put32 (ct_counter c)) (put32 (ct_peer c)) (b2z (ct_auto c))
    (b2z (ct_addr_valid c)) (ct_type c) (ct_addr c) (ct_hid c) (ct_name c).
Definition contents_ok (c : contents) : Prop :=
  U32 (ct_gen c) /\ 1 <= ct_state c <= 3 /\ U32 (ct_counter c) /\ U32 (ct_peer c) /\
  0 <= ct_type c <= 1 /\ length (ct_addr c) = 6%nat /\ Bytes (ct_addr c) /\ Byte (ct_hid c) /\
  length (ct_name c) = 47%nat /\ Bytes (ct_name c).
Definition sealed_page (c : contents) : list Z :=
  page_of (head_of c) (put32 (rbp_crc32c (head_of c ++ replicate 168 255))) (replicate 4 255).
Definition final_page (c : contents) : list Z :=
  page_of (head_of c) (put32 (rbp_crc32c (head_of c ++ replicate 168 255))) (put32 COMMIT_WORD).

(** The record the board is about to write. *)
Definition pending (b : board_t) (state : Z) (rec : option store_record_t) (counter : Z) : contents :=
  Contents (generation b + 1) state counter (match rec with Some r => sr_peer_id r | None => 0 end)
    (match rec with Some r => sr_auto_reconnect r | None => false end)
    (match rec with Some _ => staged_valid b | None => false end) (staged_type b) (staged_addr b)
    (match rec with Some _ => staged_hid_flags b | None => 255 end)
    (match rec with Some r => slice (sr_name r) 0 47 | None => replicate 47 0 end).
(** The staged values and arguments are what their C types allow, and the
    address type one of the two identity types. *)
Definition staging_ok (b : board_t) : Prop :=
  length (staged_addr b) = 6%nat /\ Bytes (staged_addr b) /\ 0 <= staged_type b <= 1 /\
  Byte (staged_hid_flags b).
Definition record_ok (rec : option store_record_t) : Prop :=
  match rec with
  | Some r => U32 (sr_peer_id r) /\ length (sr_name r) = 48%nat /\ Bytes (sr_name r)
  | None => True
  end.
#[export] Instance staging_ok_dec b : Decision (staging_ok b).
Proof. unfold staging_ok. apply _. Defined.
#[export] Instance record_ok_dec rec : Decision (record_ok rec).
Proof. unfold record_ok. destruct rec; apply _. Defined.

Lemma pending_ok b state rec counter :
  staging_ok b -> record_ok rec -> 1 <= state <= 3 -> U32 counter -> U32 (generation b + 1) ->
  contents_ok (pending b state rec counter).
Proof.
  intros (Hl & Hb & Ht & Hh) Hr Hs Hc Hg. unfold contents_ok, pending. cbn.
  destruct rec as [r|]; cbn in Hr |- *.
  - destruct Hr as (Hi & Hn & Hnb). pose proof (zlen_slice (sr_name r) 0 47).
    split_and!; try done; try lia; [unfold zlen in *; lia|auto with rbp].
  - split_and!; try done; try lia. by apply (bool_decide_unpack _); vm_compute.
Qed.

Lemma head_length c : contents_ok c -> length (head_of c) = 80%nat.
Proof. intros (? & ? & ? & ? & ? & ? & ? & ? & ? & ?). by apply head80_length. Qed.

Lemma page_of_length h crc commit :
  length h = 80%nat -> length crc = 4%nat -> length commit = 4%nat -> length (page_of h crc commit) = 256%nat.
Proof. intros. unfold page_of. rewrite !length_app, length_replicate. lia. Qed.
Lemma page_prefix h crc commit : length h = 80%nat -> slice (page_of h crc commit) 0 248 = h ++ replicate 168 255.
Proof.
  intros Hh. unfold page_of, slice. rewrite app_assoc. change (Z.to_nat 0) with 0%nat. rewrite drop_0.
  rewrite take_app_le by (rewrite length_app, length_replicate; lia). apply take_ge.
  rewrite length_app, length_replicate. lia.
Qed.
Lemma page_head h crc commit : length h = 80%nat -> slice (page_of h crc commit) 0 80 = h.
Proof.
  intros Hh. unfold page_of, slice. change (Z.to_nat 0) with 0%nat. rewrite drop_0.
  rewrite take_app_le by lia. apply take_ge. lia.
Qed.

Lemma sealed_layout h crc commit : length h = 80%nat -> length crc = 4%nat ->
  sealed (page_of h crc commit) = page_of h (put32 (rbp_crc32c (h ++ replicate 168 255))) commit.
Proof.
  intros Hh Hc. unfold sealed. unfold CRC_OFF. rewrite page_prefix by done. unfold page_of.
  rewrite !(app_assoc h).
  replace 248 with (zlen (h ++ replicate 168 255)) at 1
    by (unfold zlen; rewrite length_app, length_replicate; lia).
  by rewrite splice_mid by done.
Qed.
Lemma committed_layout h crc commit : length h = 80%nat -> length crc = 4%nat -> length commit = 4%nat ->
  committed (page_of h crc commit) = page_of h crc (put32 COMMIT_WORD).
Proof.
  intros Hh Hc Hm. unfold committed, COMMIT_OFF, page_of. rewrite !(app_assoc h), !(app_assoc _ crc).
  replace 252 with (zlen ((h ++ replicate 168 255) ++ crc))
    by (unfold zlen; rewrite !length_app, length_replicate; lia).
  rewrite <- (app_nil_r commit). rewrite splice_mid by done. by rewrite app_nil_r.
Qed.

Lemma new_record_layout b state rec counter :
  staging_ok b -> record_ok rec -> 1 <= state <= 3 -> U32 counter -> U32 (generation b + 1) ->
  new_record b state rec counter = sealed_page (pending b state rec counter).
Proof.
  intros Hst Hr Hs Hc Hg. pose proof Hst as (Hl & _). unfold new_record.
  rewrite record_body_layout; [|done|destruct rec; [unfold zlen; cbn in Hr; lia|done]].
  rewrite (u32_small (generation b + 1)) by done. rewrite (u8_small state) by (unfold Byte; lia).
  rewrite sealed_layout; [|by apply (head_length (pending b state rec counter)), pending_ok|done]. done.
Qed.

Lemma head80_fields g st c i au sv ty addr hid nm tail :
  length g = 4%nat -> length c = 4%nat -> length i = 4%nat -> length addr = 6%nat -> length nm = 47%nat ->
  let p := head80 g st c i au sv ty addr hid nm ++ tail in
  slice p 0 4 = RBS2 /\ slice p 4 4 = g /\ znth p 8 = st /\ slice p 12 4 = c /\ slice p 16 4 = i /\
  znth p 21 = au /\ znth p 22 = sv /\ znth p 23 = ty /\ slice p 24 6 = addr /\ znth p 30 = hid /\
  slice p 32 47 = nm.
Proof. intros. explode g. explode c. explode i. explode addr. explode nm. subst p. repeat split; reflexivity. Qed.

Lemma get32_slice l o : 0 <= o -> get32 l o = get32 (slice l o 4) 0.
Proof.
  intros Ho. unfold get32.
  assert (forall k, 0 <= k < 4 -> znth (slice l o 4) (0 + k) = znth l (o + k)) as H.
  { intros k Hk. unfold znth, slice. rewrite !nth_lookup, lookup_take_lt by lia. rewrite lookup_drop.
    do 2 f_equal. lia. }
  rewrite <- (H 1), <- (H 2), <- (H 3) by lia. pose proof (H 0 ltac:(lia)) as H0.
  replace (o + 0) with o in H0 by lia. by rewrite <- H0.
Qed.
Lemma get32_field l o v : 0 <= o -> slice l o 4 = put32 v -> U32 v -> get32 l o = v.
Proof. intros Ho Hs Hv. rewrite get32_slice, Hs by done. exact (get32_put32 [] v Hv). Qed.

(** Reading a record, or its first 80 bytes, gives its contents back. *)
Lemma contents_read c tail : contents_ok c ->
  let p := head_of c ++ tail in
  starts_with p RBS2 = true /\ get32 p 4 = ct_gen c /\ znth p 8 = ct_state c /\ get32 p 12 = ct_counter c /\
  get32 p 16 = ct_peer c /\ znth p 21 = b2z (ct_auto c) /\ znth p 22 = b2z (ct_addr_valid c) /\
  znth p 23 = ct_type c /\ slice p 24 6 = ct_addr c /\ znth p 30 = ct_hid c /\ slice p 32 47 = ct_name c.
Proof.
  intros (? & ? & ? & ? & ? & ? & ? & ? & ? & ?) p.
  destruct (head80_fields (put32 (ct_gen c)) (ct_state c) (put32 (ct_counter c)) (put32 (ct_peer c))
    (b2z (ct_auto c)) (b2z (ct_addr_valid c)) (ct_type c) (ct_addr c) (ct_hid c) (ct_name c) tail)
    as (F0 & F1 & F2 & F3 & F4 & F5 & F6 & F7 & F8 & F9 & F10); try done.
  fold (head_of c) in F0, F1, F2, F3, F4, F5, F6, F7, F8, F9, F10. fold p in F0, F1, F2, F3, F4, F5, F6, F7, F8, F9, F10.
  split; [by unfold starts_with; apply bool_decide_true|].
  split_and!; try done; by apply get32_field.
Qed.

Lemma page_tail h crc commit : length h = 80%nat -> length crc = 4%nat -> length commit = 4%nat ->
  slice (page_of h crc commit) 248 4 = crc /\ slice (page_of h crc commit) 252 4 = commit.
Proof.
  intros Hh Hc Hm. split.
  - unfold page_of. rewrite app_assoc. unfold slice.
    rewrite drop_app_ge by (rewrite length_app, length_replicate; lia).
    rewrite length_app, length_replicate, Hh. change (Z.to_nat 248 - (80 + 168))%nat with 0%nat.
    rewrite drop_0, take_app_le by lia. apply take_ge. lia.
  - unfold page_of. rewrite !app_assoc. unfold slice.
    rewrite drop_app_ge by (rewrite !length_app, length_replicate; lia).
    rewrite !length_app, length_replicate, Hh, Hc. change (Z.to_nat 252 - (80 + 168 + 4))%nat with 0%nat.
    rewrite drop_0. apply take_ge. lia.
Qed.

Lemma crc_range l : Bytes l -> U32 (rbp_crc32c l).
Proof. intros. by apply rbp_crc32c_range. Qed.

Lemma head_bytes c : contents_ok c -> Bytes (head_of c).
Proof.
  intros (? & ? & ? & ? & ? & ? & ? & ? & ? & ?). unfold head_of, head80.
  assert (forall v, Bytes (put32 v)) as Hp by (intros; apply put32_bytes).
  assert (forall x, Byte (b2z x)) as Hb by (intros []; cbn; unfold Byte; lia).
  repeat (apply Forall_app; split); try done; repeat (apply List.Forall_cons; [try done; unfold Byte; lia|]);
    constructor.
Qed.

Lemma final_valid c : contents_ok c -> valid (final_page c) = true.
Proof.
  intros Hc. pose proof (head_length c Hc) as Hh. pose proof (head_bytes c Hc) as Hb.
  assert (Bytes (head_of c ++ replicate 168 255)) as Hall.
  { apply Forall_app. split; [done|]. apply Forall_replicate. unfold Byte. lia. }
  destruct (page_tail (head_of c) (put32 (rbp_crc32c (head_of c ++ replicate 168 255))) (put32 COMMIT_WORD))
    as [T1 T2]; [done..|].
  pose proof (contents_read c (replicate 168 255 ++ put32 (rbp_crc32c (head_of c ++ replicate 168 255)) ++
    put32 COMMIT_WORD) Hc) as (F0 & _ & F2 & _ & _ & F5 & F6 & F7 & _).
  unfold valid, crc_ok, CRC_OFF, COMMIT_OFF. fold (final_page c) in T1, T2. 
  rewrite (get32_field (final_page c) 248 _ ltac:(lia) T1) by by apply crc_range.
  rewrite (get32_field (final_page c) 252 _ ltac:(lia) T2) by done.
  replace (slice (final_page c) 0 248) with (head_of c ++ replicate 168 255)
    by (symmetry; by apply page_prefix).
  change (head_of c ++ replicate 168 255 ++ _) with (final_page c) in F0, F2, F5, F6, F7.
  rewrite F0, F2, F5, F6, F7. destruct Hc as (_ & Hs & _ & _ & Ht & _).
  rewrite !Z.eqb_refl. destruct (ct_auto c), (ct_addr_valid c); cbn [b2z andb]; lia.
Qed.

(** ** Programming a slot *)
Section device.
Context {D : Type} `{E : Eeprom D} `{!EepromOk D E}.
Implicit Types (b : board_t) (d : D).

Lemma cells_length d a n : length (cells d a n) = Z.to_nat n.
Proof. unfold cells. by rewrite length_map, length_seq. Qed.
Lemma zlen_cells d a n : 0 <= n -> zlen (cells d a n) = n.
Proof. intros. unfold zlen. rewrite cells_length. lia. Qed.
Lemma lookup_cells d a n (i : nat) : Z.of_nat i < n -> cells d a n !! i = Some (cell d (a + Z.of_nat i)).
Proof. intros. unfold cells. rewrite list_lookup_fmap, lookup_seq_lt by lia. done. Qed.
Lemma cells_znth d a n i : 0 <= i < n -> znth (cells d a n) i = cell d (a + i).
Proof. intros. apply znth_lookup. rewrite lookup_cells by lia. do 2 f_equal. lia. Qed.
Lemma cells_bytes d a n : Bytes (cells d a n).
Proof. unfold cells. apply Forall_map. apply list.Forall_forall. intros. apply cell_byte. Qed.
Lemma cells_slice d a n k m : 0 <= k -> 0 <= m -> k + m <= n -> slice (cells d a n) k m = cells d (a + k) m.
Proof.
  intros. apply list_eq. intros i. destruct (decide (Z.of_nat i < m)).
  - rewrite lookup_slice, !lookup_cells by lia. do 2 f_equal. lia.
  - rewrite lookup_slice_ge by lia. symmetry. apply lookup_ge_None. rewrite cells_length. lia.
Qed.
Lemma cells_ext d d' a n : (forall k, a <= k < a + n -> cell d' k = cell d k) -> cells d' a n = cells d a n.
Proof.
  intros H. apply list_eq. intros i. destruct (decide (Z.of_nat i < n)).
  - rewrite !lookup_cells by lia. rewrite H by lia. done.
  - rewrite !(proj2 (lookup_ge_None _ _)) by (rewrite cells_length; lia). done.
Qed.
Lemma cells_split d a n k : 0 <= k <= n -> cells d a n = cells d a k ++ cells d (a + k) (n - k).
Proof.
  intros. rewrite <- (slice_split (cells d a n) k) by (rewrite zlen_cells; lia).
  rewrite zlen_cells by lia. rewrite !cells_slice by lia. do 2 f_equal; lia.
Qed.

Lemma page_length (p : list Z) : length p = 256%nat -> zlen p = 256.
Proof. unfold zlen. lia. Qed.

(** A slot whose commit word is erased is not a record. *)
Lemma uncommitted_invalid d a : (forall k, 252 <= k < 256 -> cell d (a + k) = 255) ->
  valid (cells d a 256) = false.
Proof.
  intros H. unfold valid. replace (get32 (cells d a 256) COMMIT_OFF =? COMMIT_WORD) with false.
  - by rewrite andb_false_r.
  - unfold get32, COMMIT_OFF. by rewrite !cells_znth, !H by lia.
Qed.
(** Four bytes that read as a word are the bytes of the word. *)
Lemma get32_bytes l v : length l = 4%nat -> Bytes l -> get32 l 0 = v -> l = put32 v.
Proof.
  intros Hl Hb <-. explode l. rewrite !Forall_cons_iff in Hb. destruct Hb as (H0 & H1 & H2 & H3 & _).
  change (get32 [z; z0; z1; z2] 0) with
    (Z.lor (Z.lor (Z.lor z (Z.shiftl z0 8)) (Z.shiftl z1 16)) (Z.shiftl z2 24)).
  unfold put32. rewrite (lor_shiftl_add z z0 8), (lor_shiftl_add _ z1 16), (lor_shiftl_add _ z2 24)
    by (first [lia|done|words]).
  rewrite !Z.shiftr_div_pow2 by lia. repeat f_equal; words.
Qed.

Lemma read_spec a n d rc l d' : EEPROM_READ a n d = (rc, l, d') ->
  (forall k, cell d' k = cell d k) /\ (rc = 0 -> l = cells d a n).
Proof.
  intros R. pose proof (read_keeps a n d) as K. pose proof (read_data a n d) as Dt.
  rewrite R in K, Dt. by split.
Qed.
Lemma write_spec a l d rc d' : EEPROM_WRITE a l d = (rc, d') ->
  forall k, k < a \/ a + zlen l <= k -> cell d' k = cell d k.
Proof. intros R k. pose proof (write_outside a l d k) as K. by rewrite R in K. Qed.
Lemma erase_spec a d rc d' : EEPROM_ERASE a 256 d = (rc, d') ->
  (forall k, k < a \/ a + 256 <= k -> cell d' k = cell d k) /\
  (rc = 0 -> forall k, a <= k < a + 256 -> cell d' k = 255) /\
  (rc <> 0 -> (forall k, cell d' k = cell d k) \/
    valid (cells d' a 256) = false /\ gac_valid (cells d' a 512) = false).
Proof.
  intros R. pose proof (fun k => erase_outside a 256 d k) as O. pose proof (erase_torn a d) as T.
  pose proof (fun k => erase_done a 256 d k) as Dn. rewrite R in O, T, Dn.
  split; [done|]. split; [|done]. intros H k. by apply Dn.
Qed.
Lemma verified (rc : Z) (p q : list Z) : negb (rc =? 0) || negb (bool_decide (p = q)) = false -> rc = 0 /\ p = q.
Proof. intros [H1 H2]%orb_false_iff. split; [lia|]. by apply negb_false_iff, bool_decide_eq_true in H2. Qed.

Lemma program_body_spec a page d ok d' :
  length page = 256%nat -> program_body a page d = (ok, d') ->
  (forall k, k < a \/ a + 256 <= k -> cell d' k = cell d k) /\
  if ok then cells d' a 252 = slice page 0 252
  else cells d' a 256 = cells d a 256 \/ valid (cells d' a 256) = false.
Proof.
  intros Hp. unfold program_body, STORE_SLOT_SIZE, COMMIT_OFF. pose proof (page_length page Hp) as Hz.
  assert (zlen (slice page 0 252) = 252) as Hz1 by (apply zlen_slice; lia).
  destruct (EEPROM_ERASE a 256 d) as [rc1 d1] eqn:E1. apply erase_spec in E1 as (O1 & D1 & T1).
  destruct (rc1 =? 0) eqn:R1; cbn [negb].
  2:{ intros [= <- <-]. split; [done|]. destruct T1 as [T1|[T1 _]]; [lia| |by right].
      left. apply cells_ext. intros k _. apply T1. }
  specialize (D1 ltac:(lia)).
  destruct (EEPROM_WRITE a (slice page 0 252) d1) as [rc2 d2] eqn:E2.
  pose proof (write_spec _ _ _ _ _ E2) as O2. rewrite Hz1 in O2.
  assert (valid (cells d2 a 256) = false) as V2
    by (apply uncommitted_invalid; intros k Hk; rewrite O2 by lia; apply D1; lia).
  assert (forall k, k < a \/ a + 256 <= k -> cell d2 k = cell d k) as O2'
    by (intros k Hk; rewrite O2 by lia; by apply O1).
  destruct (rc2 =? 0); cbn [negb]; [|by intros [= <- <-]; split; [|right]].
  destruct (EEPROM_READ a 256 d2) as [[rc3 chk] d3] eqn:E3. apply read_spec in E3 as [K3 R3].
  assert (forall k, k < a \/ a + 256 <= k -> cell d3 k = cell d k) as O3 by (intros k Hk; rewrite K3; by apply O2').
  destruct (_ || _) eqn:F3; intros [= <- <-]; (split; [done|]).
  - right. by rewrite (cells_ext d2 d3) by (intros; apply K3).
  - apply verified in F3 as [F3 F4]. rewrite F4, (R3 F3), cells_slice by lia.
    replace (a + 0) with a by lia. apply cells_ext. intros; apply K3.
Qed.

Lemma committed_parts page : length page = 256%nat ->
  slice (committed page) 252 4 = put32 COMMIT_WORD /\ slice (committed page) 0 252 = slice page 0 252 /\
  zlen (committed page) = 256.
Proof.
  intros Hp. pose proof (page_length page Hp) as Hz. unfold committed, COMMIT_OFF.
  assert (zlen (splice page 252 (put32 COMMIT_WORD)) = 256) as Hl
    by (rewrite zlen_splice; [done|lia|rewrite Hz; done]).
  split; [|split; [|done]].
  - pose proof (slice_splice_grow page (put32 COMMIT_WORD) 252 ltac:(lia) ltac:(rewrite Hz; done)) as Hg.
    rewrite slice_0_all in Hg by (rewrite Hl; done). rewrite Hg.
    pose proof (zlen_slice page 0 252 ltac:(lia) ltac:(lia) ltac:(lia)) as Hs.
    unfold slice at 1. rewrite drop_app_ge by (unfold zlen in Hs; lia).
    replace (_ - _)%nat with 0%nat by (unfold zlen in Hs; lia). rewrite drop_0. apply take_ge. done.
  - unfold slice, splice. change (Z.to_nat 0) with 0%nat. rewrite !drop_0.
    rewrite take_app_le by (rewrite length_take; lia). rewrite take_take. done.
Qed.

Lemma program_commit_spec a page d ok d' :
  length page = 256%nat -> cells d a 252 = slice page 0 252 ->
  program_commit a (committed page) d = (ok, d') ->
  (forall k, k < a \/ a + 256 <= k -> cell d' k = cell d k) /\
  (valid (cells d' a 256) = false \/ cells d' a 256 = committed page) /\
  (ok = true -> cells d' a 256 = committed page).
Proof.
  intros Hp Hb. unfold program_commit, STORE_SLOT_SIZE, COMMIT_OFF.
  destruct (committed_parts page Hp) as (S1 & S2 & S3). set (fin := committed page) in *. rewrite S1.
  destruct (EEPROM_WRITE (a + 252) (put32 COMMIT_WORD) d) as [rc1 d1] eqn:E1.
  pose proof (write_spec _ _ _ _ _ E1) as O1. change (zlen (put32 COMMIT_WORD)) with 4 in O1.
  assert (valid (cells d1 a 256) = false \/ cells d1 a 256 = fin) as V1.
  { destruct (get32 (cells d1 a 256) COMMIT_OFF =? COMMIT_WORD) eqn:G.
    - right. rewrite (cells_split d1 a 256 252) by lia.
      rewrite <- (slice_split fin 252) by lia. rewrite S3. change (256 - 252) with 4.
      rewrite S1, S2, <- Hb. f_equal; [apply cells_ext; intros k Hk; apply O1; lia|].
      apply get32_bytes; [by rewrite cells_length|apply cells_bytes|].
      apply Z.eqb_eq in G. rewrite get32_slice, cells_slice in G by (unfold COMMIT_OFF; lia). exact G.
    - left. unfold valid. rewrite G. by rewrite andb_false_r. }
  assert (forall k, k < a \/ a + 256 <= k -> cell d1 k = cell d k) as O1' by (intros; apply O1; lia).
  destruct (rc1 =? 0); cbn [negb]; [|by intros [= <- <-]].
  destruct (EEPROM_READ a 256 d1) as [[rc2 chk] d2] eqn:E2. apply read_spec in E2 as [K2 R2].
  assert (cells d2 a 256 = cells d1 a 256) as C2 by (apply cells_ext; intros; apply K2).
  assert (forall k, k < a \/ a + 256 <= k -> cell d2 k = cell d k) as O2 by (intros k Hk; rewrite K2; by apply O1').
  destruct (_ || _) eqn:F; intros [= <- <-]; rewrite C2; split_and!; try done.
  intros _. apply verified in F as [F1 F2]. by rewrite F2, (R2 F1).
Qed.

(** What programming can leave in a slot: what was there, something that is not
    a record, or the new record; the last on success; and nothing else of the
    device is touched. *)
Lemma program_slot_spec slot page d ok d' :
  length page = 256%nat -> program_slot slot page d = (ok, d') ->
  let a := slot_addr slot in
  (forall k, k < a \/ a + 256 <= k -> cell d' k = cell d k) /\
  (cells d' a 256 = cells d a 256 \/ valid (cells d' a 256) = false \/
   cells d' a 256 = committed page) /\
  (ok = true -> cells d' a 256 = committed page).
Proof.
  intros Hp. unfold program_slot. set (a := slot_addr slot). cbv zeta.
  destruct (program_body a page d) as [ok1 d1] eqn:E1. apply program_body_spec in E1 as [O1 B1]; [|done].
  destruct ok1; [|intros [= <- <-]; split; [done|]; split; [tauto|done]].
  intros E2. apply program_commit_spec in E2 as (O2 & C2 & S2); [|done..].
  split; [intros k Hk; rewrite O2 by done; by apply O1|]. split; [tauto|done].
Qed.

(** ** The newest record *)
Definition slot_page d (i : Z) : list Z := cells d (slot_addr i) 256.
Definition newest d : option (Z * list Z) :=
  let p0 := slot_page d 0 in
  let p1 := slot_page d 1 in
  if valid p0 then if valid p1 && (get32 p0 4 <? get32 p1 4) then Some (1, p1) else Some (0, p0)
  else if valid p1 then Some (1, p1) else None.
(** The board's copy in memory is the newest record. *)
Definition synced b d : Prop :=
  loaded b = true /\ exists p, newest d = Some (current_slot b, p) /\ current b = slice p 0 80 /\
    storage_state b = znth p 8.

Lemma newest_valid d i p : newest d = Some (i, p) -> (i = 0 \/ i = 1) /\ p = slot_page d i /\ valid p = true.
Proof.
  unfold newest. destruct (valid (slot_page d 0)) eqn:V0; [destruct (valid _ && _) eqn:V1|destruct (valid (slot_page d 1)) eqn:V1];
    intros [= <- <-]; auto. apply andb_true_iff in V1 as [V1 _]. auto.
Qed.
Lemma valid_state p : valid p = true -> 1 <= znth p 8 <= 3.
Proof. unfold valid. rewrite !andb_true_iff. lia. Qed.
Lemma newest_ext d d' : (forall k, cell d' k = cell d k) -> newest d' = newest d.
Proof.
  intros H. unfold newest, slot_page.
  by rewrite !(cells_ext d d') by (intros; apply H).
Qed.

Lemma slice_prefix {A} (p : list A) k m n : 0 <= k -> 0 <= m -> k + m <= n -> slice (slice p 0 n) k m = slice p k m.
Proof.
  intros. apply list_eq. intros i. destruct (decide (Z.of_nat i < m)).
  - rewrite !lookup_slice by lia. f_equal.
  - by rewrite !lookup_slice_ge by lia.
Qed.
Lemma get32_prefix p o n : 0 <= o -> o + 4 <= n -> get32 (slice p 0 n) o = get32 p o.
Proof. intros. by rewrite (get32_slice (slice p 0 n)), (get32_slice p), slice_prefix by lia. Qed.
Lemma znth_prefix p k n : 0 <= k < n -> znth (slice p 0 n) k = znth p k.
Proof. intros. unfold znth, slice. rewrite drop_0, !nth_lookup, lookup_take_lt by lia. done. Qed.

Lemma load_one_spec i b dirty d r d' : load_one i b dirty d = (r, d') ->
  (forall k, cell d' k = cell d k) /\
  match r with
  | None => True
  | Some (b', _) => b' = if valid (slot_page d i) && ((current_slot b <? 0) || (get32 (current b) 4 <? get32 (slot_page d i) 4))
      then b <| current := slice (slot_page d i) 0 80 |> <| current_slot := i |> else b
  end.
Proof.
  unfold load_one, read_slot, STORE_SLOT_SIZE. destruct (EEPROM_READ _ _ d) as [[rc page] d1] eqn:R.
  apply read_spec in R as [K P]. destruct (rc =? 0) eqn:E0; cbn [negb]; intros [= <- <-]; [|done].
  split; [done|]. rewrite P by lia. done.
Qed.

(** Loading after a reset finds the newest record, or reports a read error. *)
Lemma load_newest b d i p b' d' :
  loaded b = false -> current_slot b = -1 -> newest d = Some (i, p) -> load_slots b d = (b', d') ->
  (forall k, cell d' k = cell d k) /\
  (storage_state b' = 255 \/
   b' = restore_staged (b <| loaded := true |> <| storage_state := 0 |> <| current := slice p 0 80 |>
          <| current_slot := i |>)).
Proof.
  intros Hl Hs Hn. unfold load_slots. rewrite Hl.
  set (b0 := b <| loaded := true |> <| storage_state := 0 |>).
  destruct (load_one 0 b0 false d) as [r1 d1] eqn:E1. apply load_one_spec in E1 as [K1 R1].
  destruct r1 as [[b1 dirty1]|]; [|intros [= <- <-]; split; [done|by left]].
  destruct (load_one 1 b1 dirty1 d1) as [r2 d2] eqn:E2. apply load_one_spec in E2 as [K2 R2].
  assert (forall k, cell d2 k = cell d k) as K by (intros k; rewrite K2; apply K1).
  destruct r2 as [[b2 dirty2]|]; [|intros [= <- <-]; split; [done|by left]].
  assert (slot_page d1 1 = slot_page d 1) as Ep by (apply cells_ext; intros; apply K1).
  rewrite Ep in R2. change (current_slot b0) with (current_slot b) in R1. rewrite Hs in R1. cbn [Z.ltb Z.compare orb] in R1.
  rewrite andb_true_r in R1.
  assert (b2 = b0 <| current := slice p 0 80 |> <| current_slot := i |>) as ->.
  { rewrite R2, R1. revert Hn. unfold newest. destruct (valid (slot_page d 0)).
    - change (current_slot (b0 <| current := slice (slot_page d 0) 0 80 |> <| current_slot := 0 |>) <? 0) with false.
      change (current (b0 <| current := slice (slot_page d 0) 0 80 |> <| current_slot := 0 |>)) with (slice (slot_page d 0) 0 80).
      rewrite get32_prefix by lia. cbn [orb]. split_if; by intros [= <- <-].
    - change (current_slot b0) with (current_slot b). rewrite Hs. cbn [Z.ltb Z.compare orb]. rewrite andb_true_r.
      destruct (valid (slot_page d 1)); by intros [= <- <-]. }
  change (current_slot (_ <| current_slot := i |>)) with i.
  apply newest_valid in Hn as (Hi & _). replace (0 <=? i) with true by lia.
  intros [= <- <-]. split; [done|]. by right.
Qed.

Lemma reload b d i p b' d' : loaded b = false -> current_slot b = -1 -> newest d = Some (i, p) ->
  load_slots b d = (b', d') -> storage_state b' <> 255 -> synced b' d'.
Proof.
  intros Hl Hs Hn Hb H255. destruct (load_newest _ _ _ _ _ _ Hl Hs Hn Hb) as [K [?| ->]]; [done|].
  split; [done|]. exists p. rewrite (newest_ext d d' K). split; [done|]. split; [done|].
  cbn. apply znth_prefix. lia.
Qed.

(** ** Writing a record *)
Lemma get32_range l o : Bytes l -> U32 (get32 l o).
Proof.
  intros Hb. unfold get32. pose proof (fun k => znth_byte l k Hb) as Hk.
  pose proof (Hk o). pose proof (Hk (o + 1)). pose proof (Hk (o + 2)). pose proof (Hk (o + 3)).
  rewrite (lor_shiftl_add (znth l o) _ 8), (lor_shiftl_add _ _ 16), (lor_shiftl_add _ _ 24)
    by (first [lia|done|words]). words.
Qed.
Lemma sealed_length c : contents_ok c -> length (sealed_page c) = 256%nat.
Proof. intros Hc. apply page_of_length; [by apply head_length|done..]. Qed.
Lemma committed_sealed c : contents_ok c -> committed (sealed_page c) = final_page c.
Proof. intros Hc. apply committed_layout; [by apply head_length|done..]. Qed.
Lemma final_read c : contents_ok c -> slice (final_page c) 0 80 = head_of c /\ get32 (final_page c) 4 = ct_gen c /\
  znth (final_page c) 8 = ct_state c.
Proof.
  intros Hc. split; [apply page_head; by apply head_length|].
  by destruct (contents_read c (replicate 168 255 ++ put32 (rbp_crc32c (head_of c ++ replicate 168 255)) ++
    put32 COMMIT_WORD) Hc) as (_ & ? & ? & _).
Qed.

(** The device after the newest record's other slot was programmed. *)
Lemma newest_after s p c d d' :
  newest d = Some (s, p) -> contents_ok c -> ct_gen c = get32 p 4 + 1 ->
  let t := (s + 1) mod 2 in
  (forall k, k < slot_addr t \/ slot_addr t + 256 <= k -> cell d' k = cell d k) ->
  (slot_page d' t = slot_page d t -> newest d' = newest d) /\
  (valid (slot_page d' t) = false -> newest d' = newest d) /\
  (slot_page d' t = final_page c -> newest d' = Some (t, final_page c)).
Proof.
  intros Hn Hc Hg t Ho. destruct (newest_valid _ _ _ Hn) as (Hs & Ep & Hv).
  assert (slot_page d' s = slot_page d s) as Es.
  { apply cells_ext. intros k Hk. apply Ho. unfold slot_addr, STORE_BASE, STORE_SLOT_SIZE, t in *.
    destruct Hs as [-> | ->]; [change ((0 + 1) mod 2) with 1|change ((1 + 1) mod 2) with 0]; lia. }
  rewrite Ep in *. clear Ep p. rewrite Hn.
  destruct Hs as [-> | ->]; change ((_ + 1) mod 2) with 1 in t || change ((_ + 1) mod 2) with 0 in t; subst t;
    revert Hn; unfold newest; rewrite Es, Hv; (split; [|split]).
  - intros ->. done.
  - intros ->. done.
  - intros ->. rewrite final_valid by done. destruct (final_read c Hc) as (_ & -> & _).
    replace (get32 (slot_page d 0) 4 <? ct_gen c) with true by lia. done.
  - intros ->. done.
  - intros ->. done.
  - intros ->. rewrite final_valid by done. destruct (final_read c Hc) as (_ & -> & _).
    replace (ct_gen c <? get32 (slot_page d 1) 4) with false by lia. done.
Qed.

Lemma write_record_spec state rec counter b d ok b' d' :
  synced b d -> staging_ok b -> record_ok rec -> 1 <= state <= 3 -> U32 counter ->
  write_record state rec counter b d = (ok, (b', d')) ->
  let c := pending b state rec counter in
  (newest d' = newest d \/ newest d' = Some (next_slot b, final_page c) /\ contents_ok c) /\
  (ok = true -> newest d' = Some (next_slot b, final_page c) /\ contents_ok c /\ synced b' d' /\ staging_ok b').
Proof.
  intros (Hl & p & Hn & Hcur & Hst) Hstg Hrec Hs Hc. unfold write_record, load_slots. rewrite Hl.
  destruct (newest_valid _ _ _ Hn) as (Hi & Ep & Hv). pose proof (valid_state p Hv).
  replace (storage_state b =? 255) with false by lia.
  assert (generation b = get32 p 4) as Hgen.
  { unfold generation. replace (current_slot b <? 0) with false by lia. rewrite Hcur. apply get32_prefix; lia. }
  destruct (generation b =? UINT32_MAX) eqn:Eg; [by intros [= <- <- <-]; split; [left|]|].
  assert (U32 (get32 p 4)) as Hg32.
  { rewrite Ep. apply get32_range, cells_bytes. }
  set (c := pending b state rec counter).
  assert (contents_ok c) as Hok by (apply pending_ok; try done; unfold UINT32_MAX, U32 in *; lia).
  rewrite new_record_layout by (try done; unfold UINT32_MAX, U32 in *; lia). fold c.
  assert (next_slot b = (current_slot b + 1) mod 2) as Hns
    by (unfold next_slot; by replace (current_slot b <? 0) with false by lia).
  destruct (program_slot (next_slot b) (sealed_page c) d) as [ok1 d1] eqn:Ew.
  apply program_slot_spec in Ew as (O & Cs & S); [|by apply sealed_length]. rewrite committed_sealed in Cs, S by done.
  rewrite Hns in *. pose proof (newest_after _ _ c _ d1 Hn Hok ltac:(cbn; lia) O) as (N1 & N2 & N3).
  assert (newest d1 = newest d \/ newest d1 = Some ((current_slot b + 1) mod 2, final_page c) /\ contents_ok c) as Hd
    by (destruct Cs as [Cs|[Cs|Cs]]; [left; by apply N1|left; by apply N2|right; split; [by apply N3|done]]).
  destruct ok1; intros [= <- <- <-]; (split; [done|]); [|done]. intros _. specialize (N3 (S eq_refl)).
  split; [done|]. split; [done|]. rewrite committed_sealed by done. split; [|done].
  split; [done|]. exists (final_page c). split; [done|]. split; [done|]. symmetry. by apply final_read.
Qed.

(** ** The first record of a fresh board *)
Section fresh_board.
Hypothesis reads_ok : forall addr n d, fst (fst (EEPROM_READ addr n d)) = 0.

Lemma read_slot_ok i d : exists d', read_slot i d = (0, slot_page d i, d') /\ forall k, cell d' k = cell d k.
Proof.
  unfold read_slot, STORE_SLOT_SIZE. destruct (EEPROM_READ (slot_addr i) 256 d) as [[rc page] d1] eqn:R.
  pose proof (reads_ok (slot_addr i) 256 d) as H. rewrite R in H. cbn in H.
  apply read_spec in R as [K P]. exists d1. split; [|done]. by rewrite H, (P H).
Qed.
Lemma slot_page_ext d d' i : (forall k, cell d' k = cell d k) -> slot_page d' i = slot_page d i.
Proof. intros H. apply cells_ext. intros. apply H. Qed.

Lemma covers_spec p e : covers p e = true <->
  forall i, 0 <= i < 256 -> Z.land (znth p i) (znth e i) = znth e i.
Proof.
  unfold covers. rewrite forallb_forall. split.
  - intros H i Hi. specialize (H (Z.to_nat i)). rewrite in_seq in H. rewrite Z2Nat.id in H by lia. lia.
  - intros H i Hi. apply in_seq in Hi. apply Z.eqb_eq. apply H. lia.
Qed.

(** The recovery of a first record that was not committed. *)
Lemma recover_spec d b :
  is_blank (slot_page d 1) = true -> covers (slot_page d 0) first_record = true ->
  match find_pending [0; 1] b d with
  | (None, _) => False
  | (Some (Some b'), _) => storage_state b' = 3
  | (Some None, d') => storage_state (fst (recover_torn b d')) = 3
  end.
Proof.
  intros H1 H0. unfold find_pending. destruct (read_slot_ok 0 d) as (d1 & -> & K1).
  cbn [negb Z.eqb]. destruct (pending_page (slot_page d 0)); [done|].
  destruct (read_slot_ok 1 d1) as (d2 & -> & K2). rewrite (slot_page_ext d d1 1 K1). cbn [negb Z.eqb].
  destruct (pending_page (slot_page d 1)); [done|].
  assert (forall k, cell d2 k = cell d k) as K by (intros k; rewrite K2; apply K1).
  unfold recover_torn. destruct (read_slot_ok 1 d2) as (d3 & -> & K3).
  rewrite (slot_page_ext d d2 1 K), H1. cbn [negb Z.eqb orb].
  destruct (read_slot_ok 0 d3) as (d4 & -> & K4).
  assert (forall k, cell d3 k = cell d k) as K' by (intros k; rewrite K3; apply K).
  rewrite (slot_page_ext d d3 0 K'), H0. done.
Qed.

(** With slot 1 blank and slot 0 holding any part of the first record, loading
    finds an empty board or the pairing. *)
Lemma load_first d b' d' :
  is_blank (slot_page d 1) = true -> covers (slot_page d 0) first_record = true ->
  load_slots board_reset d = (b', d') ->
  (storage_state b' = 0 /\ is_blank (slot_page d 0) = true \/ storage_state b' = 3) /\
  (valid (slot_page d 0) = true -> storage_state b' = 3).
Proof.
  intros H1 H0. unfold load_slots. cbn [loaded board_reset]. unfold load_one.
  destruct (read_slot_ok 0 d) as (d1 & -> & K1). cbn [negb Z.eqb].
  destruct (read_slot_ok 1 d1) as (d2 & R2 & K2). rewrite (slot_page_ext d d1 1 K1) in R2.
  assert (valid (slot_page d 1) = false) as V1.
  { unfold valid, starts_with. rewrite bool_decide_false; [done|]. intros Hs.
    unfold is_blank in H1. rewrite forallb_forall in H1.
    assert (In 82 (slot_page d 1)) as Hin by (rewrite <- (take_drop 4 (slot_page d 1)); apply in_or_app; left;
      change (take 4 (slot_page d 1)) with (slice (slot_page d 1) 0 (zlen RBS2)); rewrite Hs; by left).
    specialize (H1 _ Hin). done. }
  destruct (valid (slot_page d 0)) eqn:V0.
  - pose proof (valid_state _ V0) as Hs. cbn [andb orb Z.ltb Z.compare current_slot board_reset].
    rewrite R2, V1. cbn [negb Z.eqb andb].
    assert (znth (slot_page d 0) 8 = 3) as E3.
    { pose proof (proj1 (covers_spec _ _) H0 8 ltac:(lia)) as Hc. change (znth first_record 8) with 3 in Hc.
      assert (znth (slot_page d 0) 8 = 1 \/ znth (slot_page d 0) 8 = 2 \/ znth (slot_page d 0) 8 = 3) as [X|[X|X]]
        by lia; [by rewrite X in Hc..|done]. }
    rewrite <- (znth_prefix _ 8 80) in E3 by lia.
    intros [= <- _]. split; [right|intros _]; exact E3.
  - cbn [andb]. rewrite R2, V1. cbn [negb Z.eqb andb orb]. rewrite H1. cbn [negb]. rewrite orb_false_r.
    cbn [current_slot board_reset]. destruct (is_blank (slot_page d 0)) eqn:B0; cbn [negb].
    { intros [= <- _]. split; [by left|done]. }
    assert (forall k, cell d2 k = cell d k) as K by (intros k; rewrite K2; apply K1).
    change (0 <=? current_slot (board_reset <| loaded := true |> <| storage_state := 0 |>)) with false.
    cbv iota. pose proof (recover_spec d2 (board_reset <| loaded := true |> <| storage_state := 0 |>
      <| storage_state := 255 |>)) as H.
    rewrite !(slot_page_ext d d2 _ K) in H. specialize (H H1 H0).
    destruct (find_pending _ _ d2) as [[[b3|]|] d3]; [| |done].
    + intros [= <- _]. auto.
    + intros Hr. rewrite Hr in H. auto.
Qed.

Definition blank_slot d i : Prop := forall k, 0 <= k < 256 -> cell d (slot_addr i + k) = 255.
Lemma blank_page d i : blank_slot d i -> is_blank (slot_page d i) = true.
Proof.
  intros H. unfold is_blank. apply forallb_forall. intros x Hx. apply In_nth with (d := 0) in Hx as (n & Hn & <-).
  unfold slot_page in *. rewrite cells_length in Hn. 
  pose proof (cells_znth d (slot_addr i) 256 (Z.of_nat n) ltac:(lia)) as Hz. unfold znth in Hz.
  rewrite Nat2Z.id in Hz. rewrite Hz, H by lia. done.
Qed.

Lemma land_byte x : Byte x -> Z.land 255 x = x.
Proof. intros Hx. change 255 with (Z.ones 8). rewrite Z.land_comm, Z.land_ones by lia. words. Qed.

Lemma body_bits a page d ok d' :
  length page = 256%nat -> Bytes page -> (forall k, 0 <= k < 256 -> cell d (a + k) = 255) ->
  program_body a page d = (ok, d') ->
  (forall k, 0 <= k < 252 -> Z.land (cell d' (a + k)) (znth page k) = znth page k) /\
  (forall k, 252 <= k < 256 -> cell d' (a + k) = 255).
Proof.
  intros Hp Hb H0. unfold program_body, STORE_SLOT_SIZE, COMMIT_OFF.
  assert (zlen (slice page 0 252) = 252) as Hz by (apply zlen_slice; try apply page_length in Hp; lia).
  destruct (EEPROM_ERASE a 256 d) as [rc1 d1] eqn:E1.
  assert (forall k, 0 <= k < 256 -> cell d1 (a + k) = 255) as H1.
  { intros k Hk. pose proof (erase_bits a 256 d (a + k)) as Hbit. rewrite E1, H0 in Hbit by lia. cbn in Hbit.
    rewrite Z.land_comm, land_byte in Hbit by apply cell_byte. done. }
  destruct (negb (rc1 =? 0)).
  { intros [= <- <-]. split; [|intros; apply H1; lia]. intros k Hk. rewrite H1 by lia. apply land_byte. auto with rbp. }
  destruct (EEPROM_WRITE a (slice page 0 252) d1) as [rc2 d2] eqn:E2.
  assert (forall k, 0 <= k < 252 -> Z.land (cell d2 (a + k)) (znth page k) = znth page k) as H2.
  { intros k Hk. pose proof (write_bits a (slice page 0 252) d1 (a + k)) as Hbit. rewrite E2, Hz, H1 in Hbit by lia.
    specialize (Hbit ltac:(lia)). cbn [snd] in Hbit. replace (a + k - a) with k in Hbit by lia.
    rewrite znth_prefix in Hbit by lia. rewrite land_byte in Hbit by auto with rbp. exact Hbit. }
  assert (forall k, 252 <= k < 256 -> cell d2 (a + k) = 255) as H3.
  { intros k Hk. rewrite (write_spec _ _ _ _ _ E2) by lia. apply H1. lia. }
  destruct (negb (rc2 =? 0)); [by intros [= <- <-]|].
  destruct (EEPROM_READ a 256 d2) as [[rc3 chk] d3] eqn:E3. apply read_spec in E3 as [K3 _].
  destruct (_ || _); intros [= <- <-]; split; intros k Hk; rewrite K3; auto.
Qed.

Lemma commit_bits a page d ok d' :
  length page = 256%nat -> Bytes page ->
  (forall k, 0 <= k < 252 -> Z.land (cell d (a + k)) (znth page k) = znth page k) ->
  (forall k, 252 <= k < 256 -> cell d (a + k) = 255) ->
  program_commit a page d = (ok, d') ->
  forall k, 0 <= k < 256 -> Z.land (cell d' (a + k)) (znth page k) = znth page k.
Proof.
  intros Hp Hb H0 H1. unfold program_commit, STORE_SLOT_SIZE, COMMIT_OFF.
  assert (zlen (slice page 252 4) = 4) as Hz by (apply zlen_slice; try apply page_length in Hp; lia).
  destruct (EEPROM_WRITE (a + 252) (slice page 252 4) d) as [rc1 d1] eqn:E1.
  assert (forall k, 0 <= k < 256 -> Z.land (cell d1 (a + k)) (znth page k) = znth page k) as H2.
  { intros k Hk. destruct (decide (k < 252)).
    - rewrite (write_spec _ _ _ _ _ E1) by lia. apply H0. lia.
    - pose proof (write_bits (a + 252) (slice page 252 4) d (a + k)) as Hbit.
      rewrite E1, Hz, H1 in Hbit by lia. specialize (Hbit ltac:(lia)). cbn [snd] in Hbit.
      assert (znth (slice page 252 4) (a + k - (a + 252)) = znth page k) as Hk'.
      { unfold znth. rewrite !nth_lookup, lookup_slice by lia. do 2 f_equal. lia. }
      rewrite Hk', land_byte in Hbit by auto with rbp. exact Hbit. }
  destruct (negb (rc1 =? 0)); [by intros [= <- <-]|].
  destruct (EEPROM_READ a 256 d1) as [[rc2 chk] d2] eqn:E2. apply read_spec in E2 as [K2 _].
  destruct (_ || _); intros [= <- <-] k Hk; rewrite K2; auto.
Qed.

(** Whatever part of the first record reaches a blank slot, it is recognised. *)
Lemma first_program d ok d' : blank_slot d 0 -> program_slot 0 (sealed first_body) d = (ok, d') ->
  covers (slot_page d' 0) first_record = true.
Proof.
  intros H0. unfold program_slot. cbv zeta.
  destruct (program_body (slot_addr 0) (sealed first_body) d) as [ok1 d1] eqn:E1.
  assert (Bytes first_record) as Hb by by apply (bool_decide_unpack _); vm_compute.
  apply body_bits in E1 as [B1 B2]; [|by vm_compute|by apply (bool_decide_unpack _); vm_compute|done].
  assert (forall k, 0 <= k < 252 -> znth (sealed first_body) k = znth first_record k) as Hk.
  { intros k Hk. rewrite <- (znth_prefix first_record k 252), <- (znth_prefix (sealed first_body) k 252) by lia. f_equal. }
  assert (forall k, 0 <= k < 252 -> Z.land (cell d1 (slot_addr 0 + k)) (znth first_record k) = znth first_record k) as B1'
    by (intros k Hk'; rewrite <- Hk by lia; by apply B1).
  intros Hc. apply covers_spec. intros i Hi. unfold slot_page. rewrite cells_znth by lia.
  destruct ok1; [by eapply (commit_bits _ first_record d1 ok)|]. injection Hc as <- <-.
  destruct (decide (i < 252)); [apply B1'; lia|]. rewrite B2 by lia. apply land_byte. auto with rbp.
Qed.

Lemma blank_invalid p : is_blank p = true -> valid p = false.
Proof.
  intros Hb. unfold valid, starts_with. rewrite bool_decide_false; [done|]. intros Hs.
  unfold is_blank in Hb. rewrite forallb_forall in Hb.
  assert (In 82 p) as Hin by (rewrite <- (take_drop 4 p); apply in_or_app; left;
    change (take 4 p) with (slice p 0 (zlen RBS2)); rewrite Hs; by left).
  by specialize (Hb _ Hin).
Qed.
Lemma load_blank d : blank_slot d 0 -> blank_slot d 1 ->
  exists d', load_slots board_reset d = (board_reset <| loaded := true |> <| storage_state := 0 |>, d') /\
    forall k, cell d' k = cell d k.
Proof.
  intros H0%blank_page H1%blank_page. unfold load_slots. cbn [loaded board_reset]. unfold load_one.
  destruct (read_slot_ok 0 d) as (d1 & -> & K1). destruct (read_slot_ok 1 d1) as (d2 & R2 & K2).
  rewrite (slot_page_ext d d1 1 K1) in R2. rewrite (blank_invalid _ H0), H0. cbn [negb Z.eqb andb orb].
  rewrite R2, (blank_invalid _ H1), H1. cbn [negb Z.eqb andb orb]. exists d2.
  split; [done|]. intros k. by rewrite K2.
Qed.
End fresh_board.

Lemma begin_pair_blank d ok b' d' :
  (forall addr n d, fst (fst (EEPROM_READ addr n d)) = 0) -> blank_slot d 0 -> blank_slot d 1 ->
  board_begin_pair board_reset d = (ok, (b', d')) ->
  covers (slot_page d' 0) first_record = true /\ is_blank (slot_page d' 1) = true /\
  (ok = true -> slot_page d' 0 = first_record).
Proof.
  intros Hr H0 H1. unfold board_begin_pair. destruct (load_blank Hr d H0 H1) as (d1 & -> & K1).
  set (b1 := board_reset <| loaded := true |> <| storage_state := 0 |>).
  change (board_peer_counter b1 d1) with (0, (b1, d1)). cbv beta iota.
  change ((storage_state b1 =? 255) || _ || _) with false. cbv iota.
  unfold write_record. set (b2 := b1 <| staged_valid := false |> <| staged_hid_flags := 255 |>).
  change (load_slots b2 d1) with (b2, d1). cbv beta iota. change (storage_state b2 =? 255) with false.
  change (generation b2 =? UINT32_MAX) with false. cbv iota zeta. change (next_slot b2) with 0.
  change (u32 (0 + 1)) with 1.
  assert (new_record b2 3 None 1 = sealed first_body) as -> by (vm_compute; reflexivity).
  destruct (program_slot 0 (sealed first_body) d1) as [ok1 d2] eqn:Ep.
  assert (blank_slot d1 0) as B0 by (intros k Hk; rewrite K1; by apply H0).
  pose proof (first_program _ _ _ B0 Ep) as Hc. apply program_slot_spec in Ep as (O & _ & S); [|by vm_compute].
  assert (is_blank (slot_page d2 1) = true) as B1.
  { apply blank_page. intros k Hk. rewrite O, K1 by (unfold slot_addr, STORE_BASE, STORE_SLOT_SIZE; lia).
    by apply H1. }
  destruct ok1; intros [= <- _ <-]; (split; [exact Hc|]); (split; [exact B1|]); [exact S|discriminate].
Qed.

Lemma synced_counter b d : synced b d ->
  board_peer_counter b d = (get32 (current b) 12, (b, d)) /\ U32 (get32 (current b) 12).
Proof.
  intros (Hl & p & Hn & Hc & _). destruct (newest_valid _ _ _ Hn) as (Hi & Ep & _).
  unfold board_peer_counter, load_slots. rewrite Hl. replace (current_slot b <? 0) with false by lia.
  split; [done|]. rewrite Hc, get32_prefix, Ep by lia. apply get32_range, cells_bytes.
Qed.
End device.

(** ** A device for the witnesses

    Memory with NOR programming; the write or erase after [n] good ones fails,
    a write half way. *)
Definition nor : Type := nat * (Z -> Z).
Definition program (addr : Z) (l : list Z) (m : Z -> Z) : Z -> Z := fun a =>
  if (addr <=? a) && (a <? addr + zlen l) then Z.land (u8 (m a)) (znth l (a - addr)) else m a.
#[export] Instance nor_eeprom : Eeprom nor := {
  EEPROM_READ addr n d := (0, map (fun i => u8 (snd d (addr + Z.of_nat i))) (List.seq 0 (Z.to_nat n)), d);
  EEPROM_WRITE addr l d :=
    match d with
    | (O, m) => (1, (O, program addr (slice l 0 (zlen l / 2)) m))
    | (S n, m) => (0, (n, program addr l m))
    end;
  EEPROM_ERASE addr n d :=
    match d with
    | (O, m) => (1, (O, m))
    | (S k, m) => (0, (k, fun a => if (addr <=? a) && (a <? addr + n) then 255 else m a))
    end;
  cell d a := u8 (snd d a) }.

Lemma u8_land x y : u8 (Z.land (u8 x) y) = Z.land (u8 x) y.
Proof.
  unfold u8. change 256 with (2 ^ 8). rewrite <- !Z.land_ones by lia.
  rewrite <- !Z.land_assoc. f_equal. rewrite (Z.land_comm y), Z.land_assoc. by rewrite Z.land_diag.
Qed.
Lemma program_cell addr l m a : u8 (program addr l m a) =
  if (addr <=? a) && (a <? addr + zlen l) then Z.land (u8 (m a)) (znth l (a - addr)) else u8 (m a).
Proof. unfold program. split_if; [apply u8_land|done]. Qed.

#[export] Instance nor_ok : EepromOk nor nor_eeprom.
Proof.
  split; try done.
  - intros d a. apply u8_byte.
  - intros addr l [[|n] m] a Ha; cbn [EEPROM_WRITE nor_eeprom cell snd]; rewrite program_cell.
    + assert (zlen (slice l 0 (zlen l / 2)) = zlen l / 2) as Hz
        by (pose proof (zlen_nonneg l); apply zlen_slice; words).
      rewrite Hz. pose proof (zlen_nonneg l). assert (zlen l / 2 <= zlen l) by words. split_if; [lia|done].
    + split_if; [lia|done].
  - intros addr l [[|n] m] a Ha; cbn [EEPROM_WRITE nor_eeprom cell snd]; rewrite program_cell.
    + split_if; [|by rewrite Z.land_assoc, Z.land_diag].
      rewrite znth_prefix; [by rewrite Z.land_diag|].
      assert (zlen (slice l 0 (zlen l / 2)) = zlen l / 2) as Hz
        by (pose proof (zlen_nonneg l); apply zlen_slice; words). lia.
    + replace ((addr <=? a) && (a <? addr + zlen l)) with true by lia. by rewrite Z.land_diag.
  - intros addr n [[|k] m] a Ha; cbn; [done|]. split_if; [lia|done].
  - intros addr n [[|k] m] a; cbn; [by rewrite Z.land_diag|].
    split_if; [|by rewrite Z.land_diag]. change (u8 255) with 255. apply land_byte, u8_byte.
  - intros addr n [[|k] m] a; cbn; [done|]. intros _ Ha. split_if; [done|lia].
  - intros addr [[|k] m]; cbn; [by left|done].
Qed.

Definition fresh (n : nat) : nor := (n, fun _ => 255).
Definition sample_peer : store_record_t := StoreRecord 9 (replicate 48 65) true.
(** A board that has stored a peer, on a device with [n] good operations left. *)
Definition bonded (n : nat) : board_t * nor :=
  let '(_, (b, d)) := board_begin_pair board_reset (fresh (n + 6)) in
  let '(b, d) := board_addr_stage [1; 2; 3; 4; 5; 6] 1 b d in
  snd (store_save (Some sample_peer) b d).


Lemma triple_eta {A B C} (x : A * (B * C)) a : fst x = a -> x = (a, (fst (snd x), snd (snd x))).
Proof. intros <-. by destruct x as [? [? ?]]. Qed.
(** The board that starts after the peer of [bonded] was saved once more. *)
Definition resaved : bool * (board_t * nor) := store_save (Some sample_peer) (fst (bonded 10)) (snd (bonded 10)).
Definition restarted : board_t * nor := load_slots board_reset (snd (snd resaved)).

(** C24: The first pairing survives a torn write: on a blank board whose reads
    work, whatever command of [board_begin_pair] fails and however far it got,
    the board that starts next is blank again or has the pairing to roll back
    (never the corrupt state, in which nothing can be paired), and it has the
    pairing if the write was reported done. *)
Theorem first_pairing_recovers {D} `{E : Eeprom D} `{!EepromOk D E} d ok b' d' b2 d2 :
  (forall addr n d, fst (fst (EEPROM_READ addr n d)) = 0) -> blank_slot d 0 -> blank_slot d 1 ->
  board_begin_pair board_reset d = (ok, (b', d')) -> load_slots board_reset d' = (b2, d2) ->
  (storage_state b2 = 0 \/ storage_state b2 = 3) /\ (ok = true -> storage_state b2 = 3).
Proof.
  intros Hr H0 H1 Hp Hl. destruct (begin_pair_blank d ok b' d' Hr H0 H1 Hp) as (Hc & Hb & Hok).
  destruct (load_first Hr d' b2 d2 Hb Hc Hl) as [Hs Hv]. split; [tauto|].
  intros Ho. apply Hv. rewrite (Hok Ho). vm_compute. reflexivity.
Qed.
Lemma first_pairing_recovers_witness :
  let '(_, (_, d')) := board_begin_pair board_reset (fresh 1) in
  storage_state (fst (load_slots board_reset d')) = 3.
Proof.
  assert (forall addr n (d : nor), fst (fst (EEPROM_READ addr n d)) = 0) as Hr by reflexivity.
  destruct (first_pairing_recovers (fresh 1) (fst (board_begin_pair board_reset (fresh 1)))
    (fst (snd (board_begin_pair board_reset (fresh 1))))
    (snd (snd (board_begin_pair board_reset (fresh 1))))
    (fst (load_slots board_reset (snd (snd (board_begin_pair board_reset (fresh 1))))))
    (snd (load_slots board_reset (snd (snd (board_begin_pair board_reset (fresh 1)))))) Hr) as [[H|H] _].
  - done.
  - done.
  - destruct (board_begin_pair _ _) as [? [? ?]]. reflexivity.
  - apply surjective_pairing.
  - exfalso. vm_compute in H. discriminate.
  - exact H.
Defined.
