(* ===== verification/CacheStore.v ===== *)
(** * The GATT cache of the board

    cache_store.inc keeps the discovered attribute handles of the bonded remote
    in two 512-byte slots of the same EEPROM as the bond journal ("GCS1"), a
    record per save, an empty one as tombstone.  The device and the bond journal
    are those of [Board]; the abstract contents of the cache are [cached], and
    the theorems show that saving replaces them atomically and loading returns
    them. *)
From S2P Require Import Prelude Crc32c Cobs Frame Board.

Section cache.
Context {D : Type} `{E : Eeprom D}.
Implicit Types (b : board_t) (d : D).

Definition gac_addr (i : Z) : Z := BOARD_CACHE_BASE + i * 512.

(** One round of the scan: [false] is a read error. *)
Definition gac_probe (i : Z) b d : bool * (board_t * D) :=
  let '(rc, page, d) := EEPROM_READ (gac_addr i) 512 d in
  if negb (rc =? 0) then (false, (b <| gac_io_failed := true |>, d))
  else (true, (if gac_valid page && ((gac_slot b <? 0) || (gac_generation b <? get32 page 4))
               then b <| gac_slot := i |> <| gac_generation := get32 page 4 |> else b, d)).
Definition gac_scan b d : bool * (board_t * D) :=
  if gac_loaded b then (true, (b, d))
  else
    let b := b <| gac_slot := -1 |> <| gac_generation := 0 |> in
    let '(ok, (b, d)) := gac_probe 0 b d in
    if negb ok then (false, (b, d))
    else
      let '(ok, (b, d)) := gac_probe 1 b d in
      if negb ok then (false, (b, d)) else (true, (b <| gac_loaded := true |>, d)).
(** The page, [None] for [false]. *)
Definition gac_read_latest b d : option (list Z) * (board_t * D) :=
  let '(ok, (b, d)) := gac_scan (b <| gac_io_failed := false |>) d in
  if negb ok then (None, (b, d))
  else if gac_slot b <? 0 then (None, (b, d))
  else
    let '(rc, page, d) := EEPROM_READ (gac_addr (gac_slot b)) 512 d in
    if negb (rc =? 0) then (None, (b <| gac_io_failed := true |>, d))
    else (if gac_valid page then Some page else None, (b, d)).

(** The peer is the one of the committed bond record. *)
Definition bond_is (peer : Z) b : bool :=
  negb (peer =? 0) && (storage_state b =? 1) && (get32 (current b) 16 =? peer).
(** The bytes copied to [out], whose number is the result. *)
Definition board_cache_load (peer cap : Z) b d : list Z * (board_t * D) :=
  let '(b, d) := load_slots b d in
  if negb (bond_is peer b) then ([], (b, d))
  else
    match gac_read_latest b d with
    | (None, s) => ([], s)
    | (Some page, s) =>
      if negb (get32 page 8 =? peer) || (cap <? get32 page 12) then ([], s)
      else (slice page 16 (get32 page 12), s)
    end.

Definition gac_body (gen peer : Z) (data : list Z) : list Z :=
  let p := replicate 512 255 in
  let p := splice p 0 GCS1 in
  let p := splice p 4 (put32 (u32 (gen + 1))) in
  let p := splice p 8 (put32 peer) in
  let p := splice p 12 (put32 (zlen data)) in
  splice p 16 data.
Definition gac_sealed (p : list Z) : list Z := splice p GAC_CRC (put32 (rbp_crc32c (slice p 0 GAC_CRC))).

(** The body is read back in pieces of 32 bytes. *)
Fixpoint verify_pieces (addr off : Z) (page : list Z) (fuel : nat) d : bool * D :=
  match fuel with
  | O => (true, d)
  | S fuel =>
    if GAC_COMMIT <=? off then (true, d)
    else
      let count := Z.min (GAC_COMMIT - off) 32 in
      let '(rc, check, d) := EEPROM_READ (addr + off) count d in
      if negb (rc =? 0) || negb (bool_decide (slice page off count = slice check 0 count)) then (false, d)
      else verify_pieces addr (off + 32) page fuel d
  end.
Definition gac_program_body (addr : Z) (page : list Z) d : bool * D :=
  let '(rc, d) := EEPROM_ERASE addr 256 d in
  if negb (rc =? 0) then (false, d) else
  let '(rc, d) := EEPROM_ERASE (addr + 256) 256 d in
  if negb (rc =? 0) then (false, d) else
  let '(rc, d) := EEPROM_WRITE addr (slice page 0 GAC_COMMIT) d in
  if negb (rc =? 0) then (false, d) else verify_pieces addr 0 page 16 d.
Definition gac_program_commit (addr : Z) d : bool * D :=
  let word := put32 GAC_WORD in
  let '(rc, d) := EEPROM_WRITE (addr + GAC_COMMIT) word d in
  if negb (rc =? 0) then (false, d) else
  let '(rc, check, d) := EEPROM_READ (addr + GAC_COMMIT) 4 d in
  if negb (rc =? 0) || negb (bool_decide (word = slice check 0 4)) then (false, d) else (true, d).
Definition gac_program (slot : Z) (page : list Z) d : bool * D :=
  let addr := gac_addr slot in
  let '(ok, d) := gac_program_body addr page d in
  if ok then gac_program_commit addr d else (false, d).

(** The latest record already says what is to be saved. *)
Definition holds (have : option (list Z)) (peer : Z) (data : list Z) : bool :=
  match have with
  | Some page => (get32 page 8 =? peer) && (get32 page 12 =? zlen data) &&
                 bool_decide (slice page 16 (zlen data) = data)
  | None => zlen data =? 0
  end.
(** [data] is the buffer and its length. *)
Definition board_cache_save (peer : Z) (data : list Z) b d : bool * (board_t * D) :=
  let '(b, d) := load_slots b d in
  if negb (bond_is peer b) || (BOARD_CACHE_MAX <? zlen data) then (false, (b, d))
  else
    let '(have, (b, d)) := gac_read_latest b d in
    if negb (gac_loaded b) || gac_io_failed b then (false, (b, d))
    else
      if holds have peer data then (true, (b, d))
      else if gac_generation b =? UINT32_MAX then (false, (b, d))
      else
        let page := gac_sealed (gac_body (gac_generation b) peer data) in
        let slot := if gac_slot b <? 0 then 0 else 1 - gac_slot b in
        let '(ok, d) := gac_program slot page d in
        if ok
        then (true, (b <| gac_slot := slot |> <| gac_generation := u32 (gac_generation b + 1) |>, d))
        else (false, (b, d)).
End cache.

(** ** The layout of a cache record *)
Definition gac_page (gen peer : Z) (data crc commit : list Z) : list Z :=
  (GCS1 ++ put32 gen ++ put32 peer ++ put32 (zlen data) ++ data ++ replicate (488 - length data) 255) ++
  crc ++ commit.
Lemma replicate_parts (n m : nat) : (m <= n)%nat -> replicate n (255 : Z) = replicate m 255 ++ replicate (n - m) 255.
Proof. intros. rewrite <- replicate_add. f_equal. lia. Qed.
Lemma splice_at {A} (a b c e : list A) pos : pos = zlen a -> length b = length e ->
  splice (a ++ b ++ c) pos e = a ++ e ++ c.
Proof. intros ->. apply splice_mid. Qed.
Lemma splice_front {A} (b c e : list A) : length b = length e -> splice (b ++ c) 0 e = e ++ c.
Proof. exact (splice_at [] b c e 0 eq_refl). Qed.
Lemma gac_body_layout gen peer data : zlen data <= 384 ->
  gac_body gen peer data = gac_page (u32 (gen + 1)) peer data (replicate 4 255) (replicate 4 255).
Proof.
  intros Hn. assert (length data <= 384)%nat as Hl by (unfold zlen in Hn; lia). unfold gac_body, gac_page.
  assert (replicate 512 255 = replicate 4 255 ++ replicate 4 255 ++ replicate 4 255 ++ replicate 4 255 ++
    replicate (length data) 255 ++ replicate (488 - length data) 255 ++ replicate 8 255) as ->.
  { rewrite (replicate_parts 512 4), (replicate_parts (512 - 4) 4), (replicate_parts (512 - 4 - 4) 4),
      (replicate_parts (512 - 4 - 4 - 4) 4), (replicate_parts (512 - 4 - 4 - 4 - 4) (length data)),
      (replicate_parts (512 - 4 - 4 - 4 - 4 - length data) (488 - length data)) by lia.
    do 6 f_equal. f_equal. lia. }
  rewrite splice_front by done.
  rewrite (splice_at GCS1) by done. rewrite (app_assoc GCS1).
  rewrite (splice_at (GCS1 ++ put32 _)) by done. rewrite (app_assoc (GCS1 ++ _)).
  rewrite (splice_at ((GCS1 ++ put32 _) ++ put32 _)) by done. rewrite (app_assoc ((GCS1 ++ _) ++ _)).
  rewrite (splice_at (((GCS1 ++ put32 _) ++ put32 _) ++ put32 _)) by first [done|by rewrite length_replicate].
  rewrite <- !app_assoc. done.
Qed.
Definition gac_head (gen peer : Z) (data : list Z) : list Z :=
  GCS1 ++ put32 gen ++ put32 peer ++ put32 (zlen data) ++ data ++ replicate (488 - length data) 255.
Lemma gac_head_length gen peer data : zlen data <= 384 -> length (gac_head gen peer data) = 504%nat.
Proof. intros H. unfold zlen in H. unfold gac_head. rewrite !length_app, length_replicate. cbn [length put32 GCS1]. lia. Qed.

(** The bytes after a prefix of known length. *)
Lemma slice_app_at {A} (a b c : list A) pos n : pos = zlen a -> n = zlen b -> slice (a ++ b ++ c) pos n = b.
Proof.
  intros -> ->. unfold slice, zlen. rewrite !Nat2Z.id, drop_app_ge, Nat.sub_diag, drop_0 by lia.
  rewrite take_app_le by lia. apply take_ge. lia.
Qed.
Lemma slice_front {A} (b c : list A) n : n = zlen b -> slice (b ++ c) 0 n = b.
Proof. exact (slice_app_at [] b c 0 n eq_refl). Qed.
Lemma get32_at a v c pos : pos = zlen a -> U32 v -> get32 (a ++ put32 v ++ c) pos = v.
Proof.
  intros Hp Hv. apply get32_field; [pose proof (zlen_nonneg a); lia| |done]. by apply slice_app_at.
Qed.

Lemma gac_read gen peer data crc commit :
  zlen data <= 384 -> U32 gen -> U32 peer -> length crc = 4%nat -> length commit = 4%nat ->
  let p := gac_page gen peer data crc commit in
  starts_with p GCS1 = true /\ get32 p 4 = gen /\ get32 p 8 = peer /\ get32 p 12 = zlen data /\
  slice p 16 (zlen data) = data /\ slice p 0 504 = gac_head gen peer data /\ slice p 504 4 = crc /\
  slice p 508 4 = commit.
Proof.
  intros Hn Hg Hp Hc Hm p. pose proof (gac_head_length gen peer data Hn) as Hh.
  assert (U32 (zlen data)) as Hd by (pose proof (zlen_nonneg data); unfold U32; lia).
  assert (p = GCS1 ++ put32 gen ++ put32 peer ++ put32 (zlen data) ++ data ++
    replicate (488 - length data) 255 ++ crc ++ commit) as Ep by (unfold p, gac_page; by rewrite <- !app_assoc).
  split_and!.
  - unfold starts_with. apply bool_decide_true. rewrite Ep. by apply slice_front.
  - rewrite Ep. by apply get32_at.
  - rewrite Ep. rewrite app_assoc. by apply get32_at.
  - rewrite Ep. rewrite !(app_assoc GCS1), (app_assoc (GCS1 ++ _)). by apply get32_at.
  - rewrite Ep. rewrite !(app_assoc GCS1), !(app_assoc (GCS1 ++ _)), (app_assoc ((GCS1 ++ _) ++ _)).
    by apply slice_app_at.
  - apply (slice_front (gac_head gen peer data)). unfold zlen. by rewrite Hh.
  - apply (slice_app_at (gac_head gen peer data)); unfold zlen; lia.
  - unfold p, gac_page. fold (gac_head gen peer data). rewrite app_assoc.
    pose proof (slice_app_at (gac_head gen peer data ++ crc) commit [] 508 4) as H. rewrite app_nil_r in H.
    apply H; unfold zlen; rewrite ?length_app; lia.
Qed.
Definition gac_seal (gen peer : Z) (data : list Z) : list Z := put32 (rbp_crc32c (gac_head gen peer data)).

Lemma gac_sealed_layout gen peer data commit :
  zlen data <= 384 -> length commit = 4%nat ->
  gac_sealed (gac_page gen peer data (replicate 4 255) commit) =
  gac_page gen peer data (gac_seal gen peer data) commit.
Proof.
  intros Hn Hc. pose proof (gac_head_length gen peer data Hn) as Hh.
  unfold gac_sealed, gac_page, GAC_CRC. fold (gac_head gen peer data).
  rewrite (slice_front (gac_head gen peer data) _ 504) by (unfold zlen; by rewrite Hh).
  apply splice_at; [unfold zlen; rewrite Hh|]; done.
Qed.

Definition gac_fields_ok (gen peer : Z) (data : list Z) : Prop :=
  U32 gen /\ U32 peer /\ zlen data <= 384 /\ Bytes data.
Definition gac_final (gen peer : Z) (data : list Z) : list Z :=
  gac_page gen peer data (gac_seal gen peer data) (put32 GAC_WORD).
Lemma gac_final_gen gen peer data : gac_fields_ok gen peer data -> get32 (gac_final gen peer data) 4 = gen.
Proof. intros (Hg & Hp & Hn & _). by apply (gac_read gen peer data). Qed.
Lemma gac_final_valid gen peer data : gac_fields_ok gen peer data -> gac_valid (gac_final gen peer data) = true.
Proof.
  intros (Hg & Hp & Hn & Hb).
  destruct (gac_read gen peer data (gac_seal gen peer data) (put32 GAC_WORD) Hn Hg Hp) as
    (F0 & _ & _ & F3 & _ & F5 & F6 & F7); [done..|]. fold (gac_final gen peer data) in F0, F3, F5, F6, F7.
  assert (Bytes (gac_head gen peer data)) as Hh.
  { unfold gac_head. repeat (apply Forall_app; split); try apply put32_bytes; try done;
      [by apply (bool_decide_unpack _); vm_compute|apply Forall_replicate; unfold Byte; lia]. }
  unfold gac_valid, crc_ok, GAC_CRC, GAC_COMMIT, BOARD_CACHE_MAX.
  rewrite (get32_field _ 504 _ ltac:(lia) F6) by by apply crc_range.
  rewrite (get32_field _ 508 _ ltac:(lia) F7) by done. rewrite F0, F3, F5, !Z.eqb_refl. cbn [andb]. lia.
Qed.

(** ** Programming a cache slot *)
Section device.
Context {D : Type} `{E : Eeprom D} `{!EepromOk D E}.
Implicit Types (b : board_t) (d : D).

Lemma gac_uncommitted d a : (forall k, 508 <= k < 512 -> cell d (a + k) = 255) ->
  gac_valid (cells d a 512) = false.
Proof.
  intros H. unfold gac_valid. replace (get32 (cells d a 512) GAC_COMMIT =? GAC_WORD) with false.
  - by rewrite andb_false_r.
  - unfold get32, GAC_COMMIT. by rewrite !cells_znth, !H by lia.
Qed.
Lemma gac_unmarked d a : cell d a = 255 -> gac_valid (cells d a 512) = false.
Proof.
  intros H. unfold gac_valid, starts_with. rewrite bool_decide_false; [done|].
  change (zlen GCS1) with 4. rewrite cells_slice by lia. intros Hs.
  assert (znth (cells d (a + 0) 4) 0 = 71) as H0 by (by rewrite Hs).
  rewrite cells_znth in H0 by lia. replace (a + 0 + 0) with a in H0 by lia. congruence.
Qed.

Lemma verify_pieces_spec a page fuel : length page = 512%nat -> forall off d ok d', 0 <= off ->
  verify_pieces a off page fuel d = (ok, d') ->
  (forall k, cell d' k = cell d k) /\
  (ok = true -> 508 - off <= 32 * Z.of_nat fuel -> forall k, off <= k < 508 -> cell d (a + k) = znth page k).
Proof.
  intros Hp. induction fuel as [|fuel IH]; intros off d ok d' Ho; cbn [verify_pieces].
  { intros [= <- <-]. split; [done|]. lia. }
  unfold GAC_COMMIT. destruct (508 <=? off) eqn:Eo; [intros [= <- <-]; split; [done|]; lia|].
  set (count := Z.min (508 - off) 32).
  destruct (EEPROM_READ (a + off) count d) as [[rc chk] d1] eqn:R. apply read_spec in R as [K R].
  destruct (_ || _) eqn:F; [intros [= <- <-]; split; [done|discriminate]|].
  intros H. apply IH in H as [K2 H2]; [|lia]. split; [intros k; by rewrite K2|].
  intros Hok Hf k Hk. destruct (decide (k < off + 32)).
  - apply verified in F as [F1 F2]. rewrite (R F1), cells_slice in F2 by lia.
    assert (znth (slice page off count) (k - off) = znth page k) as Hz.
    { unfold znth. rewrite !nth_lookup, lookup_slice by lia. do 2 f_equal. lia. }
    rewrite <- Hz, F2, cells_znth by lia. f_equal. lia.
  - rewrite <- K. apply H2; [done|lia|lia].
Qed.

Lemma cells_eq d a n l : zlen l = n -> (forall k, 0 <= k < n -> cell d (a + k) = znth l k) -> cells d a n = l.
Proof.
  intros Hl H. pose proof (zlen_nonneg l). apply list_eq. intros i. destruct (decide (Z.of_nat i < n)).
  - rewrite lookup_cells by lia. rewrite H by lia. symmetry. unfold znth. rewrite Nat2Z.id.
    destruct (l !! i) eqn:Ei; [by rewrite (nth_lookup_Some _ _ _ _ Ei)|].
    apply lookup_ge_None in Ei. unfold zlen in Hl. lia.
  - rewrite !(proj2 (lookup_ge_None _ _)); [done| |rewrite cells_length; lia]. unfold zlen in Hl. lia.
Qed.

Lemma gac_body_spec a page d ok d' :
  length page = 512%nat -> gac_program_body a page d = (ok, d') ->
  (forall k, k < a \/ a + 512 <= k -> cell d' k = cell d k) /\
  if ok then cells d' a 508 = slice page 0 508
  else cells d' a 512 = cells d a 512 \/ gac_valid (cells d' a 512) = false.
Proof.
  intros Hp. unfold gac_program_body, GAC_COMMIT.
  assert (zlen (slice page 0 508) = 508) as Hz by (apply zlen_slice; unfold zlen; lia).
  destruct (EEPROM_ERASE a 256 d) as [rc1 d1] eqn:E1. apply erase_spec in E1 as (O1 & D1 & T1).
  destruct (rc1 =? 0) eqn:R1; cbn [negb].
  2:{ intros [= <- <-]. split; [intros; apply O1; lia|]. destruct T1 as [T1|[_ T1]]; [lia| |by right].
      left. apply cells_ext. intros k _. apply T1. }
  specialize (D1 ltac:(lia)).
  destruct (EEPROM_ERASE (a + 256) 256 d1) as [rc2 d2] eqn:E2. apply erase_spec in E2 as (O2 & D2 & _).
  assert (forall k, k < a \/ a + 512 <= k -> cell d2 k = cell d k) as O2'
    by (intros k Hk; rewrite O2 by lia; apply O1; lia).
  destruct (rc2 =? 0) eqn:R2; cbn [negb].
  2:{ intros [= <- <-]. split; [done|]. right. apply gac_unmarked. rewrite O2 by lia. apply D1. lia. }
  specialize (D2 ltac:(lia)).
  destruct (EEPROM_WRITE a (slice page 0 508) d2) as [rc3 d3] eqn:E3.
  pose proof (write_spec _ _ _ _ _ E3) as O3. rewrite Hz in O3.
  assert (forall k, k < a \/ a + 512 <= k -> cell d3 k = cell d k) as O3'
    by (intros k Hk; rewrite O3 by lia; by apply O2').
  assert (gac_valid (cells d3 a 512) = false) as V3
    by (apply gac_uncommitted; intros k Hk; rewrite O3 by lia; apply D2; lia).
  destruct (rc3 =? 0); cbn [negb]; [|by intros [= <- <-]; split; [|right]].
  intros H. apply verify_pieces_spec in H as [K4 V4]; [|done|lia].
  split; [intros k Hk; rewrite K4; by apply O3'|]. destruct ok.
  - apply cells_eq; [done|]. intros k Hk. rewrite K4, znth_prefix by lia. apply V4; [done|lia|lia].
  - right. by rewrite (cells_ext d3 d') by (intros; apply K4).
Qed.

Lemma gac_commit_spec a d ok d' :
  gac_program_commit a d = (ok, d') ->
  (forall k, k < a \/ a + 512 <= k -> cell d' k = cell d k) /\
  (gac_valid (cells d' a 512) = false \/ cells d' a 512 = cells d a 508 ++ put32 GAC_WORD) /\
  (ok = true -> cells d' a 512 = cells d a 508 ++ put32 GAC_WORD).
Proof.
  unfold gac_program_commit, GAC_COMMIT.
  destruct (EEPROM_WRITE (a + 508) (put32 GAC_WORD) d) as [rc1 d1] eqn:E1.
  pose proof (write_spec _ _ _ _ _ E1) as O1. change (zlen (put32 GAC_WORD)) with 4 in O1.
  assert (forall d2, (forall k, cell d2 k = cell d1 k) ->
    (forall k, k < a \/ a + 512 <= k -> cell d2 k = cell d k) /\
    cells d2 a 512 = cells d a 508 ++ cells d1 (a + 508) 4) as Hall.
  { intros d2 K. split; [intros k Hk; rewrite K; apply O1; lia|].
    rewrite (cells_split d2 a 512 508) by lia. f_equal; apply cells_ext; intros; rewrite K; [apply O1; lia|done]. }
  assert (forall d2, (forall k, cell d2 k = cell d1 k) ->
    gac_valid (cells d2 a 512) = false \/ cells d2 a 512 = cells d a 508 ++ put32 GAC_WORD) as Hv.
  { intros d2 K. destruct (Hall d2 K) as [_ Hc]. destruct (get32 (cells d2 a 512) GAC_COMMIT =? GAC_WORD) eqn:G.
    - right. rewrite Hc. f_equal. apply get32_bytes; [by rewrite cells_length|apply cells_bytes|].
      apply Z.eqb_eq in G. rewrite get32_slice, cells_slice in G by (unfold GAC_COMMIT; lia).
      rewrite (cells_ext d1 d2) in G by (intros; apply K). exact G.
    - left. unfold gac_valid. rewrite G. by rewrite andb_false_r. }
  destruct (rc1 =? 0); cbn [negb].
  2:{ intros [= <- <-]. split; [apply Hall; done|]. split; [by apply Hv|done]. }
  destruct (EEPROM_READ (a + 508) 4 d1) as [[rc2 chk] d2] eqn:E2. apply read_spec in E2 as [K2 R2].
  destruct (_ || _) eqn:F; intros [= <- <-]; (split; [by apply Hall|]); (split; [by apply Hv|]); [done|].
  intros _. apply verified in F as [F1 F2]. rewrite (proj2 (Hall d2 K2)), F2, (R2 F1).
  done.
Qed.

Lemma gac_program_spec slot gen peer data d ok d' :
  gac_fields_ok gen peer data ->
  gac_program slot (gac_page gen peer data (gac_seal gen peer data) (replicate 4 255)) d = (ok, d') ->
  let a := gac_addr slot in
  (forall k, k < a \/ a + 512 <= k -> cell d' k = cell d k) /\
  (cells d' a 512 = cells d a 512 \/ gac_valid (cells d' a 512) = false \/
   cells d' a 512 = gac_final gen peer data) /\
  (ok = true -> cells d' a 512 = gac_final gen peer data).
Proof.
  intros (Hg & Hp & Hn & Hb). unfold gac_program. set (a := gac_addr slot). cbv zeta.
  pose proof (gac_head_length gen peer data Hn) as Hh.
  set (page := gac_page gen peer data (gac_seal gen peer data) (replicate 4 255)).
  assert (page = (gac_head gen peer data ++ gac_seal gen peer data) ++ replicate 4 255) as Ep
    by (rewrite <- app_assoc; done).
  assert (length page = 512%nat) as Hl by (rewrite Ep, !length_app, Hh; done).
  destruct (gac_program_body a page d) as [ok1 d1] eqn:E1. apply gac_body_spec in E1 as [O1 B1]; [|done].
  destruct ok1; [|intros [= <- <-]; split; [done|]; split; [tauto|done]].
  intros E2. apply gac_commit_spec in E2 as (O2 & C2 & S2).
  assert (cells d1 a 508 ++ put32 GAC_WORD = gac_final gen peer data) as Ef.
  { rewrite B1, Ep, slice_front by (unfold zlen; rewrite length_app, Hh; done). rewrite <- app_assoc. done. }
  rewrite Ef in C2, S2. split; [intros k Hk; rewrite O2 by done; by apply O1|]. split; [tauto|done].
Qed.

(** ** The newest record and its contents *)
Definition gac_slot_page d (i : Z) : list Z := cells d (gac_addr i) 512.
Definition gac_newest d : option (Z * list Z) :=
  let p0 := gac_slot_page d 0 in
  let p1 := gac_slot_page d 1 in
  if gac_valid p0 then if gac_valid p1 && (get32 p0 4 <? get32 p1 4) then Some (1, p1) else Some (0, p0)
  else if gac_valid p1 then Some (1, p1) else None.
(** What the cache holds for a peer. *)
Definition cached d (peer : Z) : list Z :=
  match gac_newest d with
  | Some (_, p) => if get32 p 8 =? peer then slice p 16 (get32 p 12) else []
  | None => []
  end.
(** The position in memory, once found, is that of the newest record. *)
Definition gac_synced b d : Prop :=
  gac_loaded b = true ->
  match gac_newest d with
  | Some (i, p) => gac_slot b = i /\ gac_generation b = get32 p 4
  | None => gac_slot b = -1 /\ gac_generation b = 0
  end.

Lemma gac_newest_valid d i p : gac_newest d = Some (i, p) ->
  (i = 0 \/ i = 1) /\ p = gac_slot_page d i /\ gac_valid p = true.
Proof.
  unfold gac_newest. destruct (gac_valid (gac_slot_page d 0)) eqn:V0;
    [destruct (gac_valid _ && _) eqn:V1|destruct (gac_valid (gac_slot_page d 1)) eqn:V1];
    intros [= <- <-]; auto. apply andb_true_iff in V1 as [V1 _]. auto.
Qed.
Lemma gac_newest_ext d d' : (forall k, cell d' k = cell d k) -> gac_newest d' = gac_newest d.
Proof.
  intros H. unfold gac_newest, gac_slot_page. by rewrite !(cells_ext d d') by (intros; apply H).
Qed.
(** The data of a record fit its page. *)
Lemma gac_newest_room d i p : gac_newest d = Some (i, p) -> zlen (slice p 16 (get32 p 12)) = get32 p 12.
Proof.
  intros (_ & Ep & Hv)%gac_newest_valid. unfold gac_valid, BOARD_CACHE_MAX in Hv. rewrite !andb_true_iff in Hv.
  assert (U32 (get32 p 12)) as H12 by (rewrite Ep; apply get32_range, cells_bytes).
  apply zlen_slice; [lia|apply H12|]. rewrite Ep at 2. unfold gac_slot_page. rewrite zlen_cells; lia.
Qed.
Lemma cached_ext d d' peer : (forall k, cell d' k = cell d k) -> cached d' peer = cached d peer.
Proof. intros H. unfold cached. by rewrite (gac_newest_ext d d' H). Qed.

Lemma gac_probe_spec i b d ok b' d' : gac_probe i b d = (ok, (b', d')) ->
  (forall k, cell d' k = cell d k) /\
  if ok then b' = if gac_valid (gac_slot_page d i) &&
                     ((gac_slot b <? 0) || (gac_generation b <? get32 (gac_slot_page d i) 4))
                  then b <| gac_slot := i |> <| gac_generation := get32 (gac_slot_page d i) 4 |> else b
  else b' = b <| gac_io_failed := true |>.
Proof.
  unfold gac_probe. destruct (EEPROM_READ _ _ d) as [[rc page] d1] eqn:R.
  apply read_spec in R as [K P]. destruct (rc =? 0) eqn:E0; cbn [negb]; intros [= <- <- <-]; [|done].
  split; [done|]. by rewrite P by lia.
Qed.

(** Only the variables of the cache differ. *)
Definition same_bond b b' : Prop :=
  exists s g l f, b' = b <| gac_slot := s |> <| gac_generation := g |> <| gac_loaded := l |> <| gac_io_failed := f |>.
Lemma same_bond_refl b : same_bond b b.
Proof. exists (gac_slot b), (gac_generation b), (gac_loaded b), (gac_io_failed b). by destruct b. Qed.
Lemma same_bond_trans b b1 b2 : same_bond b b1 -> same_bond b1 b2 -> same_bond b b2.
Proof. intros (? & ? & ? & ? & ->) (s & g & l & f & ->). by exists s, g, l, f. Qed.
Lemma probe_same i b d ok b' d' : gac_probe i b d = (ok, (b', d')) -> same_bond b b' /\ gac_loaded b' = gac_loaded b /\
  (ok = true -> gac_io_failed b' = gac_io_failed b) /\ (ok = false -> gac_io_failed b' = true).
Proof.
  intros [_ H]%gac_probe_spec.
  assert (forall c, c = b \/ (exists i g, c = b <| gac_slot := i |> <| gac_generation := g |>) \/
    c = b <| gac_io_failed := true |> -> same_bond b c) as Hs.
  { intros c [->|[(j & g & ->)| ->]]; [apply same_bond_refl| |].
    - exists j, g, (gac_loaded b), (gac_io_failed b). by destruct b.
    - exists (gac_slot b), (gac_generation b), (gac_loaded b), true. by destruct b. }
  destruct ok; subst b'; [destruct (_ && _)|]; (split; [apply Hs; eauto 6|done]).
Qed.

Lemma gac_scan_spec b d ok b' d' : gac_synced b d -> gac_scan b d = (ok, (b', d')) ->
  (forall k, cell d' k = cell d k) /\ same_bond b b' /\
  if ok then gac_loaded b' = true /\ gac_synced b' d' /\ gac_io_failed b' = gac_io_failed b
  else gac_io_failed b' = true.
Proof.
  intros Hsy. unfold gac_scan. destruct (gac_loaded b) eqn:El.
  { intros [= <- <- <-]. split; [done|]. split; [apply same_bond_refl|done]. }
  set (b0 := b <| gac_slot := -1 |> <| gac_generation := 0 |>).
  assert (same_bond b b0) as S0 by (exists (-1), 0, (gac_loaded b), (gac_io_failed b); by destruct b).
  destruct (gac_probe 0 b0 d) as [ok1 [b1 d1]] eqn:E1. pose proof (probe_same _ _ _ _ _ _ E1) as (S1 & L1 & F1 & G1).
  apply gac_probe_spec in E1 as [K1 R1].
  destruct ok1; cbn [negb].
  2:{ intros [= <- <- <-]. split; [done|]. split; [exact (same_bond_trans _ _ _ S0 S1)|auto]. }
  destruct (gac_probe 1 b1 d1) as [ok2 [b2 d2]] eqn:E2. pose proof (probe_same _ _ _ _ _ _ E2) as (S2 & L2 & F2 & G2).
  apply gac_probe_spec in E2 as [K2 R2].
  assert (forall k, cell d2 k = cell d k) as K by (intros k; rewrite K2; apply K1).
  assert (same_bond b b2) as S3 by exact (same_bond_trans _ _ _ (same_bond_trans _ _ _ S0 S1) S2).
  destruct ok2; cbn [negb].
  2:{ intros [= <- <- <-]. split; [done|]. split; [done|auto]. }
  intros [= <- <- <-]. split; [done|]. split.
  { eapply same_bond_trans; [exact S3|]. exists (gac_slot b2), (gac_generation b2), true, (gac_io_failed b2). by destruct b2. }
  split; [done|]. split; [|exact (eq_trans (F2 eq_refl) (F1 eq_refl))].
  intros _. rewrite (gac_newest_ext d d2 K). unfold gac_newest.
  assert (gac_slot_page d1 1 = gac_slot_page d 1) as Ep by (apply cells_ext; intros; apply K1).
  rewrite Ep in R2. change (gac_slot b0) with (-1) in R1. cbn [Z.ltb Z.compare orb] in R1. rewrite andb_true_r in R1.
  rewrite R2. destruct (gac_valid (gac_slot_page d 0)); rewrite R1.
  - change (gac_slot (b0 <| gac_slot := 0 |> <| gac_generation := get32 (gac_slot_page d 0) 4 |>) <? 0) with false.
    change (gac_generation (b0 <| gac_slot := 0 |> <| gac_generation := get32 (gac_slot_page d 0) 4 |>))
      with (get32 (gac_slot_page d 0) 4). cbn [orb]. destruct (gac_valid (gac_slot_page d 1) && (get32 (gac_slot_page d 0) 4 <? get32 (gac_slot_page d 1) 4)); split; reflexivity.
  - change (gac_slot b0 <? 0) with true. cbn [orb]. rewrite andb_true_r. destruct (gac_valid (gac_slot_page d 1)); cbv iota beta; split; reflexivity.
Qed.

Lemma gac_read_latest_spec b d r b' d' : gac_synced b d -> gac_read_latest b d = (r, (b', d')) ->
  (forall k, cell d' k = cell d k) /\ same_bond b b' /\
  (gac_io_failed b' = true /\ r = None \/
   gac_io_failed b' = false /\ gac_loaded b' = true /\ gac_synced b' d' /\ r = snd <$> gac_newest d).
Proof.
  intros Hsy. unfold gac_read_latest. set (b0 := b <| gac_io_failed := false |>).
  assert (same_bond b b0) as S0
    by (exists (gac_slot b), (gac_generation b), (gac_loaded b), false; by destruct b).
  destruct (gac_scan b0 d) as [ok [b1 d1]] eqn:E1. apply gac_scan_spec in E1 as (K1 & S1 & R1); [|done].
  pose proof (same_bond_trans _ _ _ S0 S1) as S. destruct ok; cbn [negb].
  2:{ intros [= <- <- <-]. auto. }
  destruct R1 as (L1 & Y1 & F1). change (gac_io_failed b0) with false in F1. pose proof (Y1 L1) as Y.
  rewrite (gac_newest_ext d d1 K1) in Y. destruct (gac_newest d) as [[i p]|] eqn:En.
  2:{ destruct Y as [-> _]. cbn. intros [= <- <- <-]. auto 7. }
  destruct Y as [Hi Hg]. destruct (gac_newest_valid _ _ _ En) as (Hi' & Ep & Hv). rewrite Hi.
  replace (i <? 0) with false by lia.
  destruct (EEPROM_READ (gac_addr i) 512 d1) as [[rc page] d2] eqn:R2. apply read_spec in R2 as [K2 P2].
  assert (forall k, cell d2 k = cell d k) as K by (intros k; rewrite K2; apply K1).
  destruct (rc =? 0) eqn:E0; cbn [negb]; intros [= <- <- <-]; (split; [done|]).
  - split; [done|]. right. split; [done|]. split; [done|]. split; [intros _; by rewrite (gac_newest_ext d d2 K), En|].
    rewrite P2 by lia. rewrite (cells_ext d d1) by (intros; apply K1). fold (gac_slot_page d i).
    rewrite <- Ep, Hv. done.
  - split; [|by left]. eapply same_bond_trans; [exact S|].
    exists (gac_slot b1), (gac_generation b1), (gac_loaded b1), true. by destruct b1.
Qed.

(** The slot the next record goes to. *)
Definition gac_target d : Z := match gac_newest d with Some (i, _) => 1 - i | None => 0 end.
Definition gac_gen d : Z := match gac_newest d with Some (_, p) => get32 p 4 | None => 0 end.

Lemma gac_slots_apart i j d d' : (i = 0 \/ i = 1) -> (j = 0 \/ j = 1) -> i <> j ->
  (forall k, k < gac_addr i \/ gac_addr i + 512 <= k -> cell d' k = cell d k) ->
  gac_slot_page d' j = gac_slot_page d j.
Proof. intros Hi Hj Hij O. apply cells_ext. intros k Hk. apply O. unfold gac_addr, BOARD_CACHE_BASE in *. lia. Qed.

Lemma gac_newest_after c_peer c_data d d' :
  let t := gac_target d in
  let fin := gac_final (gac_gen d + 1) c_peer c_data in
  gac_fields_ok (gac_gen d + 1) c_peer c_data ->
  (forall k, k < gac_addr t \/ gac_addr t + 512 <= k -> cell d' k = cell d k) ->
  (gac_slot_page d' t = gac_slot_page d t \/ gac_valid (gac_slot_page d' t) = false -> gac_newest d' = gac_newest d) /\
  (gac_slot_page d' t = fin -> gac_newest d' = Some (t, fin)).
Proof.
  intros t fin Hf O. pose proof (gac_final_valid _ _ _ Hf) as Hv. fold fin in Hv.
  pose proof (gac_final_gen _ _ _ Hf) as Hg. fold fin in Hg.
  assert (t = 0 \/ t = 1) as Ht.
  { unfold t, gac_target. destruct (gac_newest d) as [[i p]|] eqn:En; [|by left].
    apply gac_newest_valid in En as [? _]. lia. }
  pose proof (gac_slots_apart t 0 d d' Ht ltac:(auto)) as H0. pose proof (gac_slots_apart t 1 d d' Ht ltac:(auto)) as H1.
  unfold gac_gen in Hg. unfold t, gac_target in *. clear Hf. revert Ht H0 H1 Hg O. unfold gac_newest.
  destruct (gac_valid (gac_slot_page d 0)) eqn:V0;
    [destruct (gac_valid (gac_slot_page d 1) && (get32 (gac_slot_page d 0) 4 <? get32 (gac_slot_page d 1) 4)) eqn:V1|
     destruct (gac_valid (gac_slot_page d 1)) eqn:V1]; cbn [Z.sub]; intros Ht H0 H1 Hg O.
  - apply andb_true_iff in V1 as [V1 L]. change (1 - 1) with 0 in *. rewrite (H1 ltac:(lia) O), V1.
    split; [intros [->| ->]; [by rewrite V0, L|done]|]. intros ->. rewrite Hv, Hg.
    by replace (_ <? _) with false by lia.
  - change (1 - 0) with 1 in *. rewrite (H0 ltac:(lia) O), V0. split; [intros [->| ->]; [by rewrite V1|done]|].
    intros ->. rewrite Hv, Hg. cbn [andb]. by replace (_ <? _) with true by lia.
  - change (1 - 1) with 0 in *. rewrite (H1 ltac:(lia) O), V1. split; [intros [->| ->]; [by rewrite V0|done]|].
    intros ->. rewrite Hv, Hg. by replace (_ <? _) with false by lia.
  - rewrite (H1 ltac:(lia) O), V1. split; [intros [->| ->]; [by rewrite V0|done]|].
    intros ->. by rewrite Hv.
Qed.

Lemma read_slot_keeps i d rc p d' : read_slot i d = (rc, p, d') -> forall k, cell d' k = cell d k.
Proof. unfold read_slot. by intros [K _]%read_spec. Qed.
Lemma find_pending_keeps is_ b d r d' : find_pending is_ b d = (r, d') ->
  (forall k, cell d' k = cell d k) /\ forall b', r = Some (Some b') -> gac_loaded b' = gac_loaded b /\
    gac_slot b' = gac_slot b /\ gac_generation b' = gac_generation b.
Proof.
  revert d. induction is_ as [|i is_ IH]; intros d; cbn [find_pending]; [by intros [= <- <-]|].
  destruct (read_slot i d) as [[rc p] d1] eqn:R. pose proof (read_slot_keeps _ _ _ _ _ R) as KR.
  destruct (negb (rc =? 0)); [by intros [= <- <-]|]. destruct (pending_page p).
  - intros [= <- <-]. split; [done|]. by intros ? [= <-].
  - intros [K H]%IH. split; [|done]. intros k. by rewrite K.
Qed.
Lemma recover_torn_keeps b d b' d' : recover_torn b d = (b', d') ->
  (forall k, cell d' k = cell d k) /\ gac_loaded b' = gac_loaded b /\ gac_slot b' = gac_slot b /\
  gac_generation b' = gac_generation b.
Proof.
  unfold recover_torn. destruct (read_slot 1 d) as [[rc p] d1] eqn:R1. pose proof (read_slot_keeps _ _ _ _ _ R1) as KR1.
  destruct (_ || _); [by intros [= <- <-]|].
  destruct (read_slot 0 d1) as [[rc0 p0] d2] eqn:R2. pose proof (read_slot_keeps _ _ _ _ _ R2) as KR2.
  assert (forall k, cell d2 k = cell d k) as K by (intros k; by rewrite KR2).
  destruct (_ || _); by intros [= <- <-].
Qed.
Lemma load_one_keeps i b dirty d b1 dirty1 d1 : load_one i b dirty d = (Some (b1, dirty1), d1) ->
  gac_loaded b1 = gac_loaded b /\ gac_slot b1 = gac_slot b /\ gac_generation b1 = gac_generation b.
Proof. intros [_ ->]%load_one_spec. by split_if. Qed.
(** Loading the bond journal only reads the device and leaves the cache's
    variables alone. *)
Lemma load_slots_keeps b d b' d' : load_slots b d = (b', d') ->
  (forall k, cell d' k = cell d k) /\ gac_loaded b' = gac_loaded b /\ gac_slot b' = gac_slot b /\
  gac_generation b' = gac_generation b.
Proof.
  unfold load_slots. destruct (loaded b); [by intros [= <- <-]|].
  set (b0 := b <| loaded := true |> <| storage_state := 0 |>).
  destruct (load_one 0 b0 false d) as [r1 d1] eqn:E1. destruct (load_one_spec _ _ _ _ _ _ E1) as [K1 _].
  destruct r1 as [[b1 dirty1]|]; [|by intros [= <- <-]]. apply load_one_keeps in E1 as (L1 & S1 & G1).
  destruct (load_one 1 b1 dirty1 d1) as [r2 d2] eqn:E2. destruct (load_one_spec _ _ _ _ _ _ E2) as [K2 _].
  assert (forall k, cell d2 k = cell d k) as K by (intros k; by rewrite K2).
  destruct r2 as [[b2 dirty2]|]; [|by intros [= <- <-]]. apply load_one_keeps in E2 as (L2 & S2 & G2).
  rewrite L1 in L2. rewrite S1 in S2. rewrite G1 in G2.
  destruct (0 <=? current_slot b2); [by intros [= <- <-]|]. destruct dirty2; [|by intros [= <- <-]].
  destruct (find_pending [0; 1] _ d2) as [[[b3|]|] d3] eqn:E3; apply find_pending_keeps in E3 as [K3 H3];
    assert (forall k, cell d3 k = cell d k) as K' by (intros k; by rewrite K3).
  - intros [= <- <-]. split; [done|]. destruct (H3 b3 eq_refl) as (-> & -> & ->). done.
  - intros [K4 (-> & -> & ->)]%recover_torn_keeps. split; [|done]. intros k. by rewrite K4.
  - by intros [= <- <-].
Qed.
Lemma load_slots_synced b d b' d' : load_slots b d = (b', d') -> gac_synced b d -> gac_synced b' d'.
Proof.
  intros (K & L & S & G)%load_slots_keeps. unfold gac_synced. rewrite (gac_newest_ext d d' K), L, S, G. done.
Qed.

(** The bond record and the cache are on different pages. *)
Lemma cache_apart d d' t : t = 0 \/ t = 1 ->
  (forall k, k < gac_addr t \/ gac_addr t + 512 <= k -> cell d' k = cell d k) -> newest d' = newest d.
Proof.
  intros Ht O. assert (forall i, 0 <= i -> slot_page d' i = slot_page d i) as H.
  { intros i Hi. apply cells_ext. intros k Hk. apply O.
    unfold slot_addr, gac_addr, STORE_BASE, BOARD_CACHE_BASE, STORE_SLOT_SIZE in *. lia. }
  unfold newest. by rewrite !H by lia.
Qed.
Lemma cached_final d t gen peer data : gac_fields_ok gen peer data ->
  gac_newest d = Some (t, gac_final gen peer data) -> forall q, cached d q = if q =? peer then data else [].
Proof.
  intros (Hg & Hp & Hn & _) E1 q. unfold cached. rewrite E1.
  destruct (gac_read gen peer data (gac_seal gen peer data) (put32 GAC_WORD) Hn Hg Hp) as
    (_ & _ & F2 & F3 & F4 & _); [done..|]. fold (gac_final gen peer data) in F2, F3, F4.
  rewrite F2, F3, F4. by rewrite Z.eqb_sym.
Qed.

Lemma holds_cached d peer data : holds (snd <$> gac_newest d) peer data = true -> cached d peer = data.
Proof.
  unfold cached. destruct (gac_newest d) as [[i p]|]; cbn.
  - rewrite !andb_true_iff, !Z.eqb_eq, bool_decide_eq_true. intros [[-> ->] ->]. by rewrite Z.eqb_refl.
  - destruct data; [done|]. unfold zlen. cbn. lia.
Qed.
Lemma gac_target_range d : gac_target d = 0 \/ gac_target d = 1.
Proof.
  unfold gac_target. destruct (gac_newest d) as [[i p]|] eqn:En; [|by left].
  apply gac_newest_valid in En as [? _]. lia.
Qed.
Lemma gac_gen_range d : U32 (gac_gen d).
Proof.
  unfold gac_gen. destruct (gac_newest d) as [[i p]|] eqn:En; [|done].
  apply gac_newest_valid in En as (_ & -> & _). apply get32_range, cells_bytes.
Qed.
(** The position a board that has read the cache remembers. *)
Lemma gac_position b d : gac_synced b d -> gac_loaded b = true ->
  (if gac_slot b <? 0 then 0 else 1 - gac_slot b) = gac_target d /\ gac_generation b = gac_gen d.
Proof.
  intros Hs Hl. specialize (Hs Hl). unfold gac_target, gac_gen. destruct (gac_newest d) as [[i p]|] eqn:En.
  - apply gac_newest_valid in En as [Hi _]. destruct Hs as [-> ->]. by replace (i <? 0) with false by lia.
  - by destruct Hs as [-> ->].
Qed.

(** Programming the next record replaces the contents or leaves them. *)
Lemma program_cached peer data d ok d' :
  U32 peer -> Bytes data -> zlen data <= 384 -> gac_gen d <> UINT32_MAX ->
  gac_program (gac_target d) (gac_sealed (gac_body (gac_gen d) peer data)) d = (ok, d') ->
  newest d' = newest d /\
  (gac_newest d' = gac_newest d \/
   gac_newest d' = Some (gac_target d, gac_final (gac_gen d + 1) peer data)) /\
  (ok = true -> gac_newest d' = Some (gac_target d, gac_final (gac_gen d + 1) peer data)) /\
  gac_fields_ok (gac_gen d + 1) peer data.
Proof.
  intros Hp Hb Hn Hmax. pose proof (gac_gen_range d) as Hg.
  assert (gac_fields_ok (gac_gen d + 1) peer data) as Hf
    by (split; [unfold UINT32_MAX, U32 in *; lia|done]).
  rewrite gac_body_layout, gac_sealed_layout, u32_small by (try apply Hf; done).
  intros (O & Cs & S)%gac_program_spec; [|done]. pose proof (gac_target_range d) as Ht.
  destruct (gac_newest_after peer data d d' Hf O) as [N1 N2].
  split; [by eapply cache_apart|]. split; [|by auto].
  destruct Cs as [Cs|[Cs|Cs]]; [left; apply N1; by left|left; apply N1; by right|right; by apply N2].
Qed.
End device.

(** A board with a bond and [n] good operations left saves three bytes. *)
Definition cache_saved (n : nat) : bool * (board_t * nor) :=
  board_cache_save 9 [1; 2; 3] (fst (bonded n)) (snd (bonded n)).

(** Loading the attribute cache returns what the device holds for the peer:
    all of it, if the peer is the bonded one and the buffer is large enough, and
    nothing otherwise; a read error is flagged and returns nothing.  The device
    keeps its contents and the board its position. *)
Theorem cache_load_exact {D} `{E : Eeprom D} `{!EepromOk D E} peer cap b d out b' d' :
  gac_synced b d -> loaded b = true -> board_cache_load peer cap b d = (out, (b', d')) ->
  (forall k, cell d' k = cell d k) /\
  (gac_io_failed b' = true /\ out = [] \/
   gac_synced b' d' /\
   out = if bond_is peer b && (zlen (cached d peer) <=? cap) then cached d peer else []).
Proof.
  intros Hsy Hl. unfold board_cache_load, load_slots. rewrite Hl.
  destruct (bond_is peer b) eqn:Eb; cbn [negb andb]; [|intros [= <- <- <-]; auto].
  destruct (gac_read_latest b d) as [r [b2 d2]] eqn:E2.
  destruct (gac_read_latest_spec _ _ _ _ _ Hsy E2) as (K2 & _ & [[F2 ->]|(F2 & L2 & Y2 & ->)]).
  { intros [= <- <- <-]. auto. }
  unfold cached. destruct (gac_newest d) as [[i p]|] eqn:En; cbn [fmap option_fmap option_map snd].
  2:{ intros [= <- <- <-]. split; [done|]. right. split; [done|]. by split_if. }
  assert (zlen (slice p 16 (get32 p 12)) = get32 p 12) as Hz by by eapply gac_newest_room.
  destruct (get32 p 8 =? peer); cbn [negb orb].
  - rewrite Hz, Z.leb_antisym. destruct (cap <? get32 p 12); intros [= <- <- <-]; auto.
  - intros [= <- <- <-]. split; [done|]. right. split; [done|]. by split_if.
Qed.
Definition cache_loaded : list Z * (board_t * nor) :=
  board_cache_load 9 384 (fst (snd (cache_saved 9))) (snd (snd (cache_saved 9))).
Lemma cache_load_exact_witness :
  (forall k, cell (snd (snd cache_loaded)) k = cell (snd (snd (cache_saved 9))) k) /\ fst cache_loaded = [1; 2; 3].
Proof.
  destruct (cache_load_exact 9 384 (fst (snd (cache_saved 9))) (snd (snd (cache_saved 9))) (fst cache_loaded)
    (fst (snd cache_loaded)) (snd (snd cache_loaded))) as [K _].
  - intros _. vm_compute. split; reflexivity.
  - vm_compute. reflexivity.
  - unfold cache_loaded. apply triple_eta. reflexivity.
  - split; [exact K|]. vm_compute. reflexivity.
Defined.
