(* ===== verification/Usb.v ===== *)
(** * The USB serial port

    usb_cdc.c: a CDC-ACM device on the controller of the CH582.  The state is
    the static variables of the file and the controller registers it writes;
    [USB_IRQHandler] is the interrupt handler, a step on the state given what
    the registers and the receive buffers hold when it runs ([irq]); the task
    side ([usb_cdc_read], [usb_cdc_write], [usb_cdc_take_lost],
    [usb_cdc_flush_tx]) runs with the interrupt masked, so the calls and the
    handler interleave whole.  Clearing the interrupt flags, the pin and clock
    set-up of [usb_cdc_init] and the trace are left out. *)
From S2P Require Import Prelude Ring.

(** ** Registers (CH583SFR.h) *)
Definition RB_UIF_BUS_RST : Z := 0x01.
Definition RB_UIF_TRANSFER : Z := 0x02.
Definition RB_UIF_SUSPEND : Z := 0x04.
Definition RB_U_TOG_OK : Z := 0x40.
Definition RB_UIS_SETUP_ACT : Z := 0x80.
Definition MASK_UIS_TOKEN : Z := 0x30.
Definition MASK_UIS_ENDP : Z := 0x0F.
Definition UIS_TOKEN_OUT : Z := 0x00.
Definition UIS_TOKEN_IN : Z := 0x20.
Definition RB_UMS_SUSPEND : Z := 0x04.
Definition RB_UEP_R_TOG : Z := 0x80.
Definition RB_UEP_T_TOG : Z := 0x40.
Definition MASK_UEP_R_RES : Z := 0x0C.
Definition UEP_R_RES_ACK : Z := 0x00.
Definition UEP_R_RES_NAK : Z := 0x08.
Definition UEP_R_RES_STALL : Z := 0x0C.
Definition MASK_UEP_T_RES : Z := 0x03.
Definition UEP_T_RES_ACK : Z := 0x00.
Definition UEP_T_RES_NAK : Z := 0x02.
Definition UEP_T_RES_STALL : Z := 0x03.

(** [r & m] as a condition, and [(r & ~m) | v]. *)
Definition has (r m : Z) : bool := negb (Z.land r m =? 0).
Definition set_field (r m v : Z) : Z := Z.lor (Z.ldiff r m) v.
Definition BOTH_TOG : Z := Z.lor RB_UEP_R_TOG RB_UEP_T_TOG.
(** EP0 waiting for the next SETUP. *)
Definition EP0_READY : Z := Z.lor UEP_R_RES_ACK UEP_T_RES_NAK.

(** ** Descriptors *)
Definition dev_desc : list Z :=
  [0x12; 0x01; 0x10; 0x01; 0x02; 0x00; 0x00; 0x40; 0x86; 0x1A; 0x57; 0x58; 0x01; 0x00; 0x01; 0x02; 0x03; 0x01].
Definition CFG_DESC_LEN : Z := 9 + 8 + 9 + 5 + 5 + 4 + 5 + 7 + 9 + 7 + 7.
Definition cfg_desc : list Z :=
  [0x09; 0x02; Z.land CFG_DESC_LEN 0xFF; Z.land (Z.shiftr CFG_DESC_LEN 8) 0xFF; 0x02; 0x01; 0x00; 0x80; 0x32] ++
  [0x08; 0x0B; 0x00; 0x02; 0x02; 0x02; 0x01; 0x00] ++
  [0x09; 0x04; 0x00; 0x00; 0x01; 0x02; 0x02; 0x01; 0x00] ++
  [0x05; 0x24; 0x00; 0x10; 0x01] ++
  [0x05; 0x24; 0x01; 0x00; 0x01] ++
  [0x04; 0x24; 0x02; 0x02] ++
  [0x05; 0x24; 0x06; 0x00; 0x01] ++
  [0x07; 0x05; 0x81; 0x03; 0x10; 0x00; 0x01] ++
  [0x09; 0x04; 0x01; 0x00; 0x02; 0x0A; 0x00; 0x00; 0x00] ++
  [0x07; 0x05; 0x02; 0x02; 0x40; 0x00; 0x00] ++
  [0x07; 0x05; 0x82; 0x02; 0x40; 0x00; 0x00].
Definition lang_desc : list Z := [0x04; 0x03; 0x09; 0x04].
Definition mfr_desc : list Z := [0x0E; 0x03; 82; 0; 66; 0; 80; 0; 32; 0; 66; 0; 82; 0].
Definition prod_desc : list Z :=
  [0x18; 0x03; 66; 0; 114; 0; 105; 0; 100; 0; 103; 0; 101; 0; 32; 0; 85; 0; 83; 0; 66; 0; 0; 0].

(** ** The byte queues

    [ring], [head], [tail] and [len] of rx_ring and of tx_ring. *)
Record fifo := Fifo { f_ring : list Z; f_head : Z; f_tail : Z; f_len : Z }.
#[export] Instance eta_fifo : Eta fifo := fun q => Fifo (f_ring q) (f_head q) (f_tail q) (f_len q).
Definition RX_RING : Z := 64.
Definition TX_RING : Z := 512.
Definition fifo_put (cap : Z) (b : Z) (q : fifo) : fifo :=
  Fifo (<[Z.to_nat (f_head q) := b]> (f_ring q)) ((f_head q + 1) mod cap) (f_tail q) (f_len q + 1).
Definition fifo_get (cap : Z) (q : fifo) : Z * fifo :=
  (znth (f_ring q) (f_tail q), Fifo (f_ring q) (f_head q) ((f_tail q + 1) mod cap) (f_len q - 1)).
(** The loops of the source: store bytes while there is room; take at most [n]
    bytes. *)
Fixpoint fifo_store (cap : Z) (data : list Z) (q : fifo) : Z * fifo :=
  match data with
  | [] => (0, q)
  | b :: data =>
    if f_len q <? cap then let '(n, q) := fifo_store cap data (fifo_put cap b q) in (n + 1, q) else (0, q)
  end.
Fixpoint fifo_fetch (cap : Z) (n : nat) (q : fifo) : list Z * fifo :=
  match n with
  | O => ([], q)
  | S n =>
    if f_len q =? 0 then ([], q)
    else let '(b, q) := fifo_get cap q in let '(l, q) := fifo_fetch cap n q in (b :: l, q)
  end.
Definition fifo_reset (q : fifo) : fifo := Fifo (f_ring q) 0 0 0.

(** ** State *)
Inductive ctrl_state_t := EP_IDLE | EP_DATA_IN | EP_STATUS_OUT | EP_STATUS_IN | EP_LINE_OUT.
#[export] Instance ctrl_state_eq_dec : EqDecision ctrl_state_t.
Proof. solve_decision. Defined.

(** [ep0_buf] and [ep2_in] (the upper half of ep2_buf) are what the controller
    sends; what it receives is in [irq].  [ctrl_ptr] is the bytes from the
    pointer on: those of a buffer that can change ([small_reply],
    [line_coding]) are at most one packet and copied when it is set. *)
Record usb := Usb {
  ep0_buf : list Z; ep1_buf : list Z; ep2_in : list Z;
  rx : fifo; tx : fifo; tx_inflight : bool; tx_zlp : bool;
  configured : bool; suspended : bool; dtr_on : bool; halt_in : bool; halt_out : bool; lifecycle_lost : bool;
  line_coding : list Z; setup_req : list Z; serial_desc : list Z; small_reply : list Z;
  ctrl_ptr : list Z; ctrl_left : Z; ctrl_zlp : bool; pending_address : Z; address_pending : bool;
  ctrl_state : ctrl_state_t;
  UEP0_CTRL : Z; UEP0_T_LEN : Z; UEP1_CTRL : Z; UEP1_T_LEN : Z; UEP2_CTRL : Z; UEP2_T_LEN : Z; DEV_AD : Z }.
#[export] Instance eta_usb : Eta usb := fun u =>
  Usb (ep0_buf u) (ep1_buf u) (ep2_in u) (rx u) (tx u) (tx_inflight u) (tx_zlp u) (configured u) (suspended u)
    (dtr_on u) (halt_in u) (halt_out u) (lifecycle_lost u) (line_coding u) (setup_req u) (serial_desc u)
    (small_reply u) (ctrl_ptr u) (ctrl_left u) (ctrl_zlp u) (pending_address u) (address_pending u)
    (ctrl_state u) (UEP0_CTRL u) (UEP0_T_LEN u) (UEP1_CTRL u) (UEP1_T_LEN u) (UEP2_CTRL u) (UEP2_T_LEN u)
    (DEV_AD u).

(** ** Endpoint 2 *)
Definition usable (u : usb) : bool := configured u && negb (suspended u) && negb (lifecycle_lost u).
Definition rx_arm (u : usb) : usb :=
  u <| UEP2_CTRL := set_field (UEP2_CTRL u) MASK_UEP_R_RES
         (if halt_out u then UEP_R_RES_STALL
          else if usable u && (64 <=? RX_RING - f_len (rx u)) then UEP_R_RES_ACK else UEP_R_RES_NAK) |>.
Definition data_reset (reset_toggles : bool) (u : usb) : usb :=
  let toggles := if reset_toggles then 0 else Z.land (UEP2_CTRL u) BOTH_TOG in
  u <| rx ::= fifo_reset |> <| tx ::= fifo_reset |> <| tx_inflight := false |> <| tx_zlp := false |>
    <| UEP2_T_LEN := 0 |>
    <| UEP2_CTRL := Z.lor (Z.lor toggles (if halt_out u then UEP_R_RES_STALL else UEP_R_RES_NAK))
                      (if halt_in u then UEP_T_RES_STALL else UEP_T_RES_NAK) |>.
Definition lose_transport (u : usb) : usb := data_reset false (u <| lifecycle_lost := true |>).
(** The transport lost and the data toggles cleared. *)
Definition reset_data (u : usb) : usb := data_reset true (lose_transport u).
Definition tx_kick (u : usb) : usb :=
  if tx_inflight u || halt_in u || negb (configured u) || suspended u || lifecycle_lost u then u
  else if (f_len (tx u) =? 0) && negb (tx_zlp u) then u
  else
    let '(packet, q) := fifo_fetch TX_RING 64 (tx u) in
    u <| ep2_in := splice (ep2_in u) 0 packet |> <| tx := q |> <| tx_zlp := zlen packet =? 64 |>
      <| tx_inflight := true |> <| UEP2_T_LEN := zlen packet |>
      <| UEP2_CTRL := set_field (UEP2_CTRL u) MASK_UEP_T_RES UEP_T_RES_ACK |>.

(** ** Endpoint 0 *)
Definition ctrl_stall (u : usb) : usb :=
  u <| ctrl_state := EP_IDLE |>
    <| UEP0_CTRL := Z.lor BOTH_TOG (Z.lor UEP_R_RES_STALL UEP_T_RES_STALL) |>.
Definition ctrl_next (u : usb) : usb :=
  let n := if 64 <? ctrl_left u then 64 else ctrl_left u in
  u <| ep0_buf := splice (ep0_buf u) 0 (slice (ctrl_ptr u) 0 n) |>
    <| ctrl_ptr := drop (Z.to_nat n) (ctrl_ptr u) |> <| ctrl_left := ctrl_left u - n |>
    <| ctrl_zlp := if n =? 0 then false else ctrl_zlp u |> <| UEP0_T_LEN := n |>
    <| UEP0_CTRL := Z.lor (Z.land (UEP0_CTRL u) BOTH_TOG) (Z.lor UEP_R_RES_NAK UEP_T_RES_ACK) |>.
Definition ctrl_send (data : list Z) (actual requested : Z) (u : usb) : usb :=
  let left := if actual <? requested then actual else requested in
  ctrl_next (u <| ctrl_ptr := data |> <| ctrl_left := left |>
               <| ctrl_zlp := (actual <? requested) && (left mod 64 =? 0) |>
               <| ctrl_state := EP_DATA_IN |> <| UEP0_CTRL := BOTH_TOG |>).
Definition ctrl_status (u : usb) : usb :=
  u <| ctrl_state := EP_STATUS_IN |> <| UEP0_T_LEN := 0 |>
    <| UEP0_CTRL := Z.lor BOTH_TOG (Z.lor UEP_R_RES_NAK UEP_T_RES_ACK) |>.
Definition notification : list Z := [0xa1; 0x20; 0; 0; 0; 0; 2; 0; 3; 0].
Definition serial_state (u : usb) : usb :=
  if negb (configured u) then u
  else u <| ep1_buf := splice (ep1_buf u) 0 notification |> <| UEP1_T_LEN := zlen notification |>
         <| UEP1_CTRL := set_field (UEP1_CTRL u) MASK_UEP_T_RES UEP_T_RES_ACK |>.
Definition send_desc (data : list Z) (len : Z) (u : usb) : usb := ctrl_send data (zlen data) len u.

(** ** Control requests: [setup], a definition per branch *)
Definition get_descriptor (value len : Z) (u : usb) : usb :=
  let kind := Z.shiftr value 8 in
  let index := Z.land value 255 in
  if (kind =? 1) && (index =? 0) then send_desc dev_desc len u
  else if (kind =? 2) && (index =? 0) then send_desc cfg_desc len u
  else if kind =? 3 then
    if index =? 0 then send_desc lang_desc len u
    else if index =? 1 then send_desc mfr_desc len u
    else if index =? 2 then send_desc prod_desc len u
    else if index =? 3 then send_desc (serial_desc u) len u
    else ctrl_stall u
  else ctrl_stall u.
Definition configure (value : Z) (u : usb) : usb :=
  let u := u <| configured := negb (value =? 0) |> <| UEP1_CTRL := UEP_T_RES_NAK |> in
  ctrl_status (if configured u then serial_state u else u).
Definition set_configuration (value : Z) (u : usb) : usb :=
  configure value (reset_data (u <| halt_in := false |> <| halt_out := false |>)).
Definition b1 (b : bool) : Z := if b then 1 else 0.
Definition get_status (type index len : Z) (u : usb) : usb :=
  let stalled r m v := b1 (Z.land r m =? v) in
  let reply := fun b => let l := [b; 0] in ctrl_send l 2 len (u <| small_reply := l |>) in
  let stop := ctrl_stall (u <| small_reply := [0; 0] |>) in
  if (type =? 0x81) && (1 <? index) then stop
  else if type =? 0x82 then
    if index =? 0x82 then reply (stalled (UEP2_CTRL u) MASK_UEP_T_RES UEP_T_RES_STALL)
    else if index =? 2 then reply (stalled (UEP2_CTRL u) MASK_UEP_R_RES UEP_R_RES_STALL)
    else if index =? 0x81 then reply (stalled (UEP1_CTRL u) MASK_UEP_T_RES UEP_T_RES_STALL)
    else if (index =? 0) || (index =? 0x80) then reply 0 else stop
  else reply 0.
(** CLEAR_FEATURE (1) and SET_FEATURE (3) of an endpoint halt. *)
Definition feature_in (req : Z) (u : usb) : usb :=
  u <| halt_in := req =? 3 |>
    <| UEP2_CTRL := set_field (UEP2_CTRL u) (Z.lor MASK_UEP_T_RES (if req =? 1 then RB_UEP_T_TOG else 0))
                      (if req =? 3 then UEP_T_RES_STALL else UEP_T_RES_NAK) |>.
Definition feature_out (req : Z) (u : usb) : usb :=
  u <| halt_out := req =? 3 |>
    <| UEP2_CTRL := set_field (UEP2_CTRL u) (Z.lor MASK_UEP_R_RES (if req =? 1 then RB_UEP_R_TOG else 0))
                      (if req =? 3 then UEP_R_RES_STALL else UEP_R_RES_NAK) |>.
Definition endpoint_feature (req index : Z) (u : usb) : usb :=
  let set := req =? 3 in
  if index =? 0x81 then
    ctrl_status (u <| UEP1_CTRL := if set then Z.lor (Z.land (UEP1_CTRL u) RB_UEP_T_TOG) UEP_T_RES_STALL
                                  else UEP_T_RES_NAK |>)
  else if negb (index =? 0x82) && negb (index =? 2) then ctrl_stall u
  else
    let u := lose_transport u in
    let u := if index =? 0x82 then feature_in req u else feature_out req u in
    ctrl_status (rx_arm u).
Definition class_request (req value len : Z) (u : usb) : usb :=
  if (req =? 0x20) && (len =? 7) && (value =? 0) then
    u <| ctrl_state := EP_LINE_OUT |>
      <| UEP0_CTRL := Z.lor BOTH_TOG (Z.lor UEP_R_RES_ACK UEP_T_RES_NAK) |>
  else if (req =? 0x22) && (len =? 0) && (value <=? 3) then
    ctrl_status (u <| dtr_on := negb (Z.land value 1 =? 0) |>)
  else ctrl_stall u.
Definition le16 (l : list Z) (o : Z) : Z := Z.lor (znth l o) (Z.shiftl (znth l (o + 1)) 8).
Definition setup (u : usb) : usb :=
  let r := setup_req u in
  let type := znth r 0 in
  let req := znth r 1 in
  let value := le16 r 2 in
  let index := le16 r 4 in
  let len := le16 r 6 in
  let u := u <| ctrl_left := 0 |> <| ctrl_zlp := false |> <| address_pending := false |> in
  if (type =? 0x80) && (req =? 6) then get_descriptor value len u
  else if (type =? 0) && (req =? 5) && (value <? 128) && (index =? 0) && (len =? 0) then
    ctrl_status (u <| pending_address := u8 value |> <| address_pending := true |>)
  else if (type =? 0) && (req =? 9) && (value <=? 1) && (index =? 0) && (len =? 0) then set_configuration value u
  else if (type =? 0x80) && (req =? 8) && (value =? 0) && (index =? 0) && (len =? 1) then
    let l := [b1 (configured u); znth (small_reply u) 1] in ctrl_send l 1 len (u <| small_reply := l |>)
  else if (req =? 0) && (value =? 0) && (len =? 2) && ((type =? 0x80) || (type =? 0x81) || (type =? 0x82)) then
    get_status type index len u
  else if (type =? 2) && ((req =? 1) || (req =? 3)) && (value =? 0) && (len =? 0) then endpoint_feature req index u
  else if (type =? 0x81) && (req =? 10) && (value =? 0) && (index <? 2) && (len =? 1) then
    let l := [0; znth (small_reply u) 1] in ctrl_send l 1 len (u <| small_reply := l |>)
  else if (type =? 1) && (req =? 11) && (value =? 0) && (index <? 2) && (len =? 0) then ctrl_status u
  else if (type =? 0x21) && (index =? 0) then class_request req value len u
  else if (type =? 0xa1) && (req =? 0x21) && (index =? 0) && (value =? 0) && (len =? 7) then
    ctrl_send (line_coding u) 7 len u
  else ctrl_stall u.

(** ** The interrupt handler

    [i_flags], [i_mis] and [i_rx_len] are R8_USB_INT_FG, R8_USB_MIS_ST and
    R8_USB_RX_LEN; [i_st] is R8_USB_INT_ST on entry and [i_st2] after the token
    was handled; [i_ep0] and [i_late] are the bytes received in ep0_buf at these
    two times, [i_out] those in the lower half of ep2_buf. *)
Record irq := Irq { i_flags : Z; i_st : Z; i_st2 : Z; i_rx_len : Z; i_mis : Z;
                    i_ep0 : list Z; i_late : list Z; i_out : list Z }.

Definition bus_reset (u : usb) : usb :=
  let u := u <| DEV_AD := 0 |> <| configured := false |> <| suspended := false |> <| dtr_on := false |>
             <| halt_in := false |> <| halt_out := false |> <| ctrl_state := EP_IDLE |>
             <| address_pending := false |> in
  reset_data u <| UEP0_CTRL := EP0_READY |> <| UEP1_CTRL := UEP_T_RES_NAK |>.
Definition ep2_out (i : irq) (u : usb) : usb :=
  if negb (has (i_flags i) RB_U_TOG_OK) then u
  else
    let u := u <| UEP2_CTRL ::= fun r => Z.lxor r RB_UEP_R_TOG |> in
    let n := i_rx_len i in
    rx_arm (if (64 <? n) || (RX_RING - f_len (rx u) <? n) then lose_transport u
            else u <| rx := snd (fifo_store RX_RING (slice (i_out i) 0 n) (rx u)) |>).
Definition in_acked (u : usb) : usb :=
  u <| UEP2_CTRL := set_field (Z.lxor (UEP2_CTRL u) RB_UEP_T_TOG) MASK_UEP_T_RES UEP_T_RES_NAK |>
    <| tx_inflight := false |>.
Definition ep2_in_done (u : usb) : usb := tx_kick (in_acked u).
Definition ep1_in_done (u : usb) : usb :=
  u <| UEP1_CTRL := set_field (Z.lxor (UEP1_CTRL u) RB_UEP_T_TOG) MASK_UEP_T_RES UEP_T_RES_NAK |>.
Definition ep0_in_done (setup_pending : bool) (u : usb) : usb :=
  if bool_decide (ctrl_state u = EP_DATA_IN) && negb setup_pending then
    let u := u <| UEP0_CTRL ::= fun r => Z.lxor r RB_UEP_T_TOG |> in
    if negb (ctrl_left u =? 0) || ctrl_zlp u then ctrl_next u
    else u <| ctrl_state := EP_STATUS_OUT |>
           <| UEP0_CTRL := Z.lor RB_UEP_R_TOG (Z.lor UEP_R_RES_ACK UEP_T_RES_NAK) |>
  else if bool_decide (ctrl_state u = EP_STATUS_IN) then
    let u := if address_pending u then u <| DEV_AD := pending_address u |> <| address_pending := false |> else u in
    u <| ctrl_state := EP_IDLE |> <| UEP0_CTRL := EP0_READY |>
  else u.
Definition ep0_out (i : irq) (setup_pending : bool) (u : usb) : usb :=
  if setup_pending || negb (has (i_flags i) RB_U_TOG_OK) then u
  else if bool_decide (ctrl_state u = EP_LINE_OUT) && (i_rx_len i =? 7) then
    ctrl_status (u <| line_coding := slice (i_ep0 i) 0 7 |>)
  else if bool_decide (ctrl_state u = EP_STATUS_OUT) && (i_rx_len i =? 0) then
    u <| ctrl_state := EP_IDLE |> <| UEP0_CTRL := EP0_READY |>
  else ctrl_stall u.
Definition token (i : irq) (setup_pending : bool) (u : usb) : usb :=
  let t := Z.land (i_st i) (Z.lor MASK_UIS_TOKEN MASK_UIS_ENDP) in
  if t =? Z.lor UIS_TOKEN_OUT 2 then ep2_out i u
  else if t =? Z.lor UIS_TOKEN_IN 2 then ep2_in_done u
  else if t =? Z.lor UIS_TOKEN_IN 1 then ep1_in_done u
  else if t =? Z.lor UIS_TOKEN_IN 0 then ep0_in_done setup_pending u
  else if t =? Z.lor UIS_TOKEN_OUT 0 then ep0_out i setup_pending u
  else u.
Definition transfer (i : irq) (u : usb) : usb :=
  let setup_pending := has (i_st i) RB_UIS_SETUP_ACT in
  let u := if setup_pending then u <| setup_req := slice (i_ep0 i) 0 8 |> else u in
  let u := if Z.land (i_st i) MASK_UIS_TOKEN =? MASK_UIS_TOKEN then u else token i setup_pending u in
  if has (i_st2 i) RB_UIS_SETUP_ACT then
    let u := u <| UEP0_CTRL := Z.lor BOTH_TOG (Z.lor UEP_R_RES_ACK UEP_T_RES_NAK) |> in
    setup (if setup_pending then u else u <| setup_req := slice (i_late i) 0 8 |>)
  else u.
Definition suspend_resume (i : irq) (u : usb) : usb :=
  let u := u <| suspended := has (i_mis i) RB_UMS_SUSPEND |> in
  if suspended u then lose_transport u else u.
Definition USB_IRQHandler (i : irq) (u : usb) : usb :=
  if has (i_flags i) RB_UIF_BUS_RST then bus_reset u
  else
    let u := if has (i_flags i) RB_UIF_TRANSFER then transfer i u else u in
    if has (i_flags i) RB_UIF_SUSPEND then suspend_resume i u else u.

(** ** The task side *)
Definition hexdigit (n : Z) : Z := znth [48; 49; 50; 51; 52; 53; 54; 55; 56; 57; 65; 66; 67; 68; 69; 70] n.
Definition serial_of (uid : list Z) : list Z :=
  34 :: 3 :: concat (map (fun k =>
    let nib := Z.land (Z.shiftr (znth uid (Z.of_nat k / 2)) (if Z.odd (Z.of_nat k) then 0 else 4)) 15 in
    [hexdigit nib; 0]) (List.seq 0 16)).
(** The statics at reset. *)
Definition usb_reset : usb :=
  Usb (replicate 64 0) (replicate 16 0) (replicate 64 0) (Fifo (replicate 64 0) 0 0 0) (Fifo (replicate 512 0) 0 0 0)
    false false false false false false false false [0x00; 0xc2; 0x01; 0; 0; 0; 8] (replicate 8 0) (replicate 34 0)
    [0; 0] [] 0 false 0 false EP_IDLE 0 0 0 0 0 0 0.
Definition usb_cdc_init (uid : option (list Z)) (u : usb) : usb :=
  match uid with
  | None => u
  | Some uid =>
    data_reset true (u <| serial_desc := serial_of uid |>)
      <| UEP0_CTRL := EP0_READY |> <| UEP1_CTRL := UEP_T_RES_NAK |> <| DEV_AD := 0 |>
  end.
Definition usb_cdc_take_lost (u : usb) : bool * usb := (lifecycle_lost u, rx_arm (u <| lifecycle_lost := false |>)).
Definition usb_cdc_read (cap : Z) (u : usb) : list Z * usb :=
  let '(l, q) := fifo_fetch RX_RING (Z.to_nat cap) (rx u) in (l, rx_arm (u <| rx := q |>)).
Definition usb_cdc_write (buf : list Z) (u : usb) : Z * usb :=
  if usable u
  then let '(n, q) := fifo_store TX_RING buf (tx u) in (n, tx_kick (u <| tx := q |>))
  else (0, tx_kick u).
Definition usb_cdc_flush_tx (u : usb) : usb := tx_kick u.
Definition usb_cdc_task (now_ms : Z) (u : usb) : usb := usb_cdc_flush_tx u.
Definition usb_cdc_dtr (u : usb) : bool := dtr_on u.
