(* ===== verification/UsbProps.v ===== *)
(** * The USB serial port: theorems

    The queues of usb_cdc.c are first-in first-out; endpoint 2 keeps its
    invariant [usb_wf] under every interrupt and call; over a run the two data
    pipes are byte streams; what is queued is drained in short packets; and the
    control endpoint answers descriptor requests exactly. *)
From S2P Require Import Prelude Ring Usb.

(** ** The queues hold their bytes in order *)
Definition fifo_wf (cap : Z) (q : fifo) : Prop :=
  ring_wf cap (f_ring q) (f_tail q) (f_len q) /\ f_head q = (f_tail q + f_len q) mod cap.
Definition queued (q : fifo) : list Z := rview (f_ring q) (f_tail q) (f_len q).
#[export] Instance fifo_wf_dec cap q : Decision (fifo_wf cap q).
Proof. unfold fifo_wf, ring_wf. apply _. Defined.

Lemma zlen_queued cap q : fifo_wf cap q -> zlen (queued q) = f_len q.
Proof. intros [H _]. by eapply zlen_rview. Qed.
Lemma fifo_len cap q : fifo_wf cap q -> 0 <= f_len q <= cap.
Proof. intros [(_ & _ & H) _]. done. Qed.
Lemma fifo_reset_wf cap q : fifo_wf cap q -> 0 < cap -> fifo_wf cap (fifo_reset q).
Proof. intros [(Hl & _) _] Hc. split; [split; [done|]; cbn; lia|]. cbn. by rewrite Z.mod_small by lia. Qed.
Lemma queued_reset q : queued (fifo_reset q) = [].
Proof. apply rview_nil. Qed.
Lemma queued_empty q : f_len q = 0 -> queued q = [].
Proof. unfold queued. intros ->. apply rview_nil. Qed.

Lemma fifo_put_spec cap b q : fifo_wf cap q -> f_len q < cap ->
  fifo_wf cap (fifo_put cap b q) /\ queued (fifo_put cap b q) = queued q ++ [b].
Proof.
  intros [Hw Hh] Hl. destruct (ring_push _ _ _ _ b Hw Hl) as [H1 H2]. unfold fifo_put, fifo_wf, queued. cbn.
  rewrite Hh. split; [split; [done|]|done]. rewrite Zplus_mod_idemp_l. f_equal. lia.
Qed.
Lemma fifo_get_spec cap q b q' : fifo_wf cap q -> f_len q <> 0 -> fifo_get cap q = (b, q') ->
  fifo_wf cap q' /\ queued q = b :: queued q' /\ f_len q' = f_len q - 1.
Proof.
  intros [Hw Hh] Hl [= <- <-]. destruct Hw as (Hr & Ht & Hn). 
  assert (ring_wf cap (f_ring q) (f_tail q) (f_len q)) as Hw by done.
  destruct (rview_advance cap _ _ _ 1 Hw ltac:(lia)) as [H1 H2].
  unfold fifo_wf, queued. cbn [f_ring f_head f_tail f_len]. split; [split; [done|]|split; [|done]].
  - rewrite Hh, Zplus_mod_idemp_l. f_equal. lia.
  - rewrite H2. change (Z.to_nat 1) with 1%nat.
    destruct (rview (f_ring q) (f_tail q) (f_len q)) as [|c l] eqn:Ev.
    { apply (f_equal zlen) in Ev. rewrite (zlen_rview cap) in Ev by done. unfold zlen in Ev. cbn in Ev. lia. }
    cbn [drop]. f_equal. pose proof (lookup_rview cap _ _ _ 0 Hw ltac:(lia)) as H0. rewrite Ev in H0. cbn in H0.
    rewrite Z.add_0_r, Z.mod_small in H0 by lia. symmetry. apply znth_lookup. by rewrite H0.
Qed.
Lemma fifo_store_spec cap data : forall q n q', fifo_wf cap q -> fifo_store cap data q = (n, q') ->
  fifo_wf cap q' /\ n = Z.min (zlen data) (cap - f_len q) /\ queued q' = queued q ++ slice data 0 n.
Proof.
  induction data as [|b data IH]; intros q n q' Hw; cbn [fifo_store].
  { intros [= <- <-]. pose proof (fifo_len _ _ Hw). split; [done|]. split; [unfold zlen; cbn; lia|].
    by rewrite app_nil_r. }
  pose proof (fifo_len _ _ Hw). assert (zlen (b :: data) = 1 + zlen data) as Hz by (unfold zlen; cbn [length]; lia).
  pose proof (zlen_nonneg data). destruct (f_len q <? cap) eqn:El.
  - destruct (fifo_store cap data (fifo_put cap b q)) as [m q2] eqn:Es. intros [= <- <-].
    destruct (fifo_put_spec cap b q Hw ltac:(lia)) as [Hp Hv].
    apply IH in Es as (Hw2 & Hm & Hq); [|done]. split; [done|]. cbn [fifo_put f_len] in Hm. split; [lia|].
    rewrite Hq, Hv, <- app_assoc. f_equal. unfold slice. replace (Z.to_nat (m + 1)) with (S (Z.to_nat m)) by lia. done.
  - intros [= <- <-]. split; [done|]. split; [lia|]. unfold slice. cbn. by rewrite app_nil_r.
Qed.
Lemma fifo_fetch_spec cap n : forall q l q', fifo_wf cap q -> fifo_fetch cap n q = (l, q') ->
  fifo_wf cap q' /\ queued q = l ++ queued q' /\ zlen l = Z.min (Z.of_nat n) (f_len q).
Proof.
  induction n as [|n IH]; intros q l q' Hw; cbn [fifo_fetch]; pose proof (fifo_len _ _ Hw).
  { intros [= <- <-]. split; [done|]. split; [done|]. unfold zlen. cbn. lia. }
  destruct (f_len q =? 0) eqn:El.
  { intros [= <- <-]. split; [done|]. split; [done|]. unfold zlen. cbn. lia. }
  destruct (fifo_get cap q) as [b q1] eqn:Eg. destruct (fifo_get_spec _ _ _ _ Hw ltac:(lia) Eg) as (Hw1 & Hq & Hn).
  destruct (fifo_fetch cap n q1) as [l2 q2] eqn:Ef. intros [= <- <-].
  destruct (IH _ _ _ Hw1 Ef) as (Hw2 & Hq2 & Hz). split; [done|]. split; [rewrite Hq, Hq2; done|].
  unfold zlen in *. cbn [length]. lia.
Qed.

(** ** Register fields *)
Lemma set_field_same r m v : Z.land v m = v -> Z.land (set_field r m v) m = v.
Proof.
  intros Hv. unfold set_field. rewrite Z.land_lor_distr_l, Hv.
  replace (Z.land (Z.ldiff r m) m) with 0; [apply Z.lor_0_l|].
  apply Z.bits_inj'. intros n _. rewrite Z.bits_0, Z.land_spec, Z.ldiff_spec. by destruct (Z.testbit r n), (Z.testbit m n).
Qed.
Lemma set_field_other r m v k : Z.land m k = 0 -> Z.land v k = 0 -> Z.land (set_field r m v) k = Z.land r k.
Proof.
  intros Hm Hv. unfold set_field. rewrite Z.land_lor_distr_l, Hv, Z.lor_0_r.
  apply Z.bits_inj'. intros n Hn. rewrite !Z.land_spec, Z.ldiff_spec.
  assert (Z.testbit m n && Z.testbit k n = false) as H by (rewrite <- Z.land_spec, Hm; apply Z.bits_0).
  by destruct (Z.testbit r n), (Z.testbit m n), (Z.testbit k n).
Qed.
Lemma set_field_cover r m v k : Z.land m k = k -> Z.land (set_field r m v) k = Z.land v k.
Proof.
  intros Hm. apply Z.bits_inj'. intros n Hn. unfold set_field. rewrite !Z.land_spec, Z.lor_spec, Z.ldiff_spec.
  apply (f_equal (fun z => Z.testbit z n)) in Hm. rewrite Z.land_spec in Hm.
  by destruct (Z.testbit r n), (Z.testbit m n), (Z.testbit v n), (Z.testbit k n).
Qed.
Lemma land_lxor_other r t k : Z.land t k = 0 -> Z.land (Z.lxor r t) k = Z.land r k.
Proof.
  intros Ht. apply Z.bits_inj'. intros n Hn. rewrite !Z.land_spec, Z.lxor_spec.
  assert (Z.testbit t n && Z.testbit k n = false) as H by (rewrite <- Z.land_spec, Ht; apply Z.bits_0).
  by destruct (Z.testbit r n), (Z.testbit t n), (Z.testbit k n).
Qed.
Lemma land_lor_field a b c k : Z.land a k = 0 -> Z.land b k = 0 -> Z.land (Z.lor (Z.lor a b) c) k = Z.land c k.
Proof. intros Ha Hb. by rewrite !Z.land_lor_distr_l, Ha, Hb. Qed.

(** ** The invariant of endpoint 2 *)
Definition t_ack (u : usb) : Prop := Z.land (UEP2_CTRL u) MASK_UEP_T_RES = UEP_T_RES_ACK.
Definition r_ack (u : usb) : Prop := Z.land (UEP2_CTRL u) MASK_UEP_R_RES = UEP_R_RES_ACK.
Definition base_wf (u : usb) : Prop := fifo_wf RX_RING (rx u) /\ fifo_wf TX_RING (tx u) /\ zlen (ep2_in u) = 64.
(** Everything but the receive side of the register. *)
Record tx_wf (u : usb) : Prop := {
  wf_base : base_wf u;
  wf_tlen : 0 <= UEP2_T_LEN u <= 64;
  wf_sent : t_ack u <-> tx_inflight u = true;
  wf_live : tx_inflight u = true -> usable u = true /\ halt_in u = false /\ tx_zlp u = (UEP2_T_LEN u =? 64);
  wf_lost : lifecycle_lost u = true -> f_len (rx u) = 0 /\ f_len (tx u) = 0 /\ tx_inflight u = false }.
(** The endpoint accepts a packet only when the link is up and there is room
    for the largest one. *)
Definition armed_ok (u : usb) : Prop :=
  r_ack u -> usable u = true /\ halt_out u = false /\ f_len (rx u) = 0.
Definition usb_wf (u : usb) : Prop := tx_wf u /\ armed_ok u.

(** What [usb_wf] depends on. *)
Definition ep2 (u : usb) :=
  (rx u, tx u, tx_inflight u, tx_zlp u, ep2_in u, UEP2_CTRL u, UEP2_T_LEN u,
   (configured u, suspended u, lifecycle_lost u, halt_in u, halt_out u)).
(** The bytes on their way to the host: the packet in the endpoint and the queue. *)
Definition inflight (u : usb) : list Z := if tx_inflight u then slice (ep2_in u) 0 (UEP2_T_LEN u) else [].
Definition outgoing (u : usb) : list Z := inflight u ++ queued (tx u).
Definition incoming (u : usb) : list Z := queued (rx u).

Lemma ep2_ext u u' : ep2 u' = ep2 u -> usb_wf u ->
  usb_wf u' /\ outgoing u' = outgoing u /\ incoming u' = incoming u /\ lifecycle_lost u' = lifecycle_lost u.
Proof.
  intros [= E1 E2 E3 E4 E5 E6 E7 E8 E9 E10 E11 E12] [[H1 H2 H3 H4 H5] H6].
  unfold outgoing, inflight, incoming. rewrite E1, E2, E3, E5, E7, E10. split; [|done].
  unfold usb_wf, armed_ok, usable, t_ack, r_ack, base_wf in *.
  split; [split|]; unfold base_wf, t_ack, usable;
    rewrite ?E1, ?E2, ?E3, ?E4, ?E5, ?E6, ?E7, ?E8, ?E9, ?E10, ?E11, ?E12; done.
Qed.

(** An endpoint 2 at rest. *)
Definition quiet (u : usb) : Prop :=
  base_wf u /\ f_len (rx u) = 0 /\ f_len (tx u) = 0 /\ tx_inflight u = false /\ UEP2_T_LEN u = 0 /\ ~ t_ack u /\ ~ r_ack u.
Lemma quiet_wf u : quiet u -> usb_wf u.
Proof.
  intros (H1 & H2 & H3 & H4 & H5 & H6 & H7). unfold usb_wf, armed_ok. split; [split|]; try done; rewrite ?H4; try done; lia.
Qed.
Lemma data_reset_quiet t u : base_wf u -> quiet (data_reset t u).
Proof.
  intros (H1 & H2 & H3). split; [split; [by apply fifo_reset_wf|split; [by apply fifo_reset_wf|done]]|].
  do 4 (split; [done|]). unfold t_ack, r_ack. cbn [data_reset UEP2_CTRL]. unfold upd. cbn.
  assert (Z.land (if t then 0 else Z.land (UEP2_CTRL u) BOTH_TOG) MASK_UEP_T_RES = 0 /\
          Z.land (if t then 0 else Z.land (UEP2_CTRL u) BOTH_TOG) MASK_UEP_R_RES = 0) as [T R].
  { destruct t; [done|]. rewrite <- !Z.land_assoc. split; apply Z.land_0_r. }
  split; rewrite !Z.land_lor_distr_l, ?T, ?R; destruct (halt_in u), (halt_out u); done.
Qed.
Lemma lose_transport_quiet u : base_wf u -> quiet (lose_transport u) /\ lifecycle_lost (lose_transport u) = true.
Proof. intros H. split; [by apply data_reset_quiet|done]. Qed.

(** ** What each step does to the streams *)

(** Nothing is lost unless the loss is flagged. *)
Definition keeps (u u' : usb) : Prop :=
  usb_wf u' /\ (lifecycle_lost u' = false ->
    lifecycle_lost u = false /\ outgoing u' = outgoing u /\ incoming u' = incoming u).
Lemma keeps_ext u u' : ep2 u' = ep2 u -> usb_wf u -> keeps u u'.
Proof. intros H (H1 & H2 & H3 & H4)%(ep2_ext u u' H). split; [done|]. intros <-. done. Qed.
Lemma keeps_trans u u1 u2 : keeps u u1 -> (usb_wf u1 -> keeps u1 u2) -> keeps u u2.
Proof.
  intros [H1 H2] H. destruct (H H1) as [H3 H4]. split; [done|]. intros Hl.
  destruct (H4 Hl) as (L1 & O1 & I1). destruct (H2 L1) as (L2 & O2 & I2). split; [done|]. split; congruence.
Qed.
Lemma keeps_lost u u' : usb_wf u' -> lifecycle_lost u' = true -> keeps u u'.
Proof. intros H1 H2. split; [done|]. by rewrite H2. Qed.

Lemma rx_arm_wf u : tx_wf u -> usb_wf (rx_arm u).
Proof.
  intros [H1 H2 H3 H4 H5]. unfold usb_wf, armed_ok. split.
  - split; try done. unfold t_ack in *. unfold rx_arm. cbn. rewrite set_field_other; [done|done|].
    by repeat split_if.
  - unfold r_ack, rx_arm. cbn. change (usable (rx_arm u)) with (usable u).
    destruct (halt_out u) eqn:Eh; [by rewrite set_field_same|].
    destruct (usable u && _) eqn:Eu; [|by rewrite set_field_same]. intros _.
    apply andb_true_iff in Eu as [Eu El]. destruct H1 as (Hr & _). pose proof (fifo_len _ _ Hr).
    unfold RX_RING in *. split; [done|]. split; [done|lia].
Qed.
Lemma rx_arm_keeps u : usb_wf u -> keeps u (rx_arm u).
Proof. intros [H _]. split; [by apply rx_arm_wf|done]. Qed.

Lemma tx_kick_spec u : usb_wf u ->
  let u' := tx_kick u in
  usb_wf u' /\ outgoing u' = outgoing u /\ incoming u' = incoming u /\ lifecycle_lost u' = lifecycle_lost u /\
  (u' = u \/ usable u = true /\ halt_in u = false /\ tx_inflight u = false /\ tx_inflight u' = true /\
     UEP2_T_LEN u' = Z.min 64 (f_len (tx u)) /\ f_len (tx u') = f_len (tx u) - UEP2_T_LEN u').
Proof.
  intros Hwf. pose proof Hwf as [[(Hr & Ht & Hb) H2 H3 H4 H5] H6]. unfold tx_kick.
  destruct (_ || lifecycle_lost u) eqn:G; [by auto 8|]. rewrite !orb_false_iff in G.
  destruct G as ((((G1 & G2) & G3) & G4) & G5).
  destruct ((f_len (tx u) =? 0) && negb (tx_zlp u)) eqn:Ge; [by auto 8|].
  destruct (fifo_fetch TX_RING 64 (tx u)) as [packet q] eqn:Ef.
  destruct (fifo_fetch_spec _ _ _ _ _ Ht Ef) as (Hw & Hq & Hz). pose proof (fifo_len _ _ Ht).
  assert (usable u = true) as Hu by (unfold usable; rewrite G4, G5; by destruct (configured u)).
  assert (slice (splice (ep2_in u) 0 packet) 0 (zlen packet) = packet) as Hs by (apply slice_splice_front; lia).
  cbn [fst snd]. split; [|split; [|split; [done|split; [done|right]]]].
  - split; [split|].
    + split; [done|]. split; [done|]. cbn. rewrite zlen_splice; lia.
    + cbn. lia.
    + unfold t_ack. cbn. rewrite set_field_same by done. done.
    + done.
    + cbn. rewrite G5. done.
    + unfold armed_ok, r_ack in *. cbn. rewrite set_field_other by done. done.
  - unfold outgoing, inflight. cbn. rewrite G1, Hs. by rewrite Hq.
  - split; [done|]. split; [done|]. split; [done|]. split; [done|]. cbn. split; [lia|].
    apply (f_equal zlen) in Hq. rewrite zlen_app, !(zlen_queued TX_RING) in Hq by done. lia.
Qed.
Lemma tx_kick_keeps u : usb_wf u -> keeps u (tx_kick u).
Proof. intros (H1 & H2 & H3 & H4 & _)%tx_kick_spec. split; [done|]. by rewrite H4. Qed.

Lemma reset_data_quiet u : base_wf u -> quiet (reset_data u) /\ lifecycle_lost (reset_data u) = true.
Proof. intros H. split; [|done]. by apply data_reset_quiet, (lose_transport_quiet u). Qed.
Lemma base_of u : usb_wf u -> base_wf u.
Proof. by intros [[H _ _ _ _] _]. Qed.
Lemma lose_keeps u : usb_wf u -> keeps u (lose_transport u).
Proof.
  intros H%base_of. destruct (lose_transport_quiet u H) as [Hq Hl]. apply keeps_lost; [by apply quiet_wf|done].
Qed.

(** *** Control requests *)
Lemma set_configuration_keeps v u : usb_wf u -> keeps u (set_configuration v u).
Proof.
  intros H%base_of. unfold set_configuration. set (u0 := u <| halt_in := false |> <| halt_out := false |>).
  destruct (reset_data_quiet u0 H) as [Hq Hl]. generalize dependent (reset_data u0). intros u1 Hq Hl. unfold configure.
  set (u2 := u1 <| configured := negb (v =? 0) |> <| UEP1_CTRL := UEP_T_RES_NAK |>).
  assert (usb_wf u2) as H2 by exact (quiet_wf u2 Hq). assert (lifecycle_lost u2 = true) as L2 by exact Hl.
  assert (ep2 (ctrl_status (if configured u2 then serial_state u2 else u2)) = ep2 u2) as He
    by (unfold serial_state; by destruct (configured u2)).
  destruct (ep2_ext _ _ He H2) as (H3 & _ & _ & L3). apply keeps_lost; [done|congruence].
Qed.
Lemma feature_tx_wf req u : quiet u -> tx_wf (feature_in req u) /\ tx_wf (feature_out req u).
Proof.
  intros (Hb & Hr & Ht & Hi & Hn & HT & HR).
  assert (0 <= UEP2_T_LEN u <= 64) as Hn' by lia.
  assert (forall P : Prop, tx_inflight u = true -> P) as Hno by (rewrite Hi; done).
  split; split; try done; try (intros; by apply Hno); (split; [|apply Hno]); unfold t_ack, feature_in, feature_out; cbn.
  - rewrite set_field_cover by by destruct (req =? 1). by destruct (req =? 3).
  - rewrite set_field_other; [done|by destruct (req =? 1)|by destruct (req =? 3)].
Qed.
Lemma feature_lost req u : lifecycle_lost (feature_in req u) = lifecycle_lost u /\
  lifecycle_lost (feature_out req u) = lifecycle_lost u.
Proof. done. Qed.
Lemma status_rearmed u u2 : tx_wf u2 -> lifecycle_lost u2 = true -> keeps u (ctrl_status (rx_arm u2)).
Proof.
  intros H2%rx_arm_wf L2. apply keeps_lost; [|done]. by apply (ep2_ext (rx_arm u2)).
Qed.
Lemma endpoint_feature_keeps req index u : usb_wf u -> keeps u (endpoint_feature req index u).
Proof.
  intros H. unfold endpoint_feature. destruct (index =? 0x81); [by apply keeps_ext|].
  destruct (_ && _); [by apply keeps_ext|].
  destruct (lose_transport_quiet u (base_of u H)) as [Hq Hl].
  generalize dependent (lose_transport u). intros u1 Hq Hl. destruct (feature_tx_wf req u1 Hq) as [F1 F2].
  destruct (feature_lost req u1) as [L1 L2]. destruct (index =? 0x82); apply status_rearmed; congruence.
Qed.
Lemma get_status_ep2 type index len u : ep2 (get_status type index len u) = ep2 u.
Proof. unfold get_status. repeat split_if; reflexivity. Qed.
Lemma get_descriptor_ep2 value len u : ep2 (get_descriptor value len u) = ep2 u.
Proof. unfold get_descriptor. repeat split_if; reflexivity. Qed.
Lemma class_request_ep2 req value len u : ep2 (class_request req value len u) = ep2 u.
Proof. unfold class_request. repeat split_if; reflexivity. Qed.
Lemma setup_keeps u : usb_wf u -> keeps u (setup u).
Proof.
  intros H. unfold setup. set (u1 := u <| ctrl_left := 0 |> <| ctrl_zlp := false |> <| address_pending := false |>).
  apply (keeps_trans u u1); [by apply keeps_ext|]. clearbody u1. intros H1.
  repeat split_if; first [by apply set_configuration_keeps | by apply endpoint_feature_keeps | apply keeps_ext; [|done];
    first [reflexivity | apply get_descriptor_ep2 | apply get_status_ep2 | apply class_request_ep2]].
Qed.

(** *** The data endpoint *)
Definition is_transfer (i : irq) : bool := negb (has (i_flags i) RB_UIF_BUS_RST) && has (i_flags i) RB_UIF_TRANSFER.
Definition token_of (i : irq) : Z := Z.land (i_st i) (Z.lor MASK_UIS_TOKEN MASK_UIS_ENDP).
Definition out_data (i : irq) : bool :=
  is_transfer i && (token_of i =? Z.lor UIS_TOKEN_OUT 2) && has (i_flags i) RB_U_TOG_OK.
Definition in_data (i : irq) : bool := is_transfer i && (token_of i =? Z.lor UIS_TOKEN_IN 2).
(** What the controller promises: a data packet is reported only when the
    endpoint was set to accept one, and is in the receive buffer. *)
Definition irq_ok (i : irq) (u : usb) : Prop :=
  out_data i = true -> r_ack u /\ 0 <= i_rx_len i /\ zlen (i_out i) = 64.
Definition received (i : irq) : list Z := if out_data i then slice (i_out i) 0 (i_rx_len i) else [].
Definition delivered (i : irq) (u : usb) : list Z := if in_data i then inflight u else [].

Lemma ep2_out_spec i u : usb_wf u -> has (i_flags i) RB_U_TOG_OK = true ->
  r_ack u -> 0 <= i_rx_len i -> zlen (i_out i) = 64 ->
  usb_wf (ep2_out i u) /\
  (lifecycle_lost (ep2_out i u) = false -> lifecycle_lost u = false /\ outgoing (ep2_out i u) = outgoing u /\
     incoming (ep2_out i u) = incoming u ++ slice (i_out i) 0 (i_rx_len i)).
Proof.
  intros H Htog Hack Hn Hz. unfold ep2_out. rewrite Htog. cbn [negb].
  set (u1 := u <| UEP2_CTRL ::= fun r => Z.lxor r RB_UEP_R_TOG |>). pose proof H as [[Hb H2 H3 H4 H5] H6].
  destruct (H6 Hack) as (Hu & Hh & He). assert (lifecycle_lost u = false) as Hl
    by (unfold usable in Hu; destruct (configured u), (suspended u), (lifecycle_lost u); done).
  assert (tx_wf u1) as H1.
  { split; try done. unfold t_ack in *. cbn. by rewrite land_lxor_other. }
  change (f_len (rx u1)) with (f_len (rx u)). rewrite He. change (RX_RING - 0) with 64.
  rewrite orb_diag. destruct (64 <? i_rx_len i) eqn:El.
  - destruct (lose_transport_quiet u1 Hb) as [Hq%quiet_wf Hl1].
    split; [apply rx_arm_wf, Hq|]. change (lifecycle_lost (rx_arm (lose_transport u1))) with true. done.
  - destruct (fifo_store RX_RING (slice (i_out i) 0 (i_rx_len i)) (rx u1)) as [m q] eqn:Es.
    destruct Hb as (Hr & Ht & Hbuf). destruct (fifo_store_spec _ _ _ _ _ Hr Es) as (Hw & Hm & Hq). cbn [snd].
    assert (zlen (slice (i_out i) 0 (i_rx_len i)) = i_rx_len i) as Hz2 by (apply zlen_slice; lia).
    rewrite Hz2 in Hm. change (f_len (rx u1)) with (f_len (rx u)) in Hm. rewrite He in Hm. unfold RX_RING in Hm.
    split; [|split; [done|split; [done|]]].
    + apply rx_arm_wf. destruct H1 as [_ H1b H1c H1d _]. split; try done. cbn. by rewrite Hl.
    + transitivity (queued q); [done|]. rewrite Hq. f_equal. apply slice_0_all. rewrite Hz2. lia.
Qed.
Lemma in_acked_wf u : usb_wf u -> usb_wf (in_acked u).
Proof.
  intros [[Hb H2 H3 H4 H5] H6]. split; [split|]; try done.
  - unfold t_ack, in_acked. cbn. by rewrite set_field_same.
  - intros Hl. destruct (H5 Hl) as (? & ? & ?). done.
  - unfold armed_ok, r_ack, in_acked in *. cbn. by rewrite set_field_other, land_lxor_other.
Qed.
Lemma ep2_in_done_spec u : usb_wf u ->
  usb_wf (ep2_in_done u) /\ outgoing u = inflight u ++ outgoing (ep2_in_done u) /\
  incoming (ep2_in_done u) = incoming u /\ lifecycle_lost (ep2_in_done u) = lifecycle_lost u.
Proof.
  intros H. destruct (tx_kick_spec _ (in_acked_wf u H)) as (K1 & K2 & K3 & K4 & _). split; [done|].
  unfold ep2_in_done. rewrite K2, K3, K4. done.
Qed.

(** *** The handler *)
Definition moves (i : irq) (u u' : usb) : Prop :=
  usb_wf u' /\ (lifecycle_lost u' = false ->
    lifecycle_lost u = false /\ outgoing u = delivered i u ++ outgoing u' /\ incoming u' = incoming u ++ received i).
Lemma keeps_moves i u u' : in_data i = false -> out_data i = false -> keeps u u' -> moves i u u'.
Proof.
  intros H1 H2 [H H']. split; [done|]. intros Hl. destruct (H' Hl) as (L & O & I).
  unfold delivered, received. rewrite H1, H2, app_nil_r. done.
Qed.
Lemma moves_keeps i u u1 u2 : moves i u u1 -> (usb_wf u1 -> keeps u1 u2) -> moves i u u2.
Proof.
  intros [H1 H2] H. destruct (H H1) as [H3 H4]. split; [done|]. intros Hl.
  destruct (H4 Hl) as (L1 & O1 & I1). destruct (H2 L1) as (L2 & O2 & I2). split; [done|]. split; congruence.
Qed.
Lemma ep0_in_done_ep2 b u : ep2 (ep0_in_done b u) = ep2 u.
Proof. unfold ep0_in_done. repeat split_if; reflexivity. Qed.
Lemma ep0_out_ep2 i b u : ep2 (ep0_out i b u) = ep2 u.
Proof. unfold ep0_out. repeat split_if; reflexivity. Qed.

Lemma token_moves i b u : usb_wf u -> irq_ok i u -> is_transfer i = true -> moves i u (token i b u).
Proof.
  intros H Hok Ht. unfold token. fold (token_of i).
  assert (in_data i = (token_of i =? Z.lor UIS_TOKEN_IN 2)) as Hin by (unfold in_data; by rewrite Ht).
  assert (out_data i = (token_of i =? Z.lor UIS_TOKEN_OUT 2) && has (i_flags i) RB_U_TOG_OK) as Hout
    by (unfold out_data; by rewrite Ht).
  destruct (token_of i =? Z.lor UIS_TOKEN_OUT 2) eqn:T1.
  { assert (in_data i = false) as Hin0 by (rewrite Hin; apply Z.eqb_neq; apply Z.eqb_eq in T1; rewrite T1; done).
    destruct (has (i_flags i) RB_U_TOG_OK) eqn:Eg.
    - destruct (Hok Hout) as (H1 & H2 & H3). destruct (ep2_out_spec i u H Eg H1 H2 H3) as [W S].
      split; [done|]. intros Hl. destruct (S Hl) as (L & O & I). unfold delivered, received. rewrite Hin0, Hout. done.
    - apply keeps_moves; [done|done|]. unfold ep2_out. rewrite Eg. by apply keeps_ext. }
  cbn [andb] in Hout. destruct (token_of i =? Z.lor UIS_TOKEN_IN 2).
  { destruct (ep2_in_done_spec u H) as (W & O & I & L). split; [done|]. rewrite L. intros Hl.
    unfold delivered, received. rewrite Hin, Hout, app_nil_r. done. }
  apply keeps_moves; [done|done|].
  repeat split_if; apply keeps_ext; try done; first [apply ep0_in_done_ep2|apply ep0_out_ep2].
Qed.
Lemma setup_token i : Z.land (i_st i) MASK_UIS_TOKEN = MASK_UIS_TOKEN -> in_data i = false /\ out_data i = false.
Proof.
  intros H. assert (Z.land (token_of i) MASK_UIS_TOKEN = MASK_UIS_TOKEN) as Ht.
  { unfold token_of. rewrite <- Z.land_assoc. done. }
  unfold in_data, out_data. split.
  - destruct (Z.eqb_spec (token_of i) (Z.lor UIS_TOKEN_IN 2)) as [E|E]; [by rewrite E in Ht|apply andb_false_r].
  - destruct (Z.eqb_spec (token_of i) (Z.lor UIS_TOKEN_OUT 2)) as [E|E]; [by rewrite E in Ht|by rewrite andb_false_r].
Qed.
Lemma moves_ext i u u1 u2 : ep2 u1 = ep2 u -> usb_wf u -> moves i u1 u2 -> moves i u u2.
Proof.
  intros He H [W S]. destruct (ep2_ext u u1 He H) as (_ & O & I & L). split; [done|]. intros Hl.
  destruct (S Hl) as (L1 & O1 & I1). unfold delivered in *.
  assert (inflight u1 = inflight u) as Hi by (injection He as _ _ E3 _ E5 _ E7 _ _ _ _ _; unfold inflight; by rewrite E3, E5, E7).
  rewrite Hi in O1. split; [congruence|]. split; congruence.
Qed.
Lemma transfer_moves i u : usb_wf u -> irq_ok i u -> is_transfer i = true -> moves i u (transfer i u).
Proof.
  intros H Hok Ht. unfold transfer. set (b := has (i_st i) RB_UIS_SETUP_ACT).
  set (u1 := if b then u <| setup_req := slice (i_ep0 i) 0 8 |> else u).
  assert (ep2 u1 = ep2 u) as He by (unfold u1; by destruct b).
  assert (irq_ok i u1) as Hok1 by (intros Ho; destruct (Hok Ho) as [Hr Ho2]; split; [unfold r_ack, u1; by destruct b|done]).
  destruct (ep2_ext u u1 He H) as (H1 & _). clearbody u1 b. apply (moves_ext i u u1 _ He H).
  set (u2 := if _ =? _ then u1 else token i b u1).
  assert (moves i u1 u2) as Hm.
  { unfold u2. destruct (Z.eqb_spec (Z.land (i_st i) MASK_UIS_TOKEN) MASK_UIS_TOKEN) as [E|_].
    - apply setup_token in E as [? ?]. apply keeps_moves; [done..|]. by apply keeps_ext.
    - by apply token_moves. }
  clearbody u2. destruct (has (i_st2 i) RB_UIS_SETUP_ACT); [|done].
  apply (moves_keeps i u1 u2); [done|]. intros H2.
  match goal with |- keeps u2 (setup ?x) => set (u3 := x) end.
  apply (keeps_trans u2 u3); [apply keeps_ext; [by unfold u3; destruct b|done]|]. apply setup_keeps.
Qed.
Lemma suspend_keeps i u : usb_wf u -> keeps u (suspend_resume i u).
Proof.
  intros H. unfold suspend_resume. cbn [suspended upd].
  destruct (has (i_mis i) RB_UMS_SUSPEND) eqn:Es; cbv beta iota.
  { destruct (lose_transport_quiet (u <| suspended := true |>) (base_of u H)) as [Hq Hl].
    apply keeps_lost; [by apply quiet_wf|done]. }
  set (u1 := u <| suspended := false |>). pose proof H as [[Hb H2 H3 H4 H5] H6].
  assert (usable u = true -> usable u1 = true) as Hu
    by (unfold usable; cbn; destruct (configured u), (suspended u); done).
  split; [|done]. split; [split|]; try done.
  - intros Hi. destruct (H4 Hi) as (? & ? & ?). auto.
  - intros Hr. destruct (H6 Hr) as (? & ? & ?). auto.
Qed.
Lemma bus_reset_keeps u : usb_wf u -> keeps u (bus_reset u).
Proof.
  intros H%base_of. unfold bus_reset.
  match goal with |- keeps u (reset_data ?x <| UEP0_CTRL := _ |> <| UEP1_CTRL := _ |>) => set (u0 := x) end.
  assert (base_wf u0) as H0 by done. destruct (reset_data_quiet u0 H0) as [Hq Hl].
  generalize dependent (reset_data u0). intros u1 Hq Hl. apply keeps_lost; [|done].
  apply quiet_wf in Hq. by apply (ep2_ext u1).
Qed.
Lemma irq_moves i u : usb_wf u -> irq_ok i u -> moves i u (USB_IRQHandler i u).
Proof.
  intros H Hok. unfold USB_IRQHandler. destruct (has (i_flags i) RB_UIF_BUS_RST) eqn:Er.
  { apply keeps_moves; [unfold in_data, is_transfer; by rewrite Er|unfold out_data, is_transfer; by rewrite Er|].
    by apply bus_reset_keeps. }
  set (u1 := if has (i_flags i) RB_UIF_TRANSFER then transfer i u else u).
  assert (moves i u u1) as Hm.
  { unfold u1. destruct (has (i_flags i) RB_UIF_TRANSFER) eqn:Et.
    - apply transfer_moves; [done|done|]. unfold is_transfer. by rewrite Er, Et.
    - apply keeps_moves; [unfold in_data, is_transfer; by rewrite Er, Et|unfold out_data, is_transfer; by rewrite Er, Et|].
      by apply keeps_ext. }
  clearbody u1. destruct (has (i_flags i) RB_UIF_SUSPEND); [|done].
  apply (moves_keeps i u u1); [done|]. apply suspend_keeps.
Qed.

(** ** The port as two byte streams *)
Inductive usb_event :=
| Interrupt (i : irq)
| Read (cap : Z)
| Write (buf : list Z)
| TakeLost
| FlushTx.
Definition usb_step (e : usb_event) (u : usb) : usb :=
  match e with
  | Interrupt i => USB_IRQHandler i u
  | Read cap => snd (usb_cdc_read cap u)
  | Write buf => snd (usb_cdc_write buf u)
  | TakeLost => snd (usb_cdc_take_lost u)
  | FlushTx => usb_cdc_flush_tx u
  end.
Definition event_ok (e : usb_event) (u : usb) : Prop := match e with Interrupt i => irq_ok i u | _ => True end.
(** What crossed the port since the transport was last lost: the bytes the task
    wrote and read, those the host got and sent. *)
Record streams := Streams { written : list Z; to_host : list Z; from_host : list Z; read : list Z }.
Definition log_event (e : usb_event) (u : usb) (s : streams) : streams :=
  match e with
  | Interrupt i => Streams (written s) (to_host s ++ delivered i u) (from_host s ++ received i) (read s)
  | Read cap => Streams (written s) (to_host s) (from_host s) (read s ++ fst (usb_cdc_read cap u))
  | Write buf => Streams (written s ++ slice buf 0 (fst (usb_cdc_write buf u))) (to_host s) (from_host s) (read s)
  | TakeLost | FlushTx => s
  end.
Definition streams_nil : streams := Streams [] [] [] [].
(** The log restarts while the loss is pending. *)
Definition usb_log (e : usb_event) (us : usb * streams) : usb * streams :=
  let u' := usb_step e (fst us) in
  (u', if lifecycle_lost u' then streams_nil else log_event e (fst us) (snd us)).
Inductive usb_run (uid : list Z) : usb -> streams -> Prop :=
| run_init : usb_run uid (usb_cdc_init (Some uid) usb_reset) streams_nil
| run_step e u s : usb_run uid u s -> event_ok e u ->
    usb_run uid (fst (usb_log e (u, s))) (snd (usb_log e (u, s))).

Definition streams_ok (u : usb) (s : streams) : Prop :=
  usb_wf u /\ written s = to_host s ++ outgoing u /\ from_host s = read s ++ incoming u.
Lemma lost_empty u : usb_wf u -> lifecycle_lost u = true -> outgoing u = [] /\ incoming u = [].
Proof.
  intros [[_ _ _ _ H] _] Hl. destruct (H Hl) as (Hr & Ht & Hi). unfold outgoing, inflight, incoming.
  by rewrite Hi, !queued_empty.
Qed.
Lemma usb_read_spec cap u l u' : usb_wf u -> usb_cdc_read cap u = (l, u') ->
  usb_wf u' /\ outgoing u' = outgoing u /\ incoming u = l ++ incoming u'.
Proof.
  intros [[(Hr & Ht & Hb) H2 H3 H4 H5] H6]. unfold usb_cdc_read.
  destruct (fifo_fetch RX_RING (Z.to_nat cap) (rx u)) as [l2 q] eqn:Ef. intros [= <- <-].
  destruct (fifo_fetch_spec _ _ _ _ _ Hr Ef) as (Hw & Hq & Hz). split; [|done].
  apply rx_arm_wf. split; try done. intros Hl. destruct (H5 Hl) as (Hl0 & ? & ?). split; [|done].
  apply (f_equal zlen) in Hq. rewrite zlen_app, !(zlen_queued RX_RING) in Hq by done. cbn.
  pose proof (fifo_len _ _ Hw). pose proof (zlen_nonneg l2). lia.
Qed.
Lemma usb_write_spec buf u n u' : usb_wf u -> usb_cdc_write buf u = (n, u') ->
  usb_wf u' /\ outgoing u' = outgoing u ++ slice buf 0 n /\ incoming u' = incoming u.
Proof.
  intros H. pose proof H as [[(Hr & Ht & Hb) H2 H3 H4 H5] H6]. unfold usb_cdc_write. destruct (usable u) eqn:Eu.
  - destruct (fifo_store TX_RING buf (tx u)) as [m q] eqn:Ef. intros [= <- <-].
    destruct (fifo_store_spec _ _ _ _ _ Ht Ef) as (Hw & Hm & Hq). set (u1 := u <| tx := q |>).
    assert (usb_wf u1) as H1.
    { split; [split|]; [done..|intros Hi; split; [exact Eu|exact (proj2 (H4 Hi))]| |done]. cbn. intros Hl. exfalso. unfold usable in Eu. rewrite Hl in Eu.
      destruct (configured u), (suspended u); done. }
    destruct (tx_kick_spec u1 H1) as (K1 & K2 & K3 & _). split; [done|]. rewrite K2, K3. split; [|done].
    unfold outgoing, u1. cbn. rewrite Hq, app_assoc. done.
  - intros [= <- <-]. destruct (tx_kick_spec u H) as (K1 & K2 & K3 & _). split; [done|]. rewrite K2, K3.
    split; [|done]. unfold slice. cbn. by rewrite app_nil_r.
Qed.
Lemma step_streams e u s : streams_ok u s -> event_ok e u ->
  streams_ok (fst (usb_log e (u, s))) (snd (usb_log e (u, s))).
Proof.
  intros (H & Hw & Hr) Hok. cbn [usb_log fst snd].
  assert (usb_wf (usb_step e u) /\ (lifecycle_lost (usb_step e u) = false ->
    written (log_event e u s) = to_host (log_event e u s) ++ outgoing (usb_step e u) /\
    from_host (log_event e u s) = read (log_event e u s) ++ incoming (usb_step e u))) as [W S].
  { destruct e as [i|cap|buf| |]; cbn [usb_step log_event written to_host from_host read].
    - destruct (irq_moves i u H Hok) as [W S]. split; [done|]. intros Hl. destruct (S Hl) as (_ & O & I).
      rewrite Hw, Hr, O, I, !app_assoc. done.
    - destruct (usb_cdc_read cap u) as [l u'] eqn:Er. destruct (usb_read_spec _ _ _ _ H Er) as (W & O & I).
      split; [done|]. intros _. cbn. rewrite Hw, Hr, O, I, app_assoc. done.
    - destruct (usb_cdc_write buf u) as [n u'] eqn:Er. destruct (usb_write_spec _ _ _ _ H Er) as (W & O & I).
      split; [done|]. intros _. cbn. rewrite Hw, Hr, O, I, app_assoc. done.
    - split; [|done]. apply rx_arm_wf. destruct H as [[? ? ? Hl ?] _]. split; try done.
      intros Hi. destruct (Hl Hi) as (Hu & ? & ?). split; [|done]. revert Hu. unfold usable. cbn.
      by destruct (configured u), (suspended u).
    - destruct (tx_kick_spec u H) as (K1 & K2 & K3 & _). unfold usb_cdc_flush_tx. split; [done|]. by rewrite K2, K3. }
  split; [done|]. destruct (lifecycle_lost (usb_step e u)) eqn:El; [|auto].
  destruct (lost_empty _ W El) as [-> ->]. done.
Qed.
Lemma init_wf uid : usb_wf (usb_cdc_init (Some uid) usb_reset).
Proof.
  assert (base_wf (usb_reset <| serial_desc := serial_of uid |>)) as Hb
    by (split; [|split]; [by apply (bool_decide_unpack _); vm_compute..|done]).
  apply (data_reset_quiet true), quiet_wf in Hb. unfold usb_cdc_init.
  generalize dependent (data_reset true (usb_reset <| serial_desc := serial_of uid |>)). intros u1 H1.
  by apply (ep2_ext u1).
Qed.

(** The interrupt of a packet taken by the host, and the host taking at most
    [n] packets. *)
Definition in_irq : irq := Irq RB_UIF_TRANSFER (Z.lor UIS_TOKEN_IN 2) 0 0 0 [] [] [].
Fixpoint host_polls (n : nat) (u : usb) : list (list Z) * usb :=
  match n with
  | O => ([], u)
  | S n =>
    if tx_inflight u
    then let '(l, u') := host_polls n (USB_IRQHandler in_irq u) in (inflight u :: l, u')
    else ([], u)
  end.
(** The packets still to come, the one in the endpoint included. *)
Definition packets_left (u : usb) : Z :=
  let l := f_len (tx u) in
  1 + if l =? 0 then b1 (UEP2_T_LEN u =? 64) else l / 64 + 1.
Lemma in_irq_step u : USB_IRQHandler in_irq u = ep2_in_done u.
Proof. reflexivity. Qed.
Lemma inflight_length u : usb_wf u -> tx_inflight u = true -> zlen (inflight u) = UEP2_T_LEN u.
Proof.
  intros [[(_ & _ & Hb) Ht _ _ _] _] Hi. unfold inflight. rewrite Hi. apply zlen_slice; lia.
Qed.
(** An endpoint that can send does, unless there is nothing to send. *)
Lemma tx_kick_sends u : usb_wf u -> usable u = true -> halt_in u = false -> tx_inflight u = false ->
  if (f_len (tx u) =? 0) && negb (tx_zlp u) then tx_kick u = u
  else tx_inflight (tx_kick u) = true /\ UEP2_T_LEN (tx_kick u) = Z.min 64 (f_len (tx u)) /\
    f_len (tx (tx_kick u)) = f_len (tx u) - Z.min 64 (f_len (tx u)).
Proof.
  intros H Hu Hh Hi. destruct (tx_kick_spec u H) as (_ & _ & _ & _ & Hk). unfold usable in Hu.
  destruct (_ && negb (tx_zlp u)) eqn:Ee.
  - unfold tx_kick. rewrite Ee. by split_if.
  - destruct Hk as [Hk|(_ & _ & _ & H1 & H2 & H3)]; [|rewrite H3, H2; done].
    exfalso. revert Hk. unfold tx_kick. rewrite Ee, Hi, Hh. apply andb_true_iff in Hu as [[-> ->%negb_true_iff]%andb_true_iff ->%negb_true_iff].
    cbn [orb negb]. destruct (fifo_fetch TX_RING 64 (tx u)) as [p q]. intros Hk. apply (f_equal tx_inflight) in Hk.
    cbn in Hk. congruence.
Qed.
Lemma ep2_in_done_next u : usb_wf u -> tx_inflight u = true ->
  let u' := ep2_in_done u in
  if (f_len (tx u) =? 0) && negb (UEP2_T_LEN u =? 64)
  then tx_inflight u' = false /\ f_len (tx u') = 0 /\ tx_zlp u' = false
  else tx_inflight u' = true /\ packets_left u' = packets_left u - 1.
Proof.
  intros H Hi. pose proof H as [[(Hr & Ht & Hb) H2 H3 H4 H5] H6]. destruct (H4 Hi) as (Hu & Hh & Hz).
  pose proof (tx_kick_sends (in_acked u) (in_acked_wf u H) Hu Hh eq_refl) as Hk.
  change (tx (in_acked u)) with (tx u) in Hk. change (tx_zlp (in_acked u)) with (tx_zlp u) in Hk. rewrite Hz in Hk.
  unfold ep2_in_done. cbv zeta. destruct (_ && negb _) eqn:Ee.
  - rewrite Hk. apply andb_true_iff in Ee as [E1 E2]. split; [done|]. split; [cbn; lia|].
    change (tx_zlp (in_acked u)) with (tx_zlp u). rewrite Hz. by apply negb_true_iff.
  - destruct Hk as (K1 & K2 & K3). split; [done|]. unfold packets_left. rewrite K2, K3. pose proof (fifo_len _ _ Ht).
    destruct (f_len (tx u) =? 0) eqn:E0.
    + replace (f_len (tx u)) with 0 by lia. cbn [andb] in Ee. apply negb_false_iff in Ee. rewrite Ee. done.
    + destruct (f_len (tx u) - Z.min 64 (f_len (tx u)) =? 0) eqn:E1.
      * destruct (Z.min 64 (f_len (tx u)) =? 64) eqn:E2; cbn [b1].
        -- replace (f_len (tx u)) with 64 by lia. done.
        -- rewrite Z.div_small by lia. done.
      * replace (Z.min 64 (f_len (tx u))) with 64 by lia.
        replace (f_len (tx u) - 64) with (f_len (tx u) + (-1) * 64) by lia. rewrite Z.div_add by lia. lia.
Qed.
Lemma polls_drain n : forall u, usb_wf u -> tx_inflight u = true -> packets_left u <= Z.of_nat n ->
  let '(l, u') := host_polls n u in
  concat l = outgoing u /\ outgoing u' = [] /\ tx_inflight u' = false /\
  exists p rest, l = rest ++ [p] /\ zlen p < 64 /\ Forall (fun p => zlen p <= 64) rest.
Proof.
  induction n as [|n IH]; intros u H Hi Hn.
  { exfalso. unfold packets_left in Hn. destruct H as [[(_ & Ht & _) _ _ _ _] _]. pose proof (fifo_len _ _ Ht).
    assert (0 <= f_len (tx u) / 64) by (apply Z.div_pos; lia). destruct (f_len (tx u) =? 0), (UEP2_T_LEN u =? 64); cbn in Hn; lia. }
  cbn [host_polls]. rewrite Hi, in_irq_step.
  destruct (ep2_in_done_spec u H) as (W & O & _). pose proof (ep2_in_done_next u H Hi) as Hx. cbv zeta in Hx.
  pose proof (inflight_length u H Hi) as Hl. pose proof H as [[_ Htl _ _ _] _].
  set (u' := ep2_in_done u) in *. clearbody u'. destruct (_ && negb _) eqn:Ee.
  - destruct Hx as (X1 & X2 & X3). assert (host_polls n u' = ([], u')) as -> by (destruct n; cbn; by rewrite ?X1).
    assert (outgoing u' = []) as Ho by (unfold outgoing, inflight; rewrite X1, queued_empty; done).
    split; [cbn; by rewrite O, Ho|]. split; [done|]. split; [done|]. exists (inflight u), []. split; [done|].
    split; [|constructor]. apply andb_true_iff in Ee as [_ E2]. lia.
  - destruct Hx as [X1 X2]. specialize (IH u' W X1 ltac:(lia)). destruct (host_polls n u') as [l u2].
    destruct IH as (C & O2 & I2 & p & rest & El & Hp & Hr). split; [cbn; by rewrite C, O|]. split; [done|]. split; [done|].
    exists p, (inflight u :: rest). split; [by rewrite El|]. split; [done|]. constructor; [lia|done].
Qed.

(** ** Control reads *)
Definition ep0_irq : irq := Irq RB_UIF_TRANSFER UIS_TOKEN_IN 0 0 0 [] [] [].
Definition ep0_packet (u : usb) : list Z := slice (ep0_buf u) 0 (UEP0_T_LEN u).
(** The host takes at most [n] packets of the data stage. *)
Fixpoint control_reads (n : nat) (u : usb) : list (list Z) * usb :=
  match n with
  | O => ([], u)
  | S n =>
    if bool_decide (ctrl_state u = EP_DATA_IN)
    then let '(l, u') := control_reads n (USB_IRQHandler ep0_irq u) in (ep0_packet u :: l, u')
    else ([], u)
  end.
Lemma ep0_irq_step u : USB_IRQHandler ep0_irq u = ep0_in_done false u.
Proof. reflexivity. Qed.

(** The data stage: a packet in the buffer and [ctrl_left] bytes at the pointer. *)
Definition ctrl_wf (u : usb) : Prop :=
  zlen (ep0_buf u) = 64 /\ 0 <= UEP0_T_LEN u <= 64 /\ 0 <= ctrl_left u <= zlen (ctrl_ptr u).
(** The last packet will be a short one. *)
Definition ends_short (u : usb) : Prop :=
  ctrl_zlp u = true \/ ctrl_left u mod 64 <> 0 \/ ctrl_left u = 0 /\ UEP0_T_LEN u < 64.
Definition reads_left (u : usb) : Z := (ctrl_left u + 63) / 64 + b1 (ctrl_zlp u).

Lemma ctrl_next_spec u : zlen (ep0_buf u) = 64 -> 0 <= ctrl_left u <= zlen (ctrl_ptr u) ->
  let u' := ctrl_next u in
  ctrl_wf u' /\ ctrl_state u' = ctrl_state u /\
  slice (ctrl_ptr u) 0 (ctrl_left u) = ep0_packet u' ++ slice (ctrl_ptr u') 0 (ctrl_left u') /\
  (ctrl_left u <> 0 \/ ctrl_zlp u = true -> reads_left u' = reads_left u - 1) /\
  (ctrl_left u mod 64 <> 0 \/ ctrl_zlp u = true -> ends_short u') /\ zlen (ep0_packet u') = UEP0_T_LEN u'.
Proof.
  intros Hb Hl. unfold ctrl_next. set (n := if 64 <? ctrl_left u then 64 else ctrl_left u).
  assert (n = Z.min 64 (ctrl_left u)) as Hn by (unfold n; split_if; lia). clearbody n.
  assert (zlen (slice (ctrl_ptr u) 0 n) = n) as Hz by (apply zlen_slice; lia).
  set (buf := splice (ep0_buf u) 0 (slice (ctrl_ptr u) 0 n)).
  assert (zlen buf = 64) as Hb' by (unfold buf; rewrite zlen_splice; lia).
  assert (slice buf 0 n = slice (ctrl_ptr u) 0 n) as Hs.
  { unfold buf. apply slice_splice_front. lia. }
  cbv zeta. unfold ctrl_wf, ep0_packet, reads_left, ends_short.
  cbn -[slice zlen splice Z.div Z.modulo drop Z.add Z.sub].
  assert (zlen (drop (Z.to_nat n) (ctrl_ptr u)) = zlen (ctrl_ptr u) - n) as Hd
    by (unfold zlen; rewrite length_drop; unfold zlen in Hl; lia).
  split; [split; [done|]; rewrite Hd; lia|]. split; [done|]. split.
  { rewrite Hs. unfold slice. cbn. rewrite !drop_0.
    replace (Z.to_nat (ctrl_left u)) with (Z.to_nat n + Z.to_nat (ctrl_left u - n))%nat by lia.
    symmetry. apply take_take_drop. }
  split; [|split; [|rewrite Hs; lia]].
  - intros Hc. destruct (n =? 0) eqn:E0.
    + replace n with 0 by lia. replace (ctrl_left u) with 0 by lia. destruct (ctrl_zlp u); [done|]. destruct Hc; [lia|done].
    + destruct (ctrl_zlp u); cbn [b1]; Z.div_mod_to_equations; lia.
  - intros Hc. destruct (n =? 0) eqn:E0; [right; right; lia|].
    destruct Hc as [Hc| ->]; [|by left]. right. destruct (Z.ltb_spec 64 (ctrl_left u)); [left|right]; [|Z.div_mod_to_equations; lia].
    replace n with 64 by lia. Z.div_mod_to_equations; lia.
Qed.

Lemma control_reads_spec n : forall u, ctrl_wf u -> ctrl_state u = EP_DATA_IN -> reads_left u < Z.of_nat n ->
  let '(l, u') := control_reads n u in
  concat l = ep0_packet u ++ slice (ctrl_ptr u) 0 (ctrl_left u) /\ ctrl_state u' = EP_STATUS_OUT /\
  Forall (fun p => zlen p <= 64) l /\ (ends_short u -> exists p rest, l = rest ++ [p] /\ zlen p < 64).
Proof.
  induction n as [|n IH]; intros u Hw Hs Hn.
  { exfalso. unfold reads_left in Hn. destruct Hw as (_ & _ & Hl).
    destruct (ctrl_zlp u); cbn [b1] in Hn; Z.div_mod_to_equations; lia. }
  cbn [control_reads]. rewrite bool_decide_true by done. rewrite ep0_irq_step. unfold ep0_in_done.
  rewrite bool_decide_true by done. cbn [negb andb].
  set (u1 := u <| UEP0_CTRL ::= fun r => Z.lxor r RB_UEP_T_TOG |>).
  assert (zlen (ep0_packet u) = UEP0_T_LEN u) as Hp by (destruct Hw as (? & ? & ?); apply zlen_slice; lia).
  assert (ctrl_wf u1) as Hw1 by exact Hw. change (ctrl_left u1) with (ctrl_left u). change (ctrl_zlp u1) with (ctrl_zlp u).
  destruct (negb (ctrl_left u =? 0) || ctrl_zlp u) eqn:Em.
  - destruct Hw1 as (Hw2 & _ & Hw3). destruct (ctrl_next_spec u1 Hw2 Hw3) as (W & S & Hd & Hr & He & Hz).
    change (ctrl_left u1) with (ctrl_left u) in *. change (ctrl_zlp u1) with (ctrl_zlp u) in *.
    change (ctrl_ptr u1) with (ctrl_ptr u) in *. change (reads_left u1) with (reads_left u) in *.
    assert (ctrl_left u <> 0 \/ ctrl_zlp u = true) as Hc by (destruct (ctrl_zlp u); [by right|left; lia]).
    set (u2 := ctrl_next u1) in *. clearbody u2. specialize (IH u2 W ltac:(rewrite S; done) ltac:(rewrite (Hr Hc); lia)).
    destruct (control_reads n u2) as [l u']. destruct IH as (I1 & I2 & I3 & I4).
    split; [cbn; by rewrite I1, Hd|]. split; [done|]. split; [constructor; [destruct Hw; lia|done]|].
    intros Hsh. destruct I4 as (p & rest & -> & Hp2); [|by exists p, (ep0_packet u :: rest)].
    apply He. destruct Hsh as [H|[H|[H1 H2]]]; [by right|by left|]. right. destruct Hc; [lia|done].
  - apply orb_false_iff in Em as [E1 E2].
    match goal with |- context [control_reads n ?x] => assert (control_reads n x = ([], x)) as -> by by destruct n end.
    replace (ctrl_left u) with 0 by lia. split; [cbn; by rewrite slice_nil_n|]. split; [done|].
    split; [constructor; [destruct Hw; lia|constructor]|]. intros [H|[H|[_ H]]]; [congruence|exfalso|].
    + replace (ctrl_left u) with 0 in H by lia. done.
    + exists (ep0_packet u), []. split; [done|lia].
Qed.

(** A control request in the SETUP buffer and its interrupt. *)
Definition request (type req value index len : Z) : list Z :=
  [type; req; u8 value; u8 (Z.shiftr value 8); u8 index; u8 (Z.shiftr index 8); u8 len; u8 (Z.shiftr len 8)].
Definition setup_irq (r : list Z) : irq :=
  Irq RB_UIF_TRANSFER (Z.lor RB_UIS_SETUP_ACT MASK_UIS_TOKEN) (Z.lor RB_UIS_SETUP_ACT MASK_UIS_TOKEN) 0 0 r r [].
Lemma le16_bytes v : U16 v -> Z.lor (u8 v) (Z.shiftl (u8 (Z.shiftr v 8)) 8) = v.
Proof.
  intros Hv. rewrite lor_shiftl_add by (first [lia|apply u8_byte]). rewrite shiftr8_div. words.
Qed.
Lemma request_fields type req value index len : U16 value -> U16 index -> U16 len ->
  let r := request type req value index len in
  znth r 0 = type /\ znth r 1 = req /\ le16 r 2 = value /\ le16 r 4 = index /\ le16 r 6 = len.
Proof. intros Hv Hi Hl r. unfold le16. split_and!; [done|done|by apply le16_bytes..]. Qed.

(** The descriptors of the device, by the value of the request. *)
Definition descriptors (u : usb) : list (Z * list Z) :=
  [(0x100, dev_desc); (0x200, cfg_desc); (0x300, lang_desc); (0x301, mfr_desc); (0x302, prod_desc);
   (0x303, serial_desc u)].
Lemma get_descriptor_table value data len u : In (value, data) (descriptors u) ->
  get_descriptor value len u = send_desc data len u.
Proof. intros [H|[H|[H|[H|[H|[H|[]]]]]]]; injection H as <- <-; reflexivity. Qed.
Lemma get_descriptor_other value len u : U16 value -> (forall data, ~ In (value, data) (descriptors u)) ->
  get_descriptor value len u = ctrl_stall u.
Proof.
  intros Hv Hn. unfold get_descriptor.
  assert (Z.shiftr value 8 * 256 + Z.land value 255 = value) as Hd.
  { rewrite shiftr8_div. change 255 with (Z.ones 8). rewrite Z.land_ones by lia. change (2 ^ 8) with 256. words. }
  assert (forall d, In (value, d) (descriptors u) -> False) as Hn' by (intros d; apply Hn). cbv zeta.
  repeat split_if; try done; exfalso;
    [apply (Hn' dev_desc)|apply (Hn' cfg_desc)|apply (Hn' lang_desc)|apply (Hn' mfr_desc)|apply (Hn' prod_desc)|
     apply (Hn' (serial_desc u))];
    [assert (value = 0x100) as -> by lia|assert (value = 0x200) as -> by lia|assert (value = 0x300) as -> by lia|
     assert (value = 0x301) as -> by lia|assert (value = 0x302) as -> by lia|assert (value = 0x303) as -> by lia];
    cbn; auto 10.
Qed.
Lemma setup_irq_step r u : length r = 8%nat -> exists u', USB_IRQHandler (setup_irq r) u = setup u' /\
  setup_req u' = r /\ ep0_buf u' = ep0_buf u /\ serial_desc u' = serial_desc u.
Proof.
  intros Hr. eexists. split; [reflexivity|]. split; [|done]. cbn. apply take_ge. lia.
Qed.
Lemma setup_get_descriptor value index len u : U16 value -> U16 index -> U16 len ->
  setup_req u = request 0x80 6 value index len ->
  setup u = get_descriptor value len (u <| ctrl_left := 0 |> <| ctrl_zlp := false |> <| address_pending := false |>).
Proof.
  intros Hv Hi Hl Hr. destruct (request_fields 0x80 6 value index len Hv Hi Hl) as (R0 & R1 & R2 & R4 & R6).
  unfold setup. rewrite Hr. cbv zeta. rewrite R0, R1, R2, R6. reflexivity.
Qed.
(** A descriptor sent is a descriptor read. *)
Lemma send_desc_reads data len u : zlen (ep0_buf u) = 64 -> 0 <= len -> zlen data <= 255 ->
  let '(l, u2) := control_reads 6 (send_desc data len u) in
  concat l = slice data 0 (Z.min (zlen data) len) /\ ctrl_state u2 = EP_STATUS_OUT /\
  Forall (fun p => zlen p <= 64) l /\
  (zlen data < len -> exists p rest, l = rest ++ [p] /\ zlen p < 64).
Proof.
  intros Hb Hl Hd. unfold send_desc, ctrl_send. set (left := if zlen data <? len then zlen data else len).
  assert (left = Z.min (zlen data) len) as Hleft by (unfold left; split_if; lia).
  pose proof (zlen_nonneg data). rewrite <- Hleft.
  match goal with |- context [ctrl_next ?x] => set (u0 := x) end.
  destruct (ctrl_next_spec u0 Hb ltac:(change (0 <= left <= zlen data); lia)) as (W & S & Hc & Hr & He & _).
  change (ctrl_left u0) with left in *. change (ctrl_ptr u0) with data in *.
  change (ctrl_zlp u0) with ((zlen data <? len) && (left mod 64 =? 0)) in *. change (ctrl_state u0) with EP_DATA_IN in S.
  assert (reads_left (ctrl_next u0) < 6) as Hn.
  { destruct W as (_ & _ & Wl). assert (ctrl_left (ctrl_next u0) <= 255) as H255.
    { change (ctrl_left (ctrl_next u0)) with (left - if 64 <? left then 64 else left). split_if; lia. }
    unfold reads_left. destruct (ctrl_zlp (ctrl_next u0)); cbn [b1]; Z.div_mod_to_equations; lia. }
  set (u1 := ctrl_next u0) in *. clearbody u1.
  pose proof (control_reads_spec 6 u1 W S Hn) as Hx. destruct (control_reads 6 u1) as [l u2].
  destruct Hx as (X1 & X2 & X3 & X4). rewrite <- Hc in X1. split; [done|]. split; [done|]. split; [done|].
  intros Hlt. apply X4, He. replace (zlen data <? len) with true by lia. cbn [andb].
  destruct (left mod 64 =? 0) eqn:Em; [by right|left; lia].
Qed.

(** C11: The two data pipes of the port are byte streams: whatever the
    interrupts, reads and writes and their order, since the transport was last
    lost the host has received, in order and without a gap, the bytes that were
    accepted from the task, less those still in the endpoint and the queue; and
    the task has read, in order and without a gap, the bytes the host sent,
    less those still queued.  The endpoint offers a packet only when one is
    loaded, and accepts one only when the link is up and the queue is empty. *)
Theorem usb_stream_exact uid u s : usb_run uid u s ->
  usb_wf u /\ written s = to_host s ++ outgoing u /\ from_host s = read s ++ incoming u.
Proof.
  induction 1 as [|e u s Hrun IH Hok]; [split; [apply init_wf|done]|]. by apply step_streams.
Qed.
(** A port that was configured, used and interrupted. *)
Definition usb_exec (evs : list usb_event) : usb * streams :=
  fold_left (fun us e => usb_log e us) evs (usb_cdc_init (Some (replicate 16 7)) usb_reset, streams_nil).
Definition demo_events : list usb_event :=
  [Interrupt (setup_irq (request 0 9 1 0 0)); TakeLost; Write [1; 2; 3]; Interrupt in_irq; Write [4]].
Lemma usb_stream_exact_witness :
  written (snd (usb_exec demo_events)) = to_host (snd (usb_exec demo_events)) ++ outgoing (fst (usb_exec demo_events)) /\
  to_host (snd (usb_exec demo_events)) = [1; 2; 3].
Proof.
  split; [|vm_compute; reflexivity].
  apply (usb_stream_exact (replicate 16 7)). unfold demo_events, usb_exec. cbn [fold_left].
  do 5 (match goal with |- usb_run _ (fst (usb_log ?e ?us)) _ =>
    rewrite (surjective_pairing us); apply run_step end; [|first [exact I|intros H; vm_compute in H; discriminate]]).
  apply run_init.
Defined.

(** C30: What is queued gets to the host: on a port that is up, once the sender
    was kicked, ten packets at most deliver everything that was accepted; no
    packet is longer than 64 bytes and the last is a short one, so that the host
    sees the end; then the endpoint rests. *)
Theorem usb_drains u : usb_wf u -> usable u = true -> halt_in u = false ->
  let '(l, u') := host_polls 10 (usb_cdc_flush_tx u) in
  concat l = outgoing u /\ outgoing u' = [] /\ tx_inflight u' = false /\
  (l = [] \/ exists p rest, l = rest ++ [p] /\ zlen p < 64 /\ Forall (fun p => zlen p <= 64) rest).
Proof.
  intros H Hu Hh. unfold usb_cdc_flush_tx. destruct (tx_kick_spec u H) as (W & O & _).
  assert (tx_inflight (tx_kick u) = true \/ tx_inflight (tx_kick u) = false /\ f_len (tx (tx_kick u)) = 0) as Hc.
  { destruct (tx_inflight u) eqn:Ei; [left; unfold tx_kick; by rewrite Ei|].
    pose proof (tx_kick_sends u H Hu Hh Ei) as Hk. destruct (_ && negb _) eqn:Ee; [|left; apply Hk].
    right. rewrite Hk. apply andb_true_iff in Ee as [E0 _]. split; [done|lia]. }
  rewrite <- O. set (u1 := tx_kick u) in *. clearbody u1. destruct Hc as [Hi|[Hi H0]].
  - pose proof (polls_drain 10 u1 W Hi) as Hp. assert (packets_left u1 <= Z.of_nat 10) as Hn.
    { destruct W as [[(_ & Ht & _) _ _ _ _] _]. pose proof (fifo_len _ _ Ht). unfold packets_left, TX_RING in *.
      destruct (f_len (tx u1) =? 0), (UEP2_T_LEN u1 =? 64); cbn [b1]; Z.div_mod_to_equations; lia. }
    specialize (Hp Hn). destruct (host_polls 10 u1) as [l u']. destruct Hp as (? & ? & ? & ?). auto.
  - cbn [host_polls]. rewrite Hi. assert (outgoing u1 = []) as -> by (unfold outgoing, inflight; by rewrite Hi, queued_empty).
    auto.
Qed.
Lemma exec_wf evs : Forall (fun e => forall u, event_ok e u) evs -> usb_wf (fst (usb_exec evs)).
Proof.
  intros He. cut (streams_ok (fst (usb_exec evs)) (snd (usb_exec evs))); [by intros []|]. unfold usb_exec.
  assert (streams_ok (usb_cdc_init (Some (replicate 16 7)) usb_reset) streams_nil) as H by (split; [apply init_wf|done]).
  revert H. generalize (usb_cdc_init (Some (replicate 16 7)) usb_reset) streams_nil.
  induction He as [|e evs Ho _ IH]; intros u s H; [done|]. cbn [fold_left].
  rewrite (surjective_pairing (usb_log e (u, s))). apply IH, step_streams; [done|apply Ho].
Qed.
(** The configured port with 128 bytes accepted. *)
Definition demo_full : usb :=
  fst (usb_exec [Interrupt (setup_irq (request 0 9 1 0 0)); TakeLost; Write (replicate 128 5)]).
Lemma usb_drains_witness : concat (fst (host_polls 10 (usb_cdc_flush_tx demo_full))) = replicate 128 5 /\
  map zlen (fst (host_polls 10 (usb_cdc_flush_tx demo_full))) = [64; 64; 0].
Proof.
  split; [|vm_compute; reflexivity].
  assert (usb_wf (fst (usb_exec [Interrupt (setup_irq (request 0 9 1 0 0)); TakeLost; Write (replicate 128 5)]))) as H.
  { apply exec_wf. repeat (apply List.Forall_cons; [intros u; first [exact I|intros H; vm_compute in H; discriminate]|]). constructor. }
  pose proof (usb_drains demo_full H ltac:(vm_compute; reflexivity) ltac:(vm_compute; reflexivity)) as Hd.
  destruct (host_polls 10 (usb_cdc_flush_tx demo_full)) as [l u']. destruct Hd as [Hd _]. cbn [fst]. rewrite Hd.
  vm_compute. reflexivity.
Defined.

(** A descriptor request is answered exactly: for a descriptor the device
    has, the host reads its first bytes up to the length it asked for, in
    packets of at most 64 bytes, the last of them short when the descriptor is
    shorter than that length, and the device then waits for the status stage;
    any other descriptor request is stalled. *)
Theorem usb_descriptor_exact value index len u :
  zlen (ep0_buf u) = 64 -> zlen (serial_desc u) <= 255 -> U16 value -> U16 index -> U16 len ->
  let u1 := USB_IRQHandler (setup_irq (request 0x80 6 value index len)) u in
  (forall data, In (value, data) (descriptors u) ->
     let '(l, u2) := control_reads 6 u1 in
     concat l = slice data 0 (Z.min (zlen data) len) /\ ctrl_state u2 = EP_STATUS_OUT /\
     Forall (fun p => zlen p <= 64) l /\
     (zlen data < len -> exists p rest, l = rest ++ [p] /\ zlen p < 64)) /\
  ((forall data, ~ In (value, data) (descriptors u)) ->
     ctrl_state u1 = EP_IDLE /\ UEP0_CTRL u1 = Z.lor BOTH_TOG (Z.lor UEP_R_RES_STALL UEP_T_RES_STALL)).
Proof.
  intros Hb Hs Hv Hi Hl. cbv zeta.
  destruct (setup_irq_step (request 0x80 6 value index len) u eq_refl) as (u' & -> & Hr & He & Hd).
  rewrite (setup_get_descriptor value index len u' Hv Hi Hl Hr).
  set (u0 := u' <| ctrl_left := 0 |> <| ctrl_zlp := false |> <| address_pending := false |>).
  assert (descriptors u0 = descriptors u) as Ed by (unfold descriptors; cbn [serial_desc]; by rewrite <- Hd).
  rewrite <- Ed. split.
  - intros data Hin. rewrite (get_descriptor_table value data len u0 Hin).
    apply send_desc_reads; [change (zlen (ep0_buf u') = 64); by rewrite He|apply Hl|].
    rewrite Ed in Hin. destruct Hin as [H|[H|[H|[H|[H|[H|[]]]]]]]; injection H as _ <-; try done; exact Hs.
  - intros Hno. rewrite (get_descriptor_other value len u0 Hv Hno). done.
Qed.
Lemma usb_descriptor_exact_witness :
  concat (fst (control_reads 6 (USB_IRQHandler (setup_irq (request 0x80 6 0x200 0 255)) demo_full))) =
  slice cfg_desc 0 (Z.min (zlen cfg_desc) 255).
Proof.
  pose proof (proj1 (usb_descriptor_exact 0x200 0 255 demo_full ltac:(vm_compute; reflexivity)
    ltac:(vm_compute; discriminate) ltac:(by apply (bool_decide_unpack _); vm_compute)
    ltac:(by apply (bool_decide_unpack _); vm_compute) ltac:(by apply (bool_decide_unpack _); vm_compute))
    cfg_desc ltac:(cbn; auto)) as H.
  destruct (control_reads 6 _) as [l u2]. exact (proj1 H).
Defined.
