(* ===== verification/Gatt.v ===== *)
(** * The GATT client

    wch_gatt.c: the bridge from the vendor's BLE library to the client
    interface of gatt_client.h.  It keeps one procedure at a time, translates
    the library's messages into events for the adapter, and fails the bearer
    when a message does not belong to the procedure or does not fit.

    The library calls ([sdk], [bm_alloc], [bm_free]) and the fault records are
    the class [Sdk], the adapter's event handler the class [Adapter].  The
    adapter is called back synchronously and may start the next procedure from
    within the callback: what it may do is the relation [calls] of [GattProps],
    its operations on this interface, and [AdapterOk] promises no more.  [log] is what crossed the
    interface, for the theorems.  The trace is left out. *)
From S2P Require Import Prelude.

(** ** Constants (CH58xBLE_LIB.h, gatt_client.h) *)
Definition SUCCESS : Z := 0.
Definition MSG_BUFFER_NOT_AVAIL : Z := 0x04.
Definition bleMemAllocError : Z := 0x13.
Definition bleNoResources : Z := 0x15.
Definition blePending : Z := 0x16.
Definition bleTimeout : Z := 0x17.
Definition bleProcedureComplete : Z := 0x1A.
Definition GAP_CONNHANDLE_INIT : Z := 0xFFFE.
Definition ATT_MTU_SIZE : Z := 23.
Definition ATT_ERROR_RSP : Z := 0x01.
Definition ATT_EXCHANGE_MTU_REQ : Z := 0x02.
Definition ATT_EXCHANGE_MTU_RSP : Z := 0x03.
Definition ATT_FIND_INFO_REQ : Z := 0x04.
Definition ATT_FIND_INFO_RSP : Z := 0x05.
Definition ATT_FIND_BY_TYPE_VALUE_REQ : Z := 0x06.
Definition ATT_FIND_BY_TYPE_VALUE_RSP : Z := 0x07.
Definition ATT_READ_BY_TYPE_REQ : Z := 0x08.
Definition ATT_READ_BY_TYPE_RSP : Z := 0x09.
Definition ATT_READ_REQ : Z := 0x0a.
Definition ATT_READ_RSP : Z := 0x0b.
Definition ATT_READ_BLOB_REQ : Z := 0x0c.
Definition ATT_READ_BLOB_RSP : Z := 0x0d.
Definition ATT_WRITE_REQ : Z := 0x12.
Definition ATT_WRITE_RSP : Z := 0x13.
Definition ATT_HANDLE_VALUE_NOTI : Z := 0x1b.
Definition ATT_HANDLE_VALUE_IND : Z := 0x1d.
Definition ATT_FLOW_CTRL_VIOLATED_EVENT : Z := 0x7E.
Definition ATT_MTU_UPDATED_EVENT : Z := 0x7F.
Definition ATT_ERR_INVALID_PDU : Z := 0x04.
Definition ATT_ERR_INVALID_OFFSET : Z := 0x07.
Definition ATT_ERR_ATTR_NOT_FOUND : Z := 0x0a.
Definition ATT_ERR_INVALID_VALUE_SIZE : Z := 0x0d.
Definition UINT16_MAX : Z := 65535.
Definition RBP_GATT_RETRY : Z := -2.

(** ** Data *)
Inductive gop_t :=
| GOP_NONE | GOP_EXCHANGE_MTU | GOP_DISC_SVC | GOP_READ_CHARS | GOP_DISC_DESCS | GOP_READ_VALUE | GOP_READ_LONG
| GOP_WRITE | GOP_FAILED.
#[export] Instance gop_eq_dec : EqDecision gop_t.
Proof. solve_decision. Defined.
Definition gop_code (op : gop_t) : Z :=
  match op with
  | GOP_NONE => 0 | GOP_EXCHANGE_MTU => 1 | GOP_DISC_SVC => 2 | GOP_READ_CHARS => 3 | GOP_DISC_DESCS => 4
  | GOP_READ_VALUE => 5 | GOP_READ_LONG => 6 | GOP_WRITE => 7 | GOP_FAILED => 8
  end.

(** [rbp_gatt_evt_t]: the types with the fields each one sets. *)
Inductive rbp_gatt_evt :=
| MTU_UPDATED (mtu : Z)
| SERVICE_FOUND (svc_start svc_end : Z)
| SERVICE_NOT_FOUND
| CHARS_FOUND (handle : Z) (value : list Z) (proc_complete : bool)
| DESC_FOUND (desc_handle uuid16 : Z) (proc_complete : bool)
| READ_RSP (offset : Z) (value : list Z) (proc_complete : bool)
| WRITE_DONE
| NOTIFY (handle : Z) (value : list Z)
| PROC_DONE
| PROC_ERROR (status : Z)
| BEARER_FAILED (status : Z).

(** The library calls, on a connection. *)
Inductive sdk_call :=
| GATT_ExchangeMTU (mtu : Z)
| GATT_DiscPrimaryServiceByUUID (uuid : list Z)
| GATT_DiscCharsByUUID (start end_ : Z) (uuid : list Z)
| GATT_DiscAllCharDescs (start end_ : Z)
| GATT_ReadCharValue (handle : Z)
| GATT_ReadLongCharValue (handle offset : Z)
| GATT_WriteCharValue (handle : Z) (value : list Z)
| GATT_WriteNoRsp (handle : Z) (value : list Z)
| ATT_HandleValueCfm.

(** [gattMsgEvent_t]: each member of the union is a group of fields; the code
    reads the one of the method.  [m_data] is the buffer, [None] a null
    pointer; [m_num] numInfo or numPairs; [m_len] len. *)
Record gatt_msg := GattMsg {
  m_conn : Z; m_method : Z; m_status : Z;
  m_reqOpcode : Z; m_errHandle : Z; m_errCode : Z;
  m_serverRxMTU : Z;
  m_num : Z; m_format : Z; m_len : Z; m_handle : Z; m_data : option (list Z) }.

(** The static variables. *)
Record gatt := Gatt {
  conn_handle : Z; neg_mtu : Z; cur_op : gop_t; generation : Z; read_offset : Z; found_service : bool;
  pending_start : Z; pending_end : Z }.
#[export] Instance eta_gatt : Eta gatt := fun g =>
  Gatt (conn_handle g) (neg_mtu g) (cur_op g) (generation g) (read_offset g) (found_service g) (pending_start g)
    (pending_end g).
Definition gatt_reset : gatt := Gatt GAP_CONNHANDLE_INIT ATT_MTU_SIZE GOP_FAILED 0 0 false 0 0.

(** What crosses the interface; a submission with the offset of a long read. *)
Inductive action :=
| Submitted (op : gop_t) (offset : Z)
| Command
| Emitted (e : rbp_gatt_evt)
| Quiesced
| Connected (h : Z).

Record gst (W : Type) := Gst { g : gatt; world : W; log : list action }.
Arguments Gst {W} _ _ _.
Arguments g {W} _.
Arguments world {W} _.
Arguments log {W} _.
#[export] Instance eta_gst W : Eta (gst W) := fun s => Gst (g s) (world s) (log s).
Definition note {W} (a : action) (s : gst W) : gst W := s <| log := log s ++ [a] |>.

Class Sdk (W : Type) := {
  sdk : Z -> sdk_call -> W -> Z * W;
  bm_alloc : Z -> W -> bool * W;
  bm_free : W -> W;
  fault_record : Z -> Z -> Z -> Z -> W -> W;
  RBP_ATT_MTU : Z }.
Class Adapter (W : Type) := rc003_adapter_on_gatt : rbp_gatt_evt -> gst W -> gst W.
Definition RBP_FAULT_GATT_API : Z := 3.
Definition RBP_FAULT_GATT_EVENT : Z := 4.
Definition RBP_FAULT_ATT : Z := 5.

(** ** Operations *)
Section gatt.
Context {W : Type} `{P : Sdk W} `{A : Adapter W}.
Implicit Types s : gst W.

Definition on_world (f : W -> W) (s : gst W) : gst W := s <| world := f (world s) |>.
Definition on_g (f : gatt -> gatt) (s : gst W) : gst W := s <| g := f (g s) |>.
Definition bump (x : gatt) : gatt := x <| generation := u32 (generation x + 1) |>.

(** [rejected] with its library call: the result and, for the caller, the
    status 0 of an accepted call. *)
Definition rejected (op : gop_t) (status : Z) (s : gst W) : Z * gst W :=
  if status =? SUCCESS then (0, s)
  else
    let s := on_world (fault_record RBP_FAULT_GATT_API (gop_code op) status 0) s in
    (if (status =? blePending) || (status =? bleMemAllocError) || (status =? bleNoResources) ||
        (status =? MSG_BUFFER_NOT_AVAIL) then RBP_GATT_RETRY else -1, s).
Definition call (c : sdk_call) (s : gst W) : Z * gst W :=
  let '(status, w) := sdk (conn_handle (g s)) c (world s) in (status, s <| world := w |>).

Definition wch_gatt_set_conn (h : Z) (s : gst W) : gst W :=
  note (Connected h) (on_g (fun x => bump (x <| conn_handle := h |>
    <| cur_op := if h =? GAP_CONNHANDLE_INIT then GOP_FAILED else GOP_NONE |> <| neg_mtu := ATT_MTU_SIZE |>)) s).
Definition wch_gatt_quiesce (s : gst W) : gst W :=
  note Quiesced (on_g (fun x => bump (x <| cur_op := GOP_FAILED |>)) s).

Definition emit (e : rbp_gatt_evt) (s : gst W) : gst W := rc003_adapter_on_gatt e (note (Emitted e) s).
Definition bearer_failed (status : Z) (s : gst W) : gst W :=
  let s := on_world (fault_record RBP_FAULT_GATT_EVENT (gop_code (cur_op (g s))) status 0) s in
  emit (BEARER_FAILED status) (on_g (fun x => bump x <| cur_op := GOP_FAILED |>) s).
Definition emit_done (s : gst W) : gst W := emit PROC_DONE (on_g (fun x => bump x <| cur_op := GOP_NONE |>) s).
Definition emit_error (status : Z) (s : gst W) : gst W :=
  let s := on_world (fault_record RBP_FAULT_ATT (gop_code (cur_op (g s))) status 0) s in
  emit (PROC_ERROR status) (on_g (fun x => bump x <| cur_op := GOP_NONE |>) s).

(** The common shape of the procedures: refused while another is pending,
    otherwise submitted, and recorded as pending if the library took it. *)
Definition guarded (f : gst W -> Z * gst W) (s : gst W) : Z * gst W :=
  if bool_decide (cur_op (g s) = GOP_FAILED) then (-1, s)
  else if negb (bool_decide (cur_op (g s) = GOP_NONE)) then (RBP_GATT_RETRY, s)
  else f s.
Definition submit (op : gop_t) (c : sdk_call) (upd_g : gatt -> gatt) (s : gst W) : Z * gst W :=
  let '(status, s) := call c s in
  let '(result, s) := rejected op status s in
  if negb (result =? 0) then (result, s)
  else
    let s := on_g (fun x => upd_g (bump x) <| cur_op := op |>) s in
    (0, note (Submitted op (read_offset (g s))) s).
Definition range (a b : Z) (x : gatt) : gatt := x <| pending_start := a |> <| pending_end := b |>.

Definition op_exchange_mtu (mtu : Z) : gst W -> Z * gst W :=
  guarded (submit GOP_EXCHANGE_MTU (GATT_ExchangeMTU mtu) (fun x => x)).
Definition op_disc_service (uuid : list Z) : gst W -> Z * gst W :=
  guarded (submit GOP_DISC_SVC (GATT_DiscPrimaryServiceByUUID uuid)
             (fun x => range 1 0xffff (x <| found_service := false |>))).
Definition uuid2 (uuid16 : Z) : list Z := [u8 uuid16; u8 (Z.shiftr uuid16 8)].
Definition op_disc_service16 (uuid16 : Z) : gst W -> Z * gst W := op_disc_service (uuid2 uuid16).
Definition op_disc_service128 (uuid : list Z) : gst W -> Z * gst W := op_disc_service (slice uuid 0 16).
Definition op_read_chars (start end_ : Z) (uuid : list Z) : gst W -> Z * gst W :=
  guarded (submit GOP_READ_CHARS (GATT_DiscCharsByUUID start end_ uuid) (range start end_)).
Definition op_read_chars16 (start end_ uuid16 : Z) : gst W -> Z * gst W := op_read_chars start end_ (uuid2 uuid16).
Definition op_read_chars128 (start end_ : Z) (uuid : list Z) : gst W -> Z * gst W :=
  op_read_chars start end_ (slice uuid 0 16).
Definition op_disc_descs (start end_ : Z) : gst W -> Z * gst W :=
  guarded (submit GOP_DISC_DESCS (GATT_DiscAllCharDescs start end_) (range start end_)).
Definition op_read_value (handle : Z) : gst W -> Z * gst W :=
  guarded (submit GOP_READ_VALUE (GATT_ReadCharValue handle) (range handle handle)).
Definition op_read_long (handle offset : Z) : gst W -> Z * gst W :=
  guarded (submit GOP_READ_LONG (GATT_ReadLongCharValue handle offset)
             (fun x => range handle handle (x <| read_offset := offset |>))).
(** The request buffer: allocated first, freed when the call is refused. *)
Definition with_buffer (op : gop_t) (len : Z) (f : gst W -> Z * gst W) (s : gst W) : Z * gst W :=
  let '(ok, w) := bm_alloc len (world s) in
  let s := s <| world := w |> in
  if negb ok then (RBP_GATT_RETRY, on_world (fault_record RBP_FAULT_GATT_API (gop_code op) bleMemAllocError 0) s)
  else let '(result, s) := f s in (result, if result =? 0 then s else on_world bm_free s).
Definition op_write (handle : Z) (val : list Z) : gst W -> Z * gst W :=
  guarded (with_buffer GOP_WRITE (zlen val)
    (submit GOP_WRITE (GATT_WriteCharValue handle val) (range handle handle))).
(** A command has no response and is not a procedure. *)
Definition send_command (handle : Z) (val : list Z) (s : gst W) : Z * gst W :=
  let '(status, s) := call (GATT_WriteNoRsp handle val) s in
  let '(result, s) := rejected GOP_NONE status s in
  (result, if result =? 0 then note Command s else s).
Definition op_command (handle : Z) (val : option (list Z)) : gst W -> Z * gst W :=
  guarded (fun s =>
    match val with
    | None => (-1, s)
    | Some v =>
      if neg_mtu (g s) - 3 <? zlen v then (-1, s)
      else with_buffer GOP_NONE (zlen v) (send_command handle v) s
    end).

(** ** Messages *)
Definition expected_req (op : gop_t) : Z :=
  match op with
  | GOP_EXCHANGE_MTU => ATT_EXCHANGE_MTU_REQ
  | GOP_DISC_SVC => ATT_FIND_BY_TYPE_VALUE_REQ
  | GOP_READ_CHARS => ATT_READ_BY_TYPE_REQ
  | GOP_DISC_DESCS => ATT_FIND_INFO_REQ
  | GOP_READ_VALUE => ATT_READ_REQ
  | GOP_READ_LONG => ATT_READ_BLOB_REQ
  | GOP_WRITE => ATT_WRITE_REQ
  | _ => 0
  end.
Definition response (op : gop_t) : Z :=
  match op with
  | GOP_EXCHANGE_MTU => ATT_EXCHANGE_MTU_RSP
  | GOP_DISC_SVC => ATT_FIND_BY_TYPE_VALUE_RSP
  | GOP_READ_CHARS => ATT_READ_BY_TYPE_RSP
  | GOP_DISC_DESCS => ATT_FIND_INFO_RSP
  | GOP_READ_VALUE => ATT_READ_RSP
  | GOP_READ_LONG => ATT_READ_BLOB_RSP
  | GOP_WRITE => ATT_WRITE_RSP
  | _ => 0
  end.
(** An error response that is not the answer to the pending request. *)
Definition stray_error (m : gatt_msg) (x : gatt) : bool :=
  let op := cur_op x in
  (expected_req op =? 0) || negb (m_reqOpcode m =? expected_req op) ||
  (negb (bool_decide (op = GOP_EXCHANGE_MTU)) &&
   ((m_errHandle m <? pending_start x) || (pending_end x <? m_errHandle m))).
Definition null (d : option (list Z)) : bool := match d with None => true | Some _ => false end.
Definition bytes (m : gatt_msg) : list Z := match m_data m with Some l => l | None => [] end.
Definition is_complete (m : gatt_msg) : bool := m_status m =? bleProcedureComplete.
(** The message does not answer the pending procedure. *)
Definition bad_shape (m : gatt_msg) (op : gop_t) : bool :=
  (negb (m_method m =? response op) && negb (m_method m =? ATT_ERROR_RSP)) ||
  (negb (m_status m =? SUCCESS) && negb (is_complete m)) ||
  (is_complete m && negb (bool_decide (op = GOP_DISC_SVC)) && negb (bool_decide (op = GOP_READ_CHARS)) &&
   negb (bool_decide (op = GOP_DISC_DESCS)) && negb (bool_decide (op = GOP_READ_LONG))).
(** A variable-length response that does not fit its buffer or the MTU. *)
Definition bad_size (m : gatt_msg) (x : gatt) : bool :=
  let mtu := neg_mtu x in
  ((m_method m =? ATT_FIND_BY_TYPE_VALUE_RSP) &&
   ((negb (m_num m =? 0) && null (m_data m)) || ((mtu - 1) / 4 <? m_num m))) ||
  ((m_method m =? ATT_FIND_INFO_RSP) && negb (m_num m =? 0) &&
   ((negb (m_format m =? 1) && negb (m_format m =? 2)) || null (m_data m) ||
    ((mtu - 2) / (if m_format m =? 1 then 4 else 18) <? m_num m))) ||
  ((m_method m =? ATT_READ_RSP) &&
   ((mtu - 1 <? m_len m) || (negb (m_len m =? 0) && null (m_data m)))) ||
  ((m_method m =? ATT_READ_BLOB_RSP) &&
   ((mtu - 1 <? m_len m) || (negb (m_len m =? 0) && null (m_data m)) ||
    (UINT16_MAX - read_offset x <? m_len m))).

Definition on_notify (m : gatt_msg) (s : gst W) : gst W :=
  if negb (m_status m =? SUCCESS) then bearer_failed (m_status m) s
  else if (neg_mtu (g s) - 3 <? m_len m) || (negb (m_len m =? 0) && null (m_data m))
  then bearer_failed ATT_ERR_INVALID_VALUE_SIZE s
  else
    let s := if m_method m =? ATT_HANDLE_VALUE_IND
      then let '(status, s) := call ATT_HandleValueCfm s in
           if negb (status =? SUCCESS) then on_world (fault_record RBP_FAULT_GATT_API 9 status 0) s else s
      else s in
    emit (NOTIFY (m_handle m) (slice (bytes m) 0 (m_len m))) s.

Definition w16 (l : list Z) (o : Z) : Z := Z.lor (znth l o) (Z.shiftl (znth l (o + 1)) 8).
(** Emits the items [i], [i + 1], ... of a batch; [false] when the adapter
    moved on. *)
Fixpoint emit_batch (item : Z -> rbp_gatt_evt) (old i : Z) (n : nat) (s : gst W) : bool * gst W :=
  match n with
  | O => (true, s)
  | S n =>
    let s := emit (item i) s in
    if negb (generation (g s) =? old) then (false, s) else emit_batch item old (i + 1) n s
  end.
Definition char_item (m : gatt_msg) (i : Z) : rbp_gatt_evt :=
  let d := slice (bytes m) (i * m_len m) (m_len m) in
  CHARS_FOUND (w16 d 0) (slice d 2 (m_len m - 2)) (is_complete m && (u8 (i + 1) =? m_num m)).
Definition desc_item (m : gatt_msg) (i : Z) : rbp_gatt_evt :=
  let d := slice (bytes m) (i * 4) 4 in
  DESC_FOUND (w16 d 0) (w16 d 2) (is_complete m && (u8 (i + 1) =? m_num m)).
(** How a discovery ends: on its completion, or on an error. *)
Definition finish_discovery (m : gatt_msg) (rsp : Z) (s : gst W) : gst W :=
  if (m_method m =? rsp) && is_complete m then emit_done s
  else if m_method m =? ATT_ERROR_RSP then
    if m_errCode m =? ATT_ERR_ATTR_NOT_FOUND then emit_done s else emit_error (m_errCode m) s
  else s.

Definition on_mtu (m : gatt_msg) (s : gst W) : gst W :=
  if m_method m =? ATT_EXCHANGE_MTU_RSP then
    let old := generation (g s) in
    let mtu := if RBP_ATT_MTU <? m_serverRxMTU m then RBP_ATT_MTU else m_serverRxMTU m in
    let s := on_g (fun x => x <| neg_mtu := mtu |>) s in
    if mtu <? 23 then bearer_failed ATT_ERR_INVALID_VALUE_SIZE s
    else
      let s := emit (MTU_UPDATED mtu) (on_g (fun x => x <| cur_op := GOP_NONE |>) s) in
      if generation (g s) =? old then emit_done s else s
  else if m_method m =? ATT_ERROR_RSP then emit_error (m_errCode m) s
  else s.
Definition on_service (m : gatt_msg) (s : gst W) : gst W :=
  let old := generation (g s) in
  let s := if (m_method m =? ATT_FIND_BY_TYPE_VALUE_RSP) && (0 <? m_num m) && negb (found_service (g s))
    then emit (SERVICE_FOUND (w16 (bytes m) 0) (w16 (bytes m) 2)) (on_g (fun x => x <| found_service := true |>) s)
    else s in
  if negb (generation (g s) =? old) then s
  else if (m_method m =? ATT_FIND_BY_TYPE_VALUE_RSP) && is_complete m then emit_done s
  else if m_method m =? ATT_ERROR_RSP then
    if negb (m_errCode m =? ATT_ERR_ATTR_NOT_FOUND) then emit_error (m_errCode m) s
    else if found_service (g s) then emit_done s
    else emit SERVICE_NOT_FOUND (on_g (fun x => x <| cur_op := GOP_NONE |>) s)
  else s.
Definition on_chars (m : gatt_msg) (s : gst W) : gst W :=
  if (m_method m =? ATT_READ_BY_TYPE_RSP) && (0 <? m_num m) then
    if (negb (m_len m =? 7) && negb (m_len m =? 21)) || null (m_data m) ||
       ((neg_mtu (g s) - 2) / m_len m <? m_num m)
    then bearer_failed ATT_ERR_INVALID_VALUE_SIZE s
    else
      let '(go, s) := emit_batch (char_item m) (generation (g s)) 0 (Z.to_nat (m_num m)) s in
      if go then finish_discovery m ATT_READ_BY_TYPE_RSP s else s
  else finish_discovery m ATT_READ_BY_TYPE_RSP s.
Definition on_descs (m : gatt_msg) (s : gst W) : gst W :=
  let '(go, s) :=
    if (m_method m =? ATT_FIND_INFO_RSP) && (0 <? m_num m) && (m_format m =? 1)
    then emit_batch (desc_item m) (generation (g s)) 0 (Z.to_nat (m_num m)) s
    else (true, s) in
  if go then finish_discovery m ATT_FIND_INFO_RSP s else s.
Definition on_value (m : gatt_msg) (s : gst W) : gst W :=
  if m_method m =? ATT_READ_RSP then
    emit (READ_RSP 0 (slice (bytes m) 0 (m_len m)) (m_len m <? neg_mtu (g s) - 1))
      (on_g (fun x => x <| cur_op := GOP_NONE |>) s)
  else if m_method m =? ATT_ERROR_RSP then emit_error (m_errCode m) s
  else s.
Definition on_long (m : gatt_msg) (s : gst W) : gst W :=
  let off := read_offset (g s) in
  if m_method m =? ATT_READ_BLOB_RSP then
    let s := on_g (fun x => x <| read_offset := u16 (off + m_len m) |>) s in
    emit (READ_RSP off (slice (bytes m) 0 (m_len m)) (is_complete m))
      (if is_complete m then on_g (fun x => x <| cur_op := GOP_NONE |>) s else s)
  else if m_method m =? ATT_ERROR_RSP then
    if (m_errCode m =? ATT_ERR_INVALID_OFFSET) && negb (off =? 0)
    then emit (READ_RSP off [] true) (on_g (fun x => x <| cur_op := GOP_NONE |>) s)
    else emit_error (m_errCode m) s
  else s.
Definition on_write (m : gatt_msg) (s : gst W) : gst W :=
  if m_method m =? ATT_WRITE_RSP then
    let old := generation (g s) in
    let s := emit WRITE_DONE (on_g (fun x => x <| cur_op := GOP_NONE |>) s) in
    if generation (g s) =? old then emit_done s else s
  else if m_method m =? ATT_ERROR_RSP then emit_error (m_errCode m) s
  else s.

(** A message of the pending procedure. *)
Definition on_procedure (m : gatt_msg) (s : gst W) : gst W :=
  let op := cur_op (g s) in
  if bad_shape m op then bearer_failed ATT_ERR_INVALID_PDU s
  else if bad_size m (g s) then bearer_failed ATT_ERR_INVALID_VALUE_SIZE s
  else
    match op with
    | GOP_EXCHANGE_MTU => on_mtu m s
    | GOP_DISC_SVC => on_service m s
    | GOP_READ_CHARS => on_chars m s
    | GOP_DISC_DESCS => on_descs m s
    | GOP_READ_VALUE => on_value m s
    | GOP_READ_LONG => on_long m s
    | GOP_WRITE => on_write m s
    | GOP_NONE | GOP_FAILED => s
    end.
Definition wch_gatt_on_msg (m : gatt_msg) (s : gst W) : gst W :=
  let op := gop_code (cur_op (g s)) in
  let s := if negb (m_status m =? SUCCESS) && negb (m_status m =? bleProcedureComplete)
    then on_world (fault_record RBP_FAULT_GATT_EVENT (m_method m) (m_status m) op) s else s in
  if negb (m_conn m =? conn_handle (g s)) || (conn_handle (g s) =? GAP_CONNHANDLE_INIT) ||
     bool_decide (cur_op (g s) = GOP_FAILED) then s
  else
    let error := (m_method m =? ATT_ERROR_RSP) && (m_status m =? SUCCESS) in
    let s := if error && negb (m_errCode m =? ATT_ERR_ATTR_NOT_FOUND)
      then on_world (fault_record RBP_FAULT_ATT (m_reqOpcode m) (m_errCode m) op) s else s in
    if error && stray_error m (g s) then bearer_failed (m_errCode m) s
    else if m_status m =? bleTimeout then bearer_failed bleTimeout s
    else if (m_method m =? ATT_HANDLE_VALUE_NOTI) || (m_method m =? ATT_HANDLE_VALUE_IND) then on_notify m s
    else if m_method m =? ATT_MTU_UPDATED_EVENT then s
    else if m_method m =? ATT_FLOW_CTRL_VIOLATED_EVENT then bearer_failed ATT_ERR_INVALID_PDU s
    else if bool_decide (cur_op (g s) = GOP_NONE) then s
    else on_procedure m s.
End gatt.
