(* ===== verification/GattProps.v ===== *)
(** * The GATT client: theorems

    The contract of gatt_client.h as an automaton over what crosses the
    interface ([contract], [advance]), and the proof that wch_gatt.c keeps it
    whatever messages the library delivers and whatever the adapter does in its
    callbacks. *)
From S2P Require Import Prelude Gatt.

(** ** The contract *)
(** [Trailing]: the result of a procedure was delivered, its [PROC_DONE] may
    follow.  [Busy] has the offset the next part of a long read must have. *)
Inductive contract := Closed | Idle | Trailing | Busy (op : gop_t) (next : Z).
Definition procedure (op : gop_t) : bool := match op with GOP_NONE | GOP_FAILED => false | _ => true end.
Inductive stage := Progress | Result | Final | Foreign.
(** What an event means to the pending procedure. *)
Definition stage_of (op : gop_t) (next : Z) (e : rbp_gatt_evt) : stage :=
  match op, e with
  | _, PROC_ERROR _ => Final
  | GOP_EXCHANGE_MTU, MTU_UPDATED _ => Result
  | GOP_DISC_SVC, SERVICE_FOUND _ _ => Progress
  | GOP_DISC_SVC, (SERVICE_NOT_FOUND | PROC_DONE) => Final
  | GOP_READ_CHARS, CHARS_FOUND _ _ _ => Progress
  | GOP_READ_CHARS, PROC_DONE => Final
  | GOP_DISC_DESCS, DESC_FOUND _ _ _ => Progress
  | GOP_DISC_DESCS, PROC_DONE => Final
  | GOP_READ_VALUE, READ_RSP _ _ _ => Final
  | GOP_READ_LONG, READ_RSP off _ complete => if off =? next then if complete then Final else Progress else Foreign
  | GOP_WRITE, WRITE_DONE => Result
  | _, _ => Foreign
  end.
(** The data of an event are whole and within what ATT allows. *)
Definition evt_ok (e : rbp_gatt_evt) : bool :=
  match e with
  | MTU_UPDATED mtu => (23 <=? mtu) && (mtu <=? 247)
  | CHARS_FOUND _ v _ => (zlen v =? 5) || (zlen v =? 19)
  | READ_RSP off v _ => (zlen v <=? 246) && (off + zlen v <=? UINT16_MAX)
  | NOTIFY _ v => zlen v <=? 244
  | _ => true
  end.
Definition advance (c : contract) (a : action) : option contract :=
  match a, c with
  | Connected h, _ => Some (if h =? GAP_CONNHANDLE_INIT then Closed else Idle)
  | Quiesced, _ => Some Closed
  | Submitted op off, (Idle | Trailing) => if procedure op then Some (Busy op off) else None
  | Command, (Idle | Trailing) => Some c
  | Emitted _, Closed => None
  | Emitted (BEARER_FAILED _), _ => Some Closed
  | Emitted e, _ =>
    if negb (evt_ok e) then None
    else
      match e, c with
      | NOTIFY _ _, _ => Some c
      | PROC_DONE, Trailing => Some Idle
      | _, Busy op next =>
        match stage_of op next e with
        | Progress => Some (Busy op (match e with READ_RSP _ v _ => next + zlen v | _ => next end))
        | Result => Some Trailing
        | Final => Some Idle
        | Foreign => None
        end
      | _, _ => None
      end
  | _, _ => None
  end.
Fixpoint conforms (c : contract) (l : list action) : option contract :=
  match l with
  | [] => Some c
  | a :: l => match advance c a with Some c => conforms c l | None => None end
  end.
Lemma conforms_snoc c l a : conforms c (l ++ [a]) =
  match conforms c l with Some c => advance c a | None => None end.
Proof.
  revert c. induction l as [|b l IH]; intros c; cbn; [by destruct (advance c a)|].
  destruct (advance c b); [apply IH|done].
Qed.

(** ** The adapter *)
Inductive client_op :=
| OpMtu (mtu : Z) | OpService16 (uuid16 : Z) | OpService128 (uuid : list Z)
| OpChars16 (start end_ uuid16 : Z) | OpChars128 (start end_ : Z) (uuid : list Z)
| OpDescs (start end_ : Z) | OpRead (handle : Z) | OpReadLong (handle offset : Z)
| OpWrite (handle : Z) (val : list Z) | OpCommand (handle : Z) (val : option (list Z)).
(** The operands are what their C types allow. *)
Definition op_ok (o : client_op) : Prop := match o with OpReadLong _ offset => U16 offset | _ => True end.

Section adapter.
Context {W : Type} `{P : Sdk W}.

Definition run_op (o : client_op) : gst W -> Z * gst W :=
  match o with
  | OpMtu mtu => op_exchange_mtu mtu
  | OpService16 u => op_disc_service16 u
  | OpService128 u => op_disc_service128 u
  | OpChars16 a b u => op_read_chars16 a b u
  | OpChars128 a b u => op_read_chars128 a b u
  | OpDescs a b => op_disc_descs a b
  | OpRead h => op_read_value h
  | OpReadLong h off => op_read_long h off
  | OpWrite h v => op_write h v
  | OpCommand h v => op_command h v
  end.
(** What a callback may do to the interface, in [n] calls: use the client
    operations, end the link, and change what is not the interface's. *)
Inductive calls : nat -> gst W -> gst W -> Prop :=
| calls_nil s : calls 0 s s
| calls_world n f s s' : calls n (on_world f s) s' -> calls n s s'
| calls_op n o s s' : op_ok o -> calls n (snd (run_op o s)) s' -> calls (S n) s s'
| calls_quiesce n s s' : calls n (wch_gatt_quiesce s) s' -> calls (S n) s s'.
End adapter.
(** The adapter's handler uses the interface, fewer than 2^32 times. *)
Class AdapterOk W (P : Sdk W) (A : Adapter W) := {
  adapter_calls e s : exists n, Z.of_nat n < 4294967296 /\ calls n s (rc003_adapter_on_gatt e s);
  mtu_limit : 23 <= RBP_ATT_MTU <= 247 }.

(** ** The invariant *)
Definition rel (x : gatt) (c : contract) : Prop :=
  match cur_op x with
  | GOP_FAILED => c = Closed
  | GOP_NONE => c = Idle \/ c = Trailing
  | op => c = Busy op (read_offset x)
  end.
Definition gatt_ok (x : gatt) : Prop := neg_mtu x <= 247 /\ U16 (read_offset x) /\ U32 (generation x).
Definition settled (c : contract) : Prop := c <> Trailing.

Section props.
Context {W : Type} `{P : Sdk W} `{A : Adapter W} `{!AdapterOk W P A}.
Implicit Types s : gst W.

Definition inv s (c : contract) : Prop :=
  conforms Closed (log s) = Some c /\ rel (g s) c /\ gatt_ok (g s).
(** [k] steps of the generation; none leaves the procedure as it was. *)
Definition moved (k : Z) s (c : contract) s' (c' : contract) : Prop :=
  inv s' c' /\ generation (g s') = u32 (generation (g s) + k) /\
  (k = 0 -> c' = c /\ g s' = g s) /\ (0 < k -> settled c').

Lemma moved_refl s c : inv s c -> moved 0 s c s c.
Proof. intros H. split; [done|]. pose proof H as (_ & _ & _ & _ & Hg). rewrite Z.add_0_r, u32_small by done. done. Qed.
Lemma moved_trans k k2 s c s1 c1 s2 c2 : 0 <= k -> 0 <= k2 -> moved k s c s1 c1 -> moved k2 s1 c1 s2 c2 ->
  moved (k + k2) s c s2 c2.
Proof.
  intros Hk Hk2 (I1 & G1 & Z1 & S1) (I2 & G2 & Z2 & S2). split; [done|]. split; [rewrite G2, G1; words|].
  split.
  - intros H0. destruct Z1 as [-> E1]; [lia|]. destruct Z2 as [-> E2]; [lia|]. split; congruence.
  - intros H0. destruct (Z.eq_dec k2 0) as [->|]; [|apply S2; lia]. destruct Z2 as [-> _]; [done|]. apply S1. lia.
Qed.
Lemma moved_world f s c : inv s c -> moved 0 s c (on_world f s) c.
Proof. intros H. exact (moved_refl s c H). Qed.

(** ** The client operations *)
Lemma guarded_moved f s c :
  (inv s c -> cur_op (g s) = GOP_NONE -> exists k c', 0 <= k <= 1 /\ moved k s c (snd (f s)) c') ->
  inv s c -> exists k c', 0 <= k <= 1 /\ moved k s c (snd (guarded f s)) c'.
Proof.
  intros Hf H. unfold guarded. repeat case_bool_decide; cbn [negb]; [|by apply Hf|]; exists 0, c;
    (split; [lia|by apply moved_refl]).
Qed.
Lemma submit_moved op cl f s c : procedure op = true -> (forall x, gatt_ok x -> gatt_ok (f x)) ->
  (forall x, generation (f x) = generation x) ->
  inv s c -> cur_op (g s) = GOP_NONE -> exists k c', 0 <= k <= 1 /\ moved k s c (snd (submit op cl f s)) c'.
Proof.
  intros Hop Hf Hfg H Hn. unfold submit, call. destruct (sdk _ cl (world s)) as [status w].
  unfold rejected. destruct (status =? SUCCESS) eqn:E0; cbn [negb Z.eqb snd].
  - exists 1, (Busy op (read_offset (f (bump (g s))))). split; [lia|]. destruct H as (Hc & Hr & Ho). unfold moved, inv, note, on_g. cbn [g log].
    split; [|split; [|split; [lia|done]]].
    + cbn. rewrite conforms_snoc, Hc. split; [|split].
      * unfold rel in Hr. rewrite Hn in Hr. destruct Hr as [-> | ->]; cbn; by rewrite Hop.
      * unfold rel. cbn. by destruct op.
      * destruct (Hf (bump (g s))) as (? & ? & ?); [|done]. destruct Ho as (? & ? & ?).
        split; [done|]. split; [done|]. apply u32_range.
    + cbn. by rewrite Hfg.
  - exists 0, c. split; [lia|]. destruct (_ || _); exact (moved_refl s c H).
Qed.
Lemma with_buffer_moved op n f s c : inv s c ->
  (forall w, exists k c', 0 <= k <= 1 /\ moved k s c (snd (f (s <| world := w |>))) c') ->
  exists k c', 0 <= k <= 1 /\ moved k s c (snd (with_buffer op n f s)) c'.
Proof.
  intros H Hf. unfold with_buffer. destruct (bm_alloc n (world s)) as [ok w]. destruct ok; cbn [negb].
  - destruct (Hf w) as (k & c' & Hk & Hm). exists k, c'. split; [done|].
    destruct (f (s <| world := w |>)) as [r s']. cbn [snd] in *. by destruct (r =? 0).
  - exists 0, c. split; [lia|]. exact (moved_refl s c H).
Qed.
Lemma command_moved h v s c : inv s c -> cur_op (g s) = GOP_NONE ->
  exists k c', 0 <= k <= 1 /\ moved k s c (snd (send_command h v s)) c'.
Proof.
  intros H Hn. exists 0, c. split; [lia|]. unfold send_command, call.
  destruct (sdk _ _ (world s)) as [status w]. unfold rejected.
  destruct (status =? SUCCESS); cbn [snd Z.eqb].
  - destruct (moved_refl s c H) as (Hi & Hm). split; [|exact Hm]. destruct Hi as (Hc & Hr & Ho).
    split; [|done]. cbn. rewrite conforms_snoc, Hc. unfold rel in Hr. rewrite Hn in Hr. by destruct Hr as [-> | ->].
  - destruct (_ || _); exact (moved_refl s c H).
Qed.
Lemma run_op_moved o s c : op_ok o -> inv s c ->
  exists k c', 0 <= k <= 1 /\ moved k s c (snd (run_op o s)) c'.
Proof.
  intros Ho H. destruct o; cbn [run_op];
    unfold op_exchange_mtu, op_disc_service16, op_disc_service128, op_disc_service, op_read_chars16, op_read_chars128,
      op_read_chars, op_disc_descs, op_read_value, op_read_long, op_write, op_command; apply guarded_moved; try done;
    intros H' Hn; try (apply submit_moved; try done; intros x (? & ? & ?); done).
  - apply with_buffer_moved; [done|]. intros w.
    match goal with |- context [submit _ ?cl ?f ?x] =>
      exact (submit_moved GOP_WRITE cl f x c eq_refl (fun _ Hx => Hx) (fun _ => eq_refl) H Hn) end.
  - destruct val as [v|]; [|exists 0, c; split; [lia|by apply moved_refl]].
    destruct (_ <? _); [exists 0, c; split; [lia|by apply moved_refl]|].
    apply with_buffer_moved; [done|]. intros w.
    match goal with |- context [send_command _ _ ?x] => exact (command_moved handle v x c H Hn) end.
Qed.
Lemma quiesce_moved s c : inv s c -> moved 1 s c (wch_gatt_quiesce s) Closed.
Proof.
  intros (Hc & Hr & Hm & Hf & Hg). split; [|split; [done|split; [lia|done]]].
  split; [cbn; by rewrite conforms_snoc, Hc|]. split; [done|]. split; [done|]. split; [done|]. apply u32_range.
Qed.
Lemma calls_moved n s s' : calls n s s' -> forall c, inv s c ->
  exists k c', 0 <= k <= Z.of_nat n /\ moved k s c s' c'.
Proof.
  induction 1 as [s|n f s s' _ IH|n o s s' Ho _ IH|n s s' _ IH]; intros c H.
  - exists 0, c. split; [lia|by apply moved_refl].
  - destruct (IH c H) as (k & c' & Hk & Hm). by exists k, c'.
  - destruct (run_op_moved o s c Ho H) as (k & c1 & Hk & Hm). destruct (IH c1) as (k2 & c2 & Hk2 & Hm2); [apply Hm|].
    exists (k + k2), c2. split; [lia|]. apply (moved_trans k k2 _ _ _ c1 _ _ ltac:(lia) ltac:(lia) Hm Hm2).
  - pose proof (quiesce_moved s c H) as Hm. destruct (IH Closed) as (k2 & c2 & Hk2 & Hm2); [apply Hm|].
    exists (1 + k2), c2. split; [lia|]. apply (moved_trans 1 k2 _ _ _ Closed _ _ ltac:(lia) ltac:(lia) Hm Hm2).
Qed.

(** ** Emitting an event

    The code has already recorded what the event does to the procedure ([c1]);
    afterwards the adapter has moved on, which the generation shows, or nothing
    has changed. *)
Lemma emit_spec e s c c1 :
  conforms Closed (log s) = Some c -> advance c (Emitted e) = Some c1 -> rel (g s) c1 -> gatt_ok (g s) ->
  exists c', inv (emit e s) c' /\ (settled c1 -> settled c') /\
    (generation (g (emit e s)) = generation (g s) -> c' = c1 /\ g (emit e s) = g s) /\
    (generation (g (emit e s)) <> generation (g s) -> settled c').
Proof.
  intros Hc Ha Hr Ho. unfold emit. set (s1 := note (Emitted e) s).
  assert (inv s1 c1) as H1 by (split; [cbn; by rewrite conforms_snoc, Hc|done]).
  destruct (adapter_calls e s1) as (n & Hn & Hcalls).
  destruct (calls_moved n s1 _ Hcalls c1 H1) as (k & c' & Hk & Hi & Hg & H0 & Hpos).
  change (g s) with (g s1).
  exists c'. split; [done|]. destruct (Z.eq_dec k 0) as [Ek|Ek].
  - destruct (H0 Ek) as [E1 E2]. split; [by rewrite E1|]. split; [done|]. intros Hne. exfalso. apply Hne.
    rewrite Hg, Ek, Z.add_0_r. apply u32_small. apply H1.
  - assert (settled c') as Hs by (apply Hpos; lia). split; [done|]. split; [|done]. intros Heq. exfalso.
    assert (U32 (generation (g s1))) as Hu by apply H1. rewrite Hg in Heq. words.
Qed.

(** ** Messages

    What the library promises: counts and lengths are unsigned, and a buffer
    holds what they say. *)
Definition msg_room (m : gatt_msg) : Z :=
  if m_method m =? ATT_FIND_BY_TYPE_VALUE_RSP then 4 * m_num m
  else if m_method m =? ATT_FIND_INFO_RSP then (if m_format m =? 1 then 4 else 18) * m_num m
  else if m_method m =? ATT_READ_BY_TYPE_RSP then m_len m * m_num m
  else m_len m.
Definition msg_ok (m : gatt_msg) : Prop :=
  0 <= m_num m /\ 0 <= m_len m /\ match m_data m with Some l => msg_room m <= zlen l | None => True end.

Definition good s : Prop := exists c, inv s c /\ settled c.
Lemma emit_good e s c c1 :
  conforms Closed (log s) = Some c -> advance c (Emitted e) = Some c1 -> rel (g s) c1 -> gatt_ok (g s) ->
  settled c1 -> good (emit e s).
Proof. intros Hc Ha Hr Ho Hs. destruct (emit_spec e s c c1 Hc Ha Hr Ho) as (c' & Hi & Hst & _). exists c'. auto. Qed.
Lemma gatt_ok_bump x op : gatt_ok x -> gatt_ok (bump x <| cur_op := op |>).
Proof. intros (? & ? & ?). split; [done|]. split; [done|]. apply u32_range. Qed.
Lemma bearer_failed_good st s c : conforms Closed (log s) = Some c -> c <> Closed -> gatt_ok (g s) ->
  good (bearer_failed st s).
Proof.
  intros Hc Hn Ho. unfold bearer_failed. apply (emit_good _ _ c Closed); [done| |done|by apply gatt_ok_bump|done].
  by destruct c.
Qed.
Lemma emit_done_good s c : conforms Closed (log s) = Some c -> advance c (Emitted PROC_DONE) = Some Idle ->
  gatt_ok (g s) -> good (emit_done s).
Proof. intros Hc Ha Ho. apply (emit_good _ _ c Idle); [done|done|by left|by apply gatt_ok_bump|done]. Qed.
Lemma emit_error_good st s op off : conforms Closed (log s) = Some (Busy op off) -> gatt_ok (g s) -> good (emit_error st s).
Proof.
  intros Hc Ho. apply (emit_good _ _ (Busy op off) Idle); [done|by destruct op|by left|by apply gatt_ok_bump|done].
Qed.
(** The last event of a procedure, delivered with the procedure cleared. *)
Lemma final_good e s op off : conforms Closed (log s) = Some (Busy op off) -> advance (Busy op off) (Emitted e) = Some Idle ->
  gatt_ok (g s) -> good (emit e (on_g (fun x => x <| cur_op := GOP_NONE |>) s)).
Proof. intros Hc Ha Ho. apply (emit_good _ _ (Busy op off) Idle); [done|done|by left|done|done]. Qed.
(** A result followed by [PROC_DONE], unless the adapter moved on. *)
Lemma result_good e s op off : conforms Closed (log s) = Some (Busy op off) -> advance (Busy op off) (Emitted e) = Some Trailing ->
  gatt_ok (g s) ->
  let s' := emit e (on_g (fun x => x <| cur_op := GOP_NONE |>) s) in
  good (if generation (g s') =? generation (g s) then emit_done s' else s').
Proof.
  intros Hc Ha Ho. set (s0 := on_g (fun x => x <| cur_op := GOP_NONE |>) s).
  destruct (emit_spec e s0 (Busy op off) Trailing Hc Ha ltac:(by right) Ho) as (c' & Hi & _ & Heq & Hne). cbv zeta.
  change (generation (g s)) with (generation (g s0)). destruct (Z.eqb_spec (generation (g (emit e s0))) (generation (g s0))) as [E|E].
  - destruct (Heq E) as [-> _]. destruct Hi as (Hc1 & _ & Ho1). by apply (emit_done_good _ Trailing).
  - exists c'. auto.
Qed.
Lemma emit_batch_good item op off : forall n i s,
  inv s (Busy op off) -> cur_op (g s) = op ->
  (forall j, i <= j < i + Z.of_nat n -> advance (Busy op off) (Emitted (item j)) = Some (Busy op off)) ->
  let '(go, s') := emit_batch item (generation (g s)) i n s in
  if go then inv s' (Busy op off) /\ cur_op (g s') = op else good s'.
Proof.
  intros n. induction n as [|n IH]; intros i s H Hop Hit; cbn [emit_batch]; [done|].
  destruct H as (Hc & Hr & Ho).
  destruct (emit_spec (item i) s (Busy op off) (Busy op off) Hc (Hit i ltac:(lia)) Hr Ho) as (c' & Hi & Hst & Heq & Hne).
  destruct (Z.eqb_spec (generation (g (emit (item i) s))) (generation (g s))) as [E|E]; cbn [negb].
  - destruct (Heq E) as [-> Hg']. rewrite <- E. apply IH; [done|congruence|]. intros j Hj. apply Hit. lia.
  - exists c'. auto.
Qed.
Lemma finish_good m rsp s op off : inv s (Busy op off) -> advance (Busy op off) (Emitted PROC_DONE) = Some Idle ->
  good (finish_discovery m rsp s).
Proof.
  intros H Ha. pose proof H as (Hc & Hr & Ho). unfold finish_discovery.
  repeat split_if; first [by apply (emit_done_good _ (Busy op off)) | by apply (emit_error_good _ _ op off) | by exists (Busy op off)].
Qed.

Lemma read_rsp_ok op next off v (complete : bool) :
  op = GOP_READ_VALUE \/ op = GOP_READ_LONG /\ off = next -> zlen v <= 246 -> off + zlen v <= UINT16_MAX ->
  advance (Busy op next) (Emitted (READ_RSP off v complete)) =
  Some (if bool_decide (op = GOP_READ_VALUE) || complete then Idle else Busy op (off + zlen v)).
Proof.
  intros Hc Hv Ho. unfold advance, evt_ok. replace ((zlen v <=? 246) && (off + zlen v <=? UINT16_MAX)) with true by lia.
  destruct Hc as [->|[-> ->]]; [done|]. cbn. rewrite Z.eqb_refl. by destruct complete.
Qed.

Section message.
Variable m : gatt_msg.
Hypothesis Hm : msg_ok m.

Lemma bytes_room : null (m_data m) = false -> msg_room m <= zlen (bytes m).
Proof. destruct Hm as (_ & _ & H). unfold bytes. by destruct (m_data m). Qed.
(** A value of the message, as long as it says or empty. *)
Lemma value_length n : m_method m <> ATT_FIND_BY_TYPE_VALUE_RSP -> m_method m <> ATT_FIND_INFO_RSP ->
  m_method m <> ATT_READ_BY_TYPE_RSP -> m_len m = n -> negb (n =? 0) && null (m_data m) = false ->
  zlen (slice (bytes m) 0 n) = n.
Proof.
  intros N1 N2 N3 <- Hd. destruct Hm as (_ & Hl & _). destruct (Z.eq_dec (m_len m) 0) as [E|E].
  { rewrite E. by rewrite slice_nil_n. }
  assert (null (m_data m) = false) as Hn by (destruct (null (m_data m)); [lia|done]).
  pose proof (bytes_room Hn) as Hr. unfold msg_room in Hr.
  rewrite !(proj2 (Z.eqb_neq _ _)) in Hr by done. apply zlen_slice; lia.
Qed.
Lemma on_mtu_good s off : inv s (Busy GOP_EXCHANGE_MTU off) -> good (on_mtu m s).
Proof.
  intros (Hc & Hr & Ho). pose proof mtu_limit as Hlim. unfold on_mtu. destruct (_ =? ATT_EXCHANGE_MTU_RSP).
  2:{ split_if; [by apply (emit_error_good _ _ GOP_EXCHANGE_MTU off)|by exists (Busy GOP_EXCHANGE_MTU off)]. }
  set (mtu := if RBP_ATT_MTU <? m_serverRxMTU m then RBP_ATT_MTU else m_serverRxMTU m).
  assert (mtu <= 247) as Hle by (unfold mtu; split_if; lia). clearbody mtu.
  set (s1 := on_g (fun x => x <| neg_mtu := mtu |>) s).
  assert (gatt_ok (g s1)) as Ho1 by (destruct Ho as (_ & ? & ?); done).
  destruct (mtu <? 23) eqn:E23; [by apply (bearer_failed_good _ _ (Busy GOP_EXCHANGE_MTU off))|].
  apply (result_good (MTU_UPDATED mtu) s1 GOP_EXCHANGE_MTU off); [done| |done].
  cbn. by replace ((23 <=? mtu) && (mtu <=? 247)) with true by lia.
Qed.
Lemma on_service_good s off : inv s (Busy GOP_DISC_SVC off) -> good (on_service m s).
Proof.
  intros H. pose proof H as (Hc & Hr & Ho). unfold on_service.
  assert (forall s1, inv s1 (Busy GOP_DISC_SVC off) -> good
    (if (m_method m =? ATT_FIND_BY_TYPE_VALUE_RSP) && is_complete m then emit_done s1
     else if m_method m =? ATT_ERROR_RSP then
       if negb (m_errCode m =? ATT_ERR_ATTR_NOT_FOUND) then emit_error (m_errCode m) s1
       else if found_service (g s1) then emit_done s1
       else emit SERVICE_NOT_FOUND (on_g (fun x => x <| cur_op := GOP_NONE |>) s1)
     else s1)) as Hend.
  { intros s1 H1. pose proof H1 as (Hc1 & Hr1 & Ho1).
    repeat split_if; first [by apply (emit_done_good _ (Busy GOP_DISC_SVC off)) | by apply (emit_error_good _ _ GOP_DISC_SVC off)
      | by apply (final_good _ _ GOP_DISC_SVC off) | by exists (Busy GOP_DISC_SVC off)]. }
  destruct (_ && negb (found_service (g s))).
  - set (s1 := on_g (fun x => x <| found_service := true |>) s).
    destruct (emit_spec (SERVICE_FOUND (w16 (bytes m) 0) (w16 (bytes m) 2)) s1 (Busy GOP_DISC_SVC off) (Busy GOP_DISC_SVC off)
      Hc eq_refl Hr Ho) as (c' & Hi & Hst & Heq & Hne).
    change (generation (g s)) with (generation (g s1)).
    destruct (Z.eqb_spec (generation (g (emit (SERVICE_FOUND (w16 (bytes m) 0) (w16 (bytes m) 2)) s1))) (generation (g s1)))
      as [E|E]; cbn [negb]; [|by exists c'; auto]. destruct (Heq E) as [-> _]. by apply Hend.
  - rewrite Z.eqb_refl. cbn [negb]. by apply Hend.
Qed.
Lemma on_chars_good s off : inv s (Busy GOP_READ_CHARS off) -> cur_op (g s) = GOP_READ_CHARS -> good (on_chars m s).
Proof.
  intros H Hop. pose proof H as (Hc & Hr & Ho). unfold on_chars.
  destruct (_ && (0 <? m_num m)) eqn:Em; [|by apply (finish_good _ _ _ GOP_READ_CHARS off)].
  destruct (_ || (_ <? m_num m)) eqn:Eb; [by apply (bearer_failed_good _ _ (Busy GOP_READ_CHARS off))|].
  rewrite !orb_false_iff in Eb. destruct Eb as [[Hlen Hnull] Hcnt].
  assert (m_len m = 7 \/ m_len m = 21) as Hl by lia.
  pose proof (bytes_room Hnull) as Hroom. unfold msg_room in Hroom.
  replace (m_method m) with ATT_READ_BY_TYPE_RSP in Hroom by lia. cbn in Hroom.
  pose proof (emit_batch_good (char_item m) GOP_READ_CHARS off (Z.to_nat (m_num m)) 0 s H Hop) as Hb.
  destruct (emit_batch _ _ 0 _ s) as [go s'].
  assert (if go then inv s' (Busy GOP_READ_CHARS off) /\ cur_op (g s') = GOP_READ_CHARS else good s') as Hb'.
  { apply Hb. intros j Hj. unfold char_item. 
    assert (zlen (slice (bytes m) (j * m_len m) (m_len m)) = m_len m) as Hz by (apply zlen_slice; nia).
    assert (zlen (slice (slice (bytes m) (j * m_len m) (m_len m)) 2 (m_len m - 2)) = m_len m - 2) as Hz2
      by (apply zlen_slice; lia).
    cbn -[zlen slice w16]. rewrite Hz2. by destruct Hl as [-> | ->]. }
  destruct go; [|done]. apply (finish_good _ _ _ GOP_READ_CHARS off); [apply Hb'|done].
Qed.
Lemma on_descs_good s off : inv s (Busy GOP_DISC_DESCS off) -> cur_op (g s) = GOP_DISC_DESCS -> good (on_descs m s).
Proof.
  intros H Hop. unfold on_descs. destruct (_ && (m_format m =? 1)).
  - pose proof (emit_batch_good (desc_item m) GOP_DISC_DESCS off (Z.to_nat (m_num m)) 0 s H Hop ltac:(done)) as Hb.
    destruct (emit_batch _ _ 0 _ s) as [go s']. destruct go; [|done].
    apply (finish_good _ _ _ GOP_DISC_DESCS off); [apply Hb|done].
  - by apply (finish_good _ _ _ GOP_DISC_DESCS off).
Qed.
Lemma on_value_good s off : inv s (Busy GOP_READ_VALUE off) -> bad_size m (g s) = false -> good (on_value m s).
Proof.
  intros H Hbad. pose proof H as (Hc & Hr & Ho). unfold on_value. destruct (m_method m =? ATT_READ_RSP) eqn:Em.
  2:{ split_if; [by apply (emit_error_good _ _ GOP_READ_VALUE off)|by exists (Busy GOP_READ_VALUE off)]. }
  apply Z.eqb_eq in Em. unfold bad_size in Hbad. rewrite Em in Hbad. cbn in Hbad. rewrite orb_false_r in Hbad.
  apply orb_false_iff in Hbad as [Hl Hd]. apply (final_good _ _ GOP_READ_VALUE off); [done| |done].
  pose proof (value_length (m_len m)) as Hz. rewrite Em in Hz. specialize (Hz ltac:(done) ltac:(done) ltac:(done) eq_refl Hd).
  destruct Ho as (Ho & _). apply (read_rsp_ok GOP_READ_VALUE); [by left|rewrite Hz; unfold UINT16_MAX; lia..].
Qed.
Lemma on_long_good s off : inv s (Busy GOP_READ_LONG off) -> bad_size m (g s) = false ->
  cur_op (g s) = GOP_READ_LONG -> good (on_long m s).
Proof.
  intros H Hbad Hop. pose proof H as (Hc & Hr & Ho). unfold rel in Hr. rewrite Hop in Hr. injection Hr as Eoff.
  unfold on_long. rewrite <- Eoff. pose proof Ho as (Hn & Hu & Hg).
  destruct (m_method m =? ATT_READ_BLOB_RSP) eqn:Em.
  2:{ split_if; [|by exists (Busy GOP_READ_LONG off)]. split_if; [|by apply (emit_error_good _ _ GOP_READ_LONG off)].
      apply (final_good _ _ GOP_READ_LONG off); [done| |done].
      apply (read_rsp_ok GOP_READ_LONG off off [] true); [by right|done|]. unfold zlen, UINT16_MAX, U16 in *. cbn. lia. }
  apply Z.eqb_eq in Em. unfold bad_size in Hbad. rewrite Em in Hbad. cbn in Hbad.
  rewrite !orb_false_iff in Hbad. destruct Hbad as [[Hl Hd] Hoff].
  pose proof (value_length (m_len m)) as Hz. rewrite Em in Hz. specialize (Hz ltac:(done) ltac:(done) ltac:(done) eq_refl Hd).
  destruct Hm as (_ & Hlen & _). unfold UINT16_MAX in Hoff. rewrite u16_small by (unfold U16 in *; lia).
  set (s1 := on_g _ s). assert (gatt_ok (g s1)) as Ho1 by (split; [done|]; split; [unfold U16 in *; cbn; lia|done]).
  pose proof (read_rsp_ok GOP_READ_LONG off off (slice (bytes m) 0 (m_len m)) (is_complete m) ltac:(by right)
    ltac:(lia) ltac:(unfold UINT16_MAX; lia)) as Ha.
  destruct (is_complete m); [by apply (final_good _ s1 GOP_READ_LONG off)|].
  cbn [orb bool_decide decide_rel] in Ha. rewrite Hz in Ha.
  apply (emit_good _ s1 (Busy GOP_READ_LONG off) (Busy GOP_READ_LONG (off + m_len m))); [done|exact Ha| |done|done].
  unfold rel, s1. cbn. by rewrite Hop.
Qed.
Lemma on_write_good s off : inv s (Busy GOP_WRITE off) -> good (on_write m s).
Proof.
  intros (Hc & Hr & Ho). unfold on_write. destruct (_ =? ATT_WRITE_RSP).
  - by apply (result_good WRITE_DONE s GOP_WRITE off).
  - split_if; [by apply (emit_error_good _ _ GOP_WRITE off)|by exists (Busy GOP_WRITE off)].
Qed.
Lemma on_notify_good s c : inv s c -> settled c -> c <> Closed ->
  m_method m = ATT_HANDLE_VALUE_NOTI \/ m_method m = ATT_HANDLE_VALUE_IND -> good (on_notify m s).
Proof.
  intros (Hc & Hr & Ho) Hs Hn Hmeth. unfold on_notify. destruct (negb (m_status m =? SUCCESS)); [by apply (bearer_failed_good _ _ c)|].
  destruct (_ || _) eqn:Eb; [by apply (bearer_failed_good _ _ c)|]. apply orb_false_iff in Eb as [El Ed].
  assert (zlen (slice (bytes m) 0 (m_len m)) = m_len m) as Hz
    by (apply value_length; [destruct Hmeth as [-> | ->]; done..|done|done]).
  set (s1 := if m_method m =? ATT_HANDLE_VALUE_IND then _ else s).
  assert (log s1 = log s /\ g s1 = g s) as [E1 E2].
  { unfold s1. destruct (_ =? ATT_HANDLE_VALUE_IND); [|done]. unfold call.
    destruct (sdk _ _ _) as [st w]. by destruct (negb (st =? SUCCESS)). }
  clearbody s1. apply (emit_good _ s1 c c); rewrite ?E1, ?E2; try done.
  destruct Ho as (Ho & _). unfold advance, evt_ok. rewrite Hz. replace (m_len m <=? 244) with true by lia. by destruct c.
Qed.
Lemma on_procedure_good s op off : inv s (Busy op off) -> cur_op (g s) = op -> good (on_procedure m s).
Proof.
  intros H Hop. pose proof H as (Hc & Hr & Ho). unfold on_procedure. rewrite Hop.
  destruct (bad_shape m op); [by apply (bearer_failed_good _ _ (Busy op off))|].
  destruct (bad_size m (g s)) eqn:Eb; [by apply (bearer_failed_good _ _ (Busy op off))|].
  destruct op; first [by apply (on_mtu_good s off) | by apply (on_service_good s off) | by apply (on_chars_good s off)
    | by apply (on_descs_good s off) | by apply (on_value_good s off) | by apply (on_long_good s off)
    | by apply (on_write_good s off) | by eexists].
Qed.
Lemma rel_open x c : rel x c -> cur_op x <> GOP_FAILED -> c <> Closed.
Proof. unfold rel. destruct (cur_op x); try done; intros H; try (by rewrite H); by destruct H as [-> | ->]. Qed.
Lemma on_msg_good s : good s -> good (wch_gatt_on_msg m s).
Proof.
  intros (c & H & Hset). unfold wch_gatt_on_msg.
  set (s1 := if negb _ && negb _ then on_world _ s else s).
  assert (inv s1 c) as H1 by (unfold s1; by split_if). clearbody s1.
  destruct (_ || bool_decide (cur_op (g s1) = GOP_FAILED)) eqn:Eg; [by exists c|].
  rewrite !orb_false_iff, bool_decide_eq_false in Eg. destruct Eg as [_ Hf].
  set (s2 := if _ && negb (m_errCode m =? _) then on_world _ s1 else s1).
  assert (inv s2 c /\ cur_op (g s2) = cur_op (g s1)) as [H2 Hop] by (unfold s2; by split_if). clearbody s2.
  pose proof H2 as (Hc & Hr & Ho). assert (c <> Closed) as Hopen by (eapply rel_open; [exact Hr|congruence]).
  destruct (_ && stray_error m (g s2)); [by apply (bearer_failed_good _ _ c)|].
  destruct (m_status m =? bleTimeout); [by apply (bearer_failed_good _ _ c)|].
  destruct ((m_method m =? ATT_HANDLE_VALUE_NOTI) || _) eqn:En; [apply (on_notify_good s2 c); try done; lia|].
  destruct (m_method m =? ATT_MTU_UPDATED_EVENT); [by exists c|].
  destruct (m_method m =? ATT_FLOW_CTRL_VIOLATED_EVENT); [by apply (bearer_failed_good _ _ c)|].
  case_bool_decide as Ei; [by exists c|].
  assert (c = Busy (cur_op (g s2)) (read_offset (g s2))) as Ec
    by (unfold rel in Hr; rewrite Hop in *; destruct (cur_op (g s1)); done).
  apply (on_procedure_good s2 (cur_op (g s2)) (read_offset (g s2))); [by rewrite <- Ec|done].
Qed.
End message.

Lemma set_conn_good h s : good s -> good (wch_gatt_set_conn h s).
Proof.
  intros (c & (Hc & _ & _ & Hu & _) & _). exists (if h =? GAP_CONNHANDLE_INIT then Closed else Idle).
  split; [|by split_if]. split; [cbn; by rewrite conforms_snoc, Hc|]. split.
  - unfold rel. cbn. split_if; [done|by left].
  - split; [done|]. split; [done|]. apply u32_range.
Qed.
Lemma moved_good k s c s' c' : 0 <= k -> moved k s c s' c' -> settled c -> good s'.
Proof.
  intros Hk (Hi & _ & H0 & Hp) Hs. exists c'. split; [done|]. destruct (Z.eq_dec k 0); [|apply Hp; lia].
  by destruct H0 as [-> _].
Qed.

(** A run: links come and go, the library delivers messages, and the adapter
    uses the client also outside its callbacks. *)
Inductive gatt_run : gst W -> Prop :=
| run_reset w : gatt_run (Gst gatt_reset w [])
| run_conn h s : gatt_run s -> gatt_run (wch_gatt_set_conn h s)
| run_quiesce s : gatt_run s -> gatt_run (wch_gatt_quiesce s)
| run_world f s : gatt_run s -> gatt_run (on_world f s)
| run_client o s : op_ok o -> gatt_run s -> gatt_run (snd (run_op o s))
| run_msg m s : msg_ok m -> gatt_run s -> gatt_run (wch_gatt_on_msg m s).
Lemma run_good s : gatt_run s -> good s.
Proof.
  induction 1 as [w|h s _ IH|s _ (c & Hi & Hs)|f s _ IH|o s Ho _ (c & Hi & Hs)|m s Hm _ IH].
  - exists Closed. by split.
  - by apply set_conn_good.
  - by apply (moved_good 1 s c _ Closed), Hs; [|apply quiesce_moved].
  - exact IH.
  - destruct (run_op_moved o s c Ho Hi) as (k & c' & Hk & Hm). apply (moved_good k s c _ c'); [lia|done|done].
  - by apply on_msg_good.
Qed.
End props.

(** A library that accepts everything and an adapter that reads a value after
    each completed procedure. *)
Definition easy_sdk : Sdk unit := {|
  sdk := fun _ _ w => (SUCCESS, w); bm_alloc := fun _ w => (true, w); bm_free := fun w => w;
  fault_record := fun _ _ _ _ w => w; RBP_ATT_MTU := 23 |}.
Definition eager_adapter : Adapter unit := fun e s =>
  match e with PROC_DONE => snd (op_read_value (P := easy_sdk) 5 s) | _ => s end.
Lemma eager_ok : AdapterOk unit easy_sdk eager_adapter.
Proof.
  split; [|done]. intros e s. destruct e; try (exists 0%nat; split; [lia|apply calls_nil]).
  exists 1%nat. split; [lia|]. apply (calls_op _ (OpRead 5)); [done|]. apply calls_nil.
Qed.
Definition demo_msg (method status : Z) (data : list Z) : gatt_msg :=
  GattMsg 1 method status 0 0 0 100 0 0 (zlen data) 7 (Some data).
Definition demo_gatt : gst unit :=
  let P := easy_sdk in
  let A := eager_adapter in
  let s := wch_gatt_set_conn 1 (Gst gatt_reset tt []) in
  let s := snd (run_op (OpMtu 23) s) in
  let s := wch_gatt_on_msg (demo_msg ATT_EXCHANGE_MTU_RSP SUCCESS []) s in
  let s := wch_gatt_on_msg (demo_msg ATT_HANDLE_VALUE_NOTI SUCCESS [9; 9]) s in
  wch_gatt_on_msg (demo_msg ATT_READ_RSP SUCCESS [4; 2]) s.
