(* ===== verification/Trace.v ===== *)
(** * The diagnostic trace

    debug/trace.c: a queue of the first 16 records not yet taken, with counters.
    [lock] and [unlock] make each operation atomic with respect to the
    interrupts; [dt_peek] copies after its critical section, which its only
    consumer and append-only producers make equal to copying inside it. *)
From S2P Require Import Prelude Ring.

Definition CAP : Z := 16.
Definition DT_RAW : Z := 4.
Record dt_record := DtRecord {
  r_seq : Z; r_ms : Z; r_module : Z; r_level : Z; r_code : Z; r_a : Z; r_b : Z; r_c : Z; r_d : Z }.
Record trace := Trace {
  t_records : list dt_record; t_sequence : Z; t_dropped : Z; t_highwater : Z; t_clock_ms : Z; t_modules : Z;
  t_head : Z; t_count : Z; t_level_limit : Z }.
#[export] Instance eta_trace : Eta trace := fun t =>
  Trace (t_records t) (t_sequence t) (t_dropped t) (t_highwater t) (t_clock_ms t) (t_modules t) (t_head t)
    (t_count t) (t_level_limit t).
Definition no_record : dt_record := DtRecord 0 0 0 0 0 0 0 0 0.
Definition trace_reset : trace := Trace (replicate 16 no_record) 0 0 0 0 255 0 0 3.

Definition dt_time (ms : Z) (t : trace) : trace := t <| t_clock_ms := ms |>.
Definition dt_config (mask level : Z) (t : trace) : trace := t <| t_modules := mask |> <| t_level_limit := level |>.
Definition filtered (module level : Z) (t : trace) : bool :=
  (7 <? module) || (Z.land (t_modules t) (Z.shiftl 1 module) =? 0) || (t_level_limit t <? level).
Definition dt_log (module level code a b c d : Z) (t : trace) : trace :=
  if filtered module level t then t
  else
    let seq := u32 (t_sequence t + 1) in
    let t := t <| t_sequence := seq |> in
    if t_count t =? CAP then t <| t_dropped ::= fun n => u32 (n + 1) |>
    else
      let r := DtRecord seq (t_clock_ms t) module level code a b c d in
      let t := t <| t_records ::= <[Z.to_nat ((t_head t + t_count t) mod CAP) := r]> |>
                 <| t_count ::= fun n => u8 (n + 1) |> in
      if t_highwater t <? t_count t then t <| t_highwater := t_count t |> else t.
(** The little-endian words of a 12-byte chunk that was zeroed. *)
Definition word (l : list Z) (o : Z) : Z := unle (slice (splice (replicate 12 0) 0 l) o 4).
(** One round per 12 bytes; [offset] is 16 bits wide, so that the loop ends for
    lengths up to 65532 (the attribute values it is called with are far shorter);
    5462 rounds are enough for these. *)
Fixpoint dt_blob_loop (fuel : nat) (module code : Z) (data : list Z) (len offset : Z) (t : trace) : option trace :=
  match fuel with
  | O => None
  | S fuel =>
    if offset <? len then
      let n := Z.min (len - offset) 12 in
      let chunk := slice data offset n in
      dt_blob_loop fuel module code data len (u16 (offset + 12))
        (dt_log module DT_RAW code (Z.lor (Z.shiftl len 16) offset) (word chunk 0) (word chunk 4) (word chunk 8) t)
    else Some t
  end.
Definition dt_blob (module code : Z) (data : list Z) (len : Z) (t : trace) : option trace :=
  if (7 <? module) || (Z.land (t_modules t) (Z.shiftl 1 module) =? 0) || (t_level_limit t <? DT_RAW) then Some t
  else dt_blob_loop (Z.to_nat 5462) module code data len 0 t.
Definition dt_peek (cap : Z) (t : trace) : list dt_record :=
  let n := if t_count t <? cap then t_count t else cap in
  map (fun i => nth (Z.to_nat ((t_head t + Z.of_nat i) mod CAP)) (t_records t) no_record) (List.seq 0 (Z.to_nat n)).
Definition dt_consume (n : Z) (t : trace) : trace :=
  let n := if t_count t <? n then t_count t else n in
  t <| t_head := (t_head t + n) mod CAP |> <| t_count ::= fun c => c - n |>.
Definition dt_stats (t : trace) : Z * Z * Z := (t_sequence t, t_dropped t, t_highwater t).

(** ** The trace as a bounded queue *)
Record tqueue := TQueue { q_items : list dt_record; q_seq : Z; q_dropped : Z; q_clock : Z; q_modules : Z; q_limit : Z }.
Inductive trace_op :=
| Log (module level code a b c d : Z)
| Blob (module code : Z) (data : list Z)
| Config (mask level : Z)
| Tick (ms : Z)
| Consume (n : Z).
Definition q_log (module level code a b c d : Z) (q : tqueue) : tqueue :=
  if (module <=? 7) && Z.testbit (q_modules q) module && (level <=? q_limit q) then
    let seq := u32 (q_seq q + 1) in
    if (length (q_items q) <? 16)%nat
    then TQueue (q_items q ++ [DtRecord seq (q_clock q) module level code a b c d]) seq (q_dropped q) (q_clock q)
           (q_modules q) (q_limit q)
    else TQueue (q_items q) seq (u32 (q_dropped q + 1)) (q_clock q) (q_modules q) (q_limit q)
  else q.
(** The 12-byte pieces of a blob. *)
Definition q_blob (module code : Z) (data : list Z) (q : tqueue) : tqueue :=
  fold_left (fun q k =>
    let piece := slice data (12 * Z.of_nat k) 12 in
    q_log module DT_RAW code (Z.lor (Z.shiftl (zlen data) 16) (12 * Z.of_nat k)) (word piece 0) (word piece 4)
      (word piece 8) q) (List.seq 0 (Z.to_nat ((zlen data + 11) / 12))) q.
Definition q_step (o : trace_op) (q : tqueue) : tqueue :=
  match o with
  | Log m l c x y z w => q_log m l c x y z w q
  | Blob m c data => q_blob m c data q
  | Config mask level => TQueue (q_items q) (q_seq q) (q_dropped q) (q_clock q) mask level
  | Tick ms => TQueue (q_items q) (q_seq q) (q_dropped q) ms (q_modules q) (q_limit q)
  | Consume n => TQueue (drop (Z.to_nat n) (q_items q)) (q_seq q) (q_dropped q) (q_clock q) (q_modules q) (q_limit q)
  end.
Definition t_step (o : trace_op) (t : trace) : option trace :=
  match o with
  | Log m l c x y z w => Some (dt_log m l c x y z w t)
  | Blob m c data => dt_blob m c data (zlen data) t
  | Config mask level => Some (dt_config mask level t)
  | Tick ms => Some (dt_time ms t)
  | Consume n => Some (dt_consume n t)
  end.
Fixpoint t_run (os : list trace_op) (t : trace) : option trace :=
  match os with [] => Some t | o :: os => match t_step o t with Some t => t_run os t | None => None end end.
(** The operands are what their C types allow; a blob is an attribute value. *)
Definition op_wf (o : trace_op) : Prop :=
  match o with
  | Log m _ _ _ _ _ _ => 0 <= m
  | Blob m _ data => 0 <= m /\ zlen data <= 65532
  | Consume n => 0 <= n
  | _ => True
  end.
Definition refines (t : trace) (q : tqueue) : Prop :=
  ring_wf CAP (t_records t) (t_head t) (t_count t) /\ rview (t_records t) (t_head t) (t_count t) = q_items q /\
  t_sequence t = q_seq q /\ t_dropped t = q_dropped q /\ t_clock_ms t = q_clock q /\ t_modules t = q_modules q /\
  t_level_limit t = q_limit q.
Lemma refines_length t q : refines t q -> Z.of_nat (length (q_items q)) = t_count t.
Proof. intros (Hw & Hv & _). rewrite <- Hv. exact (zlen_rview _ _ _ _ Hw). Qed.

Lemma filtered_spec module level t q : 0 <= module -> refines t q ->
  filtered module level t = negb ((module <=? 7) && Z.testbit (q_modules q) module && (level <=? q_limit q)).
Proof.
  intros Hm (_ & _ & _ & _ & _ & H1 & H2). unfold filtered. rewrite H1, H2.
  assert ((Z.land (q_modules q) (Z.shiftl 1 module) =? 0) = negb (Z.testbit (q_modules q) module)) as ->.
  { rewrite Z.shiftl_1_l. destruct (Z.testbit (q_modules q) module) eqn:Et; cbn [negb].
    - apply Z.eqb_neq. intros H. apply (f_equal (fun z => Z.testbit z module)) in H.
      rewrite Z.land_spec, Et, Z.pow2_bits_true, Z.bits_0 in H by lia. done.
    - apply Z.eqb_eq. apply Z.bits_inj'. intros n Hn. rewrite Z.land_spec, Z.bits_0.
      destruct (Z.eq_dec n module) as [->|Hne]; [by rewrite Et|]. rewrite Z.pow2_bits_false by lia. apply andb_false_r. }
  rewrite !negb_andb. f_equal; [f_equal|]; lia.
Qed.
Lemma log_refines m l c x y z w t q : 0 <= m -> refines t q -> refines (dt_log m l c x y z w t) (q_log m l c x y z w q).
Proof.
  intros Hm H. pose proof (refines_length t q H) as Hl. unfold dt_log, q_log. rewrite (filtered_spec m l t q Hm H).
  destruct (_ && (l <=? q_limit q)); cbn [negb]; [|done]. destruct H as (Hw & Hv & Hs & Hd & Hc & Hmo & Hli).
  pose proof Hw as (Hr & Hh & Hn). cbn [t_count upd]. unfold upd. cbn [t_count].
  destruct (Nat.ltb_spec (length (q_items q)) 16) as [Hlt|Hge].
  - unfold CAP in *. replace (t_count t =? 16) with false by lia.
    set (r := DtRecord _ _ _ _ _ _ _ _ _). 
    assert (u8 (t_count t + 1) = t_count t + 1) as Hu by (apply u8_small; unfold Byte; lia).
    destruct (ring_push 16 (t_records t) (t_head t) (t_count t) r Hw ltac:(lia)) as [P1 P2].
    assert (r = DtRecord (u32 (q_seq q + 1)) (q_clock q) m l c x y z w) as Er by (unfold r; cbn; by rewrite Hs, Hc).
    split_if; unfold refines; cbn; rewrite Hu; (split; [exact P1|]); rewrite P2, Hv, Er, Hs; done.
  - unfold CAP in *. replace (t_count t =? 16) with true by lia. unfold refines. cbn. rewrite Hs, Hd. done.
Qed.

Lemma blob_loop_refines m c data : 0 <= m -> zlen data <= 65532 -> forall n k t q, refines t q ->
  Z.of_nat n = (zlen data + 11) / 12 - Z.of_nat k -> forall fuel, (n < fuel)%nat ->
  exists t', dt_blob_loop fuel m c data (zlen data) (12 * Z.of_nat k) t = Some t' /\
    refines t' (fold_left (fun q k =>
      let piece := slice data (12 * Z.of_nat k) 12 in
      q_log m DT_RAW c (Z.lor (Z.shiftl (zlen data) 16) (12 * Z.of_nat k)) (word piece 0) (word piece 4)
        (word piece 8) q) (List.seq k n) q).
Proof.
  intros Hm Hlen n. induction n as [|n IH]; intros k t q H Hn fuel Hf; (destruct fuel as [|fuel]; [lia|]);
    cbn [dt_blob_loop List.seq fold_left].
  - replace (12 * Z.of_nat k <? zlen data) with false by (Z.div_mod_to_equations; lia). by exists t.
  - replace (12 * Z.of_nat k <? zlen data) with true by (Z.div_mod_to_equations; lia).
    rewrite u16_small by (unfold U16; Z.div_mod_to_equations; lia).
    replace (12 * Z.of_nat k + 12) with (12 * Z.of_nat (S k)) by lia.
    assert (slice data (12 * Z.of_nat k) (Z.min (zlen data - 12 * Z.of_nat k) 12) = slice data (12 * Z.of_nat k) 12) as ->.
    { unfold slice. destruct (Z.le_gt_cases 12 (zlen data - 12 * Z.of_nat k)); [f_equal; lia|].
      rewrite !take_ge; [done|rewrite length_drop; unfold zlen in *; lia..]. }
    apply IH; [by apply log_refines|lia|lia].
Qed.
Lemma q_log_filtered m l c x y z w q :
  (m <=? 7) && Z.testbit (q_modules q) m && (l <=? q_limit q) = false -> q_log m l c x y z w q = q.
Proof. unfold q_log. by intros ->. Qed.
Lemma q_blob_filtered m c data q :
  (m <=? 7) && Z.testbit (q_modules q) m && (DT_RAW <=? q_limit q) = false -> q_blob m c data q = q.
Proof.
  intros Hf. unfold q_blob. generalize (List.seq 0 (Z.to_nat ((zlen data + 11) / 12))). intros l.
  induction l as [|k l IH]; [done|]. cbn [fold_left]. cbv zeta. by rewrite q_log_filtered.
Qed.
Lemma blob_refines m c data t q : 0 <= m -> zlen data <= 65532 -> refines t q ->
  exists t', dt_blob m c data (zlen data) t = Some t' /\ refines t' (q_blob m c data q).
Proof.
  intros Hm Hlen H. unfold dt_blob. fold (filtered m DT_RAW t). rewrite (filtered_spec m DT_RAW t q Hm H).
  destruct (_ && (DT_RAW <=? q_limit q)) eqn:Ef; cbn [negb].
  - pose proof (zlen_nonneg data).
    destruct (blob_loop_refines m c data Hm Hlen (Z.to_nat ((zlen data + 11) / 12)) 0 t q H) with (fuel := Z.to_nat 5462)
      as (t' & E & R); [Z.div_mod_to_equations; lia..|]. by exists t'.
  - exists t. by rewrite q_blob_filtered.
Qed.
Lemma consume_refines n t q : 0 <= n -> refines t q -> refines (dt_consume n t)
  (TQueue (drop (Z.to_nat n) (q_items q)) (q_seq q) (q_dropped q) (q_clock q) (q_modules q) (q_limit q)).
Proof.
  intros Hn H. pose proof (refines_length t q H) as Hl. destruct H as (Hw & Hv & Hrest). unfold dt_consume.
  set (k := if t_count t <? n then t_count t else n). assert (k = Z.min n (t_count t)) as Hk by (unfold k; split_if; lia).
  pose proof Hw as (_ & _ & Hc). destruct (rview_advance CAP _ _ _ k Hw ltac:(lia)) as [A1 A2].
  split; [exact A1|]. split; [|exact Hrest]. cbn. rewrite A2, Hv. rewrite Hk.
  destruct (Z.le_gt_cases n (t_count t)); [by rewrite Z.min_l by lia|].
  rewrite Z.min_r by lia. rewrite !drop_ge; [done|lia..].
Qed.
Lemma step_refines o t q : op_wf o -> refines t q -> exists t', t_step o t = Some t' /\ refines t' (q_step o q).
Proof.
  intros Ho H. destruct o; cbn [t_step q_step op_wf] in *.
  - eexists. split; [done|]. by apply log_refines.
  - destruct Ho. by apply blob_refines.
  - eexists. split; [done|]. destruct H as (? & ? & ? & ? & ? & ? & ?). done.
  - eexists. split; [done|]. destruct H as (? & ? & ? & ? & ? & ? & ?). done.
  - eexists. split; [done|]. by apply consume_refines.
Qed.
Lemma run_refines os : Forall op_wf os -> forall t q, refines t q ->
  exists t', t_run os t = Some t' /\ refines t' (fold_left (fun q o => q_step o q) os q).
Proof.
  induction 1 as [|o os Ho _ IH]; intros t q H; [by exists t|]. cbn [t_run fold_left].
  destruct (step_refines o t q Ho H) as (t1 & -> & H1). by apply IH.
Qed.
Lemma peek_refines cap t q : 0 <= cap -> refines t q -> dt_peek cap t = take (Z.to_nat cap) (q_items q).
Proof.
  intros Hc H. pose proof (refines_length t q H) as Hl. destruct H as (Hw & Hv & _). unfold dt_peek.
  set (n := if t_count t <? cap then t_count t else cap). assert (n = Z.min cap (t_count t)) as Hn by (unfold n; split_if; lia).
  pose proof Hw as (Hr & Hh & Hcnt). assert (ring_wf CAP (t_records t) (t_head t) n) as Hwn by (split; [done|lia]).
  rewrite (rview_map CAP _ _ n _ Hwn), (rview_take CAP _ _ (t_count t)), Hv by (done || lia). rewrite Hn.
  destruct (Z.le_gt_cases cap (t_count t)); [by rewrite Z.min_l by lia|].
  rewrite Z.min_r by lia. rewrite !take_ge; [done|lia..].
Qed.

(** The trace is a bounded queue: after any sequence of records, blobs,
    filter changes, clock updates and consumptions, which all return, reading
    gives the oldest records not consumed, in order and whole, of which there
    are at most 16; and the counters say how many were admitted and how many of
    these the full queue dropped. *)
Theorem trace_queue os cap : Forall op_wf os -> 0 <= cap ->
  let q := fold_left (fun q o => q_step o q) os (TQueue [] 0 0 0 255 3) in
  exists t, t_run os trace_reset = Some t /\ dt_peek cap t = take (Z.to_nat cap) (q_items q) /\
    (length (q_items q) <= 16)%nat /\ fst (dt_stats t) = (q_seq q, q_dropped q).
Proof.
  intros Ho Hc q. destruct (run_refines os Ho trace_reset (TQueue [] 0 0 0 255 3)) as (t & E & H); [done|].
  exists t. split; [done|]. split; [by apply peek_refines|]. pose proof (refines_length t _ H) as Hl.
  destruct H as ((_ & _ & Hn) & _ & Hs & Hd & _). unfold CAP in Hn. fold q in Hs, Hd, Hl |- *. split; [lia|].
  unfold dt_stats. cbn. by rewrite Hs, Hd.
Qed.
Lemma trace_queue_witness :
  exists t, t_run [Config 255 4; Log 1 2 3 4 5 6 7; Blob 2 8 [1; 2; 3]; Consume 1] trace_reset = Some t /\
    dt_peek 4 t = [DtRecord 2 0 2 4 8 196608 197121 0 0].
Proof.
  destruct (trace_queue [Config 255 4; Log 1 2 3 4 5 6 7; Blob 2 8 [1; 2; 3]; Consume 1] 4) as (t & E & P & _).
  - repeat (apply List.Forall_cons; [first [exact I|cbn; unfold zlen; cbn; lia]|]). constructor.
  - lia.
  - exists t. split; [exact E|]. rewrite P. vm_compute. reflexivity.
Defined.
