(* ===== verification/Ico.v ===== *)
(** * The ICO voice frames

    client/c/ico/ico_decoder.c: the obfuscation layer around the ITU-T G.722.1
    decoder and the WAV writer.  The reference decoder ([decoder] and
    [rmlt_coefs_to_samples], fetched at build time) is the class [G7221].  A
    [Word16] is a [Z] in [[-32768, 32768)].  The command-line program that
    reads the capture log is in [IcoMain]. *)
From Stdlib Require Import String.
From S2P Require Import Prelude.
#[local] Open Scope string_scope.
#[local] Open Scope list_scope.
#[local] Open Scope Z_scope.

Definition s16 (z : Z) : Z := let r := u16 z in if r <? 32768 then r else r - 65536.
Definition ICO_FRAME_BYTES : Z := 40.
Definition ICO_PERM : list Z := [0; 1; 18; 8; 9; 5; 2; 17; 11; 16; 10; 3; 12; 7; 14; 15; 4; 13; 6; 19].

Record IcoState := MkIco {
  old_coefs : list Z; old_mag_shift : Z; old_samples : list Z; seeds : Z * Z * Z * Z }.
Definition ico_reset : IcoState := MkIco (replicate 280 0) 0 (replicate 160 0) (1, 1, 1, 1).

(** [decoder]: the 20 words, 320 bits and 14 regions, to the coefficients and
    their shift; it updates the seeds, the old shift and the old coefficients.
    [rmlt_coefs_to_samples]: to 320 samples; it updates the old samples. *)
Class G7221 := {
  decoder : list Z -> Z -> Z -> (Z * Z * Z * Z) -> Z -> list Z -> list Z * Z * ((Z * Z * Z * Z) * Z * list Z);
  rmlt_coefs_to_samples : list Z -> list Z -> Z -> Z -> list Z * list Z }.

Definition ico_word (frame : list Z) (k : Z) : Z :=
  let v := s16 (Z.lor (znth frame (k * 2)) (Z.shiftl (znth frame (k * 2 + 1)) 8)) in
  s16 (Z.lxor v 0x0416).
Definition ico_words (frame : list Z) : list Z := map (ico_word frame) ICO_PERM.
Definition clear_low (x : Z) : Z := s16 (Z.land x (Z.lnot 3)).
Definition ico_decode_frame `{G7221} (st : IcoState) (frame : list Z) : list Z * IcoState :=
  let '(coefs, mag_shift, (rand, old_shift, old)) :=
    decoder (ico_words frame) (ICO_FRAME_BYTES * 8) 14 (seeds st) (old_mag_shift st) (old_coefs st) in
  let '(pcm, samples) := rmlt_coefs_to_samples coefs (old_samples st) 320 mag_shift in
  (map clear_low (slice pcm 0 320) ++ drop 320 pcm, MkIco old old_shift samples rand).

(** The bytes [write_wav] puts in the file (little-endian host). *)
Definition wav_file (samples : list Z) : list Z :=
  let data_bytes := u32 (zlen samples * 2) in
  cstr "RIFF" ++ le 4 (u32 (36 + data_bytes)) ++ cstr "WAVE" ++ cstr "fmt " ++ le 4 16 ++ le 2 1 ++ le 2 1 ++
  le 4 16000 ++ le 4 (16000 * 2) ++ le 2 2 ++ le 2 16 ++ cstr "data" ++ le 4 data_bytes ++
  concat (map (fun x => le 2 (u16 x)) samples).

(** ** The obfuscation can be undone

    The words of a frame, put back in their places. *)
Definition ico_scramble (words : list Z) : list Z :=
  fold_left (fun f kw => splice f (fst kw * 2) (le 2 (u16 (Z.lxor (snd kw) 0x0416)))) (combine ICO_PERM words)
    (replicate 40 0).
Lemma u16_lxor a b : u16 (Z.lxor a b) = Z.lxor (u16 a) (u16 b).
Proof.
  unfold u16. change 65536 with (2 ^ 16). rewrite <- !Z.land_ones by lia. apply Z.bits_inj'. intros n Hn.
  rewrite !Z.lxor_spec, !Z.land_spec, Z.lxor_spec. by destruct (Z.testbit a n), (Z.testbit b n), (Z.testbit (Z.ones 16) n).
Qed.
Lemma u16_s16 z : u16 (s16 z) = u16 z.
Proof. unfold s16. cbv zeta. split_if; words. Qed.
Lemma ico_word_bytes frame k : Bytes frame ->
  le 2 (u16 (Z.lxor (ico_word frame k) 0x0416)) = [znth frame (k * 2); znth frame (k * 2 + 1)].
Proof.
  intros Hb. assert (Byte (znth frame (k * 2))) as H0 by auto with rbp.
  assert (Byte (znth frame (k * 2 + 1))) as H1 by auto with rbp. unfold ico_word.
  rewrite u16_lxor, u16_s16, u16_lxor, u16_s16, Z.lxor_assoc, Z.lxor_nilpotent, Z.lxor_0_r.
  rewrite lor_shiftl_add by (first [lia|done]). cbn [le]. rewrite shiftr8_div. repeat f_equal; words.
Qed.
Lemma ico_frame_words frame : Bytes frame -> length frame = 40%nat -> ico_scramble (ico_words frame) = frame.
Proof.
  intros Hb Hl. unfold ico_scramble, ico_words. cbn [map combine ICO_PERM fold_left fst snd].
  rewrite !ico_word_bytes by done. do 40 (destruct frame as [|? frame]; [done|]). by destruct frame.
Qed.

(** ** The samples *)
Definition Word16 (x : Z) : Prop := -32768 <= x < 32768.
#[export] Instance Word16_dec x : Decision (Word16 x).
Proof. unfold Word16. apply _. Defined.
Lemma clear_low_spec x : Word16 x -> clear_low x = 4 * (x / 4).
Proof.
  intros Hx. unfold clear_low. change (Z.lnot 3) with (Z.lnot (Z.ones 2)). rewrite <- Z.ldiff_land, Z.ldiff_ones_r by lia.
  rewrite Z.shiftr_div_pow2, Z.shiftl_mul_pow2 by lia. change (2 ^ 2) with 4. unfold s16, Word16 in *. cbv zeta.
  split_if; words.
Qed.

(** A voice frame loses nothing to the obfuscation layer and little to the
    end of the decoder: the 20 words given to the G.722.1 decoder determine the
    40 bytes of the frame, and each sample returned is the decoder's, rounded
    down to a multiple of 4. *)
Theorem ico_frame_exact `{G7221} st frame : Bytes frame -> length frame = 40%nat ->
  let '(coefs, shift, _) := decoder (ico_words frame) 320 14 (seeds st) (old_mag_shift st) (old_coefs st) in
  let pcm := fst (rmlt_coefs_to_samples coefs (old_samples st) 320 shift) in
  length pcm = 320%nat -> Forall Word16 pcm ->
  ico_scramble (ico_words frame) = frame /\
  fst (ico_decode_frame st frame) = map (fun x => 4 * (x / 4)) pcm.
Proof.
  intros Hb Hl. pose proof (ico_frame_words frame Hb Hl) as Hw. unfold ico_decode_frame.
  change (ICO_FRAME_BYTES * 8) with 320.
  destruct (decoder _ 320 14 _ _ _) as [[coefs shift] [[rand osh] old]].
  destruct (rmlt_coefs_to_samples _ _ _ _) as [pcm samples]. cbn [fst]. intros Hn Hp. split; [done|].
  rewrite slice_0_all, drop_ge, app_nil_r by (unfold zlen; lia).
  apply map_ext_in. intros x Hx. apply clear_low_spec. rewrite list.Forall_forall in Hp. apply Hp. by apply list_elem_of_In.
Qed.
(** A decoder whose samples are the words, repeated. *)
Definition echo_decoder : G7221 := {|
  decoder := fun words _ _ rand shift old => (words, 0, (rand, shift, old));
  rmlt_coefs_to_samples := fun coefs old _ _ => (concat (replicate 16 coefs), old) |}.
Lemma ico_frame_exact_witness :
  fst (ico_decode_frame (H := echo_decoder) ico_reset (replicate 40 9)) =
  map (fun x => 4 * (x / 4)) (concat (replicate 16 (ico_words (replicate 40 9)))).
Proof.
  apply (ico_frame_exact (H := echo_decoder) ico_reset (replicate 40 9)).
  - by apply (bool_decide_unpack _); vm_compute.
  - reflexivity.
  - reflexivity.
  - by apply (bool_decide_unpack _); vm_compute.
Defined.

(** The sizes in a WAV file are those of the file and of its samples. *)
Theorem wav_sizes samples : zlen samples * 2 + 36 <= UINT32_MAX ->
  let f := wav_file samples in
  unle (slice f 4 4) = zlen f - 8 /\ unle (slice f 40 4) = zlen samples * 2 /\ zlen f = 44 + zlen samples * 2.
Proof.
  intros Hn. pose proof (zlen_nonneg samples). unfold wav_file. rewrite (u32_small (zlen samples * 2)) by words.
  rewrite u32_small by words. set (d := concat (map (fun x => le 2 (u16 x)) samples)).
  assert (zlen d = zlen samples * 2) as Hd.
  { unfold d. clear. induction samples as [|x l IH]; [done|]. cbn [map concat]. rewrite zlen_app, IH.
    unfold zlen. cbn [length le]. lia. }
  assert (forall v : Z, U32 v -> unle (le 4 v) = v) as Hr by (intros v Hv; apply (unle_le 4 v); cbn; apply Hv).
  cbv zeta. split_and!.
  - change (slice _ 4 4) with (le 4 (36 + zlen samples * 2)). rewrite Hr by words.
    repeat rewrite zlen_app. rewrite Hd. unfold zlen. cbn. lia.
  - change (slice _ 40 4) with (le 4 (zlen samples * 2)). apply Hr. words.
  - repeat rewrite zlen_app. rewrite Hd. unfold zlen. cbn. lia.
Qed.
