(* ===== verification/AdapterState.v ===== *)
(** * The adapter: state and its surroundings

    firmware/adapters/rc003/rc003_adapter.h and the parts of rc003_adapter.c
    every other part uses: the state of the discovery, the calls to the GATT
    client and to the server, and the wiring of the voice engine of [Atvv].

    The GATT client and the server are the class [Host].  An operation of the
    client only submits.  A call to the server may make the server stop the
    microphone, and it may make the central drop the link, which detaches the
    adapter; these requests are carried out when the call returns ([serve]),
    which differs from the source only in that the server's own last steps come
    first.  [acts] is what crossed the two interfaces, with [Unlinked]
    where the adapter was reset, and [evs] the log of the voice engine; both are
    for the theorems.  Fault records and trace only
    observe and are left out. *)
From Stdlib Require Import String.
From S2P Require Import Prelude Defs Crc32c Cobs Frame DeviceModel ServerState ServerLink Server Hogp Ima Gatt Atvv.
#[local] Open Scope string_scope.
#[local] Open Scope list_scope.
#[local] Open Scope Z_scope.

(** ** Data *)
Inductive state_t :=
| ST_IDLE | ST_MTU | ST_FIND_GATT_SVC | ST_FIND_CHANGED_CHAR | ST_DISC_CHANGED_DESC | ST_SUB_CHANGED
| ST_FIND_HID_SVC | ST_FIND_MAP_CHAR | ST_READ_MAP | ST_ENUM_REPORT_CHARS | ST_DISC_DESCS | ST_READ_REPORT_REF
| ST_SUBSCRIBE_REPORT | ST_FIND_BAT_SVC | ST_FIND_BAT_CHAR | ST_DISC_BAT_DESCS | ST_READ_BATTERY
| ST_SUBSCRIBE_BATTERY | ST_FIND_ATVV_SVC | ST_FIND_ATVV_TX | ST_FIND_ATVV_CTL | ST_FIND_ATVV_AUDIO
| ST_DISC_CTL_DESC | ST_DISC_AUDIO_DESC | ST_SUBSCRIBE_CTL | ST_SUBSCRIBE_AUDIO | ST_ATVV_PREHANDSHAKE | ST_DONE
| ST_FAILED | ST_FIND_PROTOCOL_MODE | ST_SET_PROTOCOL_MODE | ST_READ_MAP_CONT | ST_READ_PROTOCOL_MODE
| ST_VERIFY_PROTOCOL_MODE | ST_FIND_HID_INFO | ST_READ_HID_INFO | ST_UNICOM_SERVICE | ST_UNICOM_CHAR
| ST_UNICOM_DESC | ST_UNICOM_SUB | ST_UNICOM_WAIT.
#[export] Instance state_eq_dec : EqDecision state_t.
Proof. solve_decision. Defined.
Definition all_states : list state_t :=
  [ST_IDLE; ST_MTU; ST_FIND_GATT_SVC; ST_FIND_CHANGED_CHAR; ST_DISC_CHANGED_DESC; ST_SUB_CHANGED;
   ST_FIND_HID_SVC; ST_FIND_MAP_CHAR; ST_READ_MAP; ST_ENUM_REPORT_CHARS; ST_DISC_DESCS; ST_READ_REPORT_REF;
   ST_SUBSCRIBE_REPORT; ST_FIND_BAT_SVC; ST_FIND_BAT_CHAR; ST_DISC_BAT_DESCS; ST_READ_BATTERY;
   ST_SUBSCRIBE_BATTERY; ST_FIND_ATVV_SVC; ST_FIND_ATVV_TX; ST_FIND_ATVV_CTL; ST_FIND_ATVV_AUDIO;
   ST_DISC_CTL_DESC; ST_DISC_AUDIO_DESC; ST_SUBSCRIBE_CTL; ST_SUBSCRIBE_AUDIO; ST_ATVV_PREHANDSHAKE; ST_DONE;
   ST_FAILED; ST_FIND_PROTOCOL_MODE; ST_SET_PROTOCOL_MODE; ST_READ_MAP_CONT; ST_READ_PROTOCOL_MODE;
   ST_VERIFY_PROTOCOL_MODE; ST_FIND_HID_INFO; ST_READ_HID_INFO; ST_UNICOM_SERVICE; ST_UNICOM_CHAR;
   ST_UNICOM_DESC; ST_UNICOM_SUB; ST_UNICOM_WAIT].
(** The value of the enumeration constant. *)
Fixpoint index_of (x : state_t) (l : list state_t) (i : Z) : Z :=
  match l with [] => i | y :: l => if bool_decide (x = y) then i else index_of x l (i + 1) end.
Definition state_code (x : state_t) : Z := index_of x all_states 0.

Definition INIT_TIMEOUT_MS : Z := 2000.
Definition ATT_RESPONSE_TIMEOUT_MS : Z := 30000.
Definition INIT_TOTAL_TIMEOUT_MS : Z := 60000.
Definition RC003_MAX_REPORT_CHARS : Z := 8.

(** [rc003_report_char_t] *)
Record report_char_t := ReportChar {
  c_value_handle : Z; c_cccd_handle : Z; c_ref_handle : Z; c_report_id : Z; c_report_type : Z;
  c_properties : Z; c_usage_page : Z; c_subscribed : bool }.
#[export] Instance eta_report_char_t : Eta report_char_t := fun a =>
  ReportChar (c_value_handle a) (c_cccd_handle a) (c_ref_handle a) (c_report_id a) (c_report_type a)
    (c_properties a) (c_usage_page a) (c_subscribed a).
Definition report_char0 : report_char_t := ReportChar 0 0 0 0 0 0 0 false.
(** The [unicom] part of the adapter. *)
Record unicom_t := Unicom {
  u_selected : bool; u_hello : bool; u_active : bool; u_started : bool; u_closing : bool;
  u_previous_valid : bool; u_down : bool; u_pending_voice : bool; u_announced : bool; u_part : Z;
  u_command : Z; u_in_flight : Z; u_fb : Z; u_fc : Z; u_f8 : Z; u_fd : Z; u_fd_cccd : Z; u_sequence : Z;
  u_previous : Z; u_command_deadline : Z; u_refresh_ms : Z; u_last_audio_ms : Z; u_close_ms : Z;
  u_body : list Z; u_preroll : list Z; u_pre_head : Z; u_pre_count : Z; u_capture_session : Z;
  u_capture_ms : Z }.
#[export] Instance eta_unicom_t : Eta unicom_t := fun a =>
  Unicom (u_selected a) (u_hello a) (u_active a) (u_started a) (u_closing a) (u_previous_valid a) (u_down a)
    (u_pending_voice a) (u_announced a) (u_part a) (u_command a) (u_in_flight a) (u_fb a) (u_fc a) (u_f8 a)
    (u_fd a) (u_fd_cccd a) (u_sequence a) (u_previous a) (u_command_deadline a) (u_refresh_ms a)
    (u_last_audio_ms a) (u_close_ms a) (u_body a) (u_preroll a) (u_pre_head a) (u_pre_count a)
    (u_capture_session a) (u_capture_ms a).
Definition unicom0 : unicom_t :=
  Unicom false false false false false false false false false 0 0 0 0 0 0 0
    0 0 0 0 0 0 0 (replicate 48 0) (replicate 320 0) 0 0 0 0.
(** [rc003_adapter_t]; the pointers to the client and the server are in [Host].
    [chars] and [keys_by_report] have [RC003_MAX_REPORT_CHARS] elements. *)
Record adapter_t := Adapter {
  a_state : state_t; a_retry : bool; a_deadline_ms : Z; a_init_deadline_ms : Z; a_svc_start : Z;
  a_svc_end : Z; a_protocol_mode_handle : Z; a_hid_info_handle : Z; a_hid_flags : Z; a_hid_info_valid : bool;
  a_map_value_handle : Z; a_map_len : Z; a_map_buf : list Z; a_map : hogp_report_map_t;
  a_chars : list report_char_t; a_char_count : Z; a_cur_char : Z; a_bat_value_handle : Z;
  a_bat_cccd_handle : Z; a_atvv_tx_handle : Z; a_atvv_ctl_handle : Z; a_atvv_ctl_cccd : Z;
  a_atvv_audio_handle : Z; a_atvv_audio_cccd : Z; a_atvv_present : bool; a_ready : bool;
  a_voice_ready : bool; a_boot_layout : bool; a_keys_by_report : list Z; a_map_long_started : bool;
  a_desc_boundary : bool; a_voice_down_seen : bool; a_voice_key_verified : bool;
  a_service_changed_handle : Z; a_service_changed_cccd : Z; a_pressed_bits : Z; a_unicom : unicom_t;
  a_atvv : rc003_atvv_t; a_now_ms : Z; a_failed_stage : state_t; a_last_att_error : Z; a_cache_peer_id : Z;
  a_cache_safe : bool; a_cache_valid : bool; a_restoring : bool; a_pending_search : bool;
  a_caps_requested : bool }.
#[export] Instance eta_adapter_t : Eta adapter_t := fun a =>
  Adapter (a_state a) (a_retry a) (a_deadline_ms a) (a_init_deadline_ms a) (a_svc_start a) (a_svc_end a)
    (a_protocol_mode_handle a) (a_hid_info_handle a) (a_hid_flags a) (a_hid_info_valid a)
    (a_map_value_handle a) (a_map_len a) (a_map_buf a) (a_map a) (a_chars a) (a_char_count a) (a_cur_char a)
    (a_bat_value_handle a) (a_bat_cccd_handle a) (a_atvv_tx_handle a) (a_atvv_ctl_handle a)
    (a_atvv_ctl_cccd a) (a_atvv_audio_handle a) (a_atvv_audio_cccd a) (a_atvv_present a) (a_ready a)
    (a_voice_ready a) (a_boot_layout a) (a_keys_by_report a) (a_map_long_started a) (a_desc_boundary a)
    (a_voice_down_seen a) (a_voice_key_verified a) (a_service_changed_handle a) (a_service_changed_cccd a)
    (a_pressed_bits a) (a_unicom a) (a_atvv a) (a_now_ms a) (a_failed_stage a) (a_last_att_error a)
    (a_cache_peer_id a) (a_cache_safe a) (a_cache_valid a) (a_restoring a) (a_pending_search a)
    (a_caps_requested a).
(** The structure after [memset]. *)
Definition adapter0 : adapter_t :=
  Adapter ST_IDLE false 0 0 0 0 0 0 0 false 0 0 (replicate 512 0)
    (ReportMap [] [] false) (replicate 8 report_char0) 0 0 0 0 0 0 0 0 0 false false false false
    (replicate 8 0) false false false false 0 0 0 unicom0 rc003_atvv_init 0 ST_IDLE 0 0 false false false
    false false.

(** ** The surroundings *)
Inductive gatt_op :=
| Exchange_mtu (mtu : Z)
| Disc_service_by_uuid16 (uuid : Z)
| Disc_service_by_uuid128 (uuid : list Z)
| Read_chars_by_uuid16 (start end_ uuid : Z)
| Read_chars_by_uuid128 (start end_ : Z) (uuid : list Z)
| Disc_char_descs (start end_ : Z)
| Read_value (handle : Z)
| Read_long_value (handle offset : Z)
| Write_value (handle : Z) (val : list Z)
| Write_command (handle : Z) (val : list Z).
(** What the server may ask for during a call. *)
Inductive host_request := Mic_stop | Detach.
(** [served] is a call of the server with the requests it makes.  [ATT_MTU] is
    RBP_ATT_MTU; [null_empty]: the client gives a NULL pointer for an empty
    notification; [SIMULATOR]: the build with RBP_SIMULATOR. *)
Class Host (W : Type) := {
  gatt_client : gatt_op -> W -> Z * W;
  voice_wanted : W -> bool;
  voice_capture_session : W -> Z;
  set_voice_caps : rbp_audio_caps_t -> W -> W;
  served : api -> W -> list host_request * W;
  ATT_MTU : Z;
  null_empty : bool;
  SIMULATOR : bool }.

Inductive act := Served (c : api) | Submitted_op (o : gatt_op) (rc : Z) | Unlinked.
Record adst (W : Type) := AdSt { ad : adapter_t; wd : W; evs : list sink_event; acts : list act }.
Arguments AdSt {W} _ _ _ _.
Arguments ad {W} _.
Arguments wd {W} _.
Arguments evs {W} _.
Arguments acts {W} _.
#[export] Instance eta_adst W : Eta (adst W) := fun s => AdSt (ad s) (wd s) (evs s) (acts s).

(** [uint16_t] from two bytes. *)
Definition h16 (lo hi : Z) : Z := Z.lor lo (Z.shiftl hi 8).

Section surroundings.
Context {W : Type} `{H : Host W}.
Implicit Types s : adst W.

Definition on_ad (f : adapter_t -> adapter_t) s : adst W := s <| ad := f (ad s) |>.
Definition on_u (f : unicom_t -> unicom_t) : adst W -> adst W := on_ad (fun a => a <| a_unicom := f (a_unicom a) |>).
Definition gop (o : gatt_op) s : Z * adst W :=
  let '(rc, w) := gatt_client o (wd s) in (rc, s <| wd := w |> <| acts := acts s ++ [Submitted_op o rc] |>).

(** *** The voice engine inside of the adapter *)
Definition view s : engine (adst W) := Engine (a_atvv (ad s)) s (evs s).
Definition unview (x : engine (adst W)) : adst W :=
  on_ad (fun a => a <| a_atvv := eng x |>) (outside x) <| evs := events x |>.
Definition atvv_write_tx (cmd : list Z) s : bool * adst W :=
  if a_atvv_tx_handle (ad s) =? 0 then (false, s)
  else let '(rc, s) := gop (Write_command (a_atvv_tx_handle (ad s)) cmd) s in (rc =? 0, s).
Definition atvv_want_voice s : bool * adst W := (voice_wanted (wd s), s).
#[export] Instance adapter_tx : Tx (adst W) := { write_tx := atvv_write_tx; want_voice := Some atvv_want_voice }.
Definition with_engine (f : engine (adst W) -> bool * engine (adst W)) s : bool * adst W :=
  let '(r, x) := f (view s) in (r, unview x).
Definition atvv_stop : adst W -> adst W := fun s => snd (with_engine rc003_atvv_request_stop s).
Definition atvv_start : adst W -> adst W := fun s => snd (with_engine rc003_atvv_request_start s).

(** *** What the server asks for *)
Definition rc003_caps : rbp_audio_caps_t := AudioCaps [Codec RBP_CODEC_IMA_HI 1] ATVV_MAX_FRAME 1.
Definition tell_caps (caps : rbp_audio_caps_t) s : adst W :=
  s <| wd := set_voice_caps caps (wd s) |> <| acts := acts s ++ [Served (AVoiceCaps (Some caps))] |>.
Definition rc003_adapter_init s : adst W :=
  tell_caps rc003_caps (s <| ad := adapter0 |> <| evs := evs s ++ [Detached] |> <| acts := acts s ++ [Unlinked] |>).
Definition unicom_stop : adst W -> adst W := fun s =>
  let u := a_unicom (ad s) in
  if negb (u_active u) || u_closing u then s
  else
    on_u (fun u =>
      (if negb (u_announced u) then u <| u_pre_head := 0 |> <| u_pre_count := 0 |> else u)
        <| u_closing := true |> <| u_close_ms := a_now_ms (ad s) |> <| u_command := 2 |>) s.
Definition rc003_adapter_mic_stop s : bool * adst W :=
  let a := ad s in
  if u_selected (a_unicom a) then (u_active (a_unicom a), unicom_stop s)
  else if negb (a_ready a) || (a_atvv_tx_handle a =? 0) ||
          (negb (stream_active (a_atvv a)) && negb (open_pending (a_atvv a))) then (false, s)
  else with_engine rc003_atvv_request_stop s.
(** What a cached attribute database keeps. *)
Definition keep_cache (a : adapter_t) : adapter_t :=
  let u := a_unicom a in
  let a := a <| a_atvv := rc003_atvv_init <| profile_init_without_sync := a_boot_layout a |> |>
    <| a_state := ST_IDLE |> <| a_retry := false |> <| a_ready := false |> <| a_voice_ready := false |>
    <| a_restoring := false |> <| a_pending_search := false |> <| a_caps_requested := false |>
    <| a_voice_down_seen := false |> <| a_pressed_bits := 0 |> <| a_keys_by_report := replicate 8 0 |> in
  if u_selected u
  then a <| a_unicom := unicom0 <| u_selected := true |> <| u_fb := u_fb u |> <| u_fc := u_fc u |>
                          <| u_f8 := u_f8 u |> <| u_fd := u_fd u |> <| u_fd_cccd := u_fd_cccd u |> |>
  else a.
Definition rc003_adapter_detach s : adst W :=
  if a_cache_valid (ad s) then on_ad keep_cache s <| evs := evs s ++ [Detached] |> <| acts := acts s ++ [Unlinked] |>
  else rc003_adapter_init s.
Definition carry_out s (r : host_request) : adst W :=
  match r with Mic_stop => snd (rc003_adapter_mic_stop s) | Detach => rc003_adapter_detach s end.
Definition serve (c : api) s : adst W :=
  let '(rs, w) := served c (wd s) in
  fold_left carry_out rs (s <| wd := w |> <| acts := acts s ++ [Served c] |>).

(** *** Failures *)
Definition hex (n : Z) : Z := znth (cstr "0123456789ABCDEF") n.
Fixpoint strchr (l : list Z) (c : Z) : Z :=
  match l with [] => 0 | x :: l => if x =? c then 0 else 1 + strchr l c end.
Fixpoint strstr (l sub : list Z) : bool :=
  bool_decide (take (List.length sub) l = sub) || match l with [] => false | _ :: l => strstr l sub end.
Definition put_hex (msg : list Z) (field value width : Z) : list Z :=
  splice msg (strchr msg field + 2)
    (map (fun i => hex (Z.land (Z.shiftr value (4 * (width - 1 - Z.of_nat i))) 15)) (List.seq 0 (Z.to_nat width))).
Definition init_message (a : adapter_t) (timed_out : bool) : list Z :=
  let m := cstr "init failed: S=00 E=00 M=0000 N=00 I=00 T=0" in
  let m := put_hex m 83 (state_code (a_state a)) 2 in
  let m := put_hex m 69 (a_last_att_error a) 2 in
  let m := put_hex m 77 (a_map_len a) 4 in
  let m := put_hex m 78 (a_char_count a) 2 in
  let m := put_hex m 73 (u8 (a_cur_char a)) 2 in
  if timed_out then splice m (zlen m - 1) [49] else m.
Definition runtime_message (a : adapter_t) (cause : list Z) : list Z :=
  cstr "runtime E=" ++ [hex (Z.shiftr (a_last_att_error a) 4); hex (Z.land (a_last_att_error a) 15)] ++ cstr ": " ++
  take 33 cause.
Definition fail_init (cause : list Z) (invalidate_cache : bool) s : adst W :=
  let a := ad s in
  let message := init_message a (strstr cause (cstr "timeout")) in
  let a := (if invalidate_cache then a <| a_cache_valid := false |> <| a_cache_safe := false |> else a)
             <| a_pending_search := false |> <| a_failed_stage := a_state a |> <| a_state := ST_FAILED |> in
  serve (AAdapterFailed (if bool_decide (a_failed_stage a = ST_DONE) then runtime_message a cause else message))
    (s <| ad := a |>).
Definition fail_initialization (cause : string) : adst W -> adst W := fail_init (cstr cause) true.
Definition fail_transport (cause : string) : adst W -> adst W := fail_init (cstr cause) false.

(** *** The callbacks of the voice engine *)
Definition audio_format (f : host_format_t) : rbp_audio_format_t :=
  AudioFormat (hf_codec_id f) (hf_sample_rate f) (hf_max_unit_bytes f) (hf_codec_revision f) (hf_config_len f)
    (hf_channels f) (hf_config f).
Definition on_voice (ev : rbp_voice_evt_t) s : adst W := serve (AVoice ev (a_now_ms (ad s))) s.
Definition atvv_callback (e : sink_event) s : adst W :=
  match e with
  | On_source_begin => on_voice RBP_VOICE_EVT_SOURCE_BEGIN s
  | On_started f => on_voice (RBP_VOICE_EVT_START (audio_format f)) s
  | On_encoded d => on_voice (RBP_VOICE_EVT_ENCODED (Some d) (zlen d) (zlen d) 0 (u32 (zlen d * 2))) s
  | On_format f => on_voice (RBP_VOICE_EVT_FORMAT (audio_format f)) s
  | On_ended reason => on_voice (RBP_VOICE_EVT_END reason) s
  | On_fault reason =>
    if (reason =? RBP_END_DEVICE_ERROR) && negb (stream_active (a_atvv (ad s)))
    then fail_transport "microphone command timeout" s
    else on_voice (RBP_VOICE_EVT_FAULT reason) s
  | Write_tx _ _ | Detached => s
  end.
#[export] Instance adapter_sink : Sink (adst W) := {
  has_source_begin := true;
  has_fault := true;
  react e x := view (atvv_callback e (unview x)) }.

(** *** Keys *)
Definition keys_report (bits now : Z) : rbp_keys_report_t := KeysReport 0 RBP_KEYS_KIND_PHYSICAL 0 bits (u64 (now * 1000)).
Definition key_state_send (bits : Z) s : adst W := serve (AKeys (keys_report bits (a_now_ms (ad s)))) s.
Definition set_pressed (bits : Z) s : adst W :=
  if bits =? a_pressed_bits (ad s) then s
  else key_state_send bits (on_ad (fun a => a <| a_pressed_bits := bits |>) s).
End surroundings.
