(* ===== verification/Unicom.v ===== *)
(** * The Unicom profile of the adapter

    unicom_profile.inc and unicom_runtime.inc: the remote whose Report Map is
    [unicom_map] has its own voice channel, reports FB (commands), FC (audio in
    three parts per unit), F8 (the voice key) and the notification FD02.  Units
    that arrive before the host enabled voice wait in a ring of eight. *)
From Stdlib Require Import String.
From S2P Require Import Prelude Defs Crc32c Cobs Frame DeviceModel ServerState ServerLink Server Hogp Ima Gatt Atvv AdapterState.
#[local] Open Scope string_scope.
#[local] Open Scope list_scope.
#[local] Open Scope Z_scope.

Definition unicom_map : list Z :=
  [0x05; 0x01; 0x09; 0x06; 0xa1; 0x01; 0x85; 0x01; 0x05; 0x07; 0x19; 0xe0; 0x29; 0xe7; 0x15; 0x00; 0x25; 0x01;
   0x75; 0x01; 0x95; 0x08; 0x81; 0x02; 0x95; 0x01; 0x75; 0x08; 0x81; 0x01; 0x95; 0x05; 0x75; 0x01; 0x05; 0x08;
   0x19; 0x01; 0x29; 0x05; 0x91; 0x02; 0x95; 0x01; 0x75; 0x03; 0x91; 0x01; 0x95; 0x06; 0x75; 0x08; 0x15; 0x00;
   0x25; 0xff; 0x05; 0x07; 0x19; 0x00; 0x29; 0xff; 0x81; 0x00; 0xc0; 0x05; 0x0c; 0x09; 0x01; 0xa1; 0x01; 0x85;
   0x03; 0x19; 0x00; 0x2a; 0xff; 0x03; 0x15; 0x00; 0x26; 0xff; 0x03; 0x95; 0x01; 0x75; 0x10; 0x81; 0x00; 0xc0;
   0x05; 0x0c; 0x09; 0x01; 0xa1; 0x01; 0x85; 0x04; 0x95; 0x14; 0x75; 0x08; 0x15; 0x00; 0x25; 0xff; 0x81; 0x00;
   0xc0; 0x05; 0x0c; 0x09; 0x01; 0xa1; 0x01; 0x85; 0xfc; 0x95; 0x14; 0x75; 0x08; 0x15; 0x00; 0x26; 0xff; 0x00;
   0x81; 0x00; 0xc0; 0x05; 0x0c; 0x09; 0x01; 0xa1; 0x01; 0x85; 0xf8; 0x95; 0x14; 0x75; 0x08; 0x15; 0x00; 0x26;
   0xff; 0x00; 0x81; 0x00; 0xc0; 0x05; 0x0c; 0x09; 0x01; 0xa1; 0x01; 0x85; 0xf9; 0x95; 0x01; 0x75; 0x08; 0x15;
   0x00; 0x26; 0xff; 0x00; 0x81; 0x00; 0xc0].
(** The report, the usage and the key of each catalog slot. *)
Definition unicom_keys_map : list (Z * Z * Z) :=
  [(1, 102, RBP_KEY_POWER); (1, 127, RBP_KEY_MUTE); (3, 246, RBP_KEY_SETTINGS); (1, 82, RBP_KEY_UP);
   (1, 81, RBP_KEY_DOWN); (1, 80, RBP_KEY_LEFT); (1, 79, RBP_KEY_RIGHT); (1, 40, RBP_KEY_OK);
   (3, 547, RBP_KEY_HOME); (3, 1023, RBP_KEY_LOCAL); (1, 243, RBP_KEY_BACK); (1, 128, RBP_KEY_VOLUME_UP);
   (1, 129, RBP_KEY_VOLUME_DOWN); (3, 156, RBP_KEY_CHANNEL_UP); (3, 157, RBP_KEY_CHANNEL_DOWN);
   (1, 234, RBP_KEY_VOICE); (1, 30, RBP_KEY_DIGIT_1); (1, 31, RBP_KEY_DIGIT_2); (1, 32, RBP_KEY_DIGIT_3);
   (1, 33, RBP_KEY_DIGIT_4); (1, 34, RBP_KEY_DIGIT_5); (1, 35, RBP_KEY_DIGIT_6); (1, 36, RBP_KEY_DIGIT_7);
   (1, 37, RBP_KEY_DIGIT_8); (1, 38, RBP_KEY_DIGIT_9); (3, 771, RBP_KEY_STAR); (1, 39, RBP_KEY_DIGIT_0);
   (3, 772, RBP_KEY_HASH)].

Section unicom.
Context {W : Type} `{H : Host W}.
Implicit Types s : adst W.

Definition end_capture (u : unicom_t) : unicom_t :=
  u <| u_active := false |> <| u_started := false |> <| u_closing := false |> <| u_part := 0 |>
    <| u_previous_valid := false |> <| u_announced := false |> <| u_pre_head := 0 |> <| u_pre_count := 0 |>.
Definition unicom_end (reason : Z) s : adst W :=
  let active := u_announced (a_unicom (ad s)) in
  let s := on_u end_capture s in
  if active then on_voice (RBP_VOICE_EVT_END reason) s else s.
Definition unicom_bad (why : string) s : adst W :=
  fail_initialization why (unicom_end RBP_END_SOURCE_DATA_LOST s).
Definition unicom_stream_fault (why : string) s : adst W :=
  fail_transport why (unicom_end RBP_END_SOURCE_DATA_LOST s).

(** The eight reports, each exactly once and of the right kind; their handles
    are noted on the way.  [None]: the inner loop returned [false]. *)
Definition report_bad (id : Z) (c : report_char_t) : bool :=
  let output := (id =? 0xfb) || (id =? 0xfa) in
  negb (c_report_type c =? if output then 2 else 1) ||
  (if output then Z.land (c_properties c) 8 =? 0
   else (Z.land (c_properties c) 0x10 =? 0) || negb (c_subscribed c)).
Definition note_handle (id : Z) (c : report_char_t) (u : unicom_t) : unicom_t :=
  if id =? 0xfb then u <| u_fb := c_value_handle c |>
  else if id =? 0xfc then u <| u_fc := c_value_handle c |>
  else if id =? 0xf8 then u <| u_f8 := c_value_handle c |> else u.
Fixpoint reports_scan (id : Z) (cs : list report_char_t) (count : Z) (u : unicom_t) : option Z * unicom_t :=
  match cs with
  | [] => (Some count, u)
  | c :: cs =>
    if negb (c_report_id c =? id) then reports_scan id cs count u
    else if report_bad id c then (None, u)
    else reports_scan id cs (count + 1) (note_handle id c u)
  end.
Fixpoint reports_each (ids : list Z) (cs : list report_char_t) (u : unicom_t) : bool * unicom_t :=
  match ids with
  | [] => (true, u)
  | id :: ids =>
    match reports_scan id cs 0 u with
    | (Some count, u) => if count =? 1 then reports_each ids cs u else (false, u)
    | (None, u) => (false, u)
    end
  end.
Definition unicom_ids : list Z := [1; 3; 0xfc; 0xfb; 0xf8; 0xfa; 0xf9; 4].
Definition unicom_reports (a : adapter_t) : bool * adapter_t :=
  if negb (a_char_count a =? zlen unicom_ids) then (false, a)
  else
    let '(ok, u) := reports_each unicom_ids (slice (a_chars a) 0 (a_char_count a)) (a_unicom a) in
    (ok, a <| a_unicom := u |>).

Definition unicom_caps : rbp_audio_caps_t := AudioCaps [Codec RBP_CODEC_IFLYTEK_ICO 1] 40 1.
Definition unicom_ready s : adst W :=
  let s := on_ad (fun a =>
    let a := a <| a_state := ST_DONE |> <| a_ready := true |> <| a_voice_ready := u_hello (a_unicom a) |>
               <| a_retry := false |> in
    a <| a_cache_valid := a_cache_safe a && negb (a_cache_peer_id a =? 0) && a_voice_ready a |>
      <| a_restoring := false |>) s in
  let s := serve (ASetProfile (Some RBP_PROFILE_UNICOM)) s in
  let s := tell_caps unicom_caps s in
  let v := a_voice_ready (ad s) in
  let s := serve (AVoiceState (if v then RBP_VOICE_READY else RBP_VOICE_UNSUPPORTED)
                    (if v then RBP_VI_HTT else RBP_VI_UNAVAILABLE) (if v then 16000 else 0)) s in
  serve (ALink RBP_LINK_READY 0 (a_now_ms (ad s))) s.

Definition begin_capture (now : Z) (u : unicom_t) : unicom_t :=
  u <| u_pending_voice := false |> <| u_active := true |> <| u_started := false |> <| u_closing := false |>
    <| u_part := 0 |> <| u_previous_valid := false |> <| u_command := 1 |> <| u_last_audio_ms := now |>
    <| u_capture_ms := now |> <| u_pre_head := 0 |> <| u_pre_count := 0 |>.
Definition unicom_start_pending s : adst W :=
  let a := ad s in
  let u := a_unicom a in
  if negb (u_pending_voice u) || negb (u_down u) || negb (a_ready a) || negb (a_voice_ready a) || u_active u then s
  else
    let owner := voice_capture_session (wd s) in
    if (owner =? 0) || negb (owner =? u_capture_session u) then on_u (fun u => u <| u_pending_voice := false |>) s
    else
      let wanted := voice_wanted (wd s) in
      let s := on_u (fun u => begin_capture (a_now_ms a) u <| u_announced := wanted |>) s in
      if wanted then on_voice RBP_VOICE_EVT_SOURCE_BEGIN s else s.

Definition ico_format : rbp_audio_format_t := AudioFormat RBP_CODEC_IFLYTEK_ICO 16000 40 1 0 1 None.
Definition announce s : adst W :=
  if u_announced (a_unicom (ad s)) then s
  else on_voice RBP_VOICE_EVT_SOURCE_BEGIN (on_u (fun u => u <| u_announced := true |>) s).
Definition start_once s : adst W :=
  if u_started (a_unicom (ad s)) then s
  else on_voice (RBP_VOICE_EVT_START ico_format) (on_u (fun u => u <| u_started := true |>) s).
Definition unicom_emit (p : list Z) s : bool * adst W :=
  let u := a_unicom (ad s) in
  if negb (voice_wanted (wd s)) || negb (voice_capture_session (wd s) =? u_capture_session u) then (false, s)
  else if negb (u_announced u) && u_closing u then (false, s)
  else (true, on_voice (RBP_VOICE_EVT_ENCODED (Some (slice p 0 40)) 40 40 0 320) (start_once (announce s))).
(** [reason] only goes to the diagnostics. *)
Definition unicom_preroll_cancel (reason : Z) s : adst W :=
  unicom_stop (on_u (fun u => u <| u_pre_count := 0 |>) s).

(** ** The tick *)
Definition elapsed (now since n : Z) : bool := n <=? u32 (now - since).
(** Every branch of the block for an active capture. *)
Definition tick_fence s : adst W :=
  let u := a_unicom (ad s) in
  if negb (voice_capture_session (wd s) =? u_capture_session u) || (u_announced u && negb (voice_wanted (wd s)))
  then unicom_preroll_cancel 0 s else s.
Definition tick_announce s : adst W :=
  let u := a_unicom (ad s) in
  if negb (u_announced u) && negb (u_closing u) && voice_wanted (wd s)
  then on_voice RBP_VOICE_EVT_SOURCE_BEGIN (on_u (fun u => u <| u_announced := true |>) s) else s.
Definition tick_preroll s : adst W :=
  let u := a_unicom (ad s) in
  if negb (u_announced u) && negb (u_closing u) && elapsed (a_now_ms (ad s)) (u_capture_ms u) 250
  then unicom_preroll_cancel RBP_END_CONSUMER_DISABLED s else s.
Definition tick_drain s : adst W :=
  let u := a_unicom (ad s) in
  if u_pre_count u =? 0 then s
  else
    let '(sent, s) := unicom_emit (slice (u_preroll u) (40 * u_pre_head u) 40) s in
    if sent
    then on_u (fun u => u <| u_pre_head := (u_pre_head u + 1) mod 8 |> <| u_pre_count := u8 (u_pre_count u - 1) |>) s
    else s.
Definition tick_active s : adst W :=
  if u_active (a_unicom (ad s)) then tick_drain (tick_preroll (tick_announce (tick_fence s))) else s.
Definition send_unicom_command s : adst W :=
  let u := a_unicom (ad s) in
  let now := a_now_ms (ad s) in
  let cmd := u_command u in
  if cmd =? 0 then s
  else
    let s := on_u (fun u => u <| u_in_flight := cmd |> <| u_command := 0 |>
                              <| u_command_deadline := u32 (now + ATT_RESPONSE_TIMEOUT_MS) |>) s in
    let '(rc, s) := gop (Write_value (u_fb u) [if cmd =? 1 then 1 else 0]) s in
    if rc =? RBP_GATT_RETRY then on_u (fun u => u <| u_in_flight := 0 |> <| u_command := cmd |>) s
    else if rc <? 0 then
      unicom_stream_fault "Unicom command rejected" (on_u (fun u => u <| u_in_flight := 0 |>) s)
    else if cmd =? 1 then on_u (fun u => u <| u_refresh_ms := u32 (now + 5000) |>) s
    else s.
Definition tick_commands s : adst W :=
  let u := a_unicom (ad s) in
  let now := a_now_ms (ad s) in
  if u_closing u && negb (u_command u =? 0) && (u_in_flight u =? 0) && elapsed now (u_close_ms u) 2000
  then unicom_stream_fault "Unicom stop submission timeout" s
  else if negb (u_in_flight u =? 0) then
    if due now (u_command_deadline u) then unicom_stream_fault "Unicom command timeout" s else s
  else if u_active u && u_closing u && (u_command u =? 0) &&
          ((elapsed now (u_last_audio_ms u) 300 && elapsed now (u_close_ms u) 300) || elapsed now (u_close_ms u) 1000)
  then unicom_end (if negb (u_part u =? 0) then RBP_END_SOURCE_DATA_LOST
                   else if u_started u then RBP_END_NORMAL else RBP_END_DEVICE_ERROR) s
  else if u_active u && negb (u_closing u) && elapsed now (u_last_audio_ms u) 2000
  then unicom_stream_fault "Unicom audio timeout" s
  else
    let s := if u_active u && negb (u_closing u) && u_started u && due now (u_refresh_ms u)
             then on_u (fun u => u <| u_command := 1 |>) s else s in
    send_unicom_command s.
Definition unicom_tick s : adst W :=
  let a := ad s in
  if bool_decide (a_state a = ST_UNICOM_WAIT) then
    if u_hello (a_unicom a) || due (a_now_ms a) (a_deadline_ms a) then unicom_ready s else s
  else if negb (bool_decide (a_state a = ST_DONE)) || negb (a_voice_ready a) then s
  else tick_commands (tick_active (unicom_start_pending s)).

(** ** Keys *)
Definition map_entry (id usage : Z) (e : Z * Z * Z) : bool := (fst (fst e) =? id) && (snd (fst e) =? usage).
Definition known_usage (id usage : Z) : bool := (usage =? 0) || existsb (map_entry id usage) unicom_keys_map.
(** The usages of a report: six array slots of report 1, one word of report 3. *)
Definition report_usages (id : Z) (p : list Z) : list Z :=
  if id =? 1 then slice p 2 6 else [h16 (znth p 0) (znth p 1)].
Definition usage_bits (id : Z) (p : list Z) : Z :=
  fold_left (fun bits j =>
    let e := nth j unicom_keys_map (0, 0, 0) in
    if (fst (fst e) =? id) && existsb (Z.eqb (snd (fst e))) (report_usages id p)
    then Z.lor bits (Z.shiftl 1 (Z.of_nat j)) else bits) (List.seq 0 (List.length unicom_keys_map)) 0.
Definition all_keys (a : adapter_t) : Z :=
  fold_left Z.lor (slice (a_keys_by_report a) 0 (a_char_count a)) 0.
Definition unicom_keys (index : Z) (p : list Z) s : adst W :=
  let id := c_report_id (nth (Z.to_nat index) (a_chars (ad s)) report_char0) in
  if ((id =? 1) && (negb (zlen p =? 8) || negb (znth p 0 =? 0) || negb (znth p 1 =? 0))) ||
     ((id =? 3) && negb (zlen p =? 2))
  then unicom_bad "Unicom key layout" s
  else if negb (forallb (known_usage id) (report_usages id p)) then unicom_bad "Unicom unknown key report" s
  else
    let s := on_ad (fun a => a <| a_keys_by_report ::= <[Z.to_nat index := usage_bits id p]> |>) s in
    set_pressed (all_keys (ad s)) s.

(** ** Notifications *)
Definition unicom_hello : list Z := [0x10; 1; 0x4b; 0x2a; 3; 2; 4; 0; 2; 3].
Definition on_hello (v : list Z) s : adst W :=
  if negb (bool_decide (v = unicom_hello)) then unicom_bad "Unicom initialization mismatch" s
  else
    let first := negb (u_hello (a_unicom (ad s))) in
    let s := on_u (fun u => u <| u_hello := true |>) s in
    if first && (bool_decide (a_state (ad s) = ST_UNICOM_WAIT) || bool_decide (a_state (ad s) = ST_DONE))
    then unicom_ready s else s.
Definition on_voice_key (v : list Z) s : adst W :=
  if negb ((zlen v =? 20) && (znth v 0 =? 0x82) && (znth v 1 =? 3) && (znth v 2 <=? 1) &&
           forallb (Z.eqb 0) (slice v 3 17))
  then unicom_bad "Unicom F8 mismatch" s
  else
    let down := negb (znth v 2 =? 0) in
    let edge := down && negb (u_down (a_unicom (ad s))) in
    let s := on_u (fun u => u <| u_down := down |>) s in
    if negb down then unicom_stop (on_u (fun u => u <| u_pending_voice := false |>) s)
    else
      let s := if edge && negb (u_active (a_unicom (ad s)))
        then let owner := voice_capture_session (wd s) in
             on_u (fun u => u <| u_capture_session := owner |> <| u_pending_voice := negb (owner =? 0) |>) s
        else s in
      unicom_start_pending s.
Definition enqueue (p : list Z) (u : unicom_t) : unicom_t :=
  u <| u_preroll := splice (u_preroll u) (40 * ((u_pre_head u + u_pre_count u) mod 8)) (slice p 0 40) |>
    <| u_pre_count := u8 (u_pre_count u + 1) |>.
(** A whole unit: to the server, or to the ring behind the units that wait. *)
Definition unit_received (seq : Z) s : adst W :=
  let p := u_body (a_unicom (ad s)) in
  if negb (h16 (znth p 42) (znth p 43) =? seq) || negb (bool_decide (slice p 44 4 = slice p 28 4))
  then unicom_bad "Unicom FC trailer" s
  else
    let s := on_u (fun u => u <| u_part := 0 |> <| u_previous := seq |> <| u_previous_valid := true |>) s in
    let u := a_unicom (ad s) in
    if negb (u_announced u) && u_closing u then s
    else if negb (voice_capture_session (wd s) =? u_capture_session u) then unicom_preroll_cancel 0 s
    else
      let '(sent, s) := if u_pre_count u =? 0 then unicom_emit p s else (false, s) in
      if sent then s
      else if u_announced u && negb (voice_wanted (wd s)) then unicom_stop s
      else if u_pre_count u =? 8 then
        if u_announced u then unicom_stream_fault "Unicom buffered audio overrun" s
        else unicom_preroll_cancel RBP_END_BUFFER_OVERRUN s
      else on_u (enqueue p) s.
Definition add_part (now seq part : Z) (p : list Z) (u : unicom_t) : unicom_t :=
  (if part =? 0 then u <| u_sequence := seq |> else u)
    <| u_body := splice (u_body u) (16 * part) (slice p 4 16) |> <| u_part := u8 (u_part u + 1) |>
    <| u_last_audio_ms := now |>.
Definition on_fc (p : list Z) s : adst W :=
  let u := a_unicom (ad s) in
  if negb (u_active u) then s
  else if negb (zlen p =? 20) then unicom_bad "Unicom FC length" s
  else
    let seq := h16 (znth p 0) (znth p 1) in
    let part := h16 (znth p 2) (znth p 3) in
    if negb (part =? u_part u) || (2 <? part) || (negb (part =? 0) && negb (seq =? u_sequence u)) ||
       ((part =? 0) && u_previous_valid u && negb (seq =? u16 (u_previous u + 1)))
    then unicom_stream_fault "Unicom FC continuity" s
    else
      let s := on_u (add_part (a_now_ms (ad s)) seq part p) s in
      if negb (part =? 2) then s else unit_received seq s.
Fixpoint find_char (cs : list report_char_t) (handle i : Z) : option Z :=
  match cs with
  | [] => None
  | c :: cs => if c_value_handle c =? handle then Some i else find_char cs handle (i + 1)
  end.
Definition char_of (a : adapter_t) (handle : Z) : option Z :=
  find_char (slice (a_chars a) 0 (a_char_count a)) handle 0.
Definition unicom_notify (handle : Z) (v : list Z) s : adst W :=
  let a := ad s in
  if (zlen v =? 0) && null_empty then unicom_bad "Unicom empty notification" s
  else if handle =? u_fd (a_unicom a) then on_hello v s
  else if handle =? u_f8 (a_unicom a) then on_voice_key v s
  else if negb (a_ready a) then s
  else if handle =? u_fc (a_unicom a) then on_fc v s
  else
    match char_of a handle with
    | Some i =>
      let id := c_report_id (nth (Z.to_nat i) (a_chars a) report_char0) in
      if (id =? 1) || (id =? 3) then unicom_keys i v s
      else if ((id =? 0xf9) && negb (zlen v =? 1)) || ((id =? 4) && negb (zlen v =? 20))
      then unicom_bad "Unicom extension length" s
      else s
    | None =>
      if (handle =? a_bat_value_handle a) && (zlen v =? 1) && (znth v 0 <=? 100)
      then serve (ABattery (znth v 0) 0) s else s
    end.
End unicom.
