(* ===== verification/Adapter.v ===== *)
(** * The adapter

    rc003_adapter.c: discovery of the remote's services over the GATT client,
    one procedure at a time, subscription to its reports, and the translation
    of notifications into keys and voice for the server.  [begin_next] and
    [handle_op_failure] call each other last, so that [begin_once] and
    [failure_once] are one round and say whether another follows; [begin_loop]
    runs them.  The build is that of the firmware (RBP_SIMULATOR is not
    defined). *)
From Stdlib Require Import String.
From S2P Require Import Prelude Defs Crc32c Cobs Frame DeviceModel ServerState ServerLink Server Hogp Ima Gatt Atvv AdapterState Unicom.
#[local] Open Scope string_scope.
#[local] Open Scope list_scope.
#[local] Open Scope Z_scope.

Definition RBP_UUID16_HID_SERVICE : Z := 0x1812.
Definition RBP_UUID16_BATTERY_SERVICE : Z := 0x180F.
Definition RBP_UUID16_HID_REPORT_MAP : Z := 0x2A4B.
Definition RBP_UUID16_HID_REPORT : Z := 0x2A4D.
Definition RBP_UUID16_PROTOCOL_MODE : Z := 0x2A4E.
Definition RBP_UUID16_BATTERY_LEVEL : Z := 0x2A19.
Definition RBP_UUID16_REPORT_REFERENCE : Z := 0x2908.
Definition RBP_UUID16_CCCD : Z := 0x2902.
(** The ATVV UUIDs differ in one byte. *)
Definition atvv_uuid (n : Z) : list Z :=
  [0x64; 0xB6; 0x17; 0xF6; 0x01; 0xAF; 0x7D; 0xBC; 0x05; 0x4F; 0x21; 0x5A; n; 0x00; 0x5E; 0xAB].
Definition k_atvv_svc_uuid : list Z := atvv_uuid 1.
Definition k_atvv_tx_uuid : list Z := atvv_uuid 2.
Definition k_atvv_ctl_uuid : list Z := atvv_uuid 4.
Definition k_atvv_audio_uuid : list Z := atvv_uuid 3.
(** The checksum of the Report Map of the RC003. *)
Definition RC003_MAP_CRC : Z := 0x6bd7daad.
Definition is_rc003_map (map : list Z) : bool := (zlen map =? 86) && (rbp_crc32c map =? RC003_MAP_CRC).

(** Whether a scan result is a candidate; the name is its bytes, [None] for NULL. *)
Definition mi_voice_name : list Z :=
  [0xe5; 0xb0; 0x8f; 0xe7; 0xb1; 0xb3; 0xe8; 0x93; 0x9d; 0xe7; 0x89; 0x99; 0xe8; 0xaf; 0xad; 0xe9; 0x9f; 0xb3;
   0xe9; 0x81; 0xa5; 0xe6; 0x8e; 0xa7; 0xe5; 0x99; 0xa8].
Definition separator (c : Z) : bool := (c =? 32) || (c =? 45) || (c =? 95).
Definition match_at (name : list Z) (i : Z) : bool :=
  ((i =? 0) || separator (znth name (i - 1))) &&
  ((znth name i =? 82) || (znth name i =? 114)) && ((znth name (i + 1) =? 67) || (znth name (i + 1) =? 99)) &&
  bool_decide (slice name (i + 2) 3 = [48; 48; 51]) &&
  ((i + 5 =? zlen name) || separator (znth name (i + 5))).
Definition rc003_adapter_match (name : option (list Z)) : Z :=
  match name with
  | None => 0
  | Some n =>
    if bool_decide (n = mi_voice_name) then 1
    else if existsb (fun i => (Z.of_nat i + 5 <=? zlen n) && match_at n (Z.of_nat i)) (List.seq 0 (List.length n))
    then 1 else 0
  end.

Section adapter.
Context {W : Type} `{H : Host W}.
Implicit Types s : adst W.

(** ** Voice readiness and keys *)
Definition ready_interaction (i : Z) : Z :=
  if i =? 0 then RBP_VI_ON_REQUEST else if i =? 1 then RBP_VI_PTT else RBP_VI_HTT.
Definition finish_voice_ready s : adst W :=
  let a := ad s in
  if negb (bool_decide (a_state a = ST_ATVV_PREHANDSHAKE)) || negb (caps_valid (a_atvv a)) || negb (a_atvv_present a) ||
     negb (a_caps_requested a) then s
  else
    let s := on_ad (fun a => a <| a_voice_ready := true |> <| a_state := ST_DONE |> <| a_ready := true |>
                               <| a_retry := false |>) s in
    let s := serve (AVoiceState RBP_VOICE_READY (ready_interaction (interaction (caps (a_atvv a))))
                      (sample_rate (a_atvv a))) s in
    let s := serve (ALink RBP_LINK_READY 0 (a_now_ms (ad s))) s in
    let s := on_ad (fun a => a <| a_cache_valid := a_cache_safe a && negb (a_cache_peer_id a =? 0) |>
                               <| a_restoring := false |>) s in
    let a := ad s in
    if a_pending_search a || (negb (interaction (caps (a_atvv a)) =? 1) && a_voice_down_seen a)
    then atvv_start (on_ad (fun a => a <| a_pending_search := false |>) s)
    else s.

Fixpoint find_key (l : list rbp_key_def_t) (key : Z) (i : Z) : Z :=
  match l with [] => 0xFFFF | k :: l => if key_id k =? key then i else find_key l key (i + 1) end.
Definition key_slot (key : Z) : Z :=
  find_key (slice (keys RBP_PROFILE_RC003_VOICE) 0 (key_count RBP_PROFILE_RC003_VOICE)) key 0.
(** The catalog slots of the pressed keys. *)
Definition slot_bits (verified : bool) (keys : Z) : Z :=
  fold_left (fun bits k =>
    if negb (Z.testbit keys k) || ((k =? RBP_KEY_VOICE) && negb verified) then bits
    else if key_slot k <? 64 then Z.lor bits (Z.shiftl 1 (key_slot k)) else bits)
    (map Z.of_nat (List.seq 1 63)) 0.
Definition voice_hold (voice_now : bool) s : adst W :=
  let a := ad s in
  if a_voice_ready a && negb (interaction (caps (a_atvv a)) =? 1) then
    if voice_now && negb (a_voice_down_seen a) then atvv_start s
    else if negb voice_now && a_voice_down_seen a then atvv_stop s
    else s
  else s.
Definition recompute_keys s : adst W :=
  let keys := all_keys (ad s) in
  let voice_now := Z.testbit keys RBP_KEY_VOICE in
  let s := if negb voice_now && a_voice_down_seen (ad s) then on_ad (fun a => a <| a_pending_search := false |>) s else s in
  let s := voice_hold voice_now s in
  let s := if voice_now then on_ad (fun a => a <| a_voice_down_seen := true |>) s
           else if a_voice_down_seen (ad s) && negb (a_voice_key_verified (ad s))
           then serve (ASetProfile (Some RBP_PROFILE_RC003_VOICE))
                  (on_ad (fun a => a <| a_voice_key_verified := true |>) s)
           else s in
  let s := on_ad (fun a => a <| a_voice_down_seen := voice_now |>) s in
  set_pressed (slot_bits (a_voice_key_verified (ad s)) keys) s.

(** ** Procedures *)
Definition one_of (l : list state_t) (x : state_t) : bool := bool_decide (x ∈ l).
Definition start_op (st : state_t) (now : Z) s : adst W :=
  on_ad (fun a =>
    let a := if one_of [ST_FIND_GATT_SVC; ST_FIND_HID_SVC; ST_FIND_BAT_SVC; ST_FIND_ATVV_SVC] st
             then a <| a_svc_start := 0 |> <| a_svc_end := 0 |> else a in
    let a := if one_of [ST_DISC_CTL_DESC; ST_DISC_AUDIO_DESC; ST_DISC_CHANGED_DESC; ST_DISC_DESCS; ST_DISC_BAT_DESCS] st
             then a <| a_desc_boundary := false |> else a in
    let st := if bool_decide (st = ST_FIND_ATVV_SVC) && u_selected (a_unicom a) then ST_UNICOM_SERVICE else st in
    let a := if bool_decide (st = ST_UNICOM_SERVICE) then a <| a_svc_start := 0 |> <| a_svc_end := 0 |> else a in
    let a := if bool_decide (st = ST_UNICOM_DESC) then a <| a_desc_boundary := false |> else a in
    let a := a <| a_state := st |> in
    let a := if bool_decide (st = ST_ATVV_PREHANDSHAKE) then a <| a_caps_requested := false |> else a in
    a <| a_retry := false |> <| a_last_att_error := 0 |> <| a_deadline_ms := u32 (now + INIT_TIMEOUT_MS) |>) s.

Definition keys_usable (voice : Z) s : adst W :=
  let s := on_ad (fun a => a <| a_atvv_present := false |> <| a_retry := false |> <| a_state := ST_DONE |>
                             <| a_ready := true |>) s in
  let s := serve (AVoiceState voice RBP_VI_UNAVAILABLE 0) s in
  serve (ALink RBP_LINK_READY 0 (a_now_ms (ad s))) s.
(** [handle_op_failure]; [Some now]: [begin_next] follows. *)
Definition failure_once s : option Z * adst W :=
  let a := ad s in
  if a_restoring a then (None, fail_initialization "cached attributes failed" s)
  else
    match a_state a with
    | ST_FIND_PROTOCOL_MODE => (None, fail_initialization "protocol mode discovery" s)
    | ST_FIND_GATT_SVC | ST_FIND_CHANGED_CHAR | ST_DISC_CHANGED_DESC | ST_SUB_CHANGED =>
      (Some (a_now_ms a), start_op ST_FIND_HID_SVC (a_now_ms a) (on_ad (fun a => a <| a_service_changed_handle := 0 |>) s))
    | ST_FIND_BAT_SVC | ST_FIND_BAT_CHAR | ST_DISC_BAT_DESCS | ST_READ_BATTERY | ST_SUBSCRIBE_BATTERY =>
      (Some (a_now_ms a), start_op ST_FIND_ATVV_SVC (a_now_ms a)
               (on_ad (fun a => a <| a_retry := false |> <| a_bat_value_handle := 0 |>) s))
    | ST_FIND_ATVV_SVC => (None, keys_usable RBP_VOICE_UNSUPPORTED s)
    | ST_FIND_ATVV_TX | ST_FIND_ATVV_CTL | ST_FIND_ATVV_AUDIO | ST_DISC_CTL_DESC | ST_DISC_AUDIO_DESC
    | ST_SUBSCRIBE_CTL | ST_SUBSCRIBE_AUDIO | ST_ATVV_PREHANDSHAKE => (None, keys_usable RBP_VOICE_FAILED s)
    | _ => (None, fail_initialization "failed" s)
    end.

(** What follows a submission from [starting_state]. *)
Definition after_submit (now : Z) (starting_state : state_t) (rc : Z) s : option Z * adst W :=
  if negb (bool_decide (a_state (ad s) = starting_state)) then (None, s)
  else if rc =? RBP_GATT_RETRY then (None, on_ad (fun a => a <| a_retry := true |>) s)
  else
    let s := on_ad (fun a =>
      let a := a <| a_retry := false |> in
      if (rc =? 0) && negb (bool_decide (a_state a = ST_ATVV_PREHANDSHAKE))
      then a <| a_deadline_ms := u32 (now + ATT_RESPONSE_TIMEOUT_MS) |> else a) s in
    if rc <? 0 then failure_once s else (None, s).
Definition submit_op (now : Z) (o : gatt_op) s : option Z * adst W :=
  let starting_state := a_state (ad s) in
  let '(rc, s) := gop o s in after_submit now starting_state rc s.

Definition char_at (a : adapter_t) (i : Z) : report_char_t := nth (Z.to_nat i) (a_chars a) report_char0.
Definition cur (a : adapter_t) : report_char_t := char_at a (a_cur_char a).
Definition on_char (f : report_char_t -> report_char_t) (a : adapter_t) : adapter_t :=
  a <| a_chars ::= alter f (Z.to_nat (a_cur_char a)) |>.
Definition mapped (a : adapter_t) (id : Z) : bool := existsb (fun r => ir_report_id r =? id) (inputs (a_map a)).
Definition live_chars (a : adapter_t) : list report_char_t := slice (a_chars a) 0 (a_char_count a).
Definition subscribed_to (a : adapter_t) (id : Z) : bool :=
  existsb (fun c => c_subscribed c && (c_report_id c =? id)) (live_chars a).

Definition begin_desc (now : Z) s : option Z * adst W :=
  let a := ad s in
  let start := u16 (c_value_handle (cur a) + 1) in
  let end_ := u16 (if a_cur_char a + 1 <? a_char_count a then c_value_handle (char_at a (a_cur_char a + 1)) - 1
                   else a_svc_end a) in
  if start <=? end_ then submit_op now (Disc_char_descs start end_) s
  else
    let s := on_ad (on_char (fun c => c <| c_ref_handle := 0 |> <| c_cccd_handle := 0 |>)) s in
    if a_cur_char a + 1 <? a_char_count a
    then (Some now, start_op ST_DISC_DESCS now (on_ad (fun a => a <| a_cur_char := a_cur_char a + 1 |>) s))
    else (Some now, start_op ST_FIND_BAT_SVC now s).
Definition begin_subscribe (now : Z) s : option Z * adst W :=
  let a := ad s in
  let c := cur a in
  if (c_cccd_handle c =? 0) || negb (c_report_type c =? 1) ||
     negb (u_selected (a_unicom a) || mapped a (c_report_id c)) then
    let s := on_ad (fun a => a <| a_cur_char := a_cur_char a + 1 |>) s in
    (Some now, start_op (if a_char_count (ad s) <=? a_cur_char (ad s) then ST_FIND_BAT_SVC else ST_DISC_DESCS) now s)
  else submit_op now (Write_value (c_cccd_handle c) [1; 0]) s.
Definition refuse_setup (why : string) s : adst W :=
  serve (AAdapterFailed (cstr why)) (on_ad (fun a => a <| a_state := ST_FAILED |>) s).
Definition begin_battery (now : Z) s : option Z * adst W :=
  let '(ok, a) := if u_selected (a_unicom (ad s)) then unicom_reports (ad s) else (true, ad s) in
  let s := s <| ad := a |> in
  if negb ok then (None, unicom_bad "Unicom report references" s)
  else if negb (forallb (fun r => subscribed_to a (ir_report_id r)) (inputs (a_map a)))
  then (None, refuse_setup "HID input report not subscribed" s)
  else if zlen (inputs (a_map a)) =? 0 then (None, refuse_setup "HID input map empty" s)
  else submit_op now (Disc_service_by_uuid16 RBP_UUID16_BATTERY_SERVICE) s.
Definition begin_mode (now : Z) s : option Z * adst W :=
  let '(rc, s) := gop (Write_command (a_protocol_mode_handle (ad s)) [1]) s in
  if rc =? 0 then (Some now, start_op ST_VERIFY_PROTOCOL_MODE now s)
  else after_submit now ST_SET_PROTOCOL_MODE rc s.
Definition begin_handshake (now : Z) s : option Z * adst W :=
  let '(rc, s) := gop (Write_command (a_atvv_tx_handle (ad s)) atvv_build_get_caps) s in
  let s := if rc =? 0
    then finish_voice_ready (on_ad (fun a => a <| a_caps_requested := true |>
                                              <| a_deadline_ms := u32 (now + INIT_TIMEOUT_MS) |>) s)
    else s in
  after_submit now ST_ATVV_PREHANDSHAKE rc s.
Definition begin_once (now : Z) s : option Z * adst W :=
  let a := ad s in
  let find uuid := submit_op now (Read_chars_by_uuid16 (a_svc_start a) (a_svc_end a) uuid) s in
  let find128 uuid := submit_op now (Read_chars_by_uuid128 (a_svc_start a) (a_svc_end a) uuid) s in
  let descs handle := submit_op now (Disc_char_descs (u16 (handle + 1)) (a_svc_end a)) s in
  match a_state a with
  | ST_UNICOM_SERVICE => submit_op now (Disc_service_by_uuid16 0xfd00) s
  | ST_UNICOM_CHAR => find 0xfd02
  | ST_UNICOM_DESC => descs (u_fd (a_unicom a))
  | ST_UNICOM_SUB => submit_op now (Write_value (u_fd_cccd (a_unicom a)) [1; 0]) s
  | ST_UNICOM_WAIT => (None, s)
  | ST_FIND_HID_INFO => find 0x2a4a
  | ST_READ_HID_INFO => submit_op now (Read_value (a_hid_info_handle a)) s
  | ST_FIND_PROTOCOL_MODE => find RBP_UUID16_PROTOCOL_MODE
  | ST_READ_PROTOCOL_MODE | ST_VERIFY_PROTOCOL_MODE => submit_op now (Read_value (a_protocol_mode_handle a)) s
  | ST_SET_PROTOCOL_MODE => begin_mode now s
  | ST_READ_MAP_CONT => submit_op now (Read_long_value (a_map_value_handle a) (a_map_len a)) s
  | ST_MTU => submit_op now (Exchange_mtu ATT_MTU) s
  | ST_FIND_GATT_SVC => submit_op now (Disc_service_by_uuid16 0x1801) s
  | ST_FIND_CHANGED_CHAR => find 0x2a05
  | ST_DISC_CHANGED_DESC => descs (a_service_changed_handle a)
  | ST_SUB_CHANGED => submit_op now (Write_value (a_service_changed_cccd a) [2; 0]) s
  | ST_DISC_CTL_DESC => descs (a_atvv_ctl_handle a)
  | ST_DISC_AUDIO_DESC => descs (a_atvv_audio_handle a)
  | ST_FIND_HID_SVC => submit_op now (Disc_service_by_uuid16 RBP_UUID16_HID_SERVICE) s
  | ST_FIND_MAP_CHAR => find RBP_UUID16_HID_REPORT_MAP
  | ST_READ_MAP =>
    submit_op now (Read_value (a_map_value_handle a))
      (on_ad (fun a => a <| a_map_len := 0 |> <| a_map_long_started := false |>) s)
  | ST_ENUM_REPORT_CHARS => find RBP_UUID16_HID_REPORT
  | ST_DISC_DESCS => begin_desc now s
  | ST_READ_REPORT_REF => submit_op now (Read_value (c_ref_handle (cur a))) s
  | ST_SUBSCRIBE_REPORT => begin_subscribe now s
  | ST_FIND_BAT_SVC => begin_battery now s
  | ST_FIND_BAT_CHAR => find RBP_UUID16_BATTERY_LEVEL
  | ST_DISC_BAT_DESCS => descs (a_bat_value_handle a)
  | ST_READ_BATTERY => submit_op now (Read_value (a_bat_value_handle a)) s
  | ST_SUBSCRIBE_BATTERY => submit_op now (Write_value (a_bat_cccd_handle a) [1; 0]) s
  | ST_FIND_ATVV_SVC => submit_op now (Disc_service_by_uuid128 k_atvv_svc_uuid) s
  | ST_FIND_ATVV_TX => find128 k_atvv_tx_uuid
  | ST_FIND_ATVV_CTL => find128 k_atvv_ctl_uuid
  | ST_FIND_ATVV_AUDIO => find128 k_atvv_audio_uuid
  | ST_SUBSCRIBE_CTL => submit_op now (Write_value (a_atvv_ctl_cccd a) [1; 0]) s
  | ST_SUBSCRIBE_AUDIO => submit_op now (Write_value (a_atvv_audio_cccd a) [1; 0]) s
  | ST_ATVV_PREHANDSHAKE => begin_handshake now s
  | ST_IDLE | ST_DONE | ST_FAILED => after_submit now (a_state a) 0 s
  end.

(** [begin_next]; [begin_fuel] rounds are enough, see [AdapterProps]. *)
Definition begin_fuel : nat := 16.
Fixpoint begin_loop (fuel : nat) (now : Z) s : adst W :=
  match fuel with
  | O => s
  | S fuel => match begin_once now s with (Some now, s) => begin_loop fuel now s | (None, s) => s end
  end.
Definition begin_next (now : Z) s : adst W := begin_loop begin_fuel now s.
Definition handle_op_failure s : adst W :=
  match failure_once s with (Some now, s) => begin_next now s | (None, s) => s end.
(** [start_op(a,st,a->now_ms);begin_next(a,a->now_ms)] *)
Definition go (st : state_t) s : adst W :=
  let now := a_now_ms (ad s) in begin_next now (start_op st now s).

(** ** Lifecycle *)
Definition rc003_adapter_start_bound (now peer_id : Z) s : adst W :=
  let a := ad s in
  if negb (peer_id =? 0) && a_cache_valid a && (a_cache_peer_id a =? peer_id) then
    let s := on_ad (fun a => a <| a_restoring := true |> <| a_now_ms := now |>
                               <| a_init_deadline_ms := u32 (now + INIT_TOTAL_TIMEOUT_MS) |>) s in
    let s := serve (ASetProfile (Some (if u_selected (a_unicom a) then RBP_PROFILE_UNICOM
                       else if a_voice_key_verified a then RBP_PROFILE_RC003_VOICE else RBP_PROFILE_RC003))) s in
    let a := ad s in
    let first :=
      if (ATT_MTU =? 23) && u_selected (a_unicom a) then
        if negb (a_service_changed_cccd a =? 0) then ST_SUB_CHANGED
        else if negb (a_protocol_mode_handle a =? 0) then ST_READ_PROTOCOL_MODE else ST_UNICOM_SUB
      else ST_MTU in
    begin_next now (start_op first now s)
  else
    let s := on_ad (fun a => a <| a_now_ms := now |> <| a_cache_peer_id := peer_id |>
                               <| a_init_deadline_ms := u32 (now + INIT_TOTAL_TIMEOUT_MS) |>) (rc003_adapter_init s) in
    let s := serve (ASetProfile (Some RBP_PROFILE_RC003)) s in
    begin_next now (start_op ST_MTU now s).
Definition rc003_adapter_start (now : Z) s : adst W := rc003_adapter_start_bound now 0 s.
Definition rc003_adapter_commit_bond (peer_id : Z) s : adst W :=
  if (peer_id =? 0) || negb (a_ready (ad s)) then s
  else on_ad (fun a => a <| a_cache_peer_id := peer_id |> <| a_cache_valid := a_cache_safe a && a_voice_ready a |>) s.

(** ** The tick *)
Definition tick_atvv (now : Z) s : adst W :=
  let s := if negb (u_selected (a_unicom (ad s))) && open_pending (a_atvv (ad s)) && negb (voice_wanted (wd s))
           then atvv_stop s else s in
  if negb (u_selected (a_unicom (ad s))) && a_voice_ready (ad s)
  then snd (with_engine (rc003_atvv_tick now) s) else s.
Definition tick_deadlines (now : Z) s : adst W :=
  let a := ad s in
  if one_of [ST_IDLE; ST_FAILED] (a_state a) then s
  else if negb (bool_decide (a_state a = ST_DONE)) && due now (a_init_deadline_ms a)
  then fail_transport "timeout total" s
  else if negb (bool_decide (a_state a = ST_DONE)) && due now (a_deadline_ms a) then
    if bool_decide (a_state a = ST_ATVV_PREHANDSHAKE) && negb (a_restoring a) then handle_op_failure s
    else fail_transport "timeout" s
  else if a_retry a then begin_next now s else s.
Definition rc003_adapter_tick (now : Z) s : adst W :=
  let s := on_ad (fun a => a <| a_now_ms := now |>) s in
  if one_of [ST_IDLE; ST_FAILED] (a_state (ad s)) then s
  else
    let unicom := u_selected (a_unicom (ad s)) in
    let s := if unicom then unicom_tick s else s in
    if unicom && one_of [ST_DONE; ST_UNICOM_WAIT; ST_FAILED] (a_state (ad s)) then s
    else tick_deadlines now (tick_atvv now s).

(** ** Events of the discovery, a definition per state *)
Definition on_service_found (a_ b : Z) s : adst W := on_ad (fun a => a <| a_svc_start := a_ |> <| a_svc_end := b |>) s.
(** The value handle of a characteristic declaration. *)
Definition decl_handle (v : list Z) : Z := h16 (znth v 1) (znth v 2).
Definition has_prop (v : list Z) (m : Z) : bool := negb (Z.land (znth v 0) m =? 0).
(** Where a cached database continues. *)
Definition restore_voice (a : adapter_t) : state_t :=
  if u_selected (a_unicom a) then ST_UNICOM_SUB
  else if negb (a_bat_value_handle a =? 0) then ST_READ_BATTERY else ST_SUBSCRIBE_CTL.
Definition restore_mode (a : adapter_t) : state_t :=
  if negb (a_protocol_mode_handle a =? 0) then ST_READ_PROTOCOL_MODE else restore_voice a.
Definition restore_start (a : adapter_t) : state_t :=
  if negb (a_service_changed_cccd a =? 0) then ST_SUB_CHANGED else restore_mode a.

Definition ev_unicom_service (e : rbp_gatt_evt) s : adst W :=
  match e with
  | SERVICE_FOUND b c => if negb (a_svc_start (ad s) =? 0) then unicom_bad "duplicate FD00" s else on_service_found b c s
  | PROC_DONE => if negb (a_svc_start (ad s) =? 0) then go ST_UNICOM_CHAR s else unicom_bad "FD00 unavailable" s
  | SERVICE_NOT_FOUND | PROC_ERROR _ => unicom_bad "FD00 unavailable" s
  | _ => s
  end.
Definition ev_unicom_char (e : rbp_gatt_evt) s : adst W :=
  match e with
  | CHARS_FOUND _ v _ =>
    if (zlen v <? 3) || negb (has_prop v 0x10) || negb (u_fd (a_unicom (ad s)) =? 0) then unicom_bad "FD02 properties" s
    else on_u (fun u => u <| u_fd := decl_handle v |>) s
  | PROC_DONE => if negb (u_fd (a_unicom (ad s)) =? 0) then go ST_UNICOM_DESC s else unicom_bad "FD02 unavailable" s
  | PROC_ERROR _ => unicom_bad "FD02 unavailable" s
  | _ => s
  end.
(** A descriptor up to the next characteristic declaration. *)
Definition see_desc (uuid : Z) (f : adapter_t -> adapter_t) s : adst W :=
  on_ad (fun a =>
    let a := if uuid =? 0x2803 then a <| a_desc_boundary := true |> else a in
    if a_desc_boundary a then a else f a) s.
Definition ev_unicom_desc (e : rbp_gatt_evt) s : adst W :=
  match e with
  | DESC_FOUND h uuid _ =>
    see_desc uuid (fun a => if uuid =? 0x2902 then a <| a_unicom ::= fun u => u <| u_fd_cccd := h |> |> else a) s
  | PROC_DONE =>
    if negb (u_fd_cccd (a_unicom (ad s)) =? 0) then go ST_UNICOM_SUB s else unicom_bad "FD02 CCCD unavailable" s
  | PROC_ERROR _ => unicom_bad "FD02 CCCD unavailable" s
  | _ => s
  end.
Definition ev_unicom_sub (e : rbp_gatt_evt) s : adst W :=
  match e with
  | WRITE_DONE =>
    let s := start_op ST_UNICOM_WAIT (a_now_ms (ad s)) s in if u_hello (a_unicom (ad s)) then unicom_ready s else s
  | PROC_ERROR _ => unicom_bad "FD02 subscribe failed" s
  | _ => s
  end.
Definition ev_mtu (e : rbp_gatt_evt) s : adst W :=
  match e with
  | MTU_UPDATED _ | PROC_ERROR _ => go (if a_restoring (ad s) then restore_start (ad s) else ST_FIND_GATT_SVC) s
  | _ => s
  end.
Definition ev_find_mode (e : rbp_gatt_evt) s : adst W :=
  match e with
  | CHARS_FOUND _ v _ =>
    if zlen v <? 3 then s
    else if negb (Z.land (znth v 0) 6 =? 6) then fail_initialization "protocol mode properties" s
    else on_ad (fun a => a <| a_protocol_mode_handle := decl_handle v |>) s
  | PROC_DONE => go (if negb (a_protocol_mode_handle (ad s) =? 0) then ST_READ_PROTOCOL_MODE else ST_FIND_MAP_CHAR) s
  | PROC_ERROR _ => handle_op_failure s
  | _ => s
  end.
Definition ev_read_mode (e : rbp_gatt_evt) s : adst W :=
  match e with
  | READ_RSP _ v _ =>
    if negb (zlen v =? 1) || (1 <? znth v 0) ||
       (bool_decide (a_state (ad s) = ST_VERIFY_PROTOCOL_MODE) && negb (znth v 0 =? 1))
    then fail_initialization "protocol mode value" s
    else go (if znth v 0 =? 1 then if a_restoring (ad s) then restore_voice (ad s) else ST_FIND_MAP_CHAR
             else ST_SET_PROTOCOL_MODE) s
  | PROC_ERROR _ => handle_op_failure s
  | _ => s
  end.
Definition ev_gatt_svc (e : rbp_gatt_evt) s : adst W :=
  match e with
  | SERVICE_FOUND b c => on_service_found b c s
  | PROC_DONE => if negb (a_svc_start (ad s) =? 0) then go ST_FIND_CHANGED_CHAR s else handle_op_failure s
  | SERVICE_NOT_FOUND => handle_op_failure (on_ad (fun a => a <| a_cache_safe := true |>) s)
  | PROC_ERROR _ => handle_op_failure s
  | _ => s
  end.
Definition ev_changed_char (e : rbp_gatt_evt) s : adst W :=
  match e with
  | CHARS_FOUND _ v _ =>
    if (3 <=? zlen v) && has_prop v 0x20
    then on_ad (fun a => a <| a_service_changed_handle := decl_handle v |>) s else s
  | PROC_DONE =>
    if a_service_changed_handle (ad s) =? 0 then handle_op_failure (on_ad (fun a => a <| a_cache_safe := true |>) s)
    else go ST_DISC_CHANGED_DESC s
  | PROC_ERROR _ => handle_op_failure s
  | _ => s
  end.
(** The CCCD of the three characteristics found in the same way, and what
    follows it. *)
Definition set_cccd (st : state_t) (h : Z) (a : adapter_t) : adapter_t :=
  match st with
  | ST_DISC_CHANGED_DESC => a <| a_service_changed_cccd := h |>
  | ST_DISC_CTL_DESC => a <| a_atvv_ctl_cccd := h |>
  | _ => a <| a_atvv_audio_cccd := h |>
  end.
Definition get_cccd (st : state_t) (a : adapter_t) : Z :=
  match st with
  | ST_DISC_CHANGED_DESC => a_service_changed_cccd a
  | ST_DISC_CTL_DESC => a_atvv_ctl_cccd a
  | _ => a_atvv_audio_cccd a
  end.
Definition cccd_next (st : state_t) : state_t :=
  match st with
  | ST_DISC_CHANGED_DESC => ST_SUB_CHANGED
  | ST_DISC_CTL_DESC => ST_SUBSCRIBE_CTL
  | _ => ST_SUBSCRIBE_AUDIO
  end.
Definition ev_cccd (e : rbp_gatt_evt) s : adst W :=
  let st := a_state (ad s) in
  match e with
  | DESC_FOUND h uuid _ => see_desc uuid (fun a => if uuid =? RBP_UUID16_CCCD then set_cccd st h a else a) s
  | PROC_DONE => if get_cccd st (ad s) =? 0 then handle_op_failure s else go (cccd_next st) s
  | PROC_ERROR _ => handle_op_failure s
  | _ => s
  end.
Definition ev_sub_changed (e : rbp_gatt_evt) s : adst W :=
  match e with
  | WRITE_DONE =>
    let s := on_ad (fun a => a <| a_cache_safe := true |>) s in
    go (if a_restoring (ad s) then restore_mode (ad s) else ST_FIND_HID_SVC) s
  | PROC_ERROR _ => handle_op_failure s
  | _ => s
  end.
Definition ev_hid_svc (e : rbp_gatt_evt) s : adst W :=
  match e with
  | SERVICE_FOUND b c => on_service_found b c s
  | PROC_DONE => if a_svc_start (ad s) =? 0 then handle_op_failure s else go ST_FIND_HID_INFO s
  | SERVICE_NOT_FOUND | PROC_ERROR _ => handle_op_failure s
  | _ => s
  end.
Definition ev_find_info (e : rbp_gatt_evt) s : adst W :=
  match e with
  | CHARS_FOUND _ v _ =>
    if zlen v <? 3 then s
    else if negb (a_hid_info_handle (ad s) =? 0) || negb (has_prop v 2) then handle_op_failure s
    else on_ad (fun a => a <| a_hid_info_handle := decl_handle v |>) s
  | PROC_DONE => if a_hid_info_handle (ad s) =? 0 then handle_op_failure s else go ST_READ_HID_INFO s
  | PROC_ERROR _ => handle_op_failure s
  | _ => s
  end.
Definition ev_read_info (e : rbp_gatt_evt) s : adst W :=
  match e with
  | READ_RSP _ v complete =>
    if negb complete || negb (zlen v =? 4) || negb (Z.land (znth v 3) (Z.lnot 3) =? 0) then handle_op_failure s
    else go ST_FIND_PROTOCOL_MODE (on_ad (fun a => a <| a_hid_flags := znth v 3 |> <| a_hid_info_valid := true |>) s)
  | PROC_ERROR _ => handle_op_failure s
  | _ => s
  end.
Definition ev_find_map (e : rbp_gatt_evt) s : adst W :=
  match e with
  | CHARS_FOUND _ v _ => if zlen v <? 3 then s else on_ad (fun a => a <| a_map_value_handle := decl_handle v |>) s
  | PROC_DONE => if a_map_value_handle (ad s) =? 0 then handle_op_failure s else go ST_READ_MAP s
  | PROC_ERROR _ => handle_op_failure s
  | _ => s
  end.
(** The inputs of the Unicom map, which the decoder does not use. *)
Definition unicom_inputs : hogp_report_map_t :=
  ReportMap [] (map (fun id => InputReport id 0 0 0) [1; 3; 0xfc; 0xf8; 0xf9; 4]) false.
(** The Report Map is complete.  A map that is refused leaves [map] partly
    filled, and is not used again. *)
Definition map_complete s : adst W :=
  let m := slice (a_map_buf (ad s)) 0 (a_map_len (ad s)) in
  let unicom := bool_decide (m = unicom_map) in
  let s := on_u (fun u => u <| u_selected := unicom |>) s in
  match (if unicom then Some unicom_inputs
         else match hogp_report_map_parse m with Some (Some map) => Some map | _ => None end) with
  | None => handle_op_failure s
  | Some map =>
    let boot := is_rc003_map m in
    let s := on_ad (fun a => a <| a_map := map |> <| a_boot_layout := boot |>) s in
    if negb SIMULATOR && negb boot && negb unicom then fail_initialization "unsupported HID profile" s
    else go ST_ENUM_REPORT_CHARS
           (on_ad (fun a => a <| a_atvv ::= fun x => x <| profile_init_without_sync := boot |> |>) s)
  end.
Definition ev_read_map (e : rbp_gatt_evt) s : adst W :=
  let a := ad s in
  match e with
  | READ_RSP offset v complete =>
    if (HOGP_MAX_MAP_SIZE - a_map_len a <? zlen v) || negb (offset =? a_map_len a) then handle_op_failure s
    else
      let s := on_ad (fun a => a <| a_map_buf := splice (a_map_buf a) (a_map_len a) v |>
                                 <| a_map_len := a_map_len a + zlen v |>) s in
      if complete then map_complete s
      else if negb (a_map_long_started (ad s))
      then go ST_READ_MAP_CONT (on_ad (fun a => a <| a_map_long_started := true |>) s)
      else s
  | PROC_ERROR _ => handle_op_failure s
  | _ => s
  end.
Definition ev_enum (e : rbp_gatt_evt) s : adst W :=
  let a := ad s in
  match e with
  | CHARS_FOUND _ v _ =>
    if u_selected (a_unicom a) && (RC003_MAX_REPORT_CHARS <=? a_char_count a) then fail_initialization "too many reports" s
    else if (3 <=? zlen v) && (a_char_count a <? RC003_MAX_REPORT_CHARS) then
      on_ad (fun a => a
        <| a_chars ::= <[Z.to_nat (a_char_count a) :=
             report_char0 <| c_properties := znth v 0 |> <| c_value_handle := decl_handle v |>]> |>
        <| a_char_count := a_char_count a + 1 |>) s
    else s
  | PROC_DONE =>
    if a_char_count a =? 0 then handle_op_failure s
    else go ST_DISC_DESCS (on_ad (fun a => a <| a_cur_char := 0 |>) s)
  | PROC_ERROR _ => handle_op_failure s
  | _ => s
  end.
(** On to the next report, or to the battery. *)
Definition next_char s : adst W :=
  if a_cur_char (ad s) + 1 <? a_char_count (ad s)
  then go ST_DISC_DESCS (on_ad (fun a => a <| a_cur_char := a_cur_char a + 1 |>) s)
  else go ST_FIND_BAT_SVC s.
Definition ev_descs (e : rbp_gatt_evt) s : adst W :=
  match e with
  | DESC_FOUND h uuid _ =>
    see_desc uuid (on_char (fun c =>
      if uuid =? RBP_UUID16_REPORT_REFERENCE then c <| c_ref_handle := h |>
      else if uuid =? RBP_UUID16_CCCD then c <| c_cccd_handle := h |> else c)) s
  | PROC_DONE => if negb (c_ref_handle (cur (ad s)) =? 0) then go ST_READ_REPORT_REF s else next_char s
  | PROC_ERROR _ => handle_op_failure s
  | _ => s
  end.
Definition ev_report_ref (e : rbp_gatt_evt) s : adst W :=
  match e with
  | READ_RSP _ v _ =>
    if zlen v =? 2
    then go ST_SUBSCRIBE_REPORT
           (on_ad (on_char (fun c => c <| c_report_id := znth v 0 |> <| c_report_type := znth v 1 |>)) s)
    else handle_op_failure s
  | PROC_ERROR _ => handle_op_failure s
  | _ => s
  end.
Definition ev_sub_report (e : rbp_gatt_evt) s : adst W :=
  match e with
  | WRITE_DONE => next_char (on_ad (on_char (fun c => c <| c_subscribed := true |>)) s)
  | PROC_ERROR _ => handle_op_failure s
  | _ => s
  end.
Definition ev_bat_svc (e : rbp_gatt_evt) s : adst W :=
  match e with
  | SERVICE_FOUND b c => on_service_found b c s
  | PROC_DONE => if a_svc_start (ad s) =? 0 then handle_op_failure s else go ST_FIND_BAT_CHAR s
  | SERVICE_NOT_FOUND | PROC_ERROR _ => handle_op_failure s
  | _ => s
  end.
Definition ev_bat_char (e : rbp_gatt_evt) s : adst W :=
  match e with
  | CHARS_FOUND _ v _ => if zlen v <? 3 then s else on_ad (fun a => a <| a_bat_value_handle := decl_handle v |>) s
  | PROC_DONE => if a_bat_value_handle (ad s) =? 0 then handle_op_failure s else go ST_DISC_BAT_DESCS s
  | PROC_ERROR _ => handle_op_failure s
  | _ => s
  end.
Definition ev_bat_descs (e : rbp_gatt_evt) s : adst W :=
  match e with
  | DESC_FOUND h uuid _ =>
    see_desc uuid (fun a => if uuid =? RBP_UUID16_CCCD then a <| a_bat_cccd_handle := h |> else a) s
  | PROC_DONE => go ST_READ_BATTERY s
  | PROC_ERROR _ => go ST_FIND_ATVV_SVC s
  | _ => s
  end.
Definition ev_battery (e : rbp_gatt_evt) s : adst W :=
  match e with
  | READ_RSP _ v _ =>
    if (zlen v =? 1) && (znth v 0 <=? 100) then
      let s := serve (ABattery (znth v 0) 0) s in
      go (if a_restoring (ad s) then ST_SUBSCRIBE_CTL
          else if negb (a_bat_cccd_handle (ad s) =? 0) then ST_SUBSCRIBE_BATTERY else ST_FIND_ATVV_SVC) s
    else if a_restoring (ad s) then handle_op_failure s else go ST_FIND_ATVV_SVC s
  | PROC_ERROR _ => if a_restoring (ad s) then handle_op_failure s else go ST_FIND_ATVV_SVC s
  | _ => s
  end.
Definition ev_sub_battery (e : rbp_gatt_evt) s : adst W :=
  match e with WRITE_DONE | PROC_ERROR _ => go ST_FIND_ATVV_SVC s | _ => s end.
Definition ev_atvv_svc (e : rbp_gatt_evt) s : adst W :=
  match e with
  | SERVICE_FOUND b c => on_ad (fun a => a <| a_atvv_present := true |>) (on_service_found b c s)
  | PROC_DONE => if a_atvv_present (ad s) then go ST_FIND_ATVV_TX s else handle_op_failure s
  | SERVICE_NOT_FOUND | PROC_ERROR _ => handle_op_failure s
  | _ => s
  end.
(** The three ATVV characteristics: the property that is required, where the
    handle goes, and the next step. *)
Definition ev_atvv_char (prop : Z) (set : Z -> adapter_t -> adapter_t) (get : adapter_t -> Z) (next : state_t)
  (e : rbp_gatt_evt) s : adst W :=
  match e with
  | CHARS_FOUND _ v _ => if (3 <=? zlen v) && has_prop v prop then on_ad (set (decl_handle v)) s else s
  | PROC_DONE => if get (ad s) =? 0 then handle_op_failure s else go next s
  | PROC_ERROR _ => handle_op_failure s
  | _ => s
  end.
Definition ev_sub_ctl (e : rbp_gatt_evt) s : adst W :=
  match e with
  | WRITE_DONE => go (if a_restoring (ad s) then ST_SUBSCRIBE_AUDIO else ST_FIND_ATVV_AUDIO) s
  | PROC_ERROR _ => handle_op_failure s
  | _ => s
  end.
Definition ev_sub_audio (e : rbp_gatt_evt) s : adst W :=
  match e with WRITE_DONE => go ST_ATVV_PREHANDSHAKE s | PROC_ERROR _ => handle_op_failure s | _ => s end.
Definition ev_handshake (e : rbp_gatt_evt) s : adst W :=
  match e with PROC_ERROR _ => handle_op_failure s | _ => s end.
Definition on_discovery (e : rbp_gatt_evt) s : adst W :=
  match a_state (ad s) with
  | ST_UNICOM_SERVICE => ev_unicom_service e s
  | ST_UNICOM_CHAR => ev_unicom_char e s
  | ST_UNICOM_DESC => ev_unicom_desc e s
  | ST_UNICOM_SUB => ev_unicom_sub e s
  | ST_MTU => ev_mtu e s
  | ST_FIND_PROTOCOL_MODE => ev_find_mode e s
  | ST_READ_PROTOCOL_MODE | ST_VERIFY_PROTOCOL_MODE => ev_read_mode e s
  | ST_FIND_GATT_SVC => ev_gatt_svc e s
  | ST_FIND_CHANGED_CHAR => ev_changed_char e s
  | ST_DISC_CHANGED_DESC | ST_DISC_CTL_DESC | ST_DISC_AUDIO_DESC => ev_cccd e s
  | ST_SUB_CHANGED => ev_sub_changed e s
  | ST_FIND_HID_SVC => ev_hid_svc e s
  | ST_FIND_HID_INFO => ev_find_info e s
  | ST_READ_HID_INFO => ev_read_info e s
  | ST_FIND_MAP_CHAR => ev_find_map e s
  | ST_READ_MAP | ST_READ_MAP_CONT => ev_read_map e s
  | ST_ENUM_REPORT_CHARS => ev_enum e s
  | ST_DISC_DESCS => ev_descs e s
  | ST_READ_REPORT_REF => ev_report_ref e s
  | ST_SUBSCRIBE_REPORT => ev_sub_report e s
  | ST_FIND_BAT_SVC => ev_bat_svc e s
  | ST_FIND_BAT_CHAR => ev_bat_char e s
  | ST_DISC_BAT_DESCS => ev_bat_descs e s
  | ST_READ_BATTERY => ev_battery e s
  | ST_SUBSCRIBE_BATTERY => ev_sub_battery e s
  | ST_FIND_ATVV_SVC => ev_atvv_svc e s
  | ST_FIND_ATVV_TX =>
    ev_atvv_char 4 (fun h a => a <| a_atvv_tx_handle := h |>) a_atvv_tx_handle ST_FIND_ATVV_CTL e s
  | ST_FIND_ATVV_CTL =>
    ev_atvv_char 0x10 (fun h a => a <| a_atvv_ctl_handle := h |>) a_atvv_ctl_handle ST_DISC_CTL_DESC e s
  | ST_SUBSCRIBE_CTL => ev_sub_ctl e s
  | ST_FIND_ATVV_AUDIO =>
    ev_atvv_char 0x10 (fun h a => a <| a_atvv_audio_handle := h |>) a_atvv_audio_handle ST_DISC_AUDIO_DESC e s
  | ST_SUBSCRIBE_AUDIO => ev_sub_audio e s
  | ST_ATVV_PREHANDSHAKE => ev_handshake e s
  | ST_SET_PROTOCOL_MODE | ST_UNICOM_WAIT | ST_IDLE | ST_DONE | ST_FAILED => s
  end.

(** ** Notifications *)
Definition decode_keys (a : adapter_t) (c : report_char_t) (v : list Z) : option Z :=
  match (if a_boot_layout a && (c_report_id c =? 1) && (zlen v =? 8) then hogp_decode_boot_keyboard v
         else hogp_decode_report (a_map a) (c_report_id c) v) with
  | Keys k => Some k
  | Refused | OutOfBounds => None
  end.
Definition on_report (i : Z) (v : list Z) s : adst W :=
  let c := char_at (ad s) i in
  if negb (c_report_type c =? 1) || negb (c_subscribed c) then s
  else
    let keys := decode_keys (ad s) c v in
    let s := match keys with None => if a_voice_down_seen (ad s) then atvv_stop s else s | Some _ => s end in
    recompute_keys (on_ad (fun a => a <| a_keys_by_report ::= <[Z.to_nat i := default 0 keys]> |>) s).
Definition on_atvv_control (v : list Z) s : adst W :=
  let s := if a_restoring (ad s) && (zlen v =? 2) && (znth v 0 =? 0)
           then on_ad (fun a => a <| a_pending_search := false |>) s else s in
  if a_restoring (ad s) && negb (a_voice_ready (ad s)) && (zlen v =? 1) && (znth v 0 =? 8)
  then on_ad (fun a => a <| a_pending_search := true |>) s
  else
    let '(valid, s) := with_engine (rc003_atvv_on_control v) s in
    if negb valid && negb (zlen v =? 0) && (znth v 0 =? 0x0b) then
      if bool_decide (a_state (ad s) = ST_ATVV_PREHANDSHAKE) then handle_op_failure s else s
    else finish_voice_ready s.
Definition on_notification (handle : Z) (v : list Z) s : adst W :=
  let a := ad s in
  match char_of a handle with
  | Some i => on_report i v s
  | None =>
    if a_atvv_present a && (handle =? a_atvv_ctl_handle a) then on_atvv_control v s
    else if a_atvv_present a && (handle =? a_atvv_audio_handle a)
    then snd (with_engine (fun x => (true, rc003_atvv_on_audio v x)) s)
    else if (handle =? a_bat_value_handle a) && (zlen v =? 1) && (znth v 0 <=? 100)
    then serve (ABattery (znth v 0) 0) s
    else s
  end.

(** ** All events *)
Definition is_progress (e : rbp_gatt_evt) : bool :=
  match e with CHARS_FOUND _ _ _ | DESC_FOUND _ _ _ | READ_RSP _ _ _ | SERVICE_FOUND _ _ => true | _ => false end.
Definition on_live_event (e : rbp_gatt_evt) s : adst W :=
  let s := if is_progress e
    then on_ad (fun a => a <| a_deadline_ms := u32 (a_now_ms a + ATT_RESPONSE_TIMEOUT_MS) |>) s else s in
  let s := match e with PROC_ERROR st => on_ad (fun a => a <| a_last_att_error := st |>) s | _ => s end in
  let u := a_unicom (ad s) in
  let busy := u_selected u && bool_decide (a_state (ad s) = ST_DONE) && negb (u_in_flight u =? 0) in
  let clock := on_ad (fun a => a <| a_atvv ::= fun x => x <| now_ms := a_now_ms a |> |>) in
  match e with
  | PROC_ERROR st =>
    if st =? 0x12 then fail_initialization "GATT database out of sync" s
    else if busy then unicom_bad "Unicom FB write failed" s
    else on_discovery e (clock s)
  | NOTIFY h v => if u_selected u then unicom_notify h v s else on_notification h v (clock s)
  | WRITE_DONE => if busy then on_u (fun u => u <| u_in_flight := 0 |>) s else on_discovery e (clock s)
  | _ => on_discovery e (clock s)
  end.
(** The last check of the source for a changed database is never reached: the
    first one returns for the same handle. *)
Definition adapter_on_gatt (e : rbp_gatt_evt) s : adst W :=
  let a := ad s in
  let dead := one_of [ST_IDLE; ST_FAILED] (a_state a) in
  let changed := match e with
    | NOTIFY h _ => negb (a_service_changed_handle a =? 0) && (h =? a_service_changed_handle a) | _ => false end in
  if changed then
    let s := on_ad (fun a => a <| a_cache_valid := false |> <| a_cache_safe := false |>) s in
    if dead then s else fail_initialization "GATT database changed" s
  else if dead then s
  else
    match e with
    | BEARER_FAILED st =>
      let s := on_ad (fun a => a <| a_last_att_error := st |>) s in
      if st =? 0x12 then fail_initialization "GATT database out of sync" s else fail_transport "ATT bearer failed" s
    | _ => on_live_event e s
    end.

Definition rc003_adapter_mic_start s : Z * adst W :=
  let a := ad s in
  if u_selected (a_unicom a) then (RBP_STATUS_VOICE_UNAVAILABLE, s)
  else if negb (a_ready a) || negb (a_voice_ready a) || negb (caps_valid (a_atvv a)) || (a_atvv_tx_handle a =? 0)
  then (RBP_STATUS_VOICE_UNAVAILABLE, s)
  else if negb (voice_wanted (wd s)) then (RBP_STATUS_BAD_STATE, s)
  else if stream_active (a_atvv a) || open_pending (a_atvv a) || closing (a_atvv a) || close_queued (a_atvv a)
  then (RBP_STATUS_BUSY, s)
  else (RBP_STATUS_OK, on_ad (fun a => a <| a_atvv ::= fun x => x <| open_pending := true |> <| open_queued := true |>
          <| closing := false |> <| open_deadline_ms := u32 (a_now_ms a + ATVV_OPEN_WAIT_MS) |> |>) s).
End adapter.
