(* ===== verification/AdapterCache.v ===== *)
(** * The adapter's attribute cache

    cache.inc: the discovered database as bytes, which [CacheStore] keeps for
    the bonded remote, and back; importing what was exported gives
    the same database. *)
From Stdlib Require Import String.
From S2P Require Import Prelude Defs Crc32c Cobs Frame DeviceModel ServerState ServerLink Server Hogp Ima Gatt Atvv AdapterState Unicom Adapter.
#[local] Open Scope string_scope.
#[local] Open Scope list_scope.
#[local] Open Scope Z_scope.

Definition CACHE_HEADER : Z := 48.
Definition CACHE_CHAR : Z := 11.
Definition cache_u16 (p : list Z) (o : Z) : Z := h16 (znth p o) (znth p (o + 1)).
Definition cache_put (v : Z) : list Z := [u8 v; u8 (Z.shiftr v 8)].
Definition bit_if (b : bool) (v : Z) : Z := if b then v else 0.

(** ** Export *)
Definition cache_flags (a : adapter_t) : Z :=
  Z.lor (Z.lor (Z.lor (bit_if (u_selected (a_unicom a)) 1) (bit_if (a_boot_layout a) 2))
    (bit_if (a_voice_key_verified a) 4)) (bit_if (a_atvv_present a) 8).
(** The array [h] of the source. *)
Definition cache_handles (a : adapter_t) : list Z :=
  [a_protocol_mode_handle a; a_hid_info_handle a; a_map_value_handle a; a_bat_value_handle a; a_bat_cccd_handle a;
   a_atvv_tx_handle a; a_atvv_ctl_handle a; a_atvv_ctl_cccd a; a_atvv_audio_handle a; a_atvv_audio_cccd a;
   a_service_changed_handle a; a_service_changed_cccd a; u_fd (a_unicom a); u_fd_cccd (a_unicom a)].
Definition cache_char (c : report_char_t) : list Z :=
  cache_put (c_value_handle c) ++ cache_put (c_cccd_handle c) ++ cache_put (c_ref_handle c) ++
  [c_report_id c; c_report_type c; c_properties c; c_usage_page c; bit_if (c_subscribed c) 1].
Definition cache_size (a : adapter_t) : Z := CACHE_HEADER + CACHE_CHAR * a_char_count a + a_map_len a.
Definition cache_header (a : adapter_t) : list Z :=
  cstr "GAC1" ++ cache_put (u16 (cache_size a)) ++ [cache_flags a; a_char_count a] ++
  concat (map cache_put (cache_handles a)) ++ [0; 0] ++ [a_hid_flags a; bit_if (a_hid_info_valid a) 1] ++
  cache_put (a_map_len a) ++ replicate 6 0.
(** The bytes written, of which the function returns the number. *)
Definition rc003_adapter_cache_export (a : adapter_t) (cap : Z) : list Z :=
  if negb (a_cache_valid a) || negb (a_cache_safe a) || (a_cache_peer_id a =? 0) || (a_char_count a =? 0) ||
     (RC003_MAX_REPORT_CHARS <? a_char_count a) || (HOGP_MAX_MAP_SIZE <? a_map_len a) || (cap <? cache_size a)
  then []
  else cache_header a ++ concat (map cache_char (live_chars a)) ++ slice (a_map_buf a) 0 (a_map_len a).

(** ** Import *)
Definition char_bytes (p : list Z) (i : Z) : list Z := slice p (CACHE_HEADER + CACHE_CHAR * i) CACHE_CHAR.
Definition char_ok (p : list Z) (i : Z) : bool :=
  let q := char_bytes p i in
  negb ((cache_u16 q 0 =? 0) || (znth q 7 <? 1) || (3 <? znth q 7) || (1 <? znth q 10) ||
        (negb (znth q 10 =? 0) && (cache_u16 q 2 =? 0))) &&
  forallb (fun j => negb (cache_u16 q 0 =? cache_u16 (char_bytes p (Z.of_nat j)) 0)) (List.seq 0 (Z.to_nat i)).
Definition char_from (q : list Z) : report_char_t :=
  ReportChar (cache_u16 q 0) (cache_u16 q 2) (cache_u16 q 4) (znth q 6) (znth q 7) (znth q 8) (znth q 9)
    (negb (znth q 10 =? 0)).
Definition map_of (p : list Z) : list Z := drop (Z.to_nat (CACHE_HEADER + CACHE_CHAR * znth p 7)) p.
(** The checks before the adapter is touched. *)
Definition cache_well_formed (p : list Z) : bool :=
  let n := zlen p in
  negb ((n <? CACHE_HEADER) || negb (bool_decide (slice p 0 4 = cstr "GAC1")) || negb (cache_u16 p 4 =? n) ||
        negb (Z.land (znth p 6) (Z.lnot 15) =? 0) || (znth p 7 =? 0) || (RC003_MAX_REPORT_CHARS <? znth p 7) ||
        (1 <? znth p 39)) &&
  let ml := cache_u16 p 40 in
  negb ((HOGP_MAX_MAP_SIZE <? ml) || negb (n =? CACHE_HEADER + CACHE_CHAR * znth p 7 + ml)) &&
  let unicom := bool_decide (map_of p = unicom_map) in
  let xiaomi := is_rc003_map (map_of p) in
  negb (negb (Z.land (znth p 6) 3 =? if unicom then 1 else if xiaomi then 2 else 0) || (negb unicom && negb xiaomi)) &&
  forallb (fun i => char_ok p (Z.of_nat i)) (List.seq 0 (Z.to_nat (znth p 7))).
(** The adapter with the database of [p]. *)
Definition cache_fill (p : list Z) (a : adapter_t) : adapter_t :=
  let h := fun i => cache_u16 p (8 + 2 * i) in
  let flag := fun m => negb (Z.land (znth p 6) m =? 0) in
  let unicom := bool_decide (map_of p = unicom_map) in
  a <| a_boot_layout := is_rc003_map (map_of p) |> <| a_voice_key_verified := flag 4 |> <| a_atvv_present := flag 8 |>
    <| a_protocol_mode_handle := h 0 |> <| a_hid_info_handle := h 1 |> <| a_map_value_handle := h 2 |>
    <| a_bat_value_handle := h 3 |> <| a_bat_cccd_handle := h 4 |> <| a_atvv_tx_handle := h 5 |>
    <| a_atvv_ctl_handle := h 6 |> <| a_atvv_ctl_cccd := h 7 |> <| a_atvv_audio_handle := h 8 |>
    <| a_atvv_audio_cccd := h 9 |> <| a_service_changed_handle := h 10 |> <| a_service_changed_cccd := h 11 |>
    <| a_unicom ::= fun u => u <| u_selected := unicom |> <| u_fd := h 12 |> <| u_fd_cccd := h 13 |> |>
    <| a_hid_flags := znth p 38 |> <| a_hid_info_valid := negb (znth p 39 =? 0) |> <| a_char_count := znth p 7 |>
    <| a_map_len := cache_u16 p 40 |> <| a_map_buf ::= fun b => splice b 0 (map_of p) |>
    <| a_chars ::= fun cs => splice cs 0 (map (fun i => char_from (char_bytes p (Z.of_nat i)))
                                            (List.seq 0 (Z.to_nat (znth p 7)))) |>.
(** The last check, which also fills what the profile derives. *)
Definition cache_accept (map : list Z) (a : adapter_t) : bool * adapter_t :=
  let '(ok, a) :=
    if u_selected (a_unicom a) then
      if negb (u_fd (a_unicom a) =? 0) && negb (u_fd_cccd (a_unicom a) =? 0) then unicom_reports a else (false, a)
    else
      match hogp_report_map_parse map with
      | Some (Some m) =>
        (a_atvv_present a && negb (a_atvv_tx_handle a =? 0) && negb (a_atvv_ctl_handle a =? 0) &&
         negb (a_atvv_ctl_cccd a =? 0) && negb (a_atvv_audio_handle a =? 0) && negb (a_atvv_audio_cccd a =? 0),
         a <| a_map := m |>)
      | _ => (false, a)
      end in
  (ok && ((a_service_changed_handle a =? 0) || negb (a_service_changed_cccd a =? 0)), a).
Section cache.
Context {W : Type} `{H : Host W}.
Implicit Types s : adst W.

Definition rc003_adapter_cache_import (peer : Z) (p : list Z) s : bool * adst W :=
  if negb (bool_decide (a_state (ad s) = ST_IDLE)) || (peer =? 0) || negb (cache_well_formed p) then (false, s)
  else
    let s := rc003_adapter_init s in
    let '(ok, a) := cache_accept (map_of p) (cache_fill p (ad s)) in
    if negb ok then (false, rc003_adapter_init (s <| ad := a |>))
    else
      (true, s <| ad := a <| a_atvv ::= fun x => x <| profile_init_without_sync := is_rc003_map (map_of p) |> |>
                          <| a_cache_peer_id := peer |> <| a_cache_safe := true |> <| a_cache_valid := true |> |>).
End cache.

(** ** What was exported is imported *)
Record char_typed (c : report_char_t) : Prop := {
  ct_value : U16 (c_value_handle c); ct_cccd : U16 (c_cccd_handle c); ct_ref : U16 (c_ref_handle c) }.
(** The widths of the fields that are exported. *)
Record db_typed (a : adapter_t) : Prop := {
  dt_handles : Forall U16 (cache_handles a);
  dt_chars : Forall char_typed (a_chars a);
  dt_count : 0 <= a_char_count a /\ length (a_chars a) = 8%nat;
  dt_map : 0 <= a_map_len a /\ length (a_map_buf a) = 512%nat }.
Definition map_bytes (a : adapter_t) : list Z := slice (a_map_buf a) 0 (a_map_len a).
(** The database: everything a reconnection relies on. *)
Definition database (a : adapter_t) :=
  (cache_handles a, (a_hid_flags a, a_hid_info_valid a), live_chars a, map_bytes a,
   (u_selected (a_unicom a), a_boot_layout a, a_voice_key_verified a, a_atvv_present a)).

Definition char_usable (c : report_char_t) : bool :=
  negb (c_value_handle c =? 0) && (1 <=? c_report_type c) && (c_report_type c <=? 3) &&
  (negb (c_subscribed c) || negb (c_cccd_handle c =? 0)).
(** A database that can be used without a new discovery. *)
Definition usable_db (a : adapter_t) : bool :=
  let rc003 := is_rc003_map (map_bytes a) in
  let unicom := bool_decide (map_bytes a = unicom_map) in
  bool_decide (u_selected (a_unicom a) = unicom) && bool_decide (a_boot_layout a = rc003) && (unicom || rc003) &&
  forallb char_usable (live_chars a) && bool_decide (NoDup (map c_value_handle (live_chars a))) &&
  (if unicom then negb (u_fd (a_unicom a) =? 0) && negb (u_fd_cccd (a_unicom a) =? 0) && fst (unicom_reports a)
   else match hogp_report_map_parse (map_bytes a) with
        | Some (Some _) => a_atvv_present a && negb (a_atvv_tx_handle a =? 0) && negb (a_atvv_ctl_handle a =? 0) &&
            negb (a_atvv_ctl_cccd a =? 0) && negb (a_atvv_audio_handle a =? 0) && negb (a_atvv_audio_cccd a =? 0)
        | _ => false
        end) &&
  ((a_service_changed_handle a =? 0) || negb (a_service_changed_cccd a =? 0)).

(** Reads at constant positions. *)
Ltac at_constants :=
  unfold cache_u16, znth;
  repeat match goal with |- context [Z.to_nat ?n] => let m := eval vm_compute in (Z.to_nat n) in
    lazymatch m with context [Z.to_nat] => fail | _ => change (Z.to_nat n) with m end end;
  cbn -[u8 Z.shiftr h16 u16 cache_size].
Lemma h16_put v : U16 v -> h16 (u8 v) (u8 (Z.shiftr v 8)) = v.
Proof.
  intros Hv. unfold h16. rewrite lor_shiftl_add by (first [lia|apply u8_byte]). rewrite shiftr8_div. words.
Qed.
Lemma length_cache_char c : length (cache_char c) = 11%nat.
Proof. done. Qed.
Lemma concat_chars (cs : list report_char_t) : zlen (concat (map cache_char cs)) = 11 * zlen cs.
Proof.
  induction cs as [|c cs IH]; [done|]. cbn [map concat]. rewrite zlen_app, IH, zlen_cons.
  unfold zlen at 1. rewrite length_cache_char. lia.
Qed.
Lemma slice_concat_chars (cs : list report_char_t) t i : 0 <= i < zlen cs ->
  slice (concat (map cache_char cs) ++ t) (11 * i) 11 = cache_char (nth (Z.to_nat i) cs report_char0).
Proof.
  intros Hi. revert i Hi. induction cs as [|c cs IH]; intros i Hi; [unfold zlen in Hi; cbn in Hi; lia|].
  rewrite zlen_cons in Hi. cbn [map concat]. rewrite <- app_assoc. destruct (decide (i = 0)) as [->|Hn].
  - unfold slice. cbn. done.
  - replace (Z.to_nat i) with (S (Z.to_nat (i - 1))) by lia. cbn [nth]. rewrite <- (IH (i - 1)) by lia.
    unfold slice. rewrite drop_app_ge by (rewrite length_cache_char; lia). rewrite length_cache_char.
    do 2 f_equal. lia.
Qed.
Lemma char_from_cache c : char_typed c -> char_from (cache_char c) = c.
Proof.
  intros [H1 H2 H3]. unfold char_from. at_constants. rewrite !h16_put by done.
  destruct c as [? ? ? ? ? ? ? b]. by destruct b.
Qed.

Section roundtrip.
Context (a : adapter_t) (cap : Z).
Hypothesis Ht : db_typed a.
Hypothesis He : rc003_adapter_cache_export a cap <> [].
#[local] Abbreviation p := (rc003_adapter_cache_export a cap).
#[local] Abbreviation body := (concat (map cache_char (live_chars a)) ++ map_bytes a).

Lemma export_guards : 0 < a_char_count a <= 8 /\ a_map_len a <= 512 /\ p = cache_header a ++ body.
Proof.
  unfold rc003_adapter_cache_export in *. destruct (_ || (cap <? _)) eqn:E; [done|].
  destruct (dt_count a Ht). repeat (apply orb_false_iff in E as [E ?]).
  unfold RC003_MAX_REPORT_CHARS, HOGP_MAX_MAP_SIZE in *. split; [lia|]. split; [lia|done].
Qed.
Lemma zlen_live : zlen (live_chars a) = a_char_count a.
Proof.
  destruct export_guards as (Hc & _). destruct (dt_count a Ht) as [_ Hl]. unfold live_chars.
  rewrite zlen_slice by (unfold zlen; lia). unfold zlen. lia.
Qed.
Lemma zlen_map_bytes : zlen (map_bytes a) = a_map_len a.
Proof.
  destruct export_guards as (_ & Hm & _). destruct (dt_map a Ht) as [H0 Hl]. unfold map_bytes.
  rewrite zlen_slice by (unfold zlen; lia). unfold zlen. lia.
Qed.
Lemma zlen_p : zlen p = 48 + 11 * a_char_count a + a_map_len a.
Proof.
  destruct export_guards as (_ & _ & ->). rewrite !zlen_app, concat_chars, zlen_live, zlen_map_bytes.
  change (zlen (cache_header a)) with 48. lia.
Qed.
Lemma size_u16 : U16 (cache_size a) /\ U16 (a_map_len a).
Proof.
  destruct export_guards as (Hc & Hm & _). destruct (dt_map a Ht). unfold cache_size, CACHE_HEADER, CACHE_CHAR, U16. lia.
Qed.
Lemma znth_header o : 0 <= o < 48 -> znth p o = znth (cache_header a) o.
Proof.
  intros Ho. destruct export_guards as (_ & _ & ->). unfold znth. rewrite app_nth1; [done|].
  change (length (cache_header a)) with 48%nat. lia.
Qed.
Lemma map_of_p : map_of p = map_bytes a.
Proof.
  destruct export_guards as (Hc & _ & Ep). unfold map_of. rewrite znth_header by lia.
  change (znth (cache_header a) 7) with (a_char_count a). rewrite Ep.
  rewrite app_assoc, drop_app_ge; rewrite length_app; change (length (cache_header a)) with 48%nat;
    pose proof (concat_chars (live_chars a)) as Hz; rewrite zlen_live in Hz; unfold zlen, CACHE_HEADER, CACHE_CHAR in *; [|lia].
  replace (_ - _)%nat with 0%nat by lia. done.
Qed.
Lemma char_bytes_p i : 0 <= i < a_char_count a -> char_bytes p i = cache_char (nth (Z.to_nat i) (live_chars a) report_char0).
Proof.
  intros Hi. destruct export_guards as (Hc & _ & Ep). unfold char_bytes. rewrite Ep.
  rewrite <- (slice_concat_chars (live_chars a) (map_bytes a)) by (rewrite zlen_live; lia). unfold slice.
  unfold CACHE_HEADER, CACHE_CHAR. rewrite drop_app_ge; change (length (cache_header a)) with 48%nat; [|lia].
  do 2 f_equal. lia.
Qed.
Lemma live_typed : Forall char_typed (live_chars a).
Proof. apply slice_Forall, dt_chars, Ht. Qed.
Lemma live_nth (i : nat) : (i < Z.to_nat (a_char_count a))%nat ->
  live_chars a !! i = Some (nth i (live_chars a) report_char0) /\ char_typed (nth i (live_chars a) report_char0).
Proof.
  intros Hi. pose proof zlen_live as Hz. unfold zlen in Hz.
  destruct (lookup_lt_is_Some_2 (live_chars a) i ltac:(lia)) as [c Hc]. rewrite Hc.
  rewrite (nth_lookup_Some _ _ _ _ Hc). split; [done|]. pose proof live_typed as HF. rewrite Forall_lookup in HF. eauto.
Qed.
Lemma fields_p :
  (forall i, 0 <= i < 14 -> cache_u16 p (8 + 2 * i) = znth (cache_handles a) i) /\
  znth p 6 = cache_flags a /\ znth p 7 = a_char_count a /\ cache_u16 p 4 = cache_size a /\
  cache_u16 p 40 = a_map_len a /\ znth p 38 = a_hid_flags a /\ znth p 39 = bit_if (a_hid_info_valid a) 1.
Proof.
  destruct size_u16 as [Hs Hm]. split_and!; try (by rewrite znth_header by lia).
  - intros i Hi. pose proof (dt_handles a Ht) as Hh.
    assert (U16 (znth (cache_handles a) i)) as Hu.
    { rewrite Forall_lookup in Hh. destruct (lookup_lt_is_Some_2 (cache_handles a) (Z.to_nat i)) as [v Hv]; [cbn; lia|].
      unfold znth. rewrite (nth_lookup_Some _ _ _ _ Hv). eauto. }
    unfold cache_u16. rewrite !znth_header by lia.
    destruct (Z_of_nat_complete i) as [k ->]; [lia|].
    do 14 (destruct k as [|k]; [revert Hu; at_constants; by intros; apply h16_put|]). lia.
  - unfold cache_u16. rewrite !znth_header by lia. at_constants.
    rewrite u16_small by done. by apply h16_put.
  - unfold cache_u16. rewrite !znth_header by lia. at_constants. by apply h16_put.
Qed.
End roundtrip.

Lemma maps_differ m : m = unicom_map -> is_rc003_map m = false.
Proof. intros ->. vm_compute. reflexivity. Qed.
Lemma flags_check (sel boot key atvv : bool) :
  let f := Z.lor (Z.lor (Z.lor (bit_if sel 1) (bit_if boot 2)) (bit_if key 4)) (bit_if atvv 8) in
  Z.land f (Z.lnot 15) = 0 /\ Z.land f 3 = bit_if sel 1 + bit_if boot 2 /\
  negb (Z.land f 4 =? 0) = key /\ negb (Z.land f 8 =? 0) = atvv.
Proof. by destruct sel, boot, key, atvv. Qed.

(** *** The reports of the Unicom profile do not depend on the old handles *)
Lemma reports_scan_fst id cs : forall n u u', fst (reports_scan id cs n u) = fst (reports_scan id cs n u').
Proof.
  induction cs as [|c cs IH]; intros n u u'; cbn [reports_scan]; [done|]. split_if; [apply IH|]. split_if; [done|apply IH].
Qed.
Lemma reports_each_fst ids cs : forall u u', fst (reports_each ids cs u) = fst (reports_each ids cs u').
Proof.
  induction ids as [|id ids IH]; intros u u'; cbn [reports_each]; [done|].
  pose proof (reports_scan_fst id cs 0 u u') as E. destruct (reports_scan id cs 0 u) as [o v],
    (reports_scan id cs 0 u') as [o' v']. cbn in E. subst o'. destruct o; [|done]. split_if; [apply IH|done].
Qed.
Definition same_fd (u u' : unicom_t) : Prop :=
  u_selected u = u_selected u' /\ u_fd u = u_fd u' /\ u_fd_cccd u = u_fd_cccd u'.
Lemma note_handle_fd id c u : same_fd (note_handle id c u) u.
Proof. unfold note_handle. by repeat split_if. Qed.
Lemma reports_scan_fd id cs : forall n u, same_fd (snd (reports_scan id cs n u)) u.
Proof.
  induction cs as [|c cs IH]; intros n u; cbn [reports_scan]; [done|]. split_if; [apply IH|]. split_if; [done|].
  unfold same_fd. destruct (IH (n + 1) (note_handle id c u)) as (-> & -> & ->). apply note_handle_fd.
Qed.
Lemma reports_each_fd ids cs : forall u, same_fd (snd (reports_each ids cs u)) u.
Proof.
  induction ids as [|id ids IH]; intros u; cbn [reports_each]; [done|].
  pose proof (reports_scan_fd id cs 0 u) as E. destruct (reports_scan id cs 0 u) as [[n|] v]; [|exact E].
  split_if; [|exact E]. unfold same_fd. destruct (IH v) as (-> & -> & ->). exact E.
Qed.
Lemma cache_accept_db m a : database (snd (cache_accept m a)) = database a.
Proof.
  unfold cache_accept. destruct (u_selected (a_unicom a)) eqn:Es.
  - split_if; [|done]. unfold unicom_reports. split_if; [done|].
    pose proof (reports_each_fd unicom_ids (slice (a_chars a) 0 (a_char_count a)) (a_unicom a)) as Hf.
    destruct (reports_each _ _ _) as [ok u]. destruct Hf as (H1 & H2 & H3). cbn [snd] in *.
    unfold database, cache_handles, live_chars, map_bytes. cbn. by rewrite H1, H2, H3.
  - by destruct (hogp_report_map_parse m) as [[|]|].
Qed.
Lemma cache_accept_fst m a a' : database a = database a' -> a_char_count a = a_char_count a' ->
  fst (cache_accept m a) = fst (cache_accept m a').
Proof.
  intros [= D1 D2 D3 D4 D5 D6 D7 D8 D9 D10 D11 D12 D13 D14 _ _ Dl _ Ds _ _ Dp] Dc. unfold cache_accept.
  rewrite Ds, D13, D14. unfold unicom_reports, live_chars in *. rewrite Dc in Dl |- *. rewrite Dl.
  pose proof (reports_each_fst unicom_ids (slice (a_chars a') 0 (a_char_count a')) (a_unicom a) (a_unicom a')) as Hf.
  destruct (reports_each _ _ (a_unicom a)), (reports_each _ _ (a_unicom a')). cbn [fst] in Hf. subst b.
  clear Ds. destruct (u_selected (a_unicom a')); [repeat split_if|destruct (hogp_report_map_parse m) as [[|]|]]; cbn -[Z.eqb];
    rewrite ?Dp, ?D6, ?D7, ?D8, ?D9, ?D10, ?D11, ?D12; done.
Qed.


(** The database of a filled adapter, read off the bytes. *)
Lemma fill_database p : database (cache_fill p adapter0) =
  (map (fun i => cache_u16 p (8 + 2 * i)) [0; 1; 2; 3; 4; 5; 6; 7; 8; 9; 10; 11; 12; 13],
   (znth p 38, negb (znth p 39 =? 0)),
   slice (splice (replicate 8 report_char0) 0
     (map (fun i => char_from (char_bytes p (Z.of_nat i))) (List.seq 0 (Z.to_nat (znth p 7))))) 0 (znth p 7),
   slice (splice (replicate 512 0) 0 (map_of p)) 0 (cache_u16 p 40),
   (bool_decide (map_of p = unicom_map), is_rc003_map (map_of p), negb (Z.land (znth p 6) 4 =? 0),
    negb (Z.land (znth p 6) 8 =? 0))).
Proof. reflexivity. Qed.
Lemma fill_fields p : a_char_count (cache_fill p adapter0) = znth p 7 /\
  u_selected (a_unicom (cache_fill p adapter0)) = bool_decide (map_of p = unicom_map).
Proof. done. Qed.

Section roundtrip.
Context (a : adapter_t) (cap : Z).
Hypothesis Ht : db_typed a.
Hypothesis He : rc003_adapter_cache_export a cap <> [].
#[local] Abbreviation p := (rc003_adapter_cache_export a cap).
#[local] Abbreviation chr i := (nth i (live_chars a) report_char0).

Lemma chars_p : map (fun i => char_from (char_bytes p (Z.of_nat i))) (List.seq 0 (Z.to_nat (a_char_count a))) = live_chars a.
Proof.
  destruct (export_guards a cap Ht He) as (Hc & _). pose proof (zlen_live a cap Ht He) as Hz. unfold zlen in Hz.
  apply list_eq. intros i. rewrite list_lookup_fmap. destruct (decide (i < Z.to_nat (a_char_count a))%nat) as [Hi|Hi].
  - rewrite lookup_seq_lt by done. cbn. destruct (live_nth a cap Ht He i Hi) as [-> Htc].
    rewrite (char_bytes_p a cap Ht He) by lia. rewrite Nat2Z.id. f_equal. by apply char_from_cache.
  - rewrite lookup_seq_ge by lia. symmetry. apply lookup_ge_None. lia.
Qed.
Lemma fill_db : a_char_count (cache_fill p adapter0) = a_char_count a /\
  u_selected (a_unicom (cache_fill p adapter0)) = bool_decide (map_bytes a = unicom_map) /\
  (u_selected (a_unicom a) = bool_decide (map_bytes a = unicom_map) -> a_boot_layout a = is_rc003_map (map_bytes a) ->
   database (cache_fill p adapter0) = database a).
Proof.
  destruct (fields_p a cap Ht He) as (Hh & H6 & H7 & _ & H40 & H38 & H39). pose proof (map_of_p a cap Ht He) as Hmap.
  destruct (fill_fields p) as [-> ->]. rewrite Hmap. split; [exact H7|]. split; [done|]. intros Hs Hb.
  pose proof (flags_check (u_selected (a_unicom a)) (a_boot_layout a) (a_voice_key_verified a) (a_atvv_present a)) as (_ & _ & F4 & F8).
  fold (cache_flags a) in F4, F8. rewrite fill_database. cbn [map]. rewrite !Hh by lia.
  rewrite H6, H7, H40, H38, H39, F4, F8, Hmap, chars_p, <- Hs, <- Hb.
  rewrite !slice_splice_front by (rewrite ?(zlen_live a cap Ht He), ?(zlen_map_bytes a cap Ht He); done).
  unfold database. by destruct (a_hid_info_valid a).
Qed.
End roundtrip.

Lemma and_iff_both (A B C D : Prop) : (A <-> B) -> (C <-> D) -> (A /\ C <-> B /\ D).
Proof. tauto. Qed.

Section roundtrip.
Context (a : adapter_t) (cap : Z).
Hypothesis Ht : db_typed a.
Hypothesis He : rc003_adapter_cache_export a cap <> [].
#[local] Abbreviation p := (rc003_adapter_cache_export a cap).
#[local] Abbreviation chr i := (nth i (live_chars a) report_char0).

Lemma char_ok_p (i : nat) : (i < Z.to_nat (a_char_count a))%nat ->
  char_ok p (Z.of_nat i) = true <->
  char_usable (chr i) = true /\ forall j, (j < i)%nat -> c_value_handle (chr i) <> c_value_handle (chr j).
Proof.
  intros Hi. destruct (live_nth a cap Ht He i Hi) as [_ [T1 T2 T3]].
  unfold char_ok. rewrite (char_bytes_p a cap Ht He) by lia. rewrite Nat2Z.id, andb_true_iff, forallb_forall.
  assert (forall c, char_typed c -> cache_u16 (cache_char c) 0 = c_value_handle c /\
    cache_u16 (cache_char c) 2 = c_cccd_handle c) as Hu.
  { intros c [V1 V2 V3]. at_constants. by rewrite !h16_put. }
  destruct (Hu (chr i)) as [E1 E2]; [done|]. rewrite E1, E2.
  change (znth (cache_char (chr i)) 7) with (c_report_type (chr i)).
  change (znth (cache_char (chr i)) 10) with (bit_if (c_subscribed (chr i)) 1). unfold char_usable.
  apply and_iff_both.
  - destruct (c_subscribed (chr i)); cbn [bit_if negb orb]; lia.
  - split; intros Hx j Hj.
    + specialize (Hx j). rewrite in_seq in Hx. specialize (Hx ltac:(lia)). rewrite (char_bytes_p a cap Ht He) in Hx by lia.
      rewrite Nat2Z.id in Hx. destruct (live_nth a cap Ht He j ltac:(lia)) as [_ Tj].
      destruct (Hu _ Tj) as [E3 _]. rewrite E3 in Hx. apply negb_true_iff in Hx. lia.
    + apply in_seq in Hj. rewrite (char_bytes_p a cap Ht He) by lia. rewrite Nat2Z.id.
      destruct (live_nth a cap Ht He j ltac:(lia)) as [_ Tj]. destruct (Hu _ Tj) as [E3 _]. rewrite E3.
      specialize (Hx j ltac:(lia)). apply negb_true_iff. lia.
Qed.
Lemma chars_ok_p : forallb (fun i => char_ok p (Z.of_nat i)) (List.seq 0 (Z.to_nat (a_char_count a))) =
  forallb char_usable (live_chars a) && bool_decide (NoDup (map c_value_handle (live_chars a))).
Proof.
  pose proof (zlen_live a cap Ht He) as Hz. unfold zlen in Hz. apply eq_bool_prop_intro.
  rewrite andb_True, bool_decide_spec, !Is_true_true, !forallb_forall. split.
  - intros Hx. assert (forall i, (i < Z.to_nat (a_char_count a))%nat -> char_usable (chr i) = true /\
      forall j, (j < i)%nat -> c_value_handle (chr i) <> c_value_handle (chr j)) as Hy.
    { intros i Hi. apply char_ok_p; [done|]. apply Hx, in_seq. lia. }
    split.
    + intros c Hc. apply (In_nth _ _ report_char0) in Hc as (i & Hi & <-). apply Hy. lia.
    + apply NoDup_alt. intros i j h Hi Hj. rewrite list_lookup_fmap in Hi, Hj.
      destruct (live_chars a !! i) as [ci|] eqn:Ei; [|done]. destruct (live_chars a !! j) as [cj|] eqn:Ej; [|done].
      cbn in Hi, Hj. injection Hi as <-. injection Hj as Hj.
      pose proof (lookup_lt_Some _ _ _ Ei). pose proof (lookup_lt_Some _ _ _ Ej).
      pose proof (nth_lookup_Some _ _ report_char0 _ Ei) as Ni. pose proof (nth_lookup_Some _ _ report_char0 _ Ej) as Nj.
      destruct (Nat.lt_trichotomy i j) as [Hl|[->|Hl]]; [|done|]; exfalso.
      * destruct (Hy j ltac:(lia)) as [_ Hd]. apply (Hd i Hl). rewrite Ni, Nj. done.
      * destruct (Hy i ltac:(lia)) as [_ Hd]. apply (Hd j Hl). rewrite Ni, Nj. done.
  - intros [Hu Hn] i Hi. apply in_seq in Hi. apply char_ok_p; [lia|].
    destruct (live_nth a cap Ht He i ltac:(lia)) as [Li _]. split; [apply Hu, nth_In; lia|].
    intros j Hj E. destruct (live_nth a cap Ht He j ltac:(lia)) as [Lj _].
    enough (i = j) by lia. apply (proj1 (NoDup_alt _) Hn i j (c_value_handle (chr i)));
      rewrite list_lookup_fmap, ?Li, ?Lj; cbn; congruence.
Qed.
Lemma well_formed_p : cache_well_formed p = bool_decide (u_selected (a_unicom a) = bool_decide (map_bytes a = unicom_map)) &&
  bool_decide (a_boot_layout a = is_rc003_map (map_bytes a)) &&
  (bool_decide (map_bytes a = unicom_map) || is_rc003_map (map_bytes a)) &&
  forallb char_usable (live_chars a) && bool_decide (NoDup (map c_value_handle (live_chars a))).
Proof.
  destruct (export_guards a cap Ht He) as (Hc & Hm & Ep).
  destruct (fields_p a cap Ht He) as (_ & H6 & H7 & H4 & H40 & _ & H39). unfold cache_well_formed.
  rewrite (map_of_p a cap Ht He), H6, H7, H4, H40, H39, chars_ok_p, (zlen_p a cap Ht He).
  assert (slice p 0 4 = cstr "GAC1") as -> by by rewrite Ep.
  pose proof (flags_check (u_selected (a_unicom a)) (a_boot_layout a) (a_voice_key_verified a) (a_atvv_present a)) as (F15 & F3 & _).
  fold (cache_flags a) in F15, F3. rewrite F15, F3. destruct (dt_map a Ht) as [Hm0 _].
  replace (_ <? CACHE_HEADER) with false by (unfold CACHE_HEADER; lia).
  replace (cache_size a =? _) with true by (unfold cache_size, CACHE_HEADER, CACHE_CHAR; lia).
  replace (a_char_count a =? 0) with false by lia.
  replace (RC003_MAX_REPORT_CHARS <? a_char_count a) with false by (unfold RC003_MAX_REPORT_CHARS; lia).
  replace (1 <? bit_if (a_hid_info_valid a) 1) with false by by destruct (a_hid_info_valid a).
  replace (HOGP_MAX_MAP_SIZE <? a_map_len a) with false by (unfold HOGP_MAX_MAP_SIZE; lia).
  replace (_ =? CACHE_HEADER + _ + _) with true by (unfold CACHE_HEADER, CACHE_CHAR; lia).
  rewrite bool_decide_eq_true_2 by done. cbn [negb orb andb Z.eqb].
  pose proof (maps_differ (map_bytes a)) as Hd.
  destruct (bool_decide (map_bytes a = unicom_map)) eqn:Eu.
  - apply bool_decide_eq_true in Eu. rewrite (Hd Eu). by destruct (u_selected (a_unicom a)), (a_boot_layout a).
  - by destruct (is_rc003_map (map_bytes a)), (u_selected (a_unicom a)), (a_boot_layout a).
Qed.
End roundtrip.

(** What an adapter exports, an idle adapter imports, if the database is usable. *)
Lemma cache_roundtrip {W} `{H : Host W} a cap peer (s : adst W) :
  db_typed a -> rc003_adapter_cache_export a cap <> [] -> a_state (ad s) = ST_IDLE -> peer <> 0 ->
  let '(ok, s') := rc003_adapter_cache_import peer (rc003_adapter_cache_export a cap) s in
  ok = usable_db a /\
  (ok = true -> database (ad s') = database a /\ a_cache_peer_id (ad s') = peer /\ a_cache_valid (ad s') = true).
Proof.
  intros Ht He Hs Hp. set (p := rc003_adapter_cache_export a cap).
  unfold rc003_adapter_cache_import. rewrite Hs, bool_decide_eq_true_2 by done. cbn [negb orb].
  replace (peer =? 0) with false by lia. cbn [orb]. unfold usable_db. cbv zeta.
  rewrite <- !andb_assoc. rewrite !andb_assoc. rewrite <- (well_formed_p a cap Ht He). fold p.
  destruct (cache_well_formed p) eqn:Ew; cbn [negb andb]; [|done].
  unfold p in Ew. rewrite (well_formed_p a cap Ht He) in Ew.
  repeat (apply andb_true_iff in Ew as [Ew ?]). apply bool_decide_eq_true in Ew.
  match goal with Hb : bool_decide (a_boot_layout a = _) = true |- _ => apply bool_decide_eq_true in Hb end.
  destruct (fill_db a cap Ht He) as (Fc & _ & Fd). specialize (Fd Ew ltac:(done)). fold p in Fc, Fd.
  pose proof (cache_accept_fst (map_bytes a) _ _ Fd Fc) as Ef.
  pose proof (cache_accept_db (map_bytes a) (cache_fill p adapter0)) as Ed. rewrite Fd in Ed.
  unfold p at 1. rewrite (map_of_p a cap Ht He). fold p.
  change (ad (rc003_adapter_init s)) with adapter0.
  destruct (cache_accept (map_bytes a) (cache_fill p adapter0)) as [ok a']. cbn [fst snd] in *.
  assert (ok = (if bool_decide (map_bytes a = unicom_map)
    then negb (u_fd (a_unicom a) =? 0) && negb (u_fd_cccd (a_unicom a) =? 0) && (unicom_reports a).1
    else match hogp_report_map_parse (map_bytes a) with
         | Some (Some _) => a_atvv_present a && negb (a_atvv_tx_handle a =? 0) && negb (a_atvv_ctl_handle a =? 0) &&
             negb (a_atvv_ctl_cccd a =? 0) && negb (a_atvv_audio_handle a =? 0) && negb (a_atvv_audio_cccd a =? 0)
         | _ => false
         end) && ((a_service_changed_handle a =? 0) || negb (a_service_changed_cccd a =? 0))) as Eok.
  { rewrite Ef. unfold cache_accept. rewrite Ew. destruct (bool_decide _).
    - destruct (negb (u_fd _ =? 0) && _); [|done]. unfold unicom_reports. split_if; [done|].
      by destruct (reports_each _ _ _).
    - by destruct (hogp_report_map_parse _) as [[|]|]. }
  destruct ok; cbn [negb]; [|by split; [exact Eok|]]. split; [exact Eok|]. intros _.
  split; [|done]. exact Ed.
Qed.
