(* ===== verification/AdapterProps.v ===== *)
(** * The adapter: memory safety, voice protocol, termination

    Invariants of [Adapter] and [Unicom] over every sequence of GATT events,
    ticks and calls, for every GATT client and every server that does not drop
    the link while it is told of keys, voice or a change of state ([HostOk]); it
    does so when the adapter failed. *)
From Stdlib Require Import String.
From S2P Require Import Prelude Defs Crc32c Cobs Frame DeviceModel ServerState ServerLink Server Hogp Ima Gatt Atvv AdapterState Unicom Adapter AdapterCache.
#[local] Open Scope string_scope.
#[local] Open Scope list_scope.
#[local] Open Scope Z_scope.

(** The calls the adapter makes while the link is up. *)
Definition quiet_call (c : api) : bool :=
  match c with AVoice _ _ | AVoiceState _ _ _ | ALink _ _ _ | ABattery _ _ | ASetProfile _ => true | _ => false end.
Definition calm_call (c : api) : bool := match c with AKeys _ => true | _ => quiet_call c end.
Class HostOk W (H : Host W) : Prop :=
  detach_only c w : calm_call c = true -> Detach ∉ fst (served c w).

(** A fact about the world that the adapter cannot break: of the keys it holds,
    of what crossed the interfaces, and of the world, kept by everything the
    adapter does to them. *)
Class WorldInv W (H : Host W) := {
  known : Z -> list act -> W -> Prop;
  known_gop b l w o rc w' : gatt_client o w = (rc, w') -> known b l w -> known b (l ++ [Submitted_op o rc]) w';
  known_served b l w c : quiet_call c = true \/ (exists m, c = AAdapterFailed m) -> known b l w ->
    known b (l ++ [Served c]) (snd (served c w));
  known_keys b l w bits now : known b l w ->
    known bits (l ++ [Served (AKeys (keys_report bits now))]) (snd (served (AKeys (keys_report bits now)) w));
  known_caps b l w c : known b l w -> known b (l ++ [Served (AVoiceCaps (Some c))]) (set_voice_caps c w);
  known_unlink b l w : known b l w -> known 0 (l ++ [Unlinked]) w }.
Definition world_ok {W} `{H : Host W} `{!WorldInv W H} (s : adst W) : Prop := known (a_pressed_bits (ad s)) (acts s) (wd s).

(** ** The invariant *)
Definition per_char (st : state_t) : bool := one_of [ST_DISC_DESCS; ST_READ_REPORT_REF; ST_SUBSCRIBE_REPORT] st.
(** Every buffer has its size and every index is inside of its buffer; in the
    states that work on one report, that report exists.  The handles have 16
    bits. *)
Record adapter_ok (a : adapter_t) : Prop := {
  ok_chars : length (a_chars a) = 8%nat;
  ok_keys : length (a_keys_by_report a) = 8%nat;
  ok_buf : length (a_map_buf a) = 512%nat;
  ok_count : 0 <= a_char_count a <= RC003_MAX_REPORT_CHARS;
  ok_map_len : 0 <= a_map_len a <= HOGP_MAX_MAP_SIZE;
  ok_cur : 0 <= a_cur_char a /\ (per_char (a_state a) = true -> a_cur_char a < a_char_count a);
  ok_body : length (u_body (a_unicom a)) = 48%nat /\ length (u_preroll (a_unicom a)) = 320%nat;
  ok_part : 0 <= u_part (a_unicom a) <= 2;
  ok_ring : 0 <= u_pre_head (a_unicom a) < 8 /\ 0 <= u_pre_count (a_unicom a) <= 8;
  ok_handles : Forall U16 (cache_handles a);
  ok_typed : Forall char_typed (a_chars a) }.

Lemma adapter0_ok : adapter_ok adapter0.
Proof. split; cbn; try done; by repeat constructor. Qed.

(** An update: what the invariant says of fields that stay the same is kept. *)
Ltac ok_frame :=
  lazymatch goal with
  | H : adapter_ok _ |- adapter_ok _ =>
    destruct H as [Hk1 Hk2 Hk3 Hk4 Hk5 Hk6 Hk7 Hk8 Hk9 Hk10 Hk11];
    split; [try exact Hk1|try exact Hk2|try exact Hk3|try exact Hk4|try exact Hk5|try exact Hk6|
      try exact Hk7|try exact Hk8|try exact Hk9|try exact Hk10|try exact Hk11]
  end.

(** *** The engine and the callbacks *)
Section wiring.
Context {W : Type} `{H : Host W} `{Hok : !HostOk W H}.
Implicit Types s : adst W.

Lemma view_unview (x : engine (adst W)) : view (unview x) = Engine (eng x) (unview x) (events x).
Proof. done. Qed.
(** What a callback does to the engine: [s'] is what it leaves of [s]. *)
Definition engine_reacts (e : sink_event) s s' : Prop :=
  forall y, reacts e (view s') y -> reacts e (view s) y.
Lemma engine_reacts_refl e s : engine_reacts e s s.
Proof. by intros y. Qed.
Lemma engine_reacts_trans e s1 s2 s3 :
  engine_reacts e s1 s2 -> engine_reacts e s2 s3 -> engine_reacts e s1 s3.
Proof. intros H12 H23 y Hy. by apply H12, H23. Qed.
Lemma engine_reacts_calm e s s' :
  a_atvv (ad s') = a_atvv (ad s) -> evs s' = evs s -> engine_reacts e s s'.
Proof. intros Ha He y Hy. apply (reacts_outside e (view s) s'). cbn. by rewrite <- Ha, <- He. Qed.
Lemma engine_reacts_obey e s s' (r : Atvv.request) :
  view s' = view (unview (obey (view s) r)) -> engine_reacts e s s'.
Proof.
  intros E y Hy. apply (reacts_request e _ r). rewrite E, view_unview in Hy. by eapply reacts_outside.
Qed.
Lemma engine_reacts_stop e s : engine_reacts e s (snd (rc003_adapter_mic_stop s)).
Proof.
  unfold rc003_adapter_mic_stop. split_if.
  - apply engine_reacts_calm; unfold unicom_stop; by split_if.
  - split_if; [apply engine_reacts_refl|]. apply (engine_reacts_obey e s _ Stop). unfold with_engine. cbn [obey].
    by destruct (rc003_atvv_request_stop (view s)).
Qed.
Lemma engine_reacts_detach e s : e <> On_source_begin -> engine_reacts e s (rc003_adapter_detach s).
Proof.
  intros He y Hy. assert (exists b, a_atvv (ad (rc003_adapter_detach s)) =
    rc003_atvv_init <| profile_init_without_sync := b |> /\ evs (rc003_adapter_detach s) = evs s ++ [Detached]) as (b & Ea & Ee).
  { unfold rc003_adapter_detach. destruct (a_cache_valid (ad s)).
    - exists (a_boot_layout (ad s)). unfold keep_cache. cbn. by destruct (u_selected (a_unicom (ad s))).
    - by exists false. }
  apply (reacts_detach e _ b _ He), (reacts_outside e _ (rc003_adapter_detach s)). cbn [detach eng events view].
  rewrite <- Ea, <- Ee. exact Hy.
Qed.
Lemma engine_reacts_serve e c s : e <> On_source_begin \/ calm_call c = true ->
  engine_reacts e s (serve c s).
Proof.
  intros Hc. unfold serve. destruct (served c (wd s)) as [rs w] eqn:E.
  assert (Detach ∈ rs -> e <> On_source_begin) as Hd.
  { intros Hd. destruct Hc as [Hc|Hc]; [done|]. exfalso. apply (detach_only c (wd s) Hc). by rewrite E. }
  eapply (engine_reacts_trans _ _ (s <| wd := w |> <| acts := acts s ++ [Served c] |>)); [by apply engine_reacts_calm|].
  clear E. revert Hd. generalize (s <| wd := w |> <| acts := acts s ++ [Served c] |>). induction rs as [|r rs IH]; intros s' Hd; cbn [fold_left].
  - apply engine_reacts_refl.
  - eapply engine_reacts_trans; [|apply IH; set_solver]. destruct r; cbn [carry_out].
    + apply engine_reacts_stop.
    + apply engine_reacts_detach, Hd. set_solver.
Qed.
#[export] Instance adapter_wired : Wired (adst W) adapter_tx adapter_sink.
Proof.
  split; [done..|]. intros e x. cbn [react adapter_sink].
  assert (engine_reacts e (unview x) (atvv_callback e (unview x))) as Hr.
  { destruct e; cbn [atvv_callback]; unfold on_voice; try apply engine_reacts_refl;
      try (apply engine_reacts_serve; by right).
    split_if; [|apply engine_reacts_serve; by right]. unfold fail_transport, fail_init.
    eapply engine_reacts_trans; [|apply engine_reacts_serve; by left]. by apply engine_reacts_calm. }
  specialize (Hr _ (reacts_done e _)). rewrite view_unview in Hr. by eapply reacts_outside.
Qed.
End wiring.

(** ** What every operation keeps

    [good D q]: safe, the discovery ends at [D], and the state satisfies [q].
    [out D q]: as before, or failed, or detached.  An operation that cannot fail
    keeps [good D q], one that can leads to [out D q], and one that starts the
    next procedure to [out D any].  During a callback the engine is in use, and
    [I] is then no condition on it. *)
Definition any : state_t -> Prop := fun _ => True.
Definition dead (st : state_t) : Prop := one_of [ST_IDLE; ST_FAILED] st = true.
Definition engine_inv : Type := rc003_atvv_t -> list sink_event -> Prop.
Definition safeI {W} `{H : Host W} `{!WorldInv W H} (I : engine_inv) (s : adst W) : Prop :=
  adapter_ok (ad s) /\ I (a_atvv (ad s)) (evs s) /\ world_ok s.
Definition goodI {W} `{H : Host W} `{!WorldInv W H} (I : engine_inv) (D : Z) (q : state_t -> Prop) (s : adst W) : Prop :=
  safeI I s /\ a_init_deadline_ms (ad s) = D /\ q (a_state (ad s)).
Definition outI {W} `{H : Host W} `{!WorldInv W H} (I : engine_inv) (D : Z) (q : state_t -> Prop) (s : adst W) : Prop :=
  safeI I s /\ ((a_init_deadline_ms (ad s) = D /\ q (a_state (ad s))) \/ dead (a_state (ad s))).
Abbreviation safe := (safeI inv).
Abbreviation good := (goodI inv).
Abbreviation out := (outI inv).
Definition in_use : engine_inv := fun _ _ => True.
Class Kept (I : engine_inv) : Prop := {
  kept_stop W (H : Host W) (x : engine (adst W)) : I (eng x) (events x) ->
    I (eng (snd (rc003_atvv_request_stop x))) (events (snd (rc003_atvv_request_stop x)));
  kept_detach a es b : I a es -> I (rc003_atvv_init <| profile_init_without_sync := b |>) (es ++ [Detached]) }.
#[export] Instance in_use_kept : Kept in_use.
Proof. done. Qed.
#[export] Instance inv_kept : Kept inv.
Proof.
  split; [intros W Hh x; apply inv_request_stop|]. intros a es b Hi. exact (inv_detach b (Engine a tt es) Hi).
Qed.
Create HintDb adapter.

Section primitives.
Context {W : Type} `{H : Host W} `{Hok : !HostOk W H} `{WI : !WorldInv W H} (I : engine_inv) `{!Kept I} (D : Z) (q : state_t -> Prop).
Implicit Types s : adst W.

Lemma good_out s : goodI I D q s -> outI I D q s.
Proof. intros (Hs & Hd & Hq). split; [done|]. by left. Qed.
Lemma good_any s : goodI I D q s -> goodI I D any s.
Proof. by intros (Hs & Hd & Hq). Qed.
Lemma out_any s : outI I D q s -> outI I D any s.
Proof. intros (Hs & [(Hd & _)|Hi]); (split; [done|]); [by left|by right]. Qed.
Lemma out_good s : outI I D q s -> ~ dead (a_state (ad s)) -> goodI I D q s.
Proof. by intros (Hs & [(Hd & Hq)|Hi]) Hn. Qed.
Lemma good_self s : safeI I s -> goodI I (a_init_deadline_ms (ad s)) (eq (a_state (ad s))) s.
Proof. done. Qed.
Lemma out_self s s' : outI I D q s -> goodI I (a_init_deadline_ms (ad s)) (eq (a_state (ad s))) s' -> outI I D q s'.
Proof. intros (_ & Hc) (Hs & E1 & E2). split; [done|]. by rewrite E1, <- E2. Qed.

(** Updates that keep state, deadline and engine. *)
Lemma good_on_ad f s : goodI I D q s ->
  (adapter_ok (ad s) -> adapter_ok (f (ad s))) ->
  a_atvv (f (ad s)) = a_atvv (ad s) -> a_init_deadline_ms (f (ad s)) = a_init_deadline_ms (ad s) ->
  a_state (f (ad s)) = a_state (ad s) -> a_pressed_bits (f (ad s)) = a_pressed_bits (ad s) -> goodI I D q (on_ad f s).
Proof.
  intros ((Ha & Hi & Hw) & Hd & Hq) Hf E1 E2 E3 E4. unfold world_ok in Hw. rewrite <- E4 in Hw.
  split; [split; [|split]|split]; cbn; [by apply Hf|by rewrite E1|exact Hw|congruence|by rewrite E3].
Qed.
Lemma good_gop o s : goodI I D q s -> goodI I D q (snd (gop o s)).
Proof.
  intros ((Ha & Hi & Hw) & Hd & Hq). unfold gop. destruct (gatt_client o (wd s)) as [rc w] eqn:E.
  by split; [split; [|split; [|exact (known_gop _ _ _ _ _ _ E Hw)]]|].
Qed.

Lemma unview_good (x : engine (adst W)) : adapter_ok (ad (outside x)) -> a_init_deadline_ms (ad (outside x)) = D ->
  q (a_state (ad (outside x))) -> I (eng x) (events x) -> world_ok (outside x) -> goodI I D q (unview x).
Proof. intros Ha Hd Hq Hi Hw. split; [split|done]; [|done]. cbn. by ok_frame. Qed.

(** A request to the engine only writes. *)
Lemma write_kept cmd s : goodI I D q s -> goodI I D q (snd (write_tx cmd s)).
Proof.
  intros Hg. cbn. unfold atvv_write_tx. split_if; [done|].
  match goal with |- context [gop ?o s] => pose proof (good_gop o s Hg); by destruct (gop o s) end.
Qed.
Lemma outside_good (f : engine (adst W) -> bool * engine (adst W)) s :
  (forall x, I (eng x) (events x) -> I (eng (snd (f x))) (events (snd (f x)))) ->
  (forall P : adst W -> Prop, (forall cmd w, P w -> P (snd (write_tx cmd w))) ->
     forall x, P (outside x) -> P (outside (snd (f x)))) ->
  goodI I D q s -> goodI I D q (snd (with_engine f s)).
Proof.
  intros Hf Hk Hg. unfold with_engine. pose proof Hg as ((Ha & Hi & Hw) & Hd & Hq).
  specialize (Hf (view s) Hi). pose proof (Hk (goodI I D q) write_kept (view s) Hg) as Ho.
  destruct (f (view s)) as [r x]. cbn [snd] in *. destruct Ho as ((Ha' & _ & Hw') & Hd' & Hq'). by apply unview_good.
Qed.
Lemma good_atvv_stop s : goodI I D q s -> goodI I D q (snd (with_engine rc003_atvv_request_stop s)).
Proof.
  apply outside_good; [apply kept_stop|]. intros P Hw x Hx. by apply request_stop_kept.
Qed.

(** *** Calls of the server *)
Lemma good_unicom_stop s : goodI I D q s -> goodI I D q (unicom_stop s).
Proof.
  intros Hg. unfold unicom_stop. split_if; [done|]. apply good_on_ad; try done. intros Ha.
  destruct (u_announced (a_unicom (ad s))); ok_frame; cbn; lia.
Qed.
Lemma good_mic_stop s : goodI I D q s -> goodI I D q (snd (rc003_adapter_mic_stop s)).
Proof.
  intros Hg. unfold rc003_adapter_mic_stop. split_if; [by apply good_unicom_stop|]. split_if; [done|].
  by apply good_atvv_stop.
Qed.
Lemma good_carry rs : forall s, Detach ∉ rs -> goodI I D q s -> goodI I D q (fold_left carry_out rs s).
Proof.
  induction rs as [|r rs IH]; intros s Hd Hg; cbn [fold_left]; [done|].
  apply IH; [set_solver|]. destruct r; [by apply good_mic_stop|set_solver].
Qed.
Lemma good_serve c s : quiet_call c = true -> goodI I D q s -> goodI I D q (serve c s).
Proof.
  intros Hc ((Ha & Hi & Hw) & Hd & Hq). unfold serve.
  pose proof (detach_only c (wd s) ltac:(by destruct c)) as Hn. pose proof (known_served _ _ _ c (or_introl Hc) Hw) as Hw'.
  destruct (served c (wd s)) as [rs w]. apply good_carry; [done|]. by split; [split; [|split]|].
Qed.
Lemma good_set_pressed b s : goodI I D q s -> goodI I D q (set_pressed b s).
Proof.
  intros ((Ha & Hi & Hw) & Hd & Hq). unfold set_pressed. split_if; [done|]. unfold key_state_send.
  change (a_now_ms (ad (on_ad _ s))) with (a_now_ms (ad s)). set (c := AKeys _). unfold serve. pose proof (detach_only c (wd s) eq_refl) as Hn.
  pose proof (known_keys _ _ _ b (a_now_ms (ad s)) Hw) as Hw'. fold c in Hw'.
  destruct (served c (wd (on_ad (fun a => a <| a_pressed_bits := b |>) s))) as [rs w] eqn:Es.
  change (wd (on_ad _ s)) with (wd s) in Es. rewrite Es in Hn, Hw'. apply good_carry; [done|].
  split; [split; [|split; [done|exact Hw']]|done]. cbn. by ok_frame.
Qed.
Lemma good_on_voice e s : goodI I D q s -> goodI I D q (on_voice e s).
Proof. by apply good_serve. Qed.
Lemma good_tell_caps c s : goodI I D q s -> goodI I D q (tell_caps c s).
Proof. intros ((Ha & Hi & Hw) & Hd & Hq). by split; [split; [|split; [|apply known_caps, Hw]]|]. Qed.
End primitives.
#[export] Hint Resolve good_out good_atvv_stop good_mic_stop good_unicom_stop good_on_voice good_set_pressed good_tell_caps good_gop : adapter.

(** *** Detaching and failing *)
Section failing.
Context {W : Type} `{H : Host W} `{Hok : !HostOk W H} `{WI : !WorldInv W H} (I : engine_inv) `{!Kept I} (D : Z) (q : state_t -> Prop).
Implicit Types s : adst W.

Lemma keep_cache_ok a : adapter_ok a -> adapter_ok (keep_cache a).
Proof. intros Ha. unfold keep_cache. split_if; ok_frame; cbn; try done; try lia; by split; [apply Hk6|]. Qed.
Lemma safe_init s : safeI I s -> safeI I (rc003_adapter_init s).
Proof.
  intros (_ & Hi & Hw). split; [exact adapter0_ok|]. split; [exact (kept_detach _ _ false Hi)|].
  exact (known_caps _ _ _ _ (known_unlink _ _ _ Hw)).
Qed.
Lemma detach_safe s : safeI I s -> safeI I (rc003_adapter_detach s) /\ a_state (ad (rc003_adapter_detach s)) = ST_IDLE.
Proof.
  intros Hs. unfold rc003_adapter_detach. split_if; [|by split; [apply safe_init|]].
  destruct Hs as (Ha & Hi & Hw). apply (kept_detach _ _ (a_boot_layout (ad s))) in Hi. apply known_unlink in Hw.
  split; [split; [by apply keep_cache_ok|split]|]; cbn; unfold world_ok, keep_cache; cbn;
    by destruct (u_selected (a_unicom (ad s))).
Qed.
Lemma out_carry rs : forall s, dead (a_state (ad s)) -> safeI I s -> outI I D q (fold_left carry_out rs s).
Proof.
  induction rs as [|r rs IH]; intros s' Hd Hs; cbn [fold_left]; [by split; [|right]|].
  destruct r; cbn [carry_out].
  - pose proof (good_mic_stop I _ _ _ (good_self I s' Hs)) as (Hs' & _ & E). unfold dead in Hd. rewrite E in Hd. by apply IH.
  - destruct (detach_safe s' Hs) as [Hs' E]. apply IH; [by rewrite E|done].
Qed.
Lemma out_failed m s : dead (a_state (ad s)) -> safeI I s -> outI I D q (serve (AAdapterFailed m) s).
Proof.
  intros Hd (Ha & Hi & Hw). unfold serve.
  pose proof (known_served _ _ _ (AAdapterFailed m) (or_intror (ex_intro _ m eq_refl)) Hw) as Hw'.
  destruct (served _ (wd s)) as [rs w]. by apply out_carry.
Qed.
Lemma out_fail_init c b s : safeI I s -> outI I D q (fail_init c b s).
Proof.
  intros (Ha & Hi & Hw). unfold fail_init. apply out_failed; [by destruct b|].
  split; [|split; [by destruct b|unfold world_ok; by destruct b]]. destruct b; ok_frame; cbn; split; try done; by destruct Hk6.
Qed.
Lemma out_refuse_setup m s : safeI I s -> outI I D q (refuse_setup m s).
Proof. intros (Ha & Hi & Hw). apply out_failed; [done|]. split; [|done]. cbn. ok_frame. cbn. by destruct Hk6. Qed.
End failing.

(** *** The engine's operations, with the callbacks they make *)
#[local] Hint Extern 0 (Kept _) => exact inv_kept : core.
Section engine_ops.
Context {W : Type} `{H : Host W} `{Hok : !HostOk W H} `{WI : !WorldInv W H} (D : Z) (q : state_t -> Prop).
Implicit Types s : adst W.

Lemma callback_out I `{!Kept I} e s : outI I D q s -> outI I D q (atvv_callback e s).
Proof.
  intros Ho. pose proof Ho as (Hs & _). pose proof (good_self I s Hs) as Hg.
  destruct e; cbn [atvv_callback]; try done; try (by apply (out_self _ _ _ s), good_on_voice).
  split_if; [by apply out_fail_init|]. by apply (out_self _ _ _ s), good_on_voice.
Qed.
Lemma engine_out f s :
  (forall x : engine (adst W), inv (eng x) (events x) -> inv (eng (snd (f x))) (events (snd (f x)))) ->
  (forall P : adst W -> Prop, (forall cmd w, P w -> P (snd (write_tx cmd w))) ->
     (forall g w, want_voice = Some g -> P w -> P (snd (g w))) ->
     (forall e x, P (outside x) -> P (outside (react e x))) ->
     forall x, P (outside x) -> P (outside (snd (f x)))) ->
  out D q s -> out D q (snd (with_engine f s)).
Proof.
  intros Hf Hk ((Ha & Hi & Hwo) & Hc). unfold with_engine. specialize (Hf (view s) Hi).
  assert (outI in_use D q (outside (snd (f (view s))))) as ((Ha' & _ & Hw') & Hc').
  { apply Hk; [| | |by split; [split|]].
    - intros cmd w Hw. apply (out_self _ _ _ w); [done|]. apply write_kept, good_self. by destruct Hw.
    - intros g w [= <-] Hw. exact Hw.
    - intros e x Hx. apply callback_out; [apply in_use_kept|]. destruct Hx as ((Hx & _ & Hxw) & Hx'). split; [split; [|done]|done].
      cbn. by ok_frame. }
  destruct (f (view s)) as [r x]. cbn [snd] in *. split; [split; [|done]|done]. cbn. by ok_frame.
Qed.
Lemma out_control d s : Bytes d -> out D q s -> out D q (snd (with_engine (rc003_atvv_on_control d) s)).
Proof.
  intros Hd. apply engine_out; [intros x; by apply inv_control|]. intros P H1 H2 H3 x. by apply control_kept.
Qed.
Lemma out_audio d s : out D q s -> out D q (snd (with_engine (fun x => (true, rc003_atvv_on_audio d x)) s)).
Proof.
  apply engine_out; [intros x; by apply inv_audio|]. intros P H1 H2 H3 x. by apply audio_kept.
Qed.
Lemma out_atvv_tick now s : out D q s -> out D q (snd (with_engine (rc003_atvv_tick now) s)).
Proof.
  apply engine_out; [intros x; by apply inv_tick|]. intros P H1 H2 H3 x. by apply tick_kept.
Qed.
Lemma good_atvv_start s : good D q s -> good D q (atvv_start s).
Proof.
  apply outside_good; [apply inv_request_start|]. intros P Hw x Hx. apply request_start_kept; [done| |done].
  intros f w [= <-] Hp. exact Hp.
Qed.
Lemma good_stop s : good D q s -> good D q (atvv_stop s).
Proof. apply good_atvv_stop, inv_kept. Qed.
End engine_ops.
#[export] Hint Resolve inv_kept good_atvv_start good_stop good_any out_any out_fail_init out_refuse_setup : adapter.

(** Updates of fields the invariant does not mention, or keeps by arithmetic. *)
Ltac frame_ad :=
  apply good_on_ad; [|let Ha := fresh "Ha" in intros Ha; ok_frame; cbn in *; try done;
    unfold RC003_MAX_REPORT_CHARS, HOGP_MAX_MAP_SIZE in *; try lia|try done..].
Ltac adapt := repeat first [progress (eauto 3 with adapter)|split_if|frame_ad].

(** ** Keys *)
Section keys.
Context {W : Type} `{H : Host W} `{Hok : !HostOk W H} `{WI : !WorldInv W H} (D : Z) (q : state_t -> Prop).
Implicit Types s : adst W.

Lemma good_voice_hold b s : good D q s -> good D q (voice_hold b s).
Proof. intros Hg. unfold voice_hold. adapt. Qed.
Lemma good_recompute_keys s : good D q s -> good D q (recompute_keys s).
Proof.
  intros Hg. unfold recompute_keys. apply good_set_pressed; [apply _|]. frame_ad.
  match goal with |- context [voice_hold ?b ?x] => assert (good D q (voice_hold b x)) as Hh end.
  { apply good_voice_hold. split_if; [by frame_ad|done]. }
  split_if; [by frame_ad|]. split_if; [|done]. apply good_serve; [apply _|done..|]. by frame_ad.
Qed.
End keys.
#[export] Hint Resolve good_recompute_keys : adapter.

(** ** The Unicom profile *)
(** What a capture that was announced keeps while the server is called. *)
Definition ring_of {W} (s : adst W) :=
  let u := a_unicom (ad s) in (u_announced u, u_pre_head u, u_pre_count u, u_preroll u).
Section ring.
Context {W : Type} `{H : Host W} `{Hok : !HostOk W H} `{WI : !WorldInv W H}.
Implicit Types s : adst W.

Lemma engine_unicom s : a_unicom (ad (snd (with_engine rc003_atvv_request_stop s))) = a_unicom (ad s).
Proof.
  unfold with_engine. pose proof (request_stop_kept (fun w => a_unicom (ad w) = a_unicom (ad s))) as Hk.
  assert (forall (cmd : list Z) w, a_unicom (ad w) = a_unicom (ad s) -> a_unicom (ad (snd (write_tx cmd w))) = a_unicom (ad s)) as Hw.
  { intros cmd w Hw. cbn. unfold atvv_write_tx. split_if; [done|]. unfold gop. by destruct (gatt_client _ _). }
  specialize (Hk Hw (view s) eq_refl). by destruct (rc003_atvv_request_stop (view s)).
Qed.
Lemma mic_stop_ring s : u_announced (a_unicom (ad s)) = true -> ring_of (snd (rc003_adapter_mic_stop s)) = ring_of s.
Proof.
  intros Ha. unfold rc003_adapter_mic_stop. split_if.
  - cbn [snd]. unfold unicom_stop. split_if; [done|]. unfold ring_of. cbn. by rewrite Ha; cbn; rewrite ?Ha.
  - split_if; [done|]. unfold ring_of. by rewrite engine_unicom.
Qed.
Lemma serve_ring c s : quiet_call c = true -> u_announced (a_unicom (ad s)) = true ->
  ring_of (serve c s) = ring_of s.
Proof.
  intros Hc Ha. unfold serve. destruct (served c (wd s)) as [rs w] eqn:E.
  assert (Detach ∉ rs) as Hd.
  { pose proof (detach_only c (wd s) ltac:(by destruct c)) as Hd. by rewrite E in Hd. }
  change (ring_of s) with (ring_of (s <| wd := w |> <| acts := acts s ++ [Served c] |>)).
  assert (u_announced (a_unicom (ad (s <| wd := w |> <| acts := acts s ++ [Served c] |>))) = true) as Ha' by done.
  clear E Ha. revert Ha'. generalize (s <| wd := w |> <| acts := acts s ++ [Served c] |>).
  induction rs as [|r rs IH]; intros s' Ha; cbn [fold_left]; [done|]. destruct r; [|set_solver].
  pose proof (mic_stop_ring s' Ha) as Er. cbn [carry_out]. rewrite IH; [done|set_solver|].
  by injection Er as ->.
Qed.
Lemma announce_ring s : let s' := announce s in
  ring_of s' = (true, u_pre_head (a_unicom (ad s)), u_pre_count (a_unicom (ad s)), u_preroll (a_unicom (ad s))).
Proof.
  unfold announce. split_if; [unfold ring_of; by rewrite E|]. unfold on_voice. by rewrite serve_ring.
Qed.
Lemma start_once_ring s : u_announced (a_unicom (ad s)) = true -> ring_of (start_once s) = ring_of s.
Proof. intros Ha. unfold start_once. split_if; [done|]. unfold on_voice. by rewrite serve_ring. Qed.
Lemma emit_ring p s s' : unicom_emit p s = (true, s') ->
  ring_of s' = (true, u_pre_head (a_unicom (ad s)), u_pre_count (a_unicom (ad s)), u_preroll (a_unicom (ad s))).
Proof.
  unfold unicom_emit. split_if; [done|]. split_if; [done|]. intros [= <-].
  pose proof (announce_ring s) as Hr. cbv zeta in Hr.
  assert (u_announced (a_unicom (ad (announce s))) = true) as Ha by (by injection Hr as ->).
  pose proof (start_once_ring _ Ha) as Hr2. unfold on_voice. rewrite serve_ring; [by rewrite Hr2, Hr|done|].
  rewrite Hr in Hr2. by injection Hr2 as ->.
Qed.
Lemma emit_false p s s' : unicom_emit p s = (false, s') -> s' = s.
Proof. unfold unicom_emit. repeat split_if; intros [=]; done. Qed.
End ring.

Section unicom_ops.
Context {W : Type} `{H : Host W} `{Hok : !HostOk W H} `{WI : !WorldInv W H} (D : Z) (q : state_t -> Prop).
Implicit Types s : adst W.

Lemma good_end r s : good D q (on_u end_capture s) -> good D q (unicom_end r s).
Proof. intros Hg. unfold unicom_end. split_if; [by apply good_on_voice|done]. Qed.
Lemma good_end_capture s : good D q s -> good D q (on_u end_capture s).
Proof. intros Hg. by frame_ad. Qed.
#[local] Hint Resolve good_end good_end_capture : adapter.
Lemma out_bad m s : good D q (on_u end_capture s) -> out D q (unicom_bad m s).
Proof. intros Hg. apply (good_end RBP_END_SOURCE_DATA_LOST) in Hg. apply out_fail_init; [apply _|apply Hg]. Qed.
Lemma out_stream_fault m s : good D q s -> out D q (unicom_stream_fault m s).
Proof.
  intros Hg. apply good_end_capture, (good_end RBP_END_SOURCE_DATA_LOST) in Hg. apply out_fail_init; [apply _|apply Hg].
Qed.
#[local] Hint Resolve out_bad out_stream_fault : adapter.

Lemma good_ready s : good D any s -> good D (eq ST_DONE) (unicom_ready s).
Proof.
  intros ((Ha & Hi) & Hd & _). unfold unicom_ready. apply good_serve; [apply _|done..|]. apply good_serve; [apply _|done..|].
  apply good_tell_caps. apply good_serve; [apply _|done..|].
  split; [split|split]; [|done..]. cbn. ok_frame. split; [apply Hk6|done].
Qed.
Lemma good_start_pending s : good D q s -> good D q (unicom_start_pending s).
Proof.
  intros Hg. unfold unicom_start_pending. split_if; [done|]. split_if; [by frame_ad|].
  match goal with |- context [on_u ?f s] => assert (good D q (on_u f s)) as Hu by (by frame_ad) end.
  split_if; [by apply good_on_voice|done].
Qed.
Lemma good_announce s : good D q s -> good D q (announce s).
Proof. intros Hg. unfold announce. split_if; [done|]. apply good_on_voice; [apply _|]. by frame_ad. Qed.
Lemma good_start_once s : good D q s -> good D q (start_once s).
Proof. intros Hg. unfold start_once. split_if; [done|]. apply good_on_voice; [apply _|]. by frame_ad. Qed.
Lemma good_emit p s : good D q s -> good D q (snd (unicom_emit p s)).
Proof.
  intros Hg. unfold unicom_emit. split_if; [done|]. split_if; [done|].
  by apply good_on_voice, good_start_once, good_announce; [apply _|].
Qed.
Lemma good_cancel r s : good D q s -> good D q (unicom_preroll_cancel r s).
Proof. intros Hg. apply good_unicom_stop. by frame_ad. Qed.
#[local] Hint Resolve good_start_pending good_announce good_cancel : adapter.

Lemma good_tick_active s : good D q s -> good D q (tick_active s).
Proof.
  intros Hg. unfold tick_active. split_if; [|done].
  assert (good D q (tick_fence s)) as H1 by (unfold tick_fence; adapt).
  assert (good D q (tick_announce (tick_fence s))) as H2.
  { unfold tick_announce. split_if; [|done]. apply good_on_voice; [apply _|]. by frame_ad. }
  assert (good D q (tick_preroll (tick_announce (tick_fence s)))) as H3 by (unfold tick_preroll; adapt).
  revert H3. generalize (tick_preroll (tick_announce (tick_fence s))). intros s' H3. unfold tick_drain.
  split_if; [done|]. match goal with |- context [unicom_emit ?p ?x] => pose proof (good_emit p x H3) as He;
    destruct (unicom_emit p x) as [sent s2] eqn:Es end. destruct sent; [|by apply emit_false in Es as ->].
  apply emit_ring in Es. injection Es as _ Eh Ec _. destruct H3 as ((Ha & _) & _). destruct (ok_ring _ Ha) as [Hh Hc].
  frame_ad; [done|]. rewrite Eh, Ec. pose proof (Z.mod_pos_bound (u_pre_head (a_unicom (ad s')) + 1) 8). words.
Qed.
Lemma out_command s : good D q s -> out D q (send_unicom_command s).
Proof.
  intros Hg. unfold send_unicom_command. split_if; [by apply good_out|].
  match goal with |- context [gop ?o (on_u ?f s)] => assert (good D q (on_u f s)) as Hu by (by frame_ad);
    pose proof (good_gop inv D q o _ Hu) as Hv; destruct (gop o (on_u f s)) as [rc s2] end. cbn [snd] in Hv.
  split_if; [apply good_out; by frame_ad|]. split_if; [apply out_stream_fault; by frame_ad|].
  split_if; apply good_out; [by frame_ad|done].
Qed.
Lemma out_tick_commands s : good D q s -> out D q (tick_commands s).
Proof.
  intros Hg. unfold tick_commands. split_if; [by apply out_stream_fault|].
  split_if; [split_if; [by apply out_stream_fault|by apply good_out]|].
  split_if; [by apply good_out, good_end, good_end_capture|]. split_if; [by apply out_stream_fault|].
  apply out_command. split_if; [by frame_ad|done].
Qed.
Lemma good_unicom_keys i p s : 0 <= i < 8 -> good D q s -> out D q (unicom_keys i p s).
Proof.
  intros Hi Hg. unfold unicom_keys. split_if; [by apply out_bad, good_end_capture|].
  split_if; [by apply out_bad, good_end_capture|]. apply good_out, good_set_pressed; [apply _|].
  generalize (usage_bits (c_report_id (nth (Z.to_nat i) (a_chars (ad s)) report_char0)) p). intros b. frame_ad; [done|].
  by rewrite length_insert.
Qed.
Lemma good_voice_key v s : good D q s -> out D q (on_voice_key v s).
Proof.
  intros Hg. unfold on_voice_key. split_if; [by apply out_bad, good_end_capture|].
  match goal with |- context [on_u ?f s] => assert (good D q (on_u f s)) as Hu by (by frame_ad);
    revert Hu; generalize (on_u f s); intros s' Hu end. apply good_out.
  split_if; [apply good_unicom_stop; by frame_ad|]. apply good_start_pending. split_if; [by frame_ad|done].
Qed.
Lemma body_length (p : list Z) : length p = 48%nat -> zlen (slice p 0 40) = 40.
Proof. intros Hl. apply zlen_slice; unfold zlen; lia. Qed.
Lemma good_enqueue p s : length p = 48%nat -> u_pre_count (a_unicom (ad s)) <> 8 -> good D q s ->
  good D q (on_u (enqueue p) s).
Proof.
  intros Hb Hn ((Ha & Hi) & Hd & Hq). split; [split|done]; [|done]. cbn. ok_frame; cbn.
  - destruct Hk7 as [Hk7 Hp]. split; [done|]. set (l := u_preroll (a_unicom (ad s))) in *.
    set (i := u_pre_head (a_unicom (ad s)) + _). pose proof (Z.mod_pos_bound i 8 ltac:(lia)).
    enough (zlen (splice l (40 * (i mod 8)) (slice p 0 40)) = zlen l) by (unfold zlen in *; lia).
    apply zlen_splice; [lia|]. rewrite body_length by done. unfold zlen. lia.
  - destruct Hk9 as [Hh Hc]. split; [done|]. words.
Qed.
(** A whole unit is in [body], and [part] is three. *)
Lemma out_unit_received n s : good D q (on_u (fun u => u <| u_part := 0 |>) s) -> out D q (unit_received n s).
Proof.
  intros Hg. assert (good D q (on_u end_capture s)) as Hend.
  { destruct Hg as ((Ha & Hi) & Hd & Hq). split; [split|done]; [|done]. cbn in *. by ok_frame. }
  unfold unit_received. split_if; [by apply out_bad|].
  match goal with |- context [on_u ?f s] => assert (good D q (on_u f s)) as Hu end.
  { destruct Hg as ((Ha & Hi) & Hd & Hq). split; [split|done]; [|done]. cbn in *. by ok_frame. }
  match goal with |- context [on_u ?f s] => revert Hu; set (s1 := on_u f s) end. intros Hu.
  assert (length (u_body (a_unicom (ad s))) = 48%nat) as Hb by (destruct Hg as ((Ha & _) & _); apply (ok_body _ Ha)).
  clear E. generalize dependent (u_body (a_unicom (ad s))). intros p Hb. clearbody s1. cbv zeta.
  split_if; [by apply good_out|]. split_if; [by apply good_out, good_cancel|].
  assert (out D q
    (if u_announced (a_unicom (ad s1)) && negb (voice_wanted (wd s1)) then unicom_stop s1
     else if u_pre_count (a_unicom (ad s1)) =? 8 then
        if u_announced (a_unicom (ad s1)) then unicom_stream_fault "Unicom buffered audio overrun" s1
        else unicom_preroll_cancel RBP_END_BUFFER_OVERRUN s1
     else on_u (enqueue p) s1)) as Hq.
  { split_if; [by apply good_out, good_unicom_stop|].
    split_if; [split_if; [by apply out_stream_fault|by apply good_out, good_cancel]|].
    apply good_out, good_enqueue; [done|lia|done]. }
  destruct (u_pre_count (a_unicom (ad s1)) =? 0); [|done].
  pose proof (good_emit p s1 Hu) as He. destruct (unicom_emit p s1) as [sent s2] eqn:Es. destruct sent; [by apply good_out|].
  by apply emit_false in Es as ->.
Qed.
End unicom_ops.

Section unicom_events.
Context {W : Type} `{H : Host W} `{Hok : !HostOk W H} `{WI : !WorldInv W H} (D : Z).
Implicit Types s : adst W.

(** A part of a unit; [part] becomes three only before the unit is consumed. *)
Lemma good_part now seq part p n s : good D any s -> 0 <= part <= 2 -> zlen p = 20 -> 0 <= n <= 2 ->
  good D any (on_u (fun u => add_part now seq part p u <| u_part := n |>) s).
Proof.
  intros ((Ha & Hi) & Hd & Hq) Hp Hz Hn. split; [split|done]; [|done]. destruct (ok_body _ Ha) as [Hb _].
  assert (length (splice (u_body (a_unicom (ad s))) (16 * part) (slice p 4 16)) = 48%nat) as Hl.
  { enough (zlen (splice (u_body (a_unicom (ad s))) (16 * part) (slice p 4 16)) = zlen (u_body (a_unicom (ad s))))
      by (unfold zlen in *; lia).
    apply zlen_splice; [lia|]. rewrite zlen_slice by lia. unfold zlen. lia. }
  cbn -[splice slice]. unfold add_part. destruct (part =? 0); ok_frame; cbn -[splice slice]; try lia; by split; [|apply Hk7].
Qed.
Lemma out_fc p s : good D any s -> out D any (on_fc p s).
Proof.
  intros Hg. unfold on_fc. split_if; [by apply good_out|]. split_if; [by apply out_bad, good_end_capture|].
  cbv zeta. split_if; [by apply out_stream_fault|]. set (part := h16 (znth p 2) (znth p 3)) in *.
  set (seq := h16 (znth p 0) (znth p 1)) in *. clearbody part seq.
  pose proof (ok_part _ (proj1 (proj1 Hg))) as Hp.
  assert (part = u_part (a_unicom (ad s)) /\ 0 <= part <= 2 /\ zlen p = 20) as (Ep & Hr & Hz) by lia.
  pose proof (fun n => good_part (a_now_ms (ad s)) seq part p n s Hg Hr Hz) as Hpart. split_if.
  - apply good_out. specialize (Hpart (u8 (u_part (a_unicom (ad s)) + 1)) ltac:(words)).
    revert Hpart. unfold add_part. destruct (part =? 0); exact id.
  - apply out_unit_received. exact (Hpart 0 ltac:(lia)).
Qed.
Lemma out_hello v s : good D any s -> out D any (on_hello v s).
Proof.
  intros Hg. unfold on_hello. split_if; [by apply out_bad, good_end_capture|].
  match goal with |- context [on_u ?f s] => assert (good D any (on_u f s)) as Hu by (by frame_ad);
    revert Hu; generalize (on_u f s); intros s' Hu end.
  split_if; apply good_out; [|done]. eapply good_any, good_ready, Hu.
Qed.
Lemma find_char_lt cs h : forall i j, find_char cs h i = Some j -> i <= j < i + zlen cs.
Proof.
  induction cs as [|c cs IH]; intros i j; cbn [find_char]; [done|]. rewrite zlen_cons. pose proof (zlen_nonneg cs).
  split_if; [intros [= ->]; lia|]. intros Hj. apply IH in Hj. lia.
Qed.
Lemma char_of_lt a h j : adapter_ok a -> char_of a h = Some j -> 0 <= j < 8 /\ j < a_char_count a.
Proof.
  intros Ha Hj. apply find_char_lt in Hj. pose proof (ok_count _ Ha) as Hc. pose proof (ok_chars _ Ha) as Hl.
  unfold RC003_MAX_REPORT_CHARS in Hc. rewrite zlen_slice in Hj by (unfold zlen; lia). lia.
Qed.
Lemma out_unicom_notify h v s : good D any s -> out D any (unicom_notify h v s).
Proof.
  intros Hg. unfold unicom_notify. pose proof Hg as ((Ha & _) & _). split_if; [by apply out_bad, good_end_capture|].
  split_if; [by apply out_hello|]. split_if; [by apply good_voice_key|]. split_if; [by apply good_out|].
  split_if; [by apply out_fc|]. destruct (char_of (ad s) h) as [i|] eqn:Ei.
  - apply char_of_lt in Ei as [Hi _]; [|done]. split_if; [by apply good_unicom_keys|].
    split_if; [by apply out_bad, good_end_capture|by apply good_out].
  - apply good_out. split_if; [by apply good_serve|done].
Qed.
Lemma out_unicom_tick s : good D any s -> out D any (unicom_tick s).
Proof.
  intros Hg. unfold unicom_tick. split_if; [split_if; apply good_out; [eapply good_any, good_ready, Hg|done]|].
  split_if; [by apply good_out|]. by apply out_tick_commands, good_tick_active, good_start_pending.
Qed.
Lemma done_unicom_tick s : good D (eq ST_DONE) s -> out D (eq ST_DONE) (unicom_tick s).
Proof.
  intros Hg. unfold unicom_tick. pose proof Hg as (_ & _ & Hd). rewrite <- Hd.
  rewrite bool_decide_eq_false_2 by done. split_if; [by apply good_out|]. by apply out_tick_commands, good_tick_active, good_start_pending.
Qed.
End unicom_events.

(** ** Procedures *)
(** Everything the invariant mentions but the state. *)
Definition core (a : adapter_t) :=
  (a_chars a, a_keys_by_report a, a_map_buf a, a_char_count a, a_map_len a, a_cur_char a, a_unicom a, cache_handles a).
Definition idle (a : adapter_t) : adapter_t := a <| a_state := ST_IDLE |>.
Lemma ok_idle a : adapter_ok a -> adapter_ok (idle a).
Proof. intros Ha. unfold idle. ok_frame. split; [apply Hk6|done]. Qed.
Lemma ok_core a a' : adapter_ok (idle a) -> core a' = core a ->
  (per_char (a_state a') = true -> a_cur_char a < a_char_count a) -> adapter_ok a'.
Proof.
  intros [Hk1 Hk2 Hk3 Hk4 Hk5 Hk6 Hk7 Hk8 Hk9 Hk10 Hk11] E Hp. cbn in *. unfold core in E.
  assert (a_chars a' = a_chars a) as E1 by congruence. assert (a_keys_by_report a' = a_keys_by_report a) as E2 by congruence.
  assert (a_map_buf a' = a_map_buf a) as E3 by congruence. assert (a_char_count a' = a_char_count a) as E4 by congruence.
  assert (a_map_len a' = a_map_len a) as E5 by congruence. assert (a_cur_char a' = a_cur_char a) as E6 by congruence.
  assert (a_unicom a' = a_unicom a) as E7 by congruence. assert (cache_handles a' = cache_handles a) as E8 by congruence.
  clear E. split; rewrite ?E1, ?E2, ?E3, ?E4, ?E5, ?E6, ?E7, ?E8; try done. by split; [apply Hk6|].
Qed.

Section procedures.
Context {W : Type} `{H : Host W} `{Hok : !HostOk W H} `{WI : !WorldInv W H} (D : Z).
Implicit Types s : adst W.

(** [good] before the state is set. *)
Definition nearly s : Prop :=
  adapter_ok (idle (ad s)) /\ inv (a_atvv (ad s)) (evs s) /\ world_ok s /\ a_init_deadline_ms (ad s) = D.
Lemma good_nearly q s : good D q s -> nearly s.
Proof. intros ((Ha & Hi & Hw) & Hd & _). split; [by apply ok_idle|done]. Qed.
Lemma start_op_fields st now s : let a' := ad (start_op st now s) in
  core a' = core (ad s) /\ a_atvv a' = a_atvv (ad s) /\ a_init_deadline_ms a' = a_init_deadline_ms (ad s) /\
  a_pressed_bits a' = a_pressed_bits (ad s) /\
  (per_char (a_state a') = true -> a_state a' = st).
Proof.
  unfold start_op. cbv zeta. cbn [on_ad ad]. unfold on_ad. cbn -[one_of core bool_decide].
  destruct (one_of _ st), (one_of _ st); cbn -[one_of core bool_decide];
    destruct (bool_decide (st = ST_FIND_ATVV_SVC) && _) eqn:Es; cbn -[one_of core bool_decide];
    repeat split_if; try done.
Qed.
Lemma good_start_op st now s : nearly s -> (per_char st = true -> a_cur_char (ad s) < a_char_count (ad s)) ->
  good D any (start_op st now s).
Proof.
  intros (Ha & Hi & Hw & Hd) Hp. destruct (start_op_fields st now s) as (E1 & E2 & E3 & E5 & E4). cbv zeta in *.
  unfold world_ok in Hw. rewrite <- E5 in Hw. split; [split; [|split; [|exact Hw]]|split]; [|by rewrite E2|congruence|done].
  apply (ok_core (ad s)); [done..|]. intros Hc. apply Hp. by rewrite <- (E4 Hc).
Qed.
End procedures.

(** The handles after one of them was set. *)
Ltac handles :=
  match goal with Hk : Forall U16 _ |- _ =>
    unfold cache_handles in Hk |- *; cbn in Hk |- *; rewrite !List.Forall_cons_iff in Hk; rewrite !List.Forall_cons_iff;
    decompose [and] Hk; repeat split; first [assumption|words]
  end.
Section rounds.
Context {W : Type} `{H : Host W} `{Hok : !HostOk W H} `{WI : !WorldInv W H} (D : Z).
Implicit Types s : adst W.

(** A round of [begin_next]: another one follows, or it has ended. *)
Definition round (r : option Z * adst W) : Prop :=
  match fst r with Some _ => good D any (snd r) | None => out D any (snd r) end.
Lemma good_keys_usable v s : good D any s -> good D any (keys_usable v s).
Proof.
  intros ((Ha & Hi) & Hd & _). unfold keys_usable. apply good_serve; [done..|]. apply good_serve; [done..|].
  split; [split|done]; [|done]. cbn. ok_frame. split; [apply Hk6|done].
Qed.
Lemma good_finish_voice_ready s : good D any s -> good D any (finish_voice_ready s).
Proof.
  intros Hg. unfold finish_voice_ready. split_if; [done|].
  match goal with |- context [on_ad (fun a => a <| a_voice_ready := true |> <| a_state := ST_DONE |> <| a_ready := true |>
    <| a_retry := false |>) s] => set (s1 := on_ad _ s) end.
  assert (good D any s1) as H1.
  { destruct Hg as ((Ha & Hi) & Hd & _). split; [split|done]; [|done]. cbn. ok_frame. split; [apply Hk6|done]. }
  clearbody s1. match goal with |- context [serve ?c s1] => assert (good D any (serve c s1)) as H2 by (by apply good_serve);
    revert H2; generalize (serve c s1) end. intros s2 H2.
  match goal with |- context [serve ?c s2] => assert (good D any (serve c s2)) as H3 by (by apply good_serve);
    revert H3; generalize (serve c s2) end. intros s3 H3.
  split_if; [apply good_atvv_start; frame_ad|]; by frame_ad.
Qed.
Lemma failure_round s : good D any s -> round (failure_once s).
Proof.
  intros Hg. unfold failure_once. split_if; [by apply out_fail_init, Hg|].
  destruct (a_state (ad s)); unfold round; cbn [fst snd];
    first [ by apply out_fail_init, Hg | by apply good_out, good_keys_usable | idtac ].
  all: apply good_start_op; [|done]; eapply good_nearly with (q := any); frame_ad; [done|]; handles.
Qed.
End rounds.

Section begin.
Context {W : Type} `{H : Host W} `{Hok : !HostOk W H} `{WI : !WorldInv W H} (D : Z).
Implicit Types s : adst W.

Lemma submit_round now st rc s : good D any s -> round D (after_submit now st rc s).
Proof.
  intros Hg. unfold after_submit. split_if; [by apply good_out|]. split_if; [apply good_out; by frame_ad|].
  match goal with |- context [on_ad ?f s] => assert (good D any (on_ad f s)) as Hu end.
  { apply good_on_ad; [done| |by split_if..]. intros Ha. split_if; by ok_frame. }
  split_if; [by apply failure_round|by apply good_out].
Qed.
Lemma op_round now o s : good D any s -> round D (submit_op now o s).
Proof.
  intros Hg. unfold submit_op. pose proof (good_gop inv D any o s Hg). destruct (gop o s) as [rc s']. by apply submit_round.
Qed.
Lemma ok_on_char f a : (forall c, char_typed c -> char_typed (f c)) -> adapter_ok a -> adapter_ok (on_char f a).
Proof.
  intros Hf Ha. unfold on_char. ok_frame; cbn; [by rewrite length_alter|]. apply Forall_alter; [done|]. intros c _. apply Hf.
Qed.
Lemma good_on_char f s : (forall c, char_typed c -> char_typed (f c)) -> good D any s -> good D any (on_ad (on_char f) s).
Proof. intros Hf Hg. apply good_on_ad; [done| |done..]. by apply ok_on_char. Qed.
Lemma next_round now st s : good D any s -> (per_char st = true -> a_cur_char (ad s) < a_char_count (ad s)) ->
  round D (Some now, start_op st now s).
Proof. intros Hg Hp. apply good_start_op; [by eapply good_nearly|done]. Qed.
Lemma desc_round now s : good D any s -> round D (begin_desc now s).
Proof.
  intros Hg. unfold begin_desc. split_if; [by apply op_round|].
  match goal with |- context [on_ad (on_char ?f) s] => assert (good D any (on_ad (on_char f) s)) as Hu
    by (apply good_on_char; [|done]; intros c [Hc1 Hc2 Hc3]; split; cbn; [done|words..]) end.
  split_if; [|by apply next_round]. apply next_round; [by frame_ad|cbn; lia].
Qed.
Lemma subscribe_round now s : good D any s -> round D (begin_subscribe now s).
Proof.
  intros Hg. unfold begin_subscribe. split_if; [|by apply op_round]. cbv zeta.
  apply good_start_op; [|cbn; split_if; [done|intros _; lia]].
  apply good_nearly in Hg as (Ha & Hi & Hw & Hd). split; [|done]. unfold idle in *. cbn. ok_frame. cbn in *. split; [lia|done].
Qed.
Lemma reports_each_ring ids cs : forall u, let u' := snd (reports_each ids cs u) in
  u_body u' = u_body u /\ u_preroll u' = u_preroll u /\ u_part u' = u_part u /\ u_pre_head u' = u_pre_head u /\
  u_pre_count u' = u_pre_count u.
Proof.
  assert (forall id cs n u, let u' := snd (reports_scan id cs n u) in
    u_body u' = u_body u /\ u_preroll u' = u_preroll u /\ u_part u' = u_part u /\ u_pre_head u' = u_pre_head u /\
    u_pre_count u' = u_pre_count u) as Hs.
  { intros id cs'. induction cs' as [|c cs' IH]; intros n u; cbn [reports_scan]; [done|]. split_if; [apply IH|].
    split_if; [done|]. specialize (IH (n + 1) (note_handle id c u)). revert IH. cbv zeta.
    destruct (reports_scan id cs' (n + 1) _) as [o u']. cbn [snd]. unfold note_handle. by repeat split_if. }
  induction ids as [|id ids IH]; intros u; cbn [reports_each]; [done|]. specialize (Hs id cs 0 u).
  destruct (reports_scan id cs 0 u) as [[n|] u1]; [|exact Hs]. split_if; [|exact Hs]. specialize (IH u1). cbv zeta in *.
  cbn [snd] in Hs. destruct Hs as (<- & <- & <- & <- & <-). exact IH.
Qed.
Lemma ok_unicom_reports a : adapter_ok a -> adapter_ok (snd (unicom_reports a)).
Proof.
  intros Ha. unfold unicom_reports. split_if; [done|].
  set (cs := slice (a_chars a) 0 (a_char_count a)).
  pose proof (reports_each_ring unicom_ids cs (a_unicom a)) as Hr. pose proof (reports_each_fd unicom_ids cs (a_unicom a)) as Hf.
  destruct (reports_each unicom_ids cs (a_unicom a)) as [ok u]. cbn [snd] in *. cbv zeta in Hr.
  destruct Hr as (E1 & E2 & E3 & E4 & E5), Hf as (_ & F1 & F2). ok_frame; cbn; rewrite ?E1, ?E2, ?E3, ?E4, ?E5; try done.
  unfold cache_handles. cbn. by rewrite F1, F2.
Qed.
Lemma battery_round now s : good D any s -> round D (begin_battery now s).
Proof.
  intros Hg. unfold begin_battery. destruct (if u_selected (a_unicom (ad s)) then unicom_reports (ad s) else (true, ad s))
    as [ok a] eqn:E.
  assert (good D any (s <| ad := a |>)) as Hu.
  { destruct Hg as ((Ha & Hi & Hw) & Hd & _). pose proof (ok_unicom_reports _ Ha) as Hr.
    assert (a_atvv a = a_atvv (ad s) /\ a_init_deadline_ms a = a_init_deadline_ms (ad s) /\
      a_pressed_bits a = a_pressed_bits (ad s) /\ adapter_ok a) as (E1 & E2 & E3 & Ha').
    { revert E Hr. unfold unicom_reports. repeat (split_if; [|]); try destruct (reports_each _ _ _); by intros [= <- <-] ?. }
    unfold world_ok in Hw. rewrite <- E3 in Hw. split; [split; [|split]|split]; cbn; [done|by rewrite E1|exact Hw|congruence|done]. }
  split_if; [by apply out_bad, good_end_capture|]. split_if; [by apply out_refuse_setup, Hu|].
  split_if; [by apply out_refuse_setup, Hu|]. by apply op_round.
Qed.
Lemma mode_round now s : good D any s -> round D (begin_mode now s).
Proof.
  intros Hg. unfold begin_mode.
  match goal with |- context [gop ?o s] => pose proof (good_gop inv D any o s Hg) as Hu; destruct (gop o s) as [rc s'] end.
  split_if; [by apply next_round|by apply submit_round].
Qed.
Lemma handshake_round now s : good D any s -> round D (begin_handshake now s).
Proof.
  intros Hg. unfold begin_handshake.
  match goal with |- context [gop ?o s] => pose proof (good_gop inv D any o s Hg) as Hu; destruct (gop o s) as [rc s'] end.
  apply submit_round. split_if; [|done]. apply good_finish_voice_ready. by frame_ad.
Qed.
Lemma begin_round now s : good D any s -> round D (begin_once now s).
Proof.
  intros Hg. unfold begin_once. destruct (a_state (ad s)); cbv zeta;
    first [ by apply op_round | by apply desc_round | by apply subscribe_round | by apply battery_round | by apply mode_round
          | by apply handshake_round | by apply submit_round | by apply good_out | idtac ].
  apply op_round. by frame_ad.
Qed.
Lemma out_begin_loop fuel : forall now s, good D any s -> out D any (begin_loop fuel now s).
Proof.
  induction fuel as [|fuel IH]; intros now s Hg; cbn [begin_loop]; [by apply good_out|].
  pose proof (begin_round now s Hg) as Hr. destruct (begin_once now s) as [[n|] s']; [by apply IH|exact Hr].
Qed.
Lemma out_begin_next now s : good D any s -> out D any (begin_next now s).
Proof. apply out_begin_loop. Qed.
Lemma out_failure s : good D any s -> out D any (handle_op_failure s).
Proof.
  intros Hg. unfold handle_op_failure. pose proof (failure_round D s Hg) as Hr.
  destruct (failure_once s) as [[n|] s']; [by apply out_begin_next|exact Hr].
Qed.
Lemma out_go st s : good D any s -> (per_char st = true -> a_cur_char (ad s) < a_char_count (ad s)) -> out D any (go st s).
Proof. intros Hg Hp. apply out_begin_next, good_start_op; [by eapply good_nearly|done]. Qed.
End begin.
