(* ===== verification/AdapterRun.v ===== *)
(** * The adapter: every run

    The rest of the invariant of [AdapterProps]: discovery, notifications, ticks
    and calls; then the properties of every run of the adapter. *)
From Stdlib Require Import String.
From S2P Require Import Prelude Defs Crc32c Cobs Frame DeviceModel ServerState ServerLink Server Hogp Ima Gatt Atvv AdapterState Unicom Adapter AdapterCache AdapterProps.
#[local] Open Scope string_scope.
#[local] Open Scope list_scope.
#[local] Open Scope Z_scope.
#[local] Hint Extern 0 (Kept _) => exact inv_kept : core.

(** ** Discovery *)
Definition gatt_ok (e : rbp_gatt_evt) : Prop :=
  match e with
  | CHARS_FOUND _ v _ | READ_RSP _ v _ | NOTIFY _ v => Bytes v
  | DESC_FOUND h _ _ => U16 h
  | _ => True
  end.
#[export] Instance gatt_ok_dec e : Decision (gatt_ok e).
Proof. destruct e; cbn; apply _. Defined.
Lemma decl_handle_u16 v : Bytes v -> U16 (decl_handle v).
Proof.
  intros Hv. unfold decl_handle, h16. pose proof (znth_byte v 1 Hv). pose proof (znth_byte v 2 Hv).
  rewrite lor_shiftl_add by (first [lia|done]). words.
Qed.
Section discovery.
Context {W : Type} `{H : Host W} `{Hok : !HostOk W H} `{WI : !WorldInv W H} (D : Z).
Implicit Types s : adst W.

Lemma good_service_found b c s : good D any s -> good D any (on_service_found b c s).
Proof. intros Hg. unfold on_service_found. by frame_ad. Qed.
Lemma good_see_desc uuid f s : good D any s ->
  (forall a, adapter_ok a -> adapter_ok (f a)) -> (forall a, a_atvv (f a) = a_atvv a) ->
  (forall a, a_init_deadline_ms (f a) = a_init_deadline_ms a) -> (forall a, a_state (f a) = a_state a) ->
  (forall a, a_pressed_bits (f a) = a_pressed_bits a) -> good D any (see_desc uuid f s).
Proof.
  intros Hg F1 F2 F3 F4 F5. unfold see_desc. apply good_on_ad; [done| |by repeat split_if; rewrite ?F2, ?F3, ?F4, ?F5..].
  intros Ha. assert (adapter_ok (if uuid =? 0x2803 then ad s <| a_desc_boundary := true |> else ad s)) as Ha'
    by (split_if; [by ok_frame|done]).
  split_if; [done|by apply F1].
Qed.
End discovery.
Lemma restore_states a : per_char (restore_start a) = false /\ per_char (restore_mode a) = false /\
  per_char (restore_voice a) = false.
Proof. unfold restore_start, restore_mode, restore_voice. repeat split_if; done. Qed.
(** An event in one state: every branch ends in a lemma above. *)
Ltac keeps_good := unfold on_u; first [assumption|frame_ad; [first [assumption|by apply good_service_found]]].
Ltac no_report :=
  intros; exfalso; repeat match goal with Hp : context [if ?b then _ else _] |- _ => destruct b end;
  first [discriminate|match goal with Hp : per_char (_ ?a) = true |- _ =>
    destruct (restore_states a) as (E1 & E2 & E3); congruence end].
Ltac sets_handle :=
  unfold on_u; apply good_out; frame_ad; [assumption|];
  match goal with Hv : Bytes ?v |- _ => pose proof (decl_handle_u16 v Hv); handles end.
Ltac sets_cccd :=
  apply good_out, good_see_desc;
    [assumption|let a := fresh "a" in let Ha := fresh "Ha" in intros a Ha; repeat split_if; first [assumption|ok_frame; handles]|
     intros; repeat split_if; reflexivity..].
Ltac branch :=
  lazymatch goal with
  | |- outI _ _ _ (if _ then _ else _) => split_if
  | |- outI _ _ _ (go _ _) => apply out_go; [keeps_good|no_report]
  | |- outI _ _ _ (handle_op_failure _) => apply out_failure; keeps_good
  | |- outI _ _ _ (unicom_bad _ _) => apply out_bad, good_end_capture; assumption
  | |- outI _ _ _ (fail_initialization _ _) => apply out_fail_init; [apply inv_kept|]; match goal with Hg : goodI _ _ _ _ |- _ => apply Hg end
  | |- outI _ _ _ (on_service_found _ _ _) => apply good_out, good_service_found; assumption
  | |- outI _ _ _ (see_desc _ _ _) => sets_cccd
  | |- outI _ _ _ (on_ad _ _) => first [apply good_out; keeps_good|sets_handle]
  | |- outI _ _ _ (on_u _ _) => sets_handle
  | |- _ => apply good_out; keeps_good
  end.
Ltac on_event e :=
  let Hg := fresh "Hg" in let He := fresh "He" in
  intros He Hg; destruct e; cbn [gatt_ok] in He; cbv zeta; repeat branch.
Section events.
Context {W : Type} `{H : Host W} `{Hok : !HostOk W H} `{WI : !WorldInv W H} (D : Z) (e : rbp_gatt_evt).
Implicit Types s : adst W.

Lemma out_unicom_service s : gatt_ok e -> good D any s -> out D any (ev_unicom_service e s).
Proof. unfold ev_unicom_service. on_event e. Qed.
Lemma out_unicom_char s : gatt_ok e -> good D any s -> out D any (ev_unicom_char e s).
Proof. unfold ev_unicom_char. on_event e. Qed.
Lemma out_unicom_desc s : gatt_ok e -> good D any s -> out D any (ev_unicom_desc e s).
Proof. unfold ev_unicom_desc. on_event e. Qed.
Lemma out_find_mode s : gatt_ok e -> good D any s -> out D any (ev_find_mode e s).
Proof. unfold ev_find_mode. on_event e. Qed.
Lemma out_read_mode s : gatt_ok e -> good D any s -> out D any (ev_read_mode e s).
Proof. unfold ev_read_mode. on_event e. Qed.
Lemma out_gatt_svc s : gatt_ok e -> good D any s -> out D any (ev_gatt_svc e s).
Proof. unfold ev_gatt_svc. on_event e. Qed.
Lemma out_changed_char s : gatt_ok e -> good D any s -> out D any (ev_changed_char e s).
Proof. unfold ev_changed_char. on_event e. Qed.
Lemma set_cccd_ok st h a : U16 h -> adapter_ok a -> adapter_ok (set_cccd st h a).
Proof.
  intros Hh Ha. assert (adapter_ok (a <| a_service_changed_cccd := h |>) /\ adapter_ok (a <| a_atvv_ctl_cccd := h |>) /\
    adapter_ok (a <| a_atvv_audio_cccd := h |>)) as (H1 & H2 & H3) by (split; [|split]; ok_frame; handles).
  by destruct st.
Qed.
Lemma out_cccd s : gatt_ok e -> good D any s -> out D any (ev_cccd e s).
Proof.
  intros He Hg. unfold ev_cccd. generalize (a_state (ad s)). intros st.
  destruct e; cbn [gatt_ok] in He; try (apply good_out; assumption).
  - apply good_out, good_see_desc; [done|intros a Ha; split_if; [by apply set_cccd_ok|done]|intros; split_if; by destruct st..].
  - split_if; [by apply out_failure|]. apply out_go; [done|]. by destruct st.
  - by apply out_failure.
Qed.
Lemma out_sub_changed s : gatt_ok e -> good D any s -> out D any (ev_sub_changed e s).
Proof. unfold ev_sub_changed. on_event e. Qed.
Lemma out_hid_svc s : gatt_ok e -> good D any s -> out D any (ev_hid_svc e s).
Proof. unfold ev_hid_svc. on_event e. Qed.
Lemma out_find_info s : gatt_ok e -> good D any s -> out D any (ev_find_info e s).
Proof. unfold ev_find_info. on_event e. Qed.
Lemma out_read_info s : gatt_ok e -> good D any s -> out D any (ev_read_info e s).
Proof. unfold ev_read_info. on_event e. Qed.
Lemma out_find_map s : gatt_ok e -> good D any s -> out D any (ev_find_map e s).
Proof. unfold ev_find_map. on_event e. Qed.
Lemma out_mtu s : gatt_ok e -> good D any s -> out D any (ev_mtu e s).
Proof. unfold ev_mtu. on_event e. Qed.
Lemma out_sub_battery s : gatt_ok e -> good D any s -> out D any (ev_sub_battery e s).
Proof. unfold ev_sub_battery. on_event e. Qed.
Lemma out_bat_svc s : gatt_ok e -> good D any s -> out D any (ev_bat_svc e s).
Proof. unfold ev_bat_svc. on_event e. Qed.
Lemma out_bat_char s : gatt_ok e -> good D any s -> out D any (ev_bat_char e s).
Proof. unfold ev_bat_char. on_event e. Qed.
Lemma out_bat_descs s : gatt_ok e -> good D any s -> out D any (ev_bat_descs e s).
Proof. unfold ev_bat_descs. on_event e. Qed.
Lemma out_atvv_svc s : gatt_ok e -> good D any s -> out D any (ev_atvv_svc e s).
Proof. unfold ev_atvv_svc. on_event e. Qed.
Lemma out_sub_ctl s : gatt_ok e -> good D any s -> out D any (ev_sub_ctl e s).
Proof. unfold ev_sub_ctl. on_event e. Qed.
Lemma out_sub_audio s : gatt_ok e -> good D any s -> out D any (ev_sub_audio e s).
Proof. unfold ev_sub_audio. on_event e. Qed.
Lemma out_handshake s : gatt_ok e -> good D any s -> out D any (ev_handshake e s).
Proof. unfold ev_handshake. on_event e. Qed.
Lemma out_unicom_sub s : gatt_ok e -> good D any s -> out D any (ev_unicom_sub e s).
Proof.
  intros He Hg. unfold ev_unicom_sub. destruct e; try (by apply good_out); [|by apply out_bad, good_end_capture].
  match goal with |- context [start_op ?st ?n s] => assert (good D any (start_op st n s)) as Hu
    by (apply good_start_op; [by eapply good_nearly|done]); revert Hu; generalize (start_op st n s) end.
  intros s' Hu. apply good_out. split_if; [|done]. eapply good_any, good_ready, Hu.
Qed.
End events.

Section reports.
Context {W : Type} `{H : Host W} `{Hok : !HostOk W H} `{WI : !WorldInv W H} (D : Z) (e : rbp_gatt_evt).
Implicit Types s : adst W.

Lemma out_map_complete s : good D any s -> out D any (map_complete s).
Proof.
  intros Hg. unfold map_complete. cbv zeta. set (m := slice (a_map_buf (ad s)) 0 (a_map_len (ad s))). clearbody m.
  assert (forall b, good D any (on_u (fun u => u <| u_selected := b |>) s)) as Hu by (intros b; by frame_ad).
  specialize (Hu (bool_decide (m = unicom_map))). revert Hu. generalize (bool_decide (m = unicom_map)). intros b Hu.
  destruct (if b then Some unicom_inputs else _) as [map|]; [|by apply out_failure].
  generalize (is_rc003_map m). intros boot. revert Hu. generalize (on_u (fun u => u <| u_selected := b |>) s). intros s' Hu.
  assert (good D any (on_ad (fun a => a <| a_map := map |> <| a_boot_layout := boot |>) s')) as Hm by (by frame_ad).
  revert Hm. generalize (on_ad (fun a => a <| a_map := map |> <| a_boot_layout := boot |>) s'). intros s2 Hm.
  split_if; [apply out_fail_init; [done|apply Hm]|]. apply out_go; [|done].
  destruct Hm as ((Ha & Hi & Hwo) & Hd & _). split; [split; [cbn; by ok_frame|split; [|done]]|done].
  apply (inv_calm (a_atvv (ad s2))); try done. destruct Hi as (Hw & _). cbn. crush_wf.
Qed.
Lemma out_read_map s : gatt_ok e -> good D any s -> out D any (ev_read_map e s).
Proof.
  intros He Hg. unfold ev_read_map. destruct e; try (by apply good_out); [|by apply out_failure].
  split_if; [by apply out_failure|]. apply orb_false_iff in E as [E1 E2].
  match goal with |- context [on_ad ?f s] => assert (good D any (on_ad f s)) as Hu end.
  { pose proof (zlen_nonneg value). unfold HOGP_MAX_MAP_SIZE in E1. frame_ad; [done|].
    enough (zlen (splice (a_map_buf (ad s)) (a_map_len (ad s)) value) = zlen (a_map_buf (ad s))) by (unfold zlen in *; lia).
    apply zlen_splice; [lia|]. unfold zlen in *. lia. }
  match goal with |- context [on_ad ?f s] => revert Hu; generalize (on_ad f s) end. intros s' Hu.
  split_if; [by apply out_map_complete|]. split_if; [|by apply good_out]. apply out_go; [by frame_ad|done].
Qed.
Lemma out_enum s : gatt_ok e -> good D any s -> out D any (ev_enum e s).
Proof.
  intros He Hg. unfold ev_enum. destruct e; try (by apply good_out); [| |by apply out_failure].
  - split_if; [apply out_fail_init; [done|apply Hg]|]. apply good_out. split_if; [|done].
    pose proof (decl_handle_u16 _ He) as Hv. apply andb_true_iff in E0 as [_ Hc]. unfold RC003_MAX_REPORT_CHARS in *.
    frame_ad; [done|by rewrite length_insert|].
    apply Forall_insert; [done|]. split; cbn; [done|words..].
  - split_if; [by apply out_failure|]. pose proof (ok_count _ (proj1 (proj1 Hg))).
    apply out_go; [|cbn; lia]. by frame_ad.
Qed.
Lemma out_next_char s : good D any s -> out D any (next_char s).
Proof.
  intros Hg. unfold next_char. split_if; [|by apply out_go]. apply out_go; [by frame_ad|cbn; lia].
Qed.
Lemma cur_lt s : good D any s -> per_char (a_state (ad s)) = true -> a_cur_char (ad s) < a_char_count (ad s).
Proof. intros ((Ha & _) & _) Hp. by apply (ok_cur _ Ha). Qed.
Lemma out_descs s : gatt_ok e -> per_char (a_state (ad s)) = true -> good D any s -> out D any (ev_descs e s).
Proof.
  intros He Hp Hg. pose proof (cur_lt s Hg Hp) as Hc. unfold ev_descs.
  destruct e; cbn [gatt_ok] in He; try (by apply good_out); [| |by apply out_failure].
  - apply good_out, good_see_desc; [done| |done..]. intros a Ha. apply ok_on_char; [|done].
    intros c [Hc1 Hc2 Hc3]. repeat split_if; by split.
  - split_if; [by apply out_go|by apply out_next_char].
Qed.
Lemma out_report_ref s : gatt_ok e -> per_char (a_state (ad s)) = true -> good D any s -> out D any (ev_report_ref e s).
Proof.
  intros He Hp Hg. pose proof (cur_lt s Hg Hp) as Hc. unfold ev_report_ref.
  destruct e; cbn [gatt_ok] in He; try (by apply good_out); [|by apply out_failure].
  split_if; [|by apply out_failure]. apply out_go; [|done]. apply good_on_char; [|done].
  intros c [Hc1 Hc2 Hc3]. by split.
Qed.
Lemma out_sub_report s : gatt_ok e -> good D any s -> out D any (ev_sub_report e s).
Proof.
  intros He Hg. unfold ev_sub_report. destruct e; try (by apply good_out); [|by apply out_failure].
  apply out_next_char, good_on_char; [|done]. intros c [Hc1 Hc2 Hc3]. by split.
Qed.
Lemma out_battery s : gatt_ok e -> good D any s -> out D any (ev_battery e s).
Proof.
  intros He Hg. unfold ev_battery. destruct e; try (by apply good_out).
  - split_if; [|split_if; [by apply out_failure|by apply out_go]].
    apply out_go; [by apply good_serve|]. by repeat split_if.
  - split_if; [by apply out_failure|by apply out_go].
Qed.
Lemma out_atvv_char p set get next s : gatt_ok e -> good D any s -> per_char next = false ->
  (forall h a, U16 h -> adapter_ok a -> adapter_ok (set h a)) ->
  (forall h a, a_atvv (set h a) = a_atvv a /\ a_init_deadline_ms (set h a) = a_init_deadline_ms a /\
               a_state (set h a) = a_state a /\ a_pressed_bits (set h a) = a_pressed_bits a) ->
  out D any (ev_atvv_char p set get next e s).
Proof.
  intros He Hg Hn Hs1 Hs2. unfold ev_atvv_char. destruct e; cbn [gatt_ok] in He; try (by apply good_out); [| |by apply out_failure].
  - split_if; [|by apply good_out]. apply good_out, good_on_ad; [done|by apply Hs1, decl_handle_u16|apply Hs2..].
  - split_if; [by apply out_failure|]. apply out_go; [done|congruence].
Qed.
Lemma out_discovery s : gatt_ok e -> good D any s -> out D any (on_discovery e s).
Proof.
  intros He Hg. unfold on_discovery. destruct (a_state (ad s)) eqn:Es;
    lazymatch goal with
    | |- outI _ _ _ (ev_mtu _ _) => by apply out_mtu
    | |- outI _ _ _ (ev_gatt_svc _ _) => by apply out_gatt_svc
    | |- outI _ _ _ (ev_changed_char _ _) => by apply out_changed_char
    | |- outI _ _ _ (ev_cccd _ _) => by apply out_cccd
    | |- outI _ _ _ (ev_sub_changed _ _) => by apply out_sub_changed
    | |- outI _ _ _ (ev_hid_svc _ _) => by apply out_hid_svc
    | |- outI _ _ _ (ev_find_map _ _) => by apply out_find_map
    | |- outI _ _ _ (ev_read_map _ _) => by apply out_read_map
    | |- outI _ _ _ (ev_enum _ _) => by apply out_enum
    | |- outI _ _ _ (ev_sub_report _ _) => by apply out_sub_report
    | |- outI _ _ _ (ev_bat_svc _ _) => by apply out_bat_svc
    | |- outI _ _ _ (ev_bat_char _ _) => by apply out_bat_char
    | |- outI _ _ _ (ev_bat_descs _ _) => by apply out_bat_descs
    | |- outI _ _ _ (ev_battery _ _) => by apply out_battery
    | |- outI _ _ _ (ev_sub_battery _ _) => by apply out_sub_battery
    | |- outI _ _ _ (ev_atvv_svc _ _) => by apply out_atvv_svc
    | |- outI _ _ _ (ev_sub_ctl _ _) => by apply out_sub_ctl
    | |- outI _ _ _ (ev_sub_audio _ _) => by apply out_sub_audio
    | |- outI _ _ _ (ev_handshake _ _) => by apply out_handshake
    | |- outI _ _ _ (ev_find_mode _ _) => by apply out_find_mode
    | |- outI _ _ _ (ev_read_mode _ _) => by apply out_read_mode
    | |- outI _ _ _ (ev_find_info _ _) => by apply out_find_info
    | |- outI _ _ _ (ev_read_info _ _) => by apply out_read_info
    | |- outI _ _ _ (ev_unicom_service _ _) => by apply out_unicom_service
    | |- outI _ _ _ (ev_unicom_char _ _) => by apply out_unicom_char
    | |- outI _ _ _ (ev_unicom_desc _ _) => by apply out_unicom_desc
    | |- outI _ _ _ (ev_unicom_sub _ _) => by apply out_unicom_sub
    | |- outI _ _ _ (ev_descs _ _) => apply out_descs; by rewrite ?Es
    | |- outI _ _ _ (ev_report_ref _ _) => apply out_report_ref; by rewrite ?Es
    | |- outI _ _ _ (ev_atvv_char _ _ _ _ _ _) => apply out_atvv_char; [done..| |done]; intros h a Hh Ha; ok_frame; handles
    | |- _ => by apply good_out
    end.
Qed.
End reports.

(** ** Notifications, ticks and calls *)
Section calls.
Context {W : Type} `{H : Host W} `{Hok : !HostOk W H} `{WI : !WorldInv W H} (D : Z).
Implicit Types s : adst W.

Lemma good_on_report i v s : good D any s -> good D any (on_report i v s).
Proof.
  intros Hg. unfold on_report. split_if; [done|]. cbv zeta. generalize (decode_keys (ad s) (char_at (ad s) i) v). intros keys.
  assert (good D any (match keys with None => if a_voice_down_seen (ad s) then atvv_stop s else s | Some _ => s end)) as Hu
    by (destruct keys; [done|]; split_if; [by apply good_stop|done]).
  revert Hu. generalize (match keys with None => if a_voice_down_seen (ad s) then atvv_stop s else s | Some _ => s end).
  intros s' Hu. apply good_recompute_keys. generalize (default 0 keys). intros k. frame_ad; [done|]. by rewrite length_insert.
Qed.
Lemma out_finish s : out D any s -> out D any (finish_voice_ready s).
Proof.
  intros Ho. destruct (decide (a_state (ad s) = ST_ATVV_PREHANDSHAKE)) as [E|E].
  - apply good_out, good_finish_voice_ready, out_good; [done|]. by rewrite E.
  - unfold finish_voice_ready. by rewrite bool_decide_eq_false_2 by done.
Qed.
Lemma out_atvv_control v s : Bytes v -> good D any s -> out D any (on_atvv_control v s).
Proof.
  intros Hv Hg. unfold on_atvv_control. cbv zeta.
  match goal with |- context [if a_restoring (ad s) && (zlen v =? 2) && (znth v 0 =? 0) then ?x else s] =>
    assert (good D any (if a_restoring (ad s) && (zlen v =? 2) && (znth v 0 =? 0) then x else s)) as Hu
      by (split_if; [by frame_ad|done]);
    revert Hu; generalize (if a_restoring (ad s) && (zlen v =? 2) && (znth v 0 =? 0) then x else s) end.
  intros s1 Hu. split_if; [apply good_out; by frame_ad|].
  pose proof (out_control D any v s1 Hv (good_out _ _ _ _ Hu)) as Ho.
  destruct (with_engine (rc003_atvv_on_control v) s1) as [valid s2]. cbn [snd] in Ho.
  split_if; [|by apply out_finish]. split_if; [|done]. apply bool_decide_eq_true in E1.
  apply out_failure, out_good; [done|]. by rewrite E1.
Qed.
Lemma out_notification h v s : Bytes v -> good D any s -> out D any (on_notification h v s).
Proof.
  intros Hv Hg. unfold on_notification. destruct (char_of (ad s) h); [by apply good_out, good_on_report|].
  split_if; [by apply out_atvv_control|]. split_if; [by apply out_audio, good_out|].
  apply good_out. split_if; [by apply good_serve|done].
Qed.
Lemma good_clock s : good D any s -> good D any (on_ad (fun a => a <| a_atvv ::= fun x => x <| now_ms := a_now_ms a |> |>) s).
Proof.
  intros ((Ha & Hi & Hwo) & Hd & _). split; [split; [cbn; by ok_frame|split; [|done]]|done]. apply (inv_calm (a_atvv (ad s))); try done.
  destruct Hi as (Hw & _). cbn. crush_wf.
Qed.
Lemma out_live e s : gatt_ok e -> good D any s -> out D any (on_live_event e s).
Proof.
  intros He Hg. unfold on_live_event. cbv zeta.
  match goal with |- context [if is_progress e then ?x else s] =>
    assert (good D any (if is_progress e then x else s)) as Hu by (split_if; [by frame_ad|done]);
    revert Hu; generalize (if is_progress e then x else s) end. intros s1 Hu.
  set (s2 := match e with PROC_ERROR st => on_ad (fun a => a <| a_last_att_error := st |>) s1 | _ => s1 end).
  assert (good D any s2) as H2 by (unfold s2; destruct e; try done; by frame_ad). clearbody s2. clear Hu.
  destruct e; cbn [gatt_ok] in He; try (by apply out_discovery, good_clock).
  - split_if; [apply good_out; by frame_ad|by apply out_discovery, good_clock].
  - split_if; [by apply out_unicom_notify|by apply out_notification, good_clock].
  - split_if; [apply out_fail_init; [done|apply H2]|]. split_if; [by apply out_bad, good_end_capture|].
    by apply out_discovery, good_clock.
Qed.
Lemma out_on_gatt e s : gatt_ok e -> out D any s -> out D any (adapter_on_gatt e s).
Proof.
  intros He Ho. unfold adapter_on_gatt. cbv zeta. split_if.
  - match goal with |- context [on_ad ?f s] => assert (out D any (on_ad f s)) as Hu end.
    { apply (out_self _ _ _ s); [done|]. pose proof Ho as (Hs & _). apply good_on_ad; [by apply good_self| |done..].
      intros Ha. by ok_frame. }
    split_if; [done|]. by apply out_fail_init, Hu.
  - split_if; [done|]. assert (good D any s) as Hg by (apply out_good; [done|]; unfold dead; congruence).
    destruct e; try (by apply out_live). match goal with |- context [on_ad ?f s] => assert (good D any (on_ad f s)) as Hu
      by (by frame_ad) end. split_if; apply out_fail_init; try done; apply Hu.
Qed.
Lemma out_tick_atvv now s : out D any s -> out D any (tick_atvv now s).
Proof.
  intros Ho. unfold tick_atvv. cbv zeta.
  match goal with |- context [if ?b then atvv_stop s else s] =>
    assert (out D any (if b then atvv_stop s else s)) as Hu; [|revert Hu; generalize (if b then atvv_stop s else s)] end.
  { split_if; [|done]. apply (out_self _ _ _ s), good_stop, good_self; [done|]. by destruct Ho. }
  intros s' Hu. split_if; [by apply out_atvv_tick|done].
Qed.
Lemma out_tick_deadlines now s : out D any s -> out D any (tick_deadlines now s).
Proof.
  intros Ho. unfold tick_deadlines. split_if; [done|].
  assert (good D any s) as Hg by (apply out_good; [done|]; unfold dead; congruence).
  split_if; [by apply out_fail_init, Hg|]. split_if; [split_if; [by apply out_failure|by apply out_fail_init, Hg]|].
  split_if; [by apply out_begin_next|done].
Qed.
Lemma out_tick now s : out D any s -> out D any (rc003_adapter_tick now s).
Proof.
  intros Ho. unfold rc003_adapter_tick. cbv zeta.
  match goal with |- context [on_ad ?f s] => assert (out D any (on_ad f s)) as Hu; [|revert Hu; generalize (on_ad f s)] end.
  { apply (out_self _ _ _ s); [done|]. pose proof Ho as (Hs & _). apply good_on_ad; [by apply good_self| |done..].
    intros Ha. by ok_frame. }
  intros s' Hu. split_if; [done|].
  assert (good D any s') as Hg by (apply out_good; [done|]; unfold dead; congruence).
  assert (out D any (if u_selected (a_unicom (ad s')) then unicom_tick s' else s')) as Hv
    by (split_if; [by apply out_unicom_tick|by apply good_out]).
  split_if; [done|]. by apply out_tick_deadlines, out_tick_atvv.
Qed.
Lemma out_mic_start s : out D any s -> out D any (snd (rc003_adapter_mic_start s)).
Proof.
  intros Ho. pose proof Ho as ((Ha & Hi & Hwo) & Hc). unfold rc003_adapter_mic_start. split_if; [done|]. split_if; [done|]. split_if; [done|].
  destruct (_ || close_queued (a_atvv (ad s))) eqn:E2; [done|]. bools. cbn [snd].
  split; [split; [cbn; by ok_frame|split; [|done]]|done]. apply (inv_calm (a_atvv (ad s))); try done. destruct Hi as (Hw & _). cbn. crush_wf.
Qed.
Lemma out_mic_stop s : out D any s -> out D any (snd (rc003_adapter_mic_stop s)).
Proof. intros Ho. apply (out_self _ _ _ s), good_mic_stop, good_self; [done..|]. by destruct Ho. Qed.
Lemma out_detach s : out D any s -> out D any (rc003_adapter_detach s).
Proof. intros (Hs & _). destruct (detach_safe inv s Hs) as [Hd E]. split; [done|]. right. by rewrite E. Qed.
Lemma out_commit p s : out D any s -> out D any (rc003_adapter_commit_bond p s).
Proof.
  intros Ho. unfold rc003_adapter_commit_bond. split_if; [done|]. apply (out_self _ _ _ s); [done|].
  apply good_on_ad; [apply good_self; by destruct Ho| |done..]. intros Ha. by ok_frame.
Qed.
Lemma out_start now peer s : safe s -> D = u32 (now + INIT_TOTAL_TIMEOUT_MS) -> out D any (rc003_adapter_start_bound now peer s).
Proof.
  intros Hs ->. unfold rc003_adapter_start_bound. split_if.
  - match goal with |- context [on_ad ?f s] => assert (good (u32 (now + INIT_TOTAL_TIMEOUT_MS)) any (on_ad f s)) as Hg end.
    { destruct Hs as (Ha & Hi). split; [split|done]; [cbn; by ok_frame|done]. }
    match goal with |- context [on_ad ?f s] => revert Hg; generalize (on_ad f s) end. intros s1 Hg.
    match goal with |- context [serve ?c s1] => apply (good_serve inv _ _ c) in Hg; [|done..]; revert Hg; generalize (serve c s1) end.
    intros s2 Hg. apply out_begin_next, good_start_op; [by eapply good_nearly|]. by repeat split_if.
  - apply safe_init in Hs; [|done]. revert Hs. generalize (rc003_adapter_init s). intros s1 (Ha & Hi).
    match goal with |- context [on_ad ?f s1] => assert (good (u32 (now + INIT_TOTAL_TIMEOUT_MS)) any (on_ad f s1)) as Hg end.
    { split; [split|done]; [cbn; by ok_frame|done]. }
    match goal with |- context [on_ad ?f s1] => revert Hg; generalize (on_ad f s1) end. intros s2 Hg.
    apply out_begin_next, good_start_op; [|done]. eapply good_nearly. by apply good_serve.
Qed.
End calls.

(** ** The cache *)
Lemma cache_u16_u16 p o : Bytes p -> U16 (cache_u16 p o).
Proof.
  intros Hp. unfold cache_u16, h16. pose proof (znth_byte p o Hp). pose proof (znth_byte p (o + 1) Hp).
  rewrite lor_shiftl_add by (first [lia|done]). words.
Qed.
Lemma char_from_typed p i : Bytes p -> char_typed (char_from (char_bytes p i)).
Proof.
  intros Hp. assert (Bytes (char_bytes p i)) as Hb by (apply slice_Forall, Hp). split; by apply cache_u16_u16.
Qed.
Lemma cache_fill_ok p : Bytes p -> cache_well_formed p = true -> adapter_ok (cache_fill p adapter0).
Proof.
  intros Hp Hw. unfold cache_well_formed in Hw. cbv zeta in Hw.
  apply andb_true_iff in Hw as [E0 Hw]. apply andb_true_iff in Hw as [E1 _].
  apply negb_true_iff in E0, E1. apply orb_false_iff in E1 as [E1 E2]. apply negb_false_iff in E2.
  apply orb_false_iff in E0 as [E0 _]. apply orb_false_iff in E0 as [E0 E3].
  pose proof (znth_byte p 7 Hp) as Hc. pose proof (cache_u16_u16 p 40 Hp) as Hm.
  unfold CACHE_HEADER, CACHE_CHAR, HOGP_MAX_MAP_SIZE, RC003_MAX_REPORT_CHARS in *.
  assert (zlen (map_of p) = cache_u16 p 40) as Hl.
  { unfold map_of, zlen, CACHE_HEADER, CACHE_CHAR in *. rewrite length_drop. words. }
  assert (forall i, U16 (cache_u16 p i)) as Hh by (intros i; by apply cache_u16_u16).
  pose proof (char_from_typed p) as Ht.
  assert (forall A (l d : list A), zlen d <= zlen l -> length (splice l 0 d) = length l) as Hsp.
  { intros A l d Hd. pose proof (zlen_splice l d 0) as Hz. unfold zlen in *. lia. }
  assert (zlen (map (fun i => char_from (char_bytes p (Z.of_nat i))) (List.seq 0 (Z.to_nat (znth p 7)))) = znth p 7) as Hcs.
  { unfold zlen. rewrite length_map, length_seq. words. }
  unfold cache_fill. split;
    cbn -[splice map_of unicom_map is_rc003_map char_from char_bytes cache_u16 seq Z.to_nat replicate]; try done.
  - rewrite Hsp; [done|]. rewrite Hcs. unfold zlen. cbn. lia.
  - rewrite Hsp; [done|]. rewrite Hl, zlen_replicate. lia.
  - unfold RC003_MAX_REPORT_CHARS. words.
  - unfold HOGP_MAX_MAP_SIZE. words.
  - unfold cache_handles. cbn -[cache_u16]. repeat (apply List.Forall_cons; [apply Hh|]). constructor.
  - apply splice_Forall; [by repeat constructor|]. apply Forall_forall. intros c Hc'. apply in_map_iff in Hc' as (i & <- & _).
    by apply Ht.
Qed.

Section import.
Context {W : Type} `{H : Host W} `{Hok : !HostOk W H} `{WI : !WorldInv W H} (D : Z).
Implicit Types s : adst W.
Lemma cache_accept_ok m a : adapter_ok a -> adapter_ok (snd (cache_accept m a)) /\
  a_atvv (snd (cache_accept m a)) = a_atvv a /\ a_state (snd (cache_accept m a)) = a_state a /\
  a_pressed_bits (snd (cache_accept m a)) = a_pressed_bits a.
Proof.
  intros Ha. pose proof (ok_unicom_reports a Ha) as Hu. unfold cache_accept. split_if.
  - split_if; [|done]. revert Hu. unfold unicom_reports. split_if; [done|]. by destruct (reports_each _ _ _).
  - clear Hu. destruct (hogp_report_map_parse m) as [[m'|]|]; [|done..]. cbn [snd]. split; [by ok_frame|done].
Qed.
Lemma out_import peer p s : Bytes p -> out D any s -> out D any (snd (rc003_adapter_cache_import peer p s)).
Proof.
  intros Hp Ho. unfold rc003_adapter_cache_import. split_if; [done|].
  apply orb_false_iff in E as [_ E]. apply negb_false_iff in E. pose proof Ho as (Hs & _).
  apply (safe_init inv) in Hs. change (ad (rc003_adapter_init s)) with adapter0.
  pose proof (cache_accept_ok (map_of p) _ (cache_fill_ok p Hp E)) as (Ha & E2 & E3 & E4).
  destruct (cache_accept (map_of p) (cache_fill p adapter0)) as [ok a]. cbn [snd] in *.
  destruct Hs as (_ & Hi & Hw). assert (safe (rc003_adapter_init s <| ad := a |>)) as Hs.
  { split; [done|]. split; [cbn; rewrite E2; exact Hi|]. unfold world_ok. cbn. rewrite E4. exact Hw. }
  split_if; [split; [by apply safe_init|by right]|]. cbn [snd]. split; [split; [|split]|].
  - cbn. by ok_frame.
  - apply (inv_calm a.(a_atvv)); try done; [cbn; rewrite E2; exact Hi|]. destruct Hs as (_ & (Hwf & _) & _). cbn in Hwf |- *. crush_wf.
  - apply Hs.
  - right. cbn. by rewrite E3.
Qed.
End import.
