(* ===== verification/AdapterSpecs.v ===== *)
(** * The adapter: properties of every run

    A run is any sequence of GATT events, ticks, calls of the central and
    changes of the world ([adapter_call]).  Termination of the discovery's inner
    loop, memory safety, the voice protocol, the end of discovery and the
    attribute cache. *)
From Stdlib Require Import String.
From S2P Require Import Prelude Defs Crc32c Cobs Frame DeviceModel ServerState ServerLink Server Hogp Ima Gatt Atvv AdapterState Unicom Adapter AdapterCache AdapterProps AdapterRun.
#[local] Open Scope string_scope.
#[local] Open Scope list_scope.
#[local] Open Scope Z_scope.
#[local] Hint Extern 0 (Kept _) => exact inv_kept : core.

(** ** Termination of [begin_next] *)
Definition rank (a : adapter_t) : nat :=
  match a_state a with
  | ST_DISC_DESCS | ST_SUBSCRIBE_REPORT => 3 + Z.to_nat (a_char_count a - a_cur_char a)
  | ST_FIND_GATT_SVC | ST_FIND_CHANGED_CHAR | ST_DISC_CHANGED_DESC | ST_SUB_CHANGED | ST_FIND_BAT_SVC | ST_FIND_BAT_CHAR
  | ST_DISC_BAT_DESCS | ST_READ_BATTERY | ST_SUBSCRIBE_BATTERY | ST_SET_PROTOCOL_MODE => 2
  | _ => 1
  end.
Section termination.
Context {W : Type} `{H : Host W}.
Implicit Types s : adst W.

Lemma start_rank st now s : rank (ad (start_op st now s)) =
  rank (ad s <| a_state := if bool_decide (st = ST_FIND_ATVV_SVC) && u_selected (a_unicom (ad s)) then ST_UNICOM_SERVICE else st |>).
Proof.
  unfold start_op, rank. cbn -[one_of bool_decide].
  destruct (one_of _ st), (one_of _ st); cbn -[one_of bool_decide];
    destruct (bool_decide (st = ST_FIND_ATVV_SVC) && _) eqn:Es; cbn -[one_of bool_decide]; repeat split_if; done.
Qed.
Lemma start_plain st now s : st <> ST_FIND_ATVV_SVC -> rank (ad (start_op st now s)) = rank (ad s <| a_state := st |>).
Proof. intros Hn. by rewrite start_rank, bool_decide_eq_false_2 by done. Qed.
Lemma failure_rank s n s' : failure_once s = (Some n, s') -> (rank (ad s') < 2 <= rank (ad s))%nat.
Proof.
  unfold failure_once. split_if; [done|]. unfold rank at 2.
  destruct (a_state (ad s)) eqn:Es; try discriminate; intros [= _ <-]; rewrite start_rank; unfold rank; cbn;
    by repeat split_if; cbn; lia.
Qed.
Lemma submit_rank now st rc s n s' : after_submit now st rc s = (Some n, s') ->
  (rank (ad s') < 2 <= rank (ad s))%nat /\ a_state (ad s) = st.
Proof.
  unfold after_submit. split_if; [done|]. apply negb_false_iff, bool_decide_eq_true in E. split_if; [done|].
  split_if; [|done]. intros Hf. apply failure_rank in Hf. split; [|done].
  destruct Hf as [Hf1 Hf2]. split; [done|]. revert Hf2. cbn. by split_if.
Qed.
Lemma gop_ad o s : ad (snd (gop o s)) = ad s.
Proof. unfold gop. by destruct (gatt_client o (wd s)). Qed.
Lemma op_rank now o s n s' : submit_op now o s = (Some n, s') -> (rank (ad s') < rank (ad s))%nat.
Proof.
  unfold submit_op. pose proof (gop_ad o s) as Eg. destruct (gop o s) as [rc s1]. cbn [snd] in Eg.
  intros Hs. apply submit_rank in Hs as [Hs _]. rewrite Eg in Hs. lia.
Qed.
Lemma begin_rank now s n s' : begin_once now s = (Some n, s') -> (rank (ad s') < rank (ad s))%nat.
Proof.
  unfold begin_once. destruct (a_state (ad s)) eqn:Es; cbv zeta;
    lazymatch goal with
    | |- submit_op _ _ s = _ -> _ => apply op_rank
    | |- submit_op _ _ (on_ad _ s) = _ -> _ => intros Ho; apply op_rank in Ho; revert Ho; unfold rank; cbn; by rewrite Es
    | |- (None, _) = _ -> _ => done
    | |- after_submit _ _ _ _ = _ -> _ => intros Ho; apply submit_rank in Ho as [Ho _]; lia
    | |- _ => idtac
    end.
  - unfold begin_desc. split_if; [apply op_rank|]. unfold rank at 2. rewrite Es.
    split_if; intros [= _ <-]; rewrite start_plain by done; unfold rank; cbn; lia.
  - unfold begin_subscribe. split_if; [|apply op_rank]. unfold rank at 2. rewrite Es. cbv zeta.
    intros [= _ <-]. destruct (_ <=? _) eqn:El; rewrite start_plain by done; unfold rank; cbn in *; lia.
  - unfold begin_battery. destruct (if u_selected _ then _ else _) as [ok a] eqn:E. cbv zeta.
    split_if; [done|]. split_if; [done|]. split_if; [done|]. intros Ho. unfold rank at 2. rewrite Es.
    unfold submit_op in Ho. destruct (gop _ _) as [rc s1]. apply submit_rank in Ho as [Ho _]. lia.
  - unfold begin_handshake. destruct (gop _ s) as [rc s1]. intros Ho. apply submit_rank in Ho as [[_ Ho] E].
    revert Ho. unfold rank. rewrite E. lia.
  - unfold begin_mode. destruct (gop _ s) as [rc s1]. unfold rank at 2. rewrite Es. split_if.
    + intros [= _ <-]. rewrite start_plain by done. unfold rank. cbn. lia.
    + intros Ho. apply submit_rank in Ho as [Ho _]. lia.
Qed.
Lemma loop_rank : forall fuel fuel' now s, (rank (ad s) <= fuel)%nat -> (fuel <= fuel')%nat ->
  begin_loop fuel' now s = begin_loop fuel now s.
Proof.
  assert (forall s, 1 <= rank (ad s))%nat as Hpos by (intros s; unfold rank; destruct (a_state (ad s)); lia).
  induction fuel as [|fuel IH]; intros fuel' now s Hr Hf; [specialize (Hpos s); lia|].
  destruct fuel' as [|fuel']; [lia|]. cbn [begin_loop].
  destruct (begin_once now s) as [[n|] s'] eqn:Eb; [|done]. apply begin_rank in Eb. apply IH; lia.
Qed.
Lemma rank_fuel s : adapter_ok (ad s) -> (rank (ad s) <= begin_fuel)%nat.
Proof.
  intros Ha. pose proof (ok_count _ Ha) as Hc. destruct (ok_cur _ Ha) as [Hu _]. unfold RC003_MAX_REPORT_CHARS in Hc.
  unfold rank, begin_fuel. destruct (a_state (ad s)); lia.
Qed.
End termination.

(** ** Every run of the adapter *)
Inductive adapter_call (W : Type) :=
| C_gatt (e : rbp_gatt_evt) | C_tick (now : Z) | C_start (now peer : Z) | C_commit (peer : Z) | C_detach
| C_mic_start | C_mic_stop | C_import (peer : Z) (p : list Z)
| C_world (f : W -> W).  (** The world changes between two calls. *)
Arguments C_gatt {W} e. Arguments C_tick {W} now. Arguments C_start {W} now peer. Arguments C_commit {W} peer.
Arguments C_detach {W}. Arguments C_mic_start {W}. Arguments C_mic_stop {W}. Arguments C_import {W} peer p.
Arguments C_world {W} f.
Definition adapter_call_ok {W} (c : adapter_call W) : Prop :=
  match c with C_gatt e => gatt_ok e | C_import _ p => Bytes p | _ => True end.
(** The world keeps its own part of the invariant. *)
Definition world_call {W} `{H : Host W} `{!WorldInv W H} (c : adapter_call W) : Prop :=
  match c with C_world f => forall b l w, known b l w -> known b l (f w) | _ => True end.
Definition not_start {W} (c : adapter_call W) : Prop := match c with C_start _ _ => False | _ => True end.
#[export] Instance adapter_call_ok_dec W (c : adapter_call W) : Decision (adapter_call_ok c).
Proof. destruct c; cbn; apply _. Defined.
#[export] Instance not_start_dec W (c : adapter_call W) : Decision (not_start c).
Proof. destruct c; cbn; apply _. Defined.

Section runs.
Context {W : Type} `{H : Host W}.
Implicit Types s : adst W.
Definition adapter_step s (c : adapter_call W) : adst W :=
  match c with
  | C_gatt e => adapter_on_gatt e s
  | C_tick now => rc003_adapter_tick now s
  | C_start now peer => rc003_adapter_start_bound now peer s
  | C_commit peer => rc003_adapter_commit_bond peer s
  | C_detach => rc003_adapter_detach s
  | C_mic_start => snd (rc003_adapter_mic_start s)
  | C_mic_stop => snd (rc003_adapter_mic_stop s)
  | C_import peer p => snd (rc003_adapter_cache_import peer p s)
  | C_world f => s <| wd ::= f |>
  end.
Definition adapter_run (w : W) (cs : list (adapter_call W)) : adst W :=
  fold_left adapter_step cs (rc003_adapter_init (AdSt adapter0 w [] [])).

Context `{Hok : !HostOk W H} `{WI : !WorldInv W H}.
Lemma out_step D c s : adapter_call_ok c -> world_call c -> not_start c -> out D any s -> out D any (adapter_step s c).
Proof.
  intros Hc Hw Hn Ho. destruct c; cbn [adapter_step]; [by apply out_on_gatt|by apply out_tick|done|by apply out_commit|
    by apply out_detach|by apply out_mic_start|by apply out_mic_stop|by apply out_import|].
  destruct Ho as ((Ha & Hi & Hk) & Ho). split; [split; [done|split; [done|by apply Hw]]|done].
Qed.
Lemma out_steps D cs : forall s, Forall adapter_call_ok cs -> Forall world_call cs -> Forall not_start cs -> out D any s -> out D any (fold_left adapter_step cs s).
Proof.
  induction cs as [|c cs IH]; intros s Hc Hw Hn Ho; [done|].
  apply List.Forall_cons_iff in Hc as [Hc1 Hc2], Hw as [Hw1 Hw2], Hn as [Hn1 Hn2]. by apply IH, out_step.
Qed.
Lemma safe_step c s : adapter_call_ok c -> world_call c -> safe s -> safe (adapter_step s c).
Proof.
  intros Hc Hw Hs. destruct (decide (not_start c)) as [Hn|Hn].
  - apply (out_step (a_init_deadline_ms (ad s)) c s Hc Hw Hn). by apply good_out.
  - destruct c; try done. by destruct (out_start _ now peer s Hs eq_refl).
Qed.
Lemma safe_run w cs : known 0 [] w -> Forall adapter_call_ok cs -> Forall world_call cs -> safe (adapter_run w cs).
Proof.
  assert (forall s, safe s -> Forall adapter_call_ok cs -> Forall world_call cs -> safe (fold_left adapter_step cs s)) as Hf.
  { induction cs as [|c cs IH]; intros s Hs Hc Hw; [done|]. apply List.Forall_cons_iff in Hc as [Hc1 Hc2], Hw as [Hw1 Hw2].
    by apply IH; [apply safe_step|..]. }
  intros Hk Hc Hw. apply Hf; [|done..]. apply (safe_init inv). split; [exact adapter0_ok|]. split; [|exact Hk].
  split; [|split; [done|split; [constructor|done]]]. split; cbn; try done. by apply (bool_decide_unpack _); vm_compute.
Qed.

(** *** Settling *)
Definition discovery_settled (now deadline : Z) (st : state_t) : Prop :=
  st = ST_IDLE \/ st = ST_DONE \/ st = ST_FAILED \/ (st = ST_UNICOM_WAIT /\ due now deadline = false).
Lemma dead_settled now d st : dead st -> discovery_settled now d st.
Proof. unfold dead, one_of. intros Hd%bool_decide_eq_true. unfold discovery_settled. set_solver. Qed.
Lemma begin_done now s : a_state (ad s) = ST_DONE -> a_state (ad (begin_next now s)) = ST_DONE.
Proof.
  intros E. unfold begin_next, begin_fuel. cbn [begin_loop]. unfold begin_once. rewrite E. cbv zeta. unfold after_submit.
  rewrite E, bool_decide_eq_true_2 by done. cbn. rewrite E. by rewrite bool_decide_eq_false_2 by done.
Qed.
Lemma deadline_settled now d s : safe s -> due now (a_init_deadline_ms (ad s)) = true ->
  discovery_settled now d (a_state (ad (tick_deadlines now s))).
Proof.
  intros Hs Hd. unfold tick_deadlines. destruct (one_of _ _) eqn:Eo; [by apply dead_settled|].
  rewrite Hd, andb_true_r. destruct (decide (a_state (ad s) = ST_DONE)) as [E|E].
  - rewrite bool_decide_eq_true_2 by done. cbn [negb andb]. right. left. split_if; [by apply begin_done|done].
  - rewrite bool_decide_eq_false_2 by done. cbn [negb]. apply dead_settled.
    by destruct (out_fail_init inv 0 (fun _ => False) (cstr "timeout total") false s Hs) as [_ [[_ []]|Hdead]].
Qed.
Lemma wait_unicom_tick D s : good D any s -> a_state (ad (unicom_tick s)) = ST_UNICOM_WAIT ->
  due (a_now_ms (ad s)) (a_deadline_ms (ad s)) = false.
Proof.
  intros Hg. destruct (decide (a_state (ad s) = ST_DONE)) as [Ed|Ed].
  - assert (good D (eq ST_DONE) s) as Hg' by (destruct Hg as (? & ? & _); by split).
    destruct (done_unicom_tick D s Hg') as (_ & Hc). intros Hs. rewrite Hs in Hc. by destruct Hc as [[_ [=]]|[=]].
  - unfold unicom_tick. split_if.
    + split_if; [|by apply orb_false_iff in E0 as [_ E0]]. destruct (good_ready D s Hg) as (_ & _ & <-). done.
    + rewrite (bool_decide_eq_false_2 (a_state (ad s) = ST_DONE)) by done. cbn [negb orb]. intros Hs.
      by rewrite bool_decide_eq_true_2 in E.
Qed.
Lemma tick_settled now s D : out D any s -> due now D = true -> discovery_settled now (a_deadline_ms (ad s)) (a_state (ad (rc003_adapter_tick now s))).
Proof.
  intros Ho Hd. unfold rc003_adapter_tick. cbv zeta.
  match goal with |- context [on_ad ?f s] => assert (out D any (on_ad f s)) as Hu end.
  { apply (out_self _ _ _ s); [done|]. pose proof Ho as (Hs & _). apply good_on_ad; [by apply good_self| |done..].
    intros Ha. by ok_frame. }
  match goal with |- context [on_ad ?f s] => assert (a_deadline_ms (ad (on_ad f s)) = a_deadline_ms (ad s) /\
    a_now_ms (ad (on_ad f s)) = now) as [Ed En] by done; revert Hu Ed En; generalize (on_ad f s) end. intros s1 Hu Ed En.
  destruct (one_of _ (a_state (ad s1))) eqn:Eo; [by apply dead_settled|].
  assert (good D any s1) as Hg by (apply out_good; [done|]; unfold dead; congruence).
  assert (forall s2, out D any s2 -> discovery_settled now (a_deadline_ms (ad s)) (a_state (ad (tick_deadlines now (tick_atvv now s2))))) as Hlast.
  { intros s2 H2. apply (out_tick_atvv D now) in H2. revert H2. generalize (tick_atvv now s2). intros s3 H3.
    pose proof H3 as (Hs3 & [[Hd3 _]|Hdead]); [apply deadline_settled; [done|by rewrite Hd3]|].
    unfold tick_deadlines. unfold dead in Hdead. rewrite Hdead. by apply dead_settled. }
  destruct (u_selected (a_unicom (ad s1))); cbn [andb]; [|by apply Hlast].
  destruct (one_of _ (a_state (ad (unicom_tick s1)))) eqn:E2; [|by apply Hlast, out_unicom_tick].
  unfold one_of in E2. apply bool_decide_eq_true in E2.
  pose proof (wait_unicom_tick D s1 Hg) as Hw. rewrite En, Ed in Hw. unfold discovery_settled. set_solver.
Qed.
End runs.

(** ** A remote for the witnesses

    The client accepts every procedure; the server wants voice, drops the link
    when the adapter failed and stops a capture that it hears of twice.  The
    session is the discovery of a remote with the Unicom profile. *)
#[export] Instance sample_host : Host unit := {
  gatt_client _ w := (0, w);
  voice_wanted _ := true;
  voice_capture_session _ := 1;
  set_voice_caps _ w := w;
  served c w := (match c with
                 | AAdapterFailed _ => [Detach]
                 | AVoice (RBP_VOICE_EVT_FORMAT _) _ => [Mic_stop]
                 | _ => []
                 end, w);
  ATT_MTU := 23;
  null_empty := false;
  SIMULATOR := false }.
#[export] Instance sample_host_ok : HostOk unit sample_host.
Proof.
  intros c w Hc. destruct c; try done; cbn; try set_solver. destruct ev; set_solver.
Qed.
Definition sample_report (h id type : Z) : list rbp_gatt_evt :=
  [DESC_FOUND (h + 1) RBP_UUID16_REPORT_REFERENCE false; DESC_FOUND (h + 2) RBP_UUID16_CCCD true; PROC_DONE;
   READ_RSP 0 [id; type] true] ++ (if type =? 1 then [WRITE_DONE] else []).
Definition sample_reports : list (Z * Z * Z) :=
  [(16, 1, 1); (20, 3, 1); (24, 0xfc, 1); (28, 0xfb, 2); (32, 0xf8, 1); (36, 0xfa, 2); (40, 0xf9, 1); (44, 4, 1)].
Definition sample_discovery : list rbp_gatt_evt :=
  [MTU_UPDATED 23; SERVICE_NOT_FOUND; SERVICE_FOUND 1 60; PROC_DONE; CHARS_FOUND 2 [2; 3; 0; 0x4a; 0x2a] true; PROC_DONE;
   READ_RSP 0 [1; 1; 0; 2] true; PROC_DONE; CHARS_FOUND 4 [2; 5; 0; 0x4b; 0x2a] true; PROC_DONE;
   READ_RSP 0 (slice unicom_map 0 22) false; READ_RSP 22 (drop 22 unicom_map) true] ++
  map (fun '(h, id, type) => CHARS_FOUND (h - 1) [if type =? 1 then 0x12 else 0x0a; h; 0; 0x4d; 0x2a] false) sample_reports ++
  [PROC_DONE] ++ concat (map (fun '(h, id, type) => sample_report h id type) sample_reports) ++
  [SERVICE_NOT_FOUND; SERVICE_FOUND 61 70; PROC_DONE; CHARS_FOUND 62 [0x10; 63; 0; 2; 0xfd] true; PROC_DONE;
   DESC_FOUND 64 0x2902 true; PROC_DONE; WRITE_DONE; NOTIFY 63 unicom_hello].
Definition sample_unit (n : Z) : list (list Z) :=
  map (fun part => [n; 0; part; 0] ++ (if part =? 2 then replicate 10 7 ++ [n; 0] ++ replicate 4 7 else replicate 16 7)) [0; 1; 2].
Definition unicom_session : list (adapter_call unit) :=
  [C_start 100 7] ++ map C_gatt sample_discovery ++
  map C_gatt (NOTIFY 32 ([0x82; 3; 1] ++ replicate 17 0) :: map (NOTIFY 24) (sample_unit 5)) ++ [C_tick 120].
Lemma unicom_session_ok : Forall adapter_call_ok unicom_session.
Proof. by apply (bool_decide_unpack _); vm_compute. Qed.

(** ** What the server was told of keys

    The keys of the last report since the link was dropped. *)
Definition tells (bits : Z) (x : act) : Z :=
  match x with Served (AKeys r) => kr_pressed_bits r | Unlinked => 0 | _ => bits end.
Definition told (l : list act) : Z := fold_left tells l 0.
Lemma told_snoc l x : told (l ++ [x]) = tells (told l) x.
Proof. unfold told. by rewrite fold_left_app. Qed.
#[export] Instance keys_told W (H : Host W) : WorldInv W H.
Proof.
  refine {| known b l w := told l = b |}; intros; rewrite ?told_snoc; cbn; try done.
  by destruct c; try done; destruct H0 as [[=]|[m [=]]].
Defined.
Lemma world_calls {W} `{H : Host W} (cs : list (adapter_call W)) : Forall world_call cs.
Proof. apply Forall_forall. intros c _. destruct c; try done. intros b l w Hk. exact Hk. Qed.
Lemma run_safe {W} `{H : Host W} `{!HostOk W H} w cs : Forall adapter_call_ok cs -> safe (adapter_run w cs).
Proof. intros Hc. by apply safe_run; [..|apply world_calls]. Qed.

(** ** Properties *)





(** [begin_next] and [handle_op_failure] call each other at most
    [begin_fuel] times in every reachable state: with any more fuel the model
    computes the same. *)
Theorem begin_next_terminates {W} `{H : Host W} `{!HostOk W H} w cs now fuel :
  Forall adapter_call_ok cs -> (begin_fuel <= fuel)%nat ->
  let s := adapter_run w cs in begin_loop fuel now s = begin_next now s.
Proof.
  intros Hc Hf s. unfold begin_next. destruct (run_safe w cs Hc) as [Ha _].
  assert (begin_loop fuel now s = begin_loop (rank (ad s)) now s) as ->
    by (apply loop_rank; [done|]; pose proof (rank_fuel s Ha); lia).
  symmetry. apply loop_rank; [done|by apply rank_fuel].
Qed.
Lemma begin_next_terminates_witness :
  let s := adapter_run tt unicom_session in begin_loop 1000 120 s = begin_next 120 s.
Proof. apply (begin_next_terminates tt unicom_session 120 1000); [apply unicom_session_ok|unfold begin_fuel; lia]. Defined.


(** The failure message of a remote without a battery characteristic: the digit
    of the state is taken for the label of the error field, and the label is overwritten. *)
Lemma failed_message_garbled :
  init_message (adapter0 <| a_state := ST_FIND_BAT_CHAR |> <| a_last_att_error := 5 |>) false =
  cstr "init failed: S=0E 0500 M=0000 N=00 I=00 T=0".
Proof. vm_compute. reflexivity. Qed.
