(* ===== verification/UnicomProps.v ===== *)
(** * The Unicom profile: audio in order

    The units that wait in the ring are behind those the server has, and ahead
    of those to come: a queue, read off the calls of the server and the ring. *)
From Stdlib Require Import String.
From S2P Require Import Prelude Defs Crc32c Cobs Frame DeviceModel ServerState ServerLink Server Hogp Ima Gatt Atvv AdapterState Unicom Adapter AdapterCache AdapterProps AdapterRun AdapterSpecs.
#[local] Open Scope string_scope.
#[local] Open Scope list_scope.
#[local] Open Scope Z_scope.

Definition payload (x : act) : list (list Z) :=
  match x with Served (AVoice (RBP_VOICE_EVT_ENCODED (Some d) _ _ _ _) _) => [d] | _ => [] end.
Definition delivered {W} (s : adst W) : list (list Z) := concat (map payload (acts s)).
Definition ring_unit (u : unicom_t) (i : nat) : list Z :=
  slice (u_preroll u) (40 * ((u_pre_head u + Z.of_nat i) mod 8)) 40.
Definition waiting (u : unicom_t) : list (list Z) := map (ring_unit u) (List.seq 0 (Z.to_nat (u_pre_count u))).
(** The queue. *)
Definition audio {W} (s : adst W) : list (list Z) := delivered s ++ waiting (a_unicom (ad s)).

(** A unit with a correct trailer for a capture that goes on and has room. *)
Definition takes {W} `{H : Host W} (seq : Z) (s : adst W) : bool :=
  let u := a_unicom (ad s) in
  let p := u_body u in
  (h16 (znth p 42) (znth p 43) =? seq) && bool_decide (slice p 44 4 = slice p 28 4) &&
  negb (negb (u_announced u) && u_closing u) && (voice_capture_session (wd s) =? u_capture_session u) &&
  (voice_wanted (wd s) || negb (u_announced u)) && (u_pre_count u <? 8).

Section queue.
Context {W : Type} `{H : Host W}.
Implicit Types s : adst W.

Lemma delivered_app s s' l : acts s' = acts s ++ l -> delivered s' = delivered s ++ concat (map payload l).
Proof. intros E. unfold delivered. by rewrite E, map_app, concat_app. Qed.
Lemma delivered_gop o s : delivered (snd (gop o s)) = delivered s.
Proof.
  unfold gop. destruct (gatt_client o (wd s)) as [rc w]. cbn [snd]. erewrite delivered_app by reflexivity. by rewrite app_nil_r.
Qed.
Lemma delivered_carry s r : delivered (carry_out s r) = delivered s.
Proof.
  destruct r; cbn [carry_out].
  - unfold rc003_adapter_mic_stop. split_if; [cbn [snd]; unfold unicom_stop; by split_if|]. split_if; [done|].
    unfold with_engine. pose proof (request_stop_kept (fun w => delivered w = delivered s)) as Hk.
    assert (forall (cmd : list Z) w, delivered w = delivered s -> delivered (snd (write_tx cmd w)) = delivered s) as Hw.
    { intros cmd w Hw. cbn. unfold atvv_write_tx. split_if; [done|].
      pose proof (delivered_gop (Write_command (a_atvv_tx_handle (ad w)) cmd) w) as Hg. destruct (gop _ w) as [rc w'].
      cbn [snd] in *. by rewrite Hg. }
    specialize (Hk Hw (view s) eq_refl). by destruct (rc003_atvv_request_stop (view s)).
  - unfold rc003_adapter_detach. split_if; [|unfold rc003_adapter_init, tell_caps; cbn [acts]; unfold delivered; cbn].
    + erewrite delivered_app; [|reflexivity]. cbn. apply app_nil_r.
    + by rewrite !map_app, !concat_app, !app_nil_r.
Qed.
Lemma delivered_serve c s : delivered (serve c s) = delivered s ++ payload (Served c).
Proof.
  unfold serve. destruct (served c (wd s)) as [rs w].
  assert (delivered (s <| wd := w |> <| acts := acts s ++ [Served c] |>) = delivered s ++ payload (Served c)) as E.
  { erewrite delivered_app by reflexivity. cbn [map concat]. by rewrite app_nil_r. }
  rewrite <- E. generalize (s <| wd := w |> <| acts := acts s ++ [Served c] |>).
  induction rs as [|r rs IH]; intros s'; cbn [fold_left]; [done|]. by rewrite IH, delivered_carry.
Qed.
Lemma delivered_emit p s s' : unicom_emit p s = (true, s') -> delivered s' = delivered s ++ [slice p 0 40].
Proof.
  unfold unicom_emit. split_if; [done|]. split_if; [done|]. intros [= <-]. unfold on_voice. rewrite delivered_serve. cbn [payload].
  f_equal. unfold start_once, announce, on_voice. repeat split_if; rewrite ?delivered_serve; cbn [payload]; rewrite ?app_nil_r; try done.
  all: change (delivered (on_u ?f ?x)) with (delivered x); rewrite ?delivered_serve; cbn [payload]; by rewrite ?app_nil_r.
Qed.

Context `{Hok : !HostOk W H}.
Lemma waiting_ring s s' : ring_of s' = ring_of s -> waiting (a_unicom (ad s')) = waiting (a_unicom (ad s)).
Proof. intros [= _ Eh Ec Ep]. unfold waiting, ring_unit. by rewrite Eh, Ec, Ep. Qed.
Lemma slot_length u i : length (u_preroll u) = 320%nat -> zlen (ring_unit u i) = 40.
Proof.
  intros Hl. pose proof (Z.mod_pos_bound (u_pre_head u + Z.of_nat i) 8). apply zlen_slice; unfold zlen; lia.
Qed.
(** Taking the oldest unit. *)
Lemma waiting_pop u : 0 <= u_pre_head u < 8 -> 0 < u_pre_count u <= 8 ->
  waiting u = slice (u_preroll u) (40 * u_pre_head u) 40 ::
    waiting (u <| u_pre_head := (u_pre_head u + 1) mod 8 |> <| u_pre_count := u8 (u_pre_count u - 1) |>).
Proof.
  intros Hh Hc. unfold waiting. cbn -[u8]. replace (u8 (u_pre_count u - 1)) with (u_pre_count u - 1) by words.
  replace (Z.to_nat (u_pre_count u)) with (S (Z.to_nat (u_pre_count u - 1))) by lia. cbn [List.seq map]. f_equal.
  - unfold ring_unit. rewrite Z.add_0_r, Z.mod_small by lia. done.
  - rewrite <- seq_shift, map_map. apply map_ext. intros i. unfold ring_unit. cbn.
    rewrite Zplus_mod_idemp_l. do 3 f_equal. lia.
Qed.
(** A unit behind those that wait. *)
Lemma waiting_push u p : 0 <= u_pre_head u < 8 -> 0 <= u_pre_count u < 8 -> length (u_preroll u) = 320%nat ->
  length p = 48%nat -> waiting (enqueue p u) = waiting u ++ [slice p 0 40].
Proof.
  intros Hh Hc Hl Hp. assert (zlen (slice p 0 40) = 40) as Hz by (apply zlen_slice; unfold zlen; lia).
  unfold waiting. cbn -[u8 ring_unit]. replace (u8 (u_pre_count u + 1)) with (u_pre_count u + 1) by words.
  replace (Z.to_nat (u_pre_count u + 1)) with (S (Z.to_nat (u_pre_count u))) by lia. rewrite seq_S, map_app. cbn [map plus].
  pose proof (Z.mod_pos_bound (u_pre_head u + u_pre_count u) 8 ltac:(lia)). f_equal.
  - apply map_ext_in. intros i Hi%in_seq. unfold ring_unit, enqueue. cbn -[u8 slice splice].
    pose proof (Z.mod_pos_bound (u_pre_head u + Z.of_nat i) 8 ltac:(lia)).
    assert ((u_pre_head u + Z.of_nat i) mod 8 <> (u_pre_head u + u_pre_count u) mod 8) as Hn.
    { intros E. pose proof (Z.div_mod (u_pre_head u + Z.of_nat i) 8 ltac:(lia)).
      pose proof (Z.div_mod (u_pre_head u + u_pre_count u) 8 ltac:(lia)). lia. }
    destruct (Z.lt_total ((u_pre_head u + Z.of_nat i) mod 8) ((u_pre_head u + u_pre_count u) mod 8)) as [Hlt|[?|Hlt]];
      [apply slice_splice_before|done|apply slice_splice_after]; unfold zlen in *; lia.
  - f_equal. unfold ring_unit, enqueue. cbn -[u8 slice splice]. rewrite Z2Nat.id by lia.
    replace (40 * _) with (40 * ((u_pre_head u + u_pre_count u) mod 8) + 0) at 2 by lia.
    rewrite slice_splice_inside by (unfold zlen in *; lia). unfold slice. rewrite drop_0, take_take. by f_equal.
Qed.
Lemma audio_drain s : adapter_ok (ad s) -> audio (tick_drain s) = audio s.
Proof.
  intros Ha. unfold tick_drain. split_if; [done|]. destruct (ok_ring _ Ha) as [Hh Hc]. destruct (ok_body _ Ha) as [_ Hl].
  destruct (unicom_emit _ s) as [sent s'] eqn:Ee. destruct sent; [|by apply emit_false in Ee as ->].
  pose proof (delivered_emit _ _ _ Ee) as Hd. apply emit_ring in Ee. injection Ee as _ Eh Ec Ep.
  unfold audio. rewrite (waiting_pop (a_unicom (ad s))) by lia.
  change (delivered (on_u ?f s')) with (delivered s'). rewrite Hd, <- app_assoc. cbn [app]. f_equal. f_equal.
  - unfold slice. by rewrite drop_0, take_take.
  - unfold waiting, ring_unit. cbn -[u8]. by rewrite Eh, Ec, Ep.
Qed.
Lemma audio_unit seq s : adapter_ok (ad (on_u (fun u => u <| u_part := 0 |>) s)) -> takes seq s = true ->
  audio (unit_received seq s) = audio s ++ [slice (u_body (a_unicom (ad s))) 0 40].
Proof.
  intros Ha Ht. unfold takes in Ht. cbv zeta in Ht.
  repeat (apply andb_true_iff in Ht as [Ht ?]). destruct (ok_ring _ Ha) as [Hh Hc]. destruct (ok_body _ Ha) as [Hb Hl].
  cbn in Hh, Hc, Hb, Hl. unfold unit_received. rewrite Ht. cbn [negb orb].
  match goal with Hd : bool_decide _ = true |- _ => rewrite Hd end. cbn [negb].
  match goal with |- context [on_u ?f s] => set (s1 := on_u f s) end. cbv zeta.
  change (u_announced (a_unicom (ad s1))) with (u_announced (a_unicom (ad s))).
  change (u_closing (a_unicom (ad s1))) with (u_closing (a_unicom (ad s))).
  change (u_pre_count (a_unicom (ad s1))) with (u_pre_count (a_unicom (ad s))).
  change (u_capture_session (a_unicom (ad s1))) with (u_capture_session (a_unicom (ad s))). change (wd s1) with (wd s).
  match goal with Hg : negb (negb _ && _) = true |- _ => apply negb_true_iff in Hg; rewrite Hg end.
  match goal with Hg : (voice_capture_session _ =? _) = true |- _ => rewrite Hg; rename Hg into Hsess end. cbn [negb].
  assert (audio s1 = audio s) as E1 by done.
  assert (audio (if u_announced (a_unicom (ad s)) && negb (voice_wanted (wd s)) then unicom_stop s1
     else if u_pre_count (a_unicom (ad s)) =? 8 then
        if u_announced (a_unicom (ad s)) then unicom_stream_fault "Unicom buffered audio overrun" s1
        else unicom_preroll_cancel RBP_END_BUFFER_OVERRUN s1
     else on_u (enqueue (u_body (a_unicom (ad s)))) s1) = audio s ++ [slice (u_body (a_unicom (ad s))) 0 40]) as Hq.
  { replace (u_announced (a_unicom (ad s)) && negb (voice_wanted (wd s))) with false by
      (destruct (u_announced (a_unicom (ad s))), (voice_wanted (wd s)); done).
    replace (_ =? 8) with false by lia. unfold audio. rewrite <- app_assoc. f_equal.
    change (a_unicom (ad (on_u (enqueue ?p) s1))) with (enqueue p (a_unicom (ad s1))).
    rewrite waiting_push by (cbn; lia). done. }
  destruct (Z.eqb_spec (u_pre_count (a_unicom (ad s))) 0) as [Hz|Hz]; [|exact Hq].
  destruct (unicom_emit _ s1) as [sent s'] eqn:Ee. destruct sent; [|by apply emit_false in Ee as ->].
  pose proof (delivered_emit _ _ _ Ee) as Hd. apply emit_ring in Ee. injection Ee as _ _ Ec _.
  unfold audio. rewrite Hd. unfold waiting. rewrite Ec. cbn. rewrite Hz. cbn. by rewrite !app_nil_r.
Qed.
End queue.

Lemma part_reset_ok {W} (s : adst W) : adapter_ok (ad s) -> adapter_ok (ad (on_u (fun u => u <| u_part := 0 |>) s)).
Proof. intros Ha. cbn. ok_frame. cbn. lia. Qed.

