(* ===== verification/ServerWorld.v ===== *)
(** * The server and the world behind it

    The functions of the server reach the world only through the operations of
    [Env]: a preorder on the world that every operation of the environment
    respects is respected by every entry point.  It is the other half of
    [EnvOk], which says what the operations do to the server. *)
From Stdlib Require Import String.
From S2P Require Import Prelude Defs Ring Frame Tlv DeviceModel Faults ServerState ServerCore ServerVoice ServerLink ServerDispatch Server.
#[local] Open Scope string_scope.
#[local] Open Scope Z_scope.
#[local] Open Scope list_scope.
#[local] Open Scope rbp_scope.

(** [m] takes the world along [T], whatever the state of the server. *)
Definition tends {W A} (T : relation W) (m : M W A) : Prop := forall σ, T (snd σ) (snd (snd (m σ))).
(** The operations of the environment a call of the radio or of the adapter can
    reach: it withdraws what it asked for, stores and sends. *)
Class EnvQuiet (W : Type) (E : Env W) (T : relation W) : Prop := {
  to_stop_find : tends T (call stop_find);
  to_pair_cancel : tends T (call pair_cancel);
  to_voice_request_stop : tends T (call voice_request_stop);
  to_store_save f : store_save = Some f -> forall r w, T w (snd (f r w));
  to_store_clear f : store_clear = Some f -> forall w, T w (snd (f w));
  to_rng f : rng = Some f -> forall w, T w (snd (f w));
  to_out data w : T w (snd (out data w)) }.
(** All of them. *)
Class EnvTends (W : Type) (E : Env W) (T : relation W) : Prop := {
  tends_quiet :: EnvQuiet W E T;
  to_start_find d : tends T (start_find d);
  to_pair_begin c : tends T (call (pair_begin c));
  to_pair_reply a b k : tends T (call (pair_reply a b k));
  to_forget_peer : tends T (call forget_peer);
  to_connect_peer : tends T (call connect_peer);
  to_disconnect : tends T (call disconnect);
  to_voice_request_start f : voice_request_start = Some f -> forall s w, T w (snd (f s w)) }.

Section world.
Context {W : Type} `{E : Env W} {T : relation W} `{!PreOrder T}.
Lemma tends_ret {A} (a : A) : tends T (ret a).
Proof. intros σ. cbn. reflexivity. Qed.
Lemma tends_get : tends T get.
Proof. intros σ. cbn. reflexivity. Qed.
Lemma tends_modify f : tends T (modify f).
Proof. intros σ. cbn. reflexivity. Qed.
Lemma tends_bind {A B} (m : M W A) (k : A -> M W B) : tends T m -> (forall a, tends T (k a)) -> tends T (bind m k).
Proof.
  intros Hm Hk σ. unfold bind. specialize (Hm σ). destruct (m σ) as [a σ']. etrans; [exact Hm|apply Hk].
Qed.
Lemma tends_when b (m : M W unit) : tends T m -> tends T (when b m).
Proof. intros Hm. destruct b; [exact Hm|apply tends_ret]. Qed.
Lemma tends_outside {A} (f : W -> A * W) : (forall w, T w (snd (f w))) -> tends T (outside f).
Proof. intros Hf [s w]. unfold outside. cbn. specialize (Hf w). by destruct (f w). Qed.
End world.
Create HintDb tends.
#[export] Hint Resolve tends_ret tends_get tends_modify to_start_find to_stop_find to_pair_begin to_pair_reply to_pair_cancel
  to_forget_peer to_connect_peer to_disconnect to_voice_request_stop : tends.
(** Through the structure of a function; the functions it calls are hints, or
    are opened. *)
Ltac open_head m :=
  lazymatch m with
  | ?f _ => open_head f
  | ?f => unfold f
  end.
Ltac tend :=
  repeat match goal with
  | |- forall _, _ => intro
  | _ => solve [auto 2 with tends typeclass_instances]
  | |- tends _ (bind _ _) => apply tends_bind
  | |- tends _ (when _ _) => apply tends_when
  | |- tends _ (let '(_, _) := ?x in _) => destruct x
  | |- tends _ (match ?x with _ => _ end) => destruct x eqn:?
  | |- tends _ ?m => progress (open_head m; cbv zeta)
  end.

Section functions.
Context {W : Type} `{E : Env W} {T : relation W} `{!PreOrder T} `{Q : !EnvQuiet W E T}.
#[local] Hint Extern 1 (tends _ (outside (out _))) => apply tends_outside; apply to_out : tends.
#[local] Hint Extern 1 (tends _ (outside _)) => apply tends_outside; intros;
  first [reflexivity|by eapply to_rng|by eapply to_store_save|by eapply to_store_clear|by eapply to_voice_request_start] : tends.

Lemma tends_request_pair_cancel : tends T request_pair_cancel.
Proof. unfold request_pair_cancel. tend. Qed.
#[local] Hint Resolve tends_request_pair_cancel : tends.
Lemma tends_session_teardown : tends T session_teardown.
Proof. unfold session_teardown. tend. Qed.
#[local] Hint Resolve tends_session_teardown : tends.
Lemma tends_session_create : tends T session_create.
Proof. unfold session_create. tend. Qed.
#[local] Hint Resolve tends_session_create : tends.
Lemma tends_out_drain_loop fuel : tends T (out_drain_loop fuel).
Proof. induction fuel as [|fuel IH]; cbn [out_drain_loop]; tend. Qed.
#[local] Hint Resolve tends_out_drain_loop : tends.
Lemma tends_out_drain : tends T out_drain.
Proof. unfold out_drain. tend. Qed.
#[local] Hint Resolve tends_out_drain : tends.
Lemma tends_ctl_enqueue k o st r c p : tends T (ctl_enqueue k o st r c p).
Proof. unfold ctl_enqueue. tend. Qed.
#[local] Hint Resolve tends_ctl_enqueue : tends.
Lemma tends_flush_one q : tends T (flush_one q).
Proof. unfold flush_one. tend. Qed.
#[local] Hint Resolve tends_flush_one : tends.
Lemma tends_flush_loop fuel sent : tends T (flush_loop fuel sent).
Proof. revert sent. induction fuel as [|fuel IH]; intros sent; cbn [flush_loop]; tend. Qed.
#[local] Hint Resolve tends_flush_loop : tends.
Lemma tends_rbp_server_flush_output : tends T rbp_server_flush_output.
Proof. unfold rbp_server_flush_output. tend. Qed.
#[local] Hint Resolve tends_rbp_server_flush_output : tends.
Lemma tends_media_enqueue o p : tends T (media_enqueue o p).
Proof. unfold media_enqueue. tend. Qed.
#[local] Hint Resolve tends_media_enqueue : tends.
Lemma tends_send_device_state c : tends T (send_device_state c).
Proof. unfold send_device_state. tend. Qed.
#[local] Hint Resolve tends_send_device_state : tends.
Lemma tends_op_complete id r pid c u : tends T (op_complete id r pid c u).
Proof. unfold op_complete. tend. Qed.
#[local] Hint Resolve tends_op_complete : tends.
Lemma tends_voice_finish_stream r c : tends T (voice_finish_stream r c).
Proof. unfold voice_finish_stream. tend. Qed.
#[local] Hint Resolve tends_voice_finish_stream : tends.
Lemma tends_request_stop now : tends T (request_stop now).
Proof. unfold request_stop. tend. Qed.
#[local] Hint Resolve tends_request_stop : tends.
Lemma tends_voice_fault r : tends T (voice_fault r).
Proof. unfold voice_fault. tend. Qed.
#[local] Hint Resolve tends_voice_fault : tends.
Lemma tends_encoded_loop fuel size samples bytes : tends T (encoded_loop fuel size samples bytes).
Proof. revert bytes. induction fuel as [|fuel IH]; intros bytes; cbn [encoded_loop]; cbv zeta; tend. Qed.
#[local] Hint Resolve tends_encoded_loop : tends.
Lemma tends_rbp_server_on_voice ev now : tends T (rbp_server_on_voice ev now).
Proof. unfold rbp_server_on_voice. tend. Qed.
#[local] Hint Resolve tends_rbp_server_on_voice : tends.
(** A call of the radio or of the adapter, other than the report of a failure. *)
Definition radio_call (a : api) : bool :=
  match a with ATick _ | AUsbRx _ _ | AAdapterFailed _ => false | _ => true end.
Lemma tends_radio a : radio_call a = true -> tends T (run_api a).
Proof. destruct a; try discriminate; intros _; cbn [run_api]; tend. Qed.
Lemma tends_adapter_failed m : tends T (call disconnect) -> tends T (run_api (AAdapterFailed m)).
Proof. intros Hd. cbn [run_api]. unfold rbp_server_adapter_failed. tend. Qed.
#[local] Hint Resolve tends_radio : tends.
Context `{F : !EnvTends W E T}.
Lemma tends_respond_error h st m u : tends T (respond_error h st m u).
Proof. unfold respond_error. tend. Qed.
#[local] Hint Resolve tends_respond_error : tends.
Lemma tends_dispatch_opcode h rd : tends T (dispatch_opcode h rd).
Proof. unfold dispatch_opcode. tend. Qed.
#[local] Hint Resolve tends_dispatch_opcode : tends.
Lemma tends_process_frame h p c : tends T (process_frame h p c).
Proof. unfold process_frame. tend. Qed.
#[local] Hint Resolve tends_process_frame : tends.
Lemma tends_server_rx_event ev : tends T (server_rx_event ev).
Proof. unfold server_rx_event. tend. Qed.
#[local] Hint Resolve tends_server_rx_event : tends.
Lemma tends_drain fuel p data now σ p' σ' :
  rx_drain (fun ev σ => exec (server_rx_event ev) σ) fuel p data now σ = Some (p', σ') -> T (snd σ) (snd σ').
Proof.
  revert p data σ. induction fuel as [|fuel IH]; intros p [|b data] σ; cbn [rx_drain]; try done; try (by intros [= <- <-]).
  destruct (rbp_rxparser_feed p (b :: data) now) as [[p1 ev] rest]. pose proof (tends_server_rx_event ev σ) as He.
  fold (exec (server_rx_event ev) σ) in He. intros Hd. etrans; [exact He|].
  destruct ev; first [by injection Hd as _ <-|exact (IH _ _ _ Hd)].
Qed.
Lemma tends_rx data now : tends T (rbp_server_on_usb_rx data now).
Proof.
  intros [s w]. unfold rbp_server_on_usb_rx, rbp_rx_drain. destruct (rx_drain _ _ _ _ _ _) as [[p [s' w']]|] eqn:Hd; [|cbn; reflexivity].
  by apply tends_drain in Hd.
Qed.
#[local] Hint Resolve tends_rx : tends.
(** Every entry point. *)
Lemma tends_api a : tends T (run_api a).
Proof. destruct a; cbn [run_api]; tend. Qed.
End functions.
