(* ===== verification/CentralState.v ===== *)
(** * The radio central: state and surroundings

    wch_central.c: the static variables as [central_t], the calls of the vendor's
    BLE library ([gap_call]) and of the rest of the firmware ([fw_call]), both
    parameters ([Library], [Platform], [Firmware]), and what the server asks of the
    radio while it is called ([request]).  Every call, every fault record and every event of the
    library is noted in a log, calls of the library with the state in which they
    are made.  Traces and the debug build are left out. *)
From Stdlib Require Import String.
From S2P Require Import Prelude Defs ServerState ServerLink Server Board Gatt Atvv AdapterState Adapter AdapterCache.
#[local] Open Scope string_scope.
#[local] Open Scope list_scope.
#[local] Open Scope Z_scope.

(** ** Constants of the vendor's library *)
Definition FAILURE : Z := 1.
Definition NV_OPER_FAILED : Z := 0x0A.
Definition bleGAPUserCanceled : Z := 0x30.
Definition INVALID_TASK_ID : Z := 0xFF.
Definition INVALID_CONNHANDLE : Z := 0xFFFF.
Definition ADDRTYPE_PUBLIC : Z := 0.
Definition ADDRTYPE_STATIC : Z := 1.
Definition ADDRTYPE_PRIVATE_RESOLVE : Z := 3.
Definition GAP_ADRPT_ADV_IND : Z := 0.
Definition GAP_ADRPT_ADV_DIRECT_IND : Z := 1.
Definition GAP_ADRPT_SCAN_RSP : Z := 4.
Definition DEVDISC_MODE_ALL : Z := 3.
Definition TGAP_DISC_SCAN : Z := 2.
Definition TGAP_DISC_SCAN_INT : Z := 5.
Definition TGAP_DISC_SCAN_WIND : Z := 6.
Definition TGAP_CONN_EST_INT_MIN : Z := 7.
Definition TGAP_CONN_EST_INT_MAX : Z := 8.
Definition TGAP_CONN_EST_SCAN_INT : Z := 9.
Definition TGAP_CONN_EST_SCAN_WIND : Z := 10.
Definition TGAP_CONN_EST_SUPERV_TIMEOUT : Z := 13.
Definition GAPBOND_CENT_PAIRING_MODE : Z := 0x408.
Definition GAPBOND_CENT_MITM_PROTECTION : Z := 0x409.
Definition GAPBOND_CENT_IO_CAPABILITIES : Z := 0x40A.
Definition GAPBOND_CENT_BONDING_ENABLED : Z := 0x40D.
Definition GAPBOND_ERASE_ALLBONDS : Z := 0x410.
Definition GAPBOND_BOND_COUNT : Z := 0x415.
Definition GAPBOND_BOND_FAIL_ACTION : Z := 0x416.
Definition GAPBOND_BOND_AUTO : Z := 0x418.
Definition GAPBOND_ERASE_AUTO : Z := 0x41E.
Definition GAPBOND_AUTO_SYNC_RL : Z := 0x41F.
Definition GAPBOND_PAIRING_MODE_NO_PAIRING : Z := 0.
Definition GAPBOND_PAIRING_MODE_INITIATE : Z := 2.
Definition GAPBOND_IO_CAP_KEYBOARD_DISPLAY : Z := 4.
Definition GAPBOND_FAIL_TERMINATE_LINK : Z := 2.
Definition GAPBOND_PAIRING_STATE_STARTED : Z := 0.
Definition GAPBOND_PAIRING_STATE_COMPLETE : Z := 1.
Definition GAPBOND_PAIRING_STATE_BONDED : Z := 2.
Definition GAPBOND_PAIRING_STATE_BOND_SAVED : Z := 3.
Definition SMP_PAIRING_FAILED_CONFIRM_VALUE : Z := 4.
Definition mainRecordNvID : Z := 0x20.
Definition devIRKNvID : Z := 0x23.
Definition SYS_EVENT_MSG : Z := 0x8000.

(** ** The state *)
Definition WC_START_EVT : Z := 1.
Definition WC_POLL_EVT : Z := 2.
Definition MAX_CAND : Z := 8.
Definition CANCEL_TIMEOUT_MS : Z := 5000.
Definition WC_ESTABLISH_FAILED : Z := 0x3e.
Definition WC_EARLY_RETRY_LIMIT : Z := 2.
Inductive wc_state_t :=
  WC_IDLE | WC_SCAN | WC_CONNECTING | WC_CONNECTED | WC_RESOLVE | WC_SCAN_STOPPING | WC_CONNECT_CANCEL | WC_DISCONNECTING.
Inductive next_link_t := NEXT_NONE | NEXT_PAIR | NEXT_RECONNECT.
#[export] Instance wc_state_eq_dec : EqDecision wc_state_t.
Proof. solve_decision. Defined.
#[export] Instance next_link_eq_dec : EqDecision next_link_t.
Proof. solve_decision. Defined.
(** The static variables, the flags of [central_flags] and the shared clock
    [wch_now_ms].  [w_candidates] are the first [candidate_count] elements of
    the array, each an address and its type. *)
Record central_t := Central {
  w_state : wc_state_t; w_backoff : Z; w_early_retries : Z; w_next_link : next_link_t;
  w_radio_faulted : bool; w_security_blocked : bool; w_passkey_pending : bool; w_radio_ready : bool;
  w_pair_pending : bool; w_bond_ready : bool; w_adapter_started : bool; w_recovering : bool;
  w_delete_report : bool; w_erase_requested : bool; w_deadline : Z; w_reconnect_at : Z;
  w_recovery_deadline : Z; w_target_addr : list Z; w_target_type : Z; w_identity : list Z;
  w_identity_type : Z; w_peer_irk : list Z; w_have_irk : bool; w_candidates : list (list Z * Z);
  w_cache_synced : bool; w_link_established_ms : Z; w_conn_handle : Z; w_display_passkey : Z; w_now : Z }.
#[export] Instance eta_central_t : Eta central_t := fun a =>
  Central (w_state a) (w_backoff a) (w_early_retries a) (w_next_link a) (w_radio_faulted a)
    (w_security_blocked a) (w_passkey_pending a) (w_radio_ready a) (w_pair_pending a) (w_bond_ready a)
    (w_adapter_started a) (w_recovering a) (w_delete_report a) (w_erase_requested a) (w_deadline a)
    (w_reconnect_at a) (w_recovery_deadline a) (w_target_addr a) (w_target_type a) (w_identity a)
    (w_identity_type a) (w_peer_irk a) (w_have_irk a) (w_candidates a) (w_cache_synced a)
    (w_link_established_ms a) (w_conn_handle a) (w_display_passkey a) (w_now a).
Definition central0 : central_t :=
  Central WC_IDLE 0 0 NEXT_NONE false false false false false false false false false false 0 0 0 (replicate 6 0) 0
    (replicate 6 0) 0 (replicate 16 0) false [] false 0 GAP_CONNHANDLE_INIT 0 0.

(** ** The surroundings *)
(** Calls of the vendor's library that return a status. *)
Inductive gap_call :=
| Set_param (id value : Z) | Bond_param (id value : Z) | Erase_bonds
| Start_discovery (mode : Z) (active white_list : bool) | Cancel_discovery
| Establish_link (type : Z) (addr : list Z) | Terminate_link (h : Z)
| Passcode_rsp (h status key : Z) | Config_addr (type : Z) | Start_device | Init_client.
(** Its events; an advertisement is a [device_info]. *)
Record device_info := DeviceInfo {
  di_event_type : Z; di_addr_type : Z; di_addr : list Z; di_rssi : Z; di_data : list Z }.
Inductive gap_event :=
| E_init_done (status : Z) | E_established (status h : Z) | E_terminated (h reason : Z)
| E_param_update (h status : Z) | E_phy_update (h status tx rx : Z)
| E_device_info (i : device_info) | E_direct_info (addr : list Z) (addr_type event_type : Z)
| E_discovery (status : Z).
(** A message of the task: of the attribute client, or none of ours. *)
Inductive tmos_msg := Gatt_event (conn method : Z) (m : list Z) | Other_event.
(** Calls of the server, the adapter, the attribute client and the board. *)
Inductive fw_call :=
| Srv (a : api) | Gatt_quiesce | Gatt_set_conn (h : Z) | Gatt_on_msg (conn method : Z) (m : list Z)
| Adapter_detach | Adapter_start_bound (now peer : Z) | Adapter_commit_bond (peer : Z) | Adapter_mic_stop
| Cache_import (peer : Z) (data : list Z) | Cache_save (peer : Z) (data : list Z)
| Addr_stage (addr : list Z) (type : Z) | Hid_flags_stage (flags : Z)
| Begin_pair | Begin_forget | Store_clear.
(** The operations of [rbp_radio_backend_t]. *)
Inductive request :=
| Q_start_find (duration : Z) | Q_stop_find | Q_pair_begin (id : Z)
| Q_pair_reply (accept has_passkey : bool) (passkey : Z) | Q_pair_cancel | Q_forget_peer | Q_connect_peer
| Q_disconnect | Q_voice_stop.
(** The vendor's library, and what the central reads of the board and the
    adapter. *)
Class Library (W : Type) := {
  gap : gap_call -> W -> Z * W;
  bond_count : W -> Z * Z;  (** status, count *)
  bond_record : W -> Z * (list Z * Z);  (** status, public address and its type *)
  bond_irk : W -> Z * list Z;
  GAP_ResolvePrivateAddr : list Z -> list Z -> Z;
  link_encrypted : Z -> W -> bool;
  tmos_rand : W -> Z * W;
  task_id : W -> Z;
  storage_state : W -> Z; peer_counter : W -> Z; hid_flags : W -> Z; addr_load : W -> option (list Z * Z);
  cache_load : Z -> W -> list Z;
  adapter_of : W -> adapter_t }.
Class Platform (W : Type) := { platform_library :: Library W; server_of : W -> rbp_server }.
(** What a call returns (a [bool] is 0 or 1) and asks of the radio. *)
Class Firmware (W : Type) := firmware : fw_call -> W -> Z * list request * W.

Inductive cact :=
| Gap (c : central_t) (g : gap_call) (status : Z) | Bonds (status count : Z) | Fw (f : fw_call) (r : Z)
| Fault (stage status context : Z) | Evt (e : gap_event).
Record cst (W : Type) := CSt { cn : central_t; cw : W; clog : list cact }.
Arguments CSt {W} _ _ _.
Arguments cn {W} _.
Arguments cw {W} _.
Arguments clog {W} _.
#[export] Instance eta_cst W : Eta (cst W) := fun s => CSt (cn s) (cw s) (clog s).

Section surroundings.
Context {W : Type} `{P : Platform W}.
Implicit Types s : cst W.

Definition on_cn (f : central_t -> central_t) s : cst W := s <| cn := f (cn s) |>.
Definition note (x : cact) s : cst W := s <| clog := clog s ++ [x] |>.
Definition gap_result (stage status context : Z) s : cst W :=
  if negb (status =? SUCCESS) && negb ((stage =? 11) && (status =? 0xfe)) then note (Fault stage status context) s else s.
Definition gap_try (g : gap_call) s : Z * cst W :=
  let '(status, w) := gap g (cw s) in (status, note (Gap (cn s) g status) (s <| cw := w |>)).
Definition gap_do (stage : Z) (g : gap_call) (context : Z) s : Z * cst W :=
  let '(status, s) := gap_try g s in (status, gap_result stage status context s).
Definition get_bond_count s : Z * Z * cst W :=
  let '(status, count) := bond_count (cw s) in
  (status, count, gap_result 2 status GAPBOND_BOND_COUNT (note (Bonds status count) s)).
(** The clock has 32 bits. *)
Definition later (s : cst W) (ms : Z) : Z := u32 (w_now (cn s) + ms).
Definition passed (deadline : Z) s : bool := due (w_now (cn s)) deadline.
Definition is_state (st : wc_state_t) s : bool := bool_decide (w_state (cn s) = st).
Definition reconnect_schedule s : cst W :=
  on_cn (fun c => c <| w_reconnect_at := later s (znth [1000; 2000; 5000] (w_backoff c)) |>
                  <| w_backoff := if w_backoff c <? 2 then w_backoff c + 1 else 2 |>) s.
Definition set_state (st : wc_state_t) (timeout : Z) s : cst W :=
  on_cn (fun c => c <| w_state := st |> <| w_deadline := later s timeout |>) s.
End surroundings.

(** ** Advertisements *)
(** One character: its length and code point before the check of its range. *)
Definition name_lead (c : Z) : option (Z * Z) :=
  if (0xc2 <=? c) && (c <=? 0xdf) then Some (Z.land c 31, 2)
  else if (0xe0 <=? c) && (c <=? 0xef) then Some (Z.land c 15, 3)
  else if (0xf0 <=? c) && (c <=? 0xf4) then Some (Z.land c 7, 4)
  else if (0x80 <=? c) || (c <? 0x20) then None else Some (c, 1).
Fixpoint name_tail (cp : Z) (l : list Z) : option Z :=
  match l with
  | [] => Some cp
  | b :: l => if Z.land b 0xc0 =? 0x80 then name_tail (Z.lor (Z.shiftl cp 6) (Z.land b 63)) l else None
  end.
Definition name_range (k cp : Z) : bool :=
  negb (((k =? 3) && (cp <? 0x800)) || ((k =? 4) && (cp <? 0x10000)) || (0x10ffff <? cp) ||
        ((0xd800 <=? cp) && (cp <=? 0xdfff))).
(** The length of the character at the front, or [None] to reject the name. *)
Definition name_char (p : list Z) : option Z :=
  match p with
  | [] => None
  | c :: _ =>
    match name_lead c with
    | None => None
    | Some (cp, k) =>
      if zlen p <? k then None
      else match name_tail cp (slice p 1 (k - 1)) with
      | Some cp => if name_range k cp then Some k else None
      | None => None
      end
    end
  end.
(** [i] bytes are done, [out] was written; [false] when the name is rejected. *)
Fixpoint name_loop (fuel : nat) (i : Z) (p out : list Z) : bool * list Z :=
  match p, fuel with
  | [], _ => (true, out)
  | _ :: _, O => (false, out)
  | _ :: _, S fuel =>
    match name_char p with
    | None => (false, out)
    | Some k => name_loop fuel (i + k) (drop (Z.to_nat k) p) (if i + k <? 48 then out ++ slice p 0 k else out)
    end
  end.
(** The array after the call and the result.  The array was zero. *)
Definition candidate_name (p : list Z) : list Z * Z :=
  let '(ok, out) := name_loop (length p) 0 p [] in
  (splice (replicate 48 0) 0 out, if ok then zlen out else 0).

Definition has_uuid (d : list Z) (lo hi : Z) : bool :=
  existsb (fun i => let j := 2 * Z.of_nat i in (j + 1 <? zlen d) && (znth d j =? lo) && (znth d (j + 1) =? hi))
    (List.seq 0 (length d)).
(** The structures of the advertisement: the name, and whether the HID and the
    voice service are listed; [None] when a structure does not fit. *)
Fixpoint ad_loop (fuel : nat) (data : list Z) (name : option (list Z)) (hid voice : bool) :
    option (option (list Z) * bool * bool) :=
  match data, fuel with
  | [], _ | _, O => Some (name, hid, voice)
  | n :: rest, S fuel =>
    if n =? 0 then Some (name, hid, voice)
    else if zlen rest <? n then None
    else
      let type := znth rest 0 in
      let d := slice rest 1 (n - 1) in
      let listed := (type =? 2) || (type =? 3) in
      ad_loop fuel (drop (Z.to_nat n) rest) (if (type =? 8) || (type =? 9) then Some d else name)
        (hid || (listed && has_uuid d 0x12 0x18)) (voice || (listed && has_uuid d 0x00 0xfd))
  end.
Fixpoint find_candidate (cs : list (list Z * Z)) (addr : list Z) (type i : Z) : Z :=
  match cs with
  | [] => i
  | (a, t) :: cs => if (t =? type) && bool_decide (a = addr) then i else find_candidate cs addr type (i + 1)
  end.
