(* ===== verification/Central.v ===== *)
(** * The radio central

    wch_central.c: scanning, pairing, reconnecting and the recovery of an
    interrupted bond transaction.  The operations are over [fw], a call of the
    rest of the firmware with everything the firmware asks of the radio during
    it; [fw_with] ties the knot: requests are carried out when the call returns,
    nested to a depth that is a parameter. *)
From Stdlib Require Import String.
From S2P Require Import Prelude Defs ServerState ServerLink Server Board Gatt Atvv AdapterState Adapter AdapterCache CentralState.
#[local] Open Scope string_scope.
#[local] Open Scope list_scope.
#[local] Open Scope Z_scope.

Section central.
Context {W : Type} `{P : Platform W} (fw : fw_call -> cst W -> Z * cst W).
Implicit Types s : cst W.

Definition fw_do (f : fw_call) s : cst W := snd (fw f s).
Definition srv (a : api) : cst W -> cst W := fw_do (Srv a).
Definition on_link (st : rbp_link_state_t) s : cst W := srv (ALink st 0 (w_now (cn s))) s.
Definition on_link_message (m : string) : cst W -> cst W := srv (ALinkMessage (cstr m)).

(** ** The attribute cache and faults *)
Definition sync_gatt_cache s : cst W :=
  let a := adapter_of (cw s) in
  if negb (storage_state (cw s) =? 1) || (a_cache_peer_id a =? 0) then s
  else
    let data := rc003_adapter_cache_export a BOARD_CACHE_MAX in
    if a_cache_valid a && (zlen data =? 0) then s
    else
      let '(ok, s) := fw (Cache_save (a_cache_peer_id a) data) s in
      if ok =? 0 then on_link_message "GATT cache storage failed" s else s.
Definition radio_fault (why : string) s : cst W :=
  let s := on_cn (fun c => c <| w_next_link := NEXT_NONE |>) s in
  if w_radio_faulted (cn s) then s
  else
    let s := on_cn (fun c => c <| w_radio_faulted := true |>) s in
    let s := fw_do Adapter_detach (sync_gatt_cache (fw_do Gatt_quiesce s)) in
    on_link RBP_LINK_ERROR (on_link_message why s).
Definition disconnected_retry (early : bool) s : cst W :=
  let s := on_link (if w_radio_faulted (cn s) || w_security_blocked (cn s) then RBP_LINK_ERROR
                    else if storage_state (cw s) =? 1 then RBP_LINK_DISCONNECTED else RBP_LINK_UNBOUND) s in
  let c := cn s in
  if early && negb (w_radio_faulted c) && negb (w_security_blocked c) && negb (w_recovering c) &&
     (storage_state (cw s) =? 1) && (w_early_retries c <? WC_EARLY_RETRY_LIMIT)
  then on_cn (fun c => c <| w_early_retries := w_early_retries c + 1 |> <| w_reconnect_at := w_now c |>) s
  else reconnect_schedule s.
Definition disconnected : cst W -> cst W := disconnected_retry false.

(** ** Releasing the radio *)
Definition stop_scan s : cst W :=
  if is_state WC_SCAN_STOPPING s then s
  else
    let s := set_state WC_SCAN_STOPPING CANCEL_TIMEOUT_MS s in
    let '(status, s) := gap_do 4 Cancel_discovery 0 s in
    if status =? SUCCESS then s else on_link_message "scan cancel rejected; awaiting completion" s.
Definition rb_disconnect s : cst W :=
  let s := on_cn (fun c => c <| w_next_link := NEXT_NONE |> <| w_passkey_pending := false |>) s in
  match w_state (cn s) with
  | WC_SCAN | WC_RESOLVE => stop_scan s
  | WC_CONNECTING =>
    let s := set_state WC_CONNECT_CANCEL CANCEL_TIMEOUT_MS s in
    let '(status, s) := gap_do 9 (Terminate_link INVALID_CONNHANDLE) 0 s in
    if status =? SUCCESS then s else on_link_message "initiation cancel rejected; awaiting terminal event" s
  | WC_CONNECTED =>
    let s := fw_do Adapter_detach (sync_gatt_cache (fw_do Gatt_quiesce s)) in
    let s := set_state WC_DISCONNECTING CANCEL_TIMEOUT_MS s in
    let '(status, s) := gap_do 9 (Terminate_link (w_conn_handle (cn s))) 0 s in
    if status =? SUCCESS then s else on_link_message "disconnect rejected; awaiting terminal event" s
  | _ => s
  end.

(** ** Pairing *)
Definition fail_pair (status : Z) s : cst W :=
  if negb (w_pair_pending (cn s)) then s
  else
    let s := on_cn (fun c => c <| w_pair_pending := false |> <| w_recovering := storage_state (cw s) =? 3 |>
      <| w_delete_report := false |> <| w_erase_requested := false |> <| w_recovery_deadline := 0 |>) s in
    rb_disconnect (srv (APairDone status false None 0) s).
Definition sdk_message (phase : string) (code : Z) : list Z :=
  take 40 (cstr phase) ++ cstr " (SDK 0x" ++ [hex (Z.shiftr code 4); hex (Z.land code 15)] ++ cstr ")".
Definition fail_pair_sdk (phase : string) (code : Z) s : cst W :=
  if negb (w_pair_pending (cn s)) then s
  else
    let s := fail_pair RBP_STATUS_PAIRING_FAILED s in
    on_link RBP_LINK_ERROR (srv (ALinkMessage (sdk_message phase code)) s).
(** Neither all zero nor all 255. *)
Definition meaningful (l : list Z) : bool :=
  negb (forallb (fun b => b =? 0) l) && negb (forallb (fun b => b =? 255) l).
Definition read_identity s : bool * cst W :=
  let '(cs, count, s) := get_bond_count s in
  let '(rs, (addr, type)) := bond_record (cw s) in
  let s := gap_result 12 rs mainRecordNvID s in
  if negb (cs =? SUCCESS) || negb (count =? 1) || negb (rs =? SUCCESS) then (false, s)
  else if (1 <? type) || negb (meaningful addr) then (false, s)
  else
    let '(ir, irk) := bond_irk (cw s) in
    let s := on_cn (fun c => c <| w_identity := addr |> <| w_identity_type := type |>
      <| w_peer_irk := if ir =? SUCCESS then irk else replicate 16 0 |>
      <| w_have_irk := (ir =? SUCCESS) && meaningful irk |>) s in
    (true, gap_result 12 ir devIRKNvID s).
Definition finish_pair s : cst W :=
  let '(ok, s) := read_identity s in
  if negb ok then fail_pair RBP_STATUS_STORAGE_FAILED s
  else
    let a := adapter_of (cw s) in
    let rec := PeerRecord (peer_counter (cw s)) (cstr "BLE Remote") true in
    let s := fw_do (Addr_stage (w_identity (cn s)) (w_identity_type (cn s))) s in
    let s := fw_do (Hid_flags_stage (if a_hid_info_valid a then a_hid_flags a else 255)) s in
    let s := on_cn (fun c => c <| w_pair_pending := false |>) s in
    let s := srv (APairDone RBP_STATUS_OK true (Some rec) 0) s in
    if storage_state (cw s) =? 1 then fw_do (Adapter_commit_bond (pr_peer_id rec)) s
    else
      let s := on_cn (fun c => c <| w_recovering := true |> <| w_delete_report := false |>
        <| w_erase_requested := false |> <| w_recovery_deadline := 0 |>) s in
      rb_disconnect s.
Definition begin_link (addr : list Z) (type : Z) s : cst W :=
  if negb (is_state WC_IDLE s) || w_radio_faulted (cn s) || w_recovering (cn s) then s
  else
    let s := on_cn (fun c => c <| w_target_addr := addr |> <| w_target_type := type |> <| w_next_link := NEXT_NONE |>) s in
    let '(status, s) :=
      gap_do 3 (Bond_param GAPBOND_CENT_PAIRING_MODE GAPBOND_PAIRING_MODE_INITIATE) GAPBOND_CENT_PAIRING_MODE s in
    if negb (status =? SUCCESS)
    then fail_pair_sdk "security setup failed" status (radio_fault "security setup failed" s)
    else
      let s := set_state WC_CONNECTING 20000 s in
      let s := on_cn (fun c => c <| w_adapter_started := false |> <| w_bond_ready := false |> <| w_passkey_pending := false |>) s in
      let s := on_link RBP_LINK_CONNECTING s in
      let '(status, s) := gap_do 5 (Establish_link type (w_target_addr (cn s))) 0 s in
      if status =? SUCCESS then s
      else
        let s := set_state WC_IDLE 0 s in
        let s := if w_pair_pending (cn s) then fail_pair_sdk "connection request failed" status s
                 else on_link RBP_LINK_DISCONNECTED s in
        reconnect_schedule s.

(** ** Advertisements *)
Definition resolve_advertisement (addr : list Z) (type event_type : Z) s : cst W :=
  let c := cn s in
  if negb (is_state WC_RESOLVE s) || w_radio_faulted c then s
  else if negb (event_type =? GAP_ADRPT_ADV_IND) && negb (event_type =? GAP_ADRPT_ADV_DIRECT_IND) then s
  else
    let known := (type =? w_identity_type c) && bool_decide (addr = w_identity c) in
    let resolved := w_have_irk c && ((type =? ADDRTYPE_STATIC) || (type =? ADDRTYPE_PRIVATE_RESOLVE)) &&
      (Z.land (znth addr 5) 0xc0 =? 0x40) && (GAP_ResolvePrivateAddr (w_peer_irk c) addr =? SUCCESS) in
    if known || resolved then
      stop_scan (on_cn (fun c => c <| w_target_addr := addr |> <| w_target_type := type |> <| w_next_link := NEXT_RECONNECT |>) s)
    else s.
(** The record for the server; [fresh] when the address was not seen before. *)
Definition make_candidate (i : device_info) (name : option (list Z)) (hid fresh : bool) (index : Z) : rbp_candidate_t :=
  let support := rc003_adapter_match name in
  let '(array, len) := match name with Some n => candidate_name n | None => (replicate 48 0, 0) end in
  let signal := if -60 <? di_rssi i then 3 else if -75 <? di_rssi i then 2 else 1 in
  let '(array, len) :=
    if (len =? 0) && fresh then
      let text := cstr (if negb (support =? 0) then "Xiaomi RC003" else if hid then "BLE HID candidate" else "BLE voice candidate") in
      (splice array 0 (text ++ [0]), zlen text)
    else (array, len) in
  Candidate (index + 1) support signal (if len =? 0 then splice array 0 [0] else array) len.
Definition on_device (i : device_info) s : cst W :=
  if is_state WC_RESOLVE s then resolve_advertisement (di_addr i) (di_addr_type i) (di_event_type i) s
  else if negb (is_state WC_SCAN s) then s
  else
    match ad_loop (length (di_data i)) (di_data i) None false false with
    | None => s
    | Some (name, hid, voice) =>
      let cs := w_candidates (cn s) in
      let index := find_candidate cs (di_addr i) (di_addr_type i) 0 in
      let fresh := index =? zlen cs in
      let named := match name with Some n => snd (candidate_name n) | None => 0 end in
      let discoverable := (di_event_type i =? GAP_ADRPT_ADV_IND) || (di_event_type i =? GAP_ADRPT_SCAN_RSP) in
      if fresh && (negb discoverable || ((rc003_adapter_match name =? 0) && negb hid && negb voice && (named =? 0))) then s
      else if fresh && (index =? MAX_CAND) then s
      else
        let s := if fresh then on_cn (fun c => c <| w_candidates := cs ++ [(di_addr i, di_addr_type i)] |>) s else s in
        srv (AScanCandidate (make_candidate i name hid fresh index)) s
    end.

(** ** Events of the library *)
Definition event_opcode (e : gap_event) : Z :=
  match e with
  | E_init_done _ => 0 | E_discovery _ => 1 | E_established _ _ => 5 | E_terminated _ _ => 6 | E_param_update _ _ => 7
  | E_device_info _ => 0x0D | E_direct_info _ _ _ => 0x10 | E_phy_update _ _ _ _ => 0x11
  end.
Definition header_status (e : gap_event) : Z :=
  match e with E_init_done st | E_established st _ | E_discovery st => st | _ => SUCCESS end.
Definition ev_init_done (status : Z) s : cst W :=
  let s := on_cn (fun c => c <| w_radio_ready := status =? SUCCESS |>) s in
  if negb (status =? SUCCESS) then radio_fault "BLE initialization failed" s
  else
    let '(status, s) := gap_do 10 (Config_addr ADDRTYPE_PUBLIC) 0 s in
    if status =? SUCCESS then s
    else radio_fault "local address configuration failed" (on_cn (fun c => c <| w_radio_ready := false |>) s).
Definition link_up (h : Z) s : cst W :=
  if negb (w_conn_handle (cn s) =? GAP_CONNHANDLE_INIT) then s
  else
    let c := cn s in
    let wanted := is_state WC_CONNECTING s && negb (w_recovering c) && negb (w_radio_faulted c) && negb (w_security_blocked c) in
    let s := on_cn (fun c => c <| w_conn_handle := h |> <| w_link_established_ms := w_now c |>) s in
    let s := set_state WC_CONNECTED (if w_pair_pending c then 60000 else 30000) s in
    let s := on_cn (fun c => c <| w_adapter_started := false |>) s in
    if negb wanted then rb_disconnect s
    else
      let s := fw_do (Gatt_set_conn h) s in
      if w_pair_pending (cn s) then on_link RBP_LINK_INITIALIZING s
      else
        let '(status, s) :=
          gap_do 3 (Bond_param GAPBOND_CENT_PAIRING_MODE GAPBOND_PAIRING_MODE_NO_PAIRING) GAPBOND_CENT_PAIRING_MODE s in
        if negb (status =? SUCCESS) then rb_disconnect (radio_fault "restore security policy failed" s)
        else on_link RBP_LINK_INITIALIZING s.
Definition ev_established (status h : Z) s : cst W :=
  if status =? SUCCESS then link_up h s
  else if is_state WC_CONNECTING s || is_state WC_CONNECT_CANCEL s then
    let early := is_state WC_CONNECTING s && negb (w_pair_pending (cn s)) && (status =? WC_ESTABLISH_FAILED) in
    let s := set_state WC_IDLE 0 s in
    let s := fail_pair_sdk "connection completion failed" status s in
    disconnected_retry early (note (Fault 68 status 0) s)
  else s.
Definition ev_terminated (h reason : Z) s : cst W :=
  let c := cn s in
  if (w_conn_handle c =? GAP_CONNHANDLE_INIT) || negb (h =? w_conn_handle c) then s
  else
    let age := Z.min (u32 (w_now c - w_link_established_ms c)) 0x3fffffff in
    let s := note (Fault 65 reason (Z.lor (Z.lor age (if w_adapter_started c then 0x80000000 else 0))
                                      (if a_ready (adapter_of (cw s)) then 0x40000000 else 0))) s in
    let early := is_state WC_CONNECTED s && negb (w_pair_pending c) && negb (w_adapter_started c) &&
                 (reason =? WC_ESTABLISH_FAILED) in
    let s := on_cn (fun c => c <| w_conn_handle := GAP_CONNHANDLE_INIT |>) s in
    let s := set_state WC_IDLE 0 (fw_do (Gatt_set_conn GAP_CONNHANDLE_INIT) s) in
    let s := on_cn (fun c => c <| w_adapter_started := false |> <| w_passkey_pending := false |>) s in
    let s := fw_do Adapter_detach (sync_gatt_cache s) in
    disconnected_retry early (fail_pair RBP_STATUS_LINK_LOST s).
Definition ev_discovery (status : Z) s : cst W :=
  match w_state (cn s) with
  | WC_SCAN_STOPPING =>
    let next := w_next_link (cn s) in
    let s := set_state WC_IDLE 0 (on_cn (fun c => c <| w_next_link := NEXT_NONE |>) s) in
    if negb (status =? SUCCESS) && negb (status =? bleGAPUserCanceled)
    then fail_pair_sdk "scan completion failed" status (radio_fault "scan completion failed" s)
    else if negb (bool_decide (next = NEXT_NONE)) && negb (w_radio_faulted (cn s)) && negb (w_recovering (cn s))
    then begin_link (w_target_addr (cn s)) (w_target_type (cn s)) s
    else disconnected s
  | WC_SCAN => let s := set_state WC_IDLE 0 s in srv (AScanDone RBP_FIND_DONE_EXPIRED (w_now (cn s))) s
  | WC_RESOLVE => disconnected (set_state WC_IDLE 0 s)
  | _ => s
  end.
Definition update_fault (stage h status context : Z) s : cst W :=
  if (w_conn_handle (cn s) =? GAP_CONNHANDLE_INIT) || negb (h =? w_conn_handle (cn s)) then s
  else if status =? SUCCESS then s else note (Fault stage status context) s.
Definition wc_event_cb (e : gap_event) s : cst W :=
  let s := note (Evt e) s in
  let status := header_status e in
  let s := if negb (status =? SUCCESS) && negb (status =? bleGAPUserCanceled)
           then note (Fault 64 status (event_opcode e)) s else s in
  match e with
  | E_init_done status => ev_init_done status s
  | E_established status h => ev_established status h s
  | E_terminated h reason => ev_terminated h reason s
  | E_param_update h status => update_fault 66 h status 0 s
  | E_phy_update h status tx rx => update_fault 67 h status (Z.lor tx (Z.shiftl rx 8)) s
  | E_device_info i => on_device i s
  | E_direct_info addr type event_type => resolve_advertisement addr type event_type s
  | E_discovery status => ev_discovery status s
  end.

(** ** Security callbacks *)
Definition passcode_response_failed (status : Z) : bool := negb (status =? SUCCESS) && negb (status =? 0xfe).
Definition respond_passcode (h st key : Z) (phase : string) s : cst W :=
  let '(status, s) := gap_do 11 (Passcode_rsp h st key) 0 s in
  if passcode_response_failed status then fail_pair_sdk phase status s else s.
Definition wc_passcode_cb (h : Z) (inputs outputs : bool) s : cst W :=
  if negb (h =? w_conn_handle (cn s)) || negb (is_state WC_CONNECTED s) || negb (w_pair_pending (cn s)) then s
  else if inputs then
    srv (APairPrompt RBP_PROMPT_ENTER_PASSKEY 0 30000) (on_cn (fun c => c <| w_passkey_pending := true |>) s)
  else if outputs then
    let '(r, w) := tmos_rand (cw s) in
    let key := r mod 1000000 in
    let s := on_cn (fun c => c <| w_display_passkey := key |>) (s <| cw := w |>) in
    let s := srv (APairPrompt RBP_PROMPT_DISPLAY_PASSKEY key 30000) s in
    respond_passcode h SUCCESS (w_display_passkey (cn s)) "display passkey response failed" s
  else respond_passcode h SUCCESS 0 "just works response failed" s.
Definition block_security (why : string) s : cst W :=
  rb_disconnect (on_link_message why (on_cn (fun c => c <| w_security_blocked := true |>) s)).
Definition wc_pair_state_cb (h state status : Z) s : cst W :=
  let s := if status =? SUCCESS then s else note (Fault (32 + state) status 0) s in
  let mine := h =? w_conn_handle (cn s) in
  if (state =? GAPBOND_PAIRING_STATE_STARTED) && negb (w_pair_pending (cn s)) &&
     (is_state WC_CONNECTING s || (is_state WC_CONNECTED s && mine))
  then block_security "new pairing requires user action" s
  else if negb mine || negb (is_state WC_CONNECTED s) then s
  else if state =? GAPBOND_PAIRING_STATE_STARTED then on_link RBP_LINK_PAIRING s
  else if state =? GAPBOND_PAIRING_STATE_COMPLETE then
    if status =? SUCCESS then s
    else if w_pair_pending (cn s) then fail_pair_sdk "pair authentication failed" status s
    else block_security "bond authentication failed; user pairing required" s
  else if state =? GAPBOND_PAIRING_STATE_BONDED then
    if negb (status =? SUCCESS) && negb (w_pair_pending (cn s))
    then block_security "bond encryption failed; user pairing required" s else s
  else if (state =? GAPBOND_PAIRING_STATE_BOND_SAVED) && w_pair_pending (cn s) then
    if status =? SUCCESS then on_cn (fun c => c <| w_bond_ready := true |>) s else fail_pair RBP_STATUS_STORAGE_FAILED s
  else s.

(** ** The operations of the server *)
Definition set_params (params : list (Z * Z)) s : Z * cst W :=
  fold_left (fun '(status, s) '(id, v) => if status =? SUCCESS then gap_do 1 (Set_param id v) id s else (status, s))
    params (SUCCESS, s).
Definition start_discovery (params : list (Z * Z)) (active : bool) s : Z * cst W :=
  let '(status, s) := set_params params s in
  if status =? SUCCESS then gap_do 7 (Start_discovery DEVDISC_MODE_ALL active false) 0 s else (status, s).
Definition rb_start_find (duration : Z) s : Z * cst W :=
  let c := cn s in
  if negb (w_radio_ready c) || w_radio_faulted c then (RBP_STATUS_DEVICE_ERROR, s)
  else if w_recovering c || negb (is_state WC_IDLE s) then (RBP_STATUS_BUSY, s)
  else
    let s := on_cn (fun c => c <| w_candidates := [] |>) s in
    let ticks := Z.min (u32 (duration * 8) / 5) 65535 in
    let '(status, s) :=
      start_discovery [(TGAP_DISC_SCAN, ticks); (TGAP_DISC_SCAN_INT, 36); (TGAP_DISC_SCAN_WIND, 18)] true s in
    if status =? SUCCESS then (RBP_STATUS_OK, set_state WC_SCAN (ticks * 5 / 8 + CANCEL_TIMEOUT_MS) s)
    else (if status =? bleNoResources then RBP_STATUS_RESOURCE_LIMIT else RBP_STATUS_DEVICE_ERROR,
          on_link_message "discovery start rejected" s).
Definition rb_stop_find s : cst W :=
  if is_state WC_SCAN s then stop_scan (on_cn (fun c => c <| w_next_link := NEXT_NONE |>) s) else s.
(** The checks of [rb_pair_begin]; the later ones have effects. *)
Definition pair_check (id : Z) s : Z * cst W :=
  let c := cn s in
  if negb (w_radio_ready c) || w_radio_faulted c then (RBP_STATUS_DEVICE_ERROR, s)
  else if w_recovering c || (negb (is_state WC_IDLE s) && negb (is_state WC_SCAN_STOPPING s)) then (RBP_STATUS_BUSY, s)
  else if (id =? 0) || (zlen (w_candidates c) <? id) then (RBP_STATUS_NOT_FOUND, s)
  else
    let '(cs, count, s) := get_bond_count s in
    if negb (cs =? SUCCESS) then (RBP_STATUS_STORAGE_FAILED, s)
    else if negb (count =? 0) then (RBP_STATUS_BUSY, s)
    else
      let '(ok, s) := fw Begin_pair s in
      (if ok =? 0 then RBP_STATUS_STORAGE_FAILED else RBP_STATUS_OK, s).
Definition rb_pair_begin (id : Z) s : cst W :=
  let '(status, s) := pair_check id s in
  if negb (status =? RBP_STATUS_OK) then srv (APairDone status false None 0) s
  else
    let '(addr, type) := nth (Z.to_nat (id - 1)) (w_candidates (cn s)) ([], 0) in
    let s := on_cn (fun c => c <| w_pair_pending := true |> <| w_security_blocked := false |>
      <| w_target_addr := addr |> <| w_target_type := type |>) s in
    if is_state WC_SCAN_STOPPING s then on_cn (fun c => c <| w_next_link := NEXT_PAIR |>) s
    else begin_link addr type s.
Definition rb_pair_reply (accept has_passkey : bool) (passkey : Z) s : cst W :=
  let c := cn s in
  if negb (w_pair_pending c) || negb (is_state WC_CONNECTED s) || negb (w_passkey_pending c) then s
  else
    let s := on_cn (fun c => c <| w_passkey_pending := false |>) s in
    respond_passcode (w_conn_handle c) (if accept then SUCCESS else SMP_PAIRING_FAILED_CONFIRM_VALUE)
      (if has_passkey then passkey else w_display_passkey c) "user passkey response failed" s.
Definition rb_pair_cancel : cst W -> cst W := fail_pair RBP_STATUS_CANCELLED.
Definition rb_forget_peer s : cst W :=
  let '(ok, s) := fw Begin_forget s in
  if ok =? 0 then srv (AForgetDone RBP_STATUS_STORAGE_FAILED true) s
  else rb_disconnect (on_cn (fun c => c <| w_recovering := true |> <| w_delete_report := true |>
         <| w_erase_requested := false |> <| w_recovery_deadline := 0 |>) s).
(** The saved address is that of the bond record. *)
Definition identity_matches s : bool * cst W :=
  match addr_load (cw s) with
  | None => (false, s)
  | Some (addr, type) =>
    let '(ok, s) := read_identity s in
    (ok && (type =? w_identity_type (cn s)) && bool_decide (addr = w_identity (cn s)), s)
  end.
Definition rb_connect_peer s : cst W :=
  let c := cn s in
  if negb (w_radio_ready c) || w_radio_faulted c || w_security_blocked c || w_recovering c || negb (is_state WC_IDLE s) then s
  else
    let '(ok, s) := identity_matches s in
    if negb ok then
      on_link RBP_LINK_ERROR (on_link_message "bond identity unavailable/mismatch"
        (on_cn (fun c => c <| w_security_blocked := true |>) s))
    else
      let flags := hid_flags (cw s) in
      let interval := if (flags <=? 3) && negb (Z.land flags 2 =? 0) then 48 else 96 in
      let '(status, s) :=
        start_discovery [(TGAP_DISC_SCAN, 0); (TGAP_DISC_SCAN_INT, interval); (TGAP_DISC_SCAN_WIND, 48)] false s in
      if status =? SUCCESS then on_link RBP_LINK_CONNECTING (set_state WC_RESOLVE 0 s)
      else on_link_message "reconnect scan rejected" (disconnected s).
Definition backend (r : request) s : cst W :=
  match r with
  | Q_start_find d => snd (rb_start_find d s)
  | Q_stop_find => rb_stop_find s
  | Q_pair_begin id => rb_pair_begin id s
  | Q_pair_reply accept has key => rb_pair_reply accept has key s
  | Q_pair_cancel => rb_pair_cancel s
  | Q_forget_peer => rb_forget_peer s
  | Q_connect_peer => rb_connect_peer s
  | Q_disconnect => rb_disconnect s
  | Q_voice_stop => fw_do Adapter_mic_stop s
  end.

(** ** The task *)
Definition start_encrypted_adapter s : cst W :=
  let c := cn s in
  if is_state WC_CONNECTED s && negb (w_adapter_started c) && negb (w_radio_faulted c) && negb (w_security_blocked c) &&
     link_encrypted (w_conn_handle c) (cw s)
  then
    let s := on_cn (fun c => c <| w_adapter_started := true |> <| w_cache_synced := false |>) s in
    fw_do (Adapter_start_bound (w_now c) (if w_pair_pending c then 0 else peer_counter (cw s))) s
  else s.
Definition report_forgotten (status : Z) (uncertain : bool) s : cst W :=
  if w_delete_report (cn s) then srv (AForgetDone status uncertain) s else s.
(** The bonds are erased: the transaction is closed. *)
Definition recovered s : cst W :=
  let s :=
    if w_delete_report (cn s) then srv (AForgetDone RBP_STATUS_OK false) s
    else
      let '(ok, s) := fw Store_clear s in
      if negb (ok =? 0) then on_link RBP_LINK_UNBOUND (srv (APeerChanged peer_record0) s)
      else on_link RBP_LINK_ERROR (on_link_message "EEPROM recovery commit failed" s) in
  on_cn (fun c => c <| w_recovering := false |> <| w_security_blocked := false |>) s.
Definition poll_recovery s : cst W :=
  let abandon s := report_forgotten RBP_STATUS_STORAGE_FAILED true (on_cn (fun c => c <| w_recovering := false |>) s) in
  if w_radio_faulted (cn s) then abandon s
  else if negb (is_state WC_IDLE s) then s
  else
    let s := if w_recovery_deadline (cn s) =? 0 then on_cn (fun c => c <| w_recovery_deadline := later s 5000 |>) s else s in
    if passed (w_recovery_deadline (cn s)) s
    then on_link RBP_LINK_ERROR (on_link_message "bond transaction recovery failed" (abandon s))
    else if negb (w_erase_requested (cn s)) then
      let '(status, s) := gap_do 3 Erase_bonds GAPBOND_ERASE_ALLBONDS s in
      if status =? SUCCESS then on_cn (fun c => c <| w_erase_requested := true |>) s else s
    else
      let '(status, count, s) := get_bond_count s in
      if negb (status =? SUCCESS) || negb (count =? 0) then s else recovered s.
Definition save_cache_once s : cst W :=
  let a := adapter_of (cw s) in
  if negb (a_ready a) then s
  else
    let s := on_cn (fun c => c <| w_backoff := 0 |> <| w_early_retries := 0 |>) s in
    if negb (w_cache_synced (cn s)) && negb (w_pair_pending (cn s)) && negb (u_active (a_unicom a)) &&
       negb (stream_active (a_atvv a)) && negb (open_pending (a_atvv a))
    then sync_gatt_cache (on_cn (fun c => c <| w_cache_synced := true |>) s)
    else s.
Definition poll_connected s : cst W :=
  let s := start_encrypted_adapter s in
  let s := if w_pair_pending (cn s) && w_bond_ready (cn s) && a_ready (adapter_of (cw s)) then finish_pair s else s in
  let c := cn s in
  let s :=
    if (negb (w_adapter_started c) || (w_pair_pending c && negb (w_bond_ready c))) && passed (w_deadline c) s then
      let s := if w_pair_pending c then s
               else on_link_message "bond encryption timed out; retrying after disconnect" s in
      rb_disconnect (fail_pair RBP_STATUS_TIMEOUT s)
    else s in
  save_cache_once s.
Definition waiting_for_end s : bool :=
  is_state WC_SCAN_STOPPING s || is_state WC_CONNECT_CANCEL s || is_state WC_DISCONNECTING s.
Definition poll s : cst W :=
  if negb (w_radio_ready (cn s)) then
    if negb (w_radio_faulted (cn s)) && passed (w_deadline (cn s)) s
    then radio_fault "BLE initialization event timed out" s else s
  else
    let s :=
      if negb (w_radio_faulted (cn s)) && waiting_for_end s && passed (w_deadline (cn s)) s
      then fail_pair RBP_STATUS_TIMEOUT (radio_fault "radio cancellation completion timed out" s) else s in
    if w_recovering (cn s) then poll_recovery s
    else if w_radio_faulted (cn s) then s
    else match w_state (cn s) with
    | WC_CONNECTED => poll_connected s
    | WC_SCAN =>
      if passed (w_deadline (cn s)) s then rb_disconnect (srv (AScanDone RBP_FIND_DONE_EXPIRED (w_now (cn s))) s) else s
    | WC_CONNECTING => if passed (w_deadline (cn s)) s then rb_disconnect (fail_pair RBP_STATUS_TIMEOUT s) else s
    | WC_IDLE =>
      if negb (w_security_blocked (cn s)) && rbp_server_should_reconnect (server_of (cw s)) && passed (w_reconnect_at (cn s)) s
      then rb_connect_peer s else s
    | _ => s
    end.
(** One message, if there is one, then the other events that are set. *)
Definition on_message (m : tmos_msg) s : cst W :=
  let s :=
    match m with
    | Gatt_event conn method m =>
      let s := if (conn =? w_conn_handle (cn s)) && (method =? ATT_HANDLE_VALUE_NOTI) then start_encrypted_adapter s else s in
      fw_do (Gatt_on_msg conn method m) s
    | Other_event => s
    end in
  srv AFlush s.
Definition process (m : option tmos_msg) (events : Z) s : cst W :=
  let bit e := negb (Z.land events e =? 0) in
  let s := if bit SYS_EVENT_MSG then match m with Some m => on_message m s | None => s end else s in
  let s :=
    if bit WC_START_EVT && negb (w_radio_faulted (cn s)) then
      let '(status, s) := gap_do 6 Start_device 0 s in
      if status =? SUCCESS then s else radio_fault "BLE start rejected" s
    else s in
  if bit WC_POLL_EVT then poll s else s.

(** ** Start *)
Definition configure (stage : Z) (make : Z -> Z -> gap_call) (why : string) (params : list (Z * Z)) s : cst W :=
  fold_left (fun s '(id, v) =>
    let '(status, s) := gap_do stage (make id v) id s in
    if status =? SUCCESS then s else radio_fault why s) params s.
Definition wch_central_init s : cst W :=
  let peer := peer_counter (cw s) in
  let cache := cache_load peer (cw s) in
  let s :=
    if negb (zlen cache =? 0) then
      let '(ok, s) := fw (Cache_import peer cache) s in
      if ok =? 0 then fw_do (Cache_save peer []) s else s
    else s in
  let s := on_cn (fun c => c <| w_deadline := later s CANCEL_TIMEOUT_MS |>) s in
  let s := if task_id (cw s) =? INVALID_TASK_ID then radio_fault "TMOS task registration failed" s else s in
  let s := configure 1 Set_param "GAP configuration failed"
    [(TGAP_CONN_EST_INT_MIN, 12); (TGAP_CONN_EST_INT_MAX, 24); (TGAP_CONN_EST_SUPERV_TIMEOUT, 300);
     (TGAP_CONN_EST_SCAN_INT, 96); (TGAP_CONN_EST_SCAN_WIND, 48)] s in
  let s := configure 3 Bond_param "bond configuration failed"
    [(GAPBOND_CENT_PAIRING_MODE, GAPBOND_PAIRING_MODE_NO_PAIRING); (GAPBOND_CENT_MITM_PROTECTION, 0);
     (GAPBOND_CENT_IO_CAPABILITIES, GAPBOND_IO_CAP_KEYBOARD_DISPLAY); (GAPBOND_CENT_BONDING_ENABLED, 1);
     (GAPBOND_BOND_AUTO, 1); (GAPBOND_ERASE_AUTO, 0); (GAPBOND_AUTO_SYNC_RL, 0);
     (GAPBOND_BOND_FAIL_ACTION, GAPBOND_FAIL_TERMINATE_LINK)] s in
  let st := storage_state (cw s) in
  let s := on_cn (fun c => c <| w_recovering := (st =? 2) || (st =? 3) |> <| w_recovery_deadline := 0 |>) s in
  let s := if st =? 255 then radio_fault "invalid EEPROM record; recovery required" s else s in
  let '(status, s) := gap_try Init_client s in
  if status =? SUCCESS then s else radio_fault "GATT initialization failed" s.
End central.

(** ** The firmware around the central

    A call of the firmware, and then what the server asked of the radio during
    it.  Carrying that out calls the firmware again, up to [depth] times. *)
Section knot.
Context {W : Type} `{P : Platform W} `{F : Firmware W}.
Definition fw_with (carry : cst W -> request -> cst W) (f : fw_call) (s : cst W) : Z * cst W :=
  let '(r, rs, w) := firmware f (cw s) in (r, fold_left carry rs (note (Fw f r) (s <| cw := w |>))).
Fixpoint fw_call_at (depth : nat) : fw_call -> cst W -> Z * cst W :=
  fw_with (fun s r => match depth with O => s | S depth => backend (fw_call_at depth) r s end).
End knot.
