(* ===== verification/CandidateName.v ===== *)
(** * Names of candidates

    What [candidate_name] of [CentralState] makes of an advertised name, and
    that the record built from it is one the server can keep. *)
From Stdlib Require Import String.
From S2P Require Import Prelude Defs Tlv ServerState ServerInv Gatt Adapter CentralState Central.
#[local] Open Scope string_scope.
#[local] Open Scope list_scope.
#[local] Open Scope Z_scope.

(** Code points of a name: no control characters, no surrogates. *)
Definition shown (cp : Z) : Prop := 0x20 <= cp <= 0x10FFFF /\ ~ 0xD800 <= cp <= 0xDFFF.
(** The characters that fit into the array with a terminator, [i] bytes being used. *)
Fixpoint cut (i : Z) (cps : list Z) : list Z :=
  match cps with
  | [] => []
  | cp :: cps => if i + zlen (utf8_encode cp) <? 48 then utf8_encode cp ++ cut (i + zlen (utf8_encode cp)) cps else []
  end.

Lemma encode_len cp : 1 <= zlen (utf8_encode cp) <= 4.
Proof. unfold utf8_encode, zlen. repeat split_if; cbn; lia. Qed.
Lemma cut_beyond i cps : 48 <= i -> cut i cps = [].
Proof. intros Hi. destruct cps as [|cp cps]; [done|]. cbn. pose proof (encode_len cp). by replace (_ <? 48) with false by lia. Qed.
Lemma cut_prefix i cps : exists n, cut i cps = concat (map utf8_encode (take n cps)).
Proof.
  revert i. induction cps as [|cp cps IH]; intros i; cbn; [by exists 0%nat|]. split_if; [|by exists 0%nat].
  destruct (IH (i + zlen (utf8_encode cp))) as [n ->]. by exists (S n).
Qed.

Lemma name_tail_step cp b l : Byte b -> 0 <= cp ->
  name_tail cp (b :: l) = if (0x80 <=? b) && (b <=? 0xBF) then name_tail (cp * 64 + (b - 0x80)) l else None.
Proof.
  intros Hb Hc. cbn [name_tail]. destruct (utf8_cont_spec b Hb) as [-> Hl]. split_if; [|done].
  change 63 with 0x3F. rewrite Hl by lia. rewrite Z.lor_comm, lor_shiftl_add by lia. f_equal. lia.
Qed.
Lemma name_lead_spec c : Byte c ->
  name_lead c = if (0xC2 <=? c) && (c <=? 0xDF) then Some (c - 0xC0, 2)
    else if (0xE0 <=? c) && (c <=? 0xEF) then Some (c - 0xE0, 3)
    else if (0xF0 <=? c) && (c <=? 0xF4) then Some (c - 0xF0, 4)
    else if (0x20 <=? c) && (c <=? 0x7F) then Some (c, 1) else None.
Proof. revert c. refine (byte_cases _ _). vm_compute. reflexivity. Qed.

Ltac take_byte p Hb := destruct p as [|? p]; [by unfold zlen in *; cbn in *; lia|]; apply Forall_cons_1 in Hb as [? Hb].
Ltac take_cont H := rewrite name_tail_step in H by (done || lia);
  match type of H with context [if ?b && ?c then _ else None] => destruct (b && c) eqn:? end; [|done].
Lemma name_char_sound p k : Bytes p -> name_char p = Some k ->
  exists cp rest, shown cp /\ p = utf8_encode cp ++ rest /\ k = zlen (utf8_encode cp).
Proof.
  intros Hb Hk. destruct p as [|c p]; [done|]. apply Forall_cons_1 in Hb as [Hc Hb]. cbn [name_char] in Hk.
  rewrite name_lead_spec in Hk by done. unfold Byte in Hc. rewrite zlen_cons in Hk. pose proof (zlen_nonneg p).
  destruct ((0xC2 <=? c) && _) eqn:E2; [|destruct ((0xE0 <=? c) && _) eqn:E3; [|destruct ((0xF0 <=? c) && _) eqn:E4;
    [|destruct ((0x20 <=? c) && _) eqn:E1; [|done]]]]; (split_if_in Hk; [done|]).
  - take_byte p Hb. change (slice (c :: z :: p) 1 (2 - 1)) with [z] in Hk.
    take_cont Hk. cbn [name_tail] in Hk. split_if_in Hk; [|done]. injection Hk as <-. unfold name_range in *.
    exists ((c - 0xC0) * 64 + (z - 0x80)), p. rewrite utf8_encode2 by lia. split; [|done]. unfold shown. lia.
  - take_byte p Hb. take_byte p Hb. change (slice (c :: z :: z0 :: p) 1 (3 - 1)) with [z; z0] in Hk.
    take_cont Hk. take_cont Hk. cbn [name_tail] in Hk. split_if_in Hk; [|done]. injection Hk as <-. unfold name_range in *.
    exists (((c - 0xE0) * 64 + (z - 0x80)) * 64 + (z0 - 0x80)), p. rewrite utf8_encode3 by lia. split; [|done]. unfold shown. lia.
  - take_byte p Hb. take_byte p Hb. take_byte p Hb. change (slice (c :: z :: z0 :: z1 :: p) 1 (4 - 1)) with [z; z0; z1] in Hk.
    take_cont Hk. take_cont Hk. take_cont Hk. cbn [name_tail] in Hk. split_if_in Hk; [|done]. injection Hk as <-.
    unfold name_range in *. exists ((((c - 0xF0) * 64 + (z - 0x80)) * 64 + (z0 - 0x80)) * 64 + (z1 - 0x80)), p.
    rewrite utf8_encode4 by lia. split; [|done]. unfold shown. lia.
  - change (slice (c :: p) 1 (1 - 1)) with (@nil Z) in Hk. cbn [name_tail] in Hk. split_if_in Hk; [|done]. injection Hk as <-.
    exists c, p. unfold utf8_encode. replace (c <? 0x80) with true by lia. split; [|done]. unfold shown. lia.
Qed.

(** Conversely the function takes an encoded code point. *)
Lemma encode_bytes cp : shown cp -> Bytes (utf8_encode cp).
Proof.
  intros [Hc _]. unfold utf8_encode. repeat split_if; repeat constructor; unfold Byte; Z.div_mod_to_equations; lia.
Qed.
Lemma name_char_complete cp rest : shown cp -> name_char (utf8_encode cp ++ rest) = Some (zlen (utf8_encode cp)).
Proof.
  intros [Hc Hs]. unfold utf8_encode. pose proof (zlen_nonneg rest).
  destruct (cp <? 0x80) eqn:E1; [|destruct (cp <? 0x800) eqn:E2; [|destruct (cp <? 0x10000) eqn:E3]]; cbn [app name_char].
  - rewrite name_lead_spec by (unfold Byte; lia). do 3 replace (_ && _) with false by lia. replace (_ && _) with true by lia.
    rewrite zlen_cons. replace (_ <? 1) with false by lia. change (slice (cp :: rest) 1 (1 - 1)) with (@nil Z). cbn [name_tail].
    unfold name_range. by replace (negb _) with true by lia.
  - assert (0xC2 <= 0xC0 + cp / 64 <= 0xDF) by (Z.div_mod_to_equations; lia). rewrite name_lead_spec by (unfold Byte; lia).
    replace (_ && _) with true by lia. rewrite !zlen_cons. replace (_ <? 2) with false by lia.
    match goal with |- context [slice (?a :: ?b :: rest) 1 (2 - 1)] => change (slice (a :: b :: rest) 1 (2 - 1)) with [b] end.
    rewrite name_tail_step by (unfold Byte; Z.div_mod_to_equations; lia).
    replace (_ && _) with true by (Z.div_mod_to_equations; lia). cbn [name_tail]. unfold name_range.
    by replace (negb _) with true by (Z.div_mod_to_equations; lia).
  - assert (0xE0 <= 0xE0 + cp / 4096 <= 0xEF) by (Z.div_mod_to_equations; lia). rewrite name_lead_spec by (unfold Byte; lia).
    replace (_ && _) with false by lia. replace (_ && _) with true by lia. rewrite !zlen_cons. replace (_ <? 3) with false by lia.
    match goal with |- context [slice (?a :: ?b :: ?c :: rest) 1 (3 - 1)] =>
      change (slice (a :: b :: c :: rest) 1 (3 - 1)) with [b; c] end.
    do 2 (rewrite name_tail_step by (unfold Byte; Z.div_mod_to_equations; lia);
      replace (_ && _) with true by (Z.div_mod_to_equations; lia)). cbn [name_tail]. unfold name_range.
    match goal with |- context [0x10ffff <? ?x] => assert (x = cp) as -> by (Z.div_mod_to_equations; lia) end.
    by replace (negb _) with true by lia.
  - assert (0xF0 <= 0xF0 + cp / 262144 <= 0xF4) by (Z.div_mod_to_equations; lia). rewrite name_lead_spec by (unfold Byte; lia).
    do 2 replace (_ && _) with false by lia. replace (_ && _) with true by lia. rewrite !zlen_cons. replace (_ <? 4) with false by lia.
    match goal with |- context [slice (?a :: ?b :: ?c :: ?d :: rest) 1 (4 - 1)] =>
      change (slice (a :: b :: c :: d :: rest) 1 (4 - 1)) with [b; c; d] end.
    do 3 (rewrite name_tail_step by (unfold Byte; Z.div_mod_to_equations; lia);
      replace (_ && _) with true by (Z.div_mod_to_equations; lia)). cbn [name_tail]. unfold name_range.
    match goal with |- context [0x10ffff <? ?x] => assert (x = cp) as -> by (Z.div_mod_to_equations; lia) end.
    by replace (negb _) with true by lia.
Qed.

(** ** The loop *)
Definition names (p cps : list Z) : Prop := Forall shown cps /\ p = concat (map utf8_encode cps).
Lemma loop_complete cps : forall fuel i out, Forall shown cps -> (length (concat (map utf8_encode cps)) <= fuel)%nat -> 0 <= i ->
  name_loop fuel i (concat (map utf8_encode cps)) out = (true, out ++ cut i cps).
Proof.
  induction cps as [|cp cps IH]; intros fuel i out Hc Hf Hi; cbn [map concat]; [by destruct fuel; cbn; rewrite app_nil_r|].
  apply List.Forall_cons_iff in Hc as [Hc1 Hc2]. cbn [map concat] in Hf. rewrite length_app in Hf. pose proof (encode_len cp) as Hl.
  assert (name_char (utf8_encode cp ++ concat (map utf8_encode cps)) = Some (zlen (utf8_encode cp))) as Hn
    by by apply name_char_complete.
  set (tail := concat (map utf8_encode cps)) in *. destruct (utf8_encode cp ++ tail) as [|b l] eqn:Ep; [done|].
  destruct fuel as [|fuel]; [unfold zlen in Hl; lia|]. cbn [name_loop]. rewrite Hn, <- Ep.
  replace (Z.to_nat (zlen (utf8_encode cp))) with (length (utf8_encode cp)) by (unfold zlen; lia).
  rewrite drop_app_length. replace (slice (utf8_encode cp ++ tail) 0 (zlen (utf8_encode cp))) with (utf8_encode cp).
  2: { unfold slice, zlen. rewrite drop_0, Nat2Z.id. by rewrite take_app_length. }
  unfold tail. rewrite IH by (first [done|lia|unfold zlen in *; lia]). cbn [cut]. split_if; [by rewrite <- app_assoc|].
  rewrite cut_beyond by lia. done.
Qed.
Lemma loop_sound fuel : forall i p out out', Bytes p -> (length p <= fuel)%nat -> 0 <= i ->
  name_loop fuel i p out = (true, out') -> exists cps, names p cps.
Proof.
  induction fuel as [|fuel IH]; intros i p out out' Hb Hf Hi H; (destruct p as [|b p]; [by exists []|]); [done|].
  cbn [name_loop] in H. destruct (name_char (b :: p)) as [k|] eqn:Ek; [|done].
  apply name_char_sound in Ek as (cp & rest & Hs & Ep & ->); [|done]. pose proof (encode_len cp) as Hl.
  replace (Z.to_nat (zlen (utf8_encode cp))) with (length (utf8_encode cp)) in H by (unfold zlen; lia).
  assert (Bytes rest) as Hr by (rewrite Ep in Hb; apply Forall_app in Hb; apply Hb).
  apply (f_equal length) in Ep as En. rewrite length_app in En. cbn [length] in En, Hf.
  rewrite Ep, drop_app_length in H. apply IH in H as (cps & Hc & ->); [|done|unfold zlen in Hl; lia|lia].
  exists (cp :: cps). split; [by constructor|done].
Qed.
Lemma loop_room fuel : forall i p out, Bytes p -> zlen out <= i -> zlen out <= 47 -> zlen (snd (name_loop fuel i p out)) <= 47.
Proof.
  induction fuel as [|fuel IH]; intros i p out Hb Hi Ho; (destruct p as [|b p]; [done|]); [done|].
  cbn [name_loop]. destruct (name_char (b :: p)) as [k|] eqn:Ek; [|done].
  apply name_char_sound in Ek as (cp & rest & Hs & Ep & ->); [|done]. pose proof (encode_len cp) as Hl.
  assert (Bytes (drop (Z.to_nat (zlen (utf8_encode cp))) (b :: p))) as Hd by by apply Forall_drop.
  apply IH; [done| |]; (split_if; [|lia]); rewrite zlen_app, zlen_slice by (rewrite ?Ep, ?zlen_app; pose proof (zlen_nonneg rest); lia); lia.
Qed.
(** The two cases of the function. *)
Lemma candidate_name_cases p : Bytes p ->
  (exists cps, names p cps /\ candidate_name p = (splice (replicate 48 0) 0 (cut 0 cps), zlen (cut 0 cps))) \/
  ((forall cps, ~ names p cps) /\ snd (candidate_name p) = 0 /\ zlen (fst (candidate_name p)) = 48).
Proof.
  intros Hb. pose proof (loop_room (length p) 0 p [] Hb ltac:(done) ltac:(done)) as Hr. unfold candidate_name.
  destruct (name_loop (length p) 0 p []) as [ok out] eqn:E. cbn [snd] in Hr. destruct ok.
  - left. destruct (loop_sound _ _ _ _ _ Hb (le_n _) (Z.le_refl 0) E) as (cps & Hc & Ep). exists cps. split; [done|].
    subst p. rewrite (loop_complete cps _ 0 [] Hc (le_n _) (Z.le_refl 0)) in E. by injection E as <-.
  - right. split; [|split; [done|]].
    + intros cps [Hc ->]. by rewrite (loop_complete cps _ 0 [] Hc (le_n _) (Z.le_refl 0)) in E.
    + cbn [fst]. rewrite zlen_splice; [done|lia|]. change (zlen (replicate 48 0)) with 48. lia.
Qed.

(** ** The record *)
(** What the server may be told of a candidate. *)
Definition candidate_fit (c : rbp_candidate_t) : bool :=
  (zlen (cd_name c) =? 48) && (1 <=? cd_candidate_id c) && (cd_candidate_id c <=? MAX_CAND) &&
  (0 <=? cd_name_len c) && (cd_name_len c <? 48) && utf8_valid (slice (cd_name c) 0 (cd_name_len c)).
Definition array_fit (array : list Z) (len : Z) : Prop :=
  zlen array = 48 /\ 0 <= len < 48 /\ utf8_valid (slice array 0 len) = true.
Lemma shown_valid cps : Forall shown cps -> utf8_valid (concat (map utf8_encode cps)) = true.
Proof.
  intros Hc. apply utf8_loop_complete; [|done]. refine (List.Forall_impl _ _ Hc). intros cp [Hr _]. lia.
Qed.
Lemma cut_room cps i : 0 <= i < 48 -> zlen (cut i cps) < 48 - i.
Proof.
  revert i. induction cps as [|cp cps IH]; intros i Hi; cbn [cut]; [unfold zlen; cbn; lia|]. pose proof (encode_len cp).
  split_if; [|unfold zlen; cbn; lia]. rewrite zlen_app. specialize (IH (i + zlen (utf8_encode cp))). lia.
Qed.
Lemma name_fit p : Bytes p -> array_fit (fst (candidate_name p)) (snd (candidate_name p)).
Proof.
  intros Hb. destruct (candidate_name_cases p Hb) as [(cps & [Hc _] & ->)|(_ & E0 & E48)].
  - cbn [fst snd]. pose proof (cut_room cps 0 ltac:(lia)) as Hl. pose proof (zlen_nonneg (cut 0 cps)).
    assert (zlen (replicate 48 0) = 48) as H48 by done. split; [rewrite zlen_splice; lia|]. split; [lia|].
    pose proof (slice_splice_inside (replicate 48 0) (cut 0 cps) 0 0 (zlen (cut 0 cps))) as Hs. change (0 + 0) with 0 in Hs.
    rewrite Hs by lia. rewrite slice_0_all by lia. destruct (cut_prefix 0 cps) as [n ->]. by apply shown_valid, Forall_take.
  - unfold array_fit. by rewrite E0.
Qed.
Lemma default_fit array text : zlen array = 48 -> zlen text < 47 -> utf8_valid text = true ->
  array_fit (splice array 0 (text ++ [0])) (zlen text).
Proof.
  intros Ha Ht Hv. pose proof (zlen_nonneg text). assert (zlen (text ++ [0]) = zlen text + 1) as Hn by (rewrite zlen_app; done).
  split; [rewrite zlen_splice; lia|]. split; [lia|].
  pose proof (slice_splice_inside array (text ++ [0]) 0 0 (zlen text)) as Hs. change (0 + 0) with 0 in Hs. rewrite Hs by lia.
  unfold slice, zlen. rewrite drop_0, Nat2Z.id, take_app_length. done.
Qed.
Lemma candidate_fits i name hid fresh index : match name with Some n => Bytes n | None => True end ->
  0 <= index < MAX_CAND -> candidate_fit (make_candidate i name hid fresh index) = true.
Proof.
  intros Hb Hi. unfold make_candidate.
  destruct (match name with Some n => candidate_name n | None => (replicate 48 0, 0) end) as [array len] eqn:E.
  assert (array_fit array len) as Hf.
  { destruct name as [n|]; [pose proof (name_fit n Hb) as Hf; by rewrite E in Hf|]. injection E as <- <-. split; [done|]. by split. }
  cbv zeta. clear E. match goal with |- context [if (len =? 0) && fresh then ?x else ?y] =>
    assert (array_fit (fst (if (len =? 0) && fresh then x else y)) (snd (if (len =? 0) && fresh then x else y))) as Hg;
    [split_if; [cbn [fst snd]; apply default_fit; [apply Hf|repeat split_if; vm_compute; reflexivity..]|exact Hf]
    |destruct (if (len =? 0) && fresh then x else y) as [a2 l2]] end.
  cbn [fst snd] in Hg. destruct Hg as (H1 & H2 & H3). unfold candidate_fit. cbn. destruct (Z.eqb_spec l2 0) as [->|Hn].
  - rewrite zlen_splice; [|lia|change (zlen [0]) with 1; lia]. change (utf8_valid (slice _ 0 0)) with true. unfold MAX_CAND in *. lia.
  - rewrite H3. unfold MAX_CAND in *. lia.
Qed.

