(* ===== verification/CentralProps.v ===== *)
(** * The radio central: the contract with the library and the firmware

    A monitor reads the log: which procedure the radio runs, by the calls made
    and the events that ended them, and whether each call was allowed.  The
    invariant relates the monitor to [w_state], for every firmware that makes no
    request of the radio out of the calls in [silent]; every operation keeps it,
    with the requests carried out in the middle of it. *)
From Stdlib Require Import String.
From S2P Require Import Prelude Defs Tlv ServerState ServerLink Server ServerInv Board Gatt Atvv AdapterState Adapter AdapterCache CentralState Central CandidateName.
#[local] Open Scope string_scope.
#[local] Open Scope list_scope.
#[local] Open Scope Z_scope.

(** ** The monitor *)
Inductive phase := Free | Discovering | Initiating | Linked (h : Z).
#[export] Instance phase_eq_dec : EqDecision phase.
Proof. solve_decision. Defined.
(** A call of the library in the state [c], while the radio is in phase [p]. *)
Definition in_state (sts : list wc_state_t) (c : central_t) : bool := bool_decide (w_state c ∈ sts).
Definition call_ok (p : phase) (c : central_t) (g : gap_call) : bool :=
  match g with
  | Start_discovery _ _ _ =>
    bool_decide (p = Free) && in_state [WC_IDLE] c && w_radio_ready c && negb (w_radio_faulted c) && negb (w_recovering c)
  | Establish_link _ _ =>
    bool_decide (p = Free) && in_state [WC_CONNECTING; WC_CONNECT_CANCEL] c && negb (w_radio_faulted c) &&
    negb (w_security_blocked c)
  | Cancel_discovery => bool_decide (p = Discovering) && in_state [WC_SCAN_STOPPING] c
  | Terminate_link h =>
    if h =? INVALID_CONNHANDLE then bool_decide (p ∈ [Free; Initiating]) && in_state [WC_CONNECT_CANCEL] c
    else bool_decide (p = Linked h) && in_state [WC_DISCONNECTING] c
  | Passcode_rsp h _ _ => bool_decide (p = Linked h)
  | Erase_bonds => bool_decide (p = Free) && in_state [WC_IDLE] c && w_recovering c && negb (w_radio_faulted c)
  | _ => true
  end.
Definition after_call (p : phase) (g : gap_call) (status : Z) : phase :=
  match g with
  | Start_discovery _ _ _ => if status =? SUCCESS then Discovering else p
  | Establish_link _ _ => if status =? SUCCESS then Initiating else p
  | _ => p
  end.
Definition after_event (p : phase) (e : gap_event) : phase :=
  match e, p with
  | E_discovery _, Discovering => Free
  | E_established st h, _ =>
    if st =? SUCCESS then match p with Linked h' => Linked h' | _ => Linked h end
    else match p with Initiating => Free | _ => p end
  | E_terminated h _, Linked h' => if h =? h' then Free else p
  | _, _ => p
  end.
Definition fw_ok (erased : bool) (f : fw_call) : bool :=
  match f with
  | Store_clear => erased
  | Srv (AForgetDone status _) => erased || negb (status =? RBP_STATUS_OK)
  | Srv (AScanCandidate c) => candidate_fit c
  | Srv (AUsbRx _ _) => false  (** input of the host is not the central's *)
  | _ => true
  end.
(** The phase, whether the last entry is a bond count of zero, and whether all
    entries were allowed. *)
Record monitor := Monitor { m_phase : phase; m_erased : bool; m_good : bool }.
Definition watch (m : monitor) (x : cact) : monitor :=
  match x with
  | Gap c g st => Monitor (after_call (m_phase m) g st) false (m_good m && call_ok (m_phase m) c g)
  | Bonds st n => Monitor (m_phase m) ((st =? SUCCESS) && (n =? 0)) (m_good m)
  | Fw f _ => Monitor (m_phase m) false (m_good m && fw_ok (m_erased m) f)
  | Fault _ _ _ => Monitor (m_phase m) false (m_good m)
  | Evt e => Monitor (after_event (m_phase m) e) false (m_good m)
  end.
Definition monitored (l : list cact) : monitor := fold_left watch l (Monitor Free false true).
Lemma monitored_snoc l x : monitored (l ++ [x]) = watch (monitored l) x.
Proof. unfold monitored. by rewrite fold_left_app. Qed.

(** ** The invariant *)
(** The state of the central for a phase of the radio. *)
Definition fits (p : phase) (c : central_t) : Prop :=
  match w_state c with
  | WC_IDLE => p = Free /\ w_conn_handle c = GAP_CONNHANDLE_INIT
  | WC_SCAN | WC_RESOLVE | WC_SCAN_STOPPING => p = Discovering /\ w_conn_handle c = GAP_CONNHANDLE_INIT
  | WC_CONNECTING | WC_CONNECT_CANCEL => p = Initiating /\ w_conn_handle c = GAP_CONNHANDLE_INIT
  | WC_CONNECTED | WC_DISCONNECTING =>
    p = Linked (w_conn_handle c) /\ w_conn_handle c <> GAP_CONNHANDLE_INIT /\ w_conn_handle c <> INVALID_CONNHANDLE
  end.
(** A link is only wanted while it is not blocked. *)
Definition intends (c : central_t) : Prop :=
  (w_next_link c <> NEXT_NONE -> w_state c = WC_SCAN_STOPPING /\ w_security_blocked c = false) /\
  (w_state c = WC_RESOLVE \/ w_state c = WC_CONNECTING -> w_security_blocked c = false) /\
  zlen (w_candidates c) <= MAX_CAND.
(** The window of [begin_link], before the link is requested. *)
Definition window (p : phase) (c : central_t) : Prop :=
  (w_state c = WC_CONNECTING \/ w_state c = WC_CONNECT_CANCEL) /\ p = Free /\ w_conn_handle c = GAP_CONNHANDLE_INIT /\
  w_radio_faulted c = false /\ w_security_blocked c = false.
(** Only events of the library change the handle [h] of the link. *)
Definition holds (win : bool) (h : Z) (p : phase) (c : central_t) : Prop :=
  (if win then window p c else fits p c) /\ intends c /\ w_conn_handle c = h.
Definition ph {W} (s : cst W) : phase := m_phase (monitored (clog s)).
Definition ok {W} (win : bool) (h : Z) (s : cst W) : Prop :=
  m_good (monitored (clog s)) = true /\ holds win h (ph s) (cn s).

(** Calls during which the firmware asks nothing of the radio. *)
Definition silent (f : fw_call) : bool :=
  match f with
  | Srv (ALinkMessage _ | AScanCandidate _ | APeerChanged _) => true
  | Srv _ | Gatt_on_msg _ _ _ | Adapter_start_bound _ _ | Adapter_mic_stop => false
  | _ => true
  end.
Class FirmwareOk W (F : Firmware W) : Prop :=
  silent_quiet f w : silent f = true -> snd (fst (firmware f w)) = [].

(** ** Steps of every operation *)
Section steps.
Context {W : Type} `{P : Platform W} (win : bool) (h : Z).
Implicit Types s : cst W.

Lemma ok_on_cn f s : ok win h s -> (holds win h (ph s) (cn s) -> holds win h (ph s) (f (cn s))) -> ok win h (on_cn f s).
Proof. intros [Hg Hh] Hf. split; [done|]. by apply Hf. Qed.
Lemma ok_world w s : ok win h s -> ok win h (s <| cw := w |>).
Proof. done. Qed.
Lemma note_monitor x s : monitored (clog (note x s)) = watch (monitored (clog s)) x.
Proof. apply monitored_snoc. Qed.
Lemma ok_note x s : m_good (watch (monitored (clog s)) x) = m_good (monitored (clog s)) ->
  m_phase (watch (monitored (clog s)) x) = ph s -> ok win h s -> ok win h (note x s).
Proof.
  intros E1 E2 [Hg Hh]. unfold ok, ph in *. rewrite note_monitor, E1, E2. by split.
Qed.
Lemma ok_fault stage st ctx s : ok win h s -> ok win h (note (Fault stage st ctx) s).
Proof. by apply ok_note. Qed.
Lemma ok_result stage st ctx s : ok win h s -> ok win h (gap_result stage st ctx s).
Proof. intros Hs. unfold gap_result. split_if; [by apply ok_fault|done]. Qed.
(** A call that leaves the phase as it is. *)
Lemma ok_try g s st s' : gap_try g s = (st, s') -> call_ok (ph s) (cn s) g = true -> after_call (ph s) g st = ph s ->
  ok win h s -> ok win h s'.
Proof.
  unfold gap_try. destruct (gap g (cw s)) as [st' w]. intros [= -> <-] Hc Ha Hs. apply ok_note; [| |done]; cbn -[call_ok after_call monitored].
  - unfold ph in Hc. by rewrite Hc, andb_true_r.
  - exact Ha.
Qed.
Lemma ok_gap stage g ctx s st s' : gap_do stage g ctx s = (st, s') -> call_ok (ph s) (cn s) g = true ->
  after_call (ph s) g st = ph s -> ok win h s -> ok win h s'.
Proof.
  unfold gap_do. destruct (gap_try g s) as [st' s1] eqn:E. intros [= -> <-] Hc Ha Hs. apply ok_result. by eapply ok_try.
Qed.
Lemma result_monitor stage st ctx s : m_good (monitored (clog (gap_result stage st ctx s))) = m_good (monitored (clog s)) /\
  ph (gap_result stage st ctx s) = ph s.
Proof. unfold gap_result. split_if; [|done]. unfold ph. by rewrite note_monitor. Qed.
Lemma gap_monitor stage g ctx s st s' : gap_do stage g ctx s = (st, s') ->
  m_good (monitored (clog s')) = m_good (monitored (clog s)) && call_ok (ph s) (cn s) g /\ ph s' = after_call (ph s) g st.
Proof.
  unfold gap_do, gap_try. destruct (gap g (cw s)) as [st' w]. intros [= -> <-].
  destruct (result_monitor stage st ctx (note (Gap (cn s) g st) (s <| cw := w |>))) as [-> ->]. unfold ph. by rewrite note_monitor.
Qed.
Lemma ok_bonds s a b s' : get_bond_count s = (a, b, s') -> ok win h s -> ok win h s'.
Proof.
  unfold get_bond_count. destruct (bond_count (cw s)) as [st n]. intros [= -> -> <-] Hs. by apply ok_result, ok_note.
Qed.
Lemma gap_cn stage g ctx s st s' : gap_do stage g ctx s = (st, s') -> cn s' = cn s.
Proof.
  unfold gap_do, gap_try. destruct (gap g (cw s)). intros [= -> <-]. unfold gap_result. by split_if.
Qed.
Lemma bonds_cn s a b s' : get_bond_count s = (a, b, s') -> cn s' = cn s.
Proof. unfold get_bond_count. destruct (bond_count (cw s)). intros [= -> -> <-]. unfold gap_result. by split_if. Qed.
End steps.

(** ** Advertisements *)
Lemma ad_loop_bytes fuel : forall data name hid voice name' hid' voice', Bytes data ->
  match name with Some n => Bytes n | None => True end -> ad_loop fuel data name hid voice = Some (name', hid', voice') ->
  match name' with Some n => Bytes n | None => True end.
Proof.
  induction fuel as [|fuel IH]; intros [|n data] name hid voice name' hid' voice' Hd Hn; cbn [ad_loop]; try (by intros [= <- <- <-]).
  split_if; [by intros [= <- <- <-]|]. split_if; [done|]. apply List.Forall_cons_iff in Hd as [_ Hd]. apply IH; [by apply Forall_drop|].
  split_if; [by apply slice_Forall|done].
Qed.
Lemma find_candidate_le cs addr type i : i <= find_candidate cs addr type i <= i + zlen cs.
Proof.
  revert i. induction cs as [|[a t] cs IH]; intros i; cbn [find_candidate]; rewrite ?zlen_cons; [unfold zlen; cbn; lia|].
  pose proof (zlen_nonneg cs). split_if; [lia|]. specialize (IH (i + 1)). lia.
Qed.

(** ** The operations *)
Section operations.
Context {W : Type} `{P : Platform W} (fw : fw_call -> cst W -> Z * cst W).
Context (Hcall : forall win h f s, fw_ok (m_erased (monitored (clog s))) f = true -> ok win h s -> ok win h (snd (fw f s))).
Context (Hsil : forall f s, silent f = true -> exists r w, fw f s = (r, note (Fw f r) (s <| cw := w |>))).
Implicit Types (s : cst W) (win : bool).

Lemma Hfw win h f s : fw_ok false f = true -> ok win h s -> ok win h (snd (fw f s)).
Proof. intros Hf. apply Hcall. destruct (m_erased _); [|done]. destruct f as [a| | | | | | | | | | | | | |]; try done. by destruct a. Qed.
Lemma ok_do win h f s : fw_ok false f = true -> ok win h s -> ok win h (fw_do fw f s).
Proof. apply Hfw. Qed.
Lemma ok_srv win h a s : fw_ok false (Srv a) = true -> ok win h s -> ok win h (srv fw a s).
Proof. apply Hfw. Qed.
Lemma ok_link win h st s : ok win h s -> ok win h (on_link fw st s).
Proof. by apply ok_srv. Qed.
Lemma ok_message win h m s : ok win h s -> ok win h (on_link_message fw m s).
Proof. by apply ok_srv. Qed.
Lemma do_cn f s : silent f = true -> cn (fw_do fw f s) = cn s.
Proof. intros Hs. unfold fw_do. by destruct (Hsil f s Hs) as (r & w & ->). Qed.
Lemma do_ph f s : silent f = true -> ph (fw_do fw f s) = ph s.
Proof.
  intros Hs. unfold fw_do. destruct (Hsil f s Hs) as (r & w & ->). unfold ph. cbn [snd]. by rewrite note_monitor.
Qed.
Lemma message_cn m s : cn (on_link_message fw m s) = cn s.
Proof. by apply do_cn. Qed.
(** An update of fields the invariant does not mention. *)
Ltac plain := apply ok_on_cn; [|exact id].
Lemma ok_schedule win h s : ok win h s -> ok win h (reconnect_schedule s).
Proof. intros Hs. by plain. Qed.
Lemma ok_sync win h s : ok win h s -> ok win h (sync_gatt_cache fw s).
Proof.
  intros Hs. unfold sync_gatt_cache. split_if; [done|]. split_if; [done|].
  match goal with |- context [fw ?f s] => pose proof (Hfw win h f s eq_refl Hs) as Hf; destruct (fw f s) as [r s'] end.
  split_if; [by apply ok_message|done].
Qed.
Lemma sync_cn s : cn (sync_gatt_cache fw s) = cn s.
Proof.
  unfold sync_gatt_cache. split_if; [done|]. split_if; [done|].
  match goal with |- context [fw ?f s] => destruct (Hsil f s eq_refl) as (r & w & ->) end.
  split_if; [by rewrite message_cn|done].
Qed.
Lemma sync_ph s : ph (sync_gatt_cache fw s) = ph s.
Proof.
  unfold sync_gatt_cache. split_if; [done|]. split_if; [done|].
  match goal with |- context [fw ?f s] => pose proof (do_ph f s eq_refl) as Hp; unfold fw_do in Hp;
    destruct (fw f s) as [r s'] end. cbn [snd] in Hp.
  split_if; [|done]. rewrite <- Hp. by apply do_ph.
Qed.
(** Giving the link up, before the state changes. *)
Lemma ok_release win h s : ok win h s -> ok win h (fw_do fw Adapter_detach (sync_gatt_cache fw (fw_do fw Gatt_quiesce s))).
Proof. intros Hs. by apply ok_do, ok_sync, ok_do. Qed.
Lemma release_cn s : cn (fw_do fw Adapter_detach (sync_gatt_cache fw (fw_do fw Gatt_quiesce s))) = cn s.
Proof. by rewrite do_cn, sync_cn, do_cn. Qed.
Lemma release_ph s : ph (fw_do fw Adapter_detach (sync_gatt_cache fw (fw_do fw Gatt_quiesce s))) = ph s.
Proof. by rewrite do_ph, sync_ph, do_ph. Qed.
Lemma ok_radio_fault why h s : ok false h s -> ok false h (radio_fault fw why s).
Proof.
  intros Hs. unfold radio_fault.
  assert (ok false h (on_cn (fun c => c <| w_next_link := NEXT_NONE |>) s)) as H1.
  { apply ok_on_cn; [done|]. intros (Hf & (_ & Hb & Hc) & Hh). by repeat split. }
  revert H1. generalize (on_cn (fun c => c <| w_next_link := NEXT_NONE |>) s). intros s1 H1.
  split_if; [done|]. apply ok_link, ok_message, ok_release. by plain.
Qed.
Lemma ok_retry early win h s : ok win h s -> ok win h (disconnected_retry fw early s).
Proof.
  intros Hs. unfold disconnected_retry.
  match goal with |- context [on_link fw ?l s] => pose proof (ok_link win h l s Hs) as H1; revert H1; generalize (on_link fw l s) end.
  intros s1 H1. cbv zeta. split_if; [by plain|by apply ok_schedule].
Qed.

(** *** Releasing the radio *)
Lemma ok_gap_plain win h stage g ctx s : ok win h s -> call_ok (ph s) (cn s) g = true ->
  (forall st, after_call (ph s) g st = ph s) -> ok win h (snd (gap_do stage g ctx s)).
Proof. intros Hs Hc Ha. destruct (gap_do stage g ctx s) as [st s'] eqn:E. cbn [snd]. by eapply ok_gap. Qed.
Lemma ok_rejected win h stage g ctx m s : ok win h s -> call_ok (ph s) (cn s) g = true ->
  (forall st, after_call (ph s) g st = ph s) ->
  ok win h (let '(status, s) := gap_do stage g ctx s in if status =? SUCCESS then s else on_link_message fw m s).
Proof.
  intros Hs Hc Ha. pose proof (ok_gap_plain win h stage g ctx s Hs Hc Ha) as Hg. destruct (gap_do stage g ctx s) as [st s'].
  split_if; [done|by apply ok_message].
Qed.
Lemma ok_stop_scan h s : m_good (monitored (clog s)) = true -> ph s = Discovering -> w_conn_handle (cn s) = h ->
  h = GAP_CONNHANDLE_INIT -> (w_next_link (cn s) <> NEXT_NONE -> w_security_blocked (cn s) = false) ->
  zlen (w_candidates (cn s)) <= MAX_CAND -> ok false h (stop_scan fw s).
Proof.
  intros Hg Hp Hc -> Hn Hl. unfold stop_scan. unfold is_state. case_bool_decide as Es.
  - split; [done|]. unfold holds, fits, intends. rewrite Es. split; [by split|]. split; [|done].
    split; [by auto|]. split; [by intros [[=]|[=]]|done].
  - apply ok_rejected; [|change (ph (set_state _ _ s)) with (ph s); rewrite Hp; reflexivity|done].
    split; [done|]. split; [by split|]. split; [|done]. split; [|split; [|done]]; cbn; [by auto|by intros [[=]|[=]]].
Qed.
Lemma ok_next_none win h s : ok win h s ->
  ok win h (on_cn (fun c => c <| w_next_link := NEXT_NONE |> <| w_passkey_pending := false |>) s).
Proof. intros Hs. apply ok_on_cn; [done|]. intros (Hf & (_ & Hb & Hc) & Hh). split; [|split; [split; [|split]|]]; try done. Qed.
Lemma ok_disconnect win h s : ok win h s -> ok win h (rb_disconnect fw s).
Proof.
  intros Hs%ok_next_none. unfold rb_disconnect. revert Hs.
  generalize (on_cn (fun c => c <| w_next_link := NEXT_NONE |> <| w_passkey_pending := false |>) s). intros s1 Hs.
  pose proof Hs as (Hg & Hf & (Hn & Hb & Hl) & Hh).
  destruct (w_state (cn s1)) eqn:Es; try done.
  - destruct win; [by destruct Hf as [[?|?] _]; congruence|]. unfold fits in Hf. rewrite Es in Hf. destruct Hf as [Hp Hc].
    apply ok_stop_scan; try done; [congruence|]. intros Hx. by apply Hn.
  - apply ok_rejected; [|destruct win|done].
    + split; [done|]. split; [|split; [split; [|split]|done]]; cbn.
      * destruct win; [destruct Hf as (_ & Hf); split; [by right|done]|]. unfold fits in *. rewrite Es in Hf. exact Hf.
      * intros Hx. by destruct (Hn Hx).
      * by intros [[=]|[=]].
      * done.
    + destruct Hf as (_ & Hp & _). change (ph (set_state _ _ s1)) with (ph s1). by rewrite Hp.
    + unfold fits in Hf. rewrite Es in Hf. change (ph (set_state _ _ s1)) with (ph s1). by rewrite (proj1 Hf).
  - destruct win; [by destruct Hf as [[?|?] _]; congruence|]. unfold fits in Hf. rewrite Es in Hf.
    pose proof (ok_release false h s1 Hs) as Hr. pose proof (release_cn s1) as Ec. pose proof (release_ph s1) as Ep.
    revert Hr Ec Ep. generalize (fw_do fw Adapter_detach (sync_gatt_cache fw (fw_do fw Gatt_quiesce s1))). intros s2 Hr Ec Ep.
    destruct Hf as (Hp & Hi & Hv). apply ok_rejected; [| |done].
    + split; [apply Hr|]. change (ph (set_state _ _ s2)) with (ph s2). unfold holds, fits, intends. cbn. rewrite Ec, Ep.
      split; [by split|]. split; [|done]. split; [|split; [by intros [[=]|[=]]|done]]. intros Hx. by destruct (Hn Hx); congruence.
    + change (ph (set_state _ _ s2)) with (ph s2). cbn [call_ok]. change (w_conn_handle (cn (set_state _ _ s2))) with (w_conn_handle (cn s2)).
      rewrite Ec, Ep. replace (w_conn_handle (cn s1) =? INVALID_CONNHANDLE) with false by lia.
      by rewrite Hp, bool_decide_eq_true_2.
  - destruct win; [by destruct Hf as [[?|?] _]; congruence|]. unfold fits in Hf. rewrite Es in Hf. destruct Hf as [Hp Hc].
    apply ok_stop_scan; try done; [congruence|]. intros Hx. by apply Hn.
Qed.

(** *** Pairing *)
Lemma ok_fail_pair win h st s : ok win h s -> ok win h (fail_pair fw st s).
Proof.
  intros Hs. unfold fail_pair. split_if; [done|]. apply ok_disconnect, ok_srv; [done|]. by plain.
Qed.
Lemma ok_fail_sdk win h m code s : ok win h s -> ok win h (fail_pair_sdk fw m code s).
Proof. intros Hs. unfold fail_pair_sdk. split_if; [done|]. by apply ok_link, ok_srv, ok_fail_pair. Qed.
Lemma ok_identity win h s : ok win h s -> ok win h (snd (read_identity s)).
Proof.
  intros Hs. unfold read_identity. destruct (get_bond_count s) as [[cs n] s1] eqn:E. apply (ok_bonds win h _ _ _ _ E) in Hs.
  destruct (bond_record (cw s1)) as [rs [addr type]]. apply (ok_result win h 12 rs mainRecordNvID) in Hs.
  split_if; [done|]. split_if; [done|]. destruct (bond_irk _) as [ir irk]. cbn [snd]. apply ok_result. by plain.
Qed.
Lemma ok_finish_pair h s : ok false h s -> ok false h (finish_pair fw s).
Proof.
  intros Hs. unfold finish_pair. pose proof (ok_identity false h s Hs) as Hi. destruct (read_identity s) as [r s1].
  cbn [snd] in Hi. split_if; [by apply ok_fail_pair|]. cbv zeta.
  match goal with |- context [srv fw ?a ?x] => assert (ok false h (srv fw a x)) as H2 end.
  { apply ok_srv; [done|]. plain. by do 2 (apply ok_do; [done|]). }
  match goal with |- context [srv fw ?a ?x] => revert H2; generalize (srv fw a x) end. intros s2 H2.
  split_if; [by apply ok_do|]. apply ok_disconnect. by plain.
Qed.
Lemma idle_fits h s : ok false h s -> is_state WC_IDLE s = true -> ph s = Free /\ h = GAP_CONNHANDLE_INIT /\
  w_next_link (cn s) = NEXT_NONE.
Proof.
  intros (_ & Hf & (Hn & _) & <-) Hi. apply bool_decide_eq_true in Hi. unfold fits in Hf. rewrite Hi in Hf, Hn.
  destruct Hf as [Hp Hc]. split; [done|]. split; [done|]. destruct (decide (w_next_link (cn s) = NEXT_NONE)) as [E|E]; [done|].
  by destruct (Hn E).
Qed.
(** The window opens when the state is set and closes with the request. *)
Lemma open_window h s : ok false h s -> is_state WC_IDLE s = true -> w_radio_faulted (cn s) = false ->
  w_security_blocked (cn s) = false ->
  ok true h (on_cn (fun c => c <| w_adapter_started := false |> <| w_bond_ready := false |> <| w_passkey_pending := false |>)
    (set_state WC_CONNECTING 20000 s)).
Proof.
  intros Hs Hi Hr Hb. destruct (idle_fits h s Hs Hi) as (Hp & -> & Hn). destruct Hs as (Hg & _ & (_ & _ & Hl) & Hh).
  split; [done|]. split; [|split; [|done]].
  - split; [by left|]. by repeat split.
  - unfold intends. cbn. rewrite Hn. by repeat split.
Qed.
Lemma close_window h stage g ctx s st s' type addr : g = Establish_link type addr -> ok true h s ->
  gap_do stage g ctx s = (st, s') -> if st =? SUCCESS then ok false h s' else ok false h (set_state WC_IDLE 0 s').
Proof.
  intros -> (Hg & (Hw & Hp & Hc & Hr & Hb) & (Hn & Hx & Hl) & Hh) E. pose proof (gap_cn _ _ _ _ _ _ E) as Ec.
  assert (m_good (monitored (clog s')) = true /\ ph s' = if st =? SUCCESS then Initiating else Free) as [Hg' Hp'].
  { destruct (gap_monitor _ _ _ _ _ _ E) as [-> ->]. rewrite Hg, Hp. cbn [call_ok after_call andb]. rewrite Hr, Hb. split; [|done].
    unfold in_state. cbn. rewrite !bool_decide_eq_true_2; [done|set_solver|done]. }
  assert (w_next_link (cn s) = NEXT_NONE) as En.
  { destruct (decide (w_next_link (cn s) = NEXT_NONE)) as [|Ex]; [done|]. destruct (Hn Ex). destruct Hw; congruence. }
  destruct (st =? SUCCESS); (split; [done|]); (split; [|split; [|cbn; congruence]]).
  - unfold fits. rewrite Ec, Hp'. by destruct Hw as [-> | ->].
  - unfold intends. rewrite Ec. by split.
  - split; [exact Hp'|]. cbn. congruence.
  - split; [cbn; by rewrite Ec, En|]. split; [by intros [[=]|[=]]|]. cbn. by rewrite Ec.
Qed.
Lemma ok_begin_link addr type h s : w_security_blocked (cn s) = false -> ok false h s ->
  ok false h (begin_link fw addr type s).
Proof.
  intros Hb Hs. unfold begin_link. split_if; [done|]. bools.
  match goal with |- context [on_cn ?f s] => assert (ok false h (on_cn f s)) as K1 end.
  { apply ok_on_cn; [done|]. intros (Hf & (_ & Hx & Hc) & Hh). split; [|split; [split; [|split]|]]; try done. }
  match goal with |- context [on_cn ?f s] => assert (is_state WC_IDLE (on_cn f s) = true /\
    w_radio_faulted (cn (on_cn f s)) = false /\ w_security_blocked (cn (on_cn f s)) = false) as K2 by done;
    revert K1 K2; generalize (on_cn f s) end. intros s1 K1 (K2 & K3 & K4).
  match goal with |- context [gap_do ?a ?g ?x s1] => pose proof (ok_gap_plain false h a g x s1 K1 eq_refl (fun _ => eq_refl)) as K5;
    destruct (gap_do a g x s1) as [st s2] eqn:E1 end. cbn [snd] in K5. apply gap_cn in E1.
  split_if; [by apply ok_fail_sdk, ok_radio_fault|].
  assert (ok true h (on_cn (fun c => c <| w_adapter_started := false |> <| w_bond_ready := false |> <| w_passkey_pending := false |>)
    (set_state WC_CONNECTING 20000 s2))) as K6 by (apply open_window; unfold is_state in *; rewrite ?E1; done).
  apply (ok_link true h RBP_LINK_CONNECTING) in K6. revert K6.
  match goal with |- context [on_link fw RBP_LINK_CONNECTING ?x] => generalize (on_link fw RBP_LINK_CONNECTING x) end. intros s3 K6.
  match goal with |- context [gap_do ?a ?g ?x s3] => destruct (gap_do a g x s3) as [st3 s4] eqn:E3;
    pose proof (close_window h a g x s3 st3 s4 _ _ eq_refl K6 E3) as K7 end.
  destruct (st3 =? SUCCESS); [done|]. apply ok_schedule. split_if; [by apply ok_fail_sdk|by apply ok_link].
Qed.

(** *** Advertisements *)
Lemma ok_resolve addr type et h s : ok false h s -> ok false h (resolve_advertisement fw addr type et s).
Proof.
  intros Hs. unfold resolve_advertisement. split_if; [done|]. bools. split_if; [done|]. split_if; [|done].
  destruct Hs as (Hg & Hf & (Hn & Hb & Hl) & Hh). unfold is_state in *.
  match goal with H : bool_decide (w_state (cn s) = WC_RESOLVE) = true |- _ => apply bool_decide_eq_true in H; rename H into Es end.
  unfold fits in Hf. rewrite Es in Hf. destruct Hf as [Hp Hc].
  apply ok_stop_scan; try done; [congruence|]. intros _. apply Hb. by left.
Qed.
Lemma ok_device i h s : Bytes (di_data i) -> ok false h s -> ok false h (on_device fw i s).
Proof.
  intros Hd Hs. unfold on_device. split_if; [by apply ok_resolve|]. split_if; [done|].
  destruct (ad_loop _ _ _ _ _) as [[[name hid] voice]|] eqn:Ea; [|done].
  assert (match name with Some n => Bytes n | None => True end) as Hn by (refine (ad_loop_bytes _ _ None _ _ _ _ _ Hd _ Ea); exact I).
  cbv zeta. set (cs := w_candidates (cn s)). pose proof (find_candidate_le cs (di_addr i) (di_addr_type i) 0) as Hi.
  set (index := find_candidate cs (di_addr i) (di_addr_type i) 0) in *.
  assert (zlen cs <= MAX_CAND) as Hl by by destruct Hs as (_ & _ & (_ & _ & Hl) & _).
  split_if; [done|]. split_if; [done|]. apply ok_srv.
  - apply candidate_fits; [done|]. destruct (Z.eqb_spec index (zlen cs)); [|lia].
    match goal with H : true && _ = false |- _ => cbn [andb] in H end. lia.
  - split_if; [|done]. apply ok_on_cn; [done|]. intros (Hf & (Hx & Hb & _) & Hh). split; [|split; [split; [|split]|]]; try done.
    cbn. rewrite zlen_app. change (zlen [_]) with 1. apply Z.eqb_eq in E3.
    match goal with H : true && _ = false |- _ => cbn [andb] in H end. lia.
Qed.

(** *** Events: the radio is in phase [ph s] after the event, and [cn s] is as before it *)
Definition after s p h : Prop := m_good (monitored (clog s)) = true /\ holds false h p (cn s).
Definition okay s : Prop := exists h, ok false h s.
Lemma to_idle p h s : after s p h -> ph s = Free -> w_conn_handle (cn s) = GAP_CONNHANDLE_INIT -> w_next_link (cn s) = NEXT_NONE ->
  ok false h (set_state WC_IDLE 0 s).
Proof.
  intros (Hg & _ & (_ & _ & Hl) & Hh) Hp Hc Hn. split; [done|]. split; [by split|]. split; [|done].
  unfold intends. cbn. rewrite Hn. split; [done|]. by split; [intros [[=]|[=]]|].
Qed.
Lemma no_next p h c : holds false h p c -> w_state c <> WC_SCAN_STOPPING -> w_next_link c = NEXT_NONE.
Proof.
  intros (_ & (Hn & _) & _) Hs. destruct (decide (w_next_link c = NEXT_NONE)) as [|E]; [done|]. by destruct (Hn E).
Qed.
Lemma ok_link_up h0 h s p : after s p h0 -> p <> Discovering -> ph s = (match p with Linked x => Linked x | _ => Linked h end) ->
  h <> GAP_CONNHANDLE_INIT -> h <> INVALID_CONNHANDLE -> okay (link_up fw h s).
Proof.
  intros Ha Hp Hph H1 H2. unfold link_up. pose proof Ha as (Hg & Hf & Hi & Hh). unfold fits in Hf. split_if.
  - exists h0. split; [done|]. split; [|done]. unfold fits. destruct (w_state (cn s)); destruct Hf as [-> Hf]; try lia;
      by destruct Hf.
  - assert (p <> Linked (w_conn_handle (cn s)) /\ w_next_link (cn s) = NEXT_NONE) as [Hl Hn].
    { split; [intros ->|eapply no_next; [by split|]; intros Es]; destruct (w_state (cn s)); try done;
        destruct Hf as [? Hf]; try done; lia. }
    exists h. match goal with |- context [on_cn (fun c => c <| w_adapter_started := false |>) ?x] =>
      assert (ok false h (on_cn (fun c => c <| w_adapter_started := false |>) x)) as Hs end.
    { split; [done|]. split; [|split; [|done]].
      - split; [|done]. change (ph (on_cn _ _)) with (ph s). rewrite Hph. cbn.
        destruct p; try done. exfalso. apply Hl. destruct (w_state (cn s)); try done; by destruct Hf as [? _].
      - unfold intends. cbn. rewrite Hn. split; [done|]. split; [by intros [[=]|[=]]|apply Hi]. }
    match goal with |- context [on_cn (fun c => c <| w_adapter_started := false |>) ?x] =>
      revert Hs; generalize (on_cn (fun c => c <| w_adapter_started := false |>) x) end. intros s1 Hs.
    split_if; [by apply ok_disconnect|]. apply (ok_do false h (Gatt_set_conn h)) in Hs; [|done]. revert Hs.
    generalize (fw_do fw (Gatt_set_conn h) s1). intros s2 Hs. split_if; [by apply ok_link|].
    match goal with |- context [gap_do ?a ?g ?x s2] => pose proof (ok_gap_plain false h a g x s2 Hs eq_refl (fun _ => eq_refl)) as Hg2;
      destruct (gap_do a g x s2) as [st s3] end. cbn [snd] in Hg2.
    split_if; [by apply ok_disconnect, ok_radio_fault|by apply ok_link].
Qed.
Lemma ok_established st h h0 s p : after s p h0 -> ph s = after_event p (E_established st h) ->
  (st = SUCCESS -> p <> Discovering /\ h <> GAP_CONNHANDLE_INIT /\ h <> INVALID_CONNHANDLE) -> okay (ev_established fw st h s).
Proof.
  intros Ha Hp Hl. unfold ev_established. cbn [after_event] in Hp. destruct (Z.eqb_spec st SUCCESS) as [E|E].
  - destruct (Hl E) as (H1 & H2 & H3). by eapply ok_link_up.
  - pose proof Ha as (Hg & Hf & Hi & Hh). unfold fits in Hf. split_if.
    + exists h0. apply ok_retry, ok_fault, ok_fail_sdk. unfold is_state in *. apply orb_true_iff in E0.
      rewrite !bool_decide_eq_true in E0. apply (to_idle p); [done| | |].
      * rewrite Hp. by destruct E0 as [Es|Es]; rewrite Es in Hf; destruct Hf as [-> _].
      * by destruct E0 as [Es|Es]; rewrite Es in Hf; destruct Hf as [_ Hf].
      * eapply no_next; [by split|]. by destruct E0 as [Es|Es]; rewrite Es.
    + exists h0. split; [done|]. split; [|done]. rewrite Hp. unfold is_state in *. apply orb_false_iff in E0.
      rewrite !bool_decide_eq_false in E0. unfold fits. destruct (w_state (cn s)); destruct Hf as [-> Hf]; try done; by destruct E0.
Qed.
Lemma ok_terminated h reason h0 s p : after s p h0 -> ph s = after_event p (E_terminated h reason) -> okay (ev_terminated fw h reason s).
Proof.
  intros Ha Hp. pose proof Ha as (Hg & Hf & Hi & Hh). unfold ev_terminated. cbn [after_event] in Hp. split_if.
  - exists h0. split; [done|]. split; [|done]. rewrite Hp. unfold fits in *. destruct (w_state (cn s)); destruct Hf as [-> Hf]; try done;
      (replace (h =? w_conn_handle (cn s)) with false by lia); by destruct Hf.
  - bools. assert (ph s = Free /\ w_next_link (cn s) = NEXT_NONE) as [Hfree Hn].
    { unfold fits in Hf. split; [rewrite Hp|eapply no_next; [by split|intros Es]]; destruct (w_state (cn s)); destruct Hf as [-> Hf]; try lia; try done.
      all: by replace (h =? w_conn_handle (cn s)) with true by lia. }
    exists GAP_CONNHANDLE_INIT. apply ok_retry, ok_fail_pair, ok_do, ok_sync; [done|].
    match goal with |- context [fw_do fw (Gatt_set_conn GAP_CONNHANDLE_INIT) ?x] =>
      pose proof (do_cn (Gatt_set_conn GAP_CONNHANDLE_INIT) x eq_refl) as Ec; pose proof (do_ph (Gatt_set_conn GAP_CONNHANDLE_INIT) x eq_refl) as Ep;
      destruct (Hsil (Gatt_set_conn GAP_CONNHANDLE_INIT) x eq_refl) as (r & w & Er); unfold fw_do in Ec, Ep |- *; rewrite Er in Ec, Ep |- * end.
    cbn [snd] in Ec, Ep |- *. set (x := note (Fw (Gatt_set_conn GAP_CONNHANDLE_INIT) r) _) in *.
    assert (m_good (monitored (clog x)) = true) as Hgx by (unfold x; rewrite note_monitor; cbn -[monitored]; rewrite monitored_snoc; cbn -[monitored]; by rewrite Hg).
    clearbody x. split; [exact Hgx|]. split; [|split].
    + split; cbn; [|by rewrite Ec]. change (ph (on_cn _ _)) with (ph x). rewrite Ep. unfold ph. cbn -[monitored]. rewrite monitored_snoc. exact Hfree.
    + unfold intends. cbn. rewrite Ec. cbn. rewrite Hn. split; [done|]. split; [by intros [[=]|[=]]|apply Hi].
    + cbn. by rewrite Ec.
Qed.
Lemma ok_discovery st h s p : after s p h -> ph s = after_event p (E_discovery st) -> ok false h (ev_discovery fw st s).
Proof.
  intros Ha Hp. pose proof Ha as (Hg & Hf & Hi & Hh). unfold ev_discovery. cbn [after_event] in Hp. unfold fits in Hf.
  destruct (w_state (cn s)) eqn:Es; destruct Hf as [-> Hc];
    try (split; [done|]; split; [unfold fits; by rewrite Es, Hp|done]).
  - apply ok_srv; [done|]. apply (to_idle Discovering); try done. eapply no_next; [apply Ha|]. by rewrite Es.
  - apply ok_retry. apply (to_idle Discovering); try done. eapply no_next; [apply Ha|]. by rewrite Es.
  - set (next := w_next_link (cn s)). cbv zeta. set (s1 := on_cn (fun c => c <| w_next_link := NEXT_NONE |>) s).
    assert (ok false h (set_state WC_IDLE 0 s1)) as H1.
    { apply (to_idle Discovering); try done. split; [done|]. split; [cbn; unfold fits; cbn; by rewrite Es|].
      split; [|done]. split; [done|]. split; [cbn; rewrite Es; by intros [[=]|[=]]|apply Hi]. }
    split_if; [by apply ok_fail_sdk, ok_radio_fault|]. split_if; [|by apply ok_retry].
    apply ok_begin_link; [|done]. bools. cbn. destruct Hi as (Hn & _). apply Hn.
    match goal with H : bool_decide (next = NEXT_NONE) = false |- _ => by apply bool_decide_eq_false in H end.
Qed.
Definition event_legal (p : phase) (e : gap_event) : Prop :=
  match e with
  | E_established st h => st = SUCCESS -> p <> Discovering /\ h <> GAP_CONNHANDLE_INIT /\ h <> INVALID_CONNHANDLE
  | E_device_info i => Bytes (di_data i)
  | _ => True
  end.
Lemma ok_event e s : event_legal (ph s) e -> okay s -> okay (wc_event_cb fw e s).
Proof.
  intros He (h & Hg & Hf). unfold wc_event_cb. cbv zeta.
  match goal with |- context [if negb (header_status e =? SUCCESS) && ?b then ?x else ?y] =>
    assert (after (if negb (header_status e =? SUCCESS) && b then x else y) (ph s) h /\
      ph (if negb (header_status e =? SUCCESS) && b then x else y) = after_event (ph s) e) as [Ha Hp];
      [|revert Ha Hp; generalize (if negb (header_status e =? SUCCESS) && b then x else y)] end.
  { assert (after (note (Evt e) s) (ph s) h /\ ph (note (Evt e) s) = after_event (ph s) e) as [H1 H2].
    { unfold after, ph. rewrite note_monitor. by split. }
    split_if; [|done]. unfold after, ph. rewrite note_monitor. by split. }
  intros s1 Ha Hp. assert (after_event (ph s) e = ph s -> ok false h s1) as Hsame.
  { intros E. rewrite E in Hp. split; [apply Ha|]. rewrite Hp. apply Ha. }
  destruct e; cbn [event_legal] in He.
  - specialize (Hsame eq_refl). exists h. unfold ev_init_done.
    assert (ok false h (on_cn (fun c => c <| w_radio_ready := status =? SUCCESS |>) s1)) as H1 by by plain.
    revert H1. generalize (on_cn (fun c => c <| w_radio_ready := status =? SUCCESS |>) s1). intros s2 H1.
    split_if; [by apply ok_radio_fault|].
    match goal with |- context [gap_do ?a ?g ?x s2] => pose proof (ok_gap_plain false h a g x s2 H1 eq_refl (fun _ => eq_refl)) as H2;
      destruct (gap_do a g x s2) as [st s3] end. split_if; [done|]. apply ok_radio_fault. by plain.
  - by eapply ok_established.
  - by eapply ok_terminated.
  - exists h. specialize (Hsame eq_refl). unfold update_fault. split_if; [done|]. split_if; [done|by apply ok_fault].
  - exists h. specialize (Hsame eq_refl). unfold update_fault. split_if; [done|]. split_if; [done|by apply ok_fault].
  - exists h. specialize (Hsame eq_refl). by apply ok_device.
  - exists h. specialize (Hsame eq_refl). by apply ok_resolve.
  - exists h. by eapply ok_discovery.
Qed.

(** *** Security callbacks *)
Lemma ok_respond win h h' st key m s : ok win h s -> call_ok (ph s) (cn s) (Passcode_rsp h' st key) = true ->
  ok win h (respond_passcode fw h' st key m s).
Proof.
  intros Hs Hc. unfold respond_passcode. pose proof (ok_gap_plain win h 11 (Passcode_rsp h' st key) 0 s Hs Hc (fun _ => eq_refl)) as H1.
  destruct (gap_do 11 (Passcode_rsp h' st key) 0 s) as [st' s']. split_if; [by apply ok_fail_sdk|done].
Qed.
(** A link keeps its handle while the firmware is called. *)
Lemma linked_phase h s : ok false h s -> h <> GAP_CONNHANDLE_INIT -> ph s = Linked h.
Proof.
  intros (_ & Hf & _ & <-) Hn. unfold fits in Hf. destruct (w_state (cn s)); destruct Hf as [-> Hf]; done.
Qed.
Lemma ok_passcode h' inputs outputs h s : ok false h s -> ok false h (wc_passcode_cb fw h' inputs outputs s).
Proof.
  intros Hs. unfold wc_passcode_cb. split_if; [done|]. bools.
  assert (h' = h /\ h <> GAP_CONNHANDLE_INIT) as [-> Hn].
  { destruct Hs as (_ & Hf & _ & Hh). unfold is_state in *.
    match goal with H : bool_decide _ = true |- _ => apply bool_decide_eq_true in H; rename H into Es end.
    unfold fits in Hf. rewrite Es in Hf. destruct Hf as (_ & Hi & _). lia. }
  assert (forall s, ok false h s -> forall st key, call_ok (ph s) (cn s) (Passcode_rsp h st key) = true) as Hrsp.
  { intros s' Hs' st key. cbn. apply bool_decide_eq_true. by apply linked_phase. }
  split_if; [apply ok_srv; [done|]; by plain|]. split_if; [|apply ok_respond; [done|by apply Hrsp]].
  destruct (tmos_rand (cw s)) as [r w].
  match goal with |- context [srv fw ?a ?x] => assert (ok false h (srv fw a x)) as K1 by (apply ok_srv; [done|]; by plain);
    revert K1; generalize (srv fw a x) end. intros s2 K1. apply ok_respond; [done|by apply Hrsp].
Qed.
(** Blocking: the link is given up before the firmware hears of it. *)
Lemma ok_block m h s : ok false h s -> w_state (cn s) = WC_CONNECTING \/ w_state (cn s) = WC_CONNECTED ->
  ok false h (block_security fw m s).
Proof.
  intros Hs Hst. unfold block_security. set (s1 := on_cn (fun c => c <| w_security_blocked := true |>) s).
  pose proof Hs as (Hg & Hf & (Hn & Hb & Hl) & Hh).
  assert (w_next_link (cn s) = NEXT_NONE) as En by (eapply no_next; [apply Hs|by destruct Hst as [-> | ->]]).
  destruct Hst as [Es|Es].
  - pose proof (do_cn (Srv (ALinkMessage (cstr m))) s1 eq_refl) as Ec. pose proof (do_ph (Srv (ALinkMessage (cstr m))) s1 eq_refl) as Ep.
    destruct (Hsil (Srv (ALinkMessage (cstr m))) s1 eq_refl) as (r & w & Er).
    assert (m_good (monitored (clog (on_link_message fw m s1))) = true) as Hg2.
    { unfold on_link_message, srv, fw_do. rewrite Er. cbn [snd]. rewrite note_monitor. cbn -[monitored]. by rewrite Hg. }
    change (fw_do fw (Srv (ALinkMessage (cstr m))) s1) with (on_link_message fw m s1) in Ec, Ep.
    revert Ec Ep Hg2. clear Er. generalize (on_link_message fw m s1). intros s2 Ec Ep Hg2. unfold rb_disconnect.
    change (w_state (cn (on_cn _ s2))) with (w_state (cn s2)). rewrite Ec. change (w_state (cn s1)) with (w_state (cn s)). rewrite Es.
    unfold fits in Hf. rewrite Es in Hf. destruct Hf as [Hp Hc].
    apply ok_rejected; [|change (ph (set_state _ _ _)) with (ph s2); rewrite Ep; unfold ph in *; cbn -[monitored]; by rewrite Hp|done].
    split; [exact Hg2|]. unfold holds, fits, intends. cbn -[monitored]. rewrite Ec. cbn -[monitored].
    change (ph (set_state _ _ _)) with (ph s2). rewrite Ep. split; [by split|]. split; [|done].
    split; [done|]. by split; [intros [[=]|[=]]|].
  - apply ok_disconnect, ok_message. split; [done|]. split; [exact Hf|]. split; [|done].
    unfold intends. cbn. rewrite En, Es. split; [done|]. by split; [intros [[=]|[=]]|].
Qed.
Lemma ok_pair_state h' st status h s : ok false h s -> ok false h (wc_pair_state_cb fw h' st status s).
Proof.
  intros Hs. unfold wc_pair_state_cb. cbv zeta.
  assert (ok false h (if status =? SUCCESS then s else note (Fault (32 + st) status 0) s)) as K1
    by (split_if; [done|by apply ok_fault]).
  revert K1. generalize (if status =? SUCCESS then s else note (Fault (32 + st) status 0) s). intros s1 K1.
  unfold is_state. split_if.
  - apply ok_block; [done|]. bools. match goal with H : _ || _ = true |- _ => apply orb_true_iff in H as [H|H] end; bools;
      repeat match goal with H : bool_decide (_ = _) = true |- _ => apply bool_decide_eq_true in H end; auto.
  - split_if; [done|]. bools.
    match goal with H : bool_decide (w_state _ = WC_CONNECTED) = true |- _ => apply bool_decide_eq_true in H; rename H into Es end.
    split_if; [by apply ok_link|]. split_if; [split_if; [done|split_if; [by apply ok_fail_sdk|apply ok_block; by auto]]|].
    split_if; [split_if; [apply ok_block; by auto|done]|]. split_if; [|done]. split_if; [by plain|by apply ok_fail_pair].
Qed.

(** *** The operations of the server *)
Lemma set_params_ok win h params : forall st s, ok win h s ->
  let '(_, s') := fold_left (fun '(status, s) '(id, v) => if status =? SUCCESS then gap_do 1 (Set_param id v) id s else (status, s))
    params (st, s) in ok win h s' /\ cn s' = cn s.
Proof.
  induction params as [|[id v] params IH]; intros st s Hs; cbn [fold_left]; [done|]. split_if; [|by apply IH].
  pose proof (ok_gap_plain win h 1 (Set_param id v) id s Hs eq_refl (fun _ => eq_refl)) as K1.
  destruct (gap_do 1 (Set_param id v) id s) as [st' s1] eqn:Eg. apply gap_cn in Eg. specialize (IH st' s1 K1).
  destruct (fold_left _ params (st', s1)) as [st2 s2]. destruct IH as [K2 K3]. split; [done|congruence].
Qed.
(** A scan is started: the state has still to be set. *)
Definition free_radio (c : central_t) : Prop :=
  w_state c = WC_IDLE /\ w_radio_ready c = true /\ w_radio_faulted c = false /\ w_recovering c = false.
Lemma start_discovery_ok params active h s st s' : start_discovery params active s = (st, s') -> ok false h s -> free_radio (cn s) ->
  cn s' = cn s /\ if st =? SUCCESS then m_good (monitored (clog s')) = true /\ ph s' = Discovering else ok false h s'.
Proof.
  intros E Hs Hfree. unfold start_discovery, set_params in E. pose proof (set_params_ok false h params SUCCESS s Hs) as K1.
  destruct (fold_left _ params (SUCCESS, s)) as [st1 s1]. destruct K1 as [K1 K2].
  destruct (Z.eqb_spec st1 SUCCESS) as [->|Hn]; [|injection E as <- <-; split; [done|]; by rewrite (proj2 (Z.eqb_neq st1 SUCCESS) Hn)].
  destruct (idle_fits h s1 K1) as (Hp & _). { unfold is_state. rewrite K2. apply bool_decide_eq_true, Hfree. }
  assert (call_ok (ph s1) (cn s1) (Start_discovery DEVDISC_MODE_ALL active false) = true) as Hc.
  { cbn [call_ok]. rewrite Hp, K2. destruct Hfree as (F1 & F2 & F3 & F4). unfold in_state. rewrite F1, F2, F3, F4. reflexivity. }
  split; [apply gap_cn in E; congruence|]. destruct (gap_monitor _ _ _ _ _ _ E) as [G1 G2]. rewrite Hc in G1. cbn [after_call] in G2.
  destruct (st =? SUCCESS) eqn:Est.
  - split; [|done]. rewrite G1. by destruct K1 as [-> _].
  - eapply ok_gap; [exact E|done| |done]. cbn [after_call]. by rewrite Est.
Qed.
Lemma not_window h s : ok true h s -> is_state WC_IDLE s = false /\ is_state WC_SCAN_STOPPING s = false /\
  is_state WC_SCAN s = false /\ is_state WC_CONNECTED s = false.
Proof.
  intros (_ & (Hw & _) & _). unfold is_state. by destruct Hw as [-> | ->].
Qed.
Lemma to_scanning st timeout h s : m_good (monitored (clog s)) = true -> ph s = Discovering -> (st = WC_SCAN \/ st = WC_RESOLVE) ->
  w_conn_handle (cn s) = GAP_CONNHANDLE_INIT -> w_conn_handle (cn s) = h -> w_next_link (cn s) = NEXT_NONE ->
  (st = WC_RESOLVE -> w_security_blocked (cn s) = false) -> zlen (w_candidates (cn s)) <= MAX_CAND -> ok false h (set_state st timeout s).
Proof.
  intros Hg Hp Hst Hc Hh Hn Hb Hl. split; [done|]. split; [|split; [|done]].
  - unfold fits. cbn. change (ph (set_state st timeout s)) with (ph s). by destruct Hst as [-> | ->].
  - unfold intends. cbn. rewrite Hn. split; [done|]. split; [|done]. intros [->|E]; [by apply Hb|]. by destruct Hst as [-> | ->].
Qed.
Lemma ok_start_find d win h s : ok win h s -> ok win h (snd (rb_start_find fw d s)).
Proof.
  intros Hs. unfold rb_start_find. split_if; [done|]. split_if; [done|]. bools.
  destruct win; [destruct (not_window h s Hs) as [E1 _]; congruence|].
  match goal with H : is_state WC_IDLE s = true |- _ => destruct (idle_fits h s Hs H) as (Hp & Hh & Hn); rename H into Hi end.
  cbv zeta. match goal with |- context [on_cn ?f s] => assert (ok false h (on_cn f s)) as K1;
    [|assert (free_radio (cn (on_cn f s)) /\ w_next_link (cn (on_cn f s)) = NEXT_NONE /\ w_conn_handle (cn (on_cn f s)) = h /\
       zlen (w_candidates (cn (on_cn f s))) <= MAX_CAND) as (F1 & F2 & F3 & F4);
      [|revert K1 F1 F2 F3 F4; generalize (on_cn f s)]] end.
  { apply ok_on_cn; [done|]. intros (Hf & (Hx & Hb & _) & Hh'). by split; [|split; [split; [|split]|]]. }
  { apply bool_decide_eq_true in Hi. destruct Hs as (_ & _ & _ & Hc). by repeat split. }
  intros s1 K1 F1 F2 F3 F4.
  match goal with |- context [start_discovery ?ps true s1] => destruct (start_discovery ps true s1) as [st s2] eqn:Ed;
    destruct (start_discovery_ok _ _ _ _ _ _ Ed K1 F1) as [Ec Hk] end.
  destruct (st =? SUCCESS); [|by apply ok_message]. destruct Hk as [Hg2 Hp2]. cbn [snd].
  apply to_scanning; rewrite ?Ec; try done; [by left|congruence].
Qed.
Lemma ok_stop_find win h s : ok win h s -> ok win h (rb_stop_find fw s).
Proof.
  intros Hs. unfold rb_stop_find. split_if; [|done]. destruct win; [destruct (not_window h s Hs) as (_ & _ & E1 & _); congruence|].
  apply bool_decide_eq_true in E. destruct Hs as (Hg & Hf & (_ & Hb & Hl) & Hh). unfold fits in Hf. rewrite E in Hf. destruct Hf as [Hp Hc].
  apply ok_stop_scan; try done. congruence.
Qed.
Lemma ok_pair_begin id win h s : ok win h s -> ok win h (rb_pair_begin fw id s).
Proof.
  intros Hs. unfold rb_pair_begin. destruct (pair_check fw id s) as [st s1] eqn:E.
  assert (ok win h s1 /\ (st = RBP_STATUS_OK -> win = false)) as [K1 Hw].
  { unfold pair_check in E. split_if_in E; [injection E as <- <-; by split|]. split_if_in E; [injection E as <- <-; by split|].
    assert (win = false) as ->.
    { destruct win; [|done]. destruct (not_window h s Hs) as (I1 & I2 & _). rewrite I1, I2 in *. bools. done. }
    split_if_in E; [injection E as <- <-; by split|]. destruct (get_bond_count s) as [[cs n] s2] eqn:Eb.
    apply (ok_bonds false h _ _ _ _ Eb) in Hs. split_if_in E; [injection E as <- <-; by split|].
    split_if_in E; [injection E as <- <-; by split|]. pose proof (Hfw false h Begin_pair s2 eq_refl Hs) as K1.
    destruct (fw Begin_pair s2) as [r s3]. injection E as _ <-. by split. }
  split_if; [by apply ok_srv|]. rewrite Hw in * by (bools; lia).
  destruct (nth (Z.to_nat (id - 1)) (w_candidates (cn s1)) ([], 0)) as [addr type].
  match goal with |- context [on_cn ?f s1] => assert (ok false h (on_cn f s1)) as K2;
    [|assert (w_security_blocked (cn (on_cn f s1)) = false) as Hb by done; revert K2 Hb; generalize (on_cn f s1)] end.
  { apply ok_on_cn; [done|]. intros (Hf & (Hx & Hb & Hl) & Hh). split; [done|]. split; [|done]. split; [|done].
    cbn. intros Hy. by destruct (Hx Hy). }
  intros s2 K2 Hb. split_if; [|by apply ok_begin_link]. apply ok_on_cn; [done|]. intros (Hf & (Hx & Hb' & Hl) & Hh).
  split; [done|]. split; [|done]. split; [|done]. intros _. split; [by apply bool_decide_eq_true in E1|done].
Qed.
Lemma ok_pair_reply a b key win h s : ok win h s -> ok win h (rb_pair_reply fw a b key s).
Proof.
  intros Hs. unfold rb_pair_reply. split_if; [done|]. bools.
  destruct win; [destruct (not_window h s Hs) as (_ & _ & _ & E1); congruence|].
  assert (ok false h (on_cn (fun c => c <| w_passkey_pending := false |>) s)) as K1 by by plain.
  apply ok_respond; [done|]. cbn [call_ok]. apply bool_decide_eq_true. pose proof K1 as (_ & Hf & _ & Hh). cbn in Hh. rewrite Hh.
  apply linked_phase; [done|]. unfold is_state in *.
  match goal with H : bool_decide (w_state _ = WC_CONNECTED) = true |- _ => apply bool_decide_eq_true in H; rename H into Es end.
  unfold fits in Hf. cbn in Hf. rewrite Es in Hf. destruct Hf as (_ & Hi & _). congruence.
Qed.
Lemma ok_forget win h s : ok win h s -> ok win h (rb_forget_peer fw s).
Proof.
  intros Hs. unfold rb_forget_peer. pose proof (Hfw win h Begin_forget s eq_refl Hs) as K1. destruct (fw Begin_forget s) as [r s1].
  cbn [snd] in K1. split_if; [by apply ok_srv|]. apply ok_disconnect. by plain.
Qed.
(** Reading the identity changes nothing of the link. *)
Definition link_part (c : central_t) :=
  (w_state c, w_radio_ready c, w_radio_faulted c, w_recovering c, w_security_blocked c, w_conn_handle c, w_next_link c,
   w_candidates c).
Lemma identity_link s : link_part (cn (snd (read_identity s))) = link_part (cn s).
Proof.
  unfold read_identity. destruct (get_bond_count s) as [[cs n] s1] eqn:E. apply bonds_cn in E.
  destruct (bond_record (cw s1)) as [rs [addr type]].
  assert (forall st ctx (x : cst W), cn (gap_result 12 st ctx x) = cn x) as Hr by (intros st ctx x; unfold gap_result; by split_if).
  split_if; [by cbn [snd]; rewrite Hr, E|]. split_if; [by cbn [snd]; rewrite Hr, E|].
  destruct (bond_irk _) as [ir irk]. cbn [snd]. rewrite Hr. cbn. rewrite Hr, E. done.
Qed.
Lemma ok_matches win h s : ok win h s -> ok win h (snd (identity_matches s)) /\
  link_part (cn (snd (identity_matches s))) = link_part (cn s).
Proof.
  intros Hs. unfold identity_matches. destruct (addr_load (cw s)) as [[addr type]|]; [|done].
  pose proof (ok_identity win h s Hs). pose proof (identity_link s). by destruct (read_identity s) as [r s1].
Qed.
Lemma ok_connect_peer win h s : ok win h s -> ok win h (rb_connect_peer fw s).
Proof.
  intros Hs. unfold rb_connect_peer. split_if; [done|]. bools.
  destruct win; [destruct (not_window h s Hs) as (E1 & _); congruence|].
  match goal with H : is_state WC_IDLE s = true |- _ => destruct (idle_fits h s Hs H) as (_ & Hh & Hn); apply bool_decide_eq_true in H end.
  destruct (ok_matches false h s Hs) as [K1 El]. destruct (identity_matches s) as [r s1]. cbn [snd] in K1, El.
  injection El as F1 F2 F3 F4 F5 F6 F7 F8. split_if.
  - apply ok_link, ok_message, ok_on_cn; [done|]. intros (Hf & (Hx & Hb & Hl) & Hc). split; [done|]. split; [|done].
    unfold intends. cbn. rewrite F7, Hn, F1. split; [done|]. split; [|done]. match goal with H : w_state (cn s) = _ |- _ => rewrite H end.
    by intros [[=]|[=]].
  - cbv zeta. match goal with |- context [start_discovery ?ps false s1] => destruct (start_discovery ps false s1) as [st s2] eqn:Ed;
      destruct (start_discovery_ok _ _ _ _ _ _ Ed K1) as [Ec Hk] end; [unfold free_radio; by rewrite F1, F2, F3, F4|].
    destruct (st =? SUCCESS); [|by apply ok_message, ok_retry]. destruct Hk as [Hg2 Hp2].
    destruct K1 as (_ & _ & (_ & _ & Hl) & Hc). apply ok_link, to_scanning; rewrite ?Ec; try done; [by right|congruence..].
Qed.
Lemma ok_backend r win h s : ok win h s -> ok win h (backend fw r s).
Proof.
  intros Hs. destruct r; cbn [backend]; [by apply ok_start_find|by apply ok_stop_find|by apply ok_pair_begin|by apply ok_pair_reply|
    by apply ok_fail_pair|by apply ok_forget|by apply ok_connect_peer|by apply ok_disconnect|by apply ok_do].
Qed.

(** *** The task *)
Lemma ok_start_adapter win h s : ok win h s -> ok win h (start_encrypted_adapter fw s).
Proof. intros Hs. unfold start_encrypted_adapter. split_if; [|done]. apply ok_do; [done|]. by plain. Qed.
Lemma ok_report_forgotten st u h s : st <> RBP_STATUS_OK -> ok false h s -> ok false h (report_forgotten fw st u s).
Proof. intros Hst Hs. unfold report_forgotten. split_if; [|done]. apply ok_srv; [|done]. cbn. by apply negb_true_iff, Z.eqb_neq. Qed.
(** The bonds were counted just before: there is none. *)
Lemma ok_recovered h s : m_erased (monitored (clog s)) = true -> ok false h s -> ok false h (recovered fw s).
Proof.
  intros He Hs. unfold recovered.
  match goal with |- context [on_cn _ (if w_delete_report (cn s) then ?x else ?y)] =>
    assert (ok false h (if w_delete_report (cn s) then x else y)) as K1; [|revert K1; generalize (if w_delete_report (cn s) then x else y)] end.
  { split_if; [apply Hcall; [|done]; by rewrite He|].
    pose proof (Hcall false h Store_clear s ltac:(by rewrite He) Hs) as K1. destruct (fw Store_clear s) as [r s1]. cbn [snd] in K1.
    split_if; [by apply ok_link, ok_srv|by apply ok_link, ok_message]. }
  intros s1 K1. apply ok_on_cn; [done|]. intros (Hf & (Hn & Hb & Hl) & Hh). split; [done|]. split; [|done]. split; [|done].
  cbn. intros Hx. by destruct (Hn Hx).
Qed.
Lemma ok_recovery h s : w_recovering (cn s) = true -> ok false h s -> ok false h (poll_recovery fw s).
Proof.
  intros Hr Hs. unfold poll_recovery. cbv zeta.
  assert (forall x, ok false h x -> ok false h (report_forgotten fw RBP_STATUS_STORAGE_FAILED true (on_cn (fun c => c <| w_recovering := false |>) x))) as Ha
    by (intros x Hx; apply ok_report_forgotten; [done|]; by plain).
  destruct (w_radio_faulted (cn s)) eqn:Ef; [by apply Ha|]. split_if; [done|].
  apply negb_false_iff in E.
  match goal with |- context [if w_recovery_deadline (cn s) =? 0 then ?x else s] =>
    assert (ok false h (if w_recovery_deadline (cn s) =? 0 then x else s) /\
      is_state WC_IDLE (if w_recovery_deadline (cn s) =? 0 then x else s) = true /\
      w_recovering (cn (if w_recovery_deadline (cn s) =? 0 then x else s)) = true /\
      w_radio_faulted (cn (if w_recovery_deadline (cn s) =? 0 then x else s)) = false) as (K1 & K2 & K3 & K4)
      by (split_if; [split; [by plain|done]|done]);
    revert K1 K2 K3 K4; generalize (if w_recovery_deadline (cn s) =? 0 then x else s) end.
  intros s1 K1 K2 K3 K4. split_if; [by apply ok_link, ok_message, Ha|].
  destruct (idle_fits h s1 K1 K2) as (Hp & _). split_if.
  - assert (call_ok (ph s1) (cn s1) Erase_bonds = true) as Hc.
    { cbn [call_ok]. rewrite Hp, K3, K4. unfold in_state. apply bool_decide_eq_true in K2. by rewrite K2. }
    match goal with |- context [gap_do ?a ?g ?x s1] => pose proof (ok_gap_plain false h a g x s1 K1 Hc (fun _ => eq_refl)) as K5;
      destruct (gap_do a g x s1) as [st s2] end. split_if; [by plain|done].
  - destruct (get_bond_count s1) as [[st n] s2] eqn:Eb. pose proof (ok_bonds false h _ _ _ _ Eb K1) as K5. split_if; [done|].
    apply ok_recovered; [|done]. bools. unfold get_bond_count in Eb. destruct (bond_count (cw s1)) as [st' n']. injection Eb as -> -> <-.
    unfold gap_result. replace (st =? SUCCESS) with true by done. cbn [negb andb]. rewrite note_monitor. cbn. lia.
Qed.
Lemma ok_save_cache h s : ok false h s -> ok false h (save_cache_once fw s).
Proof.
  intros Hs. unfold save_cache_once. split_if; [done|].
  assert (ok false h (on_cn (fun c => c <| w_backoff := 0 |> <| w_early_retries := 0 |>) s)) as K1 by by plain. cbv zeta.
  revert K1. generalize (on_cn (fun c => c <| w_backoff := 0 |> <| w_early_retries := 0 |>) s). intros s1 K1.
  split_if; [|done]. apply ok_sync. by plain.
Qed.
Lemma ok_poll_connected h s : ok false h s -> ok false h (poll_connected fw s).
Proof.
  intros Hs. unfold poll_connected. apply (ok_start_adapter false h) in Hs. revert Hs. generalize (start_encrypted_adapter fw s). intros s1 K1.
  cbv zeta. match goal with |- context [if ?b then finish_pair fw s1 else s1] =>
    assert (ok false h (if b then finish_pair fw s1 else s1)) as K2 by (split_if; [by apply ok_finish_pair|done]);
    revert K2; generalize (if b then finish_pair fw s1 else s1) end. intros s2 K2. apply ok_save_cache.
  split_if; [|done]. apply ok_disconnect, ok_fail_pair. split_if; [done|by apply ok_message].
Qed.
Lemma ok_poll h s : ok false h s -> ok false h (poll fw s).
Proof.
  intros Hs. unfold poll. split_if; [split_if; [by apply ok_radio_fault|done]|]. cbv zeta.
  match goal with |- context [if ?b && waiting_for_end s && ?c then ?x else s] =>
    assert (ok false h (if b && waiting_for_end s && c then x else s)) as K1 by (split_if; [by apply ok_fail_pair, ok_radio_fault|done]);
    revert K1; generalize (if b && waiting_for_end s && c then x else s) end. intros s1 K1.
  destruct (w_recovering (cn s1)) eqn:Er; [by apply ok_recovery|]. split_if; [done|].
  destruct (w_state (cn s1)); try done.
  - split_if; [by apply ok_connect_peer|done].
  - split_if; [by apply ok_disconnect, ok_srv|done].
  - split_if; [by apply ok_disconnect, ok_fail_pair|done].
  - by apply ok_poll_connected.
Qed.
Lemma ok_process m ev h s : ok false h s -> ok false h (process fw m ev s).
Proof.
  intros Hs. unfold process. cbv zeta.
  match goal with |- context [if ?b then match m with Some m => on_message fw m s | None => s end else s] =>
    assert (ok false h (if b then match m with Some m => on_message fw m s | None => s end else s)) as K1;
    [|revert K1; generalize (if b then match m with Some m => on_message fw m s | None => s end else s)] end.
  { split_if; [|done]. destruct m as [m|]; [|done]. unfold on_message. apply ok_srv; [done|]. destruct m; [|done].
    apply ok_do; [done|]. split_if; [by apply ok_start_adapter|done]. }
  intros s1 K1.
  match goal with |- context [if ?b && negb (w_radio_faulted (cn s1)) then ?x else s1] =>
    assert (ok false h (if b && negb (w_radio_faulted (cn s1)) then x else s1)) as K2;
    [|revert K2; generalize (if b && negb (w_radio_faulted (cn s1)) then x else s1)] end.
  { split_if; [|done]. pose proof (ok_gap_plain false h 6 Start_device 0 s1 K1 eq_refl (fun _ => eq_refl)) as K2.
    destruct (gap_do 6 Start_device 0 s1) as [st s2]. split_if; [done|by apply ok_radio_fault]. }
  intros s2 K2. split_if; [by apply ok_poll|done].
Qed.
Lemma ok_configure stage make why params h : (forall id v c p, call_ok p c (make id v) = true) ->
  (forall id v p st, after_call p (make id v) st = p) -> forall s, ok false h s -> ok false h (configure fw stage make why params s).
Proof.
  intros H1 H2. unfold configure. induction params as [|[id v] params IH]; intros s Hs; cbn [fold_left]; [done|]. apply IH.
  pose proof (ok_gap_plain false h stage (make id v) id s Hs (H1 _ _ _ _) (fun st => H2 _ _ _ st)) as K1.
  destruct (gap_do stage (make id v) id s) as [st s1]. split_if; [done|by apply ok_radio_fault].
Qed.
Lemma ok_init h s : ok false h s -> ok false h (wch_central_init fw s).
Proof.
  intros Hs. unfold wch_central_init. cbv zeta. set (peer := peer_counter (cw s)). set (cache := cache_load peer (cw s)).
  match goal with |- context [if negb (zlen cache =? 0) then ?x else s] =>
    assert (ok false h (if negb (zlen cache =? 0) then x else s)) as K1; [|revert K1; generalize (if negb (zlen cache =? 0) then x else s)] end.
  { split_if; [|done]. pose proof (Hfw false h (Cache_import peer cache) s eq_refl Hs) as K1.
    destruct (fw (Cache_import peer cache) s) as [r s1]. split_if; [by apply ok_do|done]. }
  intros s1 K1.
  match goal with |- context [configure fw 1 Set_param ?w ?ps ?x] => assert (ok false h x) as K2;
    [split_if; [apply ok_radio_fault|]; by plain|apply (ok_configure 1 Set_param w ps h (fun _ _ _ _ => eq_refl) (fun _ _ _ _ => eq_refl)) in K2;
     revert K2; generalize (configure fw 1 Set_param w ps x)] end. intros s2 K2.
  match goal with |- context [configure fw 3 Bond_param ?w ?ps s2] =>
    apply (ok_configure 3 Bond_param w ps h (fun _ _ _ _ => eq_refl) (fun _ _ _ _ => eq_refl)) in K2;
    revert K2; generalize (configure fw 3 Bond_param w ps s2) end. intros s3 K3.
  match goal with |- context [gap_try Init_client ?x] => assert (ok false h x) as K4 by (split_if; [apply ok_radio_fault|]; by plain);
    destruct (gap_try Init_client x) as [st s4] eqn:Eg end. apply ok_try with (win := false) (h := h) in Eg; [|done..].
  split_if; [done|by apply ok_radio_fault].
Qed.
End operations.
