(* ===== verification/CentralWalk.v ===== *)
(** * The radio central: a property carried through every operation

    A property of the state that is kept by the elementary steps (an update of
    the variables that does not clear the fault of the radio, an entry of the
    log, a call of the library, a call of the firmware) is kept by every
    operation.  The calls of the firmware are plain, except for one: a candidate,
    which fits into the record of the server. *)
From Stdlib Require Import String.
From S2P Require Import Prelude Defs Tlv ServerState ServerLink Server ServerInv Board Gatt Atvv AdapterState Adapter AdapterCache CentralState Central CandidateName CentralProps.
#[local] Open Scope string_scope.
#[local] Open Scope list_scope.
#[local] Open Scope Z_scope.

(** Calls of the firmware without a condition: input of the host is not the
    central's, and a candidate has to fit. *)
Definition plain (f : fw_call) : bool :=
  match f with Srv (AScanCandidate _ | AUsbRx _ _) => false | _ => true end.
Class Plain (f : fw_call) : Prop := is_plain : plain f = true.
#[export] Hint Extern 0 (Plain _) => exact eq_refl : typeclass_instances.

Section walk.
Context {W : Type} `{P : Platform W} (fw : fw_call -> cst W -> Z * cst W) (Q : cst W -> Prop).
Implicit Types s : cst W.
Context (Qcn : forall f s, (w_radio_faulted (cn s) = true -> w_radio_faulted (f (cn s)) = true) -> Q s -> Q (on_cn f s))
  (Qnote : forall x s, Q s -> Q (note x s))
  (Qgap : forall g s, Q s -> Q (s <| cw := snd (gap g (cw s)) |>))
  (Qfw : forall f s, Plain f -> Q s -> Q (snd (fw f s))).

Lemma walk_result a b c s : Q s -> Q (gap_result a b c s).
Proof. intros Hs. unfold gap_result. split_if; [by apply Qnote|done]. Qed.
Lemma walk_gap a g x s : Q s -> Q (snd (gap_do a g x s)).
Proof. intros Hs. unfold gap_do, gap_try. pose proof (Qgap g s Hs). destruct (gap g (cw s)). by apply walk_result, Qnote. Qed.
Lemma walk_bonds s : Q s -> Q (snd (get_bond_count s)).
Proof. intros Hs. unfold get_bond_count. destruct (bond_count (cw s)). by apply walk_result, Qnote. Qed.
Lemma walk_do f `{!Plain f} s : Q s -> Q (fw_do fw f s).
Proof. by apply Qfw. Qed.
Lemma walk_link st s : Q s -> Q (on_link fw st s).
Proof. by apply Qfw. Qed.
Lemma walk_message m s : Q s -> Q (on_link_message fw m s).
Proof. by apply Qfw. Qed.
Lemma walk_srv a `{!Plain (Srv a)} s : Q s -> Q (srv fw a s).
Proof. by apply Qfw. Qed.
Lemma walk_schedule s : Q s -> Q (reconnect_schedule s).
Proof. by apply Qcn. Qed.
Lemma walk_state st t s : Q s -> Q (set_state st t s).
Proof. by apply Qcn. Qed.
(** Everything an operation does step by step, from the outside in. *)
Ltac grow :=
  repeat first
    [ assumption
    | exact eq_refl
    | match goal with
      | |- Q (if _ then _ else _) => split_if
      | |- Q (match w_state ?c with _ => _ end) => destruct (w_state c)
      | |- Q (on_cn _ _) => apply Qcn; [by intros|]
      | |- Q (set_state _ _ _) => apply walk_state
      | |- Q (reconnect_schedule _) => apply walk_schedule
      | |- Q (on_link _ _ _) => apply walk_link
      | |- Q (on_link_message _ _ _) => apply walk_message
      | |- Q (srv _ _ _) => apply walk_srv
      | |- Q (fw_do _ _ _) => apply walk_do
      | |- Q (gap_result _ _ _ _) => apply walk_result
      | |- Q (note _ _) => apply Qnote
      | |- Q (let '(_, _) := gap_do ?a ?g ?c ?s in _) =>
        let K := fresh "K" in assert (Q (snd (gap_do a g c s))) as K; [apply walk_gap|destruct (gap_do a g c s); cbn [snd] in K]
      | |- Q (let '(_, _) := fw ?f ?s in _) =>
        let K := fresh "K" in assert (Q (snd (fw f s))) as K; [apply Qfw; [exact _|]|destruct (fw f s); cbn [snd] in K]
      end ].
Lemma walk_sync s : Q s -> Q (sync_gatt_cache fw s).
Proof. intros Hs. unfold sync_gatt_cache. cbv zeta. grow. Qed.
Lemma walk_release s : Q s -> Q (fw_do fw Adapter_detach (sync_gatt_cache fw (fw_do fw Gatt_quiesce s))).
Proof. intros Hs. by apply walk_do, walk_sync, walk_do. Qed.
Lemma walk_fault why s : Q s -> Q (radio_fault fw why s).
Proof. intros Hs. unfold radio_fault. cbv zeta. split_if; [by grow|]. apply walk_link, walk_message, walk_release. grow. Qed.
Lemma walk_retry early s : Q s -> Q (disconnected_retry fw early s).
Proof. intros Hs. unfold disconnected_retry. cbv zeta. grow. Qed.
Lemma walk_stop s : Q s -> Q (stop_scan fw s).
Proof. intros Hs. unfold stop_scan. cbv zeta. grow. Qed.
Lemma walk_disconnect s : Q s -> Q (rb_disconnect fw s).
Proof.
  intros Hs. unfold rb_disconnect. cbv zeta.
  match goal with |- context [on_cn ?f s] => assert (Q (on_cn f s)) as H1 by grow; revert H1; generalize (on_cn f s) end.
  intros s1 H1. destruct (w_state (cn s1)); try done; [by apply walk_stop|grow| |by apply walk_stop].
  pose proof (walk_release s1 H1) as H2. revert H2. generalize (fw_do fw Adapter_detach (sync_gatt_cache fw (fw_do fw Gatt_quiesce s1))).
  intros s2 H2. grow.
Qed.
Lemma walk_fail st s : Q s -> Q (fail_pair fw st s).
Proof. intros Hs. unfold fail_pair. split_if; [done|]. apply walk_disconnect. grow. Qed.
Lemma walk_sdk m c s : Q s -> Q (fail_pair_sdk fw m c s).
Proof. intros Hs. unfold fail_pair_sdk. split_if; [done|]. by apply walk_link, walk_srv, walk_fail. Qed.
Lemma walk_begin addr type s : Q s -> Q (begin_link fw addr type s).
Proof.
  intros Hs. unfold begin_link. split_if; [done|]. cbv zeta.
  match goal with |- context [on_cn ?f s] => assert (Q (on_cn f s)) as H1 by grow; revert H1; generalize (on_cn f s) end.
  intros s1 H1. match goal with |- context [gap_do ?a ?g ?c s1] => pose proof (walk_gap a g c s1 H1) as H2; destruct (gap_do a g c s1) as [st s2] end.
  cbn [snd] in H2. split_if; [by apply walk_sdk, walk_fault|].
  match goal with |- context [on_link fw ?l ?x] => assert (Q (on_link fw l x)) as H3 by grow; revert H3; generalize (on_link fw l x) end.
  intros s3 H3. match goal with |- context [gap_do ?a ?g ?c s3] => pose proof (walk_gap a g c s3 H3) as H4; destruct (gap_do a g c s3) as [st3 s4] end.
  cbn [snd] in H4. split_if; [done|]. apply walk_schedule. split_if; [apply walk_sdk|]; grow.
Qed.
Lemma walk_identity s : Q s -> Q (snd (read_identity s)).
Proof.
  intros Hs. unfold read_identity. pose proof (walk_bonds s Hs) as H1. destruct (get_bond_count s) as [[cs n] s1]. cbn [snd] in H1.
  destruct (bond_record (cw s1)) as [rs [addr type]]. split_if; [by apply walk_result|]. split_if; [by apply walk_result|].
  destruct (bond_irk _). cbn [snd]. grow.
Qed.
Lemma walk_matches s : Q s -> Q (snd (identity_matches s)).
Proof.
  intros Hs. unfold identity_matches. destruct (addr_load (cw s)) as [[addr type]|]; [|done].
  pose proof (walk_identity s Hs). by destruct (read_identity s).
Qed.
Lemma walk_discovery ps active s : Q s -> Q (snd (start_discovery ps active s)).
Proof.
  intros Hs. unfold start_discovery, set_params.
  assert (forall st s, Q s -> Q (snd (fold_left (fun '(status, s) '(id, v) =>
    if status =? SUCCESS then gap_do 1 (Set_param id v) id s else (status, s)) ps (st, s)))) as Hp.
  { induction ps as [|[id v] ps IH]; intros st s' H'; cbn [fold_left]; [done|]. split_if; [|by apply IH].
    pose proof (walk_gap 1 (Set_param id v) id s' H'). destruct (gap_do 1 (Set_param id v) id s'). by apply IH. }
  specialize (Hp SUCCESS s Hs). destruct (fold_left _ ps (SUCCESS, s)) as [st s1]. cbn [snd] in Hp. split_if; [by apply walk_gap|done].
Qed.
Lemma walk_start_find d s : Q s -> Q (snd (rb_start_find fw d s)).
Proof.
  intros Hs. unfold rb_start_find. cbv zeta. split_if; [done|]. split_if; [done|].
  match goal with |- context [start_discovery ?ps true ?x] => assert (Q (snd (start_discovery ps true x))) as H1
    by (apply walk_discovery; grow); destruct (start_discovery ps true x) as [st s1] end. cbn [snd] in H1.
  split_if; [by apply walk_state|by apply walk_message].
Qed.
Lemma walk_pair_begin id s : Q s -> Q (rb_pair_begin fw id s).
Proof.
  intros Hs. unfold rb_pair_begin. assert (Q (snd (pair_check fw id s))) as H1.
  { unfold pair_check. cbv zeta. split_if; [done|]. split_if; [done|]. split_if; [done|]. pose proof (walk_bonds s Hs) as H1.
    destruct (get_bond_count s) as [[cs n] s1]. cbn [snd] in H1. split_if; [done|]. split_if; [done|].
    pose proof (Qfw Begin_pair s1 _ H1). by destruct (fw Begin_pair s1). }
  destruct (pair_check fw id s) as [st s1]. cbn [snd] in H1. split_if; [by apply walk_srv|].
  destruct (nth _ _ _) as [addr type]. cbv zeta. split_if; [by grow|]. apply walk_begin. grow.
Qed.
Lemma walk_connect s : Q s -> Q (rb_connect_peer fw s).
Proof.
  intros Hs. unfold rb_connect_peer. cbv zeta. split_if; [done|]. pose proof (walk_matches s Hs) as H1.
  destruct (identity_matches s) as [r s1]. cbn [snd] in H1. split_if; [by grow|].
  match goal with |- context [start_discovery ?ps false ?x] => pose proof (walk_discovery ps false x H1) as H2;
    destruct (start_discovery ps false x) as [st s2] end. cbn [snd] in H2. split_if; [by grow|by apply walk_message, walk_retry].
Qed.
Lemma walk_backend r s : Q s -> Q (backend fw r s).
Proof.
  intros Hs. destruct r; cbn [backend]; [by apply walk_start_find| |by apply walk_pair_begin| |by apply walk_fail| |by apply walk_connect|
    by apply walk_disconnect|by apply walk_do].
  - unfold rb_stop_find. split_if; [|done]. apply walk_stop. grow.
  - unfold rb_pair_reply. cbv zeta. split_if; [done|]. unfold respond_passcode.
    match goal with |- context [gap_do ?a ?g ?c ?x] => assert (Q (snd (gap_do a g c x))) as H1 by (apply walk_gap; grow);
      destruct (gap_do a g c x) as [st s1] end. split_if; [by apply walk_sdk|done].
  - unfold rb_forget_peer. pose proof (Qfw Begin_forget s _ Hs) as H1. destruct (fw Begin_forget s) as [r s1]. cbn [snd] in H1.
    split_if; [by apply walk_srv|]. apply walk_disconnect. grow.
Qed.

(** The operations above count as steps. *)
Ltac tour :=
  repeat first
    [ progress grow
    | match goal with
      | |- Q (sync_gatt_cache _ _) => apply walk_sync
      | |- Q (radio_fault _ _ _) => apply walk_fault
      | |- Q (disconnected_retry _ _ _) => apply walk_retry
      | |- Q (disconnected _ _) => apply walk_retry
      | |- Q (stop_scan _ _) => apply walk_stop
      | |- Q (rb_disconnect _ _) => apply walk_disconnect
      | |- Q (fail_pair _ _ _) => apply walk_fail
      | |- Q (fail_pair_sdk _ _ _ _) => apply walk_sdk
      | |- Q (begin_link _ _ _ _) => apply walk_begin
      | |- Q (rb_connect_peer _ _) => apply walk_connect
      end ].
Lemma walk_finish s : Q s -> Q (finish_pair fw s).
Proof.
  intros Hs. unfold finish_pair. pose proof (walk_identity s Hs) as H1. destruct (read_identity s) as [r s1]. cbn [snd] in H1. cbv zeta.
  split_if; [by apply walk_fail|].
  match goal with |- context [storage_state (cw ?x)] => assert (Q x) as H2 by grow; revert H2; generalize x end. intros s2 H2. tour.
Qed.
Lemma walk_resolve addr type et s : Q s -> Q (resolve_advertisement fw addr type et s).
Proof. intros Hs. unfold resolve_advertisement. cbv zeta. tour. Qed.
Lemma walk_passcode_rsp h st key m s : Q s -> Q (respond_passcode fw h st key m s).
Proof. intros Hs. unfold respond_passcode. tour. Qed.
Lemma walk_block why s : Q s -> Q (block_security fw why s).
Proof. intros Hs. unfold block_security. tour. Qed.
Lemma walk_pair_state h state status s : Q s -> Q (wc_pair_state_cb fw h state status s).
Proof.
  intros Hs. unfold wc_pair_state_cb.
  match goal with |- context [if status =? SUCCESS then s else ?x] => assert (Q (if status =? SUCCESS then s else x)) as H1 by tour;
    revert H1; generalize (if status =? SUCCESS then s else x) end. intros s1 H1. cbv zeta. repeat first [progress tour|apply walk_block].
Qed.
Lemma walk_start_adapter s : Q s -> Q (start_encrypted_adapter fw s).
Proof. intros Hs. unfold start_encrypted_adapter. cbv zeta. tour. Qed.
Lemma walk_recovered s : Q s -> Q (recovered fw s).
Proof. intros Hs. unfold recovered. cbv zeta. tour. Qed.
Lemma walk_report st u s : Q s -> Q (report_forgotten fw st u s).
Proof. intros Hs. unfold report_forgotten. tour. Qed.
Lemma walk_poll_recovery s : Q s -> Q (poll_recovery fw s).
Proof.
  intros Hs. unfold poll_recovery. cbv zeta. split_if; [apply walk_report; tour|]. split_if; [done|].
  match goal with |- context [passed _ ?x] => assert (Q x) as H1 by tour; revert H1; generalize x end. intros s1 H1.
  split_if; [apply walk_link, walk_message, walk_report; tour|]. split_if; [tour|].
  pose proof (walk_bonds s1 H1) as H2. destruct (get_bond_count s1) as [[st n] s2]. cbn [snd] in H2. split_if; [done|]. by apply walk_recovered.
Qed.
Lemma walk_save_cache s : Q s -> Q (save_cache_once fw s).
Proof. intros Hs. unfold save_cache_once. cbv zeta. tour. Qed.
Lemma walk_poll_connected s : Q s -> Q (poll_connected fw s).
Proof.
  intros Hs. unfold poll_connected. cbv zeta. apply walk_save_cache. pose proof (walk_start_adapter s Hs) as H1. revert H1.
  generalize (start_encrypted_adapter fw s). intros s1 H1.
  match goal with |- context [if ?b then finish_pair fw s1 else s1] => assert (Q (if b then finish_pair fw s1 else s1)) as H2
    by (split_if; [by apply walk_finish|done]); revert H2; generalize (if b then finish_pair fw s1 else s1) end. intros s2 H2. tour.
Qed.
Lemma walk_poll s : Q s -> Q (poll fw s).
Proof.
  intros Hs. unfold poll. cbv zeta. split_if; [by tour|].
  match goal with |- context [if ?b then fail_pair fw ?st ?x else s] => assert (Q (if b then fail_pair fw st x else s)) as H1 by tour;
    revert H1; generalize (if b then fail_pair fw st x else s) end. intros s1 H1.
  split_if; [by apply walk_poll_recovery|]. split_if; [done|]. destruct (w_state (cn s1)); try done; try by tour. by apply walk_poll_connected.
Qed.
Lemma walk_message_event m s : Q s -> Q (on_message fw m s).
Proof.
  intros Hs. unfold on_message. cbv zeta. apply walk_srv; [exact eq_refl|]. destruct m as [conn method m|]; [|done].
  apply walk_do; [exact eq_refl|]. split_if; [by apply walk_start_adapter|done].
Qed.
Lemma walk_process m events s : Q s -> Q (process fw m events s).
Proof.
  intros Hs. unfold process. cbv zeta.
  assert (forall s1 s2 : cst W, Q s1 -> Q s2 -> forall b : bool, Q (if b then s1 else s2)) as Hif by by intros ? ? ? ? [].
  match goal with |- Q (if ?b then poll fw ?x else _) => assert (Q x) as H1; [|by apply Hif; [apply walk_poll|]] end.
  match goal with |- context [if ?b then match m with Some m => on_message fw m s | None => s end else s] =>
    assert (Q (if b then match m with Some m => on_message fw m s | None => s end else s)) as H1;
    [apply Hif; [destruct m; [by apply walk_message_event|done]|done]|revert H1; generalize (if b then match m with Some m => on_message fw m s | None => s end else s)] end.
  intros s1 H1. tour.
Qed.
Lemma walk_configure stage make why ps s : Q s -> Q (configure fw stage make why ps s).
Proof.
  unfold configure. revert s. induction ps as [|[id v] ps IH]; intros s Hs; cbn [fold_left]; [done|]. apply IH. tour.
Qed.
Lemma walk_init s : Q s -> Q (wch_central_init fw s).
Proof.
  intros Hs. unfold wch_central_init. cbv zeta.
  match goal with |- context [gap_try Init_client ?x] => assert (Q x) as H1 end.
  { tour; repeat first [apply walk_configure|progress tour]. }
  match goal with |- context [gap_try Init_client ?x] => revert H1; generalize x end. intros s1 H1. unfold gap_try.
  pose proof (Qgap Init_client s1 H1) as H2. destruct (gap Init_client (cw s1)) as [st w]. cbn [snd] in H2. tour.
Qed.

(** *** Events *)
Context (Qrand : forall s, Q s -> Q (s <| cw := snd (tmos_rand (cw s)) |>))
  (Qscan : forall c s, candidate_fit c = true -> Q s -> Q (srv fw (AScanCandidate c) s)).
Lemma walk_passcode h inputs outputs s : Q s -> Q (wc_passcode_cb fw h inputs outputs s).
Proof.
  intros Hs. unfold wc_passcode_cb. split_if; [done|]. split_if; [tour|]. split_if; [|by apply walk_passcode_rsp].
  pose proof (Qrand s Hs) as H1. destruct (tmos_rand (cw s)) as [r w]. cbn [snd] in H1. cbv zeta. apply walk_passcode_rsp. tour.
Qed.
Lemma walk_device i s : Bytes (di_data i) -> zlen (w_candidates (cn s)) <= MAX_CAND -> Q s -> Q (on_device fw i s).
Proof.
  intros Hd Hl Hs. unfold on_device. split_if; [by apply walk_resolve|]. split_if; [done|].
  destruct (ad_loop _ _ _ _ _) as [[[name hid] voice]|] eqn:Ea; [|done].
  assert (match name with Some n => Bytes n | None => True end) as Hn by (refine (ad_loop_bytes _ _ None _ _ _ _ _ Hd _ Ea); exact I).
  cbv zeta. set (cs := w_candidates (cn s)) in *. pose proof (find_candidate_le cs (di_addr i) (di_addr_type i) 0) as Hi.
  set (index := find_candidate cs (di_addr i) (di_addr_type i) 0) in *.
  split_if; [done|]. split_if; [done|]. apply Qscan; [|tour].
  apply candidate_fits; [done|]. destruct (Z.eqb_spec index (zlen cs)); [|lia].
  match goal with H : true && _ = false |- _ => cbn [andb] in H end. lia.
Qed.
Lemma walk_link_up h s : Q s -> Q (link_up fw h s).
Proof.
  intros Hs. unfold link_up. cbv zeta. split_if; [done|]. split_if; [tour|].
  match goal with |- context [fw_do fw (Gatt_set_conn h) ?x] => assert (Q (fw_do fw (Gatt_set_conn h) x)) as H1 by tour;
    revert H1; generalize (fw_do fw (Gatt_set_conn h) x) end. intros s1 H1. tour.
Qed.
Lemma walk_event e s : (match e with E_device_info i => Bytes (di_data i) | _ => True end) -> zlen (w_candidates (cn s)) <= MAX_CAND ->
  Q s -> Q (wc_event_cb fw e s).
Proof.
  intros He Hl Hs. unfold wc_event_cb. cbv zeta.
  match goal with |- context [if ?b then ?x else note (Evt e) s] =>
    assert (Q (if b then x else note (Evt e) s) /\ cn (if b then x else note (Evt e) s) = cn s) as [H1 Hc]
      by (split; [tour|by destruct b]); revert H1 Hc; generalize (if b then x else note (Evt e) s) end.
  intros s1 H1 Hc. destruct e.
  - unfold ev_init_done. cbv zeta. tour.
  - unfold ev_established. cbv zeta. split_if; [by apply walk_link_up|]. tour.
  - unfold ev_terminated. cbv zeta. tour.
  - unfold update_fault. tour.
  - unfold update_fault. tour.
  - apply walk_device; [done|by rewrite Hc|done].
  - by apply walk_resolve.
  - unfold ev_discovery. cbv zeta. destruct (w_state (cn s1)); tour.
Qed.
End walk.

(** ** Steps *)
Inductive central_call (W : Type) :=
| K_event (e : gap_event) | K_passcode (h : Z) (inputs outputs : bool) | K_pair_state (h state status : Z)
| K_request (r : request) | K_process (m : option tmos_msg) (events : Z)
| K_clock (now : Z) | K_world (f : W -> W).  (** The clock and the world change between two calls. *)
Arguments K_event {W} e. Arguments K_passcode {W} h inputs outputs. Arguments K_pair_state {W} h state status.
Arguments K_request {W} r. Arguments K_process {W} m events. Arguments K_clock {W} now. Arguments K_world {W} f.
Section steps.
Context {W : Type} `{P : Platform W} (fw : fw_call -> cst W -> Z * cst W).
Implicit Types s : cst W.
Definition central_step s (c : central_call W) : cst W :=
  match c with
  | K_event e => wc_event_cb fw e s
  | K_passcode h inputs outputs => wc_passcode_cb fw h inputs outputs s
  | K_pair_state h state status => wc_pair_state_cb fw h state status s
  | K_request r => backend fw r s
  | K_process m events => process fw m events s
  | K_clock now => on_cn (fun c => c <| w_now := now |>) s
  | K_world f => s <| cw ::= f |>
  end.
Definition step_legal (c : central_call W) s : Prop := match c with K_event e => event_legal (ph s) e | _ => True end.

Lemma step_okay (Hcall : forall win h f s, fw_ok (m_erased (monitored (clog s))) f = true -> ok win h s -> ok win h (snd (fw f s)))
  (Hsil : forall f s, silent f = true -> exists r w, fw f s = (r, note (Fw f r) (s <| cw := w |>))) c s :
  step_legal c s -> okay s -> okay (central_step s c).
Proof.
  intros Hl Ho. destruct c; cbn [central_step]; [by apply ok_event| | | | | |];
    destruct Ho as [h' Hs]; exists h'; [by apply ok_passcode|by apply ok_pair_state|by apply ok_backend|by apply ok_process| |done].
  by apply ok_on_cn.
Qed.
Lemma okay_candidates s : okay s -> zlen (w_candidates (cn s)) <= MAX_CAND.
Proof. by intros (h & _ & _ & (_ & _ & Hl) & _). Qed.
Lemma init_state_okay (w : W) : okay (CSt central0 w []).
Proof.
  exists GAP_CONNHANDLE_INIT. split; [done|]. split; [done|]. split; [|done]. split; [done|]. split; [by intros [[=]|[=]]|done].
Qed.
End steps.
