(* ===== verification/CentralSpecs.v ===== *)
(** * The radio central: properties of every run

    The invariant of [CentralProps] holds for the firmware tied to the central
    ([fw_call_at]) at every depth of nested requests, in every run of events,
    callbacks, requests, task events and changes of the world. *)
From Stdlib Require Import String.
From S2P Require Import Prelude Defs Tlv DeviceModel ServerState ServerLink Server ServerInv ServerSafe Board Gatt Atvv AdapterState Adapter AdapterCache CentralState Central CandidateName CentralProps CentralWalk.
#[local] Open Scope string_scope.
#[local] Open Scope list_scope.
#[local] Open Scope Z_scope.

Section knot.
Context {W : Type} `{P : Platform W} `{F : Firmware W} `{Fok : !FirmwareOk W F}.
Implicit Types s : cst W.

Lemma knot_silent depth f s : silent f = true -> exists r w, fw_call_at depth f s = (r, note (Fw f r) (s <| cw := w |>)).
Proof.
  intros Hs. pose proof (silent_quiet f (cw s) Hs) as Hq. destruct depth; cbn [fw_call_at]; unfold fw_with;
    destruct (firmware f (cw s)) as [[r rs] w]; cbn in Hq; rewrite Hq; by exists r, w.
Qed.
Lemma carry_ok win h (carry : cst W -> request -> cst W) rs : (forall r s, ok win h s -> ok win h (carry s r)) -> forall s, ok win h s -> ok win h (fold_left carry rs s).
Proof. intros Hc. induction rs as [|r rs IH]; intros s Hs; cbn [fold_left]; [done|]. by apply IH, Hc. Qed.
Lemma knot_ok depth win h f s : fw_ok (m_erased (monitored (clog s))) f = true -> ok win h s -> ok win h (snd (fw_call_at depth f s)).
Proof.
  revert win h f s. induction depth as [|depth IH]; intros win h f s Hf Hs; cbn [fw_call_at]; unfold fw_with;
    destruct (firmware f (cw s)) as [[r rs] w]; cbn [snd]; (apply carry_ok; [|apply ok_note; [cbn -[monitored fw_ok]; by rewrite Hf, andb_true_r|done|done]]).
  - done.
  - intros q s' Hs'. apply ok_backend; [apply IH|intros f' s''; apply knot_silent|done].
Qed.
End knot.

(** ** Runs *)
Section runs.
Context {W : Type} `{P : Platform W} `{F : Firmware W} (depth : nat).
Implicit Types s : cst W.
Definition central_run (w : W) (cs : list (central_call W)) : cst W :=
  fold_left (central_step (fw_call_at depth)) cs (wch_central_init (fw_call_at depth) (CSt central0 w [])).
(** What the library delivers: a link while it scans is none it was asked for,
    and the handles 0xFFFE and 0xFFFF are none of a link. *)
Fixpoint legal (cs : list (central_call W)) s : Prop :=
  match cs with
  | [] => True
  | c :: cs => step_legal c s /\ legal cs (central_step (fw_call_at depth) s c)
  end.

Context `{Fok : !FirmwareOk W F}.
Lemma run_okay cs : forall s, legal cs s -> okay s -> okay (fold_left (central_step (fw_call_at depth)) cs s).
Proof.
  induction cs as [|c cs IH]; intros s Hl Ho; cbn [fold_left]; [done|]. destruct Hl as [Hc Hl]. apply IH, step_okay; [done| | |done..].
  - apply knot_ok.
  - intros f s'. apply knot_silent.
Qed.
Lemma init_okay w : okay (wch_central_init (fw_call_at depth) (CSt central0 w [])).
Proof. destruct (init_state_okay w) as [h Hs]. exists h. apply ok_init; [apply knot_ok|done]. Qed.
End runs.

(** ** What is never undone

    A fault of the radio is permanent, and nothing is taken off the log. *)
Definition grows {W} (s s' : cst W) : Prop :=
  (w_radio_faulted (cn s) = true -> w_radio_faulted (cn s') = true) /\ (forall x, x ∈ clog s -> x ∈ clog s').
Section growth.
Context {W : Type} `{P : Platform W}.
Implicit Types s : cst W.
Lemma grows_on_cn s0 f s : (w_radio_faulted (cn s) = true -> w_radio_faulted (f (cn s)) = true) -> grows s0 s -> grows s0 (on_cn f s).
Proof. intros Hf [H1 H2]. split; [|done]. intros H. by apply Hf, H1. Qed.
Lemma grows_note s0 x s : grows s0 s -> grows s0 (note x s).
Proof. intros [H1 H2]. split; [done|]. intros y Hy. apply elem_of_app. left. by apply H2. Qed.
Lemma grows_world s0 w s : grows s0 s -> grows s0 (s <| cw := w |>).
Proof. done. Qed.
End growth.
Lemma grows_carry {W} s0 (carry : cst W -> request -> cst W) rs s :
  (forall s r, grows s0 s -> grows s0 (carry s r)) -> grows s0 s -> grows s0 (fold_left carry rs s).
Proof. intros Hr. revert s. induction rs as [|r rs IH]; intros s Hs; cbn [fold_left]; [done|]. by apply IH, Hr. Qed.
(** The conditions of the lemmas of [CentralWalk]. *)
Ltac growing := solve [intros; first [by apply grows_on_cn|by apply grows_note|by eauto using grows_world]].
Lemma knot_grows {W} `{P : Platform W} `{F : Firmware W} depth s0 f s : grows s0 s -> grows s0 (snd (fw_call_at depth f s)).
Proof.
  revert f s. induction depth as [|depth IH]; intros f s Hs; cbn [fw_call_at]; unfold fw_with; destruct (firmware f (cw s)) as [[r rs] w]; cbn [snd];
    (apply grows_carry; [|by apply grows_note]); [done|]. intros s' q Hq. apply walk_backend; growing.
Qed.
(** A call is in the log. *)
Lemma knot_logs {W} `{P : Platform W} `{F : Firmware W} depth f s : exists r, Fw f r ∈ clog (snd (fw_call_at depth f s)).
Proof.
  destruct depth as [|depth]; cbn [fw_call_at]; unfold fw_with; destruct (firmware f (cw s)) as [[r rs] w]; cbn [snd]; exists r;
    (apply (grows_carry (note (Fw f r) (s <| cw := w |>))); [|done|apply elem_of_app; right; by apply list_elem_of_singleton]); [done|].
  intros s' q Hq. apply walk_backend; try growing. intros f' s1 _. apply knot_grows.
Qed.
Section polling.
Context {W : Type} `{P : Platform W} `{F : Firmware W} (depth : nat).
Implicit Types s : cst W.
Abbreviation fw := (fw_call_at depth).
Lemma grows_fw s0 f s : Plain f -> grows s0 s -> grows s0 (snd (fw f s)).
Proof. intros _. apply knot_grows. Qed.
Ltac carried := try done; intros; first [by apply grows_on_cn|by apply grows_note|by apply grows_fw|by apply grows_world].
Lemma fault_told why s : w_radio_faulted (cn s) = false ->
  w_radio_faulted (cn (radio_fault fw why s)) = true /\ exists now r, Fw (Srv (ALink RBP_LINK_ERROR 0 now)) r ∈ clog (radio_fault fw why s).
Proof.
  intros Hf. unfold radio_fault. cbv zeta. change (w_radio_faulted (cn (on_cn _ s))) with (w_radio_faulted (cn s)). rewrite Hf.
  set (s1 := on_cn (fun c => c <| w_radio_faulted := true |>) _).
  assert (grows s1 (on_link_message fw why (fw_do fw Adapter_detach (sync_gatt_cache fw (fw_do fw Gatt_quiesce s1))))) as Hg
    by (apply walk_message; [carried|apply walk_release; carried]).
  revert Hg. generalize (on_link_message fw why (fw_do fw Adapter_detach (sync_gatt_cache fw (fw_do fw Gatt_quiesce s1)))). intros s2 Hg. split.
  - by apply (knot_grows depth s1 _ s2 Hg).
  - exists (w_now (cn s2)). apply knot_logs.
Qed.
Lemma poll_faults s : w_radio_ready (cn s) = true -> w_radio_faulted (cn s) = false -> waiting_for_end s = true ->
  passed (w_deadline (cn s)) s = true ->
  w_radio_faulted (cn (poll fw s)) = true /\ exists now r, Fw (Srv (ALink RBP_LINK_ERROR 0 now)) r ∈ clog (poll fw s).
Proof.
  intros Hr Hf Hw Hp. unfold poll. rewrite Hr, Hf, Hw, Hp. cbn [negb andb]. cbv zeta.
  destruct (fault_told "radio cancellation completion timed out" s Hf) as (H1 & now & r & H2).
  set (s1 := radio_fault fw "radio cancellation completion timed out" s) in *.
  assert (grows s1 (fail_pair fw RBP_STATUS_TIMEOUT s1)) as Hg by (apply walk_fail; carried).
  assert (w_radio_faulted (cn (fail_pair fw RBP_STATUS_TIMEOUT s1)) = true) as H3 by by apply Hg.
  assert (forall s2, grows s1 s2 -> w_radio_faulted (cn s2) = true /\ exists now r, Fw (Srv (ALink RBP_LINK_ERROR 0 now)) r ∈ clog s2) as Hend
    by (intros s2 [G1 G2]; split; [by apply G1|exists now, r; by apply G2]).
  split_if; [apply Hend, walk_poll_recovery; carried|]. rewrite H3. by apply Hend.
Qed.

(** Two polls close a transaction, if the bonds can be erased. *)
Lemma recovery_deadline s : passed (later s 5000) s = false.
Proof. unfold passed, due, later, s32. apply Z.leb_gt. generalize (w_now (cn s)). intros n. cbv zeta. split_if; words. Qed.
Lemma poll_erases s : w_radio_ready (cn s) = true -> w_radio_faulted (cn s) = false -> w_recovering (cn s) = true ->
  w_state (cn s) = WC_IDLE -> w_recovery_deadline (cn s) = 0 -> w_erase_requested (cn s) = false ->
  fst (gap Erase_bonds (cw s)) = SUCCESS ->
  cn (poll fw s) = cn s <| w_recovery_deadline := later s 5000 |> <| w_erase_requested := true |>.
Proof.
  intros H1 H2 H3 H4 H5 H6 H7. unfold poll. rewrite H1, H2. cbn [negb andb]. unfold waiting_for_end, is_state. rewrite H4.
  cbn [orb andb]. cbv zeta. rewrite !bool_decide_eq_false_2 by done. cbn [orb andb]. rewrite H3. unfold poll_recovery. cbv zeta. rewrite H2.
  unfold is_state. rewrite H4, bool_decide_eq_true_2 by done. cbn [negb]. rewrite H5, Z.eqb_refl.
  set (s1 := on_cn (fun c => c <| w_recovery_deadline := later s 5000 |>) s).
  change (w_recovery_deadline (cn s1)) with (later s1 5000). rewrite recovery_deadline.
  change (w_erase_requested (cn s1)) with (w_erase_requested (cn s)). rewrite H6. cbn [negb].
  destruct (gap_do 3 Erase_bonds GAPBOND_ERASE_ALLBONDS s1) as [st s2] eqn:E. pose proof (gap_cn _ _ _ _ _ _ E) as Ec.
  assert (st = SUCCESS) as ->.
  { unfold gap_do, gap_try in E. change (cw s1) with (cw s) in E. destruct (gap Erase_bonds (cw s)) as [st' w]. by injection E as <- _. }
  rewrite Z.eqb_refl. unfold on_cn at 1. cbn. by rewrite Ec.
Qed.
Lemma poll_recovers s : w_radio_ready (cn s) = true -> w_radio_faulted (cn s) = false -> w_recovering (cn s) = true ->
  w_state (cn s) = WC_IDLE -> w_recovery_deadline (cn s) = 0 \/ w_recovery_deadline (cn s) = later s 5000 ->
  w_erase_requested (cn s) = true -> bond_count (cw s) = (SUCCESS, 0) ->
  w_recovering (cn (poll fw s)) = false /\ w_security_blocked (cn (poll fw s)) = false /\
  exists r, Fw (if w_delete_report (cn s) then Srv (AForgetDone RBP_STATUS_OK false) else Store_clear) r ∈ clog (poll fw s).
Proof.
  intros H1 H2 H3 H4 H5 H6 H7. unfold poll. rewrite H1, H2. cbn [negb andb]. unfold waiting_for_end, is_state. rewrite H4.
  cbv zeta. rewrite !bool_decide_eq_false_2 by done. cbn [orb andb]. rewrite H3. unfold poll_recovery. cbv zeta. rewrite H2.
  unfold is_state. rewrite H4, bool_decide_eq_true_2 by done. cbn [negb].
  match goal with |- context [if w_recovery_deadline (cn s) =? 0 then ?x else s] =>
    assert (passed (w_recovery_deadline (cn (if w_recovery_deadline (cn s) =? 0 then x else s))) (if w_recovery_deadline (cn s) =? 0 then x else s) = false /\
      w_erase_requested (cn (if w_recovery_deadline (cn s) =? 0 then x else s)) = true /\ cw (if w_recovery_deadline (cn s) =? 0 then x else s) = cw s /\
      w_delete_report (cn (if w_recovery_deadline (cn s) =? 0 then x else s)) = w_delete_report (cn s)) as (K1 & K2 & K3 & K4);
    [|revert K1 K2 K3 K4; generalize (if w_recovery_deadline (cn s) =? 0 then x else s)] end.
  { split_if; [split; [change (passed (later s 5000) s = false); apply recovery_deadline|done]|]. destruct H5 as [H5|H5]; [lia|]. rewrite H5. split; [apply recovery_deadline|done]. }
  intros s1 -> -> K3 <-. cbn [negb]. unfold get_bond_count. rewrite K3, H7. cbn [negb orb Z.eqb SUCCESS]. unfold gap_result. cbn [negb andb Z.eqb SUCCESS].
  set (s2 := note (Bonds SUCCESS 0) s1). change (w_delete_report (cn s1)) with (w_delete_report (cn s2)). unfold recovered.
  split; [done|]. split; [done|]. change (clog (on_cn ?f ?x)) with (clog x). destruct (w_delete_report (cn s2)); [apply knot_logs|].
  destruct (knot_logs depth Store_clear s2) as [r Hr]. exists r. destruct (fw Store_clear s2) as [ok s3]. cbn [snd] in Hr.
  assert (grows s3 s3) as Hs3 by done. split_if; apply (knot_grows depth s3); try done; by apply knot_grows.
Qed.
End polling.

(** The server of [Server] keeps [FirmwareOk]: in the calls of [silent] it only
    changes its own state. *)
Lemma silent_server {V} `{E : Env V} a : silent (Srv a) = true -> exists f, run_api a = modify f.
Proof. destruct a; try done; intros _; by eexists. Qed.

(** ** The server behind the central *)
Definition server_calls (l : list cact) : list api := omap (fun x => match x with Fw (Srv a) _ => Some a | _ => None end) l.
Lemma watch_good m x : m_good (watch m x) = true -> m_good m = true.
Proof. destruct x; cbn; try done; by intros [? _]%andb_true_iff. Qed.
Lemma good_calls l : m_good (monitored l) = true -> Forall api_ok (server_calls l).
Proof.
  induction l as [|x l IH] using rev_ind; intros Hg; [constructor|]. rewrite monitored_snoc in Hg. pose proof (watch_good _ _ Hg) as Hl.
  unfold server_calls. rewrite omap_app. apply Forall_app. split; [by apply IH|].
  destruct x as [| |[] r| |]; try constructor; [|constructor]. cbn -[monitored] in Hg. apply andb_true_iff in Hg as [_ Hg].
  destruct a; try done. unfold candidate_fit in Hg. cbn. unfold candidate_ok. lia.
Qed.

(** ** A platform for the witnesses

    Every call succeeds; when [hasty] the host gives the pairing up as soon as
    it hears of the connection attempt.  The session finds a remote, pairs with
    it over a passkey, and loses the link. *)
#[export] Instance sample_library : Library bool := {
  gap _ w := (SUCCESS, w);
  bond_count _ := (SUCCESS, 0);
  bond_record _ := (SUCCESS, ([1; 2; 3; 4; 5; 6], 0));
  bond_irk _ := (SUCCESS, replicate 16 7);
  GAP_ResolvePrivateAddr _ _ := FAILURE;
  link_encrypted _ _ := true;
  tmos_rand w := (7123456, w);
  task_id _ := 4;
  storage_state _ := 0; peer_counter _ := 1; hid_flags _ := 255; addr_load _ := None; cache_load _ _ := [];
  adapter_of _ := adapter0 }.
#[export] Instance sample_platform : Platform bool := { server_of _ := server_init sample_cfg }.
#[export] Instance sample_firmware : Firmware bool := fun f hasty =>
  (1, match f with Srv (ALink RBP_LINK_CONNECTING _ _) => if hasty then [Q_pair_cancel] else [] | _ => [] end, hasty).
#[export] Instance sample_firmware_ok : FirmwareOk bool sample_firmware.
Proof. intros f w Hs. destruct f as [a| | | | | | | | | | | | | |]; try done. by destruct a. Qed.
Definition sample_advertisement : device_info :=
  DeviceInfo GAP_ADRPT_ADV_IND ADDRTYPE_PUBLIC [9; 8; 7; 6; 5; 4] (-50) ([2; 1; 6; 3; 3; 0x12; 0x18; 6; 9] ++ cstr "RC003").
Definition pairing : list (central_call bool) :=
  [K_event (E_init_done SUCCESS); K_request (Q_start_find 30000); K_event (E_device_info sample_advertisement); K_request Q_stop_find;
   K_event (E_discovery bleGAPUserCanceled); K_request (Q_pair_begin 1)].
Definition linked : list (central_call bool) :=
  pairing ++ [K_event (E_established SUCCESS 5); K_passcode 5 false true; K_clock 40; K_process None WC_POLL_EVT].

(** ** Properties *)


(** The central is a client the server can rely on: in every run the calls
    it makes are calls the server's invariant allows, so that the server they
    drive, from its initial state and with any radio and transport that keep
    their side, stays well formed. *)
Theorem central_drives_server {W} `{P : Platform W} `{F : Firmware W} `{!FirmwareOk W F} {V} `{E : Env V} `{!EnvOk V E} depth w cs c v :
  legal depth cs (wch_central_init (fw_call_at depth) (CSt central0 w [])) ->
  let calls := server_calls (clog (central_run depth w cs)) in
  Forall api_ok calls /\ server_wf (fst (runs calls (server_init c, v))).
Proof.
  intros Hl calls. destruct (run_okay depth cs _ Hl (init_okay depth w)) as (h & Hg & _). apply good_calls in Hg. split; [exact Hg|].
  by apply (runs_keep calls (server_init c) v Hg), server_init_wf.
Qed.
Lemma central_drives_server_witness :
  let calls := server_calls (clog (central_run 2 false linked)) in
  length calls = 5%nat /\ server_wf (fst (runs (E := sink) calls (server_init sample_cfg, []))).
Proof.
  cbv zeta. split; [vm_compute; reflexivity|].
  pose proof (central_drives_server (E := sink) 2 false linked sample_cfg []) as Hc. cbv zeta in Hc. destruct Hc as [_ Hw]; [|exact Hw].
  vm_compute. repeat split; try discriminate. by apply (bool_decide_unpack _); vm_compute.
Defined.


(** An interrupted bond transaction is undone: with the radio idle, two
    polls erase the bonds and then close the transaction, a deletion by
    confirming it to the server and a torn pairing by clearing the store, and
    the central is free to pair again. *)
Theorem recovery_completes {W} `{P : Platform W} `{F : Firmware W} depth (s : cst W) :
  (forall w : W, gap Erase_bonds w = (SUCCESS, w)) -> (forall w : W, bond_count w = (SUCCESS, 0)) ->
  w_radio_ready (cn s) = true -> w_radio_faulted (cn s) = false -> w_recovering (cn s) = true -> w_state (cn s) = WC_IDLE ->
  w_recovery_deadline (cn s) = 0 -> w_erase_requested (cn s) = false ->
  let s' := poll (fw_call_at depth) (poll (fw_call_at depth) s) in
  w_recovering (cn s') = false /\ w_security_blocked (cn s') = false /\
  exists r, Fw (if w_delete_report (cn s) then Srv (AForgetDone RBP_STATUS_OK false) else Store_clear) r ∈ clog s'.
Proof.
  intros Hg Hb H1 H2 H3 H4 H5 H6. pose proof (poll_erases depth s H1 H2 H3 H4 H5 H6 ltac:(by rewrite Hg)) as Ec. cbv zeta.
  revert Ec. generalize (poll (fw_call_at depth) s). intros s1 Ec.
  replace (w_delete_report (cn s)) with (w_delete_report (cn s1)) by by rewrite Ec.
  apply poll_recovers; rewrite ?Ec; try done. right. unfold later. by rewrite Ec.
Qed.
Lemma recovery_completes_witness :
  let s := central_run 2 false [K_event (E_init_done SUCCESS); K_request Q_forget_peer] in
  w_recovering (cn s) = true /\ w_recovering (cn (poll (fw_call_at 2) (poll (fw_call_at 2) s))) = false.
Proof.
  cbv zeta. split; [vm_compute; reflexivity|].
  pose proof (recovery_completes 2 (central_run 2 false [K_event (E_init_done SUCCESS); K_request Q_forget_peer])) as Hr. cbv zeta in Hr.
  destruct Hr as [Hf _]; [reflexivity|reflexivity|vm_compute; reflexivity..|exact Hf].
Defined.

(** A pairing that is cancelled while the server is told that the connection is
    attempted: the attempt is cancelled before it is made, and is then made all
    the same; the central waits for the end of the cancellation, and if the
    remote does not answer in time, the radio is declared faulty. *)
Lemma cancel_before_attempt :
  let calls := omap (fun x => match x with Gap _ (Establish_link t a) _ => Some (Establish_link t a)
                              | Gap _ (Terminate_link h) _ => Some (Terminate_link h) | _ => None end)
                 (clog (central_run 2 true pairing)) in
  calls = [Terminate_link INVALID_CONNHANDLE; Establish_link ADDRTYPE_PUBLIC [9; 8; 7; 6; 5; 4]] /\
  w_state (cn (central_run 2 true pairing)) = WC_CONNECT_CANCEL /\
  w_radio_faulted (cn (central_run 2 true (pairing ++ [K_clock 6000; K_process None WC_POLL_EVT]))) = true.
Proof. vm_compute. repeat split. Qed.
