(* ===== verification/Main.v ===== *)
(** * The firmware put together

    main.c wires the server to the serial port and to the radio central.  Here
    the models of these three run on one state: the central calls the entry
    points of [Server] ([serve]), the backend the server calls is the central
    ([env_of]), within the call and not after it, and the transport is the port
    of [Usb].  The vendor's library, the board, the adapter and the attribute
    client are the parameter [Parts]; what the adapter tells the server during a
    call is carried out in order when that call returns.  A call of the central
    into the server, in which the server calls the central, and so on, is
    followed to the depth that is a parameter of [fw_at]; deeper requests are
    dropped.  [wch_now_ms] is the clock [w_now] of the central.  The debug build
    is left out. *)
From Stdlib Require Import String.
From S2P Require Import Prelude Defs DeviceModel Faults Usb ServerState ServerLink Server CentralState Central.
#[local] Open Scope string_scope.
#[local] Open Scope list_scope.
#[local] Open Scope Z_scope.

Definition SRV_TICK_EVT : Z := 1.

(** ** What is outside *)
Class Parts (V : Type) := {
  parts_library :: Library V;
  (** a call of the adapter, the attribute client or the board: the result and
      what the server is told *)
  parts_call : fw_call -> V -> Z * list api * V;
  parts_adapter_init : V -> list api * V;
  parts_adapter_tick : Z -> V -> list api * V;
  board_store_load : V -> option rbp_peer_record_t * V;
  board_store_save : rbp_peer_record_t -> V -> bool * V;
  board_store_clear : V -> bool * V;
  board_unique_id : V -> option (list Z) * V;
  TMOS_GetSystemClock : V -> Z * V;
  RTC_GetCycle32k : V -> Z * V;
  tmos_start_task : V -> V;
  set_fault_time : Z -> V -> V;
  faults_of : V -> faults_t;
  FW_VERSION : list Z }.

(** The statics of main.c, the port, and the rest. *)
Record mcu (V : Type) := Mcu { m_usb : usb; m_prev_ticks : Z; m_remainder : Z; m_seed : Z; m_parts : V }.
Arguments Mcu {V} _ _ _ _ _.
Arguments m_usb {V} _.
Arguments m_prev_ticks {V} _.
Arguments m_remainder {V} _.
Arguments m_seed {V} _.
Arguments m_parts {V} _.
#[export] Instance eta_mcu V : Eta (mcu V) := fun m => Mcu (m_usb m) (m_prev_ticks m) (m_remainder m) (m_seed m) (m_parts m).

Section main.
Context {V : Type} `{P : Parts V}.
Abbreviation world := (rbp_server * mcu V)%type.
Implicit Types (s : cst world) (m : mcu V).

(** A call of the outside. *)
Definition ask {A} (f : V -> A * V) (m : mcu V) : A * mcu V :=
  let '(a, v) := f (m_parts m) in (a, m <| m_parts := v |>).
#[export] Instance world_library : Library world := {
  gap g w := let '(r, m) := ask (gap g) (snd w) in (r, (fst w, m));
  bond_count w := bond_count (m_parts (snd w));
  bond_record w := bond_record (m_parts (snd w));
  bond_irk w := bond_irk (m_parts (snd w));
  GAP_ResolvePrivateAddr := GAP_ResolvePrivateAddr (W := V);
  link_encrypted h w := link_encrypted h (m_parts (snd w));
  tmos_rand w := let '(r, m) := ask tmos_rand (snd w) in (r, (fst w, m));
  task_id w := task_id (m_parts (snd w));
  storage_state w := storage_state (m_parts (snd w));
  peer_counter w := peer_counter (m_parts (snd w));
  hid_flags w := hid_flags (m_parts (snd w));
  addr_load w := addr_load (m_parts (snd w));
  cache_load peer w := cache_load peer (m_parts (snd w));
  adapter_of w := adapter_of (m_parts (snd w)) }.
#[export] Instance world_platform : Platform world := { server_of w := fst w }.

(** ** The server's environment *)
(** The server runs beside the central's variables and the rest. *)
Definition parted s : rbp_server * cst (mcu V) := (fst (cw s), CSt (cn s) (snd (cw s)) (clog s)).
Definition joined (σ : rbp_server * cst (mcu V)) : cst world := CSt (cn (snd σ)) (fst σ, cw (snd σ)) (clog (snd σ)).
Definition on_mcu {A} (f : mcu V -> A * mcu V) (x : cst (mcu V)) : A * cst (mcu V) :=
  let '(a, m) := f (cw x) in (a, x <| cw := m |>).
Definition srv_out (data : list Z) m : Z * mcu V :=
  let '(n, u) := usb_cdc_write (slice data 0 (u16 (zlen data))) (m_usb m) in (n, m <| m_usb := u |>).
Definition srv_rng m : Z * mcu V :=
  let st := m_seed m in
  let st := Z.lxor st (u32 (Z.shiftl st 13)) in
  let st := Z.lxor st (Z.shiftr st 17) in
  let st := Z.lxor st (u32 (Z.shiftl st 5)) in
  let '(cycle, m) := ask RTC_GetCycle32k m in
  let st := Z.lxor st (u32 cycle) in
  (st, m <| m_seed := st |>).
(** [backend r] is the operation of the radio; the deepest one has none. *)
Definition env_with (start : Z -> rbp_server * cst (mcu V) -> Z * (rbp_server * cst (mcu V)))
    (radio : request -> rbp_server * cst (mcu V) -> rbp_server * cst (mcu V)) : Env (cst (mcu V)) := {|
  start_find := start;
  stop_find := radio Q_stop_find;
  pair_begin id := radio (Q_pair_begin id);
  pair_reply accept has key := radio (Q_pair_reply accept has key);
  pair_cancel := radio Q_pair_cancel;
  forget_peer := radio Q_forget_peer;
  connect_peer := radio Q_connect_peer;
  disconnect := radio Q_disconnect;
  voice_request_stop := radio Q_voice_stop;
  voice_request_start := None;
  store_load := Some (on_mcu (ask board_store_load));
  store_save := Some (fun rec => on_mcu (ask (board_store_save rec)));
  store_clear := Some (on_mcu (ask board_store_clear));
  out data := on_mcu (srv_out data);
  rng := Some (on_mcu srv_rng);
  fault_state x := faults_of (m_parts (cw x)) |}.
Definition env_of (fw : fw_call -> cst world -> Z * cst world) : Env (cst (mcu V)) :=
  env_with (fun d σ => let '(r, s) := rb_start_find fw d (joined σ) in (r, parted s)) (fun r σ => parted (backend fw r (joined σ))).
Definition env_deaf : Env (cst (mcu V)) := env_with (fun _ σ => (RBP_STATUS_BUSY, σ)) (fun _ σ => σ).

(** An entry point of the server. *)
Definition serve (E : Env (cst (mcu V))) s (a : api) : cst world := joined (exec (run_api (E := E) a) (parted s)).
(** What the server is told in a call of the central. *)
Definition fw_calls (f : fw_call) (v : V) : Z * list api * V :=
  match f with Srv a => (1, [a], v) | _ => parts_call f v end.
Fixpoint fw_at (depth : nat) (f : fw_call) s : Z * cst world :=
  let E := match depth with O => env_deaf | S depth => env_of (fw_at depth) end in
  let '(r, calls, v) := fw_calls f (m_parts (snd (cw s))) in
  (r, fold_left (serve E) calls (note (Fw f r) (s <| cw := (fst (cw s), snd (cw s) <| m_parts := v |>) |>))).
Definition env_at (depth : nat) : Env (cst (mcu V)) := env_of (fw_at depth).

(** ** The task of the server *)
(** The clock counts in units of 625 us; the rest below a millisecond is kept. *)
Definition clock_step (ticks now : Z) m : Z * mcu V :=
  let ticks := u32 ticks in
  let delta := u32 (ticks - m_prev_ticks m) in
  let elapsed := delta * 625 + m_remainder m in
  (u32 (now + u32 (elapsed / 1000)), m <| m_prev_ticks := ticks |> <| m_remainder := elapsed mod 1000 |>).
Definition on_port {A} (f : usb -> A * usb) s : A * cst world :=
  let '(a, u) := f (m_usb (snd (cw s))) in (a, s <| cw := (fst (cw s), snd (cw s) <| m_usb := u |>) |>).
Definition on_parts {A} (f : V -> A * V) s : A * cst world :=
  let '(a, m) := ask f (snd (cw s)) in (a, s <| cw := (fst (cw s), m) |>).
(** The clock and the fault records' copy of it. *)
Definition advance_clock s : cst world :=
  let '(ticks, s) := on_parts TMOS_GetSystemClock s in
  let '(now, m) := clock_step ticks (w_now (cn s)) (snd (cw s)) in
  let s := on_cn (fun c => c <| w_now := now |>) (s <| cw := (fst (cw s), m) |>) in
  snd (on_parts (fun v => (tt, set_fault_time now v)) s).
(** The loss of the port, and at most one packet of input. *)
Definition take_input (E : Env (cst (mcu V))) (now : Z) s : cst world :=
  let '(lost, s) := on_port usb_cdc_take_lost s in
  let s := if lost then serve E s (AUsbGone now) else s in
  let '(buf, s) := on_port (usb_cdc_read 64) s in
  if negb (zlen buf =? 0) then serve E s (AUsbRx buf now) else s.
Definition tick_adapter (E : Env (cst (mcu V))) (now : Z) s : cst world :=
  let '(calls, s) := on_parts (parts_adapter_tick now) s in fold_left (serve E) calls s.
Definition srv_event (depth : nat) (events : Z) s : Z * cst world :=
  if Z.land events SRV_TICK_EVT =? 0 then (0, s)
  else
    let E := env_at depth in
    let s := advance_clock s in
    let now := w_now (cn s) in
    let s := take_input E now s in
    let s := serve E s (ATick now) in
    let s := tick_adapter E now s in
    let '(_, s) := on_port (fun u => (tt, usb_cdc_flush_tx u)) s in
    let '(_, s) := on_parts (fun v => (tt, tmos_start_task v)) s in
    (Z.lxor events SRV_TICK_EVT, s).

(** ** Start *)
Definition main_cfg (uid : list Z) : rbp_server_cfg_t := Cfg (Some RBP_PROFILE_RC003) 16 0 uid (Some FW_VERSION) 0.
(** Everything [main] does before its loop; without a unique id it does not get
    that far. *)
Definition main (depth : nat) (v : V) : option (cst world) :=
  let '(uid, v) := board_unique_id v in
  match uid with
  | None => None
  | Some uid =>
    let m := Mcu (usb_cdc_init (Some uid) usb_reset) 0 0 0x9E3779B9 v in
    let s := joined (rbp_server_init (E := env_at depth) (main_cfg uid) (CSt central0 m [])) in
    let '(calls, s) := on_parts parts_adapter_init s in
    let s := fold_left (serve (env_at depth)) calls s in
    let s := wch_central_init (fw_at depth) s in
    Some (snd (on_parts (fun v => (tt, tmos_start_task v)) s))
  end.
End main.
