(* ===== verification/MainProps.v ===== *)
(** * The firmware put together: properties

    The assumptions the models of server, central and port make of each other
    are theorems here: the central is an environment the server is safe with
    ([env_ok]), the server makes the requests the central's contract allows
    ([fw_keeps]), the port gives the server bytes and takes a prefix of its
    output.  What is left to assume is [PartsOk], of the adapter and the
    attribute client. *)
From Stdlib Require Import String.
From S2P Require Import Prelude Defs Tlv DeviceModel Faults Gatt Usb UsbProps ServerState ServerLink Server ServerInv ServerSafe ServerWorld CentralState Central CandidateName CentralProps CentralWalk Main.
#[local] Open Scope string_scope.
#[local] Open Scope list_scope.
#[local] Open Scope Z_scope.

(** What the adapter tells the server: it finds no candidates and has no input
    of the host. *)
Definition told (a : api) : bool := match a with AScanCandidate _ | AUsbRx _ _ => false | _ => true end.
(** Calls that only change the server. *)
Definition quiet_api (a : api) : bool := match a with ALinkMessage _ | AScanCandidate _ | APeerChanged _ | AKeys _ | AVoiceCaps _ => true | _ => false end.
Lemma told_ok a : told a = true -> api_ok a /\ api_rel a = calm.
Proof. by destruct a. Qed.
Class PartsOk V (P : Parts V) : Prop := {
  call_told f v : forallb told (snd (fst (parts_call f v))) = true;
  call_quiet f v : silent f = true -> forallb quiet_api (snd (fst (parts_call f v))) = true;
  init_told v : forallb told (fst (parts_adapter_init v)) = true;
  tick_told now v : forallb told (fst (parts_adapter_tick now v)) = true }.

(** ** The port *)
Definition port_ok (u : usb) : Prop := usb_wf u /\ Bytes (incoming u).
Definition port_event_ok (e : usb_event) (u : usb) : Prop :=
  event_ok e u /\ match e with Interrupt i => Bytes (i_out i) | _ => True end.
Lemma port_step e u : port_ok u -> port_event_ok e u -> port_ok (usb_step e u) /\ forall cap, e = Read cap -> Bytes (fst (usb_cdc_read cap u)).
Proof.
  intros [Hw Hb] [He Hi]. assert (streams_ok u (Streams (outgoing u) [] (incoming u) [])) as Hs by by split.
  destruct (step_streams e u _ Hs He) as (H1 & H2 & H3). cbn [usb_log fst snd] in *.
  assert (forall cap, e = Read cap -> Bytes (fst (usb_cdc_read cap u))) as Hr.
  { intros cap ->. destruct (usb_cdc_read cap u) as [l u'] eqn:E. destruct (usb_read_spec cap u l u' Hw E) as (_ & _ & Hq).
    rewrite Hq in Hb. by apply Forall_app in Hb as [Hb _]. }
  split; [split; [done|]|done]. destruct (lifecycle_lost (usb_step e u)) eqn:El.
  - destruct (lost_empty _ H1 El) as [_ ->]. constructor.
  - assert (Bytes (from_host (log_event e u (Streams (outgoing u) [] (incoming u) [])))) as Hf.
    { destruct e; cbn; try done. apply Forall_app. split; [done|]. unfold received. destruct (out_data i); [by apply slice_Forall|constructor]. }
    rewrite H3 in Hf. by apply Forall_app in Hf as [_ Hf].
Qed.
Lemma store_bounds cap data : forall q, 0 <= fst (fifo_store cap data q) <= zlen data.
Proof.
  induction data as [|b data IH]; intros q; cbn [fifo_store]; [by cbn|]. rewrite zlen_cons. pose proof (zlen_nonneg data).
  split_if; [|cbn; lia]. specialize (IH (fifo_put cap b q)). destruct (fifo_store cap data _). cbn [fst] in *. lia.
Qed.

Section firmware.
Context {V : Type} `{P : Parts V} `{Pok : !PartsOk V P}.
Abbreviation world := (rbp_server * mcu V)%type.
Implicit Types (s : cst world) (x : cst (mcu V)) (m : mcu V).

Lemma joined_parted s : joined (parted s) = s.
Proof. by destruct s as [c [srv m] l]. Qed.
Lemma out_bounds data m : 0 <= fst (srv_out data m) <= zlen data.
Proof.
  unfold srv_out, usb_cdc_write. pose proof (zlen_nonneg data). split_if; [|cbn; lia].
  pose proof (store_bounds TX_RING (slice data 0 (u16 (zlen data))) (tx (m_usb m))) as Hn.
  destruct (fifo_store _ _ _) as [n q]. cbn [fst] in *. rewrite zlen_slice in Hn by (unfold u16; words). unfold u16 in Hn. words.
Qed.

(** ** The server keeps its invariant *)
Definition calmed (srv : rbp_server) s : Prop := server_wf (fst (cw s)) /\ calm srv (fst (cw s)).
Lemma serve_calm E `{!EnvOk _ E} srv a s : api_ok a -> api_rel a = calm -> calmed srv s -> calmed srv (serve E s a).
Proof.
  intros Hok Hr [Hw Hc].
  destruct (api_step (E := E) a (fst (cw s)) (snd (parted s)) Hok Hw) as [H1 H2]. rewrite Hr in H2.
  split; [exact H1|]. etrans; [exact Hc|exact H2].
Qed.
Lemma serves_calm E `{!EnvOk _ E} srv calls : forall s, forallb told calls = true -> calmed srv s -> calmed srv (fold_left (serve E) calls s).
Proof.
  induction calls as [|a calls IH]; intros s Hc Hs; cbn [fold_left]; [done|]. apply andb_true_iff in Hc as [Ha Hc].
  destruct (told_ok a Ha) as [Hok Hr]. by apply IH; [|apply (serve_calm E)].
Qed.
Definition E_at (depth : nat) : Env (cst (mcu V)) := match depth with O => env_deaf | S depth => env_at depth end.
Lemma fw_at_eq depth f s : fw_at depth f s =
  let '(r, calls, v) := fw_calls f (m_parts (snd (cw s))) in
  (r, fold_left (serve (E_at depth)) calls (note (Fw f r) (s <| cw := (fst (cw s), snd (cw s) <| m_parts := v |>) |>))).
Proof. by destruct depth. Qed.
Lemma fw_calls_told f v : Plain f -> forallb told (snd (fst (fw_calls f v))) = true.
Proof. intros Hp. destruct f as [a| | | | | | | | | | | | | |]; try apply call_told. by destruct a. Qed.
Lemma fw_calls_quiet f v : silent f = true -> forallb quiet_api (snd (fst (fw_calls f v))) = true.
Proof. intros Hs. destruct f as [a| | | | | | | | | | | | | |]; try (by apply call_quiet). by destruct a. Qed.
Lemma fw_calm depth `{!EnvOk _ (E_at depth)} srv f s : Plain f -> calmed srv s -> calmed srv (snd (fw_at depth f s)).
Proof.
  intros Hp Hs. rewrite fw_at_eq. pose proof (fw_calls_told f (m_parts (snd (cw s))) Hp).
  destruct (fw_calls f _) as [[r calls] v]. by apply (serves_calm (E_at depth)).
Qed.
Lemma env_of_ok fw : (forall srv f s, Plain f -> calmed srv s -> calmed srv (snd (fw f s))) -> EnvOk _ (env_of fw).
Proof.
  intros Hfw. assert (forall r, keeps calm (call (fun σ => parted (backend fw r (joined σ))))) as Hr.
  { intros r srv Hw x. apply (walk_backend fw (calmed srv)); try done; [|apply Hfw].
    intros g s. cbn. by destruct (ask (gap g) (snd (cw s))). }
  constructor; try (intros; apply Hr).
  - intros d srv Hw x. specialize (Hr (Q_start_find d) srv Hw x). cbn in *. by destruct (rb_start_find fw d _).
  - intros data x. cbn. unfold on_mcu. pose proof (out_bounds data (cw x)). by destruct (srv_out data (cw x)).
Qed.
Lemma env_deaf_ok : EnvOk _ (env_deaf (P := P)).
Proof.
  constructor; try (intros * srv Hw x; split; [done|]; cbn; reflexivity).
  intros data x. cbn. unfold on_mcu. pose proof (out_bounds data (cw x)). by destruct (srv_out data (cw x)).
Qed.
Lemma env_ok depth : EnvOk _ (E_at depth).
Proof.
  induction depth as [|depth IH]; [apply env_deaf_ok|]. apply env_of_ok. intros srv f s. by apply fw_calm.
Qed.
#[export] Instance env_at_ok depth : EnvOk _ (env_at depth) := env_ok (S depth).

(** ** What the server does to the rest *)
(** What the calls of the environment do to the port. *)
Definition sound {A} (f : mcu V -> A * mcu V) : Prop := forall m, port_ok (m_usb m) -> port_ok (m_usb (snd (f m))).
Lemma sound_ask {A} (f : V -> A * V) : sound (ask f).
Proof. intros m Hm. unfold ask. by destruct (f (m_parts m)). Qed.
Lemma sound_out data : sound (srv_out data).
Proof.
  intros m Hm. unfold srv_out.
  destruct (port_step (Write (slice data 0 (u16 (zlen data)))) (m_usb m) Hm) as [Hp _]; [done|]. cbn [usb_step] in Hp.
  by destruct (usb_cdc_write _ (m_usb m)).
Qed.
Lemma sound_rng : sound srv_rng.
Proof. intros m Hm. unfold srv_rng. pose proof (sound_ask RTC_GetCycle32k m Hm) as Hr. by destruct (ask RTC_GetCycle32k m). Qed.
Lemma env_with_tends start radio (T : relation (cst (mcu V))) : (forall d, tends T (start d)) -> (forall r, tends T (call (radio r))) ->
  (forall A (f : mcu V -> A * mcu V) x, sound f -> T x (snd (on_mcu f x))) -> EnvTends _ (env_with start radio) T.
Proof.
  intros Hs Hr Hm. constructor; try done; try (intros; apply Hr). constructor; try (intros; apply Hr).
  - intros f [= <-] r x. apply Hm, sound_ask.
  - intros f [= <-] x. apply Hm, sound_ask.
  - intros f [= <-] x. apply Hm, sound_rng.
  - intros data x. apply Hm, sound_out.
Qed.
Lemma env_of_tends fw (T : relation (cst (mcu V))) : (forall r σ, T (snd σ) (snd (parted (backend fw r (joined σ))))) ->
  (forall A (f : mcu V -> A * mcu V) x, sound f -> T x (snd (on_mcu f x))) -> EnvTends _ (env_of fw) T.
Proof.
  intros Hr Hm. apply env_with_tends; [|intros r σ; apply Hr|done].
  intros d σ. specialize (Hr (Q_start_find d) σ). cbn in *. by destruct (rb_start_find fw d _).
Qed.
Lemma env_deaf_tends (T : relation (cst (mcu V))) `{!PreOrder T} :
  (forall A (f : mcu V -> A * mcu V) x, sound f -> T x (snd (on_mcu f x))) -> EnvTends _ env_deaf T.
Proof. intros Hm. apply env_with_tends; [intros d σ; cbn; reflexivity|intros r σ; cbn; reflexivity|done]. Qed.

(** ** The central keeps its contract *)
Definition toward win h : relation (cst (mcu V)) := fun x x' => ok win h x -> ok win h x'.
#[export] Instance toward_preorder win h : PreOrder (toward win h).
Proof. split; [intros x Hx; exact Hx|]. intros x y z H1 H2 H. by apply H2, H1. Qed.
Lemma toward_mcu win h A (f : mcu V -> A * mcu V) x : sound f -> toward win h x (snd (on_mcu f x)).
Proof. intros _. unfold on_mcu. destruct (f (cw x)). exact id. Qed.
Lemma serve_toward E win h `{!EnvTends _ E (toward win h)} a s : ok win h s -> ok win h (serve E s a).
Proof. intros Hs. by apply (tends_api (E := E) (T := toward win h) a (parted s)). Qed.
Lemma serves_toward E win h `{!EnvTends _ E (toward win h)} calls : forall s, ok win h s -> ok win h (fold_left (serve E) calls s).
Proof. induction calls as [|a calls IH]; intros s Hs; cbn [fold_left]; [done|]. by apply IH, (serve_toward E). Qed.
(** A call that only changes the server. *)
Lemma serves_quiet E calls : forall s, forallb quiet_api calls = true ->
  exists srv, fold_left (serve E) calls s = s <| cw := (srv, snd (cw s)) |>.
Proof.
  induction calls as [|a calls IH]; intros s Hc; cbn [fold_left]; [exists (fst (cw s)); by destruct s as [c [srv m] l]|].
  apply andb_true_iff in Hc as [Ha Hc].
  assert (exists srv, serve E s a = s <| cw := (srv, snd (cw s)) |>) as [srv ->]
    by (destruct s as [c [srv m] l]; destruct a; try done; by eexists).
  destruct (IH (s <| cw := (srv, snd (cw s)) |>) Hc) as [srv' ->]. by exists srv'.
Qed.
Lemma fw_silent depth f s : silent f = true -> exists r w, fw_at depth f s = (r, note (Fw f r) (s <| cw := w |>)).
Proof.
  intros Hs. rewrite fw_at_eq. pose proof (fw_calls_quiet f (m_parts (snd (cw s))) Hs) as Hq. destruct (fw_calls f _) as [[r calls] v].
  edestruct (serves_quiet (E_at depth) calls) as [srv Hw]; [exact Hq|]. exists r. rewrite Hw. by eexists.
Qed.
Lemma fw_keeps depth win h f s : fw_ok (m_erased (monitored (clog s))) f = true -> ok win h s -> ok win h (snd (fw_at depth f s)).
Proof.
  revert win h f s. induction depth as [|depth IH]; intros win h f s Hf Hs; rewrite fw_at_eq; destruct (fw_calls f _) as [[r calls] v]; cbn [snd];
    apply serves_toward; try (apply ok_note; [cbn -[monitored fw_ok]; by rewrite Hf, andb_true_r|done|done]).
  - apply env_deaf_tends; [exact _|apply toward_mcu].
  - apply env_of_tends; [|apply toward_mcu]. intros r' σ Ho. by apply (ok_backend _ IH (fw_silent depth) r' win h (joined σ)).
Qed.
Lemma env_at_tends depth win h : EnvTends _ (env_at depth) (toward win h).
Proof.
  apply env_of_tends; [|apply toward_mcu]. intros r σ Ho. by apply (ok_backend _ (fw_keeps depth) (fw_silent depth) r win h (joined σ)).
Qed.

(** ** The port stays sound *)
Definition ported s : Prop := port_ok (m_usb (snd (cw s))).
Definition port_kept : relation (cst (mcu V)) := fun x x' => port_ok (m_usb (cw x)) -> port_ok (m_usb (cw x')).
#[export] Instance port_kept_preorder : PreOrder port_kept.
Proof. split; [intros x Hx; exact Hx|]. intros x y z H1 H2 H. by apply H2, H1. Qed.
Lemma port_mcu A (f : mcu V -> A * mcu V) x : sound f -> port_kept x (snd (on_mcu f x)).
Proof. intros Hf Hx. unfold on_mcu. specialize (Hf (cw x) Hx). by destruct (f (cw x)). Qed.
Lemma serve_port E `{!EnvTends _ E port_kept} a s : ported s -> ported (serve E s a).
Proof. intros Hs. by apply (tends_api (E := E) (T := port_kept) a (parted s)). Qed.
Lemma serves_port E `{!EnvTends _ E port_kept} calls : forall s, ported s -> ported (fold_left (serve E) calls s).
Proof. induction calls as [|a calls IH]; intros s Hs; cbn [fold_left]; [done|]. by apply IH, (serve_port E). Qed.
Lemma gap_port g s : ported s -> ported (s <| cw := snd (gap g (cw s)) |>).
Proof. intros Hs. unfold ported. cbn. pose proof (sound_ask (gap g) (snd (cw s)) Hs). by destruct (ask (gap g) (snd (cw s))). Qed.
Lemma env_of_port fw : (forall f s, ported s -> ported (snd (fw f s))) -> EnvTends _ (env_of fw) port_kept.
Proof.
  intros Hfw. apply env_of_tends; [|apply port_mcu]. intros r σ Ho. apply (walk_backend fw ported); try done; [apply gap_port|].
  intros f s _. apply Hfw.
Qed.
Lemma fw_port depth f s : ported s -> ported (snd (fw_at depth f s)).
Proof.
  revert f s. induction depth as [|depth IH]; intros f s Hs; rewrite fw_at_eq; destruct (fw_calls f _) as [[r calls] v]; cbn [snd];
    apply serves_port; try done; [apply env_deaf_tends; [exact _|apply port_mcu]|by apply env_of_port].
Qed.
Lemma env_at_port depth : EnvTends _ (env_at depth) port_kept.
Proof. apply env_of_port, fw_port. Qed.

(** ** Runs of the firmware *)
(** What the vendor's scheduler, the library and the bus do: events and
    callbacks of the radio, the two tasks, an interrupt of the port, and anything
    that changes the rest. *)
Inductive input :=
| I_event (e : gap_event) | I_passcode (h : Z) (inputs outputs : bool) | I_pair_state (h state status : Z)
| I_process (m : option tmos_msg) (events : Z) | I_tick (events : Z) | I_irq (i : irq) | I_parts (f : V -> V).
Definition main_step (depth : nat) s (i : input) : cst world :=
  let fw := fw_at depth in
  match i with
  | I_event e => wc_event_cb fw e s
  | I_passcode h inputs outputs => wc_passcode_cb fw h inputs outputs s
  | I_pair_state h state status => wc_pair_state_cb fw h state status s
  | I_process m events => process fw m events s
  | I_tick events => snd (srv_event depth events s)
  | I_irq i => snd (on_port (fun u => (tt, USB_IRQHandler i u)) s)
  | I_parts f => snd (on_parts (fun v => (tt, f v)) s)
  end.
Definition input_legal s (i : input) : Prop :=
  match i with
  | I_event e => event_legal (ph s) e
  | I_irq i => port_event_ok (Interrupt i) (m_usb (snd (cw s)))
  | _ => True
  end.
Definition main_run (depth : nat) (is_ : list input) s : cst world := fold_left (main_step depth) is_ s.
Fixpoint main_legal (depth : nat) (is_ : list input) s : Prop :=
  match is_ with [] => True | i :: is_ => input_legal s i /\ main_legal depth is_ (main_step depth s i) end.

Definition inv s : Prop := okay s /\ server_wf (fst (cw s)) /\ ported s.
(** From a good state to a good state, with the session as [R] allows. *)
Definition leads (R : relation rbp_server) s s' : Prop := inv s -> inv s' /\ R (fst (cw s)) (fst (cw s')).
#[export] Instance leads_preorder R `{!PreOrder R} : PreOrder (leads R).
Proof.
  split; [intros s Hs; split; [done|reflexivity]|]. intros s1 s2 s3 H12 H23 H1. destruct (H12 H1) as [H2 R12]. destruct (H23 H2) as [H3 R23].
  split; [done|]. by etrans.
Qed.
Lemma leads_parts R `{!PreOrder R} {A} (f : V -> A * V) s : leads R s (snd (on_parts f s)).
Proof.
  intros (Ho & Hw & Hp). unfold on_parts. pose proof (sound_ask f (snd (cw s)) Hp). destruct (ask f (snd (cw s))) as [a m].
  split; [by split|cbn; reflexivity].
Qed.
Lemma leads_port R `{!PreOrder R} {A} (f : usb -> A * usb) s :
  (port_ok (m_usb (snd (cw s))) -> port_ok (snd (f (m_usb (snd (cw s)))))) -> leads R s (snd (on_port f s)).
Proof.
  intros Hf (Ho & Hw & Hp). specialize (Hf Hp). unfold on_port. destruct (f (m_usb (snd (cw s)))) as [a u]. split; [by split|cbn; reflexivity].
Qed.
Lemma leads_serve depth a s : api_ok a -> leads (api_rel a) s (serve (env_at depth) s a).
Proof.
  intros Ha ([h Ho] & Hw & Hp). destruct (api_step (E := env_at depth) a (fst (cw s)) (snd (parted s)) Ha Hw) as [H1 H2].
  split; [split; [|split]|exact H2]; [|exact H1|].
  - exists h. apply serve_toward; [apply env_at_tends|done].
  - apply serve_port; [apply env_at_port|done].
Qed.
Lemma leads_fresh s s' : leads calm s s' -> leads fresh s s'.
Proof. intros H Hs. destruct (H Hs) as [H1 H2]. split; [done|]. by apply calm_fresh. Qed.
Lemma leads_serves depth calls : forall s, forallb told calls = true -> leads calm s (fold_left (serve (env_at depth)) calls s).
Proof.
  induction calls as [|a calls IH]; intros s Hc; cbn [fold_left]; [reflexivity|]. apply andb_true_iff in Hc as [Ha Hc].
  etrans; [|by apply IH]. destruct (told_ok a Ha) as [Hok <-]. by apply leads_serve.
Qed.
Lemma leads_clock R `{!PreOrder R} s : leads R s (advance_clock s).
Proof.
  unfold advance_clock. pose proof (leads_parts R TMOS_GetSystemClock s) as H1. destruct (on_parts TMOS_GetSystemClock s) as [ticks s1]. cbn [snd] in H1.
  etrans; [exact H1|]. destruct (clock_step ticks _ _) as [now m] eqn:Ec. etrans; [|apply (leads_parts R)].
  intros (Ho & Hw & Hp). split; [|cbn; reflexivity]. split; [|split; [done|]].
  - destruct Ho as [h Ho]. exists h. by apply ok_on_cn.
  - unfold clock_step in Ec. injection Ec as _ <-. done.
Qed.
Lemma port_value {A} (f : usb -> A * usb) s : fst (on_port f s) = fst (f (m_usb (snd (cw s)))).
Proof. unfold on_port. by destruct (f (m_usb (snd (cw s)))). Qed.
Lemma parts_value {A} (f : V -> A * V) s : fst (on_parts f s) = fst (f (m_parts (snd (cw s)))).
Proof. unfold on_parts, ask. by destruct (f (m_parts (snd (cw s)))). Qed.
Lemma leads_read depth now s : leads fresh s
  (let '(buf, s) := on_port (usb_cdc_read 64) s in if negb (zlen buf =? 0) then serve (env_at depth) s (AUsbRx buf now) else s).
Proof.
  intros Hi. pose proof (proj2 (port_step (Read 64) (m_usb (snd (cw s))) (proj2 (proj2 Hi)) (conj I I)) 64 eq_refl) as Hb. revert Hi.
  rewrite <- port_value in Hb. pose proof (leads_port fresh (usb_cdc_read 64) s (fun Hp => proj1 (port_step (Read 64) _ Hp (conj I I)))) as H1.
  destruct (on_port (usb_cdc_read 64) s) as [buf s1]. cbn [fst snd] in *. apply (PreOrder_Transitive _ _ _ H1).
  split_if; [|reflexivity]. by apply (leads_serve depth (AUsbRx buf now)).
Qed.
Lemma leads_input depth now s : leads fresh s (take_input (env_at depth) now s).
Proof.
  unfold take_input. pose proof (leads_port fresh usb_cdc_take_lost s (fun Hp => proj1 (port_step TakeLost _ Hp (conj I I)))) as H1.
  destruct (on_port usb_cdc_take_lost s) as [lost s1]. cbn [snd] in H1. etrans; [exact H1|]. cbv zeta. etrans; [|apply leads_read].
  destruct lost; [|reflexivity]. by apply leads_fresh, (leads_serve depth (AUsbGone now)).
Qed.
Lemma leads_adapter depth now s : leads fresh s (tick_adapter (env_at depth) now s).
Proof.
  unfold tick_adapter. pose proof (leads_parts fresh (parts_adapter_tick now) s) as H1. pose proof (tick_told now (m_parts (snd (cw s)))) as Ht.
  rewrite <- parts_value in Ht. destruct (on_parts (parts_adapter_tick now) s) as [calls s1]. cbn [fst snd] in *. etrans; [exact H1|].
  by apply leads_fresh, (leads_serves depth).
Qed.
Lemma leads_tick depth events s : leads fresh s (snd (srv_event depth events s)).
Proof.
  unfold srv_event. split_if; [reflexivity|]. cbv zeta. etrans; [apply (leads_clock fresh)|]. generalize (advance_clock s). clear s. intros s.
  generalize (w_now (cn s)). intros now. etrans; [apply (leads_input depth now)|].
  etrans; [by apply leads_fresh, (leads_serve depth (ATick now))|]. etrans; [apply (leads_adapter depth now)|].
  generalize (tick_adapter (env_at depth) now (serve (env_at depth) (take_input (env_at depth) now s) (ATick now))). clear s. intros s.
  pose proof (leads_port fresh (fun u => (tt, usb_cdc_flush_tx u)) s (fun Hp => proj1 (port_step FlushTx _ Hp (conj I I)))) as H1.
  destruct (on_port _ s) as [u s1]. cbn [snd] in H1. etrans; [exact H1|]. apply (leads_parts fresh (fun v => (tt, tmos_start_task v)) s1).
Qed.

(** The operations of the central, in the middle of which the server runs. *)
Definition carried (srv : rbp_server) s : Prop := calmed srv s /\ ported s.
Lemma carried_fw depth srv f s : Plain f -> carried srv s -> carried srv (snd (fw_at depth f s)).
Proof. intros Hp [Hc Hs]. split; [pose proof (env_ok depth); by apply fw_calm|by apply fw_port]. Qed.
Lemma carried_scan depth srv c s : candidate_fit c = true -> carried srv s -> carried srv (Central.srv (fw_at depth) (AScanCandidate c) s).
Proof.
  intros Hc [H1 H2]. split; [|by apply fw_port]. unfold Central.srv, fw_do. rewrite fw_at_eq. pose proof (env_ok depth).
  apply (serve_calm (E_at depth)); [|done|done]. unfold candidate_fit in Hc. cbn. unfold candidate_ok. lia.
Qed.
Lemma carried_gap srv g s : carried srv s -> carried srv (s <| cw := snd (gap g (cw s)) |>).
Proof. intros [[Hw Hc] Hp]. split; [|by apply gap_port]. unfold calmed. cbn. by destruct (ask (gap g) (snd (cw s))). Qed.
Lemma carried_rand srv s : carried srv s -> carried srv (s <| cw := snd (tmos_rand (cw s)) |>).
Proof.
  intros [[Hw Hc] Hp]. unfold carried, calmed, ported. cbn. pose proof (sound_ask tmos_rand (snd (cw s)) Hp).
  by destruct (ask tmos_rand (snd (cw s))).
Qed.
Lemma leads_central s s' : (okay s -> okay s') -> (okay s -> carried (fst (cw s)) s -> carried (fst (cw s)) s') -> leads calm s s'.
Proof.
  intros Ho Hc (H1 & H2 & H3). destruct (Hc H1) as [[H4 H5] H6]; [by split; [split|]|]. split; [split; [by apply Ho|done]|done].
Qed.
Definition input_rel (i : input) : relation rbp_server := match i with I_tick _ => fresh | _ => calm end.
Ltac carry depth := try done; first [apply carried_gap|apply (carried_fw depth)|apply carried_rand|apply (carried_scan depth)].
Lemma leads_step depth i s : input_legal s i -> leads (input_rel i) s (main_step depth s i).
Proof.
  intros Hl. pose proof (step_okay (fw_at depth) (fw_keeps depth) (fw_silent depth)) as Hk. destruct i; cbn [main_step input_rel input_legal] in *.
  - apply leads_central; [by apply (Hk (K_event e))|]. intros Ho Hc. apply walk_event; try carry depth.
    + by destruct e.
    + by apply okay_candidates.
  - apply leads_central; [by apply (Hk (K_passcode h inputs outputs))|]. intros Ho Hc. apply walk_passcode; carry depth.
  - apply leads_central; [by apply (Hk (K_pair_state h state status))|]. intros Ho Hc. apply walk_pair_state; carry depth.
  - apply leads_central; [by apply (Hk (K_process m events))|]. intros Ho Hc. apply walk_process; carry depth.
  - apply leads_tick.
  - apply leads_port; [exact _|]. intros Hp. by apply (port_step (Interrupt i)).
  - apply leads_parts, _.
Qed.
Lemma leads_run depth is_ : forall s, main_legal depth is_ s -> leads fresh s (main_run depth is_ s).
Proof.
  induction is_ as [|i is_ IH]; intros s Hl; [reflexivity|]. destruct Hl as [Hi Hl]. unfold main_run. cbn [fold_left].
  etrans; [|by apply IH]. pose proof (leads_step depth i s Hi). destruct i; first [done|by apply leads_fresh].
Qed.
Lemma main_inv depth v s : main depth v = Some s -> inv s.
Proof.
  unfold main. destruct (board_unique_id v) as [[uid|] v1]; [|done]. cbv zeta.
  set (m := Mcu _ 0 0 _ v1). pose proof (rbp_server_init_wf (E := env_at depth) (main_cfg uid) (CSt central0 m [])) as Hw.
  assert (inv (joined (rbp_server_init (E := env_at depth) (main_cfg uid) (CSt central0 m [])))) as Hi.
  { split; [|split; [exact Hw|]].
    - pose proof (init_state_okay m) as Ho. unfold rbp_server_init. cbn. unfold on_mcu. destruct (ask board_store_load _) as [[rec|] m']; exact Ho.
    - unfold rbp_server_init. cbn. unfold on_mcu. cbn. pose proof (sound_ask board_store_load m) as Hs. destruct (ask board_store_load m) as [[rec|] m'].
      all: apply Hs; split; [apply init_wf|constructor]. }
  revert Hi. generalize (joined (rbp_server_init (E := env_at depth) (main_cfg uid) (CSt central0 m []))). intros s1 Hi.
  pose proof (leads_parts calm parts_adapter_init s1 Hi) as [H1 _]. pose proof (init_told (m_parts (snd (cw s1)))) as Ht. rewrite <- parts_value in Ht.
  destruct (on_parts parts_adapter_init s1) as [calls s2]. cbn [fst snd] in *. destruct (leads_serves depth calls s2 Ht H1) as [H2 _]. revert H2.
  generalize (fold_left (serve (env_at depth)) calls s2). intros s3 H3 [= <-]. apply (leads_parts calm (fun v => (tt, tmos_start_task v))).
  destruct (leads_central s3 (wch_central_init (fw_at depth) s3)) as [H4 _]; [|intros _ Hc; apply walk_init; carry depth|done|done].
  intros [h Ho]. exists h. apply ok_init; [apply fw_keeps|done].
Qed.
End firmware.
