(* ===== verification/MainSpecs.v ===== *)
(** * The firmware put together: theorems

    Runs of the whole firmware: the start of [main], then any events of the
    radio, interrupts of the port and turns of the two tasks. *)
From Stdlib Require Import String.
From S2P Require Import Prelude Defs Frame Tlv DeviceModel Faults Gatt Usb UsbProps AdapterState ServerState ServerLink Server ServerInv ServerSafe CentralState Central CandidateName CentralProps CentralWalk CentralSpecs Main MainProps.
#[local] Open Scope string_scope.
#[local] Open Scope list_scope.
#[local] Open Scope Z_scope.

(** ** Parts for the witnesses

    Every call succeeds, the adapter says nothing, and the clock moves on by
    eight units at every reading. *)
#[export] Instance sample_parts_library : Library Z := {
  gap _ w := (SUCCESS, w);
  bond_count _ := (SUCCESS, 0);
  bond_record _ := (SUCCESS, ([1; 2; 3; 4; 5; 6], 0));
  bond_irk _ := (SUCCESS, replicate 16 7);
  GAP_ResolvePrivateAddr _ _ := FAILURE;
  link_encrypted _ _ := true;
  tmos_rand w := (7123456, w);
  task_id _ := 4;
  storage_state _ := 0; peer_counter _ := 1; hid_flags _ := 255; addr_load _ := None; cache_load _ _ := [];
  adapter_of _ := adapter0 }.
#[export] Instance sample_parts : Parts Z := {
  parts_call _ v := (1, [], v);
  parts_adapter_init v := ([AVoiceCaps None], v);
  parts_adapter_tick _ v := ([], v);
  board_store_load v := (None, v);
  board_store_save _ v := (true, v);
  board_store_clear v := (true, v);
  board_unique_id v := (Some (replicate 16 7), v);
  TMOS_GetSystemClock v := (v, v + 8);
  RTC_GetCycle32k v := (v, v);
  tmos_start_task v := v;
  set_fault_time _ v := v;
  faults_of _ := faults_init;
  FW_VERSION := cstr "1.0" }.
#[export] Instance sample_parts_ok : PartsOk Z sample_parts.
Proof. by constructor. Qed.
(** A packet of the host. *)
Definition packet (data : list Z) : irq :=
  Irq (Z.lor RB_UIF_TRANSFER RB_U_TOG_OK) (Z.lor UIS_TOKEN_OUT 2) 0 (zlen data) 0 [] [] (data ++ replicate (64 - length data) 0).
Definition host_sends (data : list Z) : list (input (V := Z)) := [I_irq (packet data); I_tick 1].
Definition find_frame : list Z :=
  let payload := w_buf (fst (rbp_tlv_put_u16 rbp_tlv_writer_init 1 5000)) in
  snd (rbp_frame_encode (header0 <| h_kind := RBP_KIND_REQUEST |> <| h_opcode := RBP_OP_FIND_START |> <| h_request_id := 2 |>
         <| h_session_id := 1 |>) 2 (Some payload) (zlen payload)).
Definition finding : list (input (V := Z)) :=
  [I_event (E_init_done SUCCESS); I_irq (setup_irq (UsbProps.request 0 9 1 0 0)); I_irq (setup_irq (UsbProps.request 0x21 0x22 1 0 0)); I_tick 1] ++
  host_sends hello_frame ++ host_sends find_frame.
Definition started : cst (rbp_server * mcu Z) := default (CSt central0 (server_init sample_cfg, Mcu usb_reset 0 0 0 0) []) (main 3 0).

(** ** The clock *)
Section clock.
Context {V : Type}.
Definition clock_run (readings : list Z) (st : Z * mcu V) : Z * mcu V :=
  fold_left (fun st ticks => clock_step ticks (fst st) (snd st)) readings st.
(** Times of the turns, in units of 625 us; two turns are less than 2^32 units
    apart. *)
Fixpoint paced (t : Z) (ts : list Z) : Prop :=
  match ts with [] => True | t' :: ts => t <= t' < t + 2 ^ 32 /\ paced t' ts end.
Definition shows (t : Z) (st : Z * mcu V) : Prop :=
  fst st = u32 (t * 625 / 1000) /\ m_prev_ticks (snd st) = u32 t /\ m_remainder (snd st) = (t * 625) mod 1000.
Lemma clock_shows t t' st : t <= t' < t + 2 ^ 32 -> shows t st -> shows t' (clock_step (u32 t') (fst st) (snd st)).
Proof.
  intros Ht (H1 & H2 & H3). unfold clock_step. cbv zeta. unfold shows. cbn. rewrite H1, H2, H3. unfold u32.
  change (2 ^ 32) with 4294967296 in *. replace ((t' mod 4294967296 mod 4294967296 - t mod 4294967296) mod 4294967296) with (t' - t)
    by (rewrite Z.mod_mod by lia; rewrite <- Zminus_mod; symmetry; apply Z.mod_small; lia).
  assert (t' * 625 / 1000 = t * 625 / 1000 + ((t' - t) * 625 + t * 625 mod 1000) / 1000) as -> by (Z.to_euclidean_division_equations; lia).
  assert (t' * 625 mod 1000 = ((t' - t) * 625 + t * 625 mod 1000) mod 1000) as -> by (Z.to_euclidean_division_equations; lia).
  split; [|split; [by rewrite Z.mod_mod by lia|done]]. by rewrite <- Zplus_mod.
Qed.
Lemma last_cons_default (x d : Z) l : List.last (x :: l) d = List.last l x.
Proof. revert x d. induction l as [|y l IH]; intros x d; [done|]. change (List.last (y :: l) d = List.last (y :: l) x). by rewrite !IH. Qed.
Lemma clock_run_shows ts : forall t st, shows t st -> paced t ts -> shows (List.last ts t) (clock_run (map u32 ts) st).
Proof.
  induction ts as [|t' ts IH]; intros t st Hs Hp; [done|]. destruct Hp as [Ht Hp]. rewrite last_cons_default. by eapply IH, Hp; apply (clock_shows t).
Qed.
End clock.

(** ** Properties *)

Ltac legal_run :=
  cbn [finding app host_sends main_legal input_legal]; unfold port_event_ok;
  repeat match goal with |- _ /\ _ => split end; try exact I; apply (bool_decide_unpack _); vm_compute; exact I.

(** C17: Sessions belong to the host.  In every run of the firmware no event of
    the radio, no callback and no interrupt opens a session or touches the
    watermarks that admit requests, whatever the server and the central call of
    each other; only the server's own task does, by which the input of the host
    arrives; and a session that is open later is either the one that is open now
    or has a number greater than every number given so far. *)
Theorem firmware_sessions {V} `{P : Parts V} `{!PartsOk V P} depth v s0 is1 is2 i :
  main depth v = Some s0 -> main_legal depth is1 s0 ->
  let s1 := main_run depth is1 s0 in
  let session s := session_id (fst (cw s)) in
  (input_legal s1 i -> (forall events, i <> I_tick events) ->
     admission (fst (cw (main_step depth s1 i))) = admission (fst (cw s1)) /\
     (session (main_step depth s1 i) = session s1 \/ session (main_step depth s1 i) = 0)) /\
  (main_legal depth is2 s1 ->
     let s2 := main_run depth is2 s1 in
     session s2 = 0 \/ session s2 = session s1 \/ session_counter (fst (cw s1)) < session s2).
Proof.
  intros Hm Hl s1 session. destruct (leads_run depth is1 s0 Hl (main_inv depth v s0 Hm)) as [Hi _]. split.
  - intros Hli Hn. destruct (leads_step depth i s1 Hli Hi) as [_ Hr]. destruct i; try exact Hr. by destruct (Hn events).
  - intros Hl2 s2. destruct (leads_run depth is2 s1 Hl2 Hi) as [_ [_ Hf]]. unfold session. subst s1 s2. lia.
Qed.
Lemma firmware_sessions_witness :
  let s1 := main_run 3 finding started in
  let s2 := main_run 3 [I_event (E_discovery SUCCESS)] s1 in
  session_id (fst (cw s1)) = 1 /\ w_state (cn s2) = WC_IDLE /\
  (session_id (fst (cw s2)) = 0 \/ session_id (fst (cw s2)) = 1 \/ session_counter (fst (cw s1)) < session_id (fst (cw s2))).
Proof.
  cbv zeta. split; [vm_compute; reflexivity|]. split; [vm_compute; reflexivity|].
  pose proof (firmware_sessions 3 0 started finding [I_event (E_discovery SUCCESS)] (I_tick 1)) as Hs. cbv zeta in Hs.
  destruct Hs as [_ Hs]; [vm_compute; reflexivity|legal_run|]. apply Hs. by split.
Defined.

(** The clock of the firmware does not drift.  Whatever the times of the
    turns, less than 2^32 units apart, and although the counter it is read from
    has 32 bits, after every turn it shows the milliseconds since the start,
    rounded down, modulo 2^32, and keeps the exact rest. *)
Theorem clock_exact {V} (m : mcu V) ts : m_prev_ticks m = 0 -> m_remainder m = 0 -> paced 0 ts ->
  let '(now, m') := clock_run (map u32 ts) (0, m) in
  now = u32 (List.last ts 0 * 625 / 1000) /\ m_remainder m' = (List.last ts 0 * 625) mod 1000.
Proof.
  intros H1 H2 Hp. assert (shows 0 (0, m)) as Hs by by split. destruct (clock_run_shows ts 0 (0, m) Hs Hp) as (Hn & _ & Hr).
  destruct (clock_run (map u32 ts) (0, m)) as [now m']. by split.
Qed.
Lemma clock_exact_witness :
  let '(now, m') := clock_run (map u32 [5; 2 ^ 32 + 3; 2 ^ 33 - 1]) (0, Mcu usb_reset 0 0 0 tt) in
  now = u32 ((2 ^ 33 - 1) * 625 / 1000) /\ m_remainder m' = ((2 ^ 33 - 1) * 625) mod 1000.
Proof. apply (clock_exact (Mcu usb_reset 0 0 0 tt) [5; 2 ^ 32 + 3; 2 ^ 33 - 1]); [reflexivity|reflexivity|]. cbn. lia. Defined.
