(* ===== verification/SimTone.v ===== *)
(** * The simulator's microphone

    sim_remote.c: the IMA encoder and the tone the fake remote speaks, 120 bytes
    (240 samples) at a time.  [atvv_phase], [atvv_phase_pred] and
    [atvv_phase_step] are the state: the position in the tone, and the predictor
    and step index of [Ima]. *)
From S2P Require Import Prelude Defs Ima.

Definition k_steps : list Z :=
  [7; 8; 9; 10; 11; 12; 13; 14; 16; 17; 19; 21; 23; 25; 28; 31; 34; 37; 41; 45; 50; 55; 60; 66; 73; 80; 88; 97; 107;
   118; 130; 143; 157; 173; 190; 209; 230; 253; 279; 307; 337; 371; 408; 449; 494; 544; 598; 658; 724; 796; 876; 963;
   1060; 1166; 1282; 1411; 1552; 1707; 1878; 2066; 2272; 2499; 2749; 3024; 3327; 3660; 4026; 4428; 4871; 5358; 5894;
   6484; 7132; 7845; 8630; 9493; 10442; 11487; 12635; 13899; 15289; 16818; 18500; 20350; 22385; 24623; 27086; 29794;
   32767].
Definition k_idx_tbl : list Z := [-1; -1; -1; -1; 2; 4; 6; 8; -1; -1; -1; -1; 2; 4; 6; 8].

(** The three magnitude bits, the largest step first. *)
Definition enc_magnitude (step diff : Z) : Z :=
  let '(nib, diff) := if step <=? diff then (4, diff - step) else (0, diff) in
  let '(nib, diff) := if Z.shiftr step 1 <=? diff then (Z.lor nib 2, diff - Z.shiftr step 1) else (nib, diff) in
  if Z.shiftr step 2 <=? diff then Z.lor nib 1 else nib.
Definition enc_nibble (st : ima_state_t) (sample : Z) : Z * ima_state_t :=
  let diff := sample - predictor st in
  let sign := diff <? 0 in
  let diff := if sign then - diff else diff in
  let step := znth k_steps (step_index st) in
  let nib := Z.lor (enc_magnitude step diff) (if sign then 8 else 0) in
  let d := Z.shiftr step 3 in
  let d := if Z.land nib 4 =? 0 then d else d + step in
  let d := if Z.land nib 2 =? 0 then d else d + Z.shiftr step 1 in
  let d := if Z.land nib 1 =? 0 then d else d + Z.shiftr step 2 in
  let p := predictor st + (if sign then - d else d) in
  let p := if 32767 <? p then 32767 else p in
  let p := if p <? -32768 then -32768 else p in
  let idx := step_index st + znth k_idx_tbl (Z.land nib 7) in
  let idx := if idx <? 0 then 0 else idx in
  let idx := if 88 <? idx then 88 else idx in
  (nib, Ima (s16 p) (u8 idx)).

(** Two samples: the tone and its pseudo-sine. *)
Definition tone_step (phase : Z) : Z * Z * Z :=
  let phase := s16 (phase + 400) in
  let sample := s16 (Z.shiftr phase 4) in
  let phase := Z.land (s16 (phase + 400)) 0x7FFF in
  let x := phase - Z.shiftr phase 8 * 3 in
  (sample, s16 (Z.shiftr x 4), phase).
Record tone := Tone { t_phase : Z; t_ima : ima_state_t }.
(** One byte of the frame. *)
Definition tone_byte (t : tone) : Z * tone :=
  let '(sample, sample2, phase) := tone_step (t_phase t) in
  let '(hi, st) := enc_nibble (t_ima t) sample in
  let '(lo, st) := enc_nibble st sample2 in
  (u8 (Z.lor (Z.shiftl hi 4) lo), Tone phase st).
Fixpoint tone_frame (n : nat) (t : tone) : list Z * tone :=
  match n with
  | O => ([], t)
  | S n => let '(b, t) := tone_byte t in let '(l, t) := tone_frame n t in (b :: l, t)
  end.
(** The loop of [atvv_send_frame]. *)
Definition atvv_frame : tone -> list Z * tone := tone_frame 120.

(** The samples that are spoken, for the theorems. *)
Fixpoint spoken (n : nat) (phase : Z) : list Z :=
  match n with O => [] | S n => let '(a, b, phase) := tone_step phase in a :: b :: spoken n phase end.

(** ** The decoder follows the encoder *)
Lemma enc_magnitude_range step diff : enc_magnitude step diff ∈ [0; 1; 2; 3; 4; 5; 6; 7].
Proof. unfold enc_magnitude. repeat split_if; cbn; set_solver. Qed.
Lemma k_steps_same : k_steps = k_step_table.
Proof. reflexivity. Qed.
Lemma k_idx_tbl_same : k_idx_tbl = k_index_table.
Proof. reflexivity. Qed.
Lemma enc_sign_bits m (sign : bool) : m ∈ [0; 1; 2; 3; 4; 5; 6; 7] ->
  let nib := Z.lor m (if sign then 8 else 0) in
  0 <= nib < 16 /\ (Z.land nib 8 =? 0) = negb sign.
Proof. destruct sign; intros Hm; repeat (apply elem_of_cons in Hm as [-> | Hm]; [cbn; lia || done|]); by apply elem_of_nil in Hm. Qed.
(** [enc_nibble]: a nibble, and the state the decoder reaches with it. *)
Lemma enc_tracks st sample :
  0 <= fst (enc_nibble st sample) < 16 /\ ima_decode_nibble st (fst (enc_nibble st sample)) = snd (enc_nibble st sample).
Proof.
  unfold enc_nibble. cbv zeta. rewrite k_steps_same, k_idx_tbl_same.
  set (sign := sample - predictor st <? 0). set (diff := if sign then _ else _).
  set (step := znth k_step_table (step_index st)).
  destruct (enc_sign_bits _ sign (enc_magnitude_range step diff)) as [Hn Hs]. cbv zeta in Hn, Hs.
  cbn [fst snd]. split; [exact Hn|]. unfold ima_decode_nibble, ima_diff. cbv zeta. fold step. rewrite Hs.
  by destruct sign.
Qed.

(** ** How close the decoded sample is *)
Definition off (st : ima_state_t) (sample : Z) : Z := Z.abs (sample - predictor st).
(** One step from [st] to [st'] towards [sample]: within a quarter of the step
    (rounded up), or nearer by at least the whole step. *)
Definition nearer (st st' : ima_state_t) (sample : Z) : Prop :=
  let step := znth k_step_table (step_index st) in
  off st' sample <= Z.max (step / 4 + 1) (off st sample - step).
(** The decoder reads [ns] while [samples] are spoken. *)
Fixpoint follows (st : ima_state_t) (samples ns : list Z) : Prop :=
  match samples, ns with
  | [], [] => True
  | s :: samples, n :: ns => let st' := ima_decode_nibble st n in nearer st st' s /\ follows st' samples ns
  | _, _ => False
  end.
Lemma step_range st : ima_wf st -> 7 <= znth k_step_table (step_index st) <= 32767.
Proof.
  intros [_ H]. assert (Forall (fun x => 7 <= x <= 32767) k_step_table) as Hf by by apply (bool_decide_unpack _); vm_compute.
  rewrite List.Forall_forall in Hf. apply Hf. unfold znth. apply nth_In. cbn. lia.
Qed.
(** The distance that is left after the magnitude bits. *)
Lemma enc_residue step diff : 7 <= step -> 0 <= diff ->
  Z.abs (diff - ima_diff step (enc_magnitude step diff)) <= Z.max (step / 4 + 1) (diff - step).
Proof.
  intros Hs Hd. unfold enc_magnitude, ima_diff. rewrite !Z.shiftr_div_pow2 by lia.
  change (2 ^ 1) with 2. change (2 ^ 2) with 4. change (2 ^ 3) with 8.
  destruct (step <=? diff) eqn:H1; [destruct (step / 2 <=? diff - step) eqn:H2 | destruct (step / 2 <=? diff) eqn:H2];
    (destruct (step / 4 <=? _) eqn:H3); cbv -[Z.div Z.max Z.abs Z.add Z.sub Z.le]; words.
Qed.
Lemma enc_sign_diff step m (sign : bool) : m ∈ [0; 1; 2; 3; 4; 5; 6; 7] ->
  ima_diff step (Z.lor m (if sign then 8 else 0)) = ima_diff step m.
Proof. destruct sign; intros Hm; repeat (apply elem_of_cons in Hm as [-> | Hm]; [done|]); by apply elem_of_nil in Hm. Qed.
Lemma enc_nearer st sample : ima_wf st -> -32768 <= sample <= 32767 ->
  nearer st (snd (enc_nibble st sample)) sample.
Proof.
  intros Hw Hs. pose proof (step_range st Hw) as Hst. destruct (enc_tracks st sample) as [_ <-].
  unfold nearer, off. cbv zeta. set (step := znth k_step_table (step_index st)) in *.
  change (fst (enc_nibble st sample)) with
    (let diff := sample - predictor st in let sign := diff <? 0 in
     Z.lor (enc_magnitude step (if sign then - diff else diff)) (if sign then 8 else 0)). cbv zeta.
  set (sign := sample - predictor st <? 0). set (diff := if sign then _ else _).
  pose proof (enc_residue step diff ltac:(lia)) as Hr.
  destruct (enc_sign_bits _ sign (enc_magnitude_range step diff)) as [_ Hb]. cbv zeta in Hb.
  pose proof (enc_sign_diff step _ sign (enc_magnitude_range step diff)) as Hd.
  unfold ima_decode_nibble. fold step. cbn [predictor]. cbv zeta. rewrite Hb, Hd, clamp16.
  clear Hb Hd. subst diff sign. destruct Hw as [Hp _]. destruct (sample - predictor st <? 0) eqn:Hsg; cbn [negb] in *; lia.
Qed.

(** ** A frame *)
Lemma tone_step_range phase : let '(a, b, _) := tone_step phase in
  -32768 <= a <= 32767 /\ -32768 <= b <= 32767.
Proof. unfold tone_step. cbv zeta. split; apply s16_range. Qed.
Lemma nibble_byte hi lo : 0 <= hi < 16 -> 0 <= lo < 16 ->
  let b := u8 (Z.lor (Z.shiftl hi 4) lo) in Byte b /\ Z.shiftr b 4 = hi /\ Z.land b 15 = lo.
Proof.
  intros Hh Hl. cbv zeta.
  assert (Forall (fun h => Forall (fun l => Byte (u8 (Z.lor (Z.shiftl h 4) l)) /\
    Z.shiftr (u8 (Z.lor (Z.shiftl h 4) l)) 4 = h /\ Z.land (u8 (Z.lor (Z.shiftl h 4) l)) 15 = l) (map Z.of_nat (List.seq 0 16))) (map Z.of_nat (List.seq 0 16))) as H.
  { apply (bool_decide_unpack _). by vm_compute. }
  pose proof (nibble_cases (fun h => _) hi H Hh) as H'. exact (nibble_cases (fun l => _) lo H' Hl).
Qed.
Lemma tone_byte_tracks t : ima_wf (t_ima t) ->
  let '(a, c, phase) := tone_step (t_phase t) in
  let '(b, t') := tone_byte t in
  let st := ima_decode_nibble (t_ima t) (Z.shiftr b 4) in
  Byte b /\ t_phase t' = phase /\ t_ima t' = ima_decode_nibble st (Z.land b 15) /\
  nearer (t_ima t) st a /\ nearer st (t_ima t') c.
Proof.
  intros Hw. unfold tone_byte. pose proof (tone_step_range (t_phase t)) as Hr.
  destruct (tone_step (t_phase t)) as [[a c] phase]. destruct Hr as [Ha Hc].
  pose proof (enc_tracks (t_ima t) a) as [H1 E1]. pose proof (enc_nearer _ _ Hw Ha) as N1.
  destruct (enc_nibble (t_ima t) a) as [hi st]. cbn [fst snd] in *.
  assert (ima_wf st) as Hst by (subst st; auto with rbp).
  pose proof (enc_tracks st c) as [H2 E2]. pose proof (enc_nearer _ _ Hst Hc) as N2.
  destruct (enc_nibble st c) as [lo st']. cbn [fst snd] in *.
  destruct (nibble_byte hi lo H1 H2) as (Hb & -> & ->). cbn [t_phase t_ima]. rewrite E1. auto.
Qed.
Lemma tone_frame_tracks n : forall t frame t', ima_wf (t_ima t) -> tone_frame n t = (frame, t') ->
  Bytes frame /\ length frame = n /\ fst (ima_run (t_ima t) (nibbles frame)) = t_ima t' /\ ima_wf (t_ima t') /\
  follows (t_ima t) (spoken n (t_phase t)) (nibbles frame).
Proof.
  induction n as [|n IH]; intros t frame t' Hw; cbn [tone_frame spoken]; [by intros [= <- <-]|].
  pose proof (tone_byte_tracks t Hw) as H. destruct (tone_step (t_phase t)) as [[a c] phase].
  destruct (tone_byte t) as [b t1]. destruct H as (Hb & <- & E & N1 & N2).
  destruct (tone_frame n t1) as [l t2] eqn:El. intros [= <- <-].
  assert (ima_wf (t_ima t1)) as Hw1 by (rewrite E; auto with rbp).
  destruct (IH _ _ _ Hw1 El) as (Hl & Hn & Hf & Hw2 & Hfo).
  change (nibbles (b :: l)) with (Z.shiftr b 4 :: Z.land b 15 :: nibbles l). cbn [ima_run follows].
  rewrite <- E. destruct (ima_run (t_ima t1) (nibbles l)) as [fin out]. cbn [fst length] in *.
  split; [by constructor|]. split; [lia|]. split; [done|]. split; [done|]. split; [done|]. by split.
Qed.

Lemma atvv_frame_ok t : ima_wf (t_ima t) -> Bytes (fst (atvv_frame t)) /\ ima_wf (t_ima (snd (atvv_frame t))).
Proof.
  intros Hw. unfold atvv_frame. destruct (tone_frame 120 t) as [frame t'] eqn:E.
  destruct (tone_frame_tracks _ _ _ _ Hw E) as (Hb & _ & _ & Hw' & _). by split.
Qed.

(** C21: what the simulated remote speaks is what the host decoder hears.  A frame of
    the tone is 120 bytes; [ima_decode], started from the encoder's predictor and step
    index (the ones the AUDIO_SYNC message carries), writes 240 samples, ends in the
    encoder's own final state, so the next frame can be decoded without another sync,
    and each sample it writes is within a quarter of the quantizer's step of the tone
    or a whole step nearer to it than before. *)
Theorem tone_decodes t out :
  ima_wf (t_ima t) -> 240 <= zlen out ->
  let '(frame, t') := atvv_frame t in
  let pcm := snd (ima_run (t_ima t) (nibbles frame)) in
  Bytes frame /\ zlen frame = 120 /\
  ima_decode (Some (t_ima t)) frame 120 out 240 = (t_ima t', splice out 0 pcm, 240) /\ zlen pcm = 240 /\
  ima_wf (t_ima t') /\ follows (t_ima t) (spoken 120 (t_phase t)) (nibbles frame).
Proof.
  intros Hw Ho. unfold atvv_frame. destruct (tone_frame 120 t) as [frame t'] eqn:E.
  destruct (tone_frame_tracks _ _ _ _ Hw E) as (Hb & Hl & Hf & Hw' & Hfo).
  assert (zlen frame = 120) as Hz by (unfold zlen; lia).
  pose proof (ima_decode_exact (t_ima t) frame 120 out 240 Hw Hb ltac:(lia) ltac:(lia)) as H. cbv zeta in H.
  change (Z.min 120 (240 / 2)) with 120 in H. rewrite slice_0_all in H by lia.
  destruct (ima_run (t_ima t) (nibbles frame)) as [fin pcm]. cbn [fst snd] in *. subst fin.
  destruct H as (H & Hp & _). by split_and!.
Qed.
Lemma tone_decodes_witness : ima_wf (t_ima (Tone 0 (Ima 0 0))) /\
  ima_decode (Some (Ima 0 0)) (fst (atvv_frame (Tone 0 (Ima 0 0)))) 120 (replicate 240 0) 240 =
    (t_ima (snd (atvv_frame (Tone 0 (Ima 0 0)))),
     splice (replicate 240 0) 0 (snd (ima_run (Ima 0 0) (nibbles (fst (atvv_frame (Tone 0 (Ima 0 0))))))), 240).
Proof.
  assert (ima_wf (t_ima (Tone 0 (Ima 0 0)))) as Hw by (split; cbn; lia). split; [exact Hw|].
  pose proof (tone_decodes (Tone 0 (Ima 0 0)) (replicate 240 0) Hw) as H.
  destruct (atvv_frame (Tone 0 (Ima 0 0))) as [frame t']. apply H. vm_compute. discriminate.
Defined.
