(* ===== verification/SimRemote.v ===== *)
(** * The simulated remote

    sim/sim_remote.c: a fake RC003 with its attribute database, its key, battery
    and voice scripts, and the radio backend the server is given.  [rig] is
    [sim_t] without its adapter; the adapter and the server are the models of
    [Adapter] and [Server], and the fake remote is their GATT client ([Host]) and
    their radio ([Env]).  What sim_main.c gives (storage, transport, random
    numbers) is the class [Bench].

    The queue of GATT events is the list of its contents in order.  [abort] when
    it is full raises the flag [r_aborted]; what the model does after that is
    without meaning.  [emit]ted lines are kept in [r_said].  A server call of the adapter
    works on the server and the rig; what it asks of the adapter is noted in
    [r_asked] and carried out by [AdapterState.serve].  Fields of [sim_t] nothing
    reads ([inq_buf], [atvv_adpcm_timer]) are left out. *)
From Stdlib Require Import String.
From S2P Require Import Prelude Defs Frame DeviceModel Faults ServerState ServerCore ServerVoice ServerLink Server Hogp Ima Gatt Atvv AdapterState Unicom Adapter SimTone.
#[local] Open Scope string_scope.
#[local] Open Scope list_scope.
#[local] Open Scope Z_scope.

(** ** The attribute database *)
Definition H_HID_SVC : Z := 0x0010.
Definition H_MAP_DECL : Z := 0x0012.
Definition H_MAP_VAL : Z := 0x0013.
Definition H_INFO_DECL : Z := 0x0014.
Definition H_INFO_VAL : Z := 0x0015.
Definition H_KB_DECL : Z := 0x0018.
Definition H_KB_VAL : Z := 0x0019.
Definition H_KB_CCCD : Z := 0x001A.
Definition H_KB_REF : Z := 0x001B.
Definition H_CON_DECL : Z := 0x001C.
Definition H_CON_VAL : Z := 0x001D.
Definition H_CON_CCCD : Z := 0x001E.
Definition H_CON_REF : Z := 0x001F.
Definition H_GHOST_DECL : Z := 0x0020.
Definition H_GHOST_VAL : Z := 0x0021.
Definition H_GHOST_CCCD : Z := 0x0022.
Definition H_GHOST_REF : Z := 0x0023.
Definition H_BAT_SVC : Z := 0x0030.
Definition H_BAT_DECL : Z := 0x0031.
Definition H_BAT_VAL : Z := 0x0032.
Definition H_BAT_CCCD : Z := 0x0033.
Definition H_ATVV_TX_DECL : Z := 0x0051.
Definition H_ATVV_TX_VAL : Z := 0x0052.
Definition H_ATVV_CTL_DECL : Z := 0x0053.
Definition H_ATVV_CTL_VAL : Z := 0x0054.
Definition H_ATVV_CTL_CCCD : Z := 0x0055.
Definition H_ATVV_AUD_DECL : Z := 0x0056.
Definition H_ATVV_AUD_VAL : Z := 0x0057.
Definition H_ATVV_AUD_CCCD : Z := 0x0058.
Definition k_report_map : list Z :=
  [0x05; 1; 0x09; 6; 0xa1; 1; 0x85; 1; 0x05; 7;
   0x19; 0xe0; 0x29; 0xe7; 0x15; 0; 0x25; 1; 0x75; 1; 0x95; 8; 0x81; 2;
   0x75; 8; 0x95; 1; 0x81; 1;
   0x19; 0; 0x2a; 0xff; 0; 0x15; 0; 0x26; 0xff; 0; 0x75; 8; 0x95; 6; 0x81; 0; 0xc0;
   0x05; 0x0c; 0x09; 1; 0xa1; 1; 0x85; 2; 0x15; 0; 0x25; 1;
   0x09; 0x41; 0x09; 0x42; 0x09; 0x43; 0x09; 0x44; 0x09; 0x45; 0x09; 0x30; 0x09; 0xcf; 0x09; 0xe9;
   0x09; 0xea; 0x0a; 0xa2; 1; 0x0a; 0xb8; 1; 0x09; 0x6a; 0x09; 0x6b; 0x09; 0x6c; 0x0a; 0x8a; 1; 0x0a; 0x92; 1;
   0x0a; 0x94; 1; 0x09; 0x40; 0x0a; 0x23; 2; 0x0a; 0x24; 2; 0x0a; 0x25; 2; 0x0a; 0x26; 2; 0x0a; 0x27; 2; 0x0a; 0x2a; 2;
   0x75; 1; 0x95; 24; 0x81; 2; 0xc0].
Definition k_atvv_base : list Z :=
  [0x64; 0xB6; 0x17; 0xF6; 0x01; 0xAF; 0x7D; 0xBC; 0x05; 0x4F; 0x21; 0x5A; 0; 0].
(** The characteristics a client finds by a 16-bit UUID: declaration, value, UUID. *)
Definition db_chars : list (Z * Z * Z) :=
  [(H_MAP_DECL, H_MAP_VAL, 0x2A4B); (H_INFO_DECL, H_INFO_VAL, 0x2A4A); (H_KB_DECL, H_KB_VAL, 0x2A4D);
   (H_CON_DECL, H_CON_VAL, 0x2A4D); (H_GHOST_DECL, H_GHOST_VAL, 0x2A4D); (H_BAT_DECL, H_BAT_VAL, 0x2A19)].
Definition db_descs : list (Z * Z) :=
  [(H_KB_CCCD, 0x2902); (H_KB_REF, 0x2908); (H_CON_CCCD, 0x2902); (H_CON_REF, 0x2908);
   (H_GHOST_CCCD, 0x2902); (H_GHOST_REF, 0x2908); (H_BAT_CCCD, 0x2902);
   (H_ATVV_CTL_CCCD, 0x2902); (H_ATVV_AUD_DECL, 0x2803); (H_ATVV_AUD_CCCD, 0x2902)].

(** ** State *)
(** What sim_main.c is to this file and to the server's configuration. *)
Class Bench (V : Type) := {
  sim_allocate_peer_id : V -> Z * V;
  bench_load : V -> option rbp_peer_record_t * V;
  bench_save : rbp_peer_record_t -> V -> bool * V;
  bench_clear : V -> bool * V;
  tx_sink : list Z -> V -> Z * V;
  sim_rng : V -> Z * V;
  bench_faults : V -> faults_t }.

Record rig (V : Type) := Rig {
  r_remote_powered : bool; r_remote_bonded : bool; r_remote_connectable : bool; r_link_up : bool; r_mic_on : bool;
  r_pairing_should_fail : bool; r_pairing_requires_passkey : bool; r_pairing_passkey : Z;
  r_pair_in_progress : bool; r_pair_initializing : bool; r_pair_peer_id : Z; r_pair_done_ms : Z; r_pair_result : Z;
  r_atvv_stream_active : bool; r_atvv_stream_id : Z; r_atvv_frame_counter : Z; r_atvv_next_frame_ms : Z;
  r_atvv_tone : tone; r_atvv_drop_sync : bool; r_atvv_send_sync : bool; r_atvv_sample_rate : Z; r_atvv_stop_ms : Z;
  r_atvv_frames_since_sync : Z; r_battery_pending : bool; r_drop_link_ms : Z; r_now_ms : Z;
  r_kb_report_state : Z; r_consumer_state : list Z; r_subscribed_kb : bool; r_subscribed_consumer : bool;
  r_subscribed_bat : bool; r_subscribed_ctl : bool; r_subscribed_audio : bool; r_battery_level : Z;
  r_event_q : list rbp_gatt_evt; r_aborted : bool; r_said : list string; r_asked : list host_request;
  r_beyond : bool; r_bench : V }.
Arguments Rig {V}.
Arguments r_remote_powered {V} _. Arguments r_remote_bonded {V} _. Arguments r_remote_connectable {V} _.
Arguments r_link_up {V} _. Arguments r_mic_on {V} _. Arguments r_pairing_should_fail {V} _.
Arguments r_pairing_requires_passkey {V} _. Arguments r_pairing_passkey {V} _. Arguments r_pair_in_progress {V} _.
Arguments r_pair_initializing {V} _. Arguments r_pair_peer_id {V} _. Arguments r_pair_done_ms {V} _.
Arguments r_pair_result {V} _. Arguments r_atvv_stream_active {V} _. Arguments r_atvv_stream_id {V} _.
Arguments r_atvv_frame_counter {V} _. Arguments r_atvv_next_frame_ms {V} _. Arguments r_atvv_tone {V} _.
Arguments r_atvv_drop_sync {V} _. Arguments r_atvv_send_sync {V} _. Arguments r_atvv_sample_rate {V} _.
Arguments r_atvv_stop_ms {V} _. Arguments r_atvv_frames_since_sync {V} _. Arguments r_battery_pending {V} _.
Arguments r_drop_link_ms {V} _. Arguments r_now_ms {V} _. Arguments r_kb_report_state {V} _.
Arguments r_consumer_state {V} _. Arguments r_subscribed_kb {V} _. Arguments r_subscribed_consumer {V} _.
Arguments r_subscribed_bat {V} _. Arguments r_subscribed_ctl {V} _. Arguments r_subscribed_audio {V} _.
Arguments r_battery_level {V} _. Arguments r_event_q {V} _. Arguments r_aborted {V} _. Arguments r_said {V} _.
Arguments r_asked {V} _. Arguments r_beyond {V} _. Arguments r_bench {V} _.
#[export] Instance eta_rig V : Eta (rig V) := fun r =>
  Rig (r_remote_powered r) (r_remote_bonded r) (r_remote_connectable r) (r_link_up r) (r_mic_on r)
    (r_pairing_should_fail r) (r_pairing_requires_passkey r) (r_pairing_passkey r) (r_pair_in_progress r)
    (r_pair_initializing r) (r_pair_peer_id r) (r_pair_done_ms r) (r_pair_result r) (r_atvv_stream_active r)
    (r_atvv_stream_id r) (r_atvv_frame_counter r) (r_atvv_next_frame_ms r) (r_atvv_tone r) (r_atvv_drop_sync r)
    (r_atvv_send_sync r) (r_atvv_sample_rate r) (r_atvv_stop_ms r) (r_atvv_frames_since_sync r)
    (r_battery_pending r) (r_drop_link_ms r) (r_now_ms r) (r_kb_report_state r) (r_consumer_state r)
    (r_subscribed_kb r) (r_subscribed_consumer r) (r_subscribed_bat r) (r_subscribed_ctl r) (r_subscribed_audio r)
    (r_battery_level r) (r_event_q r) (r_aborted r) (r_said r) (r_asked r) (r_beyond r) (r_bench r).

Section remote.
Context {V : Type} `{B : Bench V}.
Implicit Types r : rig V.

(** [sim_init], before the adapter is initialised. *)
Definition rig0 (v : V) : rig V :=
  Rig true false true false false false false 0 false false 0 0 0 false 0 0 0 (Tone 0 (Ima 0 0)) false true 16000 0 0
    false 0 0 0 [0; 0; 0] false false false false false 80 [] false [] [] false v.
Definition emit (line : string) r : rig V := r <| r_said ::= fun l => l ++ [line] |>.

(** ** The event queue *)
Definition evt_len (e : rbp_gatt_evt) : Z :=
  match e with CHARS_FOUND _ v _ | READ_RSP _ v _ | NOTIFY _ v => zlen v | _ => 0 end.
Definition enqueue_event (e : rbp_gatt_evt) r : rig V :=
  if (zlen (r_event_q r) =? 64) || (512 <? evt_len e) then r <| r_aborted := true |>
  else r <| r_event_q ::= fun q => q ++ [e] |>.
Definition sim_remote_notify (value_handle : Z) (data : list Z) r : rig V := enqueue_event (NOTIFY value_handle data) r.

(** ** The GATT client *)
Definition g_exchange_mtu (mtu : Z) r : rig V := enqueue_event (MTU_UPDATED (if mtu <? 158 then mtu else 158)) r.
Definition g_disc_service_by_uuid16 (uuid16 : Z) r : rig V :=
  let found start end_ := enqueue_event PROC_DONE (enqueue_event (SERVICE_FOUND start end_) r) in
  if uuid16 =? 0x1812 then found H_HID_SVC H_GHOST_REF
  else if uuid16 =? 0x180F then found H_BAT_SVC H_BAT_CCCD
  else enqueue_event SERVICE_NOT_FOUND r.
Definition g_disc_service_by_uuid128 (uuid : list Z) r : rig V :=
  if bool_decide (take 12 uuid = take 12 k_atvv_base) && (znth uuid 12 =? 0x01) && (znth uuid 13 =? 0x00) &&
     (znth uuid 14 =? 0x5E) && (znth uuid 15 =? 0xAB)
  then enqueue_event PROC_DONE (enqueue_event (SERVICE_FOUND (H_ATVV_TX_DECL - 1) H_ATVV_AUD_CCCD) r)
  else enqueue_event SERVICE_NOT_FOUND r.
Definition g_read_chars_by_uuid16 (start end_ uuid16 : Z) r : rig V :=
  let r := fold_left (fun r '(decl, val, uuid) =>
    if negb (uuid =? uuid16) then r
    else if (decl <? start) || (end_ <? decl) then r
    else enqueue_event (CHARS_FOUND decl [0x12; Z.land val 0xFF; u8 (Z.shiftr val 8)] true) r) db_chars r in
  enqueue_event PROC_DONE r.
Definition atvv_decl (uuid : list Z) : Z :=
  if bool_decide (take 12 uuid = take 12 k_atvv_base) && (znth uuid 14 =? 0x5E) && (znth uuid 15 =? 0xAB) then
    if (znth uuid 12 =? 0x02) && (znth uuid 13 =? 0x00) then H_ATVV_TX_DECL
    else if (znth uuid 12 =? 0x04) && (znth uuid 13 =? 0x00) then H_ATVV_CTL_DECL
    else if (znth uuid 12 =? 0x03) && (znth uuid 13 =? 0x00) then H_ATVV_AUD_DECL else 0
  else 0.
Definition g_read_chars_by_uuid128 (start end_ : Z) (uuid : list Z) r : rig V :=
  let decl := atvv_decl uuid in
  if (decl =? 0) || (decl <? start) || (end_ <? decl) then enqueue_event PROC_DONE r
  else
    let val := u16 (decl + 1) in
    let pv := [if decl =? H_ATVV_TX_DECL then 4 else 0x10; Z.land val 0xFF; u8 (Z.shiftr val 8)] ++ take 16 uuid in
    enqueue_event PROC_DONE (enqueue_event (CHARS_FOUND decl pv true) r).
Definition g_disc_char_descs (start end_ : Z) r : rig V :=
  let r := fold_left (fun r '(handle, uuid) =>
    if (handle <? start) || (end_ <? handle) then r else enqueue_event (DESC_FOUND handle uuid false) r) db_descs r in
  enqueue_event PROC_DONE r.
Definition g_read_value (handle : Z) r : rig V :=
  if handle =? H_INFO_VAL then enqueue_event (READ_RSP 0 [0x11; 0x01; 0; 2] true) r
  else if handle =? H_MAP_VAL then enqueue_event (READ_RSP 0 k_report_map true) r
  else if handle =? H_KB_REF then enqueue_event (READ_RSP 0 [0x01; 0x01] true) r
  else if handle =? H_CON_REF then enqueue_event (READ_RSP 0 [0x02; 0x01] true) r
  else if handle =? H_GHOST_REF then enqueue_event (READ_RSP 0 [3; 1] true) r
  else if handle =? H_BAT_VAL then enqueue_event (READ_RSP 0 [r_battery_level r] true) r
  else enqueue_event (PROC_ERROR 0x02) r.
(** Subscribing is writing 1 to a CCCD. *)
Definition cccd_on (val : list Z) : bool := (2 <=? zlen val) && (znth val 0 =? 1).
(** A command of the voice protocol. *)
Definition voice_open r : rig V :=
  let r := r <| r_atvv_stream_active := true |> <| r_atvv_stream_id := 0 |> <| r_atvv_frame_counter := 0 |>
             <| r_atvv_frames_since_sync := 0 |> <| r_atvv_tone := Tone 0 (Ima 0 0) |>
             <| r_atvv_next_frame_ms := u32 (r_now_ms r + 5) |> <| r_atvv_stop_ms := u32 (r_now_ms r + 3000) |> in
  sim_remote_notify H_ATVV_CTL_VAL [10; 2; 0; 0; 0; 0; 0] (sim_remote_notify H_ATVV_CTL_VAL [4; 0; 2; 0] r).
Definition voice_command (val : list Z) r : rig V :=
  if (1 <=? zlen val) && (znth val 0 =? 0x0A)
  then sim_remote_notify H_ATVV_CTL_VAL [0x0B; 0x01; 0x00; 0x02; 0x03; 0x00; 0x78; 0x00; 0x00] r
  else if (2 <=? zlen val) && (znth val 0 =? 0x0D)
  then if r_atvv_stream_active r then r <| r_atvv_stop_ms := u32 (r_now_ms r + 20) |> else r
  else if (2 <=? zlen val) && (znth val 0 =? 0x0E) then r
  else if (2 <=? zlen val) && (znth val 0 =? 0x0C)
  then if negb (r_atvv_stream_active r) then voice_open r else sim_remote_notify H_ATVV_CTL_VAL [12; 15; 128] r
  else r.
Definition g_write_common (handle : Z) (val : list Z) (command : bool) r : Z * rig V :=
  let done r := (0, if command : bool then r else enqueue_event WRITE_DONE r) in
  if handle =? H_GHOST_CCCD then (-1, r)
  else if handle =? H_KB_CCCD then done (r <| r_subscribed_kb := cccd_on val |>)
  else if handle =? H_CON_CCCD then done (r <| r_subscribed_consumer := cccd_on val |>)
  else if handle =? H_BAT_CCCD then done (r <| r_subscribed_bat := cccd_on val |>)
  else if handle =? H_ATVV_CTL_CCCD then
    let r := r <| r_subscribed_ctl := cccd_on val |> in
    done (if r_subscribed_ctl r then emit "remote:ctl_subscribed" r else r)
  else if handle =? H_ATVV_AUD_CCCD then
    let r := r <| r_subscribed_audio := cccd_on val |> in
    done (if r_subscribed_audio r then emit "remote:audio_subscribed" r else r)
  else if handle =? H_ATVV_TX_VAL then done (voice_command val r)
  else done r.
(** The table [k_gatt]. *)
Definition k_gatt (o : gatt_op) r : Z * rig V :=
  match o with
  | Exchange_mtu mtu => (0, g_exchange_mtu mtu r)
  | Disc_service_by_uuid16 uuid => (0, g_disc_service_by_uuid16 uuid r)
  | Disc_service_by_uuid128 uuid => (0, g_disc_service_by_uuid128 uuid r)
  | Read_chars_by_uuid16 start end_ uuid => (0, g_read_chars_by_uuid16 start end_ uuid r)
  | Read_chars_by_uuid128 start end_ uuid => (0, g_read_chars_by_uuid128 start end_ uuid r)
  | Disc_char_descs start end_ => (0, g_disc_char_descs start end_ r)
  | Read_value handle => (0, g_read_value handle r)
  | Read_long_value _ _ => (0, r)
  | Write_value handle val => g_write_common handle val false r
  | Write_command handle val => g_write_common handle val true r
  end.
End remote.

(** ** The radio backend

    The functions [rb_] of the source act on the rig, tell the server and drive the
    adapter.  They are written once, over what they need of the state; the server is
    told with the environment of the next call. *)
Class Deck (V S : Type) := {
  rig_of : S -> rig V;
  on_rig : (rig V -> rig V) -> S -> S;
  tell : api -> S -> S;
  adapter_start : Z -> S -> S;
  adapter_detach : S -> S;
  adapter_mic_stop : S -> S }.

Section backend.
Context {V S : Type} `{B : Bench V} `{K : Deck V S}.
Implicit Types s : S.

Definition sim_candidate : rbp_candidate_t :=
  let name := cstr "Xiaomi RC003" in Candidate 1 1 3 (name ++ replicate (48 - List.length name) 0) (zlen name).
Definition rb_start_find (duration_ms : Z) s : Z * S :=
  (RBP_STATUS_OK,
   if r_remote_powered (rig_of s) && r_remote_connectable (rig_of s) then tell (AScanCandidate sim_candidate) s else s).
Definition rb_stop_find s : S := s.
Definition rb_pair_begin (candidate_id : Z) s : S :=
  let '(id, v) := sim_allocate_peer_id (r_bench (rig_of s)) in
  let s := on_rig (fun r => r <| r_bench := v |> <| r_pair_peer_id := id |>) s in
  if id =? 0 then tell (APairDone RBP_STATUS_STORAGE_FAILED false None 0) s
  else
    let s := tell (ALink RBP_LINK_CONNECTING 0 (r_now_ms (rig_of s))) s in
    let s := on_rig (fun r => r <| r_pair_in_progress := true |> <| r_pair_done_ms := 0 |>) s in
    if r_pairing_should_fail (rig_of s) then
      on_rig (fun r => r <| r_pair_result := RBP_STATUS_PAIRING_FAILED |> <| r_pair_done_ms := u32 (r_now_ms r + 100) |>) s
    else
      let s := tell (ALink RBP_LINK_PAIRING 0 (r_now_ms (rig_of s))) s in
      if r_pairing_requires_passkey (rig_of s) then tell (APairPrompt RBP_PROMPT_ENTER_PASSKEY 0 30000) s
      else on_rig (fun r => r <| r_pair_result := RBP_STATUS_OK |> <| r_pair_done_ms := u32 (r_now_ms r + 100) |>) s.
Definition rb_pair_reply (accept has_passkey : bool) (passkey : Z) s : S :=
  let r := rig_of s in
  if negb (r_pair_in_progress r) then s
  else
    let result := if negb accept || (has_passkey && negb (passkey =? r_pairing_passkey r))
                  then RBP_STATUS_PAIRING_FAILED else RBP_STATUS_OK in
    on_rig (fun r => r <| r_pair_result := result |> <| r_pair_done_ms := u32 (r_now_ms r + 50) |>) s.
Definition rb_pair_cancel s : S :=
  on_rig (fun r => r <| r_pair_in_progress := false |> <| r_pair_initializing := false |> <| r_pair_done_ms := 0 |>
                     <| r_atvv_stop_ms := 0 |>) s.
Definition rb_forget_peer s : S :=
  let s := on_rig (fun r =>
    let r := r <| r_remote_bonded := false |> in
    if r_link_up r then r <| r_link_up := false |> <| r_mic_on := false |> <| r_atvv_stream_active := false |> else r) s in
  tell (AForgetDone RBP_STATUS_OK false) s.
Definition rb_connect_peer s : S :=
  if negb (r_remote_bonded (rig_of s)) then s
  else
    let s := tell (ALink RBP_LINK_CONNECTING 0 (r_now_ms (rig_of s))) s in
    let s := tell (ALink RBP_LINK_INITIALIZING 0 (u32 (r_now_ms (rig_of s) + 50))) s in
    let s := on_rig (fun r => r <| r_link_up := true |>) s in
    adapter_start (u32 (r_now_ms (rig_of s) + 60)) s.
Definition rb_disconnect s : S :=
  let s := on_rig (fun r => r <| r_link_up := false |> <| r_mic_on := false |> <| r_atvv_stream_active := false |>
    <| r_subscribed_kb := false |> <| r_subscribed_consumer := false |> <| r_subscribed_bat := false |>
    <| r_subscribed_ctl := false |> <| r_subscribed_audio := false |>) s in
  let s := adapter_detach s in
  tell (ALink RBP_LINK_DISCONNECTED 0 (r_now_ms (rig_of s))) s.
Definition rb_voice_request_stop s : S :=
  let s := adapter_mic_stop s in
  on_rig (fun r =>
    if r_atvv_stream_active r && r_subscribed_ctl r
    then sim_remote_notify H_ATVV_CTL_VAL [0x00; 0x00] r <| r_atvv_stream_active := false |> <| r_mic_on := false |>
    else r) s.
End backend.

(** The environment of the server: the backend on [rbp_server * X], the rest on
    what the bench keeps in [X]. *)
Section environment.
Context {V X : Type} `{B : Bench V}.
Definition on_bench {A} (get : X -> V) (put : V -> X -> X) (f : V -> A * V) (x : X) : A * X :=
  let '(a, v) := f (get x) in (a, put v x).
Definition env_of (K : Deck V (rbp_server * X)) (get : X -> V) (put : V -> X -> X)
    (start : rbp_server -> X -> Z * X) : Env X := {|
  start_find := rb_start_find;
  stop_find := rb_stop_find;
  pair_begin := rb_pair_begin;
  pair_reply := rb_pair_reply;
  pair_cancel := rb_pair_cancel;
  forget_peer := rb_forget_peer;
  connect_peer := rb_connect_peer;
  disconnect := rb_disconnect;
  voice_request_stop := rb_voice_request_stop;
  voice_request_start := Some start;
  store_load := Some (on_bench get put bench_load);
  store_save := Some (fun rec => on_bench get put (bench_save rec));
  store_clear := Some (on_bench get put bench_clear);
  out data := on_bench get put (tx_sink data);
  rng := Some (on_bench get put sim_rng);
  fault_state x := bench_faults (get x) |}.
End environment.

(** *** A call the adapter makes

    [detach] and [mic_stop] are requests.  In a function of the radio that is called
    here the server is told once more, with [in_env0].  What would go further (a third
    call of the server, or a start of the adapter during its own call) is not followed
    and raises [r_beyond]; it never happens. *)
Section inside.
Context {V : Type} `{B : Bench V}.
Definition beyond (r : rig V) : rig V := r <| r_beyond := true |>.
Definition request (q : host_request) (s : rbp_server * rig V) : rbp_server * rig V :=
  (fst s, snd s <| r_asked ::= fun l => l ++ [q] |>).
Definition in_deck (reply : api -> rbp_server * rig V -> rbp_server * rig V) : Deck V (rbp_server * rig V) := {|
  rig_of := snd;
  on_rig f s := (fst s, f (snd s));
  tell := reply;
  adapter_start _ s := (fst s, beyond (snd s));
  adapter_detach := request Detach;
  adapter_mic_stop := request Mic_stop |}.
Definition in_env_of (reply : api -> rbp_server * rig V -> rbp_server * rig V) : Env (rig V) :=
  env_of (in_deck reply) r_bench (fun v r => r <| r_bench := v |>) (fun _ r => (RBP_STATUS_VOICE_UNAVAILABLE, beyond r)).
Definition in_env0 : Env (rig V) := in_env_of (fun _ s => (fst s, beyond (snd s))).
Definition in_env : Env (rig V) := in_env_of (fun a s => exec (run_api (E := in_env0) a) s).
Abbreviation world := (rbp_server * rig V)%type.
Definition sim_served (a : api) (w : world) : list host_request * world :=
  let '(srv, r) := exec (run_api (E := in_env) a) (fst w, snd w <| r_asked := [] |>) in
  (r_asked r, (srv, r <| r_asked := [] |>)).
#[export] Instance sim_host : Host world := {
  gatt_client o w := let '(rc, r) := k_gatt o (snd w) in (rc, (fst w, r));
  voice_wanted w := rbp_server_voice_wanted (fst w);
  voice_capture_session w := rbp_server_voice_capture_session (fst w);
  set_voice_caps c w := (rbp_server_set_voice_caps (Some c) (fst w), snd w);
  served := sim_served;
  ATT_MTU := 23;
  null_empty := false;
  SIMULATOR := true }.

(** *** A call from the outside

    The adapter is driven at once. *)
Definition parted (s : adst world) : rbp_server * adst (rig V) := (fst (wd s), AdSt (ad s) (snd (wd s)) (evs s) (acts s)).
Definition joined (x : rbp_server * adst (rig V)) : adst world :=
  AdSt (ad (snd x)) (fst x, wd (snd x)) (evs (snd x)) (acts (snd x)).
Definition out_deck (reply : api -> rbp_server * adst (rig V) -> rbp_server * adst (rig V)) : Deck V (rbp_server * adst (rig V)) := {|
  rig_of x := wd (snd x);
  on_rig f x := (fst x, snd x <| wd := f (wd (snd x)) |>);
  tell := reply;
  adapter_start now x := parted (rc003_adapter_start now (joined x));
  adapter_detach x := parted (rc003_adapter_detach (joined x));
  adapter_mic_stop x := parted (snd (rc003_adapter_mic_stop (joined x))) |}.
Definition rb_voice_request_start (srv : rbp_server) (x : adst (rig V)) : Z * adst (rig V) :=
  let '(status, s) := rc003_adapter_mic_start (joined (srv, x)) in (status, snd (parted s)).
Definition out_env_of (reply : api -> rbp_server * adst (rig V) -> rbp_server * adst (rig V)) : Env (adst (rig V)) :=
  env_of (out_deck reply) (fun x => r_bench (wd x)) (fun v x => x <| wd := wd x <| r_bench := v |> |>) rb_voice_request_start.
Definition out_env0 : Env (adst (rig V)) := out_env_of (fun _ x => (fst x, snd x <| wd ::= beyond |>)).
Definition out_env : Env (adst (rig V)) := out_env_of (fun a x => exec (run_api (E := out_env0) a) x).
End inside.

(** ** The tick *)
Section tick.
Context {V : Type} `{B : Bench V}.
Abbreviation world := (rbp_server * rig V)%type.
Implicit Types (r : rig V) (s : adst world).

Definition rig_in s : rig V := snd (wd s).
Definition with_rig (f : rig V -> rig V) s : adst world := s <| wd := (fst (wd s), f (snd (wd s))) |>.
(** A call of the server, and a backend function called by the simulator itself. *)
Definition tell_server (a : api) s : adst world := joined (exec (run_api (E := out_env) a) (parted s)).
Definition radio (f : Deck V (rbp_server * adst (rig V)) -> rbp_server * adst (rig V) -> rbp_server * adst (rig V)) s : adst world :=
  joined (f (out_deck (fun a x => exec (run_api (E := out_env) a) x)) (parted s)).

Definition atvv_send_frame r : rig V :=
  let '(frame, t) := atvv_frame (r_atvv_tone r) in
  sim_remote_notify H_ATVV_AUD_VAL frame (r <| r_atvv_tone := t |>).
Definition sync_message r : list Z :=
  let t := t_ima (r_atvv_tone r) in
  [0x0A; 0x02; u8 (Z.shiftr (r_atvv_frame_counter r) 8); Z.land (r_atvv_frame_counter r) 0xFF;
   u8 (Z.shiftr (predictor t) 8); Z.land (predictor t) 0xFF; step_index t].
(** One turn of the loop: [true] when it is left. *)
Definition voice_turn (now : Z) r : bool * rig V :=
  let r := if (r_atvv_frames_since_sync r =? 0) && r_atvv_send_sync r && negb (r_atvv_drop_sync r)
           then sim_remote_notify H_ATVV_CTL_VAL (sync_message r) r else r in
  let r := atvv_send_frame r in
  let r := r <| r_atvv_frame_counter ::= fun n => u16 (n + 1) |> <| r_atvv_frames_since_sync ::= fun n => u16 (n + 1) |> in
  let r := if 20 <=? r_atvv_frames_since_sync r then r <| r_atvv_frames_since_sync := 0 |> else r in
  let r := r <| r_atvv_next_frame_ms ::= fun n => u32 (n + 15) |> in
  if negb (r_atvv_stop_ms r =? 0) && (r_atvv_stop_ms r <=? now)
  then (true, emit "remote:atvv_stopped" (sim_remote_notify H_ATVV_CTL_VAL [0x00; 0x02] r
                <| r_atvv_stream_active := false |> <| r_mic_on := false |> <| r_atvv_stop_ms := 0 |>))
  else (false, r).
(** Each turn adds an event to a queue of 64, or the program aborts. *)
Fixpoint voice_loop (fuel : nat) (now : Z) r : option (rig V) :=
  match fuel with
  | O => None
  | S fuel =>
    if r_aborted r then Some r
    else if now <? r_atvv_next_frame_ms r then Some r
    else let '(stop, r) := voice_turn now r in if stop : bool then Some r else voice_loop fuel now r
  end.
Definition voice_fuel : nat := 66.
Definition sim_voice (now : Z) r : rig V :=
  if r_atvv_stream_active r && r_subscribed_audio r then default r (voice_loop voice_fuel now r) else r.

Fixpoint drain_loop (budget : nat) s : adst world :=
  match budget, r_event_q (rig_in s) with
  | S budget, e :: q => drain_loop budget (adapter_on_gatt e (with_rig (fun r => r <| r_event_q := q |>) s))
  | _, _ => s
  end.
Definition drain_events : adst world -> adst world := drain_loop 128.

Definition sim_pairing (now : Z) s : adst world :=
  let r := rig_in s in
  if r_pair_in_progress r && negb (r_pair_done_ms r =? 0) && (r_pair_done_ms r <=? now) then
    let s := with_rig (fun r => r <| r_pair_in_progress := false |> <| r_pair_done_ms := 0 |>) s in
    if r_pair_result r =? RBP_STATUS_OK then
      let s := with_rig (fun r => r <| r_remote_bonded := true |> <| r_pair_initializing := true |> <| r_link_up := true |>) s in
      rc003_adapter_start now (tell_server (ALink RBP_LINK_INITIALIZING 0 now) s)
    else with_rig (fun r => r <| r_link_up := false |>) (tell_server (APairDone (r_pair_result r) false None 0) s)
  else s.
Definition sim_battery r : rig V :=
  if r_subscribed_bat r && r_battery_pending r
  then sim_remote_notify H_BAT_VAL [r_battery_level r] (r <| r_battery_pending := false |>) else r.
Definition sim_drop (now : Z) s : adst world :=
  let r := rig_in s in
  if negb (r_drop_link_ms r =? 0) && (r_drop_link_ms r <=? now)
  then radio (fun K => rb_disconnect (K := K)) (with_rig (fun r => r <| r_drop_link_ms := 0 |>) s) else s.
Definition sim_paired s : adst world :=
  if r_pair_initializing (rig_in s) && a_ready (ad s)
  then
    let rec := PeerRecord (r_pair_peer_id (rig_in s)) (cstr "Xiaomi RC003") true in
    tell_server (APairDone RBP_STATUS_OK true (Some rec) 0) (with_rig (fun r => r <| r_pair_initializing := false |>) s)
  else s.
Definition sim_reconnect s : adst world :=
  let r := rig_in s in
  if negb (r_link_up r) && r_remote_bonded r && r_remote_powered r && r_remote_connectable r &&
     rbp_server_should_reconnect (fst (wd s))
  then radio (fun K => rb_connect_peer (K := K)) s else s.
Definition sim_tick (now : Z) s : adst world :=
  let s := with_rig (fun r => r <| r_now_ms := now |>) s in
  let s := sim_pairing now s in
  let s := with_rig (fun r => sim_voice now (sim_battery r)) s in
  let s := sim_drop now s in
  let s := drain_events (on_ad (fun a => a <| a_now_ms := now |>) s) in
  let s := drain_events (rc003_adapter_tick now s) in
  sim_reconnect (sim_paired s).

(** ** Commands *)
Definition key_code (name : list Z) : Z :=
  let named (n : string) := bool_decide (name = cstr n) in
  if named "up" then 0x52 else if named "down" then 0x51 else if named "left" then 0x50 else if named "right" then 0x4F
  else if named "ok" then 0x28 else if named "back" then 0xF1 else if named "home" then 0x4A else if named "menu" then 0x65
  else if named "power" then 0x66 else if named "volup" then 0x80 else if named "voldown" then 0x81
  else if named "voice" then 0x3E else if named "tv" then 0x35 else 0.
(** [%<n>s] of [sscanf]: the word and the rest. *)
Fixpoint scan_word (n : nat) (l : list Z) : list Z * list Z :=
  match n, l with
  | S n, c :: l' => if isspace c then ([], l) else let '(w, rest) := scan_word n l' in (c :: w, rest)
  | _, _ => ([], l)
  end.
(** [atoi]; a value that does not fit an [int] is undefined in C. *)
Fixpoint digits (l : list Z) (acc : Z) : Z :=
  match l with c :: l => if (48 <=? c) && (c <=? 57) then digits l (acc * 10 + (c - 48)) else acc | [] => acc end.
Definition atoi (l : list Z) : Z :=
  match skip_spaces l with
  | c :: l' => if c =? 45 then - digits l' 0 else if c =? 43 then digits l' 0 else digits (c :: l') 0
  | [] => 0
  end.
Definition mic_on r : rig V :=
  if r_atvv_stream_active r then r
  else
    let r := r <| r_atvv_stream_active := true |> <| r_atvv_stream_id := u8 (r_atvv_stream_id r mod 0x80 + 1) |>
      <| r_atvv_frame_counter := 0 |> <| r_atvv_frames_since_sync := 0 |> <| r_atvv_tone := Tone 0 (Ima 0 0) |>
      <| r_atvv_next_frame_ms := u32 (r_now_ms r + 5) |> <| r_atvv_stop_ms := u32 (r_now_ms r + 3000) |> in
    let r := if r_subscribed_ctl r
      then sim_remote_notify H_ATVV_CTL_VAL [0x0a; 2; 0; 0; 0; 0; 0]
             (sim_remote_notify H_ATVV_CTL_VAL [0x04; 0x03; 0x02; r_atvv_stream_id r] r)
      else r in
    emit "remote:atvv_started" r.
Definition key_report (press : bool) (kc : Z) r : rig V :=
  let rep := [0; 0; if press then u8 kc else 0; 0; 0; 0; 0; 0] in
  let r := r <| r_kb_report_state := if press then kc else 0 |> in
  if r_subscribed_kb r then sim_remote_notify H_KB_VAL rep r else r.
Definition consumer_report r : rig V :=
  if r_subscribed_consumer r then sim_remote_notify H_CON_VAL (r_consumer_state r) r else r.
Definition sim_command (line : list Z) r : bool * rig V :=
  let '(cmd, rest) := scan_word 31 (skip_spaces line) in
  let '(arg, _) := scan_word 31 (skip_spaces rest) in
  let named (n : string) := bool_decide (cmd = cstr n) in
  if bool_decide (cmd = []) then (false, r)
  else if named "press" || named "release" then
    let kc := key_code arg in
    if kc =? 0 then (false, r) else (true, key_report (named "press") kc r)
  else if named "consumer" then
    let bit := u32 (atoi arg) in
    (true, consumer_report
       (if bit <? 24
        then r <| r_consumer_state ::= fun l =>
          <[Z.to_nat (bit / 8) := u8 (Z.lor (znth l (bit / 8)) (u8 (Z.shiftl 1 (bit mod 8))))]> l |>
        else r))
  else if named "consumer_clear" then (true, consumer_report (r <| r_consumer_state := [0; 0; 0] |>))
  else if named "mic_on" then (true, mic_on r)
  else if named "mic_off" then (true, if r_atvv_stream_active r then r <| r_atvv_stop_ms := u32 (r_now_ms r + 10) |> else r)
  else if named "battery" then (true, r <| r_battery_level := u8 (atoi arg) |> <| r_battery_pending := r_subscribed_bat r |>)
  else if named "drop_link" then (true, r <| r_drop_link_ms := u32 (r_now_ms r + 10) |>)
  else if named "pair_fail" then (true, r <| r_pairing_should_fail := true |>)
  else if named "pair_ok" then (true, r <| r_pairing_should_fail := false |> <| r_pairing_requires_passkey := false |>)
  else if named "pair_passkey"
  then (true, r <| r_pairing_requires_passkey := true |> <| r_pairing_passkey := u32 (atoi arg) |>)
  else if named "atvv_no_sync" then (true, r <| r_atvv_send_sync := bool_decide (arg = cstr "on") |>)
  else (false, r).

(** ** Start *)
Definition sim_init (srv : rbp_server) (v : V) : adst world := rc003_adapter_init (AdSt adapter0 (srv, rig0 v) [] []).
End tick.
