(* ===== verification/SimMain.v ===== *)
(** * The simulator's program

    sim/sim_main.c: the server, the adapter and the simulated remote wired to two
    sockets, two files and the clock.  The machine (files, [send], the records of
    faults.c) is the class [Machine]; what [select], [accept] and [recv] return in a
    turn of the main loop and how many virtual milliseconds have passed is its
    argument.  Sockets are open or not; bytes sent are kept in [m_sent].  Printing and
    the parsing of the command line are left out. *)
From Stdlib Require Import String.
From S2P Require Import Prelude Defs Frame DeviceModel Faults ServerState ServerCore ServerVoice ServerLink Server Hogp Ima Gatt Atvv AdapterState Unicom Adapter SimTone SimRemote.
#[local] Open Scope string_scope.
#[local] Open Scope list_scope.
#[local] Open Scope Z_scope.

Inductive sim_file := Sim_store | Sim_counter.
(** [f_read]: the file as a reader sees it, [None] when it cannot be opened.
    [f_write]: it is replaced; [None] when it cannot be opened, otherwise the number of
    bytes [fwrite] took and whether [fclose] was successful. *)
Class Machine (D : Type) := {
  f_read : sim_file -> D -> option (list Z);
  f_write : sim_file -> list Z -> D -> option (Z * bool) * D;
  send : list Z -> D -> Z * D;
  machine_faults : D -> faults_t }.
(** The statics of sim_main.c. *)
Record process (D : Type) := Process {
  g_tx : list Z; g_data_sock : bool; g_rng_state : Z; g_machine : D; m_sent : list Z }.
Arguments Process {D}.
Arguments g_tx {D} _.
Arguments g_data_sock {D} _.
Arguments g_rng_state {D} _.
Arguments g_machine {D} _.
Arguments m_sent {D} _.
#[export] Instance eta_process D : Eta (process D) := fun p =>
  Process (g_tx p) (g_data_sock p) (g_rng_state p) (g_machine p) (m_sent p).

Definition TX_CAP : Z := 64 * 1024.
(** [rbp_peer_record_t] in memory: the id, 48 bytes of name, the flag, three bytes of
    padding.  Padding and the bytes after the name are 0. *)
Definition SIZEOF_PEER_RECORD : Z := 56.
Fixpoint c_string (l : list Z) : list Z := match l with c :: l => if c =? 0 then [] else c :: c_string l | [] => [] end.
Definition record_bytes (rec : rbp_peer_record_t) : list Z :=
  le 4 (pr_peer_id rec) ++ take 48 (pr_name rec ++ replicate 48 0) ++ [if pr_auto_reconnect rec then 1 else 0; 0; 0; 0].
Definition record_of (l : list Z) : rbp_peer_record_t :=
  PeerRecord (unle (slice l 0 4)) (c_string (slice l 4 48)) (negb (znth l 52 =? 0)).

Section statics.
Context {D : Type} `{M : Machine D}.
Implicit Types p : process D.

Definition sim_tx_sink (data : list Z) p : Z * process D :=
  let room := u64 (TX_CAP - zlen (g_tx p)) in
  let len := if room <? zlen data then room else zlen data in
  (len, p <| g_tx ::= fun l => l ++ slice data 0 len |>).
Definition tx_flush p : process D :=
  if zlen (g_tx p) =? 0 then p
  else if negb (g_data_sock p) then p <| g_tx := [] |>
  else
    let '(n, d) := send (g_tx p) (g_machine p) in
    let p := p <| g_machine := d |> in
    if n <=? 0 then p <| g_tx := [] |>
    else p <| m_sent ::= fun l => l ++ slice (g_tx p) 0 n |> <| g_tx := drop (Z.to_nat n) (g_tx p) |>.
Definition xorshift (x : Z) : Z :=
  let x := Z.lxor x (u32 (Z.shiftl x 13)) in
  let x := Z.lxor x (Z.shiftr x 17) in
  Z.lxor x (u32 (Z.shiftl x 5)).
Definition rng_step p : Z * process D :=
  let x := xorshift (g_rng_state p) in (x, p <| g_rng_state := x |>).
Definition on_machine {A} (f : D -> A * D) p : A * process D := let '(a, d) := f (g_machine p) in (a, p <| g_machine := d |>).
Definition file_load (d : D) : option rbp_peer_record_t :=
  match f_read Sim_store d with
  | None => None
  | Some l =>
    if zlen l <? SIZEOF_PEER_RECORD then None
    else let rec := record_of l in if pr_peer_id rec =? 0 then None else Some rec
  end.
Definition file_save (rec : rbp_peer_record_t) (d : D) : bool * D :=
  match f_write Sim_store (record_bytes rec) d with
  | (None, d) => (false, d)
  | (Some (n, _), d) => (n =? SIZEOF_PEER_RECORD, d)
  end.
Definition file_clear : D -> bool * D := file_save peer_record0.
Definition allocate_id (d : D) : Z * D :=
  let read := match f_read Sim_counter d with
              | None => Some 0
              | Some l => if zlen l <? 4 then None else Some (unle (slice l 0 4))
              end in
  match read with
  | None => (0, d)
  | Some n =>
    if n =? UINT32_MAX then (0, d)
    else
      let n := n + 1 in
      match f_write Sim_counter (le 4 n) d with
      | (None, d) => (0, d)
      | (Some (written, closed), d) => (if (written =? 4) && closed then n else 0, d)
      end
  end.
#[export] Instance process_bench : Bench (process D) := {
  sim_allocate_peer_id := on_machine allocate_id;
  bench_load p := (file_load (g_machine p), p);
  bench_save rec := on_machine (file_save rec);
  bench_clear := on_machine file_clear;
  tx_sink := sim_tx_sink;
  sim_rng := rng_step;
  bench_faults p := machine_faults (g_machine p) }.

(** ** The main loop *)
Abbreviation system := (adst (rbp_server * rig (process D))).
Record loop_state := LoopState { l_sys : system; l_ctrl_sock : bool; l_ctrl_buf : list Z; l_virt_ms : Z }.
#[export] Instance eta_loop_state : Eta loop_state := fun l =>
  LoopState (l_sys l) (l_ctrl_sock l) (l_ctrl_buf l) (l_virt_ms l).
(** What a turn finds: a connection accepted, bytes received ([Some []]: the peer is
    gone), on either port, and the virtual milliseconds that have passed. *)
Record turn := Turn {
  n_accept_data : bool; n_data : option (list Z); n_accept_ctrl : bool; n_ctrl : option (list Z); n_elapsed : nat }.
Implicit Types l : loop_state.

Definition process_of (s : system) : process D := r_bench (rig_in s).
Definition on_process (f : process D -> process D) : system -> system := with_rig (fun r => r <| r_bench := f (r_bench r) |>).
Definition turn_data (t : turn) l : loop_state :=
  let l := if n_accept_data t then l <| l_sys ::= on_process (fun p => p <| g_data_sock := true |>) |> else l in
  match n_data t with
  | None => l
  | Some data =>
    if negb (g_data_sock (process_of (l_sys l))) then l
    else if bool_decide (data = [])
    then l <| l_sys := tell_server (AUsbGone (l_virt_ms l)) (on_process (fun p => p <| g_data_sock := false |>) (l_sys l)) |>
    else l <| l_sys ::= tell_server (AUsbRx data (l_virt_ms l)) |>
  end.
(** [strchr(ctrl_buf, '\n')]: the line before it and what follows. *)
Fixpoint split_line (buf : list Z) : option (list Z * list Z) :=
  match buf with
  | [] => None
  | c :: buf =>
    if c =? 10 then Some ([], buf)
    else if c =? 0 then None
    else match split_line buf with Some (line, rest) => Some (c :: line, rest) | None => None end
  end.
(** A carriage return ends the command. *)
Fixpoint until_cr (line : list Z) : list Z := match line with c :: line => if c =? 13 then [] else c :: until_cr line | [] => [] end.
Fixpoint ctrl_lines (fuel : nat) (buf : list Z) : list (list Z) * list Z :=
  match fuel, split_line buf with
  | S fuel, Some (line, rest) => let '(lines, tail) := ctrl_lines fuel rest in (until_cr line :: lines, tail)
  | _, _ => ([], buf)
  end.
Definition CTRL_CAP : Z := 255.
Definition ctrl_feed (buf data : list Z) : list (list Z) * list Z :=
  let buf := buf ++ data in
  let '(lines, tail) := ctrl_lines (List.length buf) buf in
  (lines, if zlen tail =? CTRL_CAP then [] else tail).
Definition command (s : system) (line : list Z) : system :=
  if bool_decide (line = []) then s else with_rig (fun r => snd (sim_command line r)) s.
Definition turn_ctrl (t : turn) l : loop_state :=
  let l := if n_accept_ctrl t then l <| l_ctrl_sock := true |> else l in
  match n_ctrl t with
  | None => l
  | Some data =>
    if negb (l_ctrl_sock l) then l
    else if bool_decide (data = []) then l <| l_ctrl_sock := false |> <| l_ctrl_buf := [] |>
    else
      let '(lines, buf) := ctrl_feed (l_ctrl_buf l) data in
      l <| l_sys ::= fun s => fold_left command lines s |> <| l_ctrl_buf := buf |>
  end.
Definition one_ms l : loop_state :=
  let now := u32 (l_virt_ms l + 1) in
  let s := tell_server (ATick now) (sim_tick now (l_sys l)) in
  l <| l_virt_ms := now |> <| l_sys := if now mod 4 =? 0 then on_process tx_flush s else s |>.
Definition loop_turn l (t : turn) : loop_state := Nat.iter (n_elapsed t) one_ms (turn_ctrl t (turn_data t l)).

(** ** Start *)
Definition sim_cfg : rbp_server_cfg_t :=
  Cfg (Some RBP_PROFILE_RC003) 64 120000 (map (fun i => u8 (0xA0 + i)) (upto 16)) (Some (cstr "sim 1.0.0")) 1.
(** [seed] is 0x12345678 or the argument of --seed. *)
Definition sim_start (seed : Z) (d : D) : loop_state :=
  let p := Process [] false seed d [] in
  let '(srv, p) :=
    let '(srv, x) := rbp_server_init (E := out_env) sim_cfg (AdSt adapter0 (rig0 p) [] []) in (srv, r_bench (wd x)) in
  let s := sim_init srv p in
  let s := with_rig (fun r => r <| r_remote_bonded := bool_decide (file_load (g_machine (r_bench r)) <> None) |>) s in
  LoopState s false [] 0.
Definition sim_main (seed : Z) (d : D) (turns : list turn) : loop_state :=
  let l := fold_left loop_turn turns (sim_start seed d) in l <| l_sys ::= on_process tx_flush |>.
End statics.
