(* ===== verification/SimProps.v ===== *)
(** * The simulator: the parts fit together

    The simulated remote is a GATT client the adapter is safe with ([HostOk]) and a
    radio the server is safe with ([EnvOk]), so both keep their invariants in every run
    of the simulator.  [rig_ok] is what the remote keeps; a function of the radio keeps
    whatever the parts it is made of keep ([DeckKeeps]). *)
From Stdlib Require Import String.
From S2P Require Import Prelude Defs Frame DeviceModel Faults ServerState ServerCore ServerVoice ServerLink Server ServerInv ServerSafe ServerWorld Hogp Ima Gatt Atvv AdapterState Unicom Adapter AdapterCache AdapterProps AdapterRun AdapterSpecs SimTone SimRemote SimMain.
#[local] Open Scope string_scope.
#[local] Open Scope list_scope.
#[local] Open Scope Z_scope.
#[local] Hint Extern 0 (Kept _) => exact inv_kept : core.

(** ** The remote *)
Record rig_ok {V} (r : rig V) : Prop := {
  ro_queue : Forall gatt_ok (r_event_q r);
  ro_depth : zlen (r_event_q r) <= 64;
  ro_tone : ima_wf (t_ima (r_atvv_tone r));
  ro_battery : Byte (r_battery_level r);
  ro_stream : Byte (r_atvv_stream_id r);
  ro_consumer : Bytes (r_consumer_state r) /\ List.length (r_consumer_state r) = 3%nat;
  (** no call went further than the model follows *)
  ro_beyond : r_beyond r = false }.
(** An update of other fields. *)
Ltac rig_frame :=
  match goal with H : rig_ok _ |- rig_ok _ => destruct H as [Hr1 Hr2 Hr3 Hr4 Hr5 Hr6 Hr7]; constructor;
    [try exact Hr1|try exact Hr2|try exact Hr3|try exact Hr4|try exact Hr5|try exact Hr6|try exact Hr7] end.
Create HintDb sim.

Section remote.
Context {V : Type} `{B : Bench V}.
Implicit Types r : rig V.

Lemma rig0_ok (v : V) : rig_ok (rig0 v).
Proof. constructor; try done; by apply (bool_decide_unpack _); vm_compute. Qed.
Lemma enqueue_ok e r : gatt_ok e -> rig_ok r -> rig_ok (enqueue_event e r).
Proof.
  intros He H. unfold enqueue_event. split_if; [by rig_frame|]. apply orb_false_iff in E as [E _].
  rig_frame; cbn; [apply Forall_app; by repeat constructor|]. pose proof (zlen_app (r_event_q r) [e]).
  change (zlen [e]) with 1 in *. lia.
Qed.
Lemma notify_ok h data r : Bytes data -> rig_ok r -> rig_ok (sim_remote_notify h data r).
Proof. intros Hd. by apply enqueue_ok. Qed.
Lemma emit_ok line r : rig_ok r -> rig_ok (emit line r).
Proof. intros H. by rig_frame. Qed.
#[local] Hint Resolve enqueue_ok notify_ok emit_ok : sim.
#[local] Hint Extern 0 (gatt_ok _) => exact I : sim.
#[local] Hint Extern 0 (Bytes _) => by apply (bool_decide_unpack _); vm_compute : sim.

Lemma low_byte x : Byte (Z.land x 0xFF).
Proof. change 0xFF with (Z.ones 8). rewrite Z.land_ones by lia. apply Z.mod_pos_bound. lia. Qed.
Lemma bytes3 a b c : Byte a -> Byte b -> Byte c -> Bytes [a; b; c].
Proof. intros. by repeat apply List.Forall_cons. Qed.
Lemma fold_rig_ok {A} (f : rig V -> A -> rig V) (l : list A) : (forall r a, a ∈ l -> rig_ok r -> rig_ok (f r a)) ->
  forall r, rig_ok r -> rig_ok (fold_left f l r).
Proof.
  induction l as [|a l IH]; intros Hf r Hr; cbn; [done|]. apply IH; [|apply Hf; [set_solver|done]]. intros. apply Hf; set_solver.
Qed.
Lemma atvv_uuid_bytes uuid : atvv_decl uuid <> 0 -> Bytes (take 16 uuid).
Proof.
  unfold atvv_decl. destruct (bool_decide (take 12 uuid = take 12 k_atvv_base)) eqn:E; [|done].
  apply bool_decide_eq_true in E.
  do 16 (destruct uuid as [|? uuid]; [first [discriminate E|cbn; rewrite ?andb_false_r; done]|]).
  cbn in E. injection E as -> -> -> -> -> -> -> -> -> -> -> ->. unfold znth. cbn [nth Z.to_nat Pos.to_nat].
  repeat (case_match; try done); intros _; rewrite ?andb_true_iff, ?Z.eqb_eq in *; destruct_and?; simplify_eq/=;
    repeat (constructor; [unfold Byte; lia|]); constructor.
Qed.
Lemma voice_open_ok r : rig_ok r -> rig_ok (voice_open r).
Proof. intros H. unfold voice_open. apply notify_ok, notify_ok; auto with sim. rig_frame; cbn; by apply (bool_decide_unpack _); vm_compute. Qed.
#[local] Hint Resolve voice_open_ok : sim.
Lemma write_ok h val command r : rig_ok r -> rig_ok (snd (g_write_common h val command r)).
Proof.
  intros H. unfold g_write_common. cbv zeta.
  assert (forall r, rig_ok r -> rig_ok (snd (0, if command : bool then r else enqueue_event WRITE_DONE r))) as Hd
    by (intros r' Hr; cbn; destruct command; auto with sim).
  repeat first [apply Hd|split_if]; auto with sim; try (by rig_frame); try (apply emit_ok; by rig_frame).
  unfold voice_command. repeat split_if; auto with sim. by rig_frame.
Qed.
Lemma k_gatt_ok o r : rig_ok r -> rig_ok (snd (k_gatt o r)).
Proof.
  intros H. destruct o; cbn [k_gatt snd]; auto with sim.
  - unfold g_exchange_mtu. auto with sim.
  - unfold g_disc_service_by_uuid16. cbv zeta. repeat split_if; auto with sim.
  - unfold g_disc_service_by_uuid128. split_if; auto with sim.
  - unfold g_read_chars_by_uuid16. cbv zeta. apply enqueue_ok; [done|]. apply fold_rig_ok; [|done]. intros r' [[decl val] u] Hin Hr.
    repeat split_if; auto. apply enqueue_ok; [|done]. cbn.
    apply bytes3; [done|apply low_byte|apply u8_byte].
  - unfold g_read_chars_by_uuid128. cbv zeta. split_if; [auto with sim|]. apply enqueue_ok; [done|]. apply enqueue_ok; [|done].
    apply orb_false_iff in E as [E _]. apply orb_false_iff in E as [E _]. cbn [gatt_ok]. apply Forall_app. split.
    + apply bytes3; [by split_if|apply low_byte|apply u8_byte].
    + apply atvv_uuid_bytes. lia.
  - unfold g_disc_char_descs. cbv zeta. apply enqueue_ok; [done|]. apply fold_rig_ok; [|done]. intros r' [h u] Hin Hr.
    split_if; [done|]. apply enqueue_ok; [|done].
    assert (Forall (fun x => U16 (fst x)) db_descs) as Hf by by apply (bool_decide_unpack _); vm_compute.
    rewrite List.Forall_forall in Hf. apply list_elem_of_In in Hin. exact (Hf _ Hin).
  - unfold g_read_value. repeat split_if; auto with sim; apply enqueue_ok; auto with sim; try (by apply (bool_decide_unpack _); vm_compute).
    constructor; [apply H|constructor].
  - by apply write_ok.
  - by apply write_ok.
Qed.

(** *** Voice *)
Lemma send_frame_ok r : rig_ok r -> rig_ok (atvv_send_frame r).
Proof.
  intros H. unfold atvv_send_frame. destruct (atvv_frame_ok _ (ro_tone _ H)) as [Hb Hw].
  destruct (atvv_frame (r_atvv_tone r)) as [frame t]. apply notify_ok; [exact Hb|]. rig_frame. exact Hw.
Qed.
Lemma sync_bytes r : rig_ok r -> Bytes (sync_message r).
Proof.
  intros H. pose proof (ro_tone _ H) as [_ Hi]. unfold sync_message. cbv zeta.
  repeat apply List.Forall_cons; try done; try apply u8_byte; try apply low_byte. unfold Byte. lia.
Qed.
Lemma voice_turn_ok now r : rig_ok r -> rig_ok (snd (voice_turn now r)).
Proof.
  intros H. unfold voice_turn. set (r1 := if _ && _ && _ then _ else _).
  assert (rig_ok r1) as H1 by (subst r1; split_if; [apply notify_ok; [by apply sync_bytes|done]|done]). clearbody r1. cbv zeta.
  assert (rig_ok (atvv_send_frame r1)) as H2 by by apply send_frame_ok. revert H2. generalize (atvv_send_frame r1). intros r2 H2.
  set (r3 := r2 <| r_atvv_frame_counter ::= _ |> <| r_atvv_frames_since_sync ::= _ |>). assert (rig_ok r3) as H3 by by rig_frame.
  clearbody r3. set (r4 := if _ <=? _ then _ else _). assert (rig_ok r4) as H4 by (subst r4; split_if; [by rig_frame|done]). clearbody r4.
  split_if; cbn [snd]; [|by rig_frame]. apply emit_ok.
  match goal with |- rig_ok (sim_remote_notify ?h ?d ?x <| _ := _ |> <| _ := _ |> <| _ := _ |>) =>
    assert (rig_ok (sim_remote_notify h d x)) as Hn by (apply notify_ok; [auto with sim|by rig_frame]) end. by rig_frame.
Qed.
(** A turn that goes on makes the queue longer or ends the program. *)
Lemma enqueue_grows e r : r_aborted (enqueue_event e r) = true \/
  r_aborted (enqueue_event e r) = r_aborted r /\ zlen (r_event_q (enqueue_event e r)) = zlen (r_event_q r) + 1.
Proof.
  unfold enqueue_event. split_if; [by left|]. right. split; [done|]. cbn. rewrite zlen_app. done.
Qed.
Lemma voice_turn_grows now r r' : voice_turn now r = (false, r') ->
  r_aborted r' = true \/ zlen (r_event_q r) < zlen (r_event_q r').
Proof.
  unfold voice_turn. set (r1 := if _ && _ && _ then _ else _). cbv zeta.
  assert (r_aborted r1 = true \/ zlen (r_event_q r) <= zlen (r_event_q r1)) as H1.
  { subst r1. split_if; [|right; lia]. destruct (enqueue_grows (NOTIFY H_ATVV_CTL_VAL (sync_message r)) r) as [H|[_ H]]; [by left|].
    right. unfold sim_remote_notify. lia. }
  clearbody r1. unfold atvv_send_frame. destruct (atvv_frame (r_atvv_tone r1)) as [frame t].
  pose proof (enqueue_grows (NOTIFY H_ATVV_AUD_VAL frame) (r1 <| r_atvv_tone := t |>)) as H2. fold (sim_remote_notify H_ATVV_AUD_VAL frame (r1 <| r_atvv_tone := t |>)) in H2.
  revert H2. generalize (sim_remote_notify H_ATVV_AUD_VAL frame (r1 <| r_atvv_tone := t |>)). intros r2 H2.
  intros E. assert (r_aborted r' = r_aborted r2 /\ r_event_q r' = r_event_q r2) as [-> ->].
  { revert E. destruct (20 <=? _); (split_if; [discriminate|]); by intros [= <-]. }
  cbn in H2. destruct H2 as [H2|[-> H2]]; [by left|]. destruct H1 as [H1|H1]; [by left|right; lia].
Qed.
Lemma voice_loop_total now : forall fuel r, rig_ok r -> (Z.to_nat (65 - zlen (r_event_q r)) < fuel)%nat \/ (r_aborted r = true /\ (0 < fuel)%nat) ->
  exists r', voice_loop fuel now r = Some r' /\ rig_ok r'.
Proof.
  induction fuel as [|fuel IH]; intros r Hr Hf; [lia|]. cbn [voice_loop].
  destruct (r_aborted r) eqn:Ea; [by eexists|]. split_if; [by eexists|].
  pose proof (voice_turn_ok now r Hr) as Ht. pose proof (voice_turn_grows now r) as Hg. destruct (voice_turn now r) as [[] r']; [by eexists|].
  apply IH; [done|]. destruct Hf as [Hf|[Hf _]]; [|done]. pose proof (ro_depth _ Hr). pose proof (ro_depth _ Ht). cbn [snd] in *.
  pose proof (zlen_nonneg (r_event_q r)). destruct (Hg r' eq_refl) as [Hq|Hq]; [right; split; [done|lia]|left; lia].
Qed.
Lemma sim_voice_ok now r : rig_ok r -> rig_ok (sim_voice now r).
Proof.
  intros H. unfold sim_voice. split_if; [|done]. pose proof (zlen_nonneg (r_event_q r)).
  destruct (voice_loop_total now voice_fuel r H) as (r' & -> & Hr); [left; unfold voice_fuel; lia|done].
Qed.
Lemma sim_battery_ok r : rig_ok r -> rig_ok (sim_battery r).
Proof.
  intros H. unfold sim_battery. split_if; [|done]. apply notify_ok; [|by rig_frame]. constructor; [apply H|constructor].
Qed.

(** *** Commands *)
Lemma mic_on_ok r : rig_ok r -> rig_ok (mic_on r).
Proof.
  intros H. unfold mic_on. split_if; [done|]. cbv zeta. apply emit_ok.
  match goal with |- context [r_subscribed_ctl ?x] => assert (rig_ok x) as Hx end.
  { rig_frame; cbn; [by apply (bool_decide_unpack _); vm_compute|apply u8_byte]. }
  split_if; [|done]. apply notify_ok; [auto with sim|]. apply notify_ok; [|done]. pose proof (ro_stream _ Hx). repeat apply List.Forall_cons; done.
Qed.
Lemma key_report_ok press kc r : rig_ok r -> rig_ok (key_report press kc r).
Proof.
  intros H. unfold key_report. cbv zeta. split_if; [|by rig_frame]. apply notify_ok; [|by rig_frame].
  pose proof (u8_byte kc). repeat apply List.Forall_cons; try done. by destruct press.
Qed.
Lemma consumer_report_ok r : rig_ok r -> rig_ok (consumer_report r).
Proof. intros H. unfold consumer_report. split_if; [|done]. apply notify_ok; [apply H|done]. Qed.
Lemma sim_command_ok line r : rig_ok r -> rig_ok (snd (sim_command line r)).
Proof.
  intros H. unfold sim_command. destruct (scan_word 31 (skip_spaces line)) as [cmd rest].
  destruct (scan_word 31 (skip_spaces rest)) as [arg ?]. cbv zeta.
  repeat (case_match; cbn [snd]; try done; try (by rig_frame)); auto using key_report_ok, mic_on_ok, consumer_report_ok;
    try (apply consumer_report_ok); rig_frame; cbn; try apply u8_byte; try done.
  - destruct Hr6 as [Hc Hl]. split; [|by rewrite length_insert]. apply Forall_insert; [done|apply u8_byte].
  - split; [auto with sim|done].
Qed.
End remote.

(** ** The radio

    [P] is kept by every function of the radio when the parts keep it. *)
Class BenchOk V (B : Bench V) : Prop := bench_out data v : 0 <= fst (tx_sink data v) <= zlen data.
Definition radio_tells (a : api) : Prop :=
  match a with ALink _ _ _ | APairDone _ _ _ _ | APairPrompt _ _ _ | AForgetDone _ _ => True | AScanCandidate c => c = sim_candidate | _ => False end.
Class DeckQuiet {V S} (K : Deck V S) (P : S -> Prop) : Prop := {
  dk_rig f s : (forall r, rig_ok r -> rig_ok (f r)) -> P s -> P (on_rig f s);
  dk_detach s : P s -> P (adapter_detach s);
  dk_mic_stop s : P s -> P (adapter_mic_stop s) }.
Class DeckKeeps {V S} (K : Deck V S) (P : S -> Prop) : Prop := {
  dk_quiet :: DeckQuiet K P;
  dk_tell a s : radio_tells a -> P s -> P (tell a s);
  dk_start now s : P s -> P (adapter_start now s) }.
Section radio.
Context {V S : Type} `{B : Bench V} {K : Deck V S} {P : S -> Prop} `{HQ : !DeckQuiet K P}.
Implicit Types s : S.
#[local] Hint Extern 1 (P (adapter_detach _)) => apply dk_detach : sim.
#[local] Hint Extern 1 (P (on_rig _ _)) => apply dk_rig; [intros; by rig_frame|] : sim.
Lemma rb_pair_cancel_keeps s : P s -> P (rb_pair_cancel s).
Proof. intros H. unfold rb_pair_cancel. by auto with sim. Qed.
Lemma rb_voice_request_stop_keeps s : P s -> P (rb_voice_request_stop s).
Proof.
  intros H. unfold rb_voice_request_stop. cbv zeta. apply dk_rig; [|by apply dk_mic_stop]. intros r Hr. split_if; [|done].
  assert (rig_ok (sim_remote_notify H_ATVV_CTL_VAL [0; 0] r)) by (apply notify_ok; [by apply (bool_decide_unpack _); vm_compute|done]).
  by rig_frame.
Qed.
Lemma rb_pair_reply_keeps a h k s : P s -> P (rb_pair_reply a h k s).
Proof. intros H. unfold rb_pair_reply. cbv zeta. split_if; by auto with sim. Qed.
Lemma rb_disconnect_keeps s : (forall a s, radio_tells a -> P s -> P (tell a s)) -> P s -> P (rb_disconnect s).
Proof. intros Ht H. unfold rb_disconnect. cbv zeta. apply Ht; [done|]. by auto 6 with sim. Qed.
Context `{HK : !DeckKeeps K P}.
#[local] Hint Extern 1 (P (tell _ _)) => apply dk_tell; [done|] : sim.
#[local] Hint Extern 1 (P (adapter_start _ _)) => apply dk_start : sim.
Lemma rb_start_find_keeps d s : P s -> P (snd (rb_start_find d s)).
Proof. intros H. unfold rb_start_find. cbn [snd]. split_if; [|done]. by apply dk_tell. Qed.
Lemma rb_pair_begin_keeps c s : P s -> P (rb_pair_begin c s).
Proof.
  intros H. unfold rb_pair_begin. destruct (sim_allocate_peer_id _) as [id v]. cbv zeta. split_if; [by auto with sim|].
  split_if; [by auto 6 with sim|]. split_if; by auto 8 with sim.
Qed.
Lemma rb_forget_peer_keeps s : P s -> P (rb_forget_peer s).
Proof. intros H. unfold rb_forget_peer. cbv zeta. apply dk_tell; [done|]. apply dk_rig; [|done]. intros r Hr. cbn. split_if; by rig_frame. Qed.
Lemma rb_connect_peer_keeps s : P s -> P (rb_connect_peer s).
Proof. intros H. unfold rb_connect_peer. cbv zeta. split_if; [done|]. by auto 8 with sim. Qed.
End radio.

(** ** The environments *)
Definition wf_calm (srv0 srv : rbp_server) : Prop := server_wf srv /\ calm srv0 srv.
Definition leads {X} (R : X -> Prop) : relation X := fun x x' => R x -> R x'.
#[export] Instance leads_preorder {X} (R : X -> Prop) : PreOrder (leads R).
Proof. split; [intros x Hx; exact Hx|]. intros x y z H1 H2 H. by apply H2, H1. Qed.
Section environment.
Context {V X : Type} `{B : Bench V}.
Lemma env_of_quiet (K : Deck V (rbp_server * X)) get put start (R : X -> Prop) : DeckQuiet K (fun x => R (snd x)) ->
  (forall v x, R x -> R (put v x)) -> EnvQuiet X (env_of K get put start) (leads R).
Proof.
  intros HK Hp.
  assert (forall A (f : V -> A * V) x, leads R x (snd (on_bench get put f x))) as Hb.
  { intros A f x Hx. unfold on_bench. destruct (f (get x)). by apply Hp. }
  constructor; try (intros f [= <-]; intros; apply Hb); try (intros; apply Hb).
  - intros x. exact id.
  - intros x. exact (rb_pair_cancel_keeps (P := fun x => R (snd x)) x).
  - intros x. exact (rb_voice_request_stop_keeps (P := fun x => R (snd x)) x).
Qed.
Lemma sim_env_tends (K : Deck V (rbp_server * X)) get put start (R : X -> Prop) : DeckKeeps K (fun x => R (snd x)) ->
  (forall v x, R x -> R (put v x)) -> (forall srv x, R x -> R (snd (start srv x))) ->
  EnvTends X (env_of K get put start) (leads R).
Proof.
  intros HK Hp Hs. constructor; [by apply env_of_quiet; [apply dk_quiet|]|..].
  - intros d x. exact (rb_start_find_keeps (P := fun x => R (snd x)) d x).
  - intros c x. exact (rb_pair_begin_keeps (P := fun x => R (snd x)) c x).
  - intros a h k x. exact (rb_pair_reply_keeps (P := fun x => R (snd x)) a h k x).
  - intros x. exact (rb_forget_peer_keeps (P := fun x => R (snd x)) x).
  - intros x. exact (rb_connect_peer_keeps (P := fun x => R (snd x)) x).
  - intros x. exact (rb_disconnect_keeps (P := fun x => R (snd x)) x dk_tell).
  - intros f [= <-] srv x. exact (Hs srv x).
Qed.
Lemma sim_env_of_ok `{!BenchOk V B} (K : Deck V (rbp_server * X)) get put start :
  (forall srv0, DeckKeeps K (fun x => wf_calm srv0 (fst x))) -> EnvOk X (env_of K get put start).
Proof.
  intros HK. assert (forall f : rbp_server * X -> rbp_server * X,
    (forall srv0 x, wf_calm srv0 (fst x) -> wf_calm srv0 (fst (f x))) -> keeps calm (ServerState.call f)) as Hc.
  { intros f Hf srv Hw x. apply (Hf srv (srv, x)). split; [done|]. cbn. reflexivity. }
  constructor; try (intros; apply Hc; intros srv0 x).
  - intros d srv Hw x. apply (rb_start_find_keeps (P := fun x => wf_calm srv (fst x)) d (srv, x)). split; [done|]. cbn. reflexivity.
  - exact id.
  - apply (rb_pair_begin_keeps (P := fun x => wf_calm srv0 (fst x))).
  - apply (rb_pair_reply_keeps (P := fun x => wf_calm srv0 (fst x))).
  - apply (rb_pair_cancel_keeps (P := fun x => wf_calm srv0 (fst x))).
  - apply (rb_forget_peer_keeps (P := fun x => wf_calm srv0 (fst x))).
  - apply (rb_connect_peer_keeps (P := fun x => wf_calm srv0 (fst x))).
  - exact (rb_disconnect_keeps (P := fun x => wf_calm srv0 (fst x)) x dk_tell).
  - apply (rb_voice_request_stop_keeps (P := fun x => wf_calm srv0 (fst x))).
  - intros data x. cbn. unfold on_bench. pose proof (bench_out data (get x)). by destruct (tx_sink data (get x)).
Qed.
Lemma api_calm (E : Env X) `{!EnvOk X E} a srv0 x : api_ok a -> api_rel a = calm -> wf_calm srv0 (fst x) ->
  wf_calm srv0 (fst (exec (run_api (E := E) a) x)).
Proof.
  intros Ha Hr [Hw Hc]. destruct x as [srv x]. destruct (api_step (E := E) a srv x Ha Hw) as [H1 H2]. rewrite Hr in H2.
  split; [exact H1|]. etrans; [exact Hc|exact H2].
Qed.
Lemma radio_api a : radio_tells a -> api_ok a /\ api_rel a = calm /\ radio_call a = true.
Proof. destruct a; try done. intros ->. split; [|done]. by apply (bool_decide_unpack _); vm_compute. Qed.
End environment.

(** ** The adapter's surroundings *)
Section inside.
Context {V : Type} `{B : Bench V}.
Abbreviation world := (rbp_server * rig V)%type.

Lemma in_deck_quiet (reply : api -> world -> world) : DeckQuiet (in_deck reply) (fun x => rig_ok (snd x)).
Proof. constructor; cbn; [by intros f s Hf; apply Hf|intros s H; by rig_frame..]. Qed.
Lemma in_env_quiet (reply : api -> world -> world) : EnvQuiet (rig V) (in_env_of reply) (leads rig_ok).
Proof. apply env_of_quiet; [apply in_deck_quiet|intros v r H; by rig_frame]. Qed.
Lemma in_deck_wf (reply : api -> world -> world) srv0 : (forall a x, radio_tells a -> wf_calm srv0 (fst x) -> wf_calm srv0 (fst (reply a x))) ->
  DeckKeeps (in_deck reply) (fun x => wf_calm srv0 (fst x)).
Proof. intros Hr. by constructor; [constructor|..]. Qed.
#[export] Instance in_env_ok `{!BenchOk V B} : EnvOk (rig V) in_env.
Proof.
  assert (EnvOk (rig V) in_env0) as H0 by (apply sim_env_of_ok; intros srv0; by apply in_deck_wf).
  apply sim_env_of_ok. intros srv0. apply in_deck_wf. intros a x Ha. destruct (radio_api a Ha) as (Hok & Hr & _). by apply api_calm.
Qed.
(** Only a failure drops the link. *)
Definition stays (r : rig V) : Prop := Detach ∉ r_asked r.
Lemma in_env_stays : EnvQuiet (rig V) in_env (leads stays).
Proof.
  constructor; try (intros f [= <-]; intros; unfold on_bench); try (intros; cbn; unfold on_bench);
    try (match goal with |- context [let '(_, _) := ?t in _] => destruct t end; exact id).
  - intros x. exact id.
  - intros x. exact id.
  - intros x Hx. unfold stays in *.
    assert (forall r : rig V, Detach ∉ r_asked r -> Detach ∉ r_asked (if r_atvv_stream_active r && r_subscribed_ctl r
      then sim_remote_notify H_ATVV_CTL_VAL [0; 0] r <| r_atvv_stream_active := false |> <| r_mic_on := false |> else r)) as Hn.
    { intros r Hr. split_if; [|done]. unfold sim_remote_notify, enqueue_event. by destruct (_ || _). }
    apply (Hn (snd (request Mic_stop x))). cbn. set_solver.
Qed.
#[export] Instance sim_host_ok : HostOk world sim_host.
Proof.
  intros c w Hc. cbn. unfold sim_served.
  pose proof in_env_stays as Hq. assert (radio_call c = true) as Hr by by destruct c.
  pose proof (tends_radio (E := in_env) (T := leads stays) c Hr (fst w, snd w <| r_asked := [] |>)) as H.
  unfold exec. destruct (snd (run_api c _)) as [srv r]. cbn in H |- *. apply H. unfold stays. cbn. set_solver.
Qed.

(** What a call of the adapter keeps of the server. *)
Definition adapter_tells (a : api) : bool :=
  match a with AVoice _ _ | AVoiceState _ _ _ | ALink _ _ _ | ABattery _ _ | ASetProfile _ | AKeys _ | AVoiceCaps _ | AAdapterFailed _ => true | _ => false end.
Class Lasting (Q : rbp_server -> Prop) : Prop :=
  lasts a x : adapter_tells a = true -> Q (fst x) -> Q (fst (exec (run_api (E := in_env) a) x)).
#[export] Instance lasting_true : Lasting (fun _ => True).
Proof. done. Qed.
#[export] Instance lasting_wf `{!BenchOk V B} srv0 : Lasting (wf_calm srv0).
Proof. intros a x Ha Hx. apply (api_calm in_env); [by destruct a..|exact Hx]. Qed.
Lemma served_lasts Q `{!Lasting Q} a w : adapter_tells a = true -> Q (fst w) -> Q (fst (snd (sim_served a w))).
Proof.
  intros Ha Hw. unfold sim_served. pose proof (lasts a (fst w, snd w <| r_asked := [] |>) Ha Hw) as H.
  by destruct (exec (run_api a) _) as [srv r].
Qed.
Lemma adapter_api_rig a : adapter_tells a = true -> tends (leads rig_ok) (run_api (E := in_env) a).
Proof.
  intros Ha. pose proof (in_env_quiet (fun a s => exec (run_api (E := in_env0) a) s)) as Hq. change (in_env_of _) with in_env in Hq.
  destruct (radio_call a) eqn:Hr; [by apply tends_radio|]. destruct a; try done. apply tends_adapter_failed. intros x.
  pose proof (in_deck_quiet (fun a s => exec (run_api (E := in_env0) a) s)) as Hd.
  refine (rb_disconnect_keeps (P := fun x => rig_ok (snd x)) x _). intros a s Hs. destruct (radio_api a Hs) as (_ & _ & Hc).
  pose proof (in_env_quiet (fun _ s => (fst s, beyond (snd s)))). exact (tends_radio (E := in_env0) (T := leads rig_ok) a Hc s).
Qed.
Lemma served_rig a w : adapter_tells a = true -> rig_ok (snd w) -> rig_ok (snd (snd (sim_served a w))).
Proof.
  intros Ha Hw. unfold sim_served. pose proof (adapter_api_rig a Ha (fst w, snd w <| r_asked := [] |>)) as H.
  unfold exec. destruct (snd (run_api a _)) as [srv r]. cbn in H |- *. assert (rig_ok r) by (apply H; by rig_frame). by rig_frame.
Qed.
(** What the adapter knows of the world: the keys it told, the rig, and [Q]. *)
Definition sim_known (Q : rbp_server -> Prop) `{!Lasting Q} : WorldInv world sim_host.
Proof.
  refine {| known b l w := told l = b /\ rig_ok (snd w) /\ Q (fst w) |}.
  - intros b l w o rc w' Hg (Hb & Hr & Hq). cbn in Hg. pose proof (k_gatt_ok o (snd w) Hr) as Ho.
    destruct (k_gatt o (snd w)) as [rc' r']. injection Hg as <- <-. rewrite told_snoc. by split_and!.
  - intros b l w c Hc (Hb & Hr & Hq). assert (adapter_tells c = true) as Ha by (destruct Hc as [Hc|[m ->]]; [by destruct c|done]).
    rewrite told_snoc. split; [|split; [exact (served_rig c w Ha Hr)|exact (served_lasts Q c w Ha Hq)]].
    destruct Hc as [Hc|[m ->]]; [|done]. by destruct c.
  - intros b l w bits now (Hb & Hr & Hq). rewrite told_snoc. split; [done|]. split; [exact (served_rig (AKeys (keys_report bits now)) w eq_refl Hr)|exact (served_lasts Q (AKeys (keys_report bits now)) w eq_refl Hq)].
  - intros b l w c (Hb & Hr & Hq). rewrite told_snoc. split; [done|]. split; [done|]. exact (lasts (AVoiceCaps (Some c)) w eq_refl Hq).
  - intros b l w (Hb & Hr & Hq). rewrite told_snoc. by split.
Defined.
End inside.

(** ** The server's surroundings *)
Section outside.
Context {V : Type} `{B : Bench V}.
Abbreviation world := (rbp_server * rig V)%type.
Implicit Types (s : adst world) (x : rbp_server * adst (rig V)).
Definition server_in s : rbp_server := fst (wd s).
Lemma sim_joined_parted s : joined (parted s) = s.
Proof. by destruct s as [a [srv r] l1 l2]. Qed.
Lemma parted_joined x : parted (joined x) = x.
Proof. by destruct x as [srv [a r l1 l2]]. Qed.

(** *** The server while the adapter is driven *)
Section driven.
Context (Q : rbp_server -> Prop) `{!Lasting Q}.
Lemma init_lasts s : Q (server_in s) -> Q (server_in (rc003_adapter_init s)).
Proof. intros H. exact (lasts (AVoiceCaps (Some rc003_caps)) (wd s) eq_refl H). Qed.
Lemma detach_lasts s : Q (server_in s) -> Q (server_in (rc003_adapter_detach s)).
Proof. intros H. unfold rc003_adapter_detach. split_if; [done|by apply init_lasts]. Qed.
Lemma gop_server o s : server_in (snd (gop o s)) = server_in s.
Proof. unfold gop. cbn. by destruct (k_gatt o (snd (wd s))). Qed.
Lemma mic_stop_server s : server_in (snd (rc003_adapter_mic_stop s)) = server_in s.
Proof.
  unfold rc003_adapter_mic_stop. split_if; [cbn; unfold unicom_stop; by split_if|]. split_if; [done|].
  unfold with_engine, rc003_atvv_request_stop. cbv zeta. split_if; [by split_if|]. split_if; [done|]. split_if; [done|].
  unfold submit. cbn. unfold atvv_write_tx. split_if; [done|].
  match goal with |- context [gop ?o s] => pose proof (gop_server o s) as Hg; destruct (gop o s) as [rc s'] end. cbn in Hg |- *.
  by split_if.
Qed.
Lemma serve_lasts a s : adapter_tells a = true -> Q (server_in s) -> Q (server_in (AdapterState.serve a s)).
Proof.
  intros Ha H. unfold AdapterState.serve. pose proof (served_lasts Q a (wd s) Ha H) as Hs. cbn. destruct (sim_served a (wd s)) as [rs w]. cbn in Hs.
  assert (forall rs s', Q (server_in s') -> Q (server_in (fold_left carry_out rs s'))) as Hf; [|by apply Hf].
  clear -Lasting0. intros rs. induction rs as [|q rs IH]; intros s' H'; cbn [fold_left]; [done|]. apply IH. destruct q; cbn [carry_out]; [|by apply detach_lasts].
  by rewrite mic_stop_server.
Qed.
Lemma start_lasts now s : Q (server_in s) -> Q (server_in (rc003_adapter_start now s)).
Proof.
  intros H. unfold rc003_adapter_start, rc003_adapter_start_bound. cbn [Z.eqb negb andb].
  match goal with |- context [AdapterState.serve ?a ?x] => assert (Q (server_in (AdapterState.serve a x))) as Hs by (apply serve_lasts; [done|by apply init_lasts]);
    revert Hs; generalize (AdapterState.serve a x) end.
  intros s1 Hs. unfold begin_next, begin_fuel. cbn [begin_loop]. cbn. done.
Qed.
End driven.

End outside.

#[local] Strategy 1000 [rc003_adapter_start_bound rc003_adapter_detach rc003_adapter_mic_stop rc003_adapter_mic_start
  adapter_on_gatt rc003_adapter_tick].
Section steps.
Context {W : Type} `{H : Host W}.
Implicit Types s : adst W.
Lemma step_start s now : adapter_step s (C_start now 0) = rc003_adapter_start now s.
Proof. reflexivity. Qed.
Lemma step_detach s : adapter_step s C_detach = rc003_adapter_detach s.
Proof. reflexivity. Qed.
Lemma step_mic_stop s : adapter_step s C_mic_stop = snd (rc003_adapter_mic_stop s).
Proof. reflexivity. Qed.
Lemma step_mic_start s : adapter_step s C_mic_start = snd (rc003_adapter_mic_start s).
Proof. reflexivity. Qed.
Lemma step_gatt s e : adapter_step s (C_gatt e) = adapter_on_gatt e s.
Proof. reflexivity. Qed.
Lemma step_tick s now : adapter_step s (C_tick now) = rc003_adapter_tick now s.
Proof. reflexivity. Qed.
End steps.

Section outside.
Context {V : Type} `{B : Bench V}.
Abbreviation world := (rbp_server * rig V)%type.
Implicit Types (s : adst world) (x : rbp_server * adst (rig V)).
(** *** The adapter and the rig, whatever the server is *)
Definition rest_ok (x : adst (rig V)) : Prop :=
  adapter_ok (ad x) /\ inv (a_atvv (ad x)) (evs x) /\ told (acts x) = a_pressed_bits (ad x) /\ rig_ok (wd x).
Abbreviation safe_with Q := (safeI (WorldInv0 := sim_known Q) inv).
Lemma safe_split Q `{!Lasting Q} s : safe_with Q s <-> rest_ok (snd (parted s)) /\ Q (server_in s).
Proof. unfold safeI, world_ok, rest_ok. cbn. tauto. Qed.
Lemma step_rest c s : adapter_call_ok c -> match c with C_world _ => False | _ => True end ->
  rest_ok (snd (parted s)) -> rest_ok (snd (parted (adapter_step s c))).
Proof.
  intros Hc Hw Hs. apply (safe_split (fun _ => True)). apply safe_step; [done|by destruct c|]. by apply safe_split.
Qed.
Lemma start_rest now x : rest_ok (snd x) -> rest_ok (snd (parted (rc003_adapter_start now (joined x)))).
Proof.
  intros H. rewrite <- (parted_joined x) in H. apply (step_rest (C_start now 0) (joined x) I I) in H. by rewrite step_start in H.
Qed.
Lemma detach_rest x : rest_ok (snd x) -> rest_ok (snd (parted (rc003_adapter_detach (joined x)))).
Proof.
  intros H. rewrite <- (parted_joined x) in H. apply (step_rest C_detach (joined x) I I) in H. by rewrite step_detach in H.
Qed.
Lemma mic_stop_rest x : rest_ok (snd x) -> rest_ok (snd (parted (snd (rc003_adapter_mic_stop (joined x))))).
Proof.
  intros H. rewrite <- (parted_joined x) in H. apply (step_rest C_mic_stop (joined x) I I) in H. by rewrite step_mic_stop in H.
Qed.
Lemma out_deck_quiet (reply : api -> rbp_server * adst (rig V) -> rbp_server * adst (rig V)) : DeckQuiet (out_deck reply) (fun x => rest_ok (snd x)).
Proof.
  constructor; cbn [on_rig tell adapter_start adapter_detach adapter_mic_stop out_deck].
  - intros f [srv x] Hf (H1 & H2 & H3 & H4). split_and!; try done. by apply Hf.
  - exact detach_rest.
  - exact mic_stop_rest.
Qed.
Lemma put_rest v (x : adst (rig V)) : rest_ok x -> rest_ok (x <| wd := wd x <| r_bench := v |> |>).
Proof. intros (H1 & H2 & H3 & H4). split_and!; try done. cbn. by rig_frame. Qed.
Lemma out_deck_rest (reply : api -> rbp_server * adst (rig V) -> rbp_server * adst (rig V)) : (forall a, radio_tells a -> forall x, rest_ok (snd x) -> rest_ok (snd (reply a x))) ->
  DeckKeeps (out_deck reply) (fun x => rest_ok (snd x)).
Proof.
  intros Hr. constructor; cbn [on_rig tell adapter_start adapter_detach adapter_mic_stop out_deck].
  - apply out_deck_quiet.
  - intros a x Ha. by apply Hr.
  - exact start_rest.
Qed.
Lemma out_reply_rest E `{!EnvQuiet (adst (rig V)) E (leads rest_ok)} a x : radio_tells a -> rest_ok (snd x) ->
  rest_ok (snd (exec (run_api (E := E) a) x)).
Proof. intros Ha. destruct (radio_api a Ha) as (_ & _ & Hr). exact (tends_radio (T := leads rest_ok) a Hr x). Qed.
#[export] Instance out_env_rest : EnvTends (adst (rig V)) out_env (leads rest_ok).
Proof.
  assert (EnvQuiet (adst (rig V)) out_env0 (leads rest_ok)) by (apply env_of_quiet; [apply out_deck_quiet|apply put_rest]).
  apply sim_env_tends; [|apply put_rest|].
  - apply out_deck_rest. intros a Ha x. by apply out_reply_rest.
  - intros srv x Hx. unfold rb_voice_request_start. pose proof (step_rest C_mic_start (joined (srv, x)) I I) as H1.
    rewrite parted_joined in H1. specialize (H1 Hx). rewrite step_mic_start in H1. by destruct (rc003_adapter_mic_start (joined (srv, x))).
Qed.

Context `{!BenchOk V B}.
Lemma out_deck_wf (reply : api -> rbp_server * adst (rig V) -> rbp_server * adst (rig V)) srv0 : (forall a x, radio_tells a -> wf_calm srv0 (fst x) -> wf_calm srv0 (fst (reply a x))) ->
  DeckKeeps (out_deck reply) (fun x => wf_calm srv0 (fst x)).
Proof.
  intros Hr. constructor; [constructor|..]; cbn [on_rig tell adapter_start adapter_detach adapter_mic_stop out_deck].
  - done.
  - intros x. exact (detach_lasts (wf_calm srv0) (joined x)).
  - intros x Hx. pose proof (mic_stop_server (joined x)) as H. unfold server_in in H. cbn in H |- *. by rewrite H.
  - done.
  - intros now x. exact (start_lasts (wf_calm srv0) now (joined x)).
Qed.
Lemma out_reply_wf E `{!EnvOk (adst (rig V)) E} srv0 a x : radio_tells a -> wf_calm srv0 (fst x) ->
  wf_calm srv0 (fst (exec (run_api (E := E) a) x)).
Proof. intros Ha. destruct (radio_api a Ha) as (Hok & Hr & _). by apply api_calm. Qed.
#[export] Instance out_env_ok : EnvOk (adst (rig V)) out_env.
Proof.
  assert (EnvOk (adst (rig V)) out_env0) as H0 by (apply sim_env_of_ok; intros srv0; by apply out_deck_wf).
  apply sim_env_of_ok. intros srv0. apply out_deck_wf. intros a x. by apply out_reply_wf.
Qed.

(** ** Every step of the simulator *)
Definition sim_safe s : Prop := rest_ok (snd (parted s)) /\ server_wf (server_in s).
Lemma safe_server s srv0 : rest_ok (snd (parted s)) -> wf_calm srv0 (server_in s) -> sim_safe s.
Proof. intros H [Hw _]. by split. Qed.
Lemma step_safe c s : adapter_call_ok c -> match c with C_world _ => False | _ => True end -> sim_safe s -> sim_safe (adapter_step s c).
Proof.
  intros Hc Hw [Hr Hs]. assert (safe_with (wf_calm (server_in s)) (adapter_step s c)) as H.
  { apply safe_step; [done|by destruct c|]. apply safe_split. split; [done|]. split; [done|]. reflexivity. }
  apply safe_split in H as [H1 H2]. by eapply safe_server.
Qed.
Lemma tell_safe a s : api_ok a -> sim_safe s -> sim_safe (tell_server a s).
Proof.
  intros Ha [Hr Hs]. split.
  - exact (tends_api (E := out_env) (T := leads rest_ok) a (parted s) Hr).
  - by destruct (api_step (E := out_env) a (server_in s) (snd (parted s)) Ha Hs).
Qed.
Lemma rig_safe f s : (forall r, rig_ok r -> rig_ok (f r)) -> sim_safe s -> sim_safe (with_rig f s).
Proof. intros Hf [(H1 & H2 & H3 & H4) Hs]. split; [|exact Hs]. split_and!; try done. by apply Hf. Qed.
Definition top_deck : Deck V (rbp_server * adst (rig V)) := out_deck (fun a x => exec (run_api (E := out_env) a) x).
Lemma radio_safe f s : (forall P, DeckKeeps top_deck P -> forall x, P x -> P (f top_deck x)) -> sim_safe s -> sim_safe (radio f s).
Proof.
  intros Hf [Hr Hs]. unfold radio. fold top_deck. split.
  - apply (Hf (fun x => rest_ok (snd x))); [|exact Hr]. apply out_deck_rest. intros a Ha x. exact (out_reply_rest out_env a x Ha).
  - destruct (Hf (fun x => wf_calm (server_in s) (fst x))) with (x := parted s) as [H _]; [| |exact H].
    + apply out_deck_wf. intros a x. exact (out_reply_wf out_env _ a x).
    + split; [exact Hs|]. cbn. reflexivity.
Qed.
Lemma on_now_safe now s : sim_safe s -> sim_safe (on_ad (fun a => a <| a_now_ms := now |>) s).
Proof. intros [(H1 & H2 & H3 & H4) Hs]. split; [|exact Hs]. split_and!; try done. by ok_frame. Qed.
Lemma drain_safe budget : forall s, sim_safe s -> sim_safe (drain_loop budget s).
Proof.
  induction budget as [|budget IH]; intros s Hs; cbn [drain_loop]; [done|]. destruct (r_event_q (rig_in s)) as [|e q] eqn:E; [done|].
  apply IH. destruct Hs as [(H1 & H2 & H3 & H4) Hs]. pose proof (ro_queue _ H4) as Hq. cbn in Hq. fold (rig_in s) in Hq. rewrite E in Hq.
  apply Forall_cons_1 in Hq as [He Hq]. rewrite <- step_gatt. apply step_safe; [exact He|done|].
  split; [|exact Hs]. split_and!; try done. cbn in H4 |- *. pose proof (ro_depth _ H4) as Hd. fold (rig_in s) in Hd. rewrite E, zlen_cons in Hd.
  rig_frame; cbn; [exact Hq|lia].
Qed.
Lemma pairing_safe now s : sim_safe s -> sim_safe (sim_pairing now s).
Proof.
  intros Hs. unfold sim_pairing. cbv zeta. split_if; [|done]. split_if.
  - rewrite <- step_start. apply step_safe; [done..|]. apply tell_safe; [done|]. apply rig_safe; [intros; by rig_frame|].
    apply rig_safe; [intros; by rig_frame|done].
  - apply rig_safe; [intros; by rig_frame|]. apply tell_safe; [done|]. apply rig_safe; [intros; by rig_frame|done].
Qed.
Lemma drop_safe now s : sim_safe s -> sim_safe (sim_drop now s).
Proof.
  intros Hs. unfold sim_drop. split_if; [|done]. apply radio_safe; [|apply rig_safe; [intros; by rig_frame|done]].
  intros P HP x. apply rb_disconnect_keeps. apply dk_tell.
Qed.
Lemma paired_safe s : sim_safe s -> sim_safe (sim_paired s).
Proof. intros Hs. unfold sim_paired. cbv zeta. split_if; [|done]. apply tell_safe; [done|]. apply rig_safe; [intros; by rig_frame|done]. Qed.
Lemma reconnect_safe s : sim_safe s -> sim_safe (sim_reconnect s).
Proof.
  intros Hs. unfold sim_reconnect. cbv zeta. split_if; [|done]. apply radio_safe; [|done]. intros P HP x. apply rb_connect_peer_keeps.
Qed.
Lemma tick_safe now s : sim_safe s -> sim_safe (sim_tick now s).
Proof.
  intros Hs. unfold sim_tick. cbv zeta. apply reconnect_safe, paired_safe. unfold drain_events. apply drain_safe.
  rewrite <- step_tick. apply step_safe; [done..|]. apply drain_safe, on_now_safe, drop_safe.
  apply rig_safe; [intros; by apply sim_voice_ok, sim_battery_ok|]. apply pairing_safe. apply rig_safe; [intros; by rig_frame|done].
Qed.
Lemma init_safe srv v : server_wf srv -> sim_safe (sim_init srv v).
Proof.
  intros Hw. assert (sim_safe (AdSt adapter0 (srv, rig0 v) [] [])) as H.
  { split; [|exact Hw]. split_and!; [exact adapter0_ok| |done|apply rig0_ok].
    split; [|split; [done|split; [constructor|done]]]. split; cbn; try done. by apply (bool_decide_unpack _); vm_compute. }
  unfold sim_init. assert (rc003_adapter_init (AdSt adapter0 (srv, rig0 v) [] []) = adapter_step (AdSt adapter0 (srv, rig0 v) [] []) C_detach) as ->
    by (rewrite step_detach; reflexivity). by apply step_safe.
Qed.
End outside.
