(* ===== verification/SimSpecs.v ===== *)
(** * The simulator: properties

    Every turn of the main loop keeps the invariants of the server, the adapter and the
    remote; the control port's commands do not depend on how they arrive; storage and
    the allocation of ids; and two sessions from the first frame of the host to what it
    receives. *)
From Stdlib Require Import String.
From S2P Require Import Prelude Defs Frame Tlv DeviceModel Faults ServerState ServerCore ServerVoice ServerLink Server ServerInv ServerSafe ServerWorld Hogp Ima Gatt Atvv AdapterState Unicom Adapter AdapterCache AdapterProps AdapterRun AdapterSpecs SimTone SimRemote SimMain SimProps.
#[local] Open Scope string_scope.
#[local] Open Scope list_scope.
#[local] Open Scope Z_scope.

(** What the sockets give: bytes, no more than the buffers take. *)
Definition turn_ok (t : turn) : Prop := Bytes (default [] (n_data t)) /\ zlen (default [] (n_data t)) <= 512.
#[export] Instance turn_ok_dec t : Decision (turn_ok t).
Proof. unfold turn_ok. apply _. Defined.

(** A machine for the witnesses: two files in memory, a socket that takes everything. *)
Definition memory : Type := option (list Z) * option (list Z).
#[export] Instance memory_machine : Machine memory := {
  f_read f d := match f with Sim_store => fst d | Sim_counter => snd d end;
  f_write f l d := (Some (zlen l, true), match f with Sim_store => (Some l, snd d) | Sim_counter => (fst d, Some l) end);
  send l d := (zlen l, d);
  machine_faults _ := faults_init }.
Definition no_files : memory := (None, None).

Section loop.
Context {D : Type} `{M : Machine D}.
Implicit Types l : loop_state (D := D).
#[export] Instance process_bench_ok : BenchOk (process D) process_bench.
Proof.
  intros data p. cbn. unfold sim_tx_sink. cbv zeta. pose proof (zlen_nonneg data). pose proof (u64_range (TX_CAP - zlen (g_tx p))).
  unfold U64 in *. cbn [fst]. split_if; lia.
Qed.
Lemma on_process_safe (f : process D -> process D) s : sim_safe s -> sim_safe (on_process f s).
Proof. apply rig_safe. intros r H. by rig_frame. Qed.
Lemma turn_data_safe t l : turn_ok t -> sim_safe (l_sys l) -> sim_safe (l_sys (turn_data t l)).
Proof.
  intros [Ht _] Hl. unfold turn_data. set (l1 := if n_accept_data t then _ else _).
  assert (sim_safe (l_sys l1)) as H1 by (subst l1; split_if; [by apply on_process_safe|done]). clearbody l1.
  destruct (n_data t) as [data|]; [|done]. split_if; [done|]. split_if.
  - apply tell_safe; [done|]. by apply on_process_safe.
  - by apply tell_safe.
Qed.
Lemma command_safe (s : adst (rbp_server * rig (process D))) line : sim_safe s -> sim_safe (command s line).
Proof. intros H. unfold command. split_if; [done|]. apply rig_safe; [|done]. intros r. apply sim_command_ok. Qed.
Lemma turn_ctrl_safe t l : sim_safe (l_sys l) -> sim_safe (l_sys (turn_ctrl t l)).
Proof.
  intros Hl. unfold turn_ctrl. set (l1 := if n_accept_ctrl t then _ else _).
  assert (sim_safe (l_sys l1)) as H1 by (subst l1; by split_if). clearbody l1.
  destruct (n_ctrl t) as [data|]; [|done]. split_if; [done|]. split_if; [done|].
  destruct (ctrl_feed (l_ctrl_buf l1) data) as [lines buf]. cbn. clear E E0. revert H1. generalize (l_sys l1).
  induction lines as [|line lines IH]; intros s Hs; cbn; [done|]. by apply IH, command_safe.
Qed.
Lemma one_ms_safe l : sim_safe (l_sys l) -> sim_safe (l_sys (one_ms l)).
Proof.
  intros Hl. unfold one_ms. cbv zeta. cbn -[u32 tell_server sim_tick on_process Z.modulo].
  assert (sim_safe (tell_server (ATick (u32 (l_virt_ms l + 1))) (sim_tick (u32 (l_virt_ms l + 1)) (l_sys l)))) as H
    by by apply tell_safe, tick_safe. split_if; [by apply on_process_safe|done].
Qed.
Lemma turn_safe l t : turn_ok t -> sim_safe (l_sys l) -> sim_safe (l_sys (loop_turn l t)).
Proof.
  intros Ht Hl. unfold loop_turn. apply Nat.iter_invariant; [intros; by apply one_ms_safe|]. by apply turn_ctrl_safe, turn_data_safe.
Qed.
Lemma start_safe seed (d : D) : sim_safe (l_sys (sim_start seed d)).
Proof.
  unfold sim_start. cbv zeta.
  pose proof (rbp_server_init_wf (E := out_env) sim_cfg (AdSt adapter0 (rig0 (Process [] false seed d [])) [] [])) as Hw.
  destruct (rbp_server_init sim_cfg _) as [srv x]. cbn [l_sys fst] in *. apply rig_safe; [intros; by rig_frame|]. by apply init_safe.
Qed.
Lemma turns_safe turns : forall l, Forall turn_ok turns -> sim_safe (l_sys l) -> sim_safe (l_sys (fold_left loop_turn turns l)).
Proof.
  induction turns as [|t turns IH]; intros l Ht Hl; cbn; [done|]. apply List.Forall_cons_iff in Ht as [Ht1 Ht2].
  by apply IH, turn_safe.
Qed.
End loop.

(** C5: The parts of the product are safe together.  In the simulator the server, the
    adapter and the voice engine run against each other and a remote, with no assumption
    on any of them: whatever bytes the host sends and whatever is typed at the control
    port, in every order and at every speed, the server keeps its invariant, every buffer
    of the adapter its size and every index its range, the captures the server hears of
    follow the voice protocol, the server was told exactly the keys the adapter holds,
    only well-formed GATT events are queued, at most 64 of them, and no call is nested
    deeper than the model follows. *)
Theorem simulator_safe {D} `{M : Machine D} seed (d : D) turns :
  Forall turn_ok turns ->
  let s := l_sys (sim_main seed d turns) in
  server_wf (server_in s) /\ adapter_ok (ad s) /\ protocol (evs s) = Some (phase_of (a_atvv (ad s))) /\
  Forall event_ok (evs s) /\ told (acts s) = a_pressed_bits (ad s) /\ rig_ok (rig_in s).
Proof.
  intros Ht s. assert (sim_safe s) as [(H1 & (_ & H2 & H3 & _) & H4 & H5) Hw].
  { apply on_process_safe, turns_safe; [done|apply start_safe]. }
  by split_and!.
Qed.

(** ** The control port

    The lines of a text, read byte by byte: [cur] is the line so far. *)
Fixpoint lines_of (cur text : list Z) : list (list Z) * list Z :=
  match text with
  | [] => ([], cur)
  | c :: text =>
    if c =? 10 then let '(lines, tail) := lines_of [] text in (until_cr cur :: lines, tail) else lines_of (cur ++ [c]) text
  end.
(** No line is longer than the buffer, and none has a zero byte. *)
Fixpoint lines_fit (n : Z) (text : list Z) : bool :=
  match text with
  | [] => true
  | c :: text => negb (c =? 0) && if c =? 10 then lines_fit 0 text else (n + 1 <? CTRL_CAP) && lines_fit (n + 1) text
  end.
Lemma lines_of_app a b : forall cur,
  lines_of cur (a ++ b) = let '(l1, t1) := lines_of cur a in let '(l2, t2) := lines_of t1 b in (l1 ++ l2, t2).
Proof.
  induction a as [|c a IH]; intros cur; cbn; [by destruct (lines_of cur b)|]. split_if; rewrite IH; [|done].
  destruct (lines_of [] a) as [l1 t1]. by destruct (lines_of t1 b).
Qed.
Lemma lines_fit_app a b : forall cur, lines_fit (zlen cur) (a ++ b) = true ->
  lines_fit (zlen cur) a = true /\ lines_fit (zlen (snd (lines_of cur a))) b = true.
Proof.
  induction a as [|c a IH]; intros cur; cbn [app lines_fit lines_of]; [done|]. destruct (c =? 0); [done|]. cbn [negb andb].
  destruct (c =? 10).
  - intros H. destruct (IH [] H) as [H1 H2]. by destruct (lines_of [] a).
  - intros [Hn H]%andb_true_iff. replace (zlen cur + 1) with (zlen (cur ++ [c])) in * by (rewrite zlen_app; done).
    destruct (IH _ H) as [H1 H2]. by rewrite Hn, H1.
Qed.
Lemma lines_tail text : forall cur, lines_fit (zlen cur) text = true -> zlen cur < CTRL_CAP -> ~ In 10 cur -> ~ In 0 cur ->
  let tail := snd (lines_of cur text) in zlen tail < CTRL_CAP /\ ~ In 10 tail /\ ~ In 0 tail.
Proof.
  induction text as [|c text IH]; intros cur; cbn [lines_fit lines_of]; [done|]. destruct (c =? 0) eqn:E0; [done|]. cbn [negb andb].
  destruct (c =? 10) eqn:E1.
  - intros H _ _ _. specialize (IH [] H eq_refl (@in_nil _ _) (@in_nil _ _)). by destruct (lines_of [] text).
  - intros [Hn H]%andb_true_iff Hl H10 H0. replace (zlen cur + 1) with (zlen (cur ++ [c])) in * by (rewrite zlen_app; done).
    apply IH; [done|lia| |]; rewrite in_app_iff; cbn; intros [Hi|[Hi|[]]]; try done; lia.
Qed.
(** What [strchr] finds. *)
Lemma split_lines l : ~ In 0 l -> forall cur,
  lines_of cur l = match split_line l with
                   | None => ([], cur ++ l)
                   | Some (line, rest) => let '(lines, tail) := lines_of [] rest in (until_cr (cur ++ line) :: lines, tail)
                   end.
Proof.
  induction l as [|c l IH]; intros H0 cur; cbn [lines_of split_line]; [by rewrite app_nil_r|].
  destruct (c =? 10); [by rewrite app_nil_r|]. destruct (c =? 0) eqn:E; [destruct H0; left; lia|].
  rewrite IH by (intros Hi; apply H0; by right). destruct (split_line l) as [[line rest]|]; by rewrite <- app_assoc.
Qed.
Lemma split_line_rest l line rest : split_line l = Some (line, rest) -> (length rest < length l)%nat /\ forall x, In x rest -> In x l.
Proof.
  revert line. induction l as [|c l IH]; intros line; cbn; [done|]. destruct (c =? 10); [intros [= _ ->]; split; [lia|by right]|].
  destruct (c =? 0); [done|]. destruct (split_line l) as [[line' rest']|]; [|done]. intros [= _ ->].
  destruct (IH line' eq_refl) as [H1 H2]. split; [lia|]. intros x Hx. right. by apply H2.
Qed.
Lemma ctrl_lines_of fuel : forall l, (length l <= fuel)%nat -> ~ In 0 l -> ctrl_lines fuel l = lines_of [] l.
Proof.
  induction fuel as [|fuel IH]; intros l Hf H0; rewrite (split_lines l H0 []); cbn [ctrl_lines app].
  - destruct l; [done|cbn in Hf; lia].
  - destruct (split_line l) as [[line rest]|] eqn:E; [|done]. destruct (split_line_rest _ _ _ E) as [H1 H2].
    by rewrite IH by (lia || (intros Hi; by apply H0, H2)).
Qed.
Lemma lines_of_plain buf : ~ In 10 buf -> forall cur, lines_of cur buf = ([], cur ++ buf).
Proof.
  induction buf as [|c buf IH]; intros H10 cur; cbn; [by rewrite app_nil_r|].
  destruct (c =? 10) eqn:E; [destruct H10; left; lia|]. rewrite IH by (intros Hi; apply H10; by right). by rewrite <- app_assoc.
Qed.
Lemma lines_fit_nonzero text : forall n, lines_fit n text = true -> ~ In 0 text.
Proof.
  induction text as [|c text IH]; intros n; cbn; [by intros _ []|]. destruct (c =? 0) eqn:E; [done|]. cbn.
  intros H [Hc|Hi]; [lia|]. destruct (c =? 10); [by apply (IH 0)|]. apply andb_true_iff in H as [_ H]. by apply (IH (n + 1)).
Qed.
Lemma ctrl_feed_lines buf data : ~ In 10 buf -> ~ In 0 buf -> zlen buf < CTRL_CAP -> lines_fit (zlen buf) data = true ->
  ctrl_feed buf data = lines_of buf data.
Proof.
  intros H10 H0 Hb Hf. unfold ctrl_feed. rewrite ctrl_lines_of; [|done|].
  2:{ rewrite in_app_iff. intros [Hi|Hi]; [done|by apply (lines_fit_nonzero data (zlen buf))]. }
  rewrite lines_of_app, (lines_of_plain buf H10 []). cbn [app].
  destruct (lines_tail data buf Hf Hb H10 H0) as (Hl & _). destruct (lines_of buf data) as [lines tail]. cbn [snd] in Hl.
  destruct (zlen tail =? CTRL_CAP) eqn:E; [lia|done].
Qed.

Definition receive {D} `{M : Machine D} (l : loop_state (D := D)) (c : list Z) : loop_state := turn_ctrl (Turn false None false (Some c) 0) l.
Lemma receive_all {D} `{M : Machine D} chunks : forall l : loop_state (D := D),
  l_ctrl_sock l = true -> zlen (l_ctrl_buf l) < CTRL_CAP /\ ~ In 10 (l_ctrl_buf l) /\ ~ In 0 (l_ctrl_buf l) ->
  Forall (fun c => c <> []) chunks -> lines_fit (zlen (l_ctrl_buf l)) (concat chunks) = true ->
  let '(lines, tail) := lines_of (l_ctrl_buf l) (concat chunks) in
  l_sys (fold_left receive chunks l) = fold_left command lines (l_sys l) /\ l_ctrl_buf (fold_left receive chunks l) = tail /\ zlen tail < CTRL_CAP.
Proof.
  induction chunks as [|c chunks IH]; intros l Hs (Hl & H10 & H0) Hc Hf; cbn [concat fold_left]; [by split_and!|].
  apply List.Forall_cons_iff in Hc as [Hc Hcs]. cbn [concat] in Hf. destruct (lines_fit_app _ _ _ Hf) as [F1 F2].
  rewrite lines_of_app. destruct (lines_tail c _ F1 Hl H10 H0) as (T1 & T2 & T3).
  pose proof (ctrl_feed_lines _ _ H10 H0 Hl F1) as Ef. destruct (lines_of (l_ctrl_buf l) c) as [l1 t1]. cbn [snd] in *.
  set (l2 := receive l c). assert (l_sys l2 = fold_left command l1 (l_sys l) /\ l_ctrl_buf l2 = t1 /\ l_ctrl_sock l2 = true) as (S1 & S2 & S3).
  { subst l2. unfold receive, turn_ctrl. cbn [n_accept_ctrl n_ctrl]. rewrite Hs. cbn [negb]. rewrite bool_decide_eq_false_2 by exact Hc. by rewrite Ef. }
  clearbody l2. rewrite <- S2 in *. specialize (IH l2 S3 (conj T1 (conj T2 T3)) Hcs F2).
  destruct (lines_of (l_ctrl_buf l2) (concat chunks)) as [l3 t3]. destruct IH as (I1 & I2 & I3).
  rewrite S1 in I1. by rewrite fold_left_app.
Qed.

(** C40: Commands typed at the control port do not depend on how the network cuts them
    up: for every text whose lines fit the buffer, and every way to receive it in
    pieces, exactly the commands of its lines (up to a carriage return) are carried out,
    in order, and the unfinished line waits in the buffer. *)
Theorem ctrl_chunks {D} `{M : Machine D} (l : loop_state (D := D)) chunks :
  l_ctrl_sock l = true -> l_ctrl_buf l = [] -> Forall (fun c => c <> []) chunks -> lines_fit 0 (concat chunks) = true ->
  let l' := fold_left receive chunks l in
  let '(lines, tail) := lines_of [] (concat chunks) in
  l_sys l' = fold_left command lines (l_sys l) /\ l_ctrl_buf l' = tail /\ zlen tail < CTRL_CAP.
Proof.
  intros Hs Hb Hc Hf. pose proof (receive_all chunks l Hs) as H. rewrite Hb in H. apply H; [|done..].
  split_and!; [done|by intros []..].
Qed.
Lemma ctrl_chunks_witness :
  let l := sim_start 7 no_files <| l_ctrl_sock := true |> in
  let l' := fold_left receive [cstr "pair_f"; cstr "ail" ++ [13; 10] ++ cstr "mic"] l in
  l_sys l' = fold_left command [cstr "pair_fail"] (l_sys l) /\ l_ctrl_buf l' = cstr "mic" /\ zlen (cstr "mic") < CTRL_CAP.
Proof.
  intros l l'. pose proof (ctrl_chunks l [cstr "pair_f"; cstr "ail" ++ [13; 10] ++ cstr "mic"]) as H. fold l' in H.
  assert (lines_of [] (concat [cstr "pair_f"; cstr "ail" ++ [13; 10] ++ cstr "mic"]) = ([cstr "pair_fail"], cstr "mic")) as E by by vm_compute.
  rewrite E in H. apply H; try reflexivity. repeat constructor; discriminate.
Defined.

(** ** Files

    A write that took everything is what is read afterwards. *)
Class MachineOk D (M : Machine D) : Prop :=
  written_read f l d n closed d' : f_write f l d = (Some (n, closed), d') -> n = zlen l -> f_read f d' = Some l.
#[export] Instance memory_ok : MachineOk memory memory_machine.
Proof. intros f l d n closed d' [= _ _ <-] _. by destruct f. Qed.
Lemma c_string_pad name pad : ~ In 0 name -> c_string (name ++ replicate pad 0) = name.
Proof.
  induction name as [|c name IH]; intros H0; cbn; [by destruct pad|]. destruct (c =? 0) eqn:E; [destruct H0; left; lia|].
  rewrite IH; [done|]. intros Hi. apply H0. by right.
Qed.
(** A record the server can hold. *)
Definition record_fits (rec : rbp_peer_record_t) : Prop :=
  U32 (pr_peer_id rec) /\ ~ In 0 (pr_name rec) /\ (length (pr_name rec) <= 47)%nat.
Lemma record_roundtrip rec : record_fits rec -> record_of (record_bytes rec) = rec.
Proof.
  intros (Hi & H0 & Hl). destruct rec as [id name auto]. unfold record_of, record_bytes. cbn [pr_peer_id pr_name pr_auto_reconnect] in *.
  set (field := take 48 (name ++ replicate 48 0)).
  assert (field = name ++ replicate (48 - length name) 0) as Hf.
  { subst field. rewrite take_app_ge by lia. f_equal. rewrite take_replicate. f_equal. lia. }
  assert (length field = 48%nat) as Hn by (rewrite Hf, length_app, length_replicate; lia).
  assert (forall rest, slice (le 4 id ++ rest) 0 4 = le 4 id) as S1 by reflexivity.
  assert (forall rest, slice (le 4 id ++ field ++ rest) 4 48 = field) as S2
    by (intros rest; unfold slice; by rewrite drop_app_length', take_app_length').
  assert (forall a rest, znth (le 4 id ++ field ++ a :: rest) 52 = a) as S3.
  { intros a rest. unfold znth. change (Z.to_nat 52) with (length (le 4 id) + 48)%nat. rewrite app_nth2_plus. rewrite <- Hn. by rewrite nth_middle. }
  rewrite S1, S2, S3, Hf, c_string_pad, unle_le by done. by destruct auto.
Qed.
(** The stored remote survives a restart, and after [store_clear] there is none. *)
Lemma sim_store_roundtrip {D} `{M : Machine D} `{!MachineOk D M} rec d d' :
  record_fits rec -> file_save rec d = (true, d') ->
  file_load d' = if pr_peer_id rec =? 0 then None else Some rec.
Proof.
  intros Hr Hs. unfold file_save in Hs. destruct (f_write Sim_store (record_bytes rec) d) as [[[n closed]|] d1] eqn:E; [|done].
  injection Hs as Hn <-. assert (zlen (record_bytes rec) = SIZEOF_PEER_RECORD) as Hz.
  { unfold record_bytes, zlen. rewrite !length_app, length_take, length_app, length_replicate. cbn [le length]. unfold SIZEOF_PEER_RECORD. lia. }
  unfold file_load. rewrite (written_read _ _ _ _ _ _ E) by lia. rewrite Hz, record_roundtrip by done. done.
Qed.
(** Ids are given out in order and never twice. *)
Lemma sim_ids_fresh {D} `{M : Machine D} `{!MachineOk D M} d n d' :
  allocate_id d = (n, d') -> n <> 0 -> U32 n -> fst (allocate_id d') = n + 1 \/ fst (allocate_id d') = 0.
Proof.
  unfold allocate_id at 1. intros H Hn HU. case_match; [|by injection H as <- _].
  case_match; [by injection H as <- _|]. destruct (f_write Sim_counter _ d) as [[[written closed]|] d1] eqn:E; [|by injection H as <- _].
  destruct ((written =? 4) && closed) eqn:Ew; [|by injection H as <- _]. injection H as <- <-.
  apply andb_true_iff in Ew as [Ew%Z.eqb_eq _]. unfold allocate_id. rewrite (written_read _ _ _ _ _ _ E) by (by rewrite Ew).
  change (zlen (le 4 (z + 1)) <? 4) with false. cbv iota. change (slice (le 4 (z + 1)) 0 4) with (le 4 (z + 1)). rewrite unle_le by done.
  split_if; [by right|]. destruct (f_write Sim_counter _ d1) as [[[w2 c2]|] d2]; [|by right]. cbn. split_if; [by left|by right].
Qed.

(** ** Sessions

    A host in front of the simulator: it sends requests, types at the control port, and
    reads the frames that arrive. *)
Abbreviation bench := (loop_state (D := memory)).
Definition server_at (l : bench) : rbp_server := server_in (l_sys l).
Definition connects : turn := Turn true None true None 1.
Definition idles (ms : nat) : turn := Turn false None false None ms.
Definition types (line : string) : turn := Turn false None false (Some (cstr line ++ [10])) 1.
(** A request with the ids and the sequence number the server expects. *)
Definition asks (op : Z) (payload : list Z) (l : bench) : bench :=
  let srv := server_at l in
  let seq := client_tx_hwm srv + 1 in
  let h := header0 <| h_kind := RBP_KIND_REQUEST |> <| h_opcode := op |> <| h_session_id := session_id srv |>
             <| h_connection_id := if op <? 0x200 then 0 else connection_id srv |> <| h_request_id := seq |> in
  loop_turn l (Turn false (Some (snd (rbp_frame_encode h seq (Some payload) (zlen payload)))) false None 1).
Definition bytes_tlv (tag : Z) (v : list Z) : list Z := w_buf (fst (rbp_tlv_put_bytes rbp_tlv_writer_init tag v)).
Definition u32_tlv (tag v : Z) : list Z := w_buf (fst (rbp_tlv_put_u32 rbp_tlv_writer_init tag v)).
Definition on_tlv : list Z := w_buf (fst (rbp_tlv_put_bool rbp_tlv_writer_init 1 true)).
(** HELLO, a search, the candidate is paired. *)
Definition pairs (l : bench) : bench :=
  let l := asks RBP_OP_HELLO (bytes_tlv 1 (replicate 16 7)) (loop_turn l connects) in
  let l := asks RBP_OP_FIND_START (w_buf (fst (rbp_tlv_put_u16 rbp_tlv_writer_init 1 5000))) l in
  loop_turn (asks RBP_OP_PAIR_BEGIN (u32_tlv 1 (search_id (server_at l)) ++ u32_tlv 2 1) l) (idles 120).
(** What the host has received. *)
Definition received (l : bench) : list (Z * list Z) :=
  omap (fun e => match e with RBP_RX_FRAME h p true => Some (h_opcode h, p) | _ => None end)
    (snd (rx_run (rbp_rxparser_init 0) (m_sent (process_of (l_sys l))) 0)).
Definition received_of (op : Z) (l : bench) : list (list Z) := map snd (filter (fun x => fst x = op) (received l)).
Definition key_bits (l : bench) : list Z := map (fun p => unle (slice p 12 8)) (received_of RBP_OP_KEYS_STATE_EV l).
Definition audio (l : bench) : list Z := concat (map (drop (Z.to_nat RBP_AUDIO_DATA_HEADER)) (received_of RBP_OP_VOICE_DATA l)).
(** The keys of the remote and their places in the profile. *)
Definition remote_keys : list (string * Z) :=
  [("power", 0); ("up", 1); ("down", 2); ("left", 3); ("right", 4); ("ok", 5); ("back", 6); ("home", 7); ("menu", 8);
   ("tv", 9); ("volup", 10); ("voldown", 11)].
Definition key_session (name : string) : bench :=
  fold_left loop_turn [types (append "press " name); idles 4; types (append "release " name); idles 8]
    (asks RBP_OP_EVENTS_ENABLE on_tlv (pairs (sim_start 0x12345678 no_files))).
Definition ima_offer : list Z := on_tlv ++ bytes_tlv 2 (le 4 RBP_CODEC_IMA_HI ++ le 2 1) ++ u32_tlv 3 512.
Definition voice_session : bench :=
  fold_left loop_turn [types "mic_on"; idles 120; types "mic_off"; idles 60]
    (asks RBP_OP_VOICE_ENABLE ima_offer (pairs (sim_start 0x12345678 no_files))).


(** A recording that is started while the remote is not connected ends the simulator:
    when the link is up, the frames of the time in between are all queued at once, and
    the queue has room for 64. *)
Lemma early_recording_aborts :
  r_aborted (rig_in (l_sys (pairs (fold_left loop_turn [connects; types "mic_on"; idles 1500] (sim_start 0x12345678 no_files))))) = true.
Proof. by vm_compute. Qed.
(** [atvv_no_sync on] leaves the sync messages on, [atvv_no_sync off] turns them off. *)
Lemma no_sync_inverted (r : rig (process memory)) :
  r_atvv_send_sync (snd (sim_command (cstr "atvv_no_sync on") r)) = true /\
  r_atvv_send_sync (snd (sim_command (cstr "atvv_no_sync off") r)) = false.
Proof. by vm_compute. Qed.
Lemma simulator_safe_witness :
  rig_ok (rig_in (l_sys (sim_main 7 no_files [Turn true (Some [0; 1; 2]) true (Some (cstr "mic_on")) 3]))).
Proof. apply (simulator_safe 7 no_files [Turn true (Some [0; 1; 2]) true (Some (cstr "mic_on")) 3]). by apply (bool_decide_unpack _); vm_compute. Defined.
