(* ===== verification/IcoMain.v ===== *)
(** * The ICO command line

    client/c/ico/ico_decoder.c, [main]: rows of a capture log are decoded, and every
    recording (the rows with one label) becomes a WAV file.  The input is the text of
    the log; the files written are listed with their paths in order, whether [fopen]
    lets them be written or not.  [alloc n] says whether [realloc] has [n] bytes.  A row
    on which C leaves the behaviour undefined ends the run in [Wild]. *)
From Stdlib Require Import String.
From S2P Require Import Prelude Ico.
#[local] Open Scope string_scope.
#[local] Open Scope list_scope.
#[local] Open Scope Z_scope.

(** ** Text *)
Definition QUOTE : Z := 34.
(** [strstr]: what follows the first occurrence. *)
Fixpoint after (pat l : list Z) : option (list Z) :=
  if bool_decide (take (List.length pat) l = pat) then Some (drop (List.length pat) l)
  else match l with [] => None | _ :: l => after pat l end.
(** A key in quotes, a colon and a space, and the quote that opens its value. *)
Definition json_str (line : list Z) (key : string) : option (list Z) :=
  after (take 63 ([QUOTE] ++ cstr key ++ [QUOTE; 58; 32; QUOTE])) line.
(** [strchr(l, c) - l] *)
Fixpoint until (c : Z) (l : list Z) : option (list Z) :=
  match l with [] => None | x :: l => if x =? c then Some [] else option_map (cons x) (until c l) end.
Definition hex_digit (c : Z) : option Z :=
  if (48 <=? c) && (c <=? 57) then Some (c - 48)
  else if (97 <=? c) && (c <=? 102) then Some (c - 87)
  else if (65 <=? c) && (c <=? 70) then Some (c - 55) else None.
(** [sscanf(l, "%2x", &v)], as a byte.  A prefix 0x without a digit does not match. *)
Definition scan_hex (l : list Z) : option Z :=
  match skip_spaces l with
  | [] => None
  | c :: l =>
    if c =? 45 then match l with d :: _ => option_map (fun v => u8 (- v)) (hex_digit d) | [] => None end
    else if c =? 43 then match l with d :: _ => hex_digit d | [] => None end
    else match hex_digit c with
    | None => None
    | Some v =>
      match l with
      | d :: _ => if (c =? 48) && ((d =? 120) || (d =? 88)) then None
                  else Some (match hex_digit d with Some w => v * 16 + w | None => v end)
      | [] => Some v
      end
    end
  end.
(** The string [fgets] leaves in the buffer ends at a zero byte. *)
Fixpoint c_line (l : list Z) : list Z := match l with c :: l => if c =? 0 then [] else c :: c_line l | [] => [] end.
Fixpoint fgets (room : nat) (l : list Z) : list Z * list Z :=
  match room, l with
  | S room, c :: l => if c =? 10 then ([c], l) else let '(line, rest) := fgets room l in (c :: line, rest)
  | _, _ => ([], l)
  end.
Fixpoint log_lines (fuel : nat) (text : list Z) : list (list Z) :=
  match fuel, text with
  | S fuel, _ :: _ => let '(line, rest) := fgets (Z.to_nat 8191) text in c_line line :: log_lines fuel rest
  | _, _ => []
  end.

(** ** Rows *)
Inductive hex_result := Frame (bytes : list Z) | Bad_hex | Beyond.
(** The loop over the 40 bytes: [hp + 2 * i] may be behind the string. *)
Fixpoint read_frame (n : nat) (hp : list Z) : hex_result :=
  match n with
  | O => Frame []
  | S n =>
    match scan_hex hp with
    | None => Bad_hex
    | Some v =>
      match hp, n with
      | [_], S _ => Beyond
      | _, _ => match read_frame n (drop 2 hp) with Frame l => Frame (v :: l) | r => r end
      end
    end
  end.
Inductive row := Skipped | Row (label : list Z) (hex : list Z) | Unterminated.
Definition read_row (line : list Z) : row :=
  match json_str line "label", json_str line "joined_content_hex" with
  | Some lp, Some hp => match until QUOTE lp with Some label => Row label hp | None => Unterminated end
  | _, _ => Skipped
  end.

(** ** The program *)
Inductive status := Running | Exited (code : Z) | Wild.
Record ico_run := IcoRun {
  i_label : list Z; i_have : bool; i_buf : list Z; i_cap : Z; i_st : IcoState; i_files : list (list Z * list Z); i_status : status }.
#[export] Instance eta_ico_run : Eta ico_run := fun r =>
  IcoRun (i_label r) (i_have r) (i_buf r) (i_cap r) (i_st r) (i_files r) (i_status r).
Definition wav_path (outdir label : list Z) : list Z := take 1023 (outdir ++ [47] ++ label ++ cstr ".wav").

Section program.
Context `{G : G7221} (alloc : Z -> bool) (outdir : list Z).
Implicit Types r : ico_run.

Definition flush_wav r : ico_run :=
  if zlen (i_buf r) =? 0 then r
  else r <| i_files ::= fun l => l ++ [(wav_path outdir (i_label r), wav_file (i_buf r))] |>.
(** A new label starts a recording. *)
Definition take_label (label : list Z) r : ico_run :=
  if negb (i_have r) || negb (bool_decide (i_label r = label))
  then flush_wav r <| i_label := take 127 label |> <| i_have := true |> <| i_buf := [] |> <| i_st := ico_reset |>
  else r.
Definition put_samples (frame : list Z) r : ico_run :=
  let '(pcm, st) := ico_decode_frame (i_st r) frame in
  let r := r <| i_st := st |> in
  let grow := i_cap r <? zlen (i_buf r) + 320 in
  let cap := if grow then if negb (i_cap r =? 0) then i_cap r * 2 else 320 * 512 else i_cap r in
  if grow && negb (alloc (cap * 2)) then r <| i_status := Exited 1 |>
  else r <| i_cap := cap |> <| i_buf ::= fun l => l ++ slice pcm 0 320 |>.
Definition ico_step r (line : list Z) : ico_run :=
  match i_status r with
  | Running =>
    match read_row line with
    | Skipped => r
    | Unterminated => r <| i_status := Wild |>
    | Row label hp =>
      let r := take_label label r in
      match read_frame 40 hp with
      | Frame frame => put_samples frame r
      | Bad_hex => r <| i_status := Exited 1 |>
      | Beyond => r <| i_status := Wild |>
      end
    end
  | _ => r
  end.
Definition ico_start : ico_run := IcoRun [] false [] 0 ico_reset [] Running.
Definition ico_main (text : list Z) : ico_run :=
  let r := fold_left ico_step (log_lines (List.length text) text) ico_start in
  match i_status r with Running => flush_wav r <| i_status := Exited 0 |> | _ => r end.
End program.

(** ** Recordings *)
(** Consecutive rows with one label. *)
Definition join (label : list Z) (frames : list (list Z)) (rest : list (list Z * list (list Z))) : list (list Z * list (list Z)) :=
  match rest with
  | (l, fs) :: rest' => if bool_decide (label = l) then (label, frames ++ fs) :: rest' else (label, frames) :: rest
  | [] => [(label, frames)]
  end.
Fixpoint recordings (rows : list (list Z * list Z)) : list (list Z * list (list Z)) :=
  match rows with [] => [] | (label, f) :: rows => join label [f] (recordings rows) end.
Definition row_of (line : list Z) : option (list Z * list Z) :=
  match read_row line with
  | Row label hp => match read_frame 40 hp with Frame f => Some (label, f) | _ => None end
  | _ => None
  end.
(** A line without a label or a frame, or with both, the label no longer than the program's copy of it. *)
Definition line_ok (line : list Z) : Prop :=
  match read_row line with
  | Skipped => True
  | Unterminated => False
  | Row label hp => (List.length label <= 127)%nat /\ match read_frame 40 hp with Frame _ => True | _ => False end
  end.
#[export] Instance line_ok_dec line : Decision (line_ok line).
Proof. unfold line_ok. destruct (read_row line); [apply _| |apply _]. destruct (read_frame 40 hex); apply _. Defined.
Lemma join_join label a b rest : join label a (join label b rest) = join label (a ++ b) rest.
Proof.
  unfold join. destruct rest as [|[l fs] rest]; [by rewrite bool_decide_eq_true_2|]. case_bool_decide.
  - rewrite bool_decide_eq_true_2 by done. by rewrite app_assoc.
  - by rewrite bool_decide_eq_true_2.
Qed.
Lemma join_other label frames label' f rest : label <> label' ->
  join label frames (join label' f rest) = (label, frames) :: join label' f rest.
Proof. intros Hn. unfold join. destruct rest as [|[l fs] rest]; [by rewrite bool_decide_eq_false_2|]. case_bool_decide; by rewrite bool_decide_eq_false_2. Qed.

(** The reference decoder gives 320 samples. *)
Class G7221Ok `{G : G7221} : Prop := samples_320 coefs old n shift : List.length (fst (rmlt_coefs_to_samples coefs old n shift)) = 320%nat.
Section recordings.
Context `{G : G7221} `{!G7221Ok} (outdir : list Z).
Implicit Types (r : ico_run) (st : IcoState).
Fixpoint decode_all st (frames : list (list Z)) : list Z * IcoState :=
  match frames with
  | [] => ([], st)
  | f :: frames => let '(pcm, st) := ico_decode_frame st f in let '(l, st) := decode_all st frames in (pcm ++ l, st)
  end.
Definition recording_file (x : list Z * list (list Z)) : list Z * list Z :=
  (wav_path outdir (fst x), wav_file (fst (decode_all ico_reset (snd x)))).
Lemma decode_frame_320 st f : List.length (fst (ico_decode_frame st f)) = 320%nat.
Proof.
  unfold ico_decode_frame. destruct (decoder _ _ _ _ _ _) as [[coefs shift] [[rand osh] old]].
  pose proof (samples_320 coefs (old_samples st) 320 shift) as Hl. destruct (rmlt_coefs_to_samples _ _ _ _) as [pcm samples]. cbn [fst] in *.
  rewrite slice_0_all by (unfold zlen; lia). rewrite drop_ge, app_nil_r by lia. by rewrite length_map.
Qed.
Lemma decode_all_snoc frames f : forall st,
  decode_all st (frames ++ [f]) = let '(l, st) := decode_all st frames in let '(pcm, st) := ico_decode_frame st f in (l ++ pcm, st).
Proof.
  induction frames as [|g frames IH]; intros st; cbn [app decode_all].
  - destruct (ico_decode_frame st f). by rewrite app_nil_r.
  - destruct (ico_decode_frame st g) as [p st1]. rewrite IH. destruct (decode_all st1 frames) as [l st2].
    destruct (ico_decode_frame st2 f). by rewrite app_assoc.
Qed.
Lemma decode_all_nonempty st f frames : zlen (fst (decode_all st (f :: frames))) <> 0.
Proof.
  cbn [decode_all]. pose proof (decode_frame_320 st f) as Hl. destruct (ico_decode_frame st f) as [pcm st1]. cbn [fst] in Hl.
  destruct (decode_all st1 frames) as [l st2]. cbn [fst]. rewrite zlen_app. unfold zlen. lia.
Qed.
(** The program is in the middle of a recording. *)
Definition recording (label : list Z) (frames : list (list Z)) r : Prop :=
  i_status r = Running /\ i_have r = true /\ i_label r = label /\ (i_buf r, i_st r) = decode_all ico_reset frames /\ frames <> [].
Abbreviation step := (ico_step (fun _ => true) outdir).
Lemma put_recording label frames f r : i_status r = Running -> i_have r = true -> i_label r = label ->
  (i_buf r, i_st r) = decode_all ico_reset frames ->
  recording label (frames ++ [f]) (put_samples (fun _ => true) f r) /\ i_files (put_samples (fun _ => true) f r) = i_files r.
Proof.
  intros H1 H2 H3 H4. unfold put_samples. pose proof (decode_frame_320 (i_st r) f) as Hl. pose proof (decode_all_snoc frames f ico_reset) as Hs.
  rewrite <- H4 in Hs. destruct (ico_decode_frame (i_st r) f) as [pcm st]. cbn [fst] in Hl. rewrite andb_false_r. split; [|done].
  unfold recording. cbn. rewrite slice_0_all by (unfold zlen; lia). split_and!; try done. by destruct frames.
Qed.
Lemma flush_recording label frames r : recording label frames r ->
  i_files (flush_wav outdir r) = i_files r ++ [recording_file (label, frames)].
Proof.
  intros (_ & _ & Hl & Hb & Hn). unfold flush_wav, recording_file. cbn [fst snd]. destruct frames as [|f frames]; [done|].
  pose proof (decode_all_nonempty ico_reset f frames) as Hz. destruct (decode_all ico_reset (f :: frames)) as [l st]. injection Hb as -> _.
  cbn [fst] in *. destruct (zlen l =? 0) eqn:E; [lia|]. by rewrite Hl.
Qed.
Lemma run_recording lines : forall label frames r, Forall line_ok lines -> recording label frames r -> (List.length label <= 127)%nat ->
  let r' := fold_left step lines r in
  i_status r' = Running /\
  i_files (flush_wav outdir r') = i_files r ++ map recording_file (join label frames (recordings (omap row_of lines))).
Proof.
  induction lines as [|line lines IH]; intros label frames r Hok Hr Hl; cbn [fold_left]; [split; [apply Hr|by apply flush_recording]|].
  apply List.Forall_cons_iff in Hok as [H1 H2]. unfold line_ok in H1. pose proof Hr as (R1 & R2 & R3 & R4 & R5).
  unfold ico_step at 2 4, row_of. cbn [omap list_omap]. rewrite R1. fold row_of.
  destruct (read_row line) as [|label' hp|]; [by apply IH| |done]. destruct H1 as [Hl' H1].
  destruct (read_frame 40 hp) as [f| |]; try done. unfold take_label. rewrite R2, R3. cbn [negb orb].
  change (omap _ lines) with (omap row_of lines). cbn [recordings].
  case_bool_decide as Heq; cbn [negb].
  - subst label'. destruct (put_recording label frames f r R1 R2 R3 R4) as [P1 P2].
    destruct (IH label (frames ++ [f]) _ H2 P1 Hl) as [I1 I2]. split; [done|]. by rewrite I2, P2, join_join.
  - match goal with |- context [put_samples _ f ?x] => set (r1 := x) end.
    assert (i_status r1 = Running /\ i_have r1 = true /\ i_label r1 = label' /\ (i_buf r1, i_st r1) = decode_all ico_reset [] /\
      i_files r1 = i_files (flush_wav outdir r)) as (Q1 & Q2 & Q3 & Q4 & Q5).
    { subst r1. cbn. split_and!; try done; [unfold flush_wav; by split_if|by rewrite firstn_all2 by lia]. }
    clearbody r1. destruct (put_recording label' [] f r1 Q1 Q2 Q3 Q4) as [P1 P2]. destruct (IH label' [f] _ H2 P1 Hl') as [I1 I2].
    split; [done|]. rewrite I2, P2, Q5, (flush_recording label frames r Hr), join_other by done. by rewrite <- app_assoc.
Qed.
Lemma run_start lines : Forall line_ok lines ->
  let r' := fold_left step lines ico_start in
  i_status r' = Running /\ i_files (flush_wav outdir r') = map recording_file (recordings (omap row_of lines)).
Proof.
  induction lines as [|line lines IH]; intros Hok; cbn [fold_left]; [done|]. apply List.Forall_cons_iff in Hok as [H1 H2].
  unfold line_ok in H1. unfold ico_step at 2 4, row_of. cbn [omap list_omap ico_start i_status]. fold row_of.
  destruct (read_row line) as [|label hp|]; [by apply IH| |done]. destruct H1 as [Hl H1].
  destruct (read_frame 40 hp) as [f| |]; try done. change (omap _ lines) with (omap row_of lines). cbn [recordings].
  match goal with |- context [put_samples _ f ?x] => set (r1 := x) end.
  destruct (put_recording label [] f r1) as [P1 P2]; [done|done|by cbn; rewrite firstn_all2 by lia|done|].
  destruct (run_recording lines label [f] _ H2 P1 Hl) as [I1 I2]. split; [exact I1|]. by rewrite I2, P2.
Qed.
End recordings.

(** The samples fit the buffer, which grows by doubling. *)
Definition buffer_fits (r : ico_run) : Prop := zlen (i_buf r) <= i_cap r /\ (i_cap r = 0 \/ 320 * 512 <= i_cap r).
Lemma buffer_always_fits `{G : G7221} `{!G7221Ok} alloc outdir r line : buffer_fits r -> buffer_fits (ico_step alloc outdir r line).
Proof.
  intros Hr. unfold ico_step. destruct (i_status r); try done. destruct (read_row line) as [|label hp|]; try done. cbv zeta.
  set (r1 := take_label outdir label r). assert (buffer_fits r1) as H1.
  { subst r1. unfold take_label. split_if; [|done]. destruct Hr as [Hz Hc]. unfold buffer_fits, flush_wav. cbn. pose proof (zlen_nonneg (i_buf r)).
    destruct (zlen (i_buf r) =? 0); cbn; split; try done; unfold zlen in *; cbn; lia. }
  clearbody r1. destruct (read_frame 40 hp) as [f| |]; try done. unfold put_samples.
  pose proof (decode_frame_320 (i_st r1) f) as Hl. destruct (ico_decode_frame (i_st r1) f) as [pcm st]. cbn [fst] in Hl. cbv zeta. cbn [i_cap i_buf].
  split_if; [done|]. clear E. destruct H1 as [Hz Hc]. unfold buffer_fits. cbn. rewrite zlen_app.
  assert (zlen (slice pcm 0 320) = 320) as -> by (rewrite slice_0_all by (unfold zlen; lia); unfold zlen; lia).
  pose proof (zlen_nonneg (i_buf r1)). destruct (i_cap r1 <? zlen (i_buf r1) + 320) eqn:Eg; [|lia].
  destruct (i_cap r1 =? 0) eqn:E0; cbn [negb]; lia.
Qed.

(** A decoder whose samples are the words. *)
Definition echo_words : G7221 := {|
  decoder := fun words _ _ rand shift old => (words, 0, (rand, shift, old));
  rmlt_coefs_to_samples := fun coefs old _ _ => (take 320 (coefs ++ replicate 320 0), old) |}.
(** A log with three rows of two recordings. *)
Definition sample_row (label : string) (hex : string) : list Z :=
  [123; QUOTE] ++ cstr "label" ++ [QUOTE; 58; 32; QUOTE] ++ cstr label ++ [QUOTE; 44; 32; QUOTE] ++ cstr "joined_content_hex" ++
  [QUOTE; 58; 32; QUOTE] ++ concat (replicate 48 (cstr hex)) ++ [QUOTE; 125; 10].
Definition sample_log : list Z := sample_row "a_01" "0f" ++ [10] ++ sample_row "a_01" "F0" ++ sample_row "b" "7e".
#[export] Instance echo_ok : G7221Ok (G := echo_words).
Proof. intros coefs old n shift. unfold rmlt_coefs_to_samples, echo_words. cbn [fst]. rewrite length_take, length_app, length_replicate. lia. Qed.
(** A label of 128 characters is never the one kept from the row before: each row is
    taken for a recording of its own and written to the same file, so that only the last
    frame is left. *)
Lemma long_label_split :
  let label := concat (replicate 32 (cstr "abcd")) in
  let line := [123; QUOTE] ++ cstr "label" ++ [QUOTE; 58; 32; QUOTE] ++ label ++ [QUOTE; 44; 32; QUOTE] ++ cstr "joined_content_hex" ++
    [QUOTE; 58; 32; QUOTE] ++ concat (replicate 48 (cstr "0f")) ++ [QUOTE; 125; 10] in
  let path := wav_path (cstr "out") (take 127 label) in
  map fst (i_files (ico_main (G := echo_words) (fun _ => true) (cstr "out") (line ++ line))) = [path; path].
Proof. by vm_compute. Qed.
