(* ===== verification/Wrap.v ===== *)
(** * Functions put around the vendor's library

    wch_smp_identity.c and sdk_rx_probe.c: the linker redirects a function of the
    library to one of the firmware, which calls the real one.  The real functions are
    parameters; [W] is the library's state.  The trace line of wch_smp_identity.c is left
    out; those of the probe are its output. *)
From S2P Require Import Prelude.

(** ** wch_smp_identity.c

    The private structures as far as the code looks into them: the bytes at the start of
    the pairing parameters, and the identity record they point to. *)
Definition ID_ADDR_OPCODE : Z := 9.
Definition WAIT_ID_ADDR : Z := 0x25.
Definition IDENTITY_TYPE_OFFSET : Z := 22.
Definition SMP_PAIRING_FAILED_INVALID_PARAMERERS : Z := 0x0A.
Record pairing_params := PairingParams { pp_bytes : list Z; pp_identity : option (list Z) }.
#[export] Instance eta_pairing_params : Eta pairing_params := fun p => PairingParams (pp_bytes p) (pp_identity p).
Record link_item := LinkItem { li_handle : Z; li_pairing : option pairing_params }.
#[export] Instance eta_link_item : Eta link_item := fun l => LinkItem (li_handle l) (li_pairing l).
(** The identity record an Identity Address message is waited for. *)
Definition awaited_identity (link : option link_item) (opcode : Z) (parsed : option (list Z))
  : option (link_item * pairing_params * list Z * Z) :=
  match link, parsed with
  | Some l, Some msg =>
    match li_pairing l with
    | Some pp =>
      if (opcode =? ID_ADDR_OPCODE) && (unle (slice (pp_bytes pp) 0 2) =? li_handle l) &&
         negb (znth (pp_bytes pp) 2 =? 0) && (znth (pp_bytes pp) 3 =? WAIT_ID_ADDR)
      then match pp_identity pp with Some id => Some (l, pp, id, znth msg 0) | None => None end
      else None
    | None => None
    end
  | _, _ => None
  end.
Section identity.
Context {W : Type} (real : option link_item -> Z -> option (list Z) -> W -> Z * W).
Definition wrap_smp_incoming (link : option link_item) (opcode : Z) (parsed : option (list Z)) (w : W) : Z * W :=
  match awaited_identity link opcode parsed with
  | Some (l, pp, id, type) =>
    if 1 <? type then (SMP_PAIRING_FAILED_INVALID_PARAMERERS, w)
    else
      let pp := pp <| pp_identity := Some (<[Z.to_nat IDENTITY_TYPE_OFFSET := type]> id) |> in
      real (Some (l <| li_pairing := Some pp |>)) opcode parsed w
  | None => real link opcode parsed w
  end.
End identity.

(** ** sdk_rx_probe.c *)
Record rx_snapshot := Snapshot {
  s_check : Z; s_result : Z; s_encrypted : Z; s_before : Z; s_aes : Z; s_bb : Z; s_after : Z; s_caller : Z;
  s_header : Z; s_tail : Z; s_arm : Z; s_arm_state : Z }.
Definition snapshot0 : rx_snapshot := Snapshot 0 0 0 0 0 0 0 0 0 0 0 0.
Record rx_probe := Probe {
  p_checks : Z; p_crc_failed : Z; p_pending : list rx_snapshot; p_arms : Z; p_arm_state : Z; p_dropped : Z; p_reported : Z;
  p_head : Z; p_count : Z }.
#[export] Instance eta_rx_probe : Eta rx_probe := fun p =>
  Probe (p_checks p) (p_crc_failed p) (p_pending p) (p_arms p) (p_arm_state p) (p_dropped p) (p_reported p) (p_head p) (p_count p).
Definition probe0 : rx_probe := Probe 0 0 (replicate 4 snapshot0) 0 0 0 0 0 0.
(** What the probe reads of the hardware and of its caller after a check. *)
Record rx_hardware := Hardware { hw_before : Z; hw_after : Z; hw_aes : Z; hw_bb : Z; hw_caller : Z }.
Definition pending_at (p : rx_probe) (i : Z) : rx_snapshot := nth (Z.to_nat i) (p_pending p) snapshot0.

(** [mode] is gBleIPPara[6] after the call. *)
Definition wrap_AES_DevPktDec {W} (real : Z -> W -> Z * W) (direction mode : Z) (p : rx_probe) (w : W) : Z * rx_probe * W :=
  let '(result, w) := real direction w in
  (result, p <| p_arms ::= fun n => u32 (n + 1) |> <| p_arm_state := Z.lor (Z.land mode 255) (Z.shiftl (Z.land direction 255) 8) |>, w).
(** The header, and the status byte of a checked packet. *)
Definition packet_view (packet : option (list Z)) (encrypted result : Z) : Z * Z :=
  match packet with
  | Some p =>
    if negb (encrypted =? 0)
    then (Z.lor (znth p 0) (Z.shiftl (znth p 1) 8), if (result =? 6) || (result =? 14) then znth p (znth p 1 + 9) else 0xffffffff)
    else (0xffffffff, 0xffffffff)
  | None => (0xffffffff, 0xffffffff)
  end.
Definition wrap_ble_ll_chkcrc {W} (real : option (list Z) -> Z -> W -> Z * W) (packet : option (list Z)) (encrypted : Z)
    (hw : rx_hardware) (p : rx_probe) (w : W) : Z * rx_probe * W :=
  let '(result, w) := real packet encrypted w in
  let p := p <| p_checks ::= fun n => u32 (n + 1) |> in
  let p := if negb (Z.land result 1 =? 0) then p <| p_crc_failed ::= fun n => u32 (n + 1) |> else p in
  if negb (Z.land result 2 =? 0) then
    if p_count p =? 4 then (result, p <| p_dropped ::= fun n => u32 (n + 1) |>, w)
    else
      let '(header, tail) := packet_view packet encrypted result in
      let s := Snapshot (p_checks p) result encrypted (hw_before hw) (hw_aes hw) (hw_bb hw) (hw_after hw) (hw_caller hw) header tail
                 (p_arms p) (p_arm_state p) in
      (result, p <| p_pending ::= fun l => <[Z.to_nat ((p_head p + p_count p) mod 4) := s]> l |> <| p_count ::= fun n => u8 (n + 1) |>, w)
  else (result, p, w).
(** A line of the trace: stage and four values. *)
Definition trace_line : Type := Z * Z * Z * Z * Z.
Definition snapshot_lines (p : rx_probe) (s : rx_snapshot) : list trace_line :=
  [(5, s_result s, s_encrypted s, s_before s, s_check s); (6, s_check s, s_aes s, s_bb s, s_after s);
   (7, s_check s, s_header s, s_tail s, s_caller s); (8, s_check s, s_arm s, s_arm_state s, p_crc_failed p)].
Definition sdk_rx_probe_poll (p : rx_probe) : list trace_line * rx_probe :=
  let '(lines, p) :=
    if negb (p_count p =? 0)
    then (snapshot_lines p (pending_at p (p_head p)), p <| p_head := (p_head p + 1) mod 4 |> <| p_count ::= fun n => u8 (n - 1) |>)
    else ([], p) in
  if negb (p_reported p =? p_dropped p)
  then (lines ++ [(9, p_dropped p, p_checks p, p_crc_failed p, p_arms p)], p <| p_reported := p_dropped p |>)
  else (lines, p).
Definition sdk_rx_probe_counts (p : rx_probe) : Z * Z := (p_checks p, p_crc_failed p).

(** ** Properties *)

(** The real handler finds the identity type of the message in the identity record, and
    nothing else is changed there; a type that is not public or random ends the pairing
    before the handler runs; every other message goes through as it is. *)
Lemma identity_type_first {W} (real : option link_item -> Z -> option (list Z) -> W -> Z * W) link opcode parsed w :
  match awaited_identity link opcode parsed with
  | None => wrap_smp_incoming real link opcode parsed w = real link opcode parsed w
  | Some (l, pp, id, type) =>
    if 1 <? type then wrap_smp_incoming real link opcode parsed w = (SMP_PAIRING_FAILED_INVALID_PARAMERERS, w)
    else exists id', wrap_smp_incoming real link opcode parsed w =
           real (Some (l <| li_pairing := Some (pp <| pp_identity := Some id' |>) |>)) opcode parsed w /\
         length id' = length id /\ (22 < length id -> znth id' IDENTITY_TYPE_OFFSET = type)%nat /\
         forall i, i <> Z.to_nat IDENTITY_TYPE_OFFSET -> id' !! i = id !! i
  end.
Proof.
  unfold wrap_smp_incoming. destruct (awaited_identity link opcode parsed) as [[[[l pp] id] type]|]; [|done].
  split_if; [done|]. eexists. split; [done|]. split; [by rewrite length_insert|]. split.
  - intros Hl. unfold znth, IDENTITY_TYPE_OFFSET. change (Z.to_nat 22) with 22%nat.
    apply nth_lookup_Some. apply list_lookup_insert_eq. lia.
  - intros i Hi. by rewrite list_lookup_insert_ne by done.
Qed.

(** The probe does not change what it observes. *)
Lemma probe_transparent {W} (real : option (list Z) -> Z -> W -> Z * W) packet encrypted hw p w :
  let '(result, _, w') := wrap_ble_ll_chkcrc real packet encrypted hw p w in (result, w') = real packet encrypted w.
Proof.
  unfold wrap_ble_ll_chkcrc. destruct (real packet encrypted w) as [result w']. cbv zeta.
  repeat split_if; try done; by destruct (packet_view packet encrypted result).
Qed.
Record probe_wf (p : rx_probe) : Prop := {
  pw_size : length (p_pending p) = 4%nat; pw_head : 0 <= p_head p < 4; pw_count : 0 <= p_count p <= 4 }.
(** The snapshots that wait, the oldest first. *)
Definition waiting (p : rx_probe) : list rx_snapshot :=
  map (fun i => pending_at p ((p_head p + Z.of_nat i) mod 4)) (List.seq 0 (Z.to_nat (p_count p))).
Lemma probe0_wf : probe_wf probe0.
Proof. by split. Qed.
(** A check that saw a MIC failure adds its snapshot behind those that wait, or is
    counted as dropped when four of them do; any other check adds nothing. *)
Lemma check_queued {W} (real : option (list Z) -> Z -> W -> Z * W) packet encrypted hw p w :
  probe_wf p ->
  let '(result, p', _) := wrap_ble_ll_chkcrc real packet encrypted hw p w in
  probe_wf p' /\
  if Z.land result 2 =? 0 then waiting p' = waiting p /\ p_dropped p' = p_dropped p
  else if p_count p =? 4 then waiting p' = waiting p /\ p_dropped p' = u32 (p_dropped p + 1)
  else p_dropped p' = p_dropped p /\ exists s, waiting p' = waiting p ++ [s] /\ s_result s = result /\ s_check s = p_checks p'.
Proof.
  intros [H1 H2 H3]. unfold wrap_ble_ll_chkcrc. destruct (real packet encrypted w) as [result w']. cbv zeta.
  set (p1 := if negb (Z.land result 1 =? 0) then _ else _).
  assert (p_pending p1 = p_pending p /\ p_head p1 = p_head p /\ p_count p1 = p_count p /\ p_dropped p1 = p_dropped p) as (E1 & E2 & E3 & E4)
    by (subst p1; by split_if).
  clearbody p1. destruct (Z.land result 2 =? 0) eqn:El; cbn [negb].
  { rewrite El. split; [split; congruence|]. unfold waiting, pending_at. by rewrite E1, E2, E3. }
  rewrite E3. destruct (p_count p =? 4) eqn:E.
  { rewrite El. split; [split; cbn; congruence|]. unfold waiting, pending_at. cbn. by rewrite E1, E2, E3, E4. }
  destruct (packet_view packet encrypted result) as [header tail].
  assert (u8 (p_count p + 1) = p_count p + 1) as Hu by (apply u8_small; unfold Byte; lia). rewrite El.
  split; [split; cbn; rewrite ?length_insert, ?E3, ?Hu; (congruence || lia)|]. split; [exact E4|].
  eexists (Snapshot _ _ _ _ _ _ _ _ _ _ _ _). split; [|by cbn]. unfold waiting. cbn. rewrite E1, E2, E3, Hu.
  replace (Z.to_nat (p_count p + 1)) with (S (Z.to_nat (p_count p))) by lia. rewrite seq_S, map_app. cbn [map]. f_equal.
  - apply map_ext_in. intros i Hi. apply in_seq in Hi. unfold pending_at. rewrite !nth_lookup. f_equal.
    apply list_lookup_insert_ne. intros Heq. apply Z2Nat.inj in Heq; [|apply Z.mod_pos_bound; lia..]. Z.div_mod_to_equations. lia.
  - f_equal. rewrite nth_lookup, Nat.add_0_l, Z2Nat.id by lia.
    rewrite list_lookup_insert_eq; [done|]. rewrite H1. pose proof (Z.mod_pos_bound (p_head p + p_count p) 4). lia.
Qed.
(** A poll reports the oldest one. *)
Lemma poll_oldest p : probe_wf p ->
  let '(lines, p') := sdk_rx_probe_poll p in
  probe_wf p' /\ p_reported p' = p_dropped p' /\
  match waiting p with
  | [] => waiting p' = []
  | s :: rest => waiting p' = rest /\ take 4 lines = snapshot_lines p s
  end.
Proof.
  intros [H1 H2 H3]. unfold sdk_rx_probe_poll. destruct (p_count p =? 0) eqn:E; cbn [negb].
  - assert (waiting p = []) as -> by (unfold waiting; by replace (p_count p) with 0 by lia).
    assert (forall q, p_count q = 0 -> waiting q = []) as Hw by (intros q Hq; unfold waiting; by rewrite Hq).
    split_if; (split; [by split|]); (split; [cbn; lia|]); apply Hw; cbn; lia.
  - assert (u8 (p_count p - 1) = p_count p - 1) as Hu by (apply u8_small; unfold Byte; lia).
    set (p1 := p <| p_head := _ |> <| p_count ::= _ |>).
    assert (probe_wf p1) as Hw by (split; subst p1; cbn -[Z.modulo]; [exact H1|apply Z.mod_pos_bound; lia|rewrite Hu; lia]).
    assert (waiting p = pending_at p (p_head p) :: waiting p1) as ->.
    { unfold waiting. replace (Z.to_nat (p_count p)) with (S (Z.to_nat (p_count p - 1))) by lia. subst p1. cbn [seq map p_count p_head]. cbn. rewrite Hu.
      f_equal; [f_equal; rewrite Z.add_0_r; apply Z.mod_small; lia|]. rewrite <- seq_shift, map_map. apply map_ext. intros i. unfold pending_at. cbn.
      do 2 f_equal. rewrite Zplus_mod_idemp_l. f_equal. lia. }
    assert (p_reported p1 = p_reported p /\ p_dropped p1 = p_dropped p) as [Er Ed] by done. clearbody p1.
    split_if; (split; [by destruct Hw; split|]); (split; [cbn; lia|]); by split.
Qed.
